(* ===== verification/_CoqProject ===== *)
-Q . S2P
Prelude.v
Values.v
Bytes.v
Utf8.v
Text.v
Types.v
Contract.v
PlugKit.v
PlugLink.v
PlugScan.v
PlugNet.v
PlugTransport.v
PlugTunnel.v
PlugApp.v
PlugSwitch.v
PlugRadio.v
PlugText.v
PlugRouting.v
PlugCarrier.v
PlugNames.v
PlugAdmin.v
PlugMail.v
PlugWeb.v
PlugSession.v
PlugEdge.v
PlugPlant.v
PlugReads.v
Plugins.v
Testkit.v
Checksum.v
Samples.v
Engine.v
Router.v
Parser.v
Probes.v
TestkitRound.v
FlowKeys.v
Rollups.v
Unknowns.v
Arena.v
Store.v
StoreInv.v
StoreOps.v
StoreCounts.v
StoreKeys.v
StoreHeaps.v
Queries.v
StoreIngest.v
StoreProps.v
StoreAccounts.v
Condense.v
StoreFinish.v
Fmt.v
FmtRead.v
StreamView.v
Query.v
QueryGrammar.v
QueryLex.v
Snapshots.v
ViewIndex.v
ViewIndexProps.v
Tree.v
TreeProps.v
App.v
AppProps.v
Hub.v
Json.v
JsonProps.v
WebApi.v
WebApiProps.v
Upload.v
DefaultEngine.v
Capture.v
Pipeline.v
PipelineProps.v
Views.v
UnknownView.v
Ui.v
ViewsProps.v
Commands.v
