(* ===== verification/Prelude.v ===== *)
(** * pktflow: a verified model of the dissection engine and stream aggregator

    pktflow reads packets, takes them apart layer by layer with plugins, groups
    the layers into a hierarchy of bidirectional streams and shows the streams
    in a terminal, a web page or as JSON.  This development models that path
    from a capture source's packets to the rows and documents shown, as executable
    definitions, and proves what each part promises the next.

    ** The parts, in the order a packet meets them

    Shared ground.
    - [Prelude]: integers at their widths, slices, tactics, sorting, bounded
      loops, and the lemmas on lists and maps every file uses.
    - [Values] (core [value.rs]), [Bytes] ([bytes.rs], the [reader] monad over
      [ByteReader]), [Types] ([route.rs], [depth.rs], [error.rs], [packet.rs],
      [context.rs], [plugin.rs], [stream.rs]), [Utf8], [Text] (the parts of
      [str], [format!] and [f64] the program uses).

    Dissection ([crates/pktflow-core], [crates/pktflow-plugins]).
    - [Contract]: the class [Conformant], the promise of a plugin to the parser
      and the aggregator.  The parser and the store are proved against it.
    - [PlugKit], [PlugScan], [PlugText], [PlugReads]: how a dissector written
      over the reader, over a slice, or over lines of text comes to conform.
    - The 82 plugins, a [Module] each with its [header] or [parse], its constants,
      claims, identity and probe: [PlugLink] (ethernet, vlan, arp, mpls), [PlugNet]
      (ipv4, ipv6, icmpv4, icmpv6, igmp, ndp, mld), [PlugTransport] (udp, tcp),
      [PlugTunnel], [PlugApp], [PlugSwitch], [PlugRadio] (radiotap, dot11),
      [PlugRouting] (hsrp, vrrp, ospf, bgp), [PlugCarrier] (sctp, gtp, l2tpv3, rtp),
      [PlugNames] (dns and its kin), [PlugAdmin], [PlugMail] (mail, ftp,
      nfs, smb), [PlugWeb], [PlugSession], [PlugEdge] (tls, quic, radius), [PlugPlant]
      (mqtt, enip, bacnet, ptp, dnp3); each file's own header lists its sources.
    - [Plugins]: the registration list of [lib.rs] and its conformance.
    - [Engine] ([engine.rs]): registration, its five validation passes, lookups.
    - [Router] ([router.rs], [diagnostics.rs]): the next plugin for a hint, the
      heuristic fallback, the near-miss report.
    - [Parser] ([parser.rs]): the lazy iterator, entry resolution, [dissect].
    - [Probes]: a recognised buffer parses.  [Checksum]: RFC 1071.
    - [Testkit], [TestkitRound] ([crates/pktflow-testkit]): the packet and capture
      builders, the generated corpora and
      the round trip through the dissector.
    - [DefaultEngine]: [default_engine] builds and inherits what is proved of
      conforming plugins.

    Aggregation ([crates/pktflow-flows]).
    - [FlowKeys] ([key.rs]), [Rollups] ([rollup.rs]), [Unknowns] ([unknown.rs]).
    - [Arena] and [Store] ([store.rs]): generational slots and the aggregator, one
      definition per method; [StoreInv] its invariants, [StoreOps] what each
      primitive does, [StoreCounts], [StoreKeys] and [StoreHeaps] the invariants
      preserved, [StoreIngest] the steps of [ingest], [StoreAccounts] where one
      packet goes, [StoreFinish] the end of capture and timeouts that fit, [Condense] D16, [Queries] the
      read side, [StoreProps] what holds of every reachable state.

    Views ([crates/pktflow-view]).
    - [Fmt], [FmtRead] ([fmt.rs]), [StreamView] ([stream_view.rs]), [Query],
      [QueryGrammar], [QueryLex] ([query.rs]), [Snapshots] (the interface between
      the aggregator and its readers, discharged by the aggregator),
      [ViewIndex], [ViewIndexProps] ([index.rs]), [Hub] ([hub.rs] and the index memo
      of the web server), [Json], [JsonProps] ([json.rs]).

    Front ends.
    - [Tree], [TreeProps], [App], [AppProps] ([crates/pktflow-tui]): the tree pane,
      the application state, the event loop; [Ui] ([ui.rs]): the frames, each the
      widgets drawn and their rectangles, and the loop that draws them.
    - [WebApi], [WebApiProps] ([crates/pktflow-web/src/api.rs]) and [Upload]
      ([lib.rs]): the documents served, the upload handler and the server's routes.

    Capture and the command line ([crates/pktflow-capture], [crates/pktflow-cli]).
    - [Capture] ([source.rs], [offline.rs], [live.rs], [error.rs]): the class
      [PacketSource] and its instances - files, live devices, the mock - over the
      class [Pkttap] of the capture library, and one turn of [pump].
    - [Pipeline] ([run.rs], with the arguments of [cli.rs] and [error.rs]): the stop
      flags, the producer and the consumer as the two threads of a schedule around
      the bounded channel, the four runs and the hub pipeline; [PipelineProps] what
      they do, against the interface [Ending] of sources that end.
    - [Views] ([views.rs], [summary.rs]): the tree and the tables, selectors, the
      drill-down, packet lines, the JSON envelope and event stream; [UnknownView]
      ([unknown_view.rs], [scaffold.rs]): the unknown lens, its export and the
      scaffold; [ViewsProps] what they show.
    - [Commands] ([lib.rs], [main.rs]): [dispatch], what each subcommand runs and
      prints, and what is left on the two standard streams.

    [Samples] holds small plugins and packets the witnesses run on.

    ** How the model reads

    A record is a struct, an inductive type an enum, with the source's names.
    A method that mutates returns the state after it; [Result] is [result], and a
    panic is [None] ([Panicked] in the query parser; a flag of the aggregator,
    [Store.ag_overflowed], for the sums of times, which the runs turn into [None]).
    A time is its nanoseconds since the epoch, in the range of Unix.  The parser's iterator, the
    store, the index, the hub and the application are state records; requests on
    the index are functions from the index to an answer and the index left.
    Concurrent use of the hub is a step relation whose steps are the code's
    atomic actions; a run's two threads step in the order of a schedule, any list
    of thread names, in which a blocked thread's step does not happen.  The file
    system is a map of contents and a list of the outcomes of the calls into it,
    the clock a function from the number of earlier reads.  Binary64 arithmetic is [SpecFloat]'s.

    ** What the theorems show

    - Dissection: every packet dissects, the layers tile the bytes, the lazy and
      the eager view agree, a packet is unknown exactly when it should be
      ([Parser]); routing follows the decision table ([Router]); the registry is
      what the registrations say and each error names a true conflict
      ([Engine]); the plugins conform ([Plugins]), but for six that accept some
      strict prefix of a message and three that leave out a key field of some, which
      are shown to; a compressed DNS name decodes or fails within its bound
      ([PlugNames]); checksums are RFC 1071's ([Checksum]); a built packet
      dissects to what it was built from, a written pcap file is read back, and the
      flows of the generated fan-out are told apart ([TestkitRound]).
    - Aggregation: the store is a forest, keys are unique among siblings, the
      summary equals the sums it stands for, handles never dangle, sweeps and caps
      end and remove exactly what they should, the end of capture closes every
      stream once ([Store*]); flow keys identify the unordered pair of
      endpoints ([FlowKeys]); rollups and the unknown registry are functions of the
      observation history.
    - Views: the query parser is the grammar's decision procedure and ends;
      queries return the matches and their ancestors; the index answers as if
      nothing were cached; windows, timelines, tree rows, stream records and web
      documents show exactly the streams they should; a terminal session never
      panics, unless at a frame ([Ui.undrawable]) that overflows; requests never see an older capture than they must; a failed
      upload changes nothing, and until an upload replaces its hub the server answers
      as if it cached nothing ([Upload]).
    - Runs: no schedule of the two threads deadlocks or drops a packet, and those
      that end do so with the outcome of reading, dissecting and aggregating one
      packet after the other; some schedule ends exactly when no sum of a packet's
      time and a timeout overflows ([StoreFinish.run_running] for when none does); the report counts what the snapshot accounts for;
      the hub gets a first, throttled and last snapshot and the right end; the
      tail shown with a packet is the unparsed bytes ([PipelineProps]).
    - The command line: its tree is the terminal's pane, its merged table the
      aggregator's own fold, a selector finds the one stream it names or fails with
      the right exit code, an exported group is on disk byte for byte
      ([ViewsProps]); a command prints the whole result of its own run or nothing, and
      the live view ends on the first 40 lines of the tree [--batch] prints
      ([Commands]).
    - Findings: lemmas that exhibit where the code departs from its documents are
      [QueryLex.lex_panics_on_a_grave], [QueryLex.regex_literal_mangled],
      [Hub.memo_confuses_hubs], [AppProps.filter_trim_diverges],
      [Cdp.short_success], [Dot11.not_keyed], [DefaultEngine.quic_short_header_key_error],
      [PipelineProps.late_registration_runs_on],
      [PipelineProps.huge_idle_timeout_panics], [Ui.spark_overflows],
      [Upload.upload_shows_the_old_index].

    ** Bounds and fuel

    Recursion that is not structural carries fuel, and its sufficiency is proved:
    record walks run at most one round per remaining byte ([PlugKit.iterate],
    every round consumes); the iterator is bounded by the depth limit
    ([Parser.dissect_total]); the sweep by the heap entries and the capped
    eviction by entries and streams ([StoreHeaps]); the query lexer by the
    input's length and the parser by [parse_fuel], a multiple of the tokens
    ([QueryGrammar.parse_or_ends], [QueryLex.query_parse_total]); ancestor walks and
    the tree by the number of streams, enough because parents are older than
    their children ([Snapshots], [TreeProps]), which also covers the command line's
    tree ([ViewsProps]); a DNS name by its jump limit and
    length ([PlugNames.Dns.decode_name_total]).

    ** Parameters

    [ViewEnv] holds what the views take from outside: the embedder's route
    resolver, the Unicode case tables and the regex crate.  [Hasher] is the
    standard hasher: nothing depends on its digests.  [Json] takes the time
    crate's RFC 3339 format and [Upload] the embedder's spawner, the temporary
    directory and the outcome of each file operation.  [Pkttap] is the capture
    library; a run also takes the outcome of opening its source, the lengths of
    files and the clock, [str_debug] is [{:?}] of a string, and [to_string_pretty],
    [json_str] and [write_json] are [serde_json]'s.  [Ui] takes [ratatui]'s layout
    solver; the styles, lines and widgets of a frame are the data the code builds.

    ** Not modelled

    The argument grammar, which [clap] derives; the loops that run the servers; how
    [ratatui] lays widgets out in cells; axum's routing and extractors, the timer of
    the event stream and the sockets of the web server.  Stack depth and allocation
    are unbounded, [Arc] is its content, and locks are the atomicity they
    give; memory shared by the threads of a run is the channel and the stop flags. *)

From stdpp Require Export base numbers list gmap strings countable sorting.
From Stdlib Require Export ZArith Lia.

(** ** Conventions

    Machine integers, lengths and offsets of the source ([u8] ... [u64],
    [usize]) are [Z]; [nat] is used only for indices into model lists and for
    loop bounds.  Bytes are [Z] values constrained by [is_byte]. *)

Declare Scope pktflow_scope.
Delimit Scope pktflow_scope with pktflow.
Global Open Scope Z_scope.

Create HintDb pktflow.
Create Rewrite HintDb pktflow.

Definition u8_max : Z := 255.
Definition u16_max : Z := 65535.
Definition u32_max : Z := 4294967295.
Definition u64_max : Z := 18446744073709551615.
Definition usize_max : Z := 18446744073709551615.
Definition i64_max : Z := 9223372036854775807.
Definition i64_min : Z := -9223372036854775808.

(** [saturating_sub] and [saturating_add] of the unsigned widths. *)
Definition sat_sub (a b : Z) : Z := Z.max 0 (a - b).
Definition sat_add (max a b : Z) : Z := Z.min max (a + b).

(** [u16::try_from(n).unwrap_or(u16::MAX)] and its [u32] sibling. *)
Definition clamp_to (max n : Z) : Z := if n <=? max then n else max.

Definition is_byte (b : Z) : Prop := 0 <= b < 256.
Abbreviation bytes_ok := (Forall is_byte).

(** [slice.len()] as the [usize] it is. *)
Definition blen {A} (l : list A) : Z := Z.of_nat (length l).

(** [slice.get(a..b)]. *)
Definition slice {A} (l : list A) (a b : Z) : option (list A) :=
  if (0 <=? a) && (a <=? b) && (b <=? blen l)
  then Some (take (Z.to_nat (b - a)) (drop (Z.to_nat a) l))
  else None.

(** [slice.get(a..).unwrap_or(&[])]. *)
Definition slice_from {A} (l : list A) (a : Z) : list A := drop (Z.to_nat a) l.

(** [slice.get(i).copied()]. *)
Definition byte_at (l : list Z) (i : Z) : option Z :=
  if 0 <=? i then l !! Z.to_nat i else None.

(** ** Tactics *)

(** Case analysis on every boolean test or match that blocks the goal or a
    hypothesis, closing the branches that became contradictory. *)
Ltac split_matches :=
  repeat (case_match || case_decide); simplify_eq/=.

(** Turn the boolean comparisons of the hypotheses into propositions. *)
Ltac reflect_bools :=
  repeat match goal with
  | H : andb _ _ = true |- _ => apply andb_true_iff in H as [? ?]
  | H : orb _ _ = false |- _ => apply orb_false_iff in H as [? ?]
  | H : negb _ = true |- _ => apply negb_true_iff in H
  | H : negb _ = false |- _ => apply negb_false_iff in H
  | H : (_ <=? _) = true |- _ => apply Z.leb_le in H
  | H : (_ <=? _) = false |- _ => apply Z.leb_gt in H
  | H : (_ <? _) = true |- _ => apply Z.ltb_lt in H
  | H : (_ <? _) = false |- _ => apply Z.ltb_ge in H
  | H : (_ =? _) = true |- _ => apply Z.eqb_eq in H
  | H : (_ =? _) = false |- _ => apply Z.eqb_neq in H
  | H : bool_decide _ = true |- _ => apply bool_decide_eq_true in H
  | H : bool_decide _ = false |- _ => apply bool_decide_eq_false in H
  end.

(** ** Lengths and slices *)

Section Slices.
Context {A : Type}.
Implicit Types (l k : list A) (a b : Z).

Lemma blen_nonneg l : 0 <= blen l.
Proof. unfold blen. lia. Qed.

Lemma blen_nil : blen (@nil A) = 0.
Proof. done. Qed.

Lemma blen_cons (x : A) l : blen (x :: l) = blen l + 1.
Proof. unfold blen. rewrite length_cons. lia. Qed.

Lemma blen_app l k : blen (l ++ k) = blen l + blen k.
Proof. unfold blen. rewrite length_app. lia. Qed.

Lemma blen_zero l : blen l = 0 -> l = [].
Proof. destruct l; [done|]. rewrite blen_cons. pose proof (blen_nonneg l). lia. Qed.

Lemma slice_Some l a b k :
  slice l a b = Some k <->
  0 <= a /\ a <= b /\ b <= blen l /\
  k = take (Z.to_nat (b - a)) (drop (Z.to_nat a) l).
Proof.
  unfold slice. split.
  - intros H. case_match; [|done]. reflect_bools. simplify_eq. done.
  - intros (? & ? & ? & ->).
    replace ((0 <=? a) && (a <=? b) && (b <=? blen l)) with true; [done|].
    symmetry. rewrite !andb_true_iff, !Z.leb_le. done.
Qed.

Lemma slice_None l a b :
  0 <= a <= b -> slice l a b = None <-> blen l < b.
Proof.
  intros [? ?]. unfold slice.
  rewrite (proj2 (Z.leb_le 0 a)), (proj2 (Z.leb_le a b)) by lia. simpl.
  destruct (b <=? blen l) eqn:E; reflect_bools; split; (done || lia).
Qed.

Lemma slice_length l a b k : slice l a b = Some k -> blen k = b - a.
Proof.
  rewrite slice_Some. intros (? & ? & Hb & ->). unfold blen in *.
  rewrite length_take, length_drop. lia.
Qed.

Lemma slice_from_app l a b k :
  slice l a b = Some k -> slice_from l a = k ++ slice_from l b.
Proof.
  rewrite slice_Some. intros (? & ? & ? & ->). unfold slice_from.
  rewrite <- (take_drop (Z.to_nat (b - a)) (drop (Z.to_nat a) l)) at 1.
  f_equal. rewrite drop_drop. f_equal. lia.
Qed.

Lemma slice_from_0 l : slice_from l 0 = l.
Proof. done. Qed.

Lemma slice_from_blen l : slice_from l (blen l) = [].
Proof. unfold slice_from, blen. rewrite Nat2Z.id. apply drop_all. Qed.

Lemma blen_slice_from l a : 0 <= a <= blen l -> blen (slice_from l a) = blen l - a.
Proof. unfold slice_from, blen. intros. rewrite length_drop. lia. Qed.

Lemma slice_app_l l k a : 0 <= a -> slice (l ++ k) 0 (blen l) = Some l.
Proof.
  intros _. apply slice_Some. rewrite blen_app. pose proof (blen_nonneg l).
  pose proof (blen_nonneg k). repeat split; try lia.
  simpl. rewrite drop_0. replace (Z.to_nat (blen l - 0)) with (length l)
    by (unfold blen; lia).
  by rewrite take_app_length.
Qed.
End Slices.

#[export] Hint Rewrite @blen_nil @blen_cons @blen_app : pktflow.
#[export] Hint Resolve blen_nonneg : pktflow.

Lemma slice_bytes_ok l a b k : bytes_ok l -> slice l a b = Some k -> bytes_ok k.
Proof.
  rewrite slice_Some. intros Hl (_ & _ & _ & ->).
  by apply Forall_take, Forall_drop.
Qed.

Lemma slice_from_bytes_ok l a : bytes_ok l -> bytes_ok (slice_from l a).
Proof. apply Forall_drop. Qed.

(** ** Big- and little-endian integers

    [from_be_bytes]/[to_be_bytes] of the unsigned widths, for any width. *)

Fixpoint be_value_acc (acc : Z) (bs : list Z) : Z :=
  match bs with
  | [] => acc
  | b :: bs' => be_value_acc (acc * 256 + b) bs'
  end.

Definition be_value (bs : list Z) : Z := be_value_acc 0 bs.
Definition le_value (bs : list Z) : Z := be_value (rev bs).

Fixpoint be_bytes (n : nat) (z : Z) : list Z :=
  match n with
  | O => []
  | S n' => be_bytes n' (z / 256) ++ [z mod 256]
  end.

Definition le_bytes (n : nat) (z : Z) : list Z := rev (be_bytes n z).

(** Two's complement reading of a [w]-bit unsigned value. *)
Definition to_signed (w : Z) (z : Z) : Z := if z <? 2 ^ (w - 1) then z else z - 2 ^ w.

Lemma be_value_acc_app acc bs cs :
  be_value_acc acc (bs ++ cs) = be_value_acc (be_value_acc acc bs) cs.
Proof. revert acc. induction bs as [|b bs IH]; intros acc; [done|]. apply IH. Qed.

Lemma be_value_snoc bs b : be_value (bs ++ [b]) = be_value bs * 256 + b.
Proof. unfold be_value. by rewrite be_value_acc_app. Qed.

Lemma length_be_bytes n z : length (be_bytes n z) = n.
Proof.
  revert z. induction n as [|n IH]; intros z; [done|].
  simpl. rewrite length_app, IH. simpl. lia.
Qed.

Lemma be_bytes_ok n z : bytes_ok (be_bytes n z).
Proof.
  revert z. induction n as [|n IH]; intros z; [constructor|].
  simpl. apply Forall_app. split; [apply IH|].
  constructor; [|constructor]. unfold is_byte. apply Z.mod_pos_bound. lia.
Qed.

Lemma pow256_S n : 256 ^ Z.of_nat (S n) = 256 * 256 ^ Z.of_nat n.
Proof. rewrite Nat2Z.inj_succ, Z.pow_succ_r by lia. done. Qed.

Lemma be_value_be_bytes n z :
  0 <= z < 256 ^ Z.of_nat n -> be_value (be_bytes n z) = z.
Proof.
  revert z. induction n as [|n IH]; intros z Hz.
  - simpl in *. unfold be_value. simpl. lia.
  - rewrite pow256_S in Hz. simpl. rewrite be_value_snoc, IH.
    + pose proof (Z.div_mod z 256). lia.
    + split; [apply Z.div_pos; lia|]. apply Z.div_lt_upper_bound; lia.
Qed.

Lemma be_value_bounds bs :
  bytes_ok bs -> 0 <= be_value bs < 256 ^ blen bs.
Proof.
  induction bs as [|b bs IH] using rev_ind; intros Hok; [done|].
  apply Forall_app in Hok as [Hbs Hb]. inversion_clear Hb as [|? ? Hb' _].
  specialize (IH Hbs). rewrite be_value_snoc. rewrite blen_app. rewrite blen_cons. rewrite (blen_nil (A:=Z)).
  rewrite Z.add_0_l, Z.pow_add_r by (pose proof (blen_nonneg bs); lia).
  unfold is_byte in Hb'. lia.
Qed.

Lemma be_bytes_be_value bs :
  bytes_ok bs -> be_bytes (length bs) (be_value bs) = bs.
Proof.
  induction bs as [|b bs IH] using rev_ind; intros Hok; [done|].
  apply Forall_app in Hok as [Hbs Hb]. inversion_clear Hb as [|? ? Hb' _].
  unfold is_byte in Hb'.
  rewrite length_app, Nat.add_comm. simpl. rewrite be_value_snoc.
  replace ((be_value bs * 256 + b) / 256) with (be_value bs)
    by (rewrite Z.div_add_l, Z.div_small; lia).
  rewrite (Z.add_comm (be_value bs * 256)), Z.mod_add, Z.mod_small by lia.
  by rewrite IH.
Qed.

Lemma be_bytes_inj n z1 z2 :
  0 <= z1 < 256 ^ Z.of_nat n -> 0 <= z2 < 256 ^ Z.of_nat n ->
  be_bytes n z1 = be_bytes n z2 -> z1 = z2.
Proof.
  intros H1 H2 H.
  by rewrite <- (be_value_be_bytes n z1), <- (be_value_be_bytes n z2), H.
Qed.

Lemma be_value_inj bs cs :
  bytes_ok bs -> bytes_ok cs -> length bs = length cs ->
  be_value bs = be_value cs -> bs = cs.
Proof.
  intros Hb Hc Hl Hv.
  by rewrite <- (be_bytes_be_value bs), <- (be_bytes_be_value cs), Hl, Hv.
Qed.

Lemma le_value_le_bytes n z :
  0 <= z < 256 ^ Z.of_nat n -> le_value (le_bytes n z) = z.
Proof. intros. unfold le_value, le_bytes. rewrite rev_involutive. by apply be_value_be_bytes. Qed.

Lemma to_signed_bounds w z :
  0 < w -> 0 <= z < 2 ^ w -> - 2 ^ (w - 1) <= to_signed w z < 2 ^ (w - 1).
Proof.
  intros Hw Hz. unfold to_signed.
  assert (2 ^ w = 2 * 2 ^ (w - 1)) as Hp.
  { rewrite <- Z.pow_succ_r by lia. f_equal. lia. }
  destruct (z <? 2 ^ (w - 1)) eqn:E; reflect_bools; lia.
Qed.

Lemma to_signed_mod w z : 0 < w -> 0 <= z < 2 ^ w -> (to_signed w z) mod 2 ^ w = z.
Proof.
  intros Hw Hz. unfold to_signed. destruct (z <? 2 ^ (w - 1)).
  - by apply Z.mod_small.
  - rewrite <- (Z.mod_add _ 1) by lia. rewrite Z.mul_1_l, Z.sub_add. by apply Z.mod_small.
Qed.

(** ** Lexicographic order on byte strings

    [Ord] for slices and for [str]. *)

Fixpoint lex_leb (a b : list Z) : bool :=
  match a, b with
  | [], _ => true
  | _ :: _, [] => false
  | x :: a', y :: b' => (x <? y) || ((x =? y) && lex_leb a' b')
  end.

Lemma lex_leb_refl a : lex_leb a a = true.
Proof. induction a as [|x a IH]; [done|]. simpl. rewrite Z.eqb_refl, IH. by destruct (x <? x). Qed.

Lemma lex_leb_total a b : lex_leb a b = false -> lex_leb b a = true.
Proof.
  revert b. induction a as [|x a IH]; intros [|y b]; try done. simpl. intros H.
  apply orb_false_iff in H as [Hlt H]. apply Z.ltb_ge in Hlt.
  destruct (Z.eqb_spec x y) as [->|Hne].
  - rewrite Z.ltb_irrefl, Z.eqb_refl. simpl. by apply IH.
  - assert ((y <? x) = true) as -> by (apply Z.ltb_lt; lia). done.
Qed.

Lemma lex_leb_antisym a b : lex_leb a b = true -> lex_leb b a = true -> a = b.
Proof.
  revert b. induction a as [|x a IH]; intros [|y b]; try done. simpl.
  rewrite !orb_true_iff, !andb_true_iff, !Z.ltb_lt, !Z.eqb_eq.
  intros [?|[-> ?]] [?|[? ?]]; try lia. f_equal. by apply IH.
Qed.

Lemma lex_leb_trans a b c : lex_leb a b = true -> lex_leb b c = true -> lex_leb a c = true.
Proof.
  revert b c. induction a as [|x a IH]; intros [|y b] [|z c]; try done. simpl.
  rewrite !orb_true_iff, !andb_true_iff, !Z.ltb_lt, !Z.eqb_eq.
  intros [?|[-> ?]] [?|[-> ?]]; [left; lia | by left | left; lia |].
  right. split; [done|]. by eapply IH.
Qed.

(** The UTF-8 bytes of a Rust string, as numbers. *)
Fixpoint str_bytes (s : string) : list Z :=
  match s with
  | EmptyString => []
  | String c s' => Z.of_N (Ascii.N_of_ascii c) :: str_bytes s'
  end.

Definition str_leb (a b : string) : bool := lex_leb (str_bytes a) (str_bytes b).

Lemma str_bytes_ok s : bytes_ok (str_bytes s).
Proof.
  induction s as [|c s IH]; simpl; constructor; [|done].
  unfold is_byte. pose proof (Ascii.N_ascii_bounded c). lia.
Qed.

Lemma str_bytes_inj s t : str_bytes s = str_bytes t -> s = t.
Proof.
  revert t. induction s as [|c s IH]; intros [|d t] H; simplify_eq/=; [done|].
  f_equal; [|by apply IH].
  rewrite <- (Ascii.ascii_N_embedding c), <- (Ascii.ascii_N_embedding d). f_equal. lia.
Qed.

Lemma str_leb_total a b : str_leb a b = false -> str_leb b a = true.
Proof. apply lex_leb_total. Qed.

Lemma str_leb_antisym a b : str_leb a b = true -> str_leb b a = true -> a = b.
Proof. intros. apply str_bytes_inj. by apply lex_leb_antisym. Qed.

Lemma str_leb_trans a b c : str_leb a b = true -> str_leb b c = true -> str_leb a c = true.
Proof. apply lex_leb_trans. Qed.

(** ** Derived orders

    What [#[derive(Ord)]], tuples, [Reverse] and [Option] do to component
    orders, as boolean functions with their laws as instances. *)

Class TotalOrd {A : Type} (leb : A -> A -> bool) : Prop := {
  ord_total : forall x y, leb x y = false -> leb y x = true;
  ord_trans : forall x y z, leb x y = true -> leb y z = true -> leb x z = true;
}.

Definition lex_pair {A B} (leb1 : A -> A -> bool) (leb2 : B -> B -> bool) (x y : A * B) : bool :=
  leb1 x.1 y.1 && (negb (leb1 y.1 x.1) || leb2 x.2 y.2).

Definition option_leb {A} (leb : A -> A -> bool) (x y : option A) : bool :=
  match x, y with None, _ => true | Some _, None => false | Some a, Some b => leb a b end.

Definition reverse_leb {A} (leb : A -> A -> bool) (x y : A) : bool := leb y x.

Definition key_leb {A B} (f : A -> B) (leb : B -> B -> bool) (x y : A) : bool := leb (f x) (f y).

#[export] Typeclasses Opaque lex_pair option_leb reverse_leb key_leb.

#[export] Instance Zleb_ord : TotalOrd Z.leb.
Proof. split; intros *; rewrite !Z.leb_le, ?Z.leb_gt; lia. Qed.

#[export] Instance lex_leb_ord : TotalOrd lex_leb.
Proof. split; [apply lex_leb_total|apply lex_leb_trans]. Qed.

#[export] Instance str_leb_ord : TotalOrd str_leb.
Proof. split; [apply str_leb_total|apply str_leb_trans]. Qed.

#[export] Instance reverse_ord {A} (leb : A -> A -> bool) : TotalOrd leb -> TotalOrd (reverse_leb leb).
Proof. intros [Ht Hr]. unfold reverse_leb. split; eauto. Qed.

#[export] Instance key_ord {A B} (f : A -> B) leb : TotalOrd leb -> TotalOrd (key_leb f leb).
Proof. intros [Ht Hr]. unfold key_leb. split; eauto. Qed.

#[export] Instance option_ord {A} (leb : A -> A -> bool) : TotalOrd leb -> TotalOrd (option_leb leb).
Proof.
  intros [Ht Hr]. split; [intros [x|] [y|]; simpl; eauto|intros [x|] [y|] [z|]; simpl; eauto].
  done.
Qed.

#[export] Instance lex_pair_ord {A B} (leb1 : A -> A -> bool) (leb2 : B -> B -> bool) :
  TotalOrd leb1 -> TotalOrd leb2 -> TotalOrd (lex_pair leb1 leb2).
Proof.
  intros [Ht1 Hr1] [Ht2 Hr2]. unfold lex_pair. split.
  - intros [x1 x2] [y1 y2]. simpl. destruct (leb1 x1 y1) eqn:E1; simpl.
    + destruct (leb1 y1 x1) eqn:E2; simpl; [apply Ht2|done].
    + intros _. by rewrite (Ht1 _ _ E1).
  - intros [x1 x2] [y1 y2] [z1 z2]. simpl.
    rewrite !andb_true_iff, !orb_true_iff, !negb_true_iff. intros [Hxy H1] [Hyz H2].
    split; [by eapply Hr1|].
    destruct (leb1 z1 x1) eqn:E; [right|by left].
    assert (leb1 y1 x1 = true) as Hyx by by eapply Hr1.
    assert (leb1 z1 y1 = true) as Hzy by by eapply Hr1.
    destruct H1, H2; try congruence. by eapply Hr2.
Qed.

(** ** Stable sorting

    [sort_by leb] is the stable [Vec::sort_by] for the total preorder [leb].
    [Sorted_by] orders every pair, which is what consumers of a sorted
    vector rely on. *)

Section Sorting.
Context {A : Type} (leb : A -> A -> bool).

Fixpoint insert_by (x : A) (l : list A) : list A :=
  match l with
  | [] => [x]
  | y :: l' => if leb x y then x :: l else y :: insert_by x l'
  end.

Definition sort_by (l : list A) : list A := foldr insert_by [] l.

Definition Sorted_by : list A -> Prop := StronglySorted (fun x y => leb x y = true).

Lemma insert_by_Permutation x l : insert_by x l ≡ₚ x :: l.
Proof.
  induction l as [|y l IH]; simpl; [done|]. case_match; [done|].
  rewrite IH. apply Permutation_swap.
Qed.

Lemma sort_by_Permutation l : sort_by l ≡ₚ l.
Proof.
  induction l as [|x l IH]; simpl; [done|]. by rewrite insert_by_Permutation, IH.
Qed.

Lemma elem_of_insert_by x y l : y ∈ insert_by x l <-> y = x \/ y ∈ l.
Proof. by rewrite insert_by_Permutation, elem_of_cons. Qed.

Lemma elem_of_sort_by x l : x ∈ sort_by l <-> x ∈ l.
Proof. by rewrite sort_by_Permutation. Qed.

Lemma length_sort_by l : length (sort_by l) = length l.
Proof. by rewrite sort_by_Permutation. Qed.

Lemma length_insert_by x l : length (insert_by x l) = S (length l).
Proof. by rewrite insert_by_Permutation. Qed.

Hypothesis leb_total : forall x y, leb x y = false -> leb y x = true.
Hypothesis leb_trans : forall x y z, leb x y = true -> leb y z = true -> leb x z = true.

Lemma insert_by_Sorted x l : Sorted_by l -> Sorted_by (insert_by x l).
Proof.
  unfold Sorted_by. induction 1 as [|y l Hl IH Hy]; simpl.
  - repeat constructor.
  - case_match eqn:E.
    + constructor; [by constructor|]. constructor; [done|].
      eapply Forall_impl; [done|]. eauto.
    + constructor; [done|]. apply Forall_forall. intros z.
      rewrite elem_of_insert_by. intros [->|Hz]; [by apply leb_total|].
      by eapply (proj1 (Forall_forall _ _) Hy).
Qed.

Lemma sort_by_Sorted l : Sorted_by (sort_by l).
Proof. induction l as [|x l IH]; simpl; [constructor|]. by apply insert_by_Sorted. Qed.

Lemma Sorted_by_head x l y : Sorted_by (x :: l) -> y ∈ x :: l -> x = y \/ leb x y = true.
Proof.
  intros Hs Hy. apply StronglySorted_inv in Hs as [_ Hs].
  apply elem_of_cons in Hy as [->|Hy]; [by left|right].
  by eapply (proj1 (Forall_forall _ _) Hs).
Qed.

(** Earlier is no greater. *)
Lemma Sorted_by_lookup l i j x y :
  Sorted_by l -> (i < j)%nat -> l !! i = Some x -> l !! j = Some y -> leb x y = true.
Proof.
  intros Hs Hij Hx Hy. rewrite <- (take_drop (S i) l) in Hs.
  eapply (StronglySorted_app_1_elem_of _ _ _ x y) in Hs; [done|..].
  - apply elem_of_take. exists i. split; [done|lia].
  - apply list_elem_of_lookup. exists (j - S i)%nat. rewrite lookup_drop.
    by replace (S i + (j - S i))%nat with j by lia.
Qed.
End Sorting.

Lemma insert_by_ord {A} (leb : A -> A -> bool) `{!TotalOrd leb} x l :
  Sorted_by leb l -> Sorted_by leb (insert_by leb x l).
Proof. apply insert_by_Sorted; [apply ord_total|apply ord_trans]. Qed.

Lemma sort_by_ord {A} (leb : A -> A -> bool) `{!TotalOrd leb} l : Sorted_by leb (sort_by leb l).
Proof. apply sort_by_Sorted; [apply ord_total|apply ord_trans]. Qed.

(** Filtering a sorted list is sorting the filtered one: the sort is stable. *)
Section Filter_sorted.
Context {A : Type} (leb : A -> A -> bool) `{!TotalOrd leb} (P : A -> Prop) `{!forall x, Decision (P x)}.

Lemma insert_by_least x l : Forall (fun y => leb x y = true) l -> insert_by leb x l = x :: l.
Proof. intros Hx. destruct Hx as [|y l Hy _]; [done|]. simpl. by rewrite Hy. Qed.

Lemma filter_insert_by x l : Sorted_by leb l ->
  filter P (insert_by leb x l) = if decide (P x) then insert_by leb x (filter P l) else filter P l.
Proof.
  intros Hl. induction Hl as [|y l Hl IH Hy]; [cbn [insert_by]; rewrite filter_cons, filter_nil; by case_decide|]. cbn [insert_by].
  destruct (leb x y) eqn:Exy.
  - rewrite filter_cons. case_decide; [|done]. rewrite insert_by_least; [done|].
    apply Forall_forall. intros z Hz. apply list_elem_of_filter in Hz as [_ Hz].
    apply elem_of_cons in Hz as [->|Hz]; [done|]. rewrite Forall_forall in Hy. eapply ord_trans; [done|by apply Hy].
  - rewrite !filter_cons, IH. repeat case_decide; try done. simpl. by rewrite Exy.
Qed.

Lemma filter_sort_by l : filter P (sort_by leb l) = sort_by leb (filter P l).
Proof.
  induction l as [|x l IH]; [done|]. simpl. rewrite filter_insert_by, filter_cons, IH by by apply sort_by_ord.
  by case_decide.
Qed.
End Filter_sorted.

Create HintDb sorting.
#[export] Hint Resolve insert_by_ord sort_by_ord : sorting.

(** ** Loops

    A [while] loop is a body that says whether it goes round again, iterated
    under a bound.  [loop] returns [None] exactly when the bound is hit, so a
    termination theorem is [loop _ _ = Some _]. *)

Inductive ctl (S : Type) := Again (s : S) | Done (s : S).
Arguments Again {S} _.
Arguments Done {S} _.

Section Loop.
Context {S : Type} (body : S -> ctl S).

Fixpoint loop (fuel : nat) (s : S) : option S :=
  match fuel with
  | O => None
  | Datatypes.S fuel' =>
      match body s with
      | Done s' => Some s'
      | Again s' => loop fuel' s'
      end
  end.

(** The loop as the source runs it: the bound is only a device. *)
Definition run_loop (fuel : nat) (s : S) : S := default s (loop fuel s).

Lemma loop_total (m : S -> nat) fuel s :
  (forall s1 s2, body s1 = Again s2 -> (m s2 < m s1)%nat) ->
  (m s < fuel)%nat -> exists s', loop fuel s = Some s'.
Proof.
  intros Hm. revert s. induction fuel as [|fuel IH]; intros s Hs; [lia|].
  simpl. destruct (body s) as [s1|s1] eqn:E; [|by eauto].
  apply IH. apply Hm in E. lia.
Qed.

(** The same with a measure that decreases along an invariant. *)
Lemma loop_total_inv (I : S -> Prop) (m : S -> nat) fuel s :
  (forall s1 s2, I s1 -> body s1 = Again s2 -> I s2 /\ (m s2 < m s1)%nat) ->
  I s -> (m s < fuel)%nat -> exists s', loop fuel s = Some s'.
Proof.
  intros Hm. revert s. induction fuel as [|fuel IH]; intros s HI Hs; [lia|].
  simpl. destruct (body s) as [s1|s1] eqn:E; [|by eauto].
  destruct (Hm _ _ HI E) as [HI' Hlt]. apply IH; [done|lia].
Qed.

Lemma loop_inv (I : S -> Prop) fuel s s' :
  (forall s1 s2, I s1 -> body s1 = Again s2 -> I s2) ->
  (forall s1 s2, I s1 -> body s1 = Done s2 -> I s2) ->
  I s -> loop fuel s = Some s' -> I s'.
Proof.
  intros HA HD. revert s. induction fuel as [|fuel IH]; intros s Hs H; [done|].
  simpl in H. destruct (body s) as [s1|s1] eqn:E; simplify_eq/=; eauto.
Qed.

(** The exit condition: the loop leaves only through the body's [Done]. *)
Lemma loop_exit (I : S -> Prop) fuel s s' :
  (forall s1 s2, I s1 -> body s1 = Again s2 -> I s2) ->
  I s -> loop fuel s = Some s' -> exists s0, I s0 /\ body s0 = Done s'.
Proof.
  intros HA. revert s. induction fuel as [|fuel IH]; intros s Hs H; [done|].
  simpl in H. destruct (body s) as [s1|s1] eqn:E; simplify_eq/=; eauto.
Qed.

Lemma run_loop_inv (I : S -> Prop) fuel s :
  (forall s1 s2, I s1 -> body s1 = Again s2 -> I s2) ->
  (forall s1 s2, I s1 -> body s1 = Done s2 -> I s2) ->
  I s -> I (run_loop fuel s).
Proof.
  intros HA HD Hs. unfold run_loop.
  destruct (loop fuel s) as [s'|] eqn:E; [|done]. by eapply loop_inv.
Qed.
End Loop.

(** ** First matches *)

Section FindFirst.
Context {A : Type} (f : A -> bool).

(** [Iterator::find]. *)
Fixpoint find_first (l : list A) : option A :=
  match l with
  | [] => None
  | x :: l' => if f x then Some x else find_first l'
  end.

Lemma find_first_Some l x : find_first l = Some x -> x ∈ l /\ f x = true.
Proof.
  induction l as [|y l IH]; simpl; [done|]. case_match; intros; simplify_eq.
  - split; [by apply elem_of_cons; left|done].
  - destruct IH as [? ?]; [done|]. split; [by apply elem_of_cons; right|done].
Qed.

Lemma find_first_None l : find_first l = None <-> forall x, x ∈ l -> f x = false.
Proof.
  induction l as [|y l IH]; simpl.
  - split; [intros _ x Hx; by apply elem_of_nil in Hx|done].
  - case_match eqn:E; split.
    + done.
    + intros H. rewrite H in E; [done|by apply elem_of_cons; left].
    + intros H x [->|Hx]%elem_of_cons; [done|]. by apply IH.
    + intros H. apply IH. intros x Hx. apply H. by apply elem_of_cons; right.
Qed.

Lemma find_first_is_Some l x : x ∈ l -> f x = true -> is_Some (find_first l).
Proof.
  intros Hx Hf. destruct (find_first l) eqn:E; [by eauto|].
  rewrite (proj1 (find_first_None l) E x Hx) in Hf. done.
Qed.

Lemma find_first_app l k :
  find_first (l ++ k) = match find_first l with Some x => Some x | None => find_first k end.
Proof. induction l as [|y l IH]; simpl; [done|]. by destruct (f y). Qed.

(** When at most one element matches, the search result is that element. *)
Lemma find_first_unique l x :
  x ∈ l -> f x = true -> (forall y, y ∈ l -> f y = true -> y = x) -> find_first l = Some x.
Proof.
  intros Hx Hf Hu. destruct (find_first_is_Some l x Hx Hf) as [y Hy].
  rewrite Hy. f_equal. apply find_first_Some in Hy as [? ?]. by apply Hu.
Qed.

Lemma find_first_Permutation l k :
  l ≡ₚ k -> (forall x y, x ∈ l -> y ∈ l -> f x = true -> f y = true -> x = y) ->
  find_first l = find_first k.
Proof.
  intros Hp Hu. destruct (find_first k) as [x|] eqn:E.
  - apply find_first_Some in E as [Hx Hf]. rewrite <- Hp in Hx.
    apply find_first_unique; [done|done|]. intros y Hy Hfy. by apply Hu.
  - apply find_first_None. intros x Hx. rewrite Hp in Hx.
    by apply (proj1 (find_first_None k) E).
Qed.

(** The search succeeds at the first index whose element matches. *)
Lemma find_first_lookup l x :
  find_first l = Some x ->
  exists i, l !! i = Some x /\ f x = true /\
    forall j y, (j < i)%nat -> l !! j = Some y -> f y = false.
Proof.
  induction l as [|y l IH]; simpl; [done|]. case_match eqn:E; intros; simplify_eq.
  - exists 0%nat. split_and!; [done|done|]. intros; lia.
  - destruct IH as (i & ? & ? & Hlt); [done|]. exists (S i). split_and!; [done|done|].
    intros [|j] z Hj Hz; simplify_eq/=; [done|]. apply (Hlt j); [lia|done].
Qed.
End FindFirst.

Lemma head_omap_None {A B} (f : A -> option B) l :
  head (omap f l) = None <-> forall x, x ∈ l -> f x = None.
Proof.
  induction l as [|y l IH]; simpl.
  - split; [intros _ x Hx; by apply elem_of_nil in Hx|done].
  - destruct (f y) eqn:E; simpl; split.
    + done.
    + intros H. rewrite (H y) in E; [done|by apply elem_of_cons; left].
    + intros H x [->|Hx]%elem_of_cons; [done|]. by apply IH.
    + intros H. apply IH. intros x Hx. apply H. by apply elem_of_cons; right.
Qed.

(** ** First occurrences and bounded sets *)

(** The last [n] elements. *)
Definition last_n {A} (n : nat) (l : list A) : list A := drop (length l - n) l.

Lemma last_n_snoc {A} n (l : list A) x :
  (0 < n)%nat ->
  last_n n (l ++ [x]) = (if (n <=? length l)%nat then tail (last_n n l) else last_n n l) ++ [x].
Proof.
  intros Hn. unfold last_n. rewrite length_app. simpl. destruct (Nat.leb_spec n (length l)).
  - replace (length l + 1 - n)%nat with (S (length l - n)) by lia.
    rewrite drop_app_le by lia. f_equal.
    rewrite <- Nat.add_1_r, <- drop_drop. by destruct (drop _ l).
  - replace (length l + 1 - n)%nat with 0%nat by lia.
    replace (length l - n)%nat with 0%nat by lia. done.
Qed.

Lemma length_last_n {A} n (l : list A) : length (last_n n l) = Nat.min n (length l).
Proof. unfold last_n. rewrite length_drop. lia. Qed.

Section Dedup.
Context {A : Type} `{EqDecision A}.

(** Each element at its first occurrence. *)
Definition dedup (l : list A) : list A :=
  foldl (fun acc x => if decide (x ∈ acc) then acc else acc ++ [x]) [] l.

Lemma dedup_snoc l x :
  dedup (l ++ [x]) = if decide (x ∈ dedup l) then dedup l else dedup l ++ [x].
Proof. unfold dedup. by rewrite foldl_app. Qed.

Lemma elem_of_dedup l x : x ∈ dedup l <-> x ∈ l.
Proof.
  induction l as [|y l IH] using rev_ind; [done|].
  rewrite dedup_snoc, elem_of_app, list_elem_of_singleton, <- IH.
  case_decide as Hy; [|by rewrite elem_of_app, list_elem_of_singleton].
  split; [by left|]. by intros [ | -> ].
Qed.

Lemma NoDup_dedup l : NoDup (dedup l).
Proof.
  induction l as [|y l IH] using rev_ind; [constructor|]. rewrite dedup_snoc.
  case_decide; [done|]. apply NoDup_app. split_and!; [done| |apply NoDup_singleton].
  by intros x Hx ->%list_elem_of_singleton.
Qed.

(** A set that admits new elements up to a cap and then only remembers that
    it overflowed. *)
Definition admit_bounded (cap : nat) (x : A) (st : list A * bool) : list A * bool :=
  if decide (x ∈ st.1) then st
  else if (length st.1 <? cap)%nat then (st.1 ++ [x], st.2) else (st.1, true).

Definition bounded_set (cap : nat) (l : list A) : list A * bool :=
  (take cap (dedup l), (cap <? length (dedup l))%nat).

Lemma admit_bounded_snoc cap l x :
  admit_bounded cap x (bounded_set cap l) = bounded_set cap (l ++ [x]).
Proof.
  unfold admit_bounded, bounded_set. simpl. rewrite dedup_snoc, length_take.
  destruct (decide (x ∈ dedup l)) as [Hx|Hx].
  - case_decide as Hc; [done|].
    assert (cap < length (dedup l))%nat as Hlen.
    { apply Nat.nle_gt. intros Hle. by rewrite take_ge in Hc. }
    rewrite (proj2 (Nat.ltb_ge _ _)) by lia. by rewrite (proj2 (Nat.ltb_lt _ _)).
  - rewrite decide_False by (intros Hin; apply elem_of_take in Hin as (? & ? & _);
      by eapply Hx, list_elem_of_lookup_2).
    rewrite length_app. simpl.
    destruct (Nat.ltb_spec (Nat.min cap (length (dedup l))) cap) as [Hlt|Hge].
    + rewrite (take_ge (dedup l)), (take_ge (dedup l ++ [x])) by (rewrite ?length_app; simpl; lia).
      by rewrite !(proj2 (Nat.ltb_ge _ _)) by lia.
    + rewrite take_app_le by lia. by rewrite (proj2 (Nat.ltb_lt _ _)) by lia.
Qed.
End Dedup.
