(* ===== verification/Values.v ===== *)
(** * Typed metadata values and field maps

    Models [crates/pktflow-core/src/value.rs]: the [Value] enum, the
    insertion-ordered [FieldMap] with its linear [get] and replacing [insert],
    and the lowercase hex rendering of the serializer.  [CompactString] is a
    Rocq [string], whose characters are the UTF-8 bytes. *)

From S2P Require Import Prelude.

(** [FieldName], [ProtocolName] and [StateName] are [&'static str]. *)
Abbreviation FieldName := string (only parsing).
Abbreviation ProtocolName := string (only parsing).
Abbreviation StateName := string (only parsing).

#[warnings="-register-all"]
Inductive Value : Type :=
  | VBytes (b : list Z)
  | VU64 (n : Z)
  | VI64 (n : Z)
  | VBool (b : bool)
  | VStr (s : string)
  | VList (vs : list Value).

(** The induction principle that reaches under [VList]. *)
Section ValueInd.
Context (P : Value -> Prop)
  (HBytes : forall b, P (VBytes b)) (HU64 : forall n, P (VU64 n))
  (HI64 : forall n, P (VI64 n)) (HBool : forall b, P (VBool b))
  (HStr : forall s, P (VStr s)) (HList : forall vs, Forall P vs -> P (VList vs)).

Fixpoint value_nested_ind (v : Value) : P v :=
  match v with
  | VBytes b => HBytes b
  | VU64 n => HU64 n
  | VI64 n => HI64 n
  | VBool b => HBool b
  | VStr s => HStr s
  | VList vs =>
      HList vs ((fix go (vs : list Value) : Forall P vs :=
                   match vs with
                   | [] => Forall_nil_2 P
                   | v :: vs' => Forall_cons_2 P v vs' (value_nested_ind v) (go vs')
                   end) vs)
  end.
End ValueInd.

#[export] Instance Value_eq_dec : EqDecision Value.
Proof.
  refine (fix go (v1 v2 : Value) : Decision (v1 = v2) :=
    match v1, v2 with
    | VBytes a, VBytes b => cast_if (decide (a = b))
    | VU64 a, VU64 b => cast_if (decide (a = b))
    | VI64 a, VI64 b => cast_if (decide (a = b))
    | VBool a, VBool b => cast_if (decide (a = b))
    | VStr a, VStr b => cast_if (decide (a = b))
    | VList a, VList b => cast_if (@list_eq_dec _ go a b)
    | _, _ => right _
    end); congruence.
Defined.

(** The representation invariant of the Rust types: widths of the integers
    and bytes that are bytes. *)
Fixpoint value_ok (v : Value) : Prop :=
  match v with
  | VBytes b => bytes_ok b
  | VU64 n => 0 <= n <= u64_max
  | VI64 n => i64_min <= n <= i64_max
  | VBool _ | VStr _ => True
  | VList vs => (fix go (vs : list Value) : Prop :=
                   match vs with [] => True | v :: vs' => value_ok v /\ go vs' end) vs
  end.

Lemma value_ok_VList vs : value_ok (VList vs) <-> Forall value_ok vs.
Proof.
  induction vs as [|v vs IH]; [by split; [constructor|]|].
  rewrite Forall_cons, <- IH. done.
Qed.

Module FieldMap.

(** [struct FieldMap { entries: Vec<(FieldName, Value)> }]. *)
Definition t : Type := list (FieldName * Value).

Definition new : t := [].

(** Replace the first entry of that name in place, or append. *)
Fixpoint insert (name : FieldName) (v : Value) (m : t) : t :=
  match m with
  | [] => [(name, v)]
  | (n, slot) :: m' =>
      if String.eqb n name then (n, v) :: m' else (n, slot) :: insert name v m'
  end.

Fixpoint get (name : FieldName) (m : t) : option Value :=
  match m with
  | [] => None
  | (n, v) :: m' => if String.eqb n name then Some v else get name m'
  end.

Definition iter (m : t) : list (FieldName * Value) := m.
Definition len (m : t) : Z := blen m.
Definition is_empty (m : t) : bool := match m with [] => true | _ => false end.

(** Names in insertion order. *)
Definition names (m : t) : list FieldName := m.*1.

(** What every map built through [insert] satisfies: one entry per name. *)
Definition ok (m : t) : Prop := NoDup (names m).

Lemma get_insert_eq name v m : get name (insert name v m) = Some v.
Proof.
  induction m as [|[n w] m IH]; simpl; [by rewrite String.eqb_refl|].
  destruct (String.eqb n name) eqn:E; simpl; rewrite E; done.
Qed.

Lemma get_insert_ne name name' v m :
  name <> name' -> get name' (insert name v m) = get name' m.
Proof.
  intros Hne. induction m as [|[n w] m IH]; simpl.
  - by rewrite (proj2 (String.eqb_neq name name')).
  - destruct (String.eqb_spec n name) as [->|]; simpl; [|by rewrite IH].
    by rewrite (proj2 (String.eqb_neq name name')).
Qed.

Lemma get_insert name name' v m :
  get name' (insert name v m) = if String.eqb name name' then Some v else get name' m.
Proof.
  destruct (String.eqb_spec name name') as [->|]; [apply get_insert_eq|].
  by apply get_insert_ne.
Qed.

Lemma get_Some_names name m : is_Some (get name m) <-> name ∈ names m.
Proof.
  induction m as [|[n w] m IH]; simpl.
  - split; [by intros [? ?]|by intros ?%elem_of_nil].
  - rewrite elem_of_cons, <- IH. destruct (String.eqb_spec n name) as [->|Hne].
    + split; [by left|by eauto].
    + split; [by right|]. by intros [->|].
Qed.

(** Replacement keeps the first-insertion position; a new name goes last. *)
Lemma names_insert name v m :
  names (insert name v m) =
  if decide (name ∈ names m) then names m else names m ++ [name].
Proof.
  induction m as [|[n w] m IH]; [done|]. simpl.
  destruct (String.eqb_spec n name) as [->|Hne]; simpl.
  - rewrite decide_True; [done|]. by apply elem_of_cons; left.
  - rewrite IH. repeat case_decide; try done; exfalso.
    + by match goal with H : _ ∉ _ |- _ => apply H, elem_of_cons; right end.
    + match goal with H : _ ∈ _ :: _ |- _ => apply elem_of_cons in H as [->|] end; done.
Qed.

Lemma insert_ok name v m : ok m -> ok (insert name v m).
Proof.
  unfold ok. rewrite names_insert. case_decide as Hin; [done|]. intros Hm.
  apply NoDup_app. split; [done|]. split; [|by apply NoDup_singleton].
  by intros x Hx ->%list_elem_of_singleton.
Qed.

Lemma map_new_ok : ok new.
Proof. apply NoDup_nil_2. Qed.

Lemma insert_insert_eq name v w m : insert name v (insert name w m) = insert name v m.
Proof.
  induction m as [|[n u] m IH]; simpl; [by rewrite String.eqb_refl|].
  destruct (String.eqb n name) eqn:E; simpl; rewrite E; [done|]. by rewrite IH.
Qed.

(** Two well-formed maps with the same names in the same order and the same
    lookups are the same map. *)
Lemma ext m1 m2 :
  ok m1 -> names m1 = names m2 ->
  (forall name, get name m1 = get name m2) -> m1 = m2.
Proof.
  revert m2. induction m1 as [|[n v] m1 IH]; intros [|[n' v'] m2] Hok Hn Hg;
    simplify_eq/=; [done|].
  apply NoDup_cons in Hok as [Hnin Hok].
  pose proof (Hg n') as Hhd. simpl in Hhd. rewrite String.eqb_refl in Hhd.
  simplify_eq. f_equal. apply IH; [done|done|]. intros name.
  specialize (Hg name). simpl in Hg.
  destruct (String.eqb_spec n' name) as [->|]; [|done].
  assert (get name m1 = None) as ->.
  { apply eq_None_not_Some. by rewrite get_Some_names. }
  symmetry. apply eq_None_not_Some. rewrite get_Some_names.
  match goal with H : names m1 = names m2 |- _ => rewrite <- H end. exact Hnin.
Qed.

Definition values_ok (m : t) : Prop := Forall (fun e => value_ok e.2) m.

Lemma insert_values_ok name v m : value_ok v -> values_ok m -> values_ok (insert name v m).
Proof.
  intros Hv. unfold values_ok. induction m as [|[n w] m IH]; simpl; intros Hm.
  - by repeat constructor.
  - apply Forall_cons in Hm as [? ?]. case_match; constructor; auto.
Qed.

Lemma get_values_ok name m v : values_ok m -> get name m = Some v -> value_ok v.
Proof.
  unfold values_ok. induction m as [|[n w] m IH]; simpl; [done|]. intros Hm.
  apply Forall_cons in Hm as [? ?]. case_match; intros; simplify_eq; auto.
Qed.

End FieldMap.

#[export] Hint Resolve FieldMap.insert_ok FieldMap.map_new_ok FieldMap.insert_values_ok : pktflow.
#[export] Hint Rewrite FieldMap.get_insert_eq FieldMap.insert_insert_eq : pktflow.

(** ** Rendering bytes

    [serde_impl::hex_lower]: two lowercase digits per byte. *)

Definition hex_digit (n : Z) : Ascii.ascii :=
  Ascii.ascii_of_N (Z.to_N (if n <? 10 then 48 + n else 87 + n)).

Fixpoint hex_lower (bytes : list Z) : string :=
  match bytes with
  | [] => EmptyString
  | b :: bs => String (hex_digit (Z.shiftr b 4)) (String (hex_digit (Z.land b 15)) (hex_lower bs))
  end.

(** Reading the rendering back. *)
Definition unhex_digit (c : Ascii.ascii) : Z :=
  let n := Z.of_N (Ascii.N_of_ascii c) in if n <? 58 then n - 48 else n - 87.

Fixpoint unhex (s : string) : list Z :=
  match s with
  | String a (String b s') => unhex_digit a * 16 + unhex_digit b :: unhex s'
  | _ => []
  end.

Lemma unhex_digit_hex_digit n : 0 <= n < 16 -> unhex_digit (hex_digit n) = n.
Proof.
  intros H. unfold unhex_digit, hex_digit.
  rewrite Ascii.N_ascii_embedding by (case_match; reflect_bools; lia).
  rewrite Z2N.id by (case_match; reflect_bools; lia).
  destruct (n <? 10) eqn:E; reflect_bools.
  - rewrite (proj2 (Z.ltb_lt _ _)) by lia. lia.
  - rewrite (proj2 (Z.ltb_ge _ _)) by lia. lia.
Qed.

Lemma unhex_hex_lower bs : bytes_ok bs -> unhex (hex_lower bs) = bs.
Proof.
  induction 1 as [|b bs Hb Hbs IH]; [done|]. simpl. rewrite IH. f_equal.
  unfold is_byte in Hb. rewrite Z.shiftr_div_pow2 by lia.
  change 15 with (Z.ones 4). rewrite Z.land_ones by lia. change (2 ^ 4) with 16.
  pose proof (Z.div_mod b 16). pose proof (Z.mod_pos_bound b 16).
  rewrite !unhex_digit_hex_digit; [lia|lia|].
  split; [apply Z.div_pos; lia|apply Z.div_lt_upper_bound; lia].
Qed.

(** ** Properties *)

(** However a field map was built, it holds one entry per name, in
    first-insertion order, and every lookup returns the value written last. *)
Theorem field_map_insertions (es : list (FieldName * Value)) :
  let m := foldl (fun m e => FieldMap.insert e.1 e.2 m) FieldMap.new es in
  FieldMap.ok m /\
  FieldMap.names m = dedup es.*1 /\
  (forall n, FieldMap.get n m = snd <$> find_first (fun e => String.eqb e.1 n) (rev es)).
Proof.
  simpl. induction es as [|[k v] es IH] using rev_ind.
  - split_and!; [apply FieldMap.map_new_ok|done|done].
  - destruct IH as (Hok & Hn & Hg). rewrite foldl_app. simpl. split_and!.
    + by apply FieldMap.insert_ok.
    + rewrite FieldMap.names_insert, Hn. unfold dedup. rewrite fmap_app, foldl_app. done.
    + intros n. rewrite FieldMap.get_insert, Hg, rev_app_distr. simpl.
      by destruct (String.eqb k n).
Qed.

(** The serializer's byte rendering is lossless: two lowercase hexadecimal
    digits per byte, from which the bytes are read back. *)
Theorem hex_roundtrip (bs : list Z) :
  bytes_ok bs ->
  unhex (hex_lower bs) = bs /\ String.length (hex_lower bs) = (2 * length bs)%nat /\
  Forall (fun c => (48 <= c <= 57) \/ (97 <= c <= 102)) (str_bytes (hex_lower bs)).
Proof.
  intros Hok. split_and!; [by apply unhex_hex_lower|induction Hok; simpl in *; lia|].
  assert (forall n, 0 <= n < 16 ->
    48 <= Z.of_N (Ascii.N_of_ascii (hex_digit n)) <= 57 \/
    97 <= Z.of_N (Ascii.N_of_ascii (hex_digit n)) <= 102) as Hd.
  { intros n Hn. unfold hex_digit.
    rewrite Ascii.N_ascii_embedding by (case_match; reflect_bools; lia).
    destruct (n <? 10) eqn:E; reflect_bools; lia. }
  induction Hok as [|b bs Hb Hbs IH]; simpl; [constructor|].
  unfold is_byte in Hb. constructor; [|constructor; [|done]]; apply Hd.
  - rewrite Z.shiftr_div_pow2 by lia. split; [apply Z.div_pos; lia|].
    apply Z.div_lt_upper_bound; lia.
  - change 15 with (Z.ones 4). rewrite Z.land_ones by lia. apply Z.mod_pos_bound. lia.
Qed.

Lemma hex_roundtrip_witness : unhex (hex_lower [0; 171; 255]) = [0; 171; 255].
Proof. apply (hex_roundtrip [0; 171; 255]). by repeat constructor. Defined.

(** ** Smart constructors of the [From] impls *)

Definition Value_from_slice (b : list Z) : Value := VBytes b.
Definition Value_from_str (s : string) : Value := VStr s.
