(* ===== verification/Bytes.v ===== *)
(** * Checked byte access

    Models [crates/pktflow-core/src/bytes.rs]: [ByteReader], the only way the
    plugins read a header.  A read returns its result together with the reader
    after the call, so a failed read that leaves the cursor in place is
    visible.  [reader] chains reads the way [?] does, with [From] converting
    the error as the operator's [From::from] call does. *)

From S2P Require Import Prelude Values.

Record Truncated := mkTruncated { needed : Z; have : Z }.

#[export] Instance Truncated_eq_dec : EqDecision Truncated.
Proof. solve_decision. Defined.

Record ByteReader := mkReader { buf : list Z; pos : Z }.

(** [reader E A]: a read that yields an [A] or fails with an [E]. *)
Definition reader (E A : Type) : Type := ByteReader -> result A E * ByteReader.

(** The conversion trait [?] goes through. *)
Class From (E F : Type) := from : E -> F.
#[export] Instance From_refl E : From E E := fun e => e.

Definition rret {E A} (a : A) : reader E A := fun r => (Ok a, r).
Definition rfail {E A} (e : E) : reader E A := fun r => (Error e, r).

(** [let a = m?; k a]. *)
Definition rbind {E F A B} `{From E F} (m : reader E A) (k : A -> reader F B) : reader F B :=
  fun r => match m r with
           | (Ok a, r') => k a r'
           | (Error e, r') => (Error (from e), r')
           end.

Declare Scope reader_scope.
Delimit Scope reader_scope with reader.
Notation "'let?' x ':=' m 'in' k" := (rbind m (fun x => k))
  (at level 10, x pattern, m at level 100, k at level 200) : reader_scope.

Module ByteReader.

Definition new (bytes : list Z) : ByteReader := mkReader bytes 0.

Definition remaining (r : ByteReader) : Z := sat_sub (blen (buf r)) (pos r).

(** The cursor moves only when the whole slice is there; [checked_add]
    overflow is the same [Truncated]. *)
Definition take (n : Z) : reader Truncated (list Z) := fun r =>
  let truncated := {| needed := n; have := remaining r |} in
  let stop := pos r + n in
  if usize_max <? stop then (Error truncated, r)
  else match slice (buf r) (pos r) stop with
       | None => (Error truncated, r)
       | Some s => (Ok s, mkReader (buf r) stop)
       end.

Definition array (N : Z) : reader Truncated (list Z) := fun r =>
  let h := remaining r in
  match take N r with
  | (Ok s, r') => if blen s =? N then (Ok s, r') else (Error (mkTruncated N h), r')
  | (Error e, r') => (Error e, r')
  end.

Local Open Scope reader_scope.

Definition u8 : reader Truncated Z := let? a := array 1 in rret (hd 0 a).
Definition u16_be : reader Truncated Z := let? a := array 2 in rret (be_value a).
Definition u16_le : reader Truncated Z := let? a := array 2 in rret (le_value a).
Definition u32_be : reader Truncated Z := let? a := array 4 in rret (be_value a).
Definition u32_le : reader Truncated Z := let? a := array 4 in rret (le_value a).
Definition u64_be : reader Truncated Z := let? a := array 8 in rret (be_value a).
Definition u64_le : reader Truncated Z := let? a := array 8 in rret (le_value a).
Definition i32_be : reader Truncated Z := let? a := array 4 in rret (to_signed 32 (be_value a)).

(** The reader invariant: the cursor is inside the buffer, which fits the
    address space. *)
Definition ok (r : ByteReader) : Prop :=
  0 <= pos r <= blen (buf r) /\ blen (buf r) <= usize_max.

(** What is left to read. *)
Definition rest (r : ByteReader) : list Z := slice_from (buf r) (pos r).

Lemma new_ok bytes : blen bytes <= usize_max -> ok (new bytes).
Proof. unfold ok. simpl. pose proof (blen_nonneg bytes). lia. Qed.

Lemma rest_new bytes : rest (new bytes) = bytes.
Proof. done. Qed.

Lemma remaining_rest r : ok r -> remaining r = blen (rest r).
Proof.
  intros [? ?]. unfold remaining, rest, sat_sub. rewrite blen_slice_from by done. lia.
Qed.

(** Success: exactly the next [n] bytes, cursor [n] further, buffer kept. *)
Lemma take_Ok_inv n r s r' :
  take n r = (Ok s, r') ->
  blen s = n /\ buf r' = buf r /\ pos r' = pos r + n /\
  0 <= pos r <= pos r' /\ pos r' <= blen (buf r) /\ rest r = s ++ rest r' /\
  s = list.take (Z.to_nat n) (rest r).
Proof.
  unfold take, rest. intros H. case_match; [done|].
  destruct (slice _ _ _) as [s0|] eqn:Hs; simplify_eq/=.
  pose proof (slice_length _ _ _ _ Hs) as Hl.
  pose proof (slice_from_app _ _ _ _ Hs) as Ha.
  apply slice_Some in Hs as (? & ? & ? & Hk).
  repeat split; try lia; [done|].
  rewrite Hk at 1. unfold slice_from. do 2 f_equal. lia.
Qed.

(** Failure: reported with the counts, and the cursor does not move. *)
Lemma take_Error_inv n r e r' :
  take n r = (Error e, r') -> r' = r /\ e = mkTruncated n (remaining r).
Proof. unfold take. intros H. split_matches; done. Qed.

(** The exact boundary between the two. *)
Lemma take_Ok_iff n r :
  ok r -> 0 <= n -> (exists s r', take n r = (Ok s, r')) <-> n <= remaining r.
Proof.
  intros [Hp Hu] Hn. split.
  - intros (s & r' & H). apply take_Ok_inv in H as (? & ? & ? & ? & ? & _).
    unfold remaining, sat_sub. lia.
  - unfold remaining, sat_sub. intros Hr. unfold take.
    rewrite (proj2 (Z.ltb_ge _ _)) by lia.
    destruct (slice (buf r) (pos r) (pos r + n)) as [s|] eqn:Hs; [by eauto|].
    apply slice_None in Hs; lia.
Qed.

Lemma take_Ok_remaining n r : ok r -> 0 <= n <= remaining r ->
  exists s r', take n r = (Ok s, r').
Proof. intros Hok Hn. apply take_Ok_iff; [done|lia|lia]. Qed.

Lemma take_Error_iff n r e r' :
  ok r -> 0 <= n ->
  take n r = (Error e, r') <-> remaining r < n /\ r' = r /\ e = mkTruncated n (remaining r).
Proof.
  intros Hok Hn. split.
  - intros H. pose proof (take_Error_inv _ _ _ _ H) as [-> ->]. split_and!; try done.
    apply Z.nle_gt. intros Hle.
    destruct (take_Ok_remaining n r Hok (conj Hn Hle)) as (s & r2 & H2). congruence.
  - intros (Hlt & -> & ->). destruct (take n r) as [[s|e'] r2] eqn:H.
    + exfalso. assert (n <= remaining r); [|lia]. apply take_Ok_iff; eauto.
    + by apply take_Error_inv in H as [-> ->].
Qed.

(** Reading a known prefix. *)
Lemma take_rest n r s t :
  ok r -> rest r = s ++ t -> n = blen s ->
  take n r = (Ok s, mkReader (buf r) (pos r + n)) /\
  rest (mkReader (buf r) (pos r + n)) = t /\ ok (mkReader (buf r) (pos r + n)).
Proof.
  intros Hok Hrest ->. pose proof Hok as [Hp Hu].
  pose proof (blen_nonneg s) as Hs.
  assert (blen (buf r) - pos r = blen s + blen t) as Hl.
  { rewrite <- blen_app, <- Hrest. unfold rest. by rewrite blen_slice_from. }
  pose proof (blen_nonneg t) as Ht.
  destruct (take_Ok_remaining (blen s) r) as (s' & r' & H); [done| |].
  { unfold remaining, sat_sub. lia. }
  rewrite H. apply take_Ok_inv in H as (Hsl & Hb & Hpos & _ & _ & Hr & _).
  assert (s' ++ rest r' = s ++ t) as Heq by congruence.
  apply app_inj_1 in Heq as [-> Hrt]; [|unfold blen in Hsl; lia].
  destruct r' as [b' p']. simpl in *. subst b' p' t.
  split_and!; [done|done|]. unfold ok. simpl. lia.
Qed.

Lemma array_take N r : 0 <= N -> array N r = take N r.
Proof.
  intros HN. unfold array. destruct (take N r) as [[s|e] r'] eqn:H; [|done].
  apply take_Ok_inv in H as (-> & _). by rewrite Z.eqb_refl.
Qed.

Lemma array_rest N r s t :
  ok r -> rest r = s ++ t -> N = blen s ->
  array N r = (Ok s, mkReader (buf r) (pos r + N)) /\
  rest (mkReader (buf r) (pos r + N)) = t /\ ok (mkReader (buf r) (pos r + N)).
Proof.
  intros Hok Hr HN. rewrite array_take by (subst; apply blen_nonneg). by apply take_rest.
Qed.

(** *** Fixed-width reads

    Each is [array] followed by the standard conversion.  One lemma gives what
    a successful read yields, one reads a value back from its encoding. *)

Lemma map_array_Ok_inv N (f : list Z -> Z) r z r' :
  0 <= N -> (let? a := array N in rret (E:=Truncated) (f a)) r = (Ok z, r') ->
  buf r' = buf r /\ pos r' = pos r + N /\ 0 <= pos r <= pos r' /\ pos r' <= blen (buf r) /\
  exists s, z = f s /\ blen s = N /\ rest r = s ++ rest r'.
Proof.
  intros HN. unfold rbind, rret. rewrite array_take by done.
  destruct (take N r) as [[s|e] r1] eqn:H; [|done]. intros ?; simplify_eq/=.
  apply take_Ok_inv in H as (? & ? & ? & ? & ? & ? & _). split_and!; try done; try lia.
  by exists s.
Qed.

Lemma map_array_rest N (f : list Z -> Z) r s t :
  ok r -> rest r = s ++ t -> N = blen s ->
  (let? a := array N in rret (E:=Truncated) (f a)) r = (Ok (f s), mkReader (buf r) (pos r + N)) /\
  rest (mkReader (buf r) (pos r + N)) = t /\ ok (mkReader (buf r) (pos r + N)).
Proof.
  intros Hok Hr HN. destruct (array_rest N r s t Hok Hr HN) as (H1 & H2 & H3).
  split; [|done]. unfold rbind. by rewrite H1.
Qed.

Lemma map_array_Error_inv N (f : list Z -> Z) r e r' :
  0 <= N -> (let? a := array N in rret (E:=Truncated) (f a)) r = (Error e, r') ->
  r' = r /\ e = mkTruncated N (remaining r).
Proof.
  intros HN. unfold rbind, rret. rewrite array_take by done.
  destruct (take N r) as [[s|e'] r1] eqn:H; [done|]. intros ?; simplify_eq/=.
  by apply take_Error_inv in H.
Qed.

End ByteReader.

(** ** Stepping through a parser

    [reader_ok_inv m r] relates a successful read to the cursor: every
    primitive and [rbind] has one, and [step_reader] chains them. *)

Lemma rbind_Ok_inv {E F A B} `{From E F} (m : reader E A) (k : A -> reader F B) r b r' :
  rbind m k r = (Ok b, r') -> exists a r1, m r = (Ok a, r1) /\ k a r1 = (Ok b, r').
Proof. unfold rbind. destruct (m r) as [[a|e] r1] eqn:Hm; [by eauto|done]. Qed.

Lemma rbind_Error_inv {E F A B} `{From E F} (m : reader E A) (k : A -> reader F B) r e r' :
  rbind m k r = (Error e, r') ->
  (exists e0, m r = (Error e0, r') /\ e = from e0) \/
  exists a r1, m r = (Ok a, r1) /\ k a r1 = (Error e, r').
Proof.
  unfold rbind. destruct (m r) as [[a|e0] r1] eqn:Hm; intros; simplify_eq/=; eauto.
Qed.

Lemma rbind_Ok {E F A B} `{From E F} (m : reader E A) (k : A -> reader F B) r a r1 :
  m r = (Ok a, r1) -> rbind m k r = k a r1.
Proof. intros Hm. unfold rbind. by rewrite Hm. Qed.

(** [rd_adv m n]: when [m] succeeds it consumed exactly [n] bytes. *)
Class Advances {E A} (m : reader E A) (n : Z) (Q : A -> list Z -> Prop) :=
  advances : forall r a r', m r = (Ok a, r') ->
    buf r' = buf r /\ pos r' = pos r + n /\ 0 <= pos r <= pos r' /\ pos r' <= blen (buf r) /\
    exists s, Q a s /\ blen s = n /\ ByteReader.rest r = s ++ ByteReader.rest r'.

#[export] Instance adv_take n : Advances (ByteReader.take n) n (fun a s => a = s).
Proof.
  intros r a r' H. apply ByteReader.take_Ok_inv in H as (? & ? & ? & ? & ? & ? & _).
  split_and!; try done; try lia. by exists a.
Qed.

#[export] Instance adv_u8 : Advances ByteReader.u8 1 (fun a s => a = hd 0 s).
Proof. intros r a r' H. by apply ByteReader.map_array_Ok_inv in H. Qed.
#[export] Instance adv_u16_be : Advances ByteReader.u16_be 2 (fun a s => a = be_value s).
Proof. intros r a r' H. by apply ByteReader.map_array_Ok_inv in H. Qed.
#[export] Instance adv_u16_le : Advances ByteReader.u16_le 2 (fun a s => a = le_value s).
Proof. intros r a r' H. by apply ByteReader.map_array_Ok_inv in H. Qed.
#[export] Instance adv_u32_be : Advances ByteReader.u32_be 4 (fun a s => a = be_value s).
Proof. intros r a r' H. by apply ByteReader.map_array_Ok_inv in H. Qed.
#[export] Instance adv_u32_le : Advances ByteReader.u32_le 4 (fun a s => a = le_value s).
Proof. intros r a r' H. by apply ByteReader.map_array_Ok_inv in H. Qed.
#[export] Instance adv_u64_be : Advances ByteReader.u64_be 8 (fun a s => a = be_value s).
Proof. intros r a r' H. by apply ByteReader.map_array_Ok_inv in H. Qed.
#[export] Instance adv_u64_le : Advances ByteReader.u64_le 8 (fun a s => a = le_value s).
Proof. intros r a r' H. by apply ByteReader.map_array_Ok_inv in H. Qed.

(** Invert one successful read of a hypothesis [H : (let? x := m in k) r = (Ok b, r')],
    leaving the cursor arithmetic in the context. *)
Ltac step_reader H :=
  let a := fresh "a" in let r1 := fresh "r" in
  let H1 := fresh "Hrd" in let H2 := fresh "Hk" in
  apply rbind_Ok_inv in H as (a & r1 & H1 & H2);
  first
    [ let Hb := fresh "Hbuf" in let Hp := fresh "Hpos" in
      let Hl := fresh "Hle" in let Hu := fresh "Hub" in
      let s := fresh "s" in let HQ := fresh "HQ" in let Hs := fresh "Hs" in let Hr := fresh "Hrest" in
      pose proof (advances _ _ _ H1) as (Hb & Hp & Hl & Hu & s & HQ & Hs & Hr); clear H1
    | idtac ];
  cbv beta in H2; rename H2 into H.

(** ** Properties *)

(** The eight fixed-width reads, with the bytes each consumes. *)
Definition fixed_reads : list (Z * reader Truncated Z) :=
  [(1, ByteReader.u8); (2, ByteReader.u16_be); (2, ByteReader.u16_le);
   (4, ByteReader.u32_be); (4, ByteReader.u32_le); (8, ByteReader.u64_be);
   (8, ByteReader.u64_le); (4, ByteReader.i32_be)].

(** Each fixed-width read is [array] followed by a conversion. *)
Lemma fixed_reads_array N m :
  (N, m) ∈ fixed_reads ->
  0 < N /\ exists f, m = rbind (ByteReader.array N) (fun a => rret (E:=Truncated) (f a)).
Proof.
  unfold fixed_reads. rewrite !elem_of_cons, elem_of_nil.
  intros H. repeat (destruct H as [H|H]; [simplify_eq; split; [lia|eexists; reflexivity]|]).
  done.
Qed.

(** A fixed-width read fails exactly when fewer bytes remain than it needs,
    and then reports both counts and leaves the reader as it was. *)
Theorem fixed_reads_boundary N m r :
  (N, m) ∈ fixed_reads -> ByteReader.ok r ->
  (ByteReader.remaining r < N <-> exists e r', m r = (Error e, r')) /\
  (forall e r', m r = (Error e, r') -> r' = r /\ e = mkTruncated N (ByteReader.remaining r)) /\
  (forall z r', m r = (Ok z, r') -> buf r' = buf r /\ pos r' = pos r + N /\ ByteReader.ok r').
Proof.
  intros Hm Hok. apply fixed_reads_array in Hm as [HN [f ->]]. split_and!.
  - unfold rbind, rret. rewrite ByteReader.array_take by lia. split.
    + intros Hlt. exists (mkTruncated N (ByteReader.remaining r)), r.
      rewrite (proj2 (ByteReader.take_Error_iff N r (mkTruncated N (ByteReader.remaining r)) r
        Hok ltac:(lia))); done.
    + intros (e & r' & H). destruct (ByteReader.take N r) as [[s|e'] r1] eqn:Ht; [done|].
      apply ByteReader.take_Error_iff in Ht as [? _]; [done|done|lia].
  - intros e r'. apply ByteReader.map_array_Error_inv. lia.
  - intros z r' H. apply ByteReader.map_array_Ok_inv in H as (Hb & Hp & Hl & Hu & _); [|lia].
    split_and!; [done|done|]. unfold ByteReader.ok in *. rewrite Hb. lia.
Qed.

Lemma fixed_reads_boundary_witness :
  let r := mkReader [1; 2; 3] 2 in
  ByteReader.remaining r < 2 /\ ByteReader.u16_be r = (Error (mkTruncated 2 1), r).
Proof.
  split; [reflexivity|].
  destruct (proj1 (proj1 (fixed_reads_boundary 2 ByteReader.u16_be (mkReader [1; 2; 3] 2)
    ltac:(unfold fixed_reads; rewrite !elem_of_cons; tauto)
    ltac:(by vm_compute))) eq_refl) as (e & r' & H).
  vm_compute in H |- *. reflexivity.
Defined.

(** Every width reads back the integer its [to_be_bytes] / [to_le_bytes]
    encoding was written from, wherever the encoding sits in the buffer, and
    the cursor ends right after it. *)
Theorem fixed_reads_roundtrip pre post n z :
  let buffer enc := pre ++ enc ++ post in
  let after k := mkReader (buffer k) (blen pre + blen k) in
  blen pre + 8 + blen post <= usize_max -> 0 <= z < 256 ^ Z.of_nat n ->
  (n = 1%nat -> ByteReader.u8 (mkReader (buffer (be_bytes n z)) (blen pre)) = (Ok z, after (be_bytes n z))) /\
  (n = 2%nat -> ByteReader.u16_be (mkReader (buffer (be_bytes n z)) (blen pre)) = (Ok z, after (be_bytes n z)) /\
                ByteReader.u16_le (mkReader (buffer (le_bytes n z)) (blen pre)) = (Ok z, after (le_bytes n z))) /\
  (n = 4%nat -> ByteReader.u32_be (mkReader (buffer (be_bytes n z)) (blen pre)) = (Ok z, after (be_bytes n z)) /\
                ByteReader.u32_le (mkReader (buffer (le_bytes n z)) (blen pre)) = (Ok z, after (le_bytes n z)) /\
                ByteReader.i32_be (mkReader (buffer (be_bytes n z)) (blen pre)) =
                  (Ok (to_signed 32 z), after (be_bytes n z))) /\
  (n = 8%nat -> ByteReader.u64_be (mkReader (buffer (be_bytes n z)) (blen pre)) = (Ok z, after (be_bytes n z)) /\
                ByteReader.u64_le (mkReader (buffer (le_bytes n z)) (blen pre)) = (Ok z, after (le_bytes n z))).
Proof.
  intros buffer after Hlen Hz.
  assert (forall N (f : list Z -> Z) enc (v : Z), (n <= 8)%nat -> N = Z.of_nat n -> length enc = n -> f enc = v ->
    rbind (ByteReader.array N) (fun a => rret (E:=Truncated) (f a)) (mkReader (buffer enc) (blen pre))
      = (Ok v, after enc)) as Hgen.
  { intros N f enc v Hn -> He <-.
    assert (blen enc = Z.of_nat n) as Hb by (unfold blen; lia).
    assert (ByteReader.ok (mkReader (buffer enc) (blen pre))) as Hok.
    { unfold ByteReader.ok, buffer. simpl. rewrite !blen_app.
      pose proof (blen_nonneg pre). pose proof (blen_nonneg post). lia. }
    assert (ByteReader.rest (mkReader (buffer enc) (blen pre)) = enc ++ post) as Hr.
    { unfold ByteReader.rest, buffer, slice_from, blen. simpl. rewrite Nat2Z.id.
      apply drop_app_length. }
    rewrite <- Hb. unfold after. by apply (ByteReader.map_array_rest (blen enc) f (mkReader (buffer enc) (blen pre)) enc post). }
  assert (be_value (be_bytes n z) = z) as Hbe by by apply be_value_be_bytes.
  assert (le_value (le_bytes n z) = z) as Hle by by apply le_value_le_bytes.
  assert (length (be_bytes n z) = n) as L1 by apply length_be_bytes.
  assert (length (le_bytes n z) = n) as L2.
  { unfold le_bytes. by rewrite length_rev, length_be_bytes. }
  split_and!; intros Hn.
  - apply (Hgen 1 (hd 0)); [lia|lia|done|]. subst n. simpl. apply Z.mod_small. simpl in Hz. lia.
  - split; [apply (Hgen 2 be_value)|apply (Hgen 2 le_value)]; lia || done.
  - split_and!; [apply (Hgen 4 be_value)|apply (Hgen 4 le_value)
      |apply (Hgen 4 (fun a => to_signed 32 (be_value a)))]; try (lia || done).
    by rewrite Hbe.
  - split; [apply (Hgen 8 be_value)|apply (Hgen 8 le_value)]; lia || done.
Qed.

Lemma fixed_reads_roundtrip_witness :
  ByteReader.u16_be (mkReader [9; 8; 0; 7] 1) = (Ok 2048, mkReader [9; 8; 0; 7] 3).
Proof.
  exact (proj1 (proj1 (proj2 (fixed_reads_roundtrip [9] [7] 2 2048
    ltac:(by vm_compute) ltac:(by vm_compute))) eq_refl)).
Defined.
