(* ===== verification/Utf8.v ===== *)
(** * UTF-8

    What the plugins use of [std::str::from_utf8] and
    [String::from_utf8_lossy]: one character at the head of the bytes, or the
    maximal ill-formed prefix that a lossy conversion replaces by U+FFFD. *)

From S2P Require Import Prelude.

Definition in_bytes (lo hi b : Z) : bool := (lo <=? b) && (b <=? hi).

(** The length a first byte announces, 0 for none. *)
Definition utf8_width (b : Z) : Z :=
  if in_bytes 0 127 b then 1 else if in_bytes 194 223 b then 2
  else if in_bytes 224 239 b then 3 else if in_bytes 240 244 b then 4 else 0.

Definition is_continuation (b : Z) : bool := in_bytes 128 191 b.

(** The second bytes that go with a first one: no overlong forms, surrogates or
    code points above U+10FFFF. *)
Definition second_ok (b0 b1 : Z) : bool :=
  if b0 =? 224 then in_bytes 160 191 b1
  else if b0 =? 237 then in_bytes 128 159 b1
  else if b0 =? 240 then in_bytes 144 191 b1
  else if b0 =? 244 then in_bytes 128 143 b1
  else is_continuation b1.

(** Whether a character is at the head, and how many bytes it or the maximal
    ill-formed prefix has. *)
Definition utf8_head (l : list Z) : bool * nat :=
  match l with
  | [] => (true, 0%nat)
  | b0 :: l1 =>
      let w := utf8_width b0 in
      if w =? 0 then (false, 1%nat) else if w =? 1 then (true, 1%nat)
      else match l1 with
           | [] => (false, 1%nat)
           | b1 :: l2 =>
               if negb (second_ok b0 b1) then (false, 1%nat) else if w =? 2 then (true, 2%nat)
               else match l2 with
                    | [] => (false, 2%nat)
                    | b2 :: l3 =>
                        if negb (is_continuation b2) then (false, 2%nat) else if w =? 3 then (true, 3%nat)
                        else match l3 with
                             | [] => (false, 3%nat)
                             | b3 :: _ => if is_continuation b3 then (true, 4%nat) else (false, 3%nat)
                             end
                    end
           end
  end.

(** A round consumes at least one byte of what is left, so [length l] rounds are enough. *)
Fixpoint valid_utf8_from (fuel : nat) (l : list Z) : bool :=
  match fuel, l with
  | S fuel', _ :: _ => let '(ok, n) := utf8_head l in ok && valid_utf8_from fuel' (drop n l)
  | _, _ => true
  end.

Definition valid_utf8 (l : list Z) : bool := valid_utf8_from (length l) l.

(** U+FFFD. *)
Definition REPLACEMENT : list Z := [239; 191; 189].

Fixpoint lossy_from (fuel : nat) (l : list Z) : list Z :=
  match fuel, l with
  | S fuel', _ :: _ =>
      let '(ok, n) := utf8_head l in (if ok then take n l else REPLACEMENT) ++ lossy_from fuel' (drop n l)
  | _, _ => []
  end.

Definition from_utf8_lossy (l : list Z) : list Z := lossy_from (length l) l.

Definition string_of_bytes (l : list Z) : string :=
  String.string_of_list_ascii ((fun c => Ascii.ascii_of_N (Z.to_N c)) <$> l).

(** [String::from_utf8_lossy(bytes)] and [str::from_utf8(bytes).ok()]. *)
Definition lossy (l : list Z) : string := string_of_bytes (from_utf8_lossy l).
Definition str_from_utf8 (l : list Z) : option string :=
  if valid_utf8 l then Some (string_of_bytes l) else None.

(** ** What the conversions promise *)

Lemma utf8_head_moves b l : let '(_, n) := utf8_head (b :: l) in (1 <= n)%nat.
Proof. unfold utf8_head. repeat case_match; simplify_eq/=; lia. Qed.

Lemma utf8_head_inside l : let '(_, n) := utf8_head l in (n <= length l)%nat.
Proof. unfold utf8_head. repeat case_match; simplify_eq/=; lia. Qed.

(** A lossy conversion leaves well-formed text alone. *)
Lemma lossy_valid fuel l : (length l <= fuel)%nat -> valid_utf8_from fuel l = true -> lossy_from fuel l = l.
Proof.
  revert l. induction fuel as [|fuel IH]; intros [|b l] Hl; try done; [simpl in Hl; lia|].
  cbn [valid_utf8_from lossy_from]. pose proof (utf8_head_moves b l) as Hm.
  destruct (utf8_head (b :: l)) as [ok n]. intros [-> Hv]%andb_true_iff.
  rewrite IH; [apply take_drop| |done]. rewrite length_drop. simpl in *. lia.
Qed.

Lemma from_utf8_lossy_valid l : valid_utf8 l = true -> from_utf8_lossy l = l.
Proof. by apply lossy_valid. Qed.

(** The head of what a conversion writes is what it wrote. *)
Lemma utf8_head_app l k ok n : utf8_head l = (ok, n) -> ok = true -> l <> [] -> utf8_head (l ++ k) = (true, n).
Proof.
  intros H -> Hne. destruct l as [|b0 l1]; [done|]. revert H. unfold utf8_head. cbn [app].
  destruct (utf8_width b0 =? 0); [done|]. destruct (utf8_width b0 =? 1); [done|].
  destruct l1 as [|b1 l2]; [done|]. cbn [app]. destruct (negb (second_ok b0 b1)); [done|].
  destruct (utf8_width b0 =? 2); [done|]. destruct l2 as [|b2 l3]; [done|]. cbn [app].
  destruct (negb (is_continuation b2)); [done|]. destruct (utf8_width b0 =? 3); [done|].
  destruct l3 as [|b3 l4]; [done|]. cbn [app]. done.
Qed.

Lemma utf8_head_take l n : utf8_head l = (true, n) -> utf8_head (take n l) = (true, n).
Proof.
  unfold utf8_head. repeat case_match; intros; simplify_eq/=; try done;
    repeat (rewrite ?andb_false_r in *; simplify_eq/=; try congruence; try case_match; try done).
Qed.

Example lossy_examples :
  from_utf8_lossy [97; 195; 169; 255; 98] = [97; 195; 169; 239; 191; 189; 98] /\
  from_utf8_lossy [226; 130] = REPLACEMENT /\ from_utf8_lossy [237; 160; 128] = REPLACEMENT ++ REPLACEMENT ++ REPLACEMENT /\
  valid_utf8 [226; 134; 148] = true.
Proof. by vm_compute. Qed.
