(* ===== verification/Text.v ===== *)
(** * Text and numbers as the view layer prints and reads them

    The parts of Rust's [str], [format!] and [f64] that [pktflow-view] uses:
    ASCII case folding, substring search, decimal and hexadecimal printing, and
    IEEE 754 binary64 arithmetic on [spec_float] (parsing and printing decimals,
    conversion from [u64]).  A [String] is a Rocq [string] whose characters are
    the UTF-8 bytes; a byte offset into it is a [Z]. *)

From stdpp Require Export pretty.
From Stdlib Require Export SpecFloat.
From S2P Require Import Prelude.
From S2P Require Import Values.

Global Open Scope Z_scope.

(** ** Strings *)

Definition char_of (b : Z) : Ascii.ascii := Ascii.ascii_of_N (Z.to_N b).

(** [&s[i..j]] of a string known to be cut at character boundaries. *)
Definition text_of (bytes : list Z) : string := String.string_of_list_ascii (char_of <$> bytes).

Definition ascii_code (c : Ascii.ascii) : Z := Z.of_N (Ascii.N_of_ascii c).

Definition in_range (lo hi n : Z) : bool := (lo <=? n) && (n <=? hi).

(** [u8::to_ascii_lowercase]. *)
Definition lower_byte (b : Z) : Z := if in_range 65 90 b then b + 32 else b.

Fixpoint map_string (f : Z -> Z) (s : string) : string :=
  match s with
  | EmptyString => EmptyString
  | String c s' => String (char_of (f (ascii_code c))) (map_string f s')
  end.

Definition to_ascii_lowercase : string -> string := map_string lower_byte.

(** [str::eq_ignore_ascii_case]. *)
Definition eq_ignore_ascii_case (a b : string) : bool :=
  String.eqb (to_ascii_lowercase a) (to_ascii_lowercase b).

(** [str::find] and [str::contains] with a string pattern. *)
Definition str_find (pat s : string) : option Z := Z.of_nat <$> String.index 0 pat s.
Definition str_contains (pat s : string) : bool := bool_decide (is_Some (str_find pat s)).

(** [str::strip_prefix], [starts_with], [ends_with]. *)
Fixpoint strip_prefix (pre s : string) : option string :=
  match pre, s with
  | EmptyString, _ => Some s
  | String c pre', String d s' => if Ascii.eqb c d then strip_prefix pre' s' else None
  | String _ _, EmptyString => None
  end.

Definition starts_with (pre s : string) : bool := bool_decide (is_Some (strip_prefix pre s)).

Definition ends_with (suf s : string) : bool :=
  (String.length suf <=? String.length s)%nat
  && String.eqb (String.substring (String.length s - String.length suf) (String.length suf) s) suf.

(** [parts.join(sep)]. *)
Definition join (sep : string) (parts : list string) : string := String.concat sep parts.

(** [format!("{n}")] of an integer. *)
Definition show_Z (n : Z) : string := pretty n.

(** [format!("{n:x}")] and [format!("{n:0wx}")] of an unsigned integer. *)
Fixpoint hex_acc (fuel : nat) (n : Z) (acc : string) : string :=
  match fuel with
  | O => acc
  | S fuel' =>
      let acc := String (hex_digit (n mod 16)) acc in
      if n / 16 =? 0 then acc else hex_acc fuel' (n / 16) acc
  end.

Definition hex_min (n : Z) : string := hex_acc 16 n "".

Fixpoint pad_zeros (k : nat) (s : string) : string :=
  match k with O => s | S k' => String (char_of 48) (pad_zeros k' s) end.

Definition pad_left (w : nat) (s : string) : string := pad_zeros (w - String.length s) s.
Definition hex_padded (w : nat) (n : Z) : string := pad_left w (hex_min n).

(** ** Binary64 *)

Definition f64_prec : Z := 53.
Definition f64_emax : Z := 1024.

Definition f64_zero : spec_float := S754_zero false.

(** [n as f64] of an integer. *)
Definition f64_of_Z (n : Z) : spec_float := binary_normalize f64_prec f64_emax n 0 false.

(** The binary64 nearest to [m / k], ties to even. *)
Definition f64_of_ratio (neg : bool) (m : Z) (k : positive) : spec_float :=
  match m with
  | Zpos m' =>
      let '(q, e, l) := SFdiv_core_binary f64_prec f64_emax (Zpos m') 0 (Zpos k) 0 in
      binary_round_aux f64_prec f64_emax neg q e l
  | _ => S754_zero neg
  end.

Definition f64_mul : spec_float -> spec_float -> spec_float := SFmul f64_prec f64_emax.
Definition f64_div : spec_float -> spec_float -> spec_float := SFdiv f64_prec f64_emax.
Definition f64_add : spec_float -> spec_float -> spec_float := SFadd f64_prec f64_emax.
Definition f64_eqb (x y : spec_float) : bool := SFeqb x y.
Definition f64_ltb (x y : spec_float) : bool := SFltb x y.
Definition f64_leb (x y : spec_float) : bool := SFleb x y.

(** Reading digits. *)
Definition is_digit (b : Z) : bool := in_range 48 57 b.

Definition digits_value (ds : list Z) : Z := foldl (fun n d => n * 10 + (d - 48)) 0 ds.

Fixpoint span {A} (f : A -> bool) (l : list A) : list A * list A :=
  match l with
  | [] => ([], [])
  | x :: l' => if f x then let '(a, b) := span f l' in (x :: a, b) else ([], l)
  end.

(** [str::parse::<f64>] on the characters [0-9 . + -]: an optional sign, then
    digits with at most one point and at least one digit. *)
Definition parse_f64 (bytes : list Z) : option spec_float :=
  let '(neg, body) := match bytes with
                      | 45 :: rest => (true, rest)
                      | 43 :: rest => (false, rest)
                      | _ => (false, bytes)
                      end in
  let '(whole, rest) := span is_digit body in
  let '(frac, rest) := match rest with
                       | 46 :: after => span is_digit after
                       | _ => ([], rest)
                       end in
  match rest, whole ++ frac with
  | [], (_ :: _) as ds => Some (f64_of_ratio neg (digits_value ds) (Z.to_pos (10 ^ blen frac)))
  | _, _ => None
  end.

(** [format!("{x}")] of a finite [f64]: the shortest digits that read back as
    [x], the closest such, never in exponent notation. *)
Definition ratio_of (m : positive) (e : Z) : Z * positive :=
  if 0 <=? e then (Zpos m * 2 ^ e, 1%positive) else (Zpos m, Z.to_pos (2 ^ (- e))).

(** The decimal exponent [k] with [10^(k-1) <= n/d < 10^k]. *)
Fixpoint dec_exponent (fuel : nat) (k n d : Z) : Z :=
  match fuel with
  | O => k
  | S fuel' =>
      if 10 ^ Z.max k 0 * d <=? n * 10 ^ Z.max (- k) 0 then dec_exponent fuel' (k + 1) n d else k
  end.

(** A lower bound of it, at most a few steps away. *)
Definition dec_estimate (n d : Z) : Z := (Z.log2 n - Z.log2 d - 1) * 30103 / 100000 - 1.

(** The candidates with [p] digits on either side of the value: digits [d]
    standing for [d * 10^(k-p)]. *)
Definition digit_candidates (p k n d : Z) : list Z :=
  let lo := (n * 10 ^ Z.max (p - k) 0) / (d * 10 ^ Z.max (k - p) 0) in [lo; lo + 1].

Definition reads_back (x : spec_float) (p k : Z) (ds : Z) : bool :=
  f64_eqb (f64_of_ratio false (ds * 10 ^ Z.max (k - p) 0) (Z.to_pos (10 ^ Z.max (p - k) 0))) x.

Definition candidate_error (p k n d : Z) (ds : Z) : Z :=
  Z.abs (ds * 10 ^ Z.max (k - p) 0 * d - n * 10 ^ Z.max (p - k) 0).

Fixpoint shortest (fuel : nat) (x : spec_float) (p k n d : Z) : Z * Z :=
  let good := filter (fun ds => reads_back x p k ds = true) (digit_candidates p k n d) in
  match fuel, good with
  | _, [c1; c2] =>
      ((if candidate_error p k n d c2 <? candidate_error p k n d c1 then c2 else c1), p)
  | _, c :: _ => (c, p)
  | S fuel', [] => shortest fuel' x (p + 1) k n d
  | O, [] => (n / d, k)
  end.

(** Place the point in the digits [ds], [p] of them, read as [0.ds * 10^k]. *)
Definition place_point (ds p k : Z) : string :=
  let s := pad_left (Z.to_nat p) (show_Z ds) in
  if k <=? 0 then String.append "0." (pad_zeros (Z.to_nat (- k)) s)
  else if p <=? k then String.append s (pad_zeros (Z.to_nat (k - p)) "")
  else String.append (String.substring 0 (Z.to_nat k) s)
         (String.append "." (String.substring (Z.to_nat k) (String.length s - Z.to_nat k) s)).

Definition show_f64 (x : spec_float) : string :=
  match x with
  | S754_zero neg => if neg then "-0" else "0"
  | S754_infinity neg => if neg then "-inf" else "inf"
  | S754_nan => "NaN"
  | S754_finite neg m e =>
      let '(n, d) := ratio_of m e in
      let k := dec_exponent 8 (dec_estimate n (Zpos d)) n (Zpos d) in
      let '(ds, p) := shortest 17 (S754_finite false m e) 1 k n (Zpos d) in
      String.append (if neg then "-" else "") (place_point ds p k)
  end.

Example show_f64_integers :
  show_f64 <$> [f64_of_Z 0; f64_of_Z 42; f64_of_Z 1000; f64_of_Z 120000; f64_of_Z (2 ^ 60)]
  = ["0"; "42"; "1000"; "120000"; "1152921504606847000"]%string.
Proof. vm_compute. reflexivity. Qed.

Example show_f64_fractions :
  show_f64 <$> [f64_of_ratio false 1 10; f64_of_ratio true 305 10; f64_of_ratio false 1 3;
                f64_of_ratio false 1 1000000000]
  = ["0.1"; "-30.5"; "0.3333333333333333"; "0.000000001"]%string.
Proof. vm_compute. reflexivity. Qed.

Example parse_f64_examples :
  (fun s => show_f64 <$> parse_f64 (str_bytes s)) <$> ["10"; "1.5"; "-.5"; "5."; "."; "1-2"; ""; "+3"]%string
  = [Some "10"; Some "1.5"; Some "-0.5"; Some "5"; None; None; None; Some "3"]%string.
Proof. vm_compute. reflexivity. Qed.

(** ** Splitting

    [str::split] with an ASCII character, on the bytes. *)

Fixpoint split_on (sep : Z) (l : list Z) : list (list Z) :=
  match l with
  | [] => [[]]
  | b :: l' =>
      if b =? sep then [] :: split_on sep l'
      else match split_on sep l' with
           | p :: ps => (b :: p) :: ps
           | [] => [[b]]
           end
  end.

Lemma split_on_here sep u v : sep ∉ u -> split_on sep (u ++ sep :: v) = u :: split_on sep v.
Proof.
  induction u as [|b u IH]; simpl; intros Hu; [by rewrite Z.eqb_refl|].
  apply not_elem_of_cons in Hu as [? ?]. destruct (Z.eqb_spec b sep); [congruence|]. by rewrite IH.
Qed.

Lemma split_on_none sep u : sep ∉ u -> split_on sep u = [u].
Proof.
  induction u as [|b u IH]; simpl; intros Hu; [done|].
  apply not_elem_of_cons in Hu as [? ?]. destruct (Z.eqb_spec b sep); [congruence|]. by rewrite IH.
Qed.

Lemma str_bytes_append s t : str_bytes (String.append s t) = str_bytes s ++ str_bytes t.
Proof. induction s as [|c s IH]; simpl; [done|by rewrite IH]. Qed.

Section Join.
Context (sep : Z) (c : string) (Hc : str_bytes c = [sep]).

Lemma join_cons p q ps : str_bytes (join c (p :: q :: ps)) = str_bytes p ++ sep :: str_bytes (join c (q :: ps)).
Proof. unfold join. cbn [String.concat]. by rewrite !str_bytes_append, Hc. Qed.

(** A piece: no separator in it. *)
Definition clean (p : string) : Prop := sep ∉ str_bytes p.

Lemma split_on_join ps : ps <> [] -> Forall clean ps -> split_on sep (str_bytes (join c ps)) = str_bytes <$> ps.
Proof.
  intros Hne Hps. induction Hps as [|p [|q ps] Hp Hps IH]; [done|by apply split_on_none|].
  rewrite join_cons, split_on_here by done. rewrite IH by done. done.
Qed.

Lemma split_on_join_app ps v : ps <> [] -> Forall clean ps ->
  split_on sep (str_bytes (join c ps) ++ sep :: v) = (str_bytes <$> ps) ++ split_on sep v.
Proof.
  intros Hne Hps. induction Hps as [|p [|q ps] Hp Hps IH]; [done|by apply split_on_here|].
  rewrite join_cons, <-app_assoc. cbn [app]. rewrite split_on_here by done. rewrite IH by done. done.
Qed.
End Join.
