(* ===== verification/Types.v ===== *)
(** * The core data model and the plugin contract

    Models the type-only modules of [pktflow-core]: [route.rs], [depth.rs],
    [error.rs], [packet.rs], [context.rs], [plugin.rs], [stream.rs] and the
    types of [diagnostics.rs].  [SystemTime] is a count of nanoseconds from
    the epoch and [Duration] a nonnegative count of nanoseconds, both [Z].

    The conformance rules every plugin has to satisfy are the class
    [Conformant] of [Contract.v]: it is what the dissector promises the parser and
    the aggregator, and what each modelled plugin is an instance of. *)

From S2P Require Import Prelude Values Bytes.

Abbreviation SystemTime := Z (only parsing).
Abbreviation Duration := Z (only parsing).

(** ** route.rs *)

Inductive RouteId :=
  | LinkType (id : Z)
  | EtherType (id : Z)
  | IpProtocol (id : Z)
  | UdpPort (id : Z)
  | TcpPort (id : Z)
  | Custom (space : string) (id : Z).

#[export] Instance RouteId_eq_dec : EqDecision RouteId.
Proof. solve_decision. Defined.

(** The variant index, the space and the number: what [#[derive(Hash, Ord)]]
    looks at, in order. *)
Definition route_parts (r : RouteId) : Z * string * Z :=
  match r with
  | LinkType id => (0, EmptyString, id)
  | EtherType id => (1, EmptyString, id)
  | IpProtocol id => (2, EmptyString, id)
  | UdpPort id => (3, EmptyString, id)
  | TcpPort id => (4, EmptyString, id)
  | Custom space id => (5, space, id)
  end.

Definition route_of_parts (p : Z * string * Z) : RouteId :=
  match p with
  | (0, _, id) => LinkType id
  | (1, _, id) => EtherType id
  | (2, _, id) => IpProtocol id
  | (3, _, id) => UdpPort id
  | (4, _, id) => TcpPort id
  | (_, space, id) => Custom space id
  end.

#[export] Instance RouteId_countable : Countable RouteId.
Proof. apply (inj_countable' route_parts route_of_parts). by intros []. Defined.

(** The derived [Ord]. *)
Definition route_leb : RouteId -> RouteId -> bool :=
  key_leb route_parts (lex_pair (lex_pair Z.leb str_leb) Z.leb).

#[export] Instance route_leb_ord : TotalOrd route_leb.
Proof. unfold route_leb. apply _. Qed.

(** ** depth.rs *)

Inductive Depth := DNone | DKeys | DStructural | DFull.

#[export] Instance Depth_eq_dec : EqDecision Depth.
Proof. solve_decision. Defined.

Definition depth_rank (d : Depth) : Z :=
  match d with DNone => 0 | DKeys => 1 | DStructural => 2 | DFull => 3 end.

(** [d >= e] of the derived order. *)
Definition depth_geb (d e : Depth) : bool := depth_rank e <=? depth_rank d.

Definition depth_max (d e : Depth) : Depth := if depth_geb d e then d else e.

Record ParseOpts := mkParseOpts {
  opt_depth : Depth;
  aggregation : bool;
  max_layers : nat;
  entry : option ProtocolName;
  allow_entry_heuristics : bool;
  opt_diagnose_unknown : bool;
}.

Definition ParseOpts_default : ParseOpts := {|
  opt_depth := DFull; aggregation := true; max_layers := 32; entry := None;
  allow_entry_heuristics := false; opt_diagnose_unknown := false |}.

Definition effective_depth (o : ParseOpts) : Depth :=
  if aggregation o then depth_max (opt_depth o) DKeys else opt_depth o.

(** ** error.rs *)

Inductive ParseError :=
  | PE_Truncated (t : Truncated)
  | PE_Malformed (why : string).

#[export] Instance ParseError_eq_dec : EqDecision ParseError.
Proof. solve_decision. Defined.

#[export] Instance From_Truncated_ParseError : From Truncated ParseError := PE_Truncated.

Inductive StopReason :=
  | Stop_Complete
  | Stop_Terminal
  | Stop_UnclaimedRoute (id : RouteId)
  | Stop_UnknownHint
  | Stop_Truncated (needed have : Z)
  | Stop_PluginError
  | Stop_DepthCap.

#[export] Instance StopReason_eq_dec : EqDecision StopReason.
Proof. solve_decision. Defined.

Inductive StopClass := Clean | UnknownPayload | Malformed | Suspicious.

#[export] Instance StopClass_eq_dec : EqDecision StopClass.
Proof. solve_decision. Defined.

(** [StopReason::class]. *)
Definition stop_class (s : StopReason) : StopClass :=
  match s with
  | Stop_Complete | Stop_Terminal => Clean
  | Stop_UnclaimedRoute _ | Stop_UnknownHint => UnknownPayload
  | Stop_Truncated _ _ | Stop_PluginError => Malformed
  | Stop_DepthCap => Suspicious
  end.

(** ** packet.rs and the types of diagnostics.rs *)

Record PacketMeta := mkMeta {
  timestamp : SystemTime;
  caplen : Z;
  origlen : Z;
  link_type : Z;
}.

Record LayerRecord := mkLayer {
  protocol : ProtocolName;
  offset : Z;
  header_len : Z;
  fields : FieldMap.t;
}.

#[export] Instance LayerRecord_eq_dec : EqDecision LayerRecord.
Proof. solve_decision. Defined.

(** [struct Confidence(u8)], clamped by its constructor. *)
Definition Confidence_new (score : Z) : Z := Z.min score 100.

Inductive UnknownContext :=
  | UC_UnclaimedRoute (predecessor : ProtocolName) (route : RouteId)
  | UC_NoHeuristicWinner (predecessor : ProtocolName).

#[export] Instance UnknownContext_eq_dec : EqDecision UnknownContext.
Proof. solve_decision. Defined.

Record UnknownDiagnostics := mkDiag {
  context : UnknownContext;
  diag_near_misses : list (ProtocolName * Z);
  sample : list Z;
}.

Record DissectedPacket := mkPacket {
  meta : PacketMeta;
  layers : list LayerRecord;
  stop : StopReason;
  opaque_len : Z;
  unknown : option UnknownDiagnostics;
}.

(** ** context.rs *)

Record ParseCtx := mkCtx {
  ctx_layers : list LayerRecord;
  ctx_depth : Depth;
  ctx_meta : PacketMeta;
}.

(** Innermost layer of that name. *)
Definition ctx_layer (c : ParseCtx) (proto : string) : option LayerRecord :=
  find_first (fun l => String.eqb (protocol l) proto) (rev (ctx_layers c)).

Definition ctx_field (c : ParseCtx) (proto field : string) : option Value :=
  l ← ctx_layer c proto; FieldMap.get field (fields l).

Definition ctx_prev (c : ParseCtx) : option LayerRecord := last (ctx_layers c).

(** ** stream.rs *)

(** [struct FlowKey(SmallVec<[u8; 40]>)]: the encoded bytes. *)
Abbreviation FlowKey := (list Z) (only parsing).

Inductive PacketDirection := AtoB | BtoA.

#[export] Instance PacketDirection_eq_dec : EqDecision PacketDirection.
Proof. solve_decision. Defined.

Inductive KeyError := MissingField (name : FieldName).

#[export] Instance KeyError_eq_dec : EqDecision KeyError.
Proof. solve_decision. Defined.

Record KeyField := mkKeyField { kf_a : FieldName; kf_b : option FieldName }.

#[export] Instance KeyField_eq_dec : EqDecision KeyField.
Proof. solve_decision. Defined.

Inductive Canonicalize :=
  | EndpointSort
  | CustomRule (f : FieldMap.t -> result (FlowKey * PacketDirection) KeyError).

Record LifecycleSpec := mkLifecycle {
  initial : StateName;
  advance : FieldMap.t -> StateName -> PacketDirection -> StateName;
  closed_states : list StateName;
}.

Inductive RollupKind := RK_Accumulate | RK_Sample | RK_Series (cap : Z).

Record RollupSpec := mkRollupSpec { rs_field : FieldName; rs_kind : RollupKind }.

Record CondenseSpec := mkCondense { ephemeral : KeyField }.

Record StreamIdentity := mkIdentity {
  key : list KeyField;
  canonicalize : Canonicalize;
  lifecycle : option LifecycleSpec;
  rollups : list RollupSpec;
}.

(** ** plugin.rs *)

Inductive Hint :=
  | Hint_Route (id : RouteId)
  | Hint_Candidates (ids : list RouteId)
  | Hint_ByProtocol (name : ProtocolName)
  | Hint_Unknown
  | Hint_Terminal.

Record ParsedLayer := mkParsed {
  pl_header_len : Z;
  pl_fields : FieldMap.t;
  pl_hint : Hint;
}.

(** The engine-side rule-3 check. *)
Definition header_len_ok (p : ParsedLayer) (available : Z) : bool :=
  pl_header_len p <=? available.

(** [trait LayerPlugin]: the operations, with [&self] applied. *)
Record LayerPlugin := mkPlugin {
  name : ProtocolName;
  parse : list Z -> ParseCtx -> result ParsedLayer ParseError;
  claims : list RouteId;
  expected_predecessors : list ProtocolName;
  has_probe : bool;
  probe : list Z -> ParseCtx -> option Z;
  stream_identity : option StreamIdentity;
  condense : option CondenseSpec;
}.

(** A plugin body: run the reads over the header bytes. *)
Definition run_reader {A} (m : reader ParseError A) (bytes : list Z) : result A ParseError :=
  (m (ByteReader.new bytes)).1.

(** A run of [fields.insert(name, v)] calls. *)
Definition insert_all (entries : list (FieldName * Value)) (m : FieldMap.t) : FieldMap.t :=
  foldl (fun m e => FieldMap.insert e.1 e.2 m) m entries.

(** [if ctx.depth() >= d { fields.insert(name, v); ... }]. *)
Definition insert_at (c : ParseCtx) (d : Depth) (entries : list (FieldName * Value))
    (m : FieldMap.t) : FieldMap.t :=
  if depth_geb (ctx_depth c) d
  then insert_all entries m
  else m.
