(* ===== verification/Contract.v ===== *)
(** * The plugin conformance contract

    Models the rules of [crates/pktflow-plugins/tests/kit/mod.rs] (and rules
    3 and 4 of the [LayerPlugin] trait) as laws over every input, where the
    kit samples them: a plugin is [Framed] when a successful parse fits in the
    bytes and the depth changes neither framing nor routing and only adds
    fields, [Keyed] when the flow-key fields are there from [DKeys] on,
    [Declining] when every strict prefix of the header is declined, and
    [Conformant] when it is all three.  The parser and the aggregator are proved
    against this class; the modelled plugins are its instances. *)

From S2P Require Import Prelude Values Bytes Types.

Definition with_depth (c : ParseCtx) (d : Depth) : ParseCtx :=
  mkCtx (ctx_layers c) d (ctx_meta c).

(** Every field a key declaration names, in order. *)
Definition key_names (ks : list KeyField) : list FieldName :=
  ks ≫= fun kf => kf_a kf :: from_option (fun b => [b]) [] (kf_b kf).

(** What the aggregator needs from the fields to build a key. *)
Definition key_ready (id : StreamIdentity) (m : FieldMap.t) : Prop :=
  match canonicalize id with
  | EndpointSort => Forall (fun n => is_Some (FieldMap.get n m)) (key_names (key id))
  | CustomRule f => exists kd, f m = Ok kd
  end.

(** Rules 2 and 4: the header fits, and depth governs extraction only. *)
Class Framed (p : LayerPlugin) : Prop := {
  conf_header_len : forall bytes c r,
    parse p bytes c = Ok r -> 0 <= pl_header_len r <= blen bytes;
  conf_depth : forall bytes c d1 d2 r1,
    parse p bytes (with_depth c d1) = Ok r1 ->
    exists r2, parse p bytes (with_depth c d2) = Ok r2 /\
      pl_header_len r2 = pl_header_len r1 /\ pl_hint r2 = pl_hint r1 /\
      (depth_geb d2 d1 = true ->
       forall n, n ∈ FieldMap.names (pl_fields r1) -> n ∈ FieldMap.names (pl_fields r2));
  conf_fields_ok : forall bytes c r,
    parse p bytes c = Ok r -> FieldMap.ok (pl_fields r);
}.

(** Rule 3: the key can be built from what is extracted at [DKeys] and deeper. *)
Class Keyed (p : LayerPlugin) : Prop :=
  conf_keys : forall bytes c r id,
    parse p bytes c = Ok r -> depth_geb (ctx_depth c) DKeys = true ->
    stream_identity p = Some id -> key_ready id (pl_fields r).

(** Rule 1: no short success. *)
Class Declining (p : LayerPlugin) : Prop :=
  conf_truncation : forall bytes c r n,
    parse p bytes c = Ok r -> 0 <= n < pl_header_len r ->
    exists e, parse p (take (Z.to_nat n) bytes) c = Error e.

Class Conformant (p : LayerPlugin) : Prop := {
  #[global] conf_framed :: Framed p;
  #[global] conf_keyed :: Keyed p;
  #[global] conf_declining :: Declining p;
}.

(** ** Stability: a read does not look past what it consumed

    [Stable m]: when [m] succeeds on a buffer it stays inside it, and succeeds
    with the same value and the same cursor on every extension of the buffer. *)

Class Stable {E A} (m : reader E A) : Prop :=
  stable : forall b t p a r', 0 <= p <= blen b -> m (mkReader b p) = (Ok a, r') ->
    m (mkReader (b ++ t) p) = (Ok a, mkReader (b ++ t) (pos r')) /\
    buf r' = b /\ 0 <= pos r' <= blen b.

Lemma slice_app_stable {A} (b t : list A) i j s :
  slice b i j = Some s -> slice (b ++ t) i j = Some s.
Proof.
  rewrite !slice_Some, blen_app. intros (? & ? & Hj & ->).
  pose proof (blen_nonneg t). split_and!; try lia. unfold blen in *.
  rewrite drop_app_le by lia. rewrite take_app_le by (rewrite length_drop; lia). done.
Qed.

#[export] Instance stable_take n : Stable (ByteReader.take n).
Proof.
  intros b t p a r' Hp. unfold ByteReader.take. simpl. case_match; [done|].
  destruct (slice b p (p + n)) as [s|] eqn:Hs; intros; simplify_eq/=.
  rewrite (slice_app_stable _ _ _ _ _ Hs). apply slice_Some in Hs. split_and!; [done|done|cbn; lia|cbn; lia].
Qed.

#[export] Instance stable_array n : Stable (ByteReader.array n).
Proof.
  intros b t p a r' Hp. unfold ByteReader.array.
  destruct (ByteReader.take n (mkReader b p)) as [[s|e] r1] eqn:Ht; [|done].
  destruct (stable _ t _ _ _ Hp Ht) as (-> & Hb & Hi). case_match; intros; simplify_eq/=. done.
Qed.

(** [bytes.len() - r.remaining()]: how far the reader got. *)
Definition consumed {E} : reader E Z :=
  fun r => (Ok (blen (buf r) - ByteReader.remaining r), r).

#[export] Instance stable_consumed {E} : Stable (E:=E) consumed.
Proof.
  intros b t p a r' Hp. unfold consumed, ByteReader.remaining, sat_sub. cbn [buf pos].
  intros; simplify_eq/=. rewrite blen_app. pose proof (blen_nonneg t).
  split_and!; [do 2 f_equal; lia|done|lia|lia].
Qed.

#[export] Instance stable_ret {E A} (a : A) : Stable (E:=E) (rret a).
Proof. intros b t p a' r' Hp. unfold rret. intros; simplify_eq/=. done. Qed.

#[export] Instance stable_fail {E A} (e : E) : Stable (A:=A) (rfail e).
Proof. intros b t p a' r' _. done. Qed.

#[export] Instance stable_bind {E F A B} `{From E F} (m : reader E A) (k : A -> reader F B) :
  Stable m -> (forall a, Stable (k a)) -> Stable (rbind m k).
Proof.
  intros Hm Hk b t p a r' Hp Hr. apply rbind_Ok_inv in Hr as (x & r1 & H1 & H2).
  destruct (Hm _ t _ _ _ Hp H1) as (H1' & Hb1 & Hi). rewrite (rbind_Ok _ _ _ _ _ H1').
  destruct r1 as [b1 p1]. simpl in *. subst b1. by apply Hk.
Qed.

#[export] Instance stable_if {E A} (c : bool) (m1 m2 : reader E A) :
  Stable m1 -> Stable m2 -> Stable (if c then m1 else m2).
Proof. by destruct c. Qed.

#[export] Instance stable_u8 : Stable ByteReader.u8 := _.
#[export] Instance stable_u16_be : Stable ByteReader.u16_be := _.
#[export] Instance stable_u16_le : Stable ByteReader.u16_le := _.
#[export] Instance stable_u32_be : Stable ByteReader.u32_be := _.
#[export] Instance stable_u32_le : Stable ByteReader.u32_le := _.
#[export] Instance stable_u64_be : Stable ByteReader.u64_be := _.
#[export] Instance stable_u64_le : Stable ByteReader.u64_le := _.

Lemma run_reader_app {A} (m : reader ParseError A) `{!Stable m} bytes t a :
  run_reader m bytes = Ok a -> run_reader m (bytes ++ t) = Ok a.
Proof.
  unfold run_reader, ByteReader.new.
  destruct (m (mkReader bytes 0)) as [x r'] eqn:Hr. simpl. intros ->.
  assert (0 <= 0 <= blen bytes) as Hi by (pose proof (blen_nonneg bytes); lia).
  destruct (stable _ t _ _ _ Hi Hr) as [-> _]. done.
Qed.

(** ** Depth gating *)

Lemma depth_geb_trans a b c : depth_geb a b = true -> depth_geb b c = true -> depth_geb a c = true.
Proof. unfold depth_geb. rewrite !Z.leb_le. lia. Qed.

Lemma depth_geb_refl d : depth_geb d d = true.
Proof. by apply Z.leb_refl. Qed.

Lemma insert_all_ok entries m : FieldMap.ok m -> FieldMap.ok (insert_all entries m).
Proof.
  revert m. induction entries as [|[n v] es IH]; intros m Hm; [done|].
  apply IH. by apply FieldMap.insert_ok.
Qed.

Lemma elem_of_names_insert n name v m :
  n ∈ FieldMap.names (FieldMap.insert name v m) <-> n = name \/ n ∈ FieldMap.names m.
Proof.
  rewrite FieldMap.names_insert. case_decide.
  - split; [by right|]. by intros [->|].
  - rewrite elem_of_app, list_elem_of_singleton. tauto.
Qed.

Lemma elem_of_names_insert_all n entries m :
  n ∈ FieldMap.names (insert_all entries m) <-> n ∈ entries.*1 \/ n ∈ FieldMap.names m.
Proof.
  revert m. induction entries as [|[k v] es IH]; intros m.
  - simpl. rewrite elem_of_nil. tauto.
  - change (insert_all ((k, v) :: es) m) with (insert_all es (FieldMap.insert k v m)).
    rewrite IH, elem_of_names_insert, fmap_cons, elem_of_cons. simpl. tauto.
Qed.

Lemma insert_at_ok c d entries m : FieldMap.ok m -> FieldMap.ok (insert_at c d entries m).
Proof. unfold insert_at. case_match; [|done]. apply (insert_all_ok entries). Qed.

Lemma insert_at_mono c d1 d2 d entries m1 m2 n :
  depth_geb d2 d1 = true ->
  (n ∈ FieldMap.names m1 -> n ∈ FieldMap.names m2) ->
  n ∈ FieldMap.names (insert_at (with_depth c d1) d entries m1) ->
  n ∈ FieldMap.names (insert_at (with_depth c d2) d entries m2).
Proof.
  intros Hd Hm. unfold insert_at. simpl.
  destruct (depth_geb d1 d) eqn:E1.
  - rewrite (depth_geb_trans _ _ _ Hd E1).
    rewrite !(elem_of_names_insert_all n entries). tauto.
  - intros Hn. apply Hm in Hn. case_match; [|done].
    apply (elem_of_names_insert_all n entries). by right.
Qed.

Lemma insert_at_hit c d entries m n :
  depth_geb (ctx_depth c) d = true -> n ∈ entries.*1 ->
  n ∈ FieldMap.names (insert_at c d entries m).
Proof.
  intros Hd Hn. unfold insert_at. rewrite Hd. apply (elem_of_names_insert_all n entries). by left.
Qed.

Lemma insert_at_keep c d entries m n :
  n ∈ FieldMap.names m -> n ∈ FieldMap.names (insert_at c d entries m).
Proof.
  intros Hn. unfold insert_at. case_match; [|done].
  apply (elem_of_names_insert_all n entries). by right.
Qed.

Lemma key_ready_endpoint id m :
  canonicalize id = EndpointSort ->
  Forall (fun n => n ∈ FieldMap.names m) (key_names (key id)) -> key_ready id m.
Proof.
  intros Hc Hf. unfold key_ready. rewrite Hc. eapply Forall_impl; [done|].
  intros n. simpl. apply FieldMap.get_Some_names.
Qed.

#[export] Hint Resolve insert_at_ok insert_all_ok FieldMap.map_new_ok : pktflow.
