(* ===== verification/PlugKit.v ===== *)
(** * Reasoning about header readers

    The dissectors under [crates/pktflow-plugins/src] all read a header with
    [ByteReader], gate the fields on the depth and return a [ParsedLayer].
    [Conformant] follows from three facts about the reader they run, each
    established by walking through its reads: it is [Stable], what it returns
    is justified by what it consumed ([consumes]) and depth and the bytes past
    the header change nothing but the fields ([related]). *)

From S2P Require Import Prelude Values Bytes Types Contract.

(** ** What a read consumed

    [consumes n m Q]: with the cursor at [n] inside the buffer, a success of
    [m] ends inside the buffer, with a cursor and a value that satisfy [Q]. *)

Definition inside (r : ByteReader) : Prop := 0 <= pos r <= blen (buf r).

Definition consumes {E A} (n : Z) (m : reader E A) (Q : Z -> A -> Prop) : Prop :=
  forall r a r', inside r -> pos r = n -> m r = (Ok a, r') ->
    buf r' = buf r /\ inside r' /\ Q (pos r') a.

Lemma consumes_ret {E A} n (a : A) (Q : Z -> A -> Prop) :
  Q n a -> consumes (E:=E) n (rret a) Q.
Proof. intros HQ r x r' Hr <-. unfold rret. by intros; simplify_eq/=. Qed.

Lemma consumes_fail {E A} n (e : E) (Q : Z -> A -> Prop) : consumes n (rfail e) Q.
Proof. intros r x r' _ _. done. Qed.

Lemma consumes_bind {E F A B} `{From E F} n (m : reader E A) (k : A -> reader F B)
    (P : Z -> A -> Prop) Q :
  consumes n m P -> (forall n' a, P n' a -> consumes n' (k a) Q) ->
  consumes n (rbind m k) Q.
Proof.
  intros Hm Hk r b r' Hr Hn Hb. apply rbind_Ok_inv in Hb as (a & r1 & H1 & H2).
  destruct (Hm _ _ _ Hr Hn H1) as (Hb1 & Hi1 & HP).
  destruct (Hk _ _ HP _ _ _ Hi1 eq_refl H2) as (Hb2 & Hi2 & HQ).
  split_and!; [congruence|done|done].
Qed.

Lemma consumes_advances {E A} n k (m : reader E A) P `{!Advances m k P} :
  consumes n m (fun n' a => n' = n + k /\ 0 <= k /\ exists s, P a s /\ blen s = k).
Proof.
  intros r a r' Hr Hn Hm. destruct (advances _ _ _ Hm) as (? & ? & ? & ? & s & ? & ? & ?).
  unfold inside in *. split_and!; try congruence; try lia. by exists s.
Qed.

Lemma consumes_consumed {E} n :
  consumes (E:=E) n consumed (fun n' a => n' = n /\ a = n /\ 0 <= n).
Proof.
  intros r a r' [Hr1 Hr2] <-. unfold consumed, ByteReader.remaining, sat_sub, inside.
  intros; simplify_eq/=. split_and!; try done; lia.
Qed.

Lemma consumes_bind_ret {E F A B} `{From E F} n (a : A) (k : A -> reader F B) Q :
  consumes n (k a) Q -> consumes n (rbind (rret (E:=E) a) k) Q.
Proof. done. Qed.

(** Which error a failure is converted to does not matter here. *)
Lemma consumes_assoc {E F G A B C} {EF : From E F} {FG : From F G} {EG : From E G} n
    (m : reader E A) (k : A -> reader F B) (k' : B -> reader G C) Q :
  consumes n (rbind m (fun a => rbind (k a) k')) Q -> consumes n (rbind (rbind m k) k') Q.
Proof.
  intros Hc r x r' Hr Hn Hx. apply (Hc r x r' Hr Hn). revert Hx. unfold rbind.
  by destruct (m r) as [[a|e] r1].
Qed.

Lemma consumes_impl {E A} n (m : reader E A) (P Q : Z -> A -> Prop) :
  consumes n m P -> (forall n' a, P n' a -> Q n' a) -> consumes n m Q.
Proof.
  intros Hm HPQ r a r' Hr Hn H. destruct (Hm _ _ _ Hr Hn H) as (? & ? & ?). eauto.
Qed.

(** What a reader of its own consumes, found by [consume_step]. *)
Class Consumes {E A} (m : reader E A) (P : Z -> Z -> A -> Prop) : Prop :=
  consumes_here : forall n, consumes n m (P n).

(** ** Two runs of one header

    [related R m1 m2]: on the same reader both fail, or both end at the same
    cursor with values in [R]. *)

Definition related {E A} (R : A -> A -> Prop) (m1 m2 : reader E A) : Prop :=
  forall r, match m1 r, m2 r with
            | (Ok a, r1), (Ok b, r2) => R a b /\ r1 = r2
            | (Error _, _), (Error _, _) => True
            | _, _ => False
            end.

Lemma related_ret {E A} (R : A -> A -> Prop) a b : R a b -> related (E:=E) R (rret a) (rret b).
Proof. by intros HR r. Qed.

Lemma related_fail {E A} (R : A -> A -> Prop) (e1 e2 : E) : related R (rfail e1) (rfail e2).
Proof. by intros r. Qed.

Lemma related_refl {E A} (R : A -> A -> Prop) (m : reader E A) :
  (forall a, R a a) -> related R m m.
Proof. intros HR r. destruct (m r) as [[a|e] r']; auto. Qed.

(** The same reads, then related continuations. *)
Lemma related_bind {E F A B} `{From E F} (R : B -> B -> Prop) (m : reader E A) k1 k2 :
  (forall a, related R (k1 a) (k2 a)) -> related R (rbind m k1) (rbind m k2).
Proof. intros Hk r. unfold rbind. destruct (m r) as [[a|e] r']; [apply Hk|done]. Qed.

Lemma related_bind_rel {E F A B} `{From E F} (R : B -> B -> Prop) (P : A -> A -> Prop)
    (m1 m2 : reader E A) k1 k2 :
  related P m1 m2 -> (forall a b, P a b -> related R (k1 a) (k2 b)) ->
  related R (rbind m1 k1) (rbind m2 k2).
Proof.
  intros Hm Hk r. specialize (Hm r). unfold rbind.
  destruct (m1 r) as [[a|e] r1], (m2 r) as [[b|e'] r2]; try done.
  destruct Hm as [HP ->]. by apply Hk.
Qed.

(** ** Loops that read

    [loop { ... }] with reads in its body: [inl] goes round again, [inr]
    breaks.  The bound is the bytes left plus one, enough for a body that
    reads in every round ([read_loop_unfold]); [spent] is the error of a body
    that does not. *)

Section ReadLoop.
Context {E S A : Type} (spent : E) (body : S -> reader E (S + A)).

Fixpoint iterate (fuel : nat) (s : S) : reader E A :=
  match fuel with
  | O => rfail spent
  | Datatypes.S fuel =>
      rbind (body s) (fun x => match x with inl s' => iterate fuel s' | inr a => rret a end)
  end.

Definition read_loop (s : S) : reader E A :=
  fun r => iterate (Datatypes.S (Z.to_nat (ByteReader.remaining r))) s r.

Lemma iterate_more fuel fuel' s r a r' :
  (fuel <= fuel')%nat -> iterate fuel s r = (Ok a, r') -> iterate fuel' s r = (Ok a, r').
Proof.
  revert fuel' s r. induction fuel as [|fuel IH]; intros fuel' s r Hf; [done|].
  destruct fuel' as [|fuel']; [lia|]. simpl. intros H.
  apply rbind_Ok_inv in H as (x & r1 & H1 & H2). rewrite (rbind_Ok _ _ _ _ _ H1).
  destruct x as [s'|b]; [|done]. apply IH; [lia|done].
Qed.

Lemma stable_iterate fuel s : (forall s, Stable (body s)) -> Stable (iterate fuel s).
Proof.
  intros Hb. revert s. induction fuel as [|fuel IH]; intros s; simpl; [apply _|].
  apply stable_bind; [apply Hb|]. intros [s'|a]; [apply IH|apply _].
Qed.

Lemma stable_read_loop s : (forall s, Stable (body s)) -> Stable (read_loop s).
Proof.
  intros Hb b t p a r' Hp H. unfold read_loop in *.
  destruct (stable_iterate _ s Hb b t p a r' Hp H) as (Ht & Hr). split; [|done].
  eapply iterate_more; [|exact Ht]. unfold ByteReader.remaining, sat_sub. cbn [buf pos].
  rewrite blen_app. pose proof (blen_nonneg t). lia.
Qed.

(** An invariant of the state and the cursor. *)
Lemma consumes_loop (I : Z -> S -> Prop) (Q : Z -> A -> Prop) n s :
  (forall n s, I n s -> consumes n (body s)
     (fun n' x => match x with inl s' => I n' s' | inr a => Q n' a end)) ->
  I n s -> consumes n (read_loop s) Q.
Proof.
  intros Hb HI r a r' Hr Hn. unfold read_loop.
  generalize (Datatypes.S (Z.to_nat (ByteReader.remaining r))). intros fuel.
  revert n s r HI Hr Hn. induction fuel as [|fuel IH]; intros n s r HI Hr Hn; [done|].
  simpl. intros H. apply rbind_Ok_inv in H as (x & r1 & H1 & H2).
  destruct (Hb _ _ HI _ _ _ Hr Hn H1) as (Hb1 & Hi1 & HP). destruct x as [s'|b].
  - destruct (IH _ _ _ HP Hi1 eq_refl H2) as (? & ? & ?). split_and!; [congruence| |done]. done.
  - unfold rret in H2. by simplify_eq/=.
Qed.

(** A body that reads makes the loop satisfy its equation, at any cursor
    inside the buffer. *)
Lemma iterate_enough fuel fuel' s r :
  (forall n s, consumes n (body s) (fun n' x => match x with inl _ => n < n' | inr _ => True end)) ->
  inside r ->
  ByteReader.remaining r < Z.of_nat fuel -> ByteReader.remaining r < Z.of_nat fuel' ->
  iterate fuel s r = iterate fuel' s r.
Proof.
  intros Hb. revert fuel' s r. induction fuel as [|fuel IH]; intros fuel' s r Hr H1 H2.
  { unfold ByteReader.remaining, sat_sub in *. lia. }
  destruct fuel' as [|fuel']; [unfold ByteReader.remaining, sat_sub in *; lia|].
  simpl. unfold rbind. destruct (body s r) as [[[s'|a]|e] r1] eqn:H; [|done..].
  destruct (Hb _ _ _ _ _ Hr eq_refl H) as (Hbuf & Hi & Hlt).
  apply IH; [done| |]; unfold ByteReader.remaining, sat_sub, inside in *; rewrite Hbuf in *; lia.
Qed.

Lemma read_loop_unfold s r :
  (forall n s, consumes n (body s) (fun n' x => match x with inl _ => n < n' | inr _ => True end)) ->
  inside r ->
  read_loop s r =
  rbind (body s) (fun x => match x with inl s' => read_loop s' | inr a => rret a end) r.
Proof.
  intros Hb Hr. unfold read_loop at 1. cbn [iterate]. unfold rbind at 1 2.
  destruct (body s r) as [[[s'|a]|e] r1] eqn:H; [|done..].
  destruct (Hb _ _ _ _ _ Hr eq_refl H) as (Hbuf & Hi & Hlt). unfold read_loop.
  apply iterate_enough; [done|done| |]; unfold ByteReader.remaining, sat_sub, inside in *;
    rewrite Hbuf in *; lia.
Qed.
End ReadLoop.

(** A body whose rounds read: its loop satisfies the loop's equation, so the
    bound is only a device. *)
Class Progresses {E S A} (body : S -> reader E (S + A)) : Prop :=
  progresses : forall n s, consumes n (body s)
    (fun n' x => match x with inl _ => n < n' | inr _ => n <= n' end).

Lemma progresses_unfold {E S A} spent (body : S -> reader E (S + A)) `{!Progresses body} s r :
  inside r ->
  read_loop spent body s r =
  rbind (body s) (fun x => match x with inl s' => read_loop spent body s' | inr a => rret a end) r.
Proof.
  apply read_loop_unfold. intros n s'. eapply consumes_impl; [apply progresses|]. by intros n' [|].
Qed.

Lemma consumes_walk {E S A} spent (body : S -> reader E (S + A)) `{!Progresses body} n s :
  consumes n (read_loop spent body s) (fun n' _ => n <= n').
Proof.
  apply (consumes_loop _ _ (fun m _ => n <= m)); [|lia]. intros m s' Hm.
  eapply consumes_impl; [apply progresses|]. intros n' [|]; lia.
Qed.

#[export] Hint Extern 2 (Stable (read_loop _ _ _)) => apply stable_read_loop; intros ? : typeclass_instances.

(** ** Counted reads and sub-buffers *)

(** [for _ in 0..n { list.push(m?) }]. *)
Fixpoint read_times {E A} (n : nat) (m : reader E A) : reader E (list A) :=
  match n with
  | O => rret []
  | S n' => rbind m (fun a => rbind (read_times n' m) (fun l => rret (a :: l)))
  end.

#[export] Instance stable_read_times {E A} n (m : reader E A) : Stable m -> Stable (read_times n m).
Proof. intros Hm. induction n; simpl; apply _. Qed.

#[export] Instance read_times_forward {E A} n (m : reader E A) :
  Consumes m (fun k k' _ => k <= k') -> Consumes (read_times n m) (fun k k' _ => k <= k').
Proof.
  intros Hm. induction n as [|n IH]; intros k; cbn [read_times]; [by apply consumes_ret|].
  eapply consumes_bind; [apply Hm|]. intros k1 a Hk1. eapply consumes_bind; [apply IH|].
  intros k2 l Hk2. apply consumes_ret. cbv beta in *. lia.
Qed.

Lemma consumes_read_times {E A} n k w (m : reader E A) P `{!Advances m w P} :
  consumes n (read_times k m) (fun n' l => n' = n + Z.of_nat k * w /\ length l = k).
Proof.
  revert n. induction k as [|k IH]; intros n; cbn [read_times]; [apply consumes_ret; simpl; lia|].
  eapply consumes_bind; [by apply consumes_advances|]. intros n' a (-> & _ & _).
  eapply consumes_bind; [apply IH|]. intros n' l [-> Hl]. apply consumes_ret. cbn [length]. rewrite Nat2Z.inj_succ. split; lia.
Qed.

(** A reader over a slice of the buffer: [ByteReader::new(slice)], read with [?]. *)
Definition within {A} (bytes : list Z) (m : reader ParseError A) : reader ParseError A :=
  match run_reader m bytes with Ok a => rret a | Error e => rfail e end.

#[export] Instance stable_within {A} bytes (m : reader ParseError A) : Stable (within bytes m).
Proof. unfold within. destruct (run_reader m bytes); apply _. Qed.

Lemma consumes_within {A} n bytes (m : reader ParseError A) :
  consumes n (within bytes m) (fun n' a => n' = n /\ run_reader m bytes = Ok a).
Proof. unfold within. destruct (run_reader m bytes); [by apply consumes_ret|apply consumes_fail]. Qed.

(** ** From the reader to the contract *)

(** What a header returned at depth [d] owes after consuming [n] bytes. *)
Definition layer_owes (id : option StreamIdentity) (c : ParseCtx) (n : Z) (l : ParsedLayer) : Prop :=
  0 <= pl_header_len l <= n /\ FieldMap.ok (pl_fields l) /\
  (depth_geb (ctx_depth c) DKeys = true ->
   forall i, id = Some i -> key_ready i (pl_fields l)).

(** How the layers of two runs compare that differ in depth ([d1], [d2]) and
    in the number of bytes available ([n1], [n2]). *)
Definition same_framing (n1 n2 : Z) (d1 d2 : Depth) (l1 l2 : ParsedLayer) : Prop :=
  pl_header_len l2 = pl_header_len l1 /\
  (n1 = n2 -> pl_hint l2 = pl_hint l1) /\
  (depth_geb d2 d1 = true ->
   forall n, n ∈ FieldMap.names (pl_fields l1) -> n ∈ FieldMap.names (pl_fields l2)).

(** A dissector: a header reader that may look at the number of bytes
    available ([bytes.len()]) and the context. *)
Definition dissector : Type := Z -> ParseCtx -> reader ParseError ParsedLayer.

Class Readable (id : option StreamIdentity) (m : dissector) : Prop := {
  disc_consumes : forall n c, 0 <= n -> consumes 0 (m n c) (fun n' => layer_owes id c (Z.max n' n));
  disc_related : forall n c d1 d2,
    related (same_framing n n d1 d2) (m n (with_depth c d1)) (m n (with_depth c d2));
}.

(** What is needed on top to decline truncated headers: reads that do not look
    past what they consumed, and a length that does not depend on how much
    there is. *)
Class Disciplined (id : option StreamIdentity) (m : dissector) : Prop := {
  #[global] disc_readable :: Readable id m;
  disc_stable : forall n c, Stable (m n c);
  disc_length : forall n1 n2 c, related (fun l1 l2 => pl_header_len l2 = pl_header_len l1) (m n1 c) (m n2 c);
}.

Lemma related_impl {E A} (P Q : A -> A -> Prop) (m1 m2 : reader E A) :
  (forall a b, P a b -> Q a b) -> related P m1 m2 -> related Q m1 m2.
Proof.
  intros HPQ Hm r. specialize (Hm r). destruct (m1 r) as [[a|e] r1], (m2 r) as [[b|e'] r2]; try done.
  destruct Hm; auto.
Qed.

Lemma with_depth_self c : with_depth c (ctx_depth c) = c.
Proof. by destruct c. Qed.

Lemma disciplined_intro id (m : dissector) :
  (forall n c, Stable (m n c)) ->
  (forall n c, consumes 0 (m n c) (layer_owes id c)) ->
  (forall n1 n2 c d1 d2,
     related (same_framing n1 n2 d1 d2) (m n1 (with_depth c d1)) (m n2 (with_depth c d2))) ->
  Disciplined id m.
Proof.
  intros Hs Hc Hr. constructor; [constructor; [|intros n; exact (Hr n n)]|exact Hs|].
  { intros n c _. eapply consumes_impl; [apply Hc|]. intros n' l ([? ?] & ? & ?). split_and!; [lia|lia|done|done]. }
  intros n1 n2 c. rewrite <- (with_depth_self c) at 1 2. eapply related_impl; [|apply Hr].
  intros l1 l2 [H _]. exact H.
Qed.

Section Dissector.
Context (p : LayerPlugin) (m : dissector) (id : option StreamIdentity).
Context (Hp : forall bytes c, parse p bytes c = run_reader (m (blen bytes) c) bytes).
Context (Hm : Readable id m).

(** What a parse that succeeded tells about the reader. *)
Lemma dissector_owes bytes c l : parse p bytes c = Ok l -> layer_owes id c (blen bytes) l.
Proof.
  rewrite Hp. unfold run_reader.
  destruct (m (blen bytes) c (ByteReader.new bytes)) as [x r'] eqn:Hr. simpl. intros ->.
  assert (inside (ByteReader.new bytes)) as Hi.
  { unfold inside. simpl. pose proof (blen_nonneg bytes). lia. }
  destruct (disc_consumes _ _ (blen_nonneg bytes) _ _ _ Hi eq_refl Hr) as (Hb & Hi' & (Hl & Hok & Hk)).
  unfold inside in Hi'. rewrite Hb in Hi'. simpl in *. split_and!; [lia|lia|done|done].
Qed.

(** Two runs of the reader on the same bytes. *)
Lemma run_related (R : ParsedLayer -> ParsedLayer -> Prop) m1 m2 bytes l :
  related R m1 m2 -> run_reader m1 bytes = Ok l -> exists l', run_reader m2 bytes = Ok l' /\ R l l'.
Proof.
  intros HR Hl. specialize (HR (ByteReader.new bytes)). unfold run_reader in *.
  destruct (m1 (ByteReader.new bytes)) as [[a|e] r1]; simplify_eq/=.
  destruct (m2 (ByteReader.new bytes)) as [[b|e] r2]; simpl in *; [|done]. destruct HR as [HR _]. by exists b.
Qed.

Lemma dissector_framed : Framed p.
Proof.
  constructor.
  - intros bytes c l Hl. apply (dissector_owes _ _ _ Hl).
  - intros bytes c d1 d2 l. rewrite Hp. intros Hl.
    destruct (run_related _ _ _ _ _ (disc_related (blen bytes) c d1 d2) Hl) as (l' & Hl' & H1 & H2 & H3).
    exists l'. rewrite Hp. auto.
  - intros bytes c l Hl. apply (dissector_owes _ _ _ Hl).
Qed.

Lemma dissector_keyed : stream_identity p = id -> Keyed p.
Proof. intros Hid bytes c l i Hl Hd Hi. rewrite Hid in Hi. by apply (dissector_owes _ _ _ Hl). Qed.

Lemma dissector_declining :
  (forall n c, Stable (m n c)) ->
  (forall n1 n2 c, related (fun l1 l2 => pl_header_len l2 = pl_header_len l1) (m n1 c) (m n2 c)) ->
  Declining p.
Proof.
  intros Hst Hlr bytes c l n Hl Hn.
  destruct (parse p (take (Z.to_nat n) bytes) c) as [l'|e] eqn:Hl'; [exfalso|by eauto].
  pose proof (dissector_owes _ _ _ Hl') as [Hlen _].
  rewrite Hp in Hl, Hl'.
  pose proof (run_reader_app _ _ (drop (Z.to_nat n) bytes) _ Hl') as Hext. rewrite take_drop in Hext.
  destruct (run_related _ _ _ _ _ (Hlr _ (blen bytes) c) Hext) as (l2 & H2 & Heq).
  assert (l2 = l) as -> by congruence. unfold blen in Hlen. rewrite length_take in Hlen. lia.
Qed.
End Dissector.

(** *** Announced lengths

    A header whose length is announced by its first bytes, which [lenr] reads. *)

Definition announces (lenr : reader ParseError Z) (m : reader ParseError ParsedLayer) : Prop :=
  forall r l r', m r = (Ok l, r') -> exists r'', lenr r = (Ok (pl_header_len l), r'').

Definition returns {E A} (m : reader E A) (Q : A -> Prop) : Prop :=
  forall r a r', m r = (Ok a, r') -> Q a.

Lemma announces_bind {E A} `{From E ParseError} (m : reader E A) k1 k2 :
  (forall a, announces (k1 a) (k2 a)) -> announces (rbind m k1) (rbind m k2).
Proof.
  intros Hk r l r' Hl. apply rbind_Ok_inv in Hl as (a & r1 & H1 & H2).
  rewrite (rbind_Ok _ _ _ _ _ H1). by eapply Hk.
Qed.

Lemma announces_fail lenr (e : ParseError) : announces lenr (rfail e).
Proof. intros r l r'. done. Qed.

Lemma announces_end n m : returns m (fun l => pl_header_len l = n) -> announces (rret n) m.
Proof. intros Hm r l r' Hl. exists r. by rewrite (Hm _ _ _ Hl). Qed.

Lemma returns_ret {E A} (a : A) (Q : A -> Prop) : Q a -> returns (E:=E) (rret a) Q.
Proof. intros HQ r x r'. unfold rret. by intros; simplify_eq/=. Qed.
Lemma returns_fail {E A} (e : E) (Q : A -> Prop) : returns (rfail e) Q.
Proof. done. Qed.
Lemma returns_bind {E F A B} `{From E F} (m : reader E A) (k : A -> reader F B) Q :
  (forall a, returns (k a) Q) -> returns (rbind m k) Q.
Proof. intros Hk r b r' Hb. apply rbind_Ok_inv in Hb as (a & r1 & H1 & H2). by eapply Hk. Qed.

Ltac returns_step :=
  lazymatch goal with
  | |- returns (rret _) _ => apply returns_ret
  | |- returns (rfail _) _ => apply returns_fail
  | |- returns (rbind _ _) _ => apply returns_bind; intros ?; cbv beta
  | |- returns (match ?b with _ => _ end) _ => destruct b
  | |- returns (let x := _ in _) _ => cbv zeta
  end.

Ltac announce_step :=
  lazymatch goal with
  | |- announces _ (rfail _) => apply announces_fail
  | |- announces (rbind _ _) (rbind _ _) => apply announces_bind; intros ?
  | |- announces _ (match ?b with _ => _ end) => destruct b
  end.

(** The reads of the announcement, guards of the header in between. *)
Ltac announce unfold_it :=
  intros; unfold_it; cbv zeta; repeat announce_step; apply announces_end;
  repeat returns_step; reflexivity.

Lemma declining_announced (p : LayerPlugin) (m : dissector) (lenr : reader ParseError Z) :
  (forall bytes c, parse p bytes c = run_reader (m (blen bytes) c) bytes) ->
  Framed p -> Stable lenr -> (forall n c, announces lenr (m n c)) -> Declining p.
Proof.
  intros Hp Hf Hs Ha.
  assert (forall bytes c l, parse p bytes c = Ok l -> run_reader lenr bytes = Ok (pl_header_len l)) as Hlen.
  { intros bytes c l. rewrite Hp. unfold run_reader. destruct (m (blen bytes) c _) as [x r'] eqn:Hr. simpl.
    intros ->. destruct (Ha _ _ _ _ _ Hr) as (r'' & ->). done. }
  intros bytes c l n Hl Hn.
  destruct (parse p (take (Z.to_nat n) bytes) c) as [l'|e] eqn:Hl'; [exfalso|by eauto].
  pose proof (conf_header_len _ _ _ Hl') as Hle. apply Hlen in Hl, Hl'.
  pose proof (run_reader_app _ _ (drop (Z.to_nat n) bytes) _ Hl') as Hext. rewrite take_drop in Hext.
  assert (pl_header_len l' = pl_header_len l) as He by congruence.
  unfold blen in Hle. rewrite length_take in Hle. lia.
Qed.

Lemma dissector_conformant (p : LayerPlugin) (m : dissector) :
  (forall bytes c, parse p bytes c = run_reader (m (blen bytes) c) bytes) ->
  Disciplined (stream_identity p) m -> Conformant p.
Proof.
  intros Hp Hm. constructor.
  - exact (dissector_framed p m _ Hp disc_readable).
  - exact (dissector_keyed p m _ Hp disc_readable eq_refl).
  - exact (dissector_declining p m _ Hp disc_readable disc_stable disc_length).
Qed.

(** ** Idioms of the sources *)

(** [word & bit != 0]. *)
Definition flag (word bit : Z) : bool := negb (Z.land word bit =? 0).

(** [bytes.iter().fold(0u64, |acc, &b| (acc << 8) | u64::from(b))]. *)
Definition fold_be (bytes : list Z) : Z :=
  foldl (fun acc b => Z.lor (Z.shiftl acc 8) b) 0 bytes.

(** [c.is_ascii_graphic()]. *)
Definition ascii_graphic (c : Z) : bool := (33 <=? c) && (c <=? 126).

(** Bytes as the characters they are. *)
Definition chars (bytes : list Z) : string :=
  String.string_of_list_ascii ((fun c => Ascii.ascii_of_N (Z.to_N c)) <$> bytes).

(** The [decode_text] several dissectors have: anything but printable ASCII is [?]. *)
Definition decode_text (bytes : list Z) : string :=
  chars ((fun b => if ascii_graphic b || (b =? 32) then b else 63) <$> bytes).

(** [reader...ok()]. *)
Definition ok_of {A E} (x : result A E) : option A := match x with Ok a => Some a | Error _ => None end.

Definition is_none {A} (o : option A) : bool := match o with Some _ => false | None => true end.

(** [slice[i]] of a slice known to be longer. *)
Definition at_ix (bytes : list Z) (i : nat) : Z := default 0 (bytes !! i).

(** [r.remaining()], for the readers that look at it. *)
Definition remaining {E} : reader E Z := fun r => (Ok (ByteReader.remaining r), r).

Lemma consumes_remaining {E} n : consumes (E:=E) n remaining (fun n' a => n' = n /\ 0 <= a).
Proof.
  intros r a r' [Hr1 Hr2] <-. unfold remaining, ByteReader.remaining, sat_sub, inside.
  intros; simplify_eq/=. split_and!; try done; lia.
Qed.

(** [if let Some(v) = o { fields.insert(name, v) }] inside a depth's block. *)
Definition when_some {A} (o : option A) (name : FieldName) (f : A -> Value) : list (FieldName * Value) :=
  match o with Some v => [(name, f v)] | None => [] end.

(** ** Walking through a header *)

(** Tests on what was read do not affect stability. *)
#[export] Hint Extern 2 (Stable (match ?x with _ => _ end)) => destruct x : typeclass_instances.

(** One read, test or return of a [consumes] goal. *)
Ltac consume_step :=
  lazymatch goal with
  | |- consumes _ (rret _) _ => apply consumes_ret
  | |- consumes _ (rfail _) _ => apply consumes_fail
  | |- consumes _ (rbind consumed _) _ =>
      eapply consumes_bind; [apply consumes_consumed|intros ? ? (-> & -> & ?); cbv beta]
  | |- consumes _ (rbind remaining _) _ =>
      eapply consumes_bind; [apply consumes_remaining|intros ? ? (-> & ?); cbv beta]
  | |- consumes _ (rbind (rret _) _) _ => apply consumes_bind_ret; cbv beta
  | |- consumes _ (rbind (rfail _) _) _ => intros ? ? ? _ _; done
  | |- consumes _ (rbind (rbind _ _) _) _ => apply consumes_assoc
  | |- consumes _ (rbind (match ?b with _ => _ end) _) _ => destruct b eqn:?
  | |- consumes _ (rbind (read_loop _ _ _) _) _ =>
      eapply consumes_bind; [apply consumes_walk; apply _|intros ? ? ?; cbv beta]
  | |- consumes _ (rbind (within _ _) _) _ =>
      eapply consumes_bind; [apply consumes_within|intros ? ? (-> & ?); cbv beta]
  | |- consumes _ (rbind (read_times _ _) _) _ =>
      first
        [ eapply consumes_bind;
            [eapply consumes_read_times; apply _|intros ? ? (-> & ?); cbv beta]
        | eapply consumes_bind; [apply consumes_here|intros ? ? ?; cbv beta in *] ]
  | |- consumes _ (rbind _ _) _ =>
      first
        [ eapply consumes_bind;
            [apply consumes_advances; apply _
            |let s := fresh "s" in intros ? ? (-> & ? & s & ? & ?); cbv beta]
        | eapply consumes_bind; [apply consumes_here|intros ? ? ?; cbv beta in *] ]
  | |- consumes _ (match ?b with _ => _ end) _ => destruct b eqn:?
  | |- consumes _ (let x := _ in _) _ => cbv zeta
  end.

(** The same for two runs; the tests do not look at the depth. *)
Ltac relate_step :=
  lazymatch goal with
  | |- related _ (rret _) (rret _) => apply related_ret
  | |- related _ (rfail _) (rfail _) => apply related_fail
  | |- related _ (rbind _ _) (rbind _ _) => apply related_bind; intros ?; cbv beta
  | |- related _ (match ?b with _ => _ end) _ => destruct b
  | |- related _ (let x := _ in _) _ => cbv zeta
  end.

(** A declared key field is among the fields. *)
Ltac field_there Hd :=
  first [ apply insert_at_hit;
            [exact Hd | solve [eauto using list_elem_of_here, list_elem_of_further]]
        | apply insert_at_keep; field_there Hd ].

(** Masked words are not negative. *)
Ltac masks_nonneg :=
  repeat match goal with
  | |- context [Z.land ?a (Zpos ?k)] =>
      lazymatch goal with
      | _ : 0 <= Z.land a (Zpos k) |- _ => fail
      | _ => assert (0 <= Z.land a (Zpos k)) by (apply Z.land_nonneg; right; lia)
      end
  end.

Ltac layer_owed :=
  masks_nonneg; reflect_bools; split_and!;
  [ cbn [pl_header_len]; first [lia | cbn; lia]
  | cbn [pl_header_len]; first [lia | cbn; lia]
  | cbn [pl_fields]; eauto 6 with pktflow
  | let Hd := fresh "Hd" in
    intros Hd ? [= <-];
    try (apply key_ready_endpoint; [reflexivity|]; cbn [pl_fields];
         repeat constructor; field_there Hd) ].

Ltac framing_same :=
  split_and!; cbn [pl_header_len pl_hint pl_fields];
  [ reflexivity
  | try (by intros ->); try done
  | let Hd := fresh "Hd" in intros Hd ?; repeat (apply (insert_at_mono _ _ _ _ _ _ _ _ Hd)); done ].

(** [Disciplined] of a header whose reads are all in sight once [unfold_it] is run. *)
Ltac discipline unfold_it :=
  apply disciplined_intro;
  [ intros ? ?; unfold_it; cbv zeta; apply _
  | intros ? ?; unfold_it; repeat consume_step; layer_owed
  | intros ? ? ? ? ?; unfold_it; repeat relate_step; framing_same ].

(** [Readable] of a header that also looks at how much is left. *)
Ltac readable unfold_it :=
  constructor;
  [ intros ? ? ?; unfold_it; repeat consume_step; layer_owed
  | intros ? ? ? ?; unfold_it; repeat relate_step; framing_same ].

(** [Progresses] of a round. *)
Ltac progress_round unfold_it :=
  intros ? ?; unfold_it; repeat consume_step; reflect_bools; lia.
