(* ===== verification/PlugLink.v ===== *)
(** * Link-layer dissectors

    Models [ethernet.rs], [vlan.rs], [arp.rs] and [mpls.rs] of
    [crates/pktflow-plugins/src].  In each module [header] is the body of
    [parse] over the reader and [plugin] the [LayerPlugin] instance. *)

From S2P Require Import Prelude Values Bytes Types Contract PlugKit.
Local Open Scope reader_scope.

Module Ethernet.

Definition SRC_MAC : FieldName := "src_mac".
Definition DST_MAC : FieldName := "dst_mac".
Definition ETHERTYPE : FieldName := "ethertype".

Definition MIN_ETHERTYPE : Z := 0x0600.

Definition KEY : list KeyField := [mkKeyField SRC_MAC (Some DST_MAC)].
Definition ROLLUPS : list RollupSpec := [mkRollupSpec ETHERTYPE RK_Accumulate].
Definition IDENTITY : StreamIdentity := {|
  key := KEY;
  canonicalize := EndpointSort;
  lifecycle := None;
  rollups := ROLLUPS |}.

Definition header (ctx : ParseCtx) : reader ParseError ParsedLayer :=
  let? dst := ByteReader.take 6 in
  let? src := ByteReader.take 6 in
  let? ethertype := ByteReader.u16_be in
  let fields := FieldMap.new in
  let fields := insert_at ctx DKeys
    [(SRC_MAC, Value_from_slice src); (DST_MAC, Value_from_slice dst)] fields in
  let fields := insert_at ctx DStructural [(ETHERTYPE, VU64 ethertype)] fields in
  let hint :=
    if MIN_ETHERTYPE <=? ethertype
    then Hint_Route (EtherType ethertype)
    else Hint_Route (Custom "eth_llc_frame" 0) in
  rret {| pl_header_len := 14; pl_fields := fields; pl_hint := hint |}.

Definition plugin : LayerPlugin := {|
  name := "ethernet";
  parse := fun bytes ctx => run_reader (header ctx) bytes;
  claims := [LinkType 1];
  expected_predecessors := [];
  has_probe := false;
  probe := fun _ _ => None;
  stream_identity := Some IDENTITY;
  condense := None |}.

#[export] Instance disciplined : Disciplined (Some IDENTITY) (fun _ => header).
Proof.
  apply disciplined_intro.
  - intros n c. unfold header. cbv zeta. apply _.
  - intros n c. unfold header. repeat consume_step. layer_owed.
  - intros n1 n2 c d1 d2. unfold header. repeat relate_step. framing_same.
Qed.

#[global] Instance conformant : Conformant plugin.
Proof. exact (dissector_conformant plugin (fun _ => header) (fun _ _ => eq_refl) disciplined). Qed.

End Ethernet.

Module Vlan.

Definition VLAN_ID : FieldName := "vlan_id".
Definition PCP : FieldName := "pcp".
Definition DEI : FieldName := "dei".
Definition ETHERTYPE : FieldName := "ethertype".

Definition header (ctx : ParseCtx) : reader ParseError ParsedLayer :=
  let? tci := ByteReader.u16_be in
  let? inner_ethertype := ByteReader.u16_be in
  let fields := FieldMap.new in
  let fields := insert_at ctx DKeys [(VLAN_ID, VU64 (Z.land tci 0x0FFF))] fields in
  let fields := insert_at ctx DStructural
    [(PCP, VU64 (Z.shiftr tci 13));
     (DEI, VBool (Z.land (Z.shiftr tci 12) 1 =? 1));
     (ETHERTYPE, VU64 inner_ethertype)] fields in
  rret {| pl_header_len := 4;
          pl_fields := fields;
          pl_hint := Hint_Route (EtherType inner_ethertype) |}.

Definition plugin : LayerPlugin := {|
  name := "vlan";
  parse := fun bytes ctx => run_reader (header ctx) bytes;
  claims := [EtherType 0x8100; EtherType 0x88A8];
  expected_predecessors := [];
  has_probe := false;
  probe := fun _ _ => None;
  stream_identity := None;
  condense := None |}.

#[export] Instance disciplined : Disciplined None (fun _ => header).
Proof.
  apply disciplined_intro.
  - intros n c. unfold header. cbv zeta. apply _.
  - intros n c. unfold header. repeat consume_step. layer_owed.
  - intros n1 n2 c d1 d2. unfold header. repeat relate_step. framing_same.
Qed.

#[global] Instance conformant : Conformant plugin.
Proof. exact (dissector_conformant plugin (fun _ => header) (fun _ _ => eq_refl) disciplined). Qed.

End Vlan.

Module Arp.

Definition OPCODE : FieldName := "opcode".
Definition SENDER_MAC : FieldName := "sender_mac".
Definition SENDER_IP : FieldName := "sender_ip".
Definition TARGET_MAC : FieldName := "target_mac".
Definition TARGET_IP : FieldName := "target_ip".

Definition header (ctx : ParseCtx) : reader ParseError ParsedLayer :=
  let? _htype := ByteReader.u16_be in
  let? _ptype := ByteReader.u16_be in
  let? hlen := ByteReader.u8 in
  let? plen := ByteReader.u8 in
  if (hlen =? 0) || (plen =? 0)
  then rfail (PE_Malformed "zero address length")
  else
  let? opcode := ByteReader.u16_be in
  let? sender_mac := ByteReader.take hlen in
  let? sender_ip := ByteReader.take plen in
  let? target_mac := ByteReader.take hlen in
  let? target_ip := ByteReader.take plen in
  let fields := FieldMap.new in
  let fields := insert_at ctx DStructural
    [(OPCODE, VU64 opcode);
     (SENDER_MAC, Value_from_slice sender_mac);
     (SENDER_IP, Value_from_slice sender_ip);
     (TARGET_MAC, Value_from_slice target_mac);
     (TARGET_IP, Value_from_slice target_ip)] fields in
  rret {| pl_header_len := 8 + 2 * (hlen + plen);
          pl_fields := fields;
          pl_hint := Hint_Terminal |}.

Definition plugin : LayerPlugin := {|
  name := "arp";
  parse := fun bytes ctx => run_reader (header ctx) bytes;
  claims := [EtherType 0x0806];
  expected_predecessors := [];
  has_probe := false;
  probe := fun _ _ => None;
  stream_identity := None;
  condense := None |}.

#[export] Instance disciplined : Disciplined None (fun _ => header).
Proof.
  apply disciplined_intro.
  - intros n c. unfold header. cbv zeta. apply _.
  - intros n c. unfold header. repeat consume_step. layer_owed.
  - intros n1 n2 c d1 d2. unfold header. repeat relate_step. framing_same.
Qed.

#[global] Instance conformant : Conformant plugin.
Proof. exact (dissector_conformant plugin (fun _ => header) (fun _ _ => eq_refl) disciplined). Qed.

End Arp.

Module Mpls.

Definition LABEL : FieldName := "label".
Definition TC : FieldName := "tc".
Definition TTL : FieldName := "ttl".
Definition STACK_DEPTH : FieldName := "stack_depth".
Definition LABELS : FieldName := "labels".

Definition MAX_LABELS : nat := 16.

Definition IPV4_EXPLICIT_NULL : Z := 0.
Definition IPV6_EXPLICIT_NULL : Z := 2.

Definition KEY : list KeyField := [mkKeyField LABEL None].
Definition IDENTITY : StreamIdentity := {|
  key := KEY;
  canonicalize := EndpointSort;
  lifecycle := None;
  rollups := [] |}.

(** The [top_*] locals. *)
Record Top := mkTop { top_label : Z; top_tc : Z; top_ttl : Z }.

(** The walk to the bottom of the stack; [room] is
    [MAX_LABELS - entries.len()]. *)
Fixpoint label_stack (room : nat) (entries : list Value) (top : Top)
    : reader ParseError (list Value * Top * Z) :=
  match room with
  | O => rfail (PE_Malformed "MPLS: label stack too deep")
  | S room =>
      let? entry := ByteReader.u32_be in
      let label := Z.shiftr entry 12 in
      let top := match entries with
                 | [] => mkTop label (Z.land (Z.shiftr entry 9) 0x7) (Z.land entry 0xFF)
                 | _ => top
                 end in
      let entries := entries ++ [VU64 label] in
      if Z.land entry 0x100 =? 0
      then label_stack room entries top
      else rret (entries, top, label)
  end.

Definition header (ctx : ParseCtx) : reader ParseError ParsedLayer :=
  let? (entries, top, bottom_label) := label_stack MAX_LABELS [] (mkTop 0 0 0) in
  let fields := FieldMap.new in
  let fields := insert_at ctx DKeys [(LABEL, VU64 (top_label top))] fields in
  let fields := insert_at ctx DStructural
    [(STACK_DEPTH, VU64 (blen entries)); (TC, VU64 (top_tc top)); (TTL, VU64 (top_ttl top))] fields in
  let header_len := 4 * blen entries in
  let fields := insert_at ctx DFull [(LABELS, VList entries)] fields in
  let hint :=
    if bottom_label =? IPV4_EXPLICIT_NULL then Hint_ByProtocol "ipv4"
    else if bottom_label =? IPV6_EXPLICIT_NULL then Hint_ByProtocol "ipv6"
    else Hint_Unknown in
  rret {| pl_header_len := header_len; pl_fields := fields; pl_hint := hint |}.

Definition plugin : LayerPlugin := {|
  name := "mpls";
  parse := fun bytes ctx => run_reader (header ctx) bytes;
  claims := [EtherType 0x8847; EtherType 0x8848];
  expected_predecessors := [];
  has_probe := false;
  probe := fun _ _ => None;
  stream_identity := Some IDENTITY;
  condense := None |}.

#[export] Instance stable_label_stack room entries top : Stable (label_stack room entries top).
Proof. revert entries top. induction room as [|room IH]; intros; cbn [label_stack]; apply _. Qed.

(** Four bytes per label. *)
Lemma label_stack_consumes room n entries top :
  consumes n (label_stack room entries top)
    (fun n' x => n' = n + 4 * (blen x.1.1 - blen entries) /\ blen entries <= blen x.1.1).
Proof.
  revert n entries top. induction room as [|room IH]; intros n entries top; cbn [label_stack].
  - consume_step.
  - repeat consume_step.
    + eapply consumes_impl; [apply IH|]. intros n' x. cbv beta.
      rewrite blen_app, blen_cons, blen_nil. lia.
    + cbn [fst]. rewrite blen_app, blen_cons, blen_nil. lia.
Qed.

#[export] Instance disciplined : Disciplined (Some IDENTITY) (fun _ => header).
Proof.
  apply disciplined_intro.
  - intros n c. unfold header. cbv zeta. apply _.
  - intros n c. unfold header.
    eapply consumes_bind; [apply label_stack_consumes|]. intros n' [[entries top] bottom] [-> _].
    pose proof (blen_nonneg entries). pose proof (@blen_nil Value) as Hnil. cbn [fst snd] in *.
    consume_step. layer_owed.
  - intros n1 n2 c d1 d2. unfold header. repeat relate_step. framing_same.
Qed.

#[global] Instance conformant : Conformant plugin.
Proof. exact (dissector_conformant plugin (fun _ => header) (fun _ _ => eq_refl) disciplined). Qed.

End Mpls.
