(* ===== verification/PlugScan.v ===== *)
(** * Reasoning about record walks and whole-buffer dissectors

    More of the machinery of [PlugKit.v]: loops that read records until a
    buffer is used up, and dissectors that look at the bytes as a slice rather
    than through one cursor.  For the latter the contract follows from facts
    about a core that finds the structure and does not see the depth. *)

From S2P Require Import Prelude Values Bytes Types Contract PlugKit.
Local Open Scope reader_scope.

(** ** [while r.remaining() >= n] *)

(** The loop goes on while [go] holds of what is left, or until its round
    breaks ([inr]). *)
Definition while_round {S} (go : Z -> bool) (round : S -> reader ParseError (S + S)) (s : S) :
    reader ParseError (S + S) :=
  let? left_over := remaining in
  if go left_over then round s else rret (inr s).

Definition while_more {S} (go : Z -> bool) (round : S -> reader ParseError (S + S)) : S -> reader ParseError S :=
  read_loop (PE_Malformed "unreachable") (while_round go round).

(** [while r.remaining() > 0]. *)
Abbreviation while_left := (while_more (Z.ltb 0)).

(** A loop whose rounds read never runs out of rounds. *)
#[export] Instance while_progresses {S} go (round : S -> reader ParseError (S + S)) :
  Progresses round -> Progresses (while_round go round).
Proof.
  intros Hr n s. unfold while_round. repeat consume_step; [apply progresses|lia].
Qed.

Lemma while_more_unfold {S} go (round : S -> reader ParseError (S + S)) `{!Progresses round} s r :
  inside r ->
  while_more go round s r =
  if go (ByteReader.remaining r)
  then rbind (round s) (fun x => match x with inl s' => while_more go round s' | inr s' => rret s' end) r
  else (Ok s, r).
Proof.
  intros Hr. unfold while_more. rewrite (progresses_unfold _ (while_round go round)) by exact Hr.
  unfold rbind at 1, while_round at 1, rbind at 1, remaining. simpl. by destruct (go _).
Qed.

#[export] Instance while_more_forward {S} go (round : S -> reader ParseError (S + S)) s :
  Progresses round -> Consumes (while_more go round s) (fun n n' _ => n <= n').
Proof. intros Hr n. unfold while_more. apply consumes_walk. apply _. Qed.

(** [while r.remaining() > 0 { ...? }] over a slice, every error fatal. *)
Definition walk_slice {S} (round : S -> reader ParseError (S + S)) (s : S) (bytes : list Z) : result S ParseError :=
  run_reader (while_left round s) bytes.

(** The same where every failed read is a [break]: [round] says what the locals
    are then, so it does not fail. *)
Definition walk_leniently {S} (round : S -> reader ParseError (S + S)) (s : S) (bytes : list Z) : S :=
  default s (ok_of (walk_slice round s bytes)).

(** [let Ok(a) = m else { break }] with the locals as they are. *)
Definition or_break {A S} (m : reader Truncated A) (s : S) (k : A -> reader ParseError (S + S)) :
    reader ParseError (S + S) :=
  fun r => match m r with
           | (Ok a, r') => k a r'
           | (Error _, r') => (Ok (inr s), r')
           end.

(** A failed read leaves the cursor where it was. *)
Class InPlace {E A} (m : reader E A) : Prop :=
  in_place : forall r e r', m r = (Error e, r') -> r' = r.

#[export] Instance in_place_take n : InPlace (ByteReader.take n).
Proof. intros r e r'. unfold ByteReader.take. repeat case_match; by intros; simplify_eq. Qed.

#[export] Instance in_place_array n : InPlace (ByteReader.array n).
Proof.
  intros r e r'. unfold ByteReader.array. destruct (ByteReader.take n r) as [[s|?] r1] eqn:Ht.
  - apply ByteReader.take_Ok_inv in Ht as [Hl _]. by rewrite (proj2 (Z.eqb_eq _ _) Hl).
  - intros; simplify_eq. by apply (in_place _ _ _ Ht).
Qed.

Lemma in_place_map {E A B} (m : reader E A) (f : A -> B) :
  InPlace m -> InPlace (rbind m (fun a => rret (f a))).
Proof.
  intros Hm r e r'. unfold rbind. destruct (m r) as [[a|?] r1] eqn:Hr; [done|].
  intros [= <- <-]. by apply (Hm _ _ _ Hr).
Qed.

#[export] Instance in_place_u8 : InPlace ByteReader.u8 := in_place_map _ _ _.
#[export] Instance in_place_u16_be : InPlace ByteReader.u16_be := in_place_map _ _ _.
#[export] Instance in_place_u32_be : InPlace ByteReader.u32_be := in_place_map _ _ _.

Lemma consumes_or_break {A S} n w (m : reader Truncated A) (s : S) k P (Q : Z -> S + S -> Prop)
    `{!Advances m w P, !InPlace m} :
  Q n (inr s) -> (forall a, 0 <= w -> consumes (n + w) (k a) Q) -> consumes n (or_break m s k) Q.
Proof.
  intros Hs Hk r x r' Hr Hn. unfold or_break. destruct (m r) as [[a|e] r1] eqn:Hm.
  - destruct (consumes_advances n w m P _ _ _ Hr Hn Hm) as (Hb & Hi & Hp & Hw & _).
    intros Hx. destruct (Hk a Hw _ _ _ Hi Hp Hx) as (? & ? & ?). split_and!; [congruence|done|done].
  - intros [= <- <-]. apply in_place in Hm as ->. rewrite Hn. done.
Qed.

(** [Progresses] of a round that breaks where a read fails. *)
Ltac break_step :=
  first [ consume_step
        | eapply consumes_or_break; [apply _|apply _|cbv beta iota; lia|intros ? ?; cbv beta] ].

Ltac lenient_round unfold_it := intros ? ?; unfold_it; repeat break_step; reflect_bools; lia.

(** ** A slice at a time *)

Definition result_bind {E A B} (m : result A E) (k : A -> result B E) : result B E :=
  match m with Ok a => k a | Error e => Error e end.

Notation "'let!' x ':=' m 'in' k" := (result_bind m (fun x => k))
  (at level 10, x pattern, m at level 100, k at level 200) : reader_scope.

Lemma result_bind_Ok {E A B} (m : result A E) (k : A -> result B E) b :
  result_bind m k = Ok b <-> exists a, m = Ok a /\ k a = Ok b.
Proof.
  destruct m as [a|e]; simpl; split; [by eauto|by intros (? & [= ->] & ?)|done|by intros (? & ? & ?)].
Qed.

Lemma Ok_inj {A E} (a b : A) : Ok (E:=E) a = Ok b -> a = b.
Proof. congruence. Qed.

Section Whole.
Context {X : Type} (p : LayerPlugin) (core : list Z -> ParseCtx -> result X ParseError).
Context (layer : ParseCtx -> X -> ParsedLayer) (id : option StreamIdentity).

(** What the structure [x] of [n] bytes owes at any depth. *)
Class Layered : Prop := {
  lay_parse : forall bytes c, parse p bytes c = result_bind (core bytes c) (fun x => Ok (layer c x));
  lay_depth : forall bytes c d, core bytes (with_depth c d) = core bytes c;
  lay_inside : forall bytes c x, core bytes c = Ok x -> 0 <= pl_header_len (layer c x) <= blen bytes;
  lay_owes : forall c x, FieldMap.ok (pl_fields (layer c x)) /\
    (depth_geb (ctx_depth c) DKeys = true -> forall i, id = Some i -> key_ready i (pl_fields (layer c x)));
  lay_same : forall c d1 d2 x, same_framing 0 0 d1 d2 (layer (with_depth c d1) x) (layer (with_depth c d2) x);
}.

Context `{!Layered}.

Lemma layered_inv bytes c l :
  parse p bytes c = Ok l -> exists x, core bytes c = Ok x /\ l = layer c x.
Proof. rewrite lay_parse, result_bind_Ok. intros (x & Hx & [= <-]). eauto. Qed.

Lemma layered_framed : Framed p.
Proof.
  constructor.
  - intros bytes c l (x & Hx & ->)%layered_inv. by apply lay_inside.
  - intros bytes c d1 d2 l (x & Hx & ->)%layered_inv. rewrite lay_depth in Hx.
    exists (layer (with_depth c d2) x). rewrite lay_parse, lay_depth, Hx.
    destruct (lay_same c d1 d2 x) as (? & ? & ?). split_and!; auto.
  - intros bytes c l (x & Hx & ->)%layered_inv. apply lay_owes.
Qed.

Lemma layered_keyed : stream_identity p = id -> Keyed p.
Proof. intros Hid bytes c l i (x & Hx & ->)%layered_inv Hd Hi. rewrite Hid in Hi. by apply lay_owes. Qed.

(** The length found in a prefix is the length found in the whole. *)
Lemma layered_declining :
  (forall b t c x, core b c = Ok x ->
     exists x', core (b ++ t) c = Ok x' /\ pl_header_len (layer c x') = pl_header_len (layer c x)) ->
  Declining p.
Proof.
  intros Hext bytes c l n (x & Hx & ->)%layered_inv Hn.
  destruct (parse p (take (Z.to_nat n) bytes) c) as [l'|e] eqn:Hl'; [exfalso|by eauto].
  apply layered_inv in Hl' as (x1 & Hx1 & ->).
  pose proof (lay_inside _ _ _ Hx1) as Hlen.
  destruct (Hext _ (drop (Z.to_nat n) bytes) _ _ Hx1) as (x2 & Hx2 & Heq). rewrite take_drop in Hx2.
  assert (x2 = x) as -> by congruence. unfold blen in Hlen. rewrite length_take in Hlen. lia.
Qed.
End Whole.
Arguments Layered {X} _ _ _ _.

(** [Layered] of a parse that is its core and its layer, the structure inside
    the bytes by [inside_it]. *)
Ltac layered unfold_it inside_it :=
  constructor;
  [ intros ? ?; reflexivity
  | intros ? ? ?; reflexivity
  | inside_it
  | intros ? ?; unfold_it; cbv zeta; split;
    [ cbn [pl_fields]; repeat case_match; eauto 8 with pktflow
    | let Hd := fresh "Hd" in
      intros Hd ? [= <-]; apply key_ready_endpoint; [reflexivity|]; cbn [pl_fields];
      repeat constructor; field_there Hd ]
  | intros ? ? ? ?; unfold_it; cbv zeta; framing_same ].

(** ** Conversions *)

(** [m.map_err(|_| e)?]. *)
Definition map_err {A} (m : reader Truncated A) (e : ParseError) : reader ParseError A :=
  fun r => match m r with
           | (Ok a, r') => (Ok a, r')
           | (Error _, r') => (Error e, r')
           end.

#[export] Instance advances_map_err {A} (m : reader Truncated A) e k P :
  Advances m k P -> Advances (map_err m e) k P.
Proof. intros Hm r a r'. unfold map_err. destruct (m r) as [[b|?] r1] eqn:Hr; [|done]. intros [= <- <-]. by apply Hm. Qed.

#[export] Instance stable_map_err {A} (m : reader Truncated A) e : Stable m -> Stable (map_err m e).
Proof.
  intros Hm b t p a r' Hp. unfold map_err. destruct (m (mkReader b p)) as [[c|?] r1] eqn:Hr; [|done].
  intros [= <- <-]. destruct (Hm _ t _ _ _ Hp Hr) as (-> & ? & ?). done.
Qed.

(** [x?] of a function that does not read. *)
Definition of_result {A} (x : result A ParseError) : reader ParseError A :=
  match x with Ok a => rret a | Error e => rfail e end.

#[export] Instance stable_of_result {A} (x : result A ParseError) : Stable (of_result x).
Proof. destruct x; apply _. Qed.

#[export] Instance of_result_still {A} (x : result A ParseError) :
  Consumes (of_result x) (fun n n' _ => n' = n).
Proof. intros n. destruct x; [by apply consumes_ret|apply consumes_fail]. Qed.

(** What a successful run consumed. *)
Lemma run_reader_consumes {A} (m : reader ParseError A) Q bytes a :
  consumes 0 m Q -> run_reader m bytes = Ok a -> exists n, 0 <= n <= blen bytes /\ Q n a.
Proof.
  intros Hm. unfold run_reader. destruct (m (ByteReader.new bytes)) as [x r'] eqn:Hr. simpl. intros ->.
  assert (inside (ByteReader.new bytes)) as Hi.
  { unfold inside. simpl. pose proof (blen_nonneg bytes). lia. }
  destruct (Hm _ _ _ Hi eq_refl Hr) as (Hb & Hi' & HQ). unfold inside in Hi'. rewrite Hb in Hi'. eauto.
Qed.

Lemma slice_from_more {A} (l t : list A) i :
  0 <= i <= blen l -> slice_from (l ++ t) i = slice_from l i ++ t.
Proof. unfold slice_from, blen. intros. by rewrite drop_app_le by lia. Qed.

Lemma byte_at_app (l t : list Z) i b : byte_at l i = Some b -> byte_at (l ++ t) i = Some b.
Proof. unfold byte_at. case_match; [|done]. apply lookup_app_l_Some. Qed.

Lemma byte_at_inside (l : list Z) i b : byte_at l i = Some b -> 0 <= i < blen l.
Proof. unfold byte_at, blen. case_match; [|done]. intros Hb%lookup_lt_Some. reflect_bools. lia. Qed.
