(* ===== verification/PlugNet.v ===== *)
(** * Network-layer dissectors

    Models [ipv4.rs], [ipv6.rs], [icmpv4.rs], [icmpv6.rs], [igmp.rs], [ndp.rs]
    and [mld.rs] of [crates/pktflow-plugins/src], the IP probes and the internet
    checksum among them.  The last two read what the ICMPv6 layer in front of
    them recorded: the message type and the rest of its header. *)

From S2P Require Import Prelude Values Bytes Types Contract PlugKit PlugScan.
Local Open Scope reader_scope.

(** [u16::from_be_bytes([*bytes.get(i)?, *bytes.get(i + 1)?])]. *)
Definition get_u16 (bytes : list Z) (i : Z) : option Z :=
  hi ← byte_at bytes i; lo ← byte_at bytes (i + 1); Some (be_value [hi; lo]).

Module Ipv4.

Definition SRC_ADDR : FieldName := "src_addr".
Definition DST_ADDR : FieldName := "dst_addr".
Definition PROTOCOL : FieldName := "protocol".
Definition TTL : FieldName := "ttl".
Definition TOTAL_LEN : FieldName := "total_len".
Definition FLAGS : FieldName := "flags".
Definition FRAG_OFFSET : FieldName := "frag_offset".
Definition IHL : FieldName := "ihl".
Definition DSCP : FieldName := "dscp".
Definition ECN : FieldName := "ecn".
Definition ID : FieldName := "id".
Definition CHECKSUM : FieldName := "checksum".
Definition OPTIONS : FieldName := "options".

Definition KEY : list KeyField := [mkKeyField SRC_ADDR (Some DST_ADDR)].
Definition ROLLUPS : list RollupSpec := [mkRollupSpec PROTOCOL RK_Accumulate].
Definition IDENTITY : StreamIdentity := {|
  key := KEY;
  canonicalize := EndpointSort;
  lifecycle := None;
  rollups := ROLLUPS |}.

(** The [chunks_exact(2)] loop and its odd remainder, on a [u32]. *)
Fixpoint sum_chunks (sum : Z) (header : list Z) : Z :=
  match header with
  | a :: b :: rest => sum_chunks (Z.land (sum + be_value [a; b]) u32_max) rest
  | [last] => Z.land (sum + be_value [last; 0]) u32_max
  | [] => sum
  end.

Definition fold_body (sum : Z) : ctl Z :=
  if 0xFFFF <? sum
  then Again (Z.land sum 0xFFFF + Z.shiftr sum 16)
  else Done sum.

(** [while sum > 0xFFFF]: a [u32] is folded in at most two rounds
    ([fold_carries_spec]). *)
Definition fold_carries (sum : Z) : Z := run_loop fold_body 3 sum.

Definition internet_checksum (header : list Z) : Z :=
  Z.land (Z.lnot (fold_carries (sum_chunks 0 header))) 0xFFFF.

Definition header (ctx : ParseCtx) : reader ParseError ParsedLayer :=
  let? ver_ihl := ByteReader.u8 in
  if negb (Z.shiftr ver_ihl 4 =? 4) then rfail (PE_Malformed "version nibble is not 4") else
  let ihl := Z.land ver_ihl 0x0F in
  if ihl <? 5 then rfail (PE_Malformed "IHL below 5") else
  let header_len := ihl * 4 in
  let? dscp_ecn := ByteReader.u8 in
  let? total_len := ByteReader.u16_be in
  let? id := ByteReader.u16_be in
  let? flags_frag := ByteReader.u16_be in
  let? ttl := ByteReader.u8 in
  let? protocol := ByteReader.u8 in
  let? checksum := ByteReader.u16_be in
  let? src := ByteReader.take 4 in
  let? dst := ByteReader.take 4 in
  let? options := ByteReader.take (header_len - 20) in
  let frag_offset := Z.land flags_frag 0x1FFF in
  let fields := FieldMap.new in
  let fields := insert_at ctx DKeys
    [(SRC_ADDR, Value_from_slice src); (DST_ADDR, Value_from_slice dst)] fields in
  let fields := insert_at ctx DStructural
    [(PROTOCOL, VU64 protocol); (TTL, VU64 ttl); (TOTAL_LEN, VU64 total_len);
     (FLAGS, VU64 (Z.shiftr flags_frag 13)); (FRAG_OFFSET, VU64 frag_offset);
     (IHL, VU64 ihl)] fields in
  let fields := insert_at ctx DFull
    ([(DSCP, VU64 (Z.shiftr dscp_ecn 2)); (ECN, VU64 (Z.land dscp_ecn 0x03));
      (ID, VU64 id); (CHECKSUM, VU64 checksum)] ++
     match options with [] => [] | _ => [(OPTIONS, Value_from_slice options)] end) fields in
  let hint :=
    if 0 <? frag_offset then Hint_Terminal else Hint_Route (IpProtocol protocol) in
  rret {| pl_header_len := header_len; pl_fields := fields; pl_hint := hint |}.

Definition probe (bytes : list Z) : option Z :=
  first ← head bytes;
  if negb (Z.shiftr first 4 =? 4) || (Z.land first 0x0F <? 5) then None else
  let header_len := Z.land first 0x0F * 4 in
  header ← slice bytes 0 header_len;
  total_len ← get_u16 bytes 2;
  if (blen bytes <? total_len) || (total_len <? header_len) then None else
  if internet_checksum header =? 0 then Some (Confidence_new 90) else None.

Definition plugin : LayerPlugin := {|
  name := "ipv4";
  parse := fun bytes ctx => run_reader (header ctx) bytes;
  claims := [EtherType 0x0800; IpProtocol 4];
  expected_predecessors := [];
  has_probe := true;
  Types.probe := fun bytes _ => probe bytes;
  stream_identity := Some IDENTITY;
  condense := None |}.

#[export] Instance disciplined : Disciplined (Some IDENTITY) (fun _ => header).
Proof.
  apply disciplined_intro.
  - intros n c. unfold header. cbv zeta. apply _.
  - intros n c. unfold header. repeat consume_step. layer_owed.
  - intros n1 n2 c d1 d2. unfold header. repeat relate_step. framing_same.
Qed.

#[global] Instance conformant : Conformant plugin.
Proof. exact (dissector_conformant plugin (fun _ => header) (fun _ _ => eq_refl) disciplined). Qed.

End Ipv4.

Module Ipv6.

Definition SRC_ADDR : FieldName := "src_addr".
Definition DST_ADDR : FieldName := "dst_addr".
Definition NEXT_HEADER : FieldName := "next_header".
Definition HOP_LIMIT : FieldName := "hop_limit".
Definition PAYLOAD_LEN : FieldName := "payload_len".
Definition TRAFFIC_CLASS : FieldName := "traffic_class".
Definition FLOW_LABEL : FieldName := "flow_label".

Definition MAX_EXT_HEADERS : nat := 8.

Definition KEY : list KeyField := [mkKeyField SRC_ADDR (Some DST_ADDR)].
Definition ROLLUPS : list RollupSpec := [mkRollupSpec NEXT_HEADER RK_Accumulate].
Definition IDENTITY : StreamIdentity := {|
  key := KEY;
  canonicalize := EndpointSort;
  lifecycle := None;
  rollups := ROLLUPS |}.

(** [matches!(next_header, 0 | 43 | 44 | 60)]. *)
Definition is_extension (next_header : Z) : bool :=
  (next_header =? 0) || (next_header =? 43) || (next_header =? 44) || (next_header =? 60).

(** The loop's mutable locals. *)
Record Walk := mkWalk { next_header : Z; header_len : Z; fragment_offset : Z }.

(** The [while] over the chain; [room] is [MAX_EXT_HEADERS - ext_count]. *)
Fixpoint extensions (room : nat) (w : Walk) : reader ParseError Walk :=
  if is_extension (next_header w) then
    match room with
    | O => rfail (PE_Malformed "extension header chain too long")
    | S room =>
        if next_header w =? 44 then
          let? inner_next := ByteReader.u8 in
          let? _reserved := ByteReader.u8 in
          let? offset_flags := ByteReader.u16_be in
          let? _identification := ByteReader.u32_be in
          extensions room (mkWalk inner_next (header_len w + 8) (Z.shiftr offset_flags 3))
        else
          let? inner_next := ByteReader.u8 in
          let? hdr_ext_len := ByteReader.u8 in
          let ext_len := (hdr_ext_len + 1) * 8 in
          let? _body := ByteReader.take (ext_len - 2) in
          extensions room (mkWalk inner_next (header_len w + ext_len) (fragment_offset w))
    end
  else rret w.

Definition header (ctx : ParseCtx) : reader ParseError ParsedLayer :=
  let? ver_tc_fl := ByteReader.u32_be in
  if negb (Z.shiftr ver_tc_fl 28 =? 6) then rfail (PE_Malformed "version nibble is not 6") else
  let? payload_len := ByteReader.u16_be in
  let? first_header := ByteReader.u8 in
  let? hop_limit := ByteReader.u8 in
  let? src := ByteReader.take 16 in
  let? dst := ByteReader.take 16 in
  let? w := extensions MAX_EXT_HEADERS (mkWalk first_header 40 0) in
  let fields := FieldMap.new in
  let fields := insert_at ctx DKeys
    [(SRC_ADDR, Value_from_slice src); (DST_ADDR, Value_from_slice dst)] fields in
  let fields := insert_at ctx DStructural
    [(NEXT_HEADER, VU64 (next_header w)); (HOP_LIMIT, VU64 hop_limit);
     (PAYLOAD_LEN, VU64 payload_len)] fields in
  let fields := insert_at ctx DFull
    [(TRAFFIC_CLASS, VU64 (Z.land (Z.shiftr ver_tc_fl 20) 0xFF));
     (FLOW_LABEL, VU64 (Z.land ver_tc_fl 0xFFFFF))] fields in
  let hint :=
    if 0 <? fragment_offset w then Hint_Terminal
    else Hint_Route (IpProtocol (next_header w)) in
  rret {| pl_header_len := header_len w; pl_fields := fields; pl_hint := hint |}.

Definition probe (bytes : list Z) : option Z :=
  first ← head bytes;
  if negb (Z.shiftr first 4 =? 6) || (blen bytes <? 40) then None else
  payload_len ← get_u16 bytes 4;
  if 40 + payload_len <=? blen bytes then Some (Confidence_new 75) else None.

Definition plugin : LayerPlugin := {|
  name := "ipv6";
  parse := fun bytes ctx => run_reader (header ctx) bytes;
  claims := [EtherType 0x86DD; IpProtocol 41];
  expected_predecessors := [];
  has_probe := true;
  Types.probe := fun bytes _ => probe bytes;
  stream_identity := Some IDENTITY;
  condense := None |}.

#[export] Instance stable_extensions room w : Stable (extensions room w).
Proof. revert w. induction room as [|room IH]; intros; cbn [extensions]; apply _. Qed.

(** The chain's length is what the walk consumed. *)
Lemma extensions_consumes room n w :
  consumes n (extensions room w)
    (fun n' w' => n' = n + (header_len w' - header_len w) /\ header_len w <= header_len w').
Proof.
  revert n w. induction room as [|room IH]; intros n w; cbn [extensions];
    repeat consume_step; try lia.
  all: eapply consumes_impl; [apply IH|]; intros n' w'; cbn [header_len]; lia.
Qed.

#[export] Instance disciplined : Disciplined (Some IDENTITY) (fun _ => header).
Proof.
  apply disciplined_intro.
  - intros n c. unfold header. cbv zeta. apply _.
  - intros n c. unfold header. do 20 try consume_step.
    eapply consumes_bind; [apply extensions_consumes|]. cbn [header_len].
    intros n' w [-> Hw]. consume_step. layer_owed.
  - intros n1 n2 c d1 d2. unfold header. repeat relate_step. framing_same.
Qed.

#[global] Instance conformant : Conformant plugin.
Proof. exact (dissector_conformant plugin (fun _ => header) (fun _ _ => eq_refl) disciplined). Qed.

End Ipv6.

Module Icmpv4.

Definition TYPE : FieldName := "type".
Definition CODE : FieldName := "code".
Definition REST_OF_HEADER : FieldName := "rest_of_header".

Definition header (ctx : ParseCtx) : reader ParseError ParsedLayer :=
  let? icmp_type := ByteReader.u8 in
  let? code := ByteReader.u8 in
  let? _checksum := ByteReader.u16_be in
  let? rest := ByteReader.take 4 in
  let fields := FieldMap.new in
  let fields := insert_at ctx DStructural [(TYPE, VU64 icmp_type); (CODE, VU64 code)] fields in
  let fields := insert_at ctx DFull [(REST_OF_HEADER, Value_from_slice rest)] fields in
  rret {| pl_header_len := 8; pl_fields := fields; pl_hint := Hint_Terminal |}.

Definition plugin : LayerPlugin := {|
  name := "icmpv4";
  parse := fun bytes ctx => run_reader (header ctx) bytes;
  claims := [IpProtocol 1];
  expected_predecessors := [];
  has_probe := false;
  probe := fun _ _ => None;
  stream_identity := None;
  condense := None |}.

#[export] Instance disciplined : Disciplined None (fun _ => header).
Proof.
  apply disciplined_intro.
  - intros n c. unfold header. cbv zeta. apply _.
  - intros n c. unfold header. repeat consume_step. layer_owed.
  - intros n1 n2 c d1 d2. unfold header. repeat relate_step. framing_same.
Qed.

#[global] Instance conformant : Conformant plugin.
Proof. exact (dissector_conformant plugin (fun _ => header) (fun _ _ => eq_refl) disciplined). Qed.

End Icmpv4.

Module Icmpv6.

Definition TYPE : FieldName := "type".
Definition CODE : FieldName := "code".
Definition REST_OF_HEADER : FieldName := "rest_of_header".

Definition ICMPV6_TYPE_SPACE : string := "icmpv6_type".

Definition MLD_QUERY : Z := 130.
Definition MLD_V1_REPORT : Z := 131.
Definition MLD_DONE : Z := 132.
Definition MLD_V2_REPORT : Z := 143.
Definition ROUTER_SOLICITATION : Z := 133.
Definition ROUTER_ADVERTISEMENT : Z := 134.
Definition NEIGHBOR_SOLICITATION : Z := 135.
Definition NEIGHBOR_ADVERTISEMENT : Z := 136.
Definition REDIRECT : Z := 137.

(** The types whose messages are protocols of their own; every other type
    terminates, the error and echo types the source lists among them. *)
Definition dispatched : list Z :=
  [ROUTER_SOLICITATION; ROUTER_ADVERTISEMENT; NEIGHBOR_SOLICITATION;
   NEIGHBOR_ADVERTISEMENT; REDIRECT; MLD_QUERY; MLD_V1_REPORT; MLD_DONE; MLD_V2_REPORT].

Definition header (ctx : ParseCtx) : reader ParseError ParsedLayer :=
  let? icmp_type := ByteReader.u8 in
  let? code := ByteReader.u8 in
  let? _checksum := ByteReader.u16_be in
  let? rest := ByteReader.take 4 in
  let fields := FieldMap.new in
  let fields := insert_at ctx DStructural
    [(TYPE, VU64 icmp_type); (CODE, VU64 code);
     (REST_OF_HEADER, Value_from_slice rest)] fields in
  let hint :=
    if bool_decide (icmp_type ∈ dispatched)
    then Hint_Route (Custom ICMPV6_TYPE_SPACE icmp_type)
    else Hint_Terminal in
  rret {| pl_header_len := 8; pl_fields := fields; pl_hint := hint |}.

Definition plugin : LayerPlugin := {|
  name := "icmpv6";
  parse := fun bytes ctx => run_reader (header ctx) bytes;
  claims := [IpProtocol 58];
  expected_predecessors := [];
  has_probe := false;
  probe := fun _ _ => None;
  stream_identity := None;
  condense := None |}.

#[export] Instance disciplined : Disciplined None (fun _ => header).
Proof.
  apply disciplined_intro.
  - intros n c. unfold header. cbv zeta. apply _.
  - intros n c. unfold header. repeat consume_step. layer_owed.
  - intros n1 n2 c d1 d2. unfold header. repeat relate_step. framing_same.
Qed.

#[global] Instance conformant : Conformant plugin.
Proof. exact (dissector_conformant plugin (fun _ => header) (fun _ _ => eq_refl) disciplined). Qed.

End Icmpv6.

Module Igmp.

Definition TYPE : FieldName := "type".
Definition MAX_RESP : FieldName := "max_resp".
Definition GROUP_ADDR : FieldName := "group_addr".

Definition header (ctx : ParseCtx) : reader ParseError ParsedLayer :=
  let? igmp_type := ByteReader.u8 in
  let? max_resp := ByteReader.u8 in
  let? _checksum := ByteReader.u16_be in
  let? group := ByteReader.take 4 in
  let fields := FieldMap.new in
  let fields := insert_at ctx DStructural
    [(TYPE, VU64 igmp_type); (MAX_RESP, VU64 max_resp);
     (GROUP_ADDR, Value_from_slice group)] fields in
  rret {| pl_header_len := 8; pl_fields := fields; pl_hint := Hint_Terminal |}.

Definition plugin : LayerPlugin := {|
  name := "igmp";
  parse := fun bytes ctx => run_reader (header ctx) bytes;
  claims := [IpProtocol 2];
  expected_predecessors := [];
  has_probe := false;
  probe := fun _ _ => None;
  stream_identity := None;
  condense := None |}.

#[export] Instance disciplined : Disciplined None (fun _ => header).
Proof.
  apply disciplined_intro.
  - intros n c. unfold header. cbv zeta. apply _.
  - intros n c. unfold header. repeat consume_step. layer_owed.
  - intros n1 n2 c d1 d2. unfold header. repeat relate_step. framing_same.
Qed.

#[global] Instance conformant : Conformant plugin.
Proof. exact (dissector_conformant plugin (fun _ => header) (fun _ _ => eq_refl) disciplined). Qed.

End Igmp.

Module Ndp.

Definition MSG_TYPE : FieldName := "msg_type".
Definition FLAGS : FieldName := "flags".
Definition TARGET_ADDRESS : FieldName := "target_address".
Definition SOURCE_LINK_ADDR : FieldName := "source_link_addr".
Definition TARGET_LINK_ADDR : FieldName := "target_link_addr".
Definition PREFIX_INFO : FieldName := "prefix_info".
Definition ROUTER_LIFETIME : FieldName := "router_lifetime".
Definition REACHABLE_TIME : FieldName := "reachable_time".
Definition RETRANS_TIMER : FieldName := "retrans_timer".
Definition OPT_SOURCE_LINK_ADDR : Z := 1.
Definition OPT_TARGET_LINK_ADDR : Z := 2.
Definition OPT_PREFIX_INFORMATION : Z := 3.

Definition icmpv6_rest (ctx : ParseCtx) : option (list Z) :=
  match ctx_field ctx "icmpv6" Icmpv6.REST_OF_HEADER with
  | Some (VBytes b) => if blen b =? 4 then Some b else None
  | _ => None
  end.

Definition icmpv6_msg_type (ctx : ParseCtx) : option Z :=
  match ctx_field ctx "icmpv6" Icmpv6.TYPE with
  | Some (VU64 t) => if t <? 256 then Some t else None
  | _ => None
  end.

(** The locals of the walk over the options. *)
Record Options := mkOptions {
  options_end : Z;
  source_link_addr : option Value;
  target_link_addr : option Value;
  prefix_info : option Value;
}.

Definition note_option (opt_type : Z) (value : list Z) (o : Options) : Options :=
  if (opt_type =? OPT_SOURCE_LINK_ADDR) && is_none (source_link_addr o) then
    mkOptions (options_end o) (Some (Value_from_slice value)) (target_link_addr o) (prefix_info o)
  else if (opt_type =? OPT_TARGET_LINK_ADDR) && is_none (target_link_addr o) then
    mkOptions (options_end o) (source_link_addr o) (Some (Value_from_slice value)) (prefix_info o)
  else if (opt_type =? OPT_PREFIX_INFORMATION) && is_none (prefix_info o) then
    mkOptions (options_end o) (source_link_addr o) (target_link_addr o) (Some (Value_from_slice value))
  else o.

Definition ended_at (n : Z) (o : Options) : Options :=
  mkOptions n (source_link_addr o) (target_link_addr o) (prefix_info o).

Definition option_round (o : Options) : reader ParseError (Options + Options) :=
  let? before := consumed in
  let? opt_type := ByteReader.u8 in
  let? opt_len := ByteReader.u8 in
  if (opt_type =? 0) && (opt_len =? 0) then rret (inr (ended_at before o)) else
  if opt_len =? 0 then rfail (PE_Malformed "NDP: option length is zero (RFC 4861 §4.6)") else
  let? value := ByteReader.take (opt_len * 8 - 2) in
  let? header_len := consumed in
  rret (E:=ParseError) (inl (ended_at header_len (note_option opt_type value o))).

(** The target address and the router advertisement's timers. *)
Definition read_fixed (msg_type : Z) : reader ParseError (option (list Z) * option (Z * Z)) :=
  let? target_address :=
    if existsb (Z.eqb msg_type)
         [Icmpv6.NEIGHBOR_SOLICITATION; Icmpv6.NEIGHBOR_ADVERTISEMENT; Icmpv6.REDIRECT]
    then let? a := ByteReader.take 16 in rret (Some a) else rret None in
  let? _ :=
    if msg_type =? Icmpv6.REDIRECT then let? _destination_address := ByteReader.take 16 in rret tt
    else rret tt in
  let? ra_timers :=
    if msg_type =? Icmpv6.ROUTER_ADVERTISEMENT
    then let? reachable := ByteReader.u32_be in
         let? retrans := ByteReader.u32_be in
         rret (Some (reachable, retrans))
    else rret None in
  rret (E:=ParseError) (target_address, ra_timers).

Definition flags_of (msg_type : Z) (rest : option (list Z)) : option Z :=
  if msg_type =? Icmpv6.ROUTER_ADVERTISEMENT then (fun w => at_ix w 1) <$> rest
  else if msg_type =? Icmpv6.NEIGHBOR_ADVERTISEMENT then (fun w => at_ix w 0) <$> rest
  else None.

Definition lifetime_of (msg_type : Z) (rest : option (list Z)) : option Z :=
  if msg_type =? Icmpv6.ROUTER_ADVERTISEMENT
  then (fun w => be_value [at_ix w 2; at_ix w 3]) <$> rest else None.

Definition subdivide (msg_type : Z) (ctx : ParseCtx) : reader ParseError ParsedLayer :=
  let? (target_address, ra_timers) := read_fixed msg_type in
  let? header_len := consumed in
  let? o := while_more (Z.leb 2) option_round (mkOptions header_len None None None) in
  let rest := icmpv6_rest ctx in
  let fields := FieldMap.new in
  let fields := insert_at ctx DStructural
    ([(MSG_TYPE, VU64 msg_type)] ++ when_some (flags_of msg_type rest) FLAGS VU64 ++
     when_some target_address TARGET_ADDRESS Value_from_slice) fields in
  let fields := insert_at ctx DFull
    (when_some (source_link_addr o) SOURCE_LINK_ADDR id ++
     when_some (target_link_addr o) TARGET_LINK_ADDR id ++
     when_some (prefix_info o) PREFIX_INFO id ++
     when_some (lifetime_of msg_type rest) ROUTER_LIFETIME VU64 ++
     when_some (fst <$> ra_timers) REACHABLE_TIME VU64 ++
     when_some (snd <$> ra_timers) RETRANS_TIMER VU64) fields in
  rret {| pl_header_len := options_end o; pl_fields := fields; pl_hint := Hint_Terminal |}.

Definition header (available : Z) (ctx : ParseCtx) : reader ParseError ParsedLayer :=
  match icmpv6_msg_type ctx with
  | None => rret {| pl_header_len := available; pl_fields := FieldMap.new; pl_hint := Hint_Terminal |}
  | Some msg_type => subdivide msg_type ctx
  end.

Definition plugin : LayerPlugin := {|
  name := "ndp";
  parse := fun bytes ctx => run_reader (header (blen bytes) ctx) bytes;
  claims := [Custom Icmpv6.ICMPV6_TYPE_SPACE Icmpv6.ROUTER_SOLICITATION; Custom Icmpv6.ICMPV6_TYPE_SPACE Icmpv6.ROUTER_ADVERTISEMENT; Custom Icmpv6.ICMPV6_TYPE_SPACE Icmpv6.NEIGHBOR_SOLICITATION; Custom Icmpv6.ICMPV6_TYPE_SPACE Icmpv6.NEIGHBOR_ADVERTISEMENT; Custom Icmpv6.ICMPV6_TYPE_SPACE Icmpv6.REDIRECT];
  expected_predecessors := [];
  has_probe := false;
  probe := fun _ _ => None;
  stream_identity := None;
  condense := None |}.

#[export] Instance option_progresses : Progresses option_round.
Proof. progress_round ltac:(unfold option_round). Qed.

(** The walk's end is inside what was read, and after the fixed part. *)
Lemma options_inside n o : 0 <= options_end o <= n ->
  consumes n (while_more (Z.leb 2) option_round o) (fun n' o' => 0 <= options_end o' <= n').
Proof.
  intros Ho. unfold while_more. apply (consumes_loop _ _ (fun m w => 0 <= options_end w <= m)); [|done].
  intros m w Hw. unfold while_round, option_round. repeat consume_step; cbn [options_end ended_at]; lia.
Qed.

#[export] Instance readable_header : Readable None header.
Proof.
  constructor.
  - intros n c Hn. unfold header. destruct (icmpv6_msg_type c); [|consume_step; layer_owed].
    unfold subdivide, read_fixed.
    repeat (lazymatch goal with |- consumes _ (rbind (while_more _ _ _) _) _ => fail | _ => consume_step end);
      (eapply consumes_bind; [apply options_inside; cbn; lia|];
       intros n' o Ho; cbv beta in *; consume_step; layer_owed).
  - intros n c d1 d2. unfold header. change (icmpv6_msg_type (with_depth c ?d)) with (icmpv6_msg_type c).
    destruct (icmpv6_msg_type c); [|relate_step; framing_same].
    unfold subdivide. change (icmpv6_rest (with_depth c ?d)) with (icmpv6_rest c).
    repeat relate_step; framing_same.
Qed.

#[global] Instance framed : Framed plugin.
Proof. exact (dissector_framed plugin header None (fun _ _ => eq_refl) readable_header). Qed.

#[global] Instance keyed : Keyed plugin.
Proof. exact (dissector_keyed plugin header None (fun _ _ => eq_refl) readable_header eq_refl). Qed.

(** The end of the bytes is the end of the options, so a router solicitation
    cut before its option is one. *)
Definition after_icmpv6 (icmp_type : Z) : ParseCtx :=
  mkCtx [mkLayer "icmpv6" 0 8 [(Icmpv6.TYPE, VU64 icmp_type); (Icmpv6.REST_OF_HEADER, VBytes [0; 0; 0; 0])]]
    DFull (mkMeta 0 64 64 1).

Example ndp_short_success :
  let option := [1; 1; 2; 0; 0; 0; 0; 1] in
  (exists l, parse plugin option (after_icmpv6 133) = Ok l /\ pl_header_len l = 8) /\
  (exists l, parse plugin [] (after_icmpv6 133) = Ok l /\ pl_header_len l = 0).
Proof. split; eexists; (split; [vm_compute; reflexivity|reflexivity]). Qed.

End Ndp.

Module Mld.

Definition MSG_TYPE : FieldName := "msg_type".
Definition MAX_RESP_DELAY : FieldName := "max_resp_delay".
Definition MULTICAST_ADDR : FieldName := "multicast_addr".
Definition NUM_SOURCES : FieldName := "num_sources".
Definition SOURCE_ADDRS : FieldName := "source_addrs".

Definition icmpv6_rest := Ndp.icmpv6_rest.
Definition icmpv6_msg_type := Ndp.icmpv6_msg_type.

(** The first record's address, source count and sources. *)
Definition Record0 : Type := list Z * Z * list Value.

Definition read_source : reader ParseError Value :=
  let? s := ByteReader.take 16 in rret (E:=ParseError) (Value_from_slice s).

Definition read_record : reader ParseError Record0 :=
  let? _record_type := ByteReader.u8 in
  let? aux_data_len := ByteReader.u8 in
  let? num_sources := ByteReader.u16_be in
  let? addr := ByteReader.take 16 in
  let? sources := read_times (Z.to_nat num_sources) read_source in
  let? _aux_data := ByteReader.take (aux_data_len * 4) in
  rret (E:=ParseError) (addr, num_sources, sources).

Definition read_records (m : Z) : reader ParseError (list Record0) := read_times (Z.to_nat m) read_record.

(** A version 2 report: the fields of its first record. *)
Definition read_report (m : Z) (ctx : ParseCtx) (fields : FieldMap.t) : reader ParseError ParsedLayer :=
  let? records := read_records m in
  let first := hd_error records in
  let? header_len := consumed in
  let fields := insert_at ctx DStructural
    (when_some (fst <$> (fst <$> first)) MULTICAST_ADDR Value_from_slice) fields in
  let fields := insert_at ctx DFull
    (when_some (snd <$> (fst <$> first)) NUM_SOURCES VU64 ++
     when_some (snd <$> first) SOURCE_ADDRS VList) fields in
  rret (E:=ParseError) {| pl_header_len := header_len; pl_fields := fields; pl_hint := Hint_Terminal |}.

(** Queries, version 1 reports and dones; a query may be extended. *)
Definition read_query (msg_type : Z) (ctx : ParseCtx) (fields : FieldMap.t) : reader ParseError ParsedLayer :=
  let? multicast_addr := ByteReader.take 16 in
  let? rem := remaining in
  let? _ :=
    if (msg_type =? Icmpv6.MLD_QUERY) && (4 <=? rem) then
      let? _resv_s_qrv := ByteReader.u8 in
      let? _qqic := ByteReader.u8 in
      let? n := ByteReader.u16_be in
      let? _sources := ByteReader.take (n * 16) in
      rret (E:=ParseError) tt
    else rret (E:=ParseError) tt in
  let? header_len := consumed in
  let max_resp_delay := (fun w => be_value [at_ix w 0; at_ix w 1]) <$> icmpv6_rest ctx in
  let fields := insert_at ctx DStructural
    (when_some max_resp_delay MAX_RESP_DELAY VU64 ++
     [(MULTICAST_ADDR, Value_from_slice multicast_addr)]) fields in
  rret (E:=ParseError) {| pl_header_len := header_len; pl_fields := fields; pl_hint := Hint_Terminal |}.

Definition header (available : Z) (ctx : ParseCtx) : reader ParseError ParsedLayer :=
  match icmpv6_msg_type ctx with
  | None => rret {| pl_header_len := available; pl_fields := FieldMap.new; pl_hint := Hint_Terminal |}
  | Some msg_type =>
      let fields := insert_at ctx DStructural [(MSG_TYPE, VU64 msg_type)] FieldMap.new in
      if msg_type =? Icmpv6.MLD_V2_REPORT then
        match icmpv6_rest ctx with
        | None => rret {| pl_header_len := available; pl_fields := fields; pl_hint := Hint_Terminal |}
        | Some word => read_report (be_value [at_ix word 2; at_ix word 3]) ctx fields
        end
      else read_query msg_type ctx fields
  end.

Definition plugin : LayerPlugin := {|
  name := "mld";
  parse := fun bytes ctx => run_reader (header (blen bytes) ctx) bytes;
  claims := [Custom Icmpv6.ICMPV6_TYPE_SPACE Icmpv6.MLD_QUERY; Custom Icmpv6.ICMPV6_TYPE_SPACE Icmpv6.MLD_V1_REPORT; Custom Icmpv6.ICMPV6_TYPE_SPACE Icmpv6.MLD_DONE; Custom Icmpv6.ICMPV6_TYPE_SPACE Icmpv6.MLD_V2_REPORT];
  expected_predecessors := [];
  has_probe := false;
  probe := fun _ _ => None;
  stream_identity := None;
  condense := None |}.

#[export] Instance source_forward : Consumes read_source (fun n n' _ => n <= n').
Proof. intros n. unfold read_source. repeat consume_step. lia. Qed.

#[export] Instance record_forward : Consumes read_record (fun n n' _ => n <= n').
Proof. intros n. unfold read_record. repeat consume_step. lia. Qed.

#[export] Instance readable_header : Readable None header.
Proof.
  constructor.
  - intros n c Hn. unfold header. destruct (icmpv6_msg_type c); [|consume_step; layer_owed]. cbv zeta.
    destruct (_ =? _); [destruct (icmpv6_rest c)|].
    + unfold read_report, read_records. repeat consume_step; layer_owed.
    + consume_step. layer_owed.
    + unfold read_query. repeat consume_step; layer_owed.
  - intros n c d1 d2. unfold header. change (icmpv6_msg_type (with_depth c ?d)) with (icmpv6_msg_type c).
    change (icmpv6_rest (with_depth c ?d)) with (icmpv6_rest c).
    destruct (icmpv6_msg_type c); [|relate_step; framing_same]. cbv zeta.
    destruct (_ =? _); [destruct (icmpv6_rest c)|].
    + unfold read_report. repeat relate_step; framing_same.
    + relate_step. framing_same.
    + unfold read_query. change (icmpv6_rest (with_depth c ?d)) with (icmpv6_rest c).
      repeat relate_step; framing_same.
Qed.

#[global] Instance framed : Framed plugin.
Proof. exact (dissector_framed plugin header None (fun _ _ => eq_refl) readable_header). Qed.

#[global] Instance keyed : Keyed plugin.
Proof. exact (dissector_keyed plugin header None (fun _ _ => eq_refl) readable_header eq_refl). Qed.

(** Cut inside the extension's first four bytes, a version 2 query is a
    version 1 query. *)
Example mld_short_success :
  let query := [255; 2; 0; 0; 0; 0; 0; 0; 0; 0; 0; 0; 0; 0; 0; 1;  2; 125; 0; 0] in
  (exists l, parse plugin query (Ndp.after_icmpv6 130) = Ok l /\ pl_header_len l = 20) /\
  (exists l, parse plugin (take 19 query) (Ndp.after_icmpv6 130) = Ok l /\ pl_header_len l = 16).
Proof. split; eexists; (split; [vm_compute; reflexivity|reflexivity]). Qed.

End Mld.
