(* ===== verification/PlugTransport.v ===== *)
(** * Transport dissectors

    Models [udp.rs] and [tcp.rs] of [crates/pktflow-plugins/src]: the headers,
    the TCP probe and the TCP session lifecycle. *)

From S2P Require Import Prelude Values Bytes Types Contract PlugKit.
From S2P Require Import PlugNet.
Local Open Scope reader_scope.

Module Udp.

Definition SRC_PORT : FieldName := "src_port".
Definition DST_PORT : FieldName := "dst_port".
Definition LENGTH : FieldName := "length".
Definition CHECKSUM : FieldName := "checksum".

Definition KEY : list KeyField := [mkKeyField SRC_PORT (Some DST_PORT)].
Definition ROLLUPS : list RollupSpec := [mkRollupSpec LENGTH RK_Sample].
Definition IDENTITY : StreamIdentity := {|
  key := KEY;
  canonicalize := EndpointSort;
  lifecycle := None;
  rollups := ROLLUPS |}.

Definition header (ctx : ParseCtx) : reader ParseError ParsedLayer :=
  let? src_port := ByteReader.u16_be in
  let? dst_port := ByteReader.u16_be in
  let? length := ByteReader.u16_be in
  let? checksum := ByteReader.u16_be in
  let fields := FieldMap.new in
  let fields := insert_at ctx DKeys
    [(SRC_PORT, VU64 src_port); (DST_PORT, VU64 dst_port)] fields in
  let fields := insert_at ctx DStructural [(LENGTH, VU64 length)] fields in
  let fields := insert_at ctx DFull [(CHECKSUM, VU64 checksum)] fields in
  rret {| pl_header_len := 8;
          pl_fields := fields;
          pl_hint := Hint_Candidates [UdpPort dst_port; UdpPort src_port] |}.

Definition CONDENSE : CondenseSpec := mkCondense (mkKeyField SRC_PORT (Some DST_PORT)).

Definition plugin : LayerPlugin := {|
  name := "udp";
  parse := fun bytes ctx => run_reader (header ctx) bytes;
  claims := [IpProtocol 17];
  expected_predecessors := [];
  has_probe := false;
  probe := fun _ _ => None;
  stream_identity := Some IDENTITY;
  condense := Some CONDENSE |}.

#[export] Instance disciplined : Disciplined (Some IDENTITY) (fun _ => header).
Proof.
  apply disciplined_intro.
  - intros n c. unfold header. cbv zeta. apply _.
  - intros n c. unfold header. repeat consume_step. layer_owed.
  - intros n1 n2 c d1 d2. unfold header. repeat relate_step. framing_same.
Qed.

#[global] Instance conformant : Conformant plugin.
Proof. exact (dissector_conformant plugin (fun _ => header) (fun _ _ => eq_refl) disciplined). Qed.

End Udp.

Module Tcp.

Definition SRC_PORT : FieldName := "src_port".
Definition DST_PORT : FieldName := "dst_port".
Definition FLAGS : FieldName := "flags".
Definition SEQ : FieldName := "seq".
Definition ACK : FieldName := "ack".
Definition WINDOW : FieldName := "window".
Definition DATA_OFFSET : FieldName := "data_offset".
Definition CHECKSUM : FieldName := "checksum".
Definition URGENT : FieldName := "urgent".
Definition OPTIONS : FieldName := "options".

Definition FIN : Z := 0x01.
Definition SYN : Z := 0x02.
Definition RST : Z := 0x04.
Definition ACK_F : Z := 0x10.

(** The arms of the lifecycle's [match state], in order. *)
Definition next_state (syn ack fin : bool) (state : StateName) : StateName :=
  if String.eqb state "new" && (syn && negb ack) then "syn_sent"
  else if String.eqb state "new" && negb syn then "established_midstream"
  else if String.eqb state "syn_sent" && (syn && ack) then "syn_received"
  else if String.eqb state "syn_received" && (ack && negb syn && negb fin) then "established"
  else if (String.eqb state "established" || String.eqb state "established_midstream") && fin
       then "closing"
  else if String.eqb state "closing" && (fin && ack) then "closed"
  else state.

Definition advance (fields : FieldMap.t) (state : StateName) (_dir : PacketDirection) : StateName :=
  match FieldMap.get FLAGS fields with
  | Some (VU64 flags) =>
      if flag flags RST then "reset"%string
      else next_state (flag flags SYN) (flag flags ACK_F) (flag flags FIN) state
  | _ => state
  end.

Definition KEY : list KeyField := [mkKeyField SRC_PORT (Some DST_PORT)].
Definition ROLLUPS : list RollupSpec :=
  [mkRollupSpec FLAGS RK_Accumulate; mkRollupSpec FLAGS (RK_Series 1024)].
Definition LIFECYCLE : LifecycleSpec := {|
  initial := "new";
  Types.advance := advance;
  closed_states := ["closed"; "reset"]%string |}.
Definition IDENTITY : StreamIdentity := {|
  key := KEY;
  canonicalize := EndpointSort;
  lifecycle := Some LIFECYCLE;
  rollups := ROLLUPS |}.

(** [available] is [bytes.len()], which decides the hint. *)
Definition header (available : Z) (ctx : ParseCtx) : reader ParseError ParsedLayer :=
  let? src_port := ByteReader.u16_be in
  let? dst_port := ByteReader.u16_be in
  let? seq := ByteReader.u32_be in
  let? ack := ByteReader.u32_be in
  let? offset_flags := ByteReader.u16_be in
  let data_offset := Z.shiftr offset_flags 12 in
  if data_offset <? 5 then rfail (PE_Malformed "data offset below 5") else
  let? window := ByteReader.u16_be in
  let? checksum := ByteReader.u16_be in
  let? urgent := ByteReader.u16_be in
  let header_len := data_offset * 4 in
  let? options := ByteReader.take (header_len - 20) in
  let fields := FieldMap.new in
  let fields := insert_at ctx DKeys
    [(SRC_PORT, VU64 src_port); (DST_PORT, VU64 dst_port)] fields in
  let fields := insert_at ctx DStructural
    [(FLAGS, VU64 (Z.land offset_flags 0x01FF)); (SEQ, VU64 seq); (ACK, VU64 ack);
     (WINDOW, VU64 window); (DATA_OFFSET, VU64 data_offset)] fields in
  let fields := insert_at ctx DFull
    ([(CHECKSUM, VU64 checksum); (URGENT, VU64 urgent)] ++
     match options with [] => [] | _ => [(OPTIONS, Value_from_slice options)] end) fields in
  let hint :=
    if available =? header_len then Hint_Terminal
    else Hint_Candidates [TcpPort dst_port; TcpPort src_port] in
  rret {| pl_header_len := header_len; pl_fields := fields; pl_hint := hint |}.

Definition probe (bytes : list Z) : option Z :=
  if blen bytes <? 20 then None else
  offset_flags ← get_u16 bytes 12;
  let data_offset := Z.shiftr offset_flags 12 in
  if negb ((5 <=? data_offset) && (data_offset <=? 15)) || (blen bytes <? data_offset * 4)
  then None else
  if flag offset_flags 0x0F00 then None else
  let f := Z.land offset_flags 0xFF in
  let syn := flag f SYN in
  let rst := flag f RST in
  let fin := flag f FIN in
  if (f =? 0) || (syn && fin) || (syn && rst) || (fin && rst) then None else
  urgent ← get_u16 bytes 18;
  if negb (urgent =? 0) && negb (flag f 0x20) then None else
  Some (Confidence_new 60).

Definition CONDENSE : CondenseSpec := mkCondense (mkKeyField SRC_PORT (Some DST_PORT)).

Definition plugin : LayerPlugin := {|
  name := "tcp";
  parse := fun bytes ctx => run_reader (header (blen bytes) ctx) bytes;
  claims := [IpProtocol 6];
  expected_predecessors := ["ipv4"; "ipv6"]%string;
  has_probe := true;
  Types.probe := fun bytes _ => probe bytes;
  stream_identity := Some IDENTITY;
  condense := Some CONDENSE |}.

#[export] Instance disciplined : Disciplined (Some IDENTITY) header.
Proof.
  apply disciplined_intro.
  - intros n c. unfold header. cbv zeta. apply _.
  - intros n c. unfold header. repeat consume_step. layer_owed.
  - intros n1 n2 c d1 d2. unfold header. repeat relate_step. framing_same.
Qed.

#[global] Instance conformant : Conformant plugin.
Proof. exact (dissector_conformant plugin header (fun _ _ => eq_refl) disciplined). Qed.

End Tcp.
