(* ===== verification/PlugTunnel.v ===== *)
(** * Tunnel dissectors

    Models [gre.rs], [vxlan.rs], [geneve.rs], [esp.rs], [ah.rs], [erspan.rs],
    [rocev2.rs] and [ppp.rs] of [crates/pktflow-plugins/src]. *)

From S2P Require Import Prelude Values Bytes Types Contract PlugKit.
Local Open Scope reader_scope.

Module Gre.

Definition KEY_FIELD : FieldName := "key".
Definition FLAGS : FieldName := "flags".
Definition PROTOCOL : FieldName := "protocol".
Definition VERSION : FieldName := "version".
Definition CHECKSUM : FieldName := "checksum".
Definition SEQUENCE : FieldName := "sequence".

Definition C_BIT : Z := 0x8000.
Definition K_BIT : Z := 0x2000.
Definition S_BIT : Z := 0x1000.

Definition KEY : list KeyField := [mkKeyField KEY_FIELD None].
Definition IDENTITY : StreamIdentity := {|
  key := KEY;
  canonicalize := EndpointSort;
  lifecycle := None;
  rollups := [] |}.

Definition header (ctx : ParseCtx) : reader ParseError ParsedLayer :=
  let? flags_version := ByteReader.u16_be in
  let version := Z.land flags_version 0x0007 in
  if negb (version =? 0) then rfail (PE_Malformed "GRE version is not 0") else
  let? protocol := ByteReader.u16_be in
  let? (checksum, header_len) :=
    if flag flags_version C_BIT then
      let? ck := ByteReader.u16_be in
      let? _reserved := ByteReader.u16_be in
      rret (Some ck, 8)
    else rret (None, 4) in
  let? (key, header_len) :=
    if flag flags_version K_BIT then
      let? key := ByteReader.u32_be in
      rret (key, header_len + 4)
    else rret (0, header_len) in
  let? (sequence, header_len) :=
    if flag flags_version S_BIT then
      let? sequence := ByteReader.u32_be in
      rret (Some sequence, header_len + 4)
    else rret (None, header_len) in
  let fields := FieldMap.new in
  let fields := insert_at ctx DKeys [(KEY_FIELD, VU64 key)] fields in
  let fields := insert_at ctx DStructural
    [(FLAGS, VU64 (Z.shiftr flags_version 12)); (PROTOCOL, VU64 protocol);
     (VERSION, VU64 version)] fields in
  let fields := insert_at ctx DFull
    (when_some checksum CHECKSUM VU64 ++ when_some sequence SEQUENCE VU64) fields in
  rret {| pl_header_len := header_len;
          pl_fields := fields;
          pl_hint := Hint_Route (EtherType protocol) |}.

Definition plugin : LayerPlugin := {|
  name := "gre";
  parse := fun bytes ctx => run_reader (header ctx) bytes;
  claims := [IpProtocol 47];
  expected_predecessors := [];
  has_probe := false;
  probe := fun _ _ => None;
  stream_identity := Some IDENTITY;
  condense := None |}.

#[export] Instance disciplined : Disciplined (Some IDENTITY) (fun _ => header).
Proof.
  apply disciplined_intro.
  - intros n c. unfold header. cbv zeta. apply _.
  - intros n c. unfold header. repeat consume_step. all: layer_owed.
  - intros n1 n2 c d1 d2. unfold header. repeat relate_step. framing_same.
Qed.

#[global] Instance conformant : Conformant plugin.
Proof. exact (dissector_conformant plugin (fun _ => header) (fun _ _ => eq_refl) disciplined). Qed.

End Gre.

Module Vxlan.

Definition VNI : FieldName := "vni".
Definition FLAGS : FieldName := "flags".

Definition I_BIT : Z := 0x08.

Definition KEY : list KeyField := [mkKeyField VNI None].
Definition IDENTITY : StreamIdentity := {|
  key := KEY;
  canonicalize := EndpointSort;
  lifecycle := None;
  rollups := [] |}.

Definition header (ctx : ParseCtx) : reader ParseError ParsedLayer :=
  let? flags := ByteReader.u8 in
  if Z.land flags I_BIT =? 0 then rfail (PE_Malformed "VXLAN I flag not set") else
  let? _reserved1 := ByteReader.take 3 in
  let? vni_bytes := ByteReader.take 3 in
  let? _reserved2 := ByteReader.u8 in
  let vni := fold_be vni_bytes in
  let fields := FieldMap.new in
  let fields := insert_at ctx DKeys [(VNI, VU64 vni)] fields in
  let fields := insert_at ctx DStructural [(FLAGS, VU64 flags)] fields in
  rret {| pl_header_len := 8;
          pl_fields := fields;
          pl_hint := Hint_ByProtocol "ethernet" |}.

Definition plugin : LayerPlugin := {|
  name := "vxlan";
  parse := fun bytes ctx => run_reader (header ctx) bytes;
  claims := [UdpPort 4789];
  expected_predecessors := [];
  has_probe := false;
  probe := fun _ _ => None;
  stream_identity := Some IDENTITY;
  condense := None |}.

#[export] Instance disciplined : Disciplined (Some IDENTITY) (fun _ => header).
Proof.
  apply disciplined_intro.
  - intros n c. unfold header. cbv zeta. apply _.
  - intros n c. unfold header. repeat consume_step. layer_owed.
  - intros n1 n2 c d1 d2. unfold header. repeat relate_step. framing_same.
Qed.

#[global] Instance conformant : Conformant plugin.
Proof. exact (dissector_conformant plugin (fun _ => header) (fun _ _ => eq_refl) disciplined). Qed.

End Vxlan.

Module Geneve.

Definition VNI : FieldName := "vni".
Definition VERSION : FieldName := "version".
Definition OPT_LEN : FieldName := "opt_len".
Definition O_BIT : FieldName := "o_bit".
Definition C_BIT : FieldName := "c_bit".
Definition PROTOCOL_TYPE : FieldName := "protocol_type".
Definition OPTIONS : FieldName := "options".

Definition SUPPORTED_VERSION : Z := 0.
Definition O_FLAG : Z := 0x80.
Definition C_FLAG : Z := 0x40.

Definition KEY : list KeyField := [mkKeyField VNI None].
Definition ROLLUPS : list RollupSpec := [mkRollupSpec PROTOCOL_TYPE RK_Accumulate].
Definition IDENTITY : StreamIdentity := {|
  key := KEY;
  canonicalize := EndpointSort;
  lifecycle := None;
  rollups := ROLLUPS |}.

Definition header (ctx : ParseCtx) : reader ParseError ParsedLayer :=
  let? ver_optlen := ByteReader.u8 in
  let version := Z.shiftr ver_optlen 6 in
  if negb (version =? SUPPORTED_VERSION) then rfail (PE_Malformed "Geneve version is not 0") else
  let opt_len := Z.land ver_optlen 0x3F in
  let? flags := ByteReader.u8 in
  let o_bit := flag flags O_FLAG in
  let c_bit := flag flags C_FLAG in
  let? protocol_type := ByteReader.u16_be in
  let? vni_bytes := ByteReader.take 3 in
  let vni := fold_be vni_bytes in
  let? _reserved := ByteReader.u8 in
  let? options := ByteReader.take (opt_len * 4) in
  let fields := FieldMap.new in
  let fields := insert_at ctx DKeys [(VNI, VU64 vni)] fields in
  let fields := insert_at ctx DStructural
    [(VERSION, VU64 version); (OPT_LEN, VU64 opt_len); (O_BIT, VBool o_bit);
     (C_BIT, VBool c_bit); (PROTOCOL_TYPE, VU64 protocol_type)] fields in
  let fields := insert_at ctx DFull [(OPTIONS, Value_from_slice options)] fields in
  rret {| pl_header_len := 8 + opt_len * 4;
          pl_fields := fields;
          pl_hint := Hint_Route (EtherType protocol_type) |}.

Definition plugin : LayerPlugin := {|
  name := "geneve";
  parse := fun bytes ctx => run_reader (header ctx) bytes;
  claims := [UdpPort 6081];
  expected_predecessors := [];
  has_probe := false;
  probe := fun _ _ => None;
  stream_identity := Some IDENTITY;
  condense := None |}.

#[export] Instance disciplined : Disciplined (Some IDENTITY) (fun _ => header).
Proof. discipline ltac:(unfold header). Qed.

#[global] Instance conformant : Conformant plugin.
Proof. exact (dissector_conformant plugin (fun _ => header) (fun _ _ => eq_refl) disciplined). Qed.

End Geneve.

Module Esp.

Definition SPI : FieldName := "spi".
Definition SEQUENCE : FieldName := "sequence".

Definition KEY : list KeyField := [mkKeyField SPI None].
Definition ROLLUPS : list RollupSpec := [mkRollupSpec SEQUENCE RK_Sample].
Definition IDENTITY : StreamIdentity := {|
  key := KEY;
  canonicalize := EndpointSort;
  lifecycle := None;
  rollups := ROLLUPS |}.

Definition header (ctx : ParseCtx) : reader ParseError ParsedLayer :=
  let? spi := ByteReader.u32_be in
  let? sequence := ByteReader.u32_be in
  let fields := FieldMap.new in
  let fields := insert_at ctx DKeys [(SPI, VU64 spi)] fields in
  let fields := insert_at ctx DStructural [(SEQUENCE, VU64 sequence)] fields in
  rret {| pl_header_len := 8; pl_fields := fields; pl_hint := Hint_Terminal |}.

Definition plugin : LayerPlugin := {|
  name := "esp";
  parse := fun bytes ctx => run_reader (header ctx) bytes;
  claims := [IpProtocol 50];
  expected_predecessors := [];
  has_probe := false;
  probe := fun _ _ => None;
  stream_identity := Some IDENTITY;
  condense := None |}.

#[export] Instance disciplined : Disciplined (Some IDENTITY) (fun _ => header).
Proof. discipline ltac:(unfold header). Qed.

#[global] Instance conformant : Conformant plugin.
Proof. exact (dissector_conformant plugin (fun _ => header) (fun _ _ => eq_refl) disciplined). Qed.

End Esp.

Module Ah.

Definition SPI : FieldName := "spi".
Definition NEXT_HEADER : FieldName := "next_header".
Definition PAYLOAD_LEN : FieldName := "payload_len".
Definition SEQUENCE : FieldName := "sequence".
Definition ICV : FieldName := "icv".

Definition FIXED_HEADER_LEN : Z := 12.

Definition KEY : list KeyField := [mkKeyField SPI None].
Definition ROLLUPS : list RollupSpec := [mkRollupSpec SEQUENCE RK_Sample; mkRollupSpec NEXT_HEADER RK_Accumulate].
Definition IDENTITY : StreamIdentity := {|
  key := KEY;
  canonicalize := EndpointSort;
  lifecycle := None;
  rollups := ROLLUPS |}.

Definition header (ctx : ParseCtx) : reader ParseError ParsedLayer :=
  let? next_header := ByteReader.u8 in
  let? payload_len := ByteReader.u8 in
  let? _reserved := ByteReader.u16_be in
  let? spi := ByteReader.u32_be in
  let? sequence := ByteReader.u32_be in
  let header_len := payload_len * 4 + 8 in
  if header_len <? FIXED_HEADER_LEN
  then rfail (PE_Malformed "AH payload length too small for the fixed header") else
  let icv_len := header_len - FIXED_HEADER_LEN in
  let? icv := ByteReader.take icv_len in
  let fields := FieldMap.new in
  let fields := insert_at ctx DKeys [(SPI, VU64 spi)] fields in
  let fields := insert_at ctx DStructural
    [(NEXT_HEADER, VU64 next_header); (PAYLOAD_LEN, VU64 payload_len);
     (SEQUENCE, VU64 sequence)] fields in
  let fields := insert_at ctx DFull [(ICV, Value_from_slice icv)] fields in
  rret {| pl_header_len := header_len;
          pl_fields := fields;
          pl_hint := Hint_Route (IpProtocol next_header) |}.

Definition plugin : LayerPlugin := {|
  name := "ah";
  parse := fun bytes ctx => run_reader (header ctx) bytes;
  claims := [IpProtocol 51];
  expected_predecessors := [];
  has_probe := false;
  probe := fun _ _ => None;
  stream_identity := Some IDENTITY;
  condense := None |}.

#[export] Instance disciplined : Disciplined (Some IDENTITY) (fun _ => header).
Proof. discipline ltac:(unfold header, FIXED_HEADER_LEN). Qed.

#[global] Instance conformant : Conformant plugin.
Proof. exact (dissector_conformant plugin (fun _ => header) (fun _ _ => eq_refl) disciplined). Qed.

End Ah.

Module Erspan.

Definition SESSION_ID : FieldName := "session_id".
Definition VERSION : FieldName := "version".
Definition VLAN : FieldName := "vlan".
Definition COS : FieldName := "cos".
Definition TRUNCATED : FieldName := "truncated".
Definition INDEX : FieldName := "index".
Definition TIMESTAMP : FieldName := "timestamp".
Definition SGT : FieldName := "sgt".
Definition FRAME_TYPE : FieldName := "frame_type".

Definition KEY : list KeyField := [mkKeyField SESSION_ID None].
Definition IDENTITY : StreamIdentity := {|
  key := KEY;
  canonicalize := EndpointSort;
  lifecycle := None;
  rollups := [] |}.

(** [finish] is what follows the [match version]. *)
Definition header (ctx : ParseCtx) : reader ParseError ParsedLayer :=
  let? ver_vlan := ByteReader.u16_be in
  let version := Z.shiftr ver_vlan 12 in
  let? word2 := ByteReader.u16_be in
  let session_id := Z.land word2 0x03FF in
  let cos := Z.shiftr word2 13 in
  let truncated := flag word2 0x0400 in
  let fields := FieldMap.new in
  let fields := insert_at ctx DKeys [(SESSION_ID, VU64 session_id)] fields in
  let fields := insert_at ctx DStructural
    [(VERSION, VU64 version); (VLAN, VU64 (Z.land ver_vlan 0x0FFF)); (COS, VU64 cos)] fields in
  let finish header_len hint fields :=
    rret {| pl_header_len := header_len;
            pl_fields := insert_at ctx DFull [(TRUNCATED, VBool truncated)] fields;
            pl_hint := hint |} in
  if version =? 1 then
    let? word := ByteReader.u32_be in
    let index := Z.land word 0x000FFFFF in
    let fields := insert_at ctx DFull [(INDEX, VU64 index)] fields in
    finish 8 (Hint_ByProtocol "ethernet") fields
  else if version =? 2 then
    let? timestamp := ByteReader.u32_be in
    let? sgt := ByteReader.u16_be in
    let? last := ByteReader.u16_be in
    let frame_type := Z.land (Z.shiftr last 10) 0x1F in
    let? len :=
      if flag last 0x0001 then
        let? _subheader := ByteReader.take 8 in
        rret 20
      else rret 12 in
    let fields := insert_at ctx DFull
      [(TIMESTAMP, VU64 timestamp); (SGT, VU64 sgt); (FRAME_TYPE, VU64 frame_type)] fields in
    let hint := if frame_type =? 0 then Hint_ByProtocol "ethernet" else Hint_Unknown in
    finish len hint fields
  else rfail (PE_Malformed "ERSPAN: unknown version").

Definition plugin : LayerPlugin := {|
  name := "erspan";
  parse := fun bytes ctx => run_reader (header ctx) bytes;
  claims := [EtherType 0x88BE; EtherType 0x22EB];
  expected_predecessors := [];
  has_probe := false;
  probe := fun _ _ => None;
  stream_identity := Some IDENTITY;
  condense := None |}.

#[export] Instance disciplined : Disciplined (Some IDENTITY) (fun _ => header).
Proof. discipline ltac:(unfold header). Qed.

#[global] Instance conformant : Conformant plugin.
Proof. exact (dissector_conformant plugin (fun _ => header) (fun _ _ => eq_refl) disciplined). Qed.

End Erspan.

Module Rocev2.

Definition DEST_QP : FieldName := "dest_qp".
Definition OPCODE : FieldName := "opcode".
Definition PKEY : FieldName := "pkey".
Definition PSN : FieldName := "psn".
Definition PAD_COUNT : FieldName := "pad_count".
Definition SOLICITED : FieldName := "solicited".
Definition MIG_REQ : FieldName := "mig_req".
Definition ACK_REQ : FieldName := "ack_req".

Definition TVER : Z := 0.

Definition KEY : list KeyField := [mkKeyField DEST_QP None].
Definition ROLLUPS : list RollupSpec := [mkRollupSpec OPCODE RK_Accumulate].
Definition IDENTITY : StreamIdentity := {|
  key := KEY;
  canonicalize := EndpointSort;
  lifecycle := None;
  rollups := ROLLUPS |}.

Definition header (ctx : ParseCtx) : reader ParseError ParsedLayer :=
  let? opcode := ByteReader.u8 in
  let? se_m_pad_tver := ByteReader.u8 in
  if negb (Z.land se_m_pad_tver 0x0F =? TVER)
  then rfail (PE_Malformed "RoCEv2: unknown transport version") else
  let? pkey := ByteReader.u16_be in
  let? _reserved := ByteReader.u8 in
  let? dest_qp := ByteReader.take 3 in
  let dest_qp := fold_be dest_qp in
  let? ack_reserved := ByteReader.u8 in
  let? psn := ByteReader.take 3 in
  let psn := fold_be psn in
  let fields := FieldMap.new in
  let fields := insert_at ctx DKeys [(DEST_QP, VU64 dest_qp)] fields in
  let fields := insert_at ctx DStructural [(OPCODE, VU64 opcode); (PKEY, VU64 pkey)] fields in
  let fields := insert_at ctx DFull
    [(PSN, VU64 psn);
     (PAD_COUNT, VU64 (Z.land (Z.shiftr se_m_pad_tver 4) 0x3));
     (SOLICITED, VBool (flag se_m_pad_tver 0x80));
     (MIG_REQ, VBool (flag se_m_pad_tver 0x40));
     (ACK_REQ, VBool (flag ack_reserved 0x80))] fields in
  rret {| pl_header_len := 12; pl_fields := fields; pl_hint := Hint_Terminal |}.

Definition plugin : LayerPlugin := {|
  name := "rocev2";
  parse := fun bytes ctx => run_reader (header ctx) bytes;
  claims := [UdpPort 4791];
  expected_predecessors := [];
  has_probe := false;
  probe := fun _ _ => None;
  stream_identity := Some IDENTITY;
  condense := None |}.

#[export] Instance disciplined : Disciplined (Some IDENTITY) (fun _ => header).
Proof. discipline ltac:(unfold header). Qed.

#[global] Instance conformant : Conformant plugin.
Proof. exact (dissector_conformant plugin (fun _ => header) (fun _ _ => eq_refl) disciplined). Qed.

End Rocev2.

Module Ppp.

Definition PROTOCOL : FieldName := "protocol".

Definition PROTOCOL_IPV4 : Z := 0x0021.
Definition PROTOCOL_IPV6 : Z := 0x0057.

Definition header (ctx : ParseCtx) : reader ParseError ParsedLayer :=
  let? first := ByteReader.u8 in
  let? protocol :=
    if Z.land first 0x01 =? 1 then rret first
    else
      let? second := ByteReader.u8 in
      rret (be_value [0; 0; first; second]) in
  let fields := FieldMap.new in
  let fields := insert_at ctx DStructural [(PROTOCOL, VU64 protocol)] fields in
  let hint :=
    if protocol =? PROTOCOL_IPV4 then Hint_Route (EtherType 0x0800)
    else if protocol =? PROTOCOL_IPV6 then Hint_Route (EtherType 0x86DD)
    else Hint_Terminal in
  let? header_len := consumed in
  rret {| pl_header_len := header_len; pl_fields := fields; pl_hint := hint |}.

Definition plugin : LayerPlugin := {|
  name := "ppp";
  parse := fun bytes ctx => run_reader (header ctx) bytes;
  claims := [];
  expected_predecessors := [];
  has_probe := false;
  probe := fun _ _ => None;
  stream_identity := None;
  condense := None |}.

#[export] Instance disciplined : Disciplined None (fun _ => header).
Proof. discipline ltac:(unfold header). Qed.

#[global] Instance conformant : Conformant plugin.
Proof. exact (dissector_conformant plugin (fun _ => header) (fun _ _ => eq_refl) disciplined). Qed.

End Ppp.
