(* ===== verification/PlugApp.v ===== *)
(** * Application and control-plane dissectors

    Models [ntp.rs], [dhcp.rs], [modbus.rs], [bfd.rs], [stp.rs] and
    [template.rs] of [crates/pktflow-plugins/src]. *)

From S2P Require Import Prelude Values Bytes Types Contract PlugKit.
Local Open Scope reader_scope.

Module Ntp.

Definition APP : FieldName := "app".
Definition VERSION : FieldName := "version".
Definition MODE : FieldName := "mode".
Definition STRATUM : FieldName := "stratum".
Definition REF_ID : FieldName := "ref_id".
Definition REF_TS : FieldName := "ref_ts".
Definition ORIG_TS : FieldName := "orig_ts".
Definition RECV_TS : FieldName := "recv_ts".
Definition XMIT_TS : FieldName := "xmit_ts".

Definition KEY : list KeyField := [mkKeyField APP None].
Definition ROLLUPS : list RollupSpec := [mkRollupSpec MODE RK_Accumulate; mkRollupSpec STRATUM RK_Sample].
Definition IDENTITY : StreamIdentity := {|
  key := KEY;
  canonicalize := EndpointSort;
  lifecycle := None;
  rollups := ROLLUPS |}.

Definition header (ctx : ParseCtx) : reader ParseError ParsedLayer :=
  let? li_vn_mode := ByteReader.u8 in
  let mode := Z.land li_vn_mode 0x07 in
  if mode =? 0 then rfail (PE_Malformed "reserved NTP mode 0") else
  let? stratum := ByteReader.u8 in
  let? _poll := ByteReader.u8 in
  let? _precision := ByteReader.u8 in
  let? _root_delay := ByteReader.u32_be in
  let? _root_dispersion := ByteReader.u32_be in
  let? ref_id := ByteReader.take 4 in
  let? ref_ts := ByteReader.u64_be in
  let? orig_ts := ByteReader.u64_be in
  let? recv_ts := ByteReader.u64_be in
  let? xmit_ts := ByteReader.u64_be in
  let fields := FieldMap.new in
  let fields := insert_at ctx DKeys [(APP, Value_from_str "ntp")] fields in
  let fields := insert_at ctx DStructural
    [(VERSION, VU64 (Z.land (Z.shiftr li_vn_mode 3) 0x07)); (MODE, VU64 mode);
     (STRATUM, VU64 stratum)] fields in
  let fields := insert_at ctx DFull
    [(REF_ID, Value_from_slice ref_id); (REF_TS, VU64 ref_ts); (ORIG_TS, VU64 orig_ts);
     (RECV_TS, VU64 recv_ts); (XMIT_TS, VU64 xmit_ts)] fields in
  rret {| pl_header_len := 48; pl_fields := fields; pl_hint := Hint_Terminal |}.

Definition plugin : LayerPlugin := {|
  name := "ntp";
  parse := fun bytes ctx => run_reader (header ctx) bytes;
  claims := [UdpPort 123];
  expected_predecessors := [];
  has_probe := false;
  probe := fun _ _ => None;
  stream_identity := Some IDENTITY;
  condense := None |}.

#[export] Instance disciplined : Disciplined (Some IDENTITY) (fun _ => header).
Proof. discipline ltac:(unfold header). Qed.

#[global] Instance conformant : Conformant plugin.
Proof. exact (dissector_conformant plugin (fun _ => header) (fun _ _ => eq_refl) disciplined). Qed.

End Ntp.

Module Dhcp.

Definition APP : FieldName := "app".
Definition OP : FieldName := "op".
Definition MSG_TYPE : FieldName := "msg_type".
Definition XID : FieldName := "xid".
Definition CLIENT_MAC : FieldName := "client_mac".
Definition REQUESTED_IP : FieldName := "requested_ip".
Definition SERVER_ID : FieldName := "server_id".
Definition HOSTNAME : FieldName := "hostname".

Definition MAGIC_COOKIE : Z := 0x63825363.

Definition KEY : list KeyField := [mkKeyField APP None].
Definition ROLLUPS : list RollupSpec := [mkRollupSpec MSG_TYPE (RK_Series 64); mkRollupSpec CLIENT_MAC RK_Accumulate].
Definition IDENTITY : StreamIdentity := {|
  key := KEY;
  canonicalize := EndpointSort;
  lifecycle := None;
  rollups := ROLLUPS |}.

(** The mutable locals of the options walk. *)
Record Options := mkOptions {
  taken : Z;
  msg_type : option Z;
  requested_ip : option Value;
  server_id : option Value;
  hostname : option Value;
}.

Definition no_options : Options := mkOptions 240 None None None None.

(** The printable rendering of option 12. *)
Definition host_text (data : list Z) : string :=
  chars ((fun c => if ascii_graphic c then c else 63) <$> data).

(** [match (code, len)] on an option's data. *)
Definition note_option (code len : Z) (data : list Z) (o : Options) : Options :=
  if (code =? 53) && (len =? 1) then
    mkOptions (taken o) (head data) (requested_ip o) (server_id o) (hostname o)
  else if (code =? 50) && (len =? 4) then
    mkOptions (taken o) (msg_type o) (Some (Value_from_slice data)) (server_id o) (hostname o)
  else if (code =? 54) && (len =? 4) then
    mkOptions (taken o) (msg_type o) (requested_ip o) (Some (Value_from_slice data)) (hostname o)
  else if code =? 12 then
    mkOptions (taken o) (msg_type o) (requested_ip o) (server_id o)
      (Some (Value_from_str (host_text data)))
  else o.

Definition take_more (n : Z) (o : Options) : Options :=
  mkOptions (taken o + n) (msg_type o) (requested_ip o) (server_id o) (hostname o).

(** One round: PAD, END or a code, length and data. *)
Definition option_round (o : Options) : reader ParseError (Options + Options) :=
  let? code := ByteReader.u8 in
  let o := take_more 1 o in
  if code =? 0 then rret (inl o)
  else if code =? 255 then rret (inr o)
  else
    let? len := ByteReader.u8 in
    let? data := ByteReader.take len in
    rret (inl (note_option code len data (take_more (1 + len) o))).

(** The read that ends a walk without END fails by itself. *)
Definition option_walk : Options -> reader ParseError Options :=
  read_loop (PE_Malformed "unreachable") option_round.

Definition header (ctx : ParseCtx) : reader ParseError ParsedLayer :=
  let? op := ByteReader.u8 in
  let? _htype := ByteReader.u8 in
  let? hlen := ByteReader.u8 in
  let? _hops := ByteReader.u8 in
  let? xid := ByteReader.u32_be in
  let? _secs_flags := ByteReader.u32_be in
  let? _ciaddr := ByteReader.take 4 in
  let? _yiaddr := ByteReader.take 4 in
  let? _siaddr := ByteReader.take 4 in
  let? _giaddr := ByteReader.take 4 in
  let? chaddr := ByteReader.take 16 in
  let? _sname := ByteReader.take 64 in
  let? _file := ByteReader.take 128 in
  let? cookie := ByteReader.u32_be in
  if negb (cookie =? MAGIC_COOKIE) then rfail (PE_Malformed "missing DHCP magic cookie") else
  let client_mac := default chaddr (slice chaddr 0 (Z.min hlen 16)) in
  let? o := option_walk no_options in
  let fields := FieldMap.new in
  let fields := insert_at ctx DKeys [(APP, Value_from_str "dhcp")] fields in
  let fields := insert_at ctx DStructural
    ([(OP, VU64 op)] ++ when_some (msg_type o) MSG_TYPE VU64 ++
     [(XID, VU64 xid); (CLIENT_MAC, Value_from_slice client_mac)]) fields in
  let fields := insert_at ctx DFull
    (when_some (requested_ip o) REQUESTED_IP id ++ when_some (server_id o) SERVER_ID id ++
     when_some (hostname o) HOSTNAME id) fields in
  rret {| pl_header_len := taken o; pl_fields := fields; pl_hint := Hint_Terminal |}.

Definition plugin : LayerPlugin := {|
  name := "dhcp";
  parse := fun bytes ctx => run_reader (header ctx) bytes;
  claims := [UdpPort 67; UdpPort 68];
  expected_predecessors := [];
  has_probe := false;
  probe := fun _ _ => None;
  stream_identity := Some IDENTITY;
  condense := None |}.

#[export] Instance stable_option_round o : Stable (option_round o).
Proof. unfold option_round. cbv zeta. apply _. Qed.

#[export] Instance stable_option_walk o : Stable (option_walk o).
Proof. apply stable_read_loop. apply _. Qed.

Lemma note_option_taken code len data o : taken (note_option code len data o) = taken o.
Proof. unfold note_option. by repeat case_match. Qed.

(** A round counts what it reads, and reads something. *)
Lemma option_round_consumes n o :
  consumes n (option_round o) (fun n' x =>
    n < n' /\ match x with inl o' | inr o' => taken o' - taken o = n' - n end).
Proof.
  unfold option_round. repeat consume_step; rewrite ?note_option_taken; simpl; lia.
Qed.

(** The walk's bound is only a device. *)
Lemma option_walk_unfold o r :
  inside r ->
  option_walk o r =
  rbind (option_round o) (fun x => match x with inl o' => option_walk o' | inr o' => rret o' end) r.
Proof.
  apply read_loop_unfold. intros n s. eapply consumes_impl; [apply option_round_consumes|].
  intros n' [o'|o'] [? ?]; done.
Qed.

Lemma option_walk_consumes n o :
  taken o = n -> consumes n (option_walk o) (fun n' o' => taken o' = n' /\ n <= n').
Proof.
  intros Hn. apply (consumes_loop _ _ (fun m s => taken s = m /\ n <= m)); [|lia].
  intros m s [Hm Hle]. eapply consumes_impl; [apply option_round_consumes|].
  intros m' [s'|s'] [? ?]; lia.
Qed.

#[export] Instance disciplined : Disciplined (Some IDENTITY) (fun _ => header).
Proof.
  apply disciplined_intro.
  - intros n c. unfold header. cbv zeta. apply _.
  - intros n c. unfold header. do 15 consume_step; [consume_step|]. cbv zeta.
    eapply consumes_bind; [by apply option_walk_consumes|]. intros n' o [Ho Hle].
    consume_step. layer_owed.
  - intros n1 n2 c d1 d2. unfold header. repeat relate_step. framing_same.
Qed.

#[global] Instance conformant : Conformant plugin.
Proof. exact (dissector_conformant plugin (fun _ => header) (fun _ _ => eq_refl) disciplined). Qed.

End Dhcp.

Module Modbus.

Definition UNIT_ID : FieldName := "unit_id".
Definition FUNCTION_CODE : FieldName := "function_code".
Definition IS_EXCEPTION : FieldName := "is_exception".
Definition EXCEPTION_CODE : FieldName := "exception_code".
Definition START_ADDRESS : FieldName := "start_address".
Definition QUANTITY : FieldName := "quantity".
Definition REGISTER_VALUE : FieldName := "register_value".
Definition COIL_VALUE : FieldName := "coil_value".

Definition PROTOCOL_ID : Z := 0.
Definition EXCEPTION_BIT : Z := 0x80.
Definition READ_REQUESTS : list Z := [0x01; 0x02; 0x03; 0x04].
Definition WRITE_SINGLE_COIL : Z := 0x05.
Definition WRITE_SINGLE_REGISTER : Z := 0x06.
Definition WRITE_MULTIPLE_COILS : Z := 0x0F.
Definition WRITE_MULTIPLE_REGISTERS : Z := 0x10.

Definition KEY : list KeyField := [mkKeyField UNIT_ID None].
Definition ROLLUPS : list RollupSpec := [mkRollupSpec FUNCTION_CODE RK_Accumulate].
Definition IDENTITY : StreamIdentity := {|
  key := KEY;
  canonicalize := EndpointSort;
  lifecycle := None;
  rollups := ROLLUPS |}.

(** The optional locals the PDU's shape fills in. *)
Record Pdu := mkPdu {
  exception_code : option Z;
  start_address : option Z;
  quantity : option Z;
  register_value : option Z;
  coil_value : option Z;
}.

Definition pdu (function_code data_len : Z) : reader ParseError Pdu :=
  if flag function_code EXCEPTION_BIT then
    if negb (data_len =? 1)
    then rfail (PE_Malformed "exception PDU must carry exactly one data byte")
    else
      let? code := ByteReader.u8 in
      rret (mkPdu (Some code) None None None None)
  else if bool_decide (function_code ∈ READ_REQUESTS) && (data_len =? 4) then
    let? start := ByteReader.u16_be in
    let? quantity := ByteReader.u16_be in
    rret (mkPdu None (Some start) (Some quantity) None None)
  else if (function_code =? WRITE_SINGLE_COIL) && (data_len =? 4) then
    let? start := ByteReader.u16_be in
    let? coil := ByteReader.u16_be in
    rret (mkPdu None (Some start) None None (Some coil))
  else if (function_code =? WRITE_SINGLE_REGISTER) && (data_len =? 4) then
    let? start := ByteReader.u16_be in
    let? register := ByteReader.u16_be in
    rret (mkPdu None (Some start) None (Some register) None)
  else if ((function_code =? WRITE_MULTIPLE_COILS) || (function_code =? WRITE_MULTIPLE_REGISTERS))
          && (5 <=? data_len) then
    let? start := ByteReader.u16_be in
    let? quantity := ByteReader.u16_be in
    let? _byte_count := ByteReader.u8 in
    let? _values := ByteReader.take (data_len - 5) in
    rret (mkPdu None (Some start) (Some quantity) None None)
  else
    let? _opaque := ByteReader.take data_len in
    rret (mkPdu None None None None None).

Definition header (ctx : ParseCtx) : reader ParseError ParsedLayer :=
  let? _transaction_id := ByteReader.u16_be in
  let? protocol_id := ByteReader.u16_be in
  if negb (protocol_id =? PROTOCOL_ID) then rfail (PE_Malformed "non-zero Modbus protocol id") else
  let? length := ByteReader.u16_be in
  if length <? 2
  then rfail (PE_Malformed "MBAP length too short for unit id + function code") else
  let? unit_id := ByteReader.u8 in
  let? function_code := ByteReader.u8 in
  let is_exception := flag function_code EXCEPTION_BIT in
  let data_len := length - 2 in
  let? p := pdu function_code data_len in
  let fields := FieldMap.new in
  let fields := insert_at ctx DKeys [(UNIT_ID, VU64 unit_id)] fields in
  let fields := insert_at ctx DStructural
    ([(FUNCTION_CODE, VU64 function_code); (IS_EXCEPTION, VBool is_exception)] ++
     when_some (exception_code p) EXCEPTION_CODE VU64) fields in
  let fields := insert_at ctx DFull
    (when_some (start_address p) START_ADDRESS VU64 ++ when_some (quantity p) QUANTITY VU64 ++
     when_some (register_value p) REGISTER_VALUE VU64 ++
     when_some (coil_value p) COIL_VALUE VU64) fields in
  let? header_len := consumed in
  rret {| pl_header_len := header_len; pl_fields := fields; pl_hint := Hint_Terminal |}.

Definition plugin : LayerPlugin := {|
  name := "modbus";
  parse := fun bytes ctx => run_reader (header ctx) bytes;
  claims := [TcpPort 502];
  expected_predecessors := [];
  has_probe := false;
  probe := fun _ _ => None;
  stream_identity := Some IDENTITY;
  condense := None |}.

#[export] Instance disciplined : Disciplined (Some IDENTITY) (fun _ => header).
Proof.
  apply disciplined_intro.
  - intros n c. unfold header, pdu. cbv zeta. apply _.
  - intros n c. unfold header, pdu. repeat consume_step. all: layer_owed.
  - intros n1 n2 c d1 d2. unfold header. repeat relate_step. all: framing_same.
Qed.

#[global] Instance conformant : Conformant plugin.
Proof. exact (dissector_conformant plugin (fun _ => header) (fun _ _ => eq_refl) disciplined). Qed.

End Modbus.

Module Bfd.

Definition MY_DISCRIMINATOR : FieldName := "my_discriminator".
Definition YOUR_DISCRIMINATOR : FieldName := "your_discriminator".
Definition VERSION : FieldName := "version".
Definition DIAG : FieldName := "diag".
Definition STATE : FieldName := "state".
Definition FLAGS : FieldName := "flags".
Definition DETECT_MULT : FieldName := "detect_mult".
Definition LENGTH : FieldName := "length".
Definition DESIRED_MIN_TX : FieldName := "desired_min_tx".
Definition REQUIRED_MIN_RX : FieldName := "required_min_rx".
Definition REQUIRED_MIN_ECHO_RX : FieldName := "required_min_echo_rx".

Definition MANDATORY_LEN : Z := 24.
Definition A_BIT : Z := 0x04.

Definition KEY : list KeyField := [mkKeyField MY_DISCRIMINATOR (Some YOUR_DISCRIMINATOR)].
Definition ROLLUPS : list RollupSpec := [mkRollupSpec STATE RK_Accumulate].
Definition IDENTITY : StreamIdentity := {|
  key := KEY;
  canonicalize := EndpointSort;
  lifecycle := None;
  rollups := ROLLUPS |}.

Definition header (ctx : ParseCtx) : reader ParseError ParsedLayer :=
  let? vers_diag := ByteReader.u8 in
  let version := Z.shiftr vers_diag 5 in
  if negb (version =? 1) then rfail (PE_Malformed "BFD: version is not 1") else
  let? state_flags := ByteReader.u8 in
  let flags := Z.land state_flags 0x3F in
  let? detect_mult := ByteReader.u8 in
  if detect_mult =? 0 then rfail (PE_Malformed "BFD: Detect Mult is zero") else
  let? length := ByteReader.u8 in
  let min_len := if flag flags A_BIT then MANDATORY_LEN + 2 else MANDATORY_LEN in
  if length <? min_len then rfail (PE_Malformed "BFD: length below mandatory section") else
  let? my_discriminator := ByteReader.u32_be in
  if my_discriminator =? 0 then rfail (PE_Malformed "BFD: My Discriminator is zero") else
  let? your_discriminator := ByteReader.u32_be in
  let? desired_min_tx := ByteReader.u32_be in
  let? required_min_rx := ByteReader.u32_be in
  let? required_min_echo_rx := ByteReader.u32_be in
  let? _auth := ByteReader.take (length - MANDATORY_LEN) in
  let fields := FieldMap.new in
  let fields := insert_at ctx DKeys
    [(MY_DISCRIMINATOR, VU64 my_discriminator); (YOUR_DISCRIMINATOR, VU64 your_discriminator)] fields in
  let fields := insert_at ctx DStructural
    [(VERSION, VU64 version); (DIAG, VU64 (Z.land vers_diag 0x1F));
     (STATE, VU64 (Z.shiftr state_flags 6)); (FLAGS, VU64 flags);
     (DETECT_MULT, VU64 detect_mult); (LENGTH, VU64 length)] fields in
  let fields := insert_at ctx DFull
    [(DESIRED_MIN_TX, VU64 desired_min_tx); (REQUIRED_MIN_RX, VU64 required_min_rx);
     (REQUIRED_MIN_ECHO_RX, VU64 required_min_echo_rx)] fields in
  rret {| pl_header_len := length; pl_fields := fields; pl_hint := Hint_Terminal |}.

Definition plugin : LayerPlugin := {|
  name := "bfd";
  parse := fun bytes ctx => run_reader (header ctx) bytes;
  claims := [UdpPort 3784; UdpPort 4784];
  expected_predecessors := [];
  has_probe := false;
  probe := fun _ _ => None;
  stream_identity := Some IDENTITY;
  condense := None |}.

#[export] Instance disciplined : Disciplined (Some IDENTITY) (fun _ => header).
Proof. discipline ltac:(unfold header, MANDATORY_LEN). Qed.

#[global] Instance conformant : Conformant plugin.
Proof. exact (dissector_conformant plugin (fun _ => header) (fun _ _ => eq_refl) disciplined). Qed.

End Bfd.

Module Stp.

Definition PROTOCOL_ID : FieldName := "protocol_id".
Definition VERSION : FieldName := "version".
Definition BPDU_TYPE : FieldName := "bpdu_type".
Definition FLAGS : FieldName := "flags".
Definition ROOT_ID : FieldName := "root_id".
Definition ROOT_PATH_COST : FieldName := "root_path_cost".
Definition BRIDGE_ID : FieldName := "bridge_id".
Definition PORT_ID : FieldName := "port_id".
Definition MESSAGE_AGE : FieldName := "message_age".
Definition MAX_AGE : FieldName := "max_age".
Definition HELLO_TIME : FieldName := "hello_time".
Definition FORWARD_DELAY : FieldName := "forward_delay".

Definition TCN_BPDU_TYPE : Z := 0x80.

Record ConfigFields := mkConfig {
  flags : Z;
  root_id : list Z;
  root_path_cost : Z;
  bridge_id : list Z;
  port_id : Z;
  message_age : Z;
  max_age : Z;
  hello_time : Z;
  forward_delay : Z;
}.

Record Bpdu := mkBpdu {
  protocol_id : Z;
  version : Z;
  bpdu_type : Z;
  config : option ConfigFields;
}.

Definition config_fields (version : Z) : reader ParseError ConfigFields :=
  let? flags := ByteReader.u8 in
  let? root_id := ByteReader.take 8 in
  let? root_path_cost := ByteReader.u32_be in
  let? bridge_id := ByteReader.take 8 in
  let? port_id := ByteReader.u16_be in
  let? message_age := ByteReader.u16_be in
  let? max_age := ByteReader.u16_be in
  let? hello_time := ByteReader.u16_be in
  let? forward_delay := ByteReader.u16_be in
  let? _version_1_length := if 2 <=? version then ByteReader.u8 else rret 0 in
  rret (mkConfig flags root_id root_path_cost bridge_id port_id message_age max_age
          hello_time forward_delay).

Definition parse_bpdu : reader ParseError (Bpdu * Z) :=
  let? protocol_id := ByteReader.u16_be in
  if negb (protocol_id =? 0x0000)
  then rfail (PE_Malformed "STP: unrecognized protocol identifier") else
  let? version := ByteReader.u8 in
  let? bpdu_type := ByteReader.u8 in
  let? config :=
    if negb (bpdu_type =? TCN_BPDU_TYPE)
    then let? c := config_fields version in rret (E:=ParseError) (Some c)
    else rret None in
  let? used := consumed in
  rret (mkBpdu protocol_id version bpdu_type config, used).

Definition structural_fields (c : ConfigFields) : list (FieldName * Value) :=
  [(FLAGS, VU64 (flags c)); (ROOT_ID, Value_from_slice (root_id c));
   (BRIDGE_ID, Value_from_slice (bridge_id c))].

Definition full_fields (c : ConfigFields) : list (FieldName * Value) :=
  [(ROOT_PATH_COST, VU64 (root_path_cost c)); (PORT_ID, VU64 (port_id c));
   (MESSAGE_AGE, VU64 (message_age c)); (MAX_AGE, VU64 (max_age c));
   (HELLO_TIME, VU64 (hello_time c)); (FORWARD_DELAY, VU64 (forward_delay c))].

Definition insert_bpdu_fields (ctx : ParseCtx) (bpdu : Bpdu) (fields : FieldMap.t) : FieldMap.t :=
  let fields := insert_at ctx DStructural
    ([(PROTOCOL_ID, VU64 (protocol_id bpdu)); (VERSION, VU64 (version bpdu));
      (BPDU_TYPE, VU64 (bpdu_type bpdu))] ++
     from_option structural_fields [] (config bpdu)) fields in
  insert_at ctx DFull (from_option full_fields [] (config bpdu)) fields.

Definition header (ctx : ParseCtx) : reader ParseError ParsedLayer :=
  let? (bpdu, used) := parse_bpdu in
  let fields := insert_bpdu_fields ctx bpdu FieldMap.new in
  rret {| pl_header_len := used; pl_fields := fields; pl_hint := Hint_Terminal |}.

Definition plugin : LayerPlugin := {|
  name := "stp";
  parse := fun bytes ctx => run_reader (header ctx) bytes;
  claims := [Custom "llc_dsap" 0x42];
  expected_predecessors := [];
  has_probe := false;
  probe := fun _ _ => None;
  stream_identity := None;
  condense := None |}.

#[export] Instance disciplined : Disciplined None (fun _ => header).
Proof.
  apply disciplined_intro.
  - intros n c. unfold header, parse_bpdu, config_fields. cbv zeta. apply _.
  - intros n c. unfold header, parse_bpdu, config_fields, insert_bpdu_fields. repeat consume_step. all: layer_owed.
  - intros n1 n2 c d1 d2. unfold header, parse_bpdu, config_fields, insert_bpdu_fields. repeat relate_step. all: framing_same.
Qed.

#[global] Instance conformant : Conformant plugin.
Proof. exact (dissector_conformant plugin (fun _ => header) (fun _ _ => eq_refl) disciplined). Qed.

End Stp.

Module Template.

Definition SRC : FieldName := "src".
Definition DST : FieldName := "dst".
Definition TYPE : FieldName := "type".
Definition LEN : FieldName := "len".

Definition KEY : list KeyField := [mkKeyField SRC (Some DST)].
Definition ROLLUPS : list RollupSpec := [mkRollupSpec TYPE RK_Accumulate].
Definition IDENTITY : StreamIdentity := {|
  key := KEY;
  canonicalize := EndpointSort;
  lifecycle := None;
  rollups := ROLLUPS |}.

Definition header (ctx : ParseCtx) : reader ParseError ParsedLayer :=
  let? src := ByteReader.u16_be in
  let? dst := ByteReader.u16_be in
  let? ty := ByteReader.u16_be in
  let? len := ByteReader.u16_be in
  let fields := FieldMap.new in
  let fields := insert_at ctx DKeys [(SRC, VU64 src); (DST, VU64 dst)] fields in
  let fields := insert_at ctx DStructural [(TYPE, VU64 ty); (LEN, VU64 len)] fields in
  let hint := if ty =? 0x0001 then Hint_ByProtocol "template" else Hint_Terminal in
  rret {| pl_header_len := 8; pl_fields := fields; pl_hint := hint |}.

Definition probe_len : reader ParseError Z :=
  let? _src_dst_type := ByteReader.take 6 in
  let? len := ByteReader.u16_be in
  rret len.

Definition probe (bytes : list Z) : option Z :=
  match run_reader probe_len bytes with
  | Ok len =>
      if (8 <=? len) && (len <=? blen bytes) then Some (Confidence_new 60) else None
  | Error _ => None
  end.

Definition plugin : LayerPlugin := {|
  name := "template";
  parse := fun bytes ctx => run_reader (header ctx) bytes;
  claims := [Custom "pktt" 0];
  expected_predecessors := [];
  has_probe := true;
  Types.probe := fun bytes _ => probe bytes;
  stream_identity := Some IDENTITY;
  condense := None |}.

#[export] Instance disciplined : Disciplined (Some IDENTITY) (fun _ => header).
Proof. discipline ltac:(unfold header). Qed.

#[global] Instance conformant : Conformant plugin.
Proof. exact (dissector_conformant plugin (fun _ => header) (fun _ _ => eq_refl) disciplined). Qed.

End Template.
