(* ===== verification/PlugSwitch.v ===== *)
(** * Switch-layer dissectors

    Models [pvst_plus.rs], [eapol.rs], [lacp.rs], [llc.rs] and [pppoe.rs] of
    [crates/pktflow-plugins/src]. *)

From S2P Require Import Prelude Values Bytes Types Contract PlugKit.
From S2P Require Import PlugApp.
Local Open Scope reader_scope.

Module PvstPlus.

Definition ORIGINATING_VLAN : FieldName := "originating_vlan".
Definition OUI_CISCO : Z := 0x00000C.
Definition PID_PVST_PLUS : Z := 0x010B.

(** The second reader over [bytes[consumed..]] goes on where the first ended. *)
Definition header (ctx : ParseCtx) : reader ParseError ParsedLayer :=
  let? (bpdu, used) := Stp.parse_bpdu in
  let? tlv_type := ByteReader.u16_be in
  let? tlv_len := ByteReader.u16_be in
  if negb (tlv_type =? 0x0000) || negb (tlv_len =? 0x0002)
  then rfail (PE_Malformed "PVST+: unrecognized originating-VLAN TLV") else
  let? originating_vlan := ByteReader.u16_be in
  let fields := Stp.insert_bpdu_fields ctx bpdu FieldMap.new in
  let fields := insert_at ctx DFull [(ORIGINATING_VLAN, VU64 originating_vlan)] fields in
  rret {| pl_header_len := used + 6; pl_fields := fields; pl_hint := Hint_Terminal |}.

Definition plugin : LayerPlugin := {|
  name := "pvst_plus";
  parse := fun bytes ctx => run_reader (header ctx) bytes;
  claims := [Custom "snap_pid" (Z.lor (Z.shiftl OUI_CISCO 16) PID_PVST_PLUS)];
  expected_predecessors := [];
  has_probe := false;
  probe := fun _ _ => None;
  stream_identity := None;
  condense := None |}.

#[export] Instance disciplined : Disciplined None (fun _ => header).
Proof. discipline ltac:(unfold header, Stp.parse_bpdu, Stp.config_fields, Stp.insert_bpdu_fields). Qed.

#[global] Instance conformant : Conformant plugin.
Proof. exact (dissector_conformant plugin (fun _ => header) (fun _ _ => eq_refl) disciplined). Qed.

End PvstPlus.

Module Eapol.

Definition VERSION : FieldName := "version".
Definition PACKET_TYPE : FieldName := "packet_type".
Definition BODY_LENGTH : FieldName := "body_length".
Definition KEY_DESCRIPTOR_TYPE : FieldName := "key_descriptor_type".
Definition KEY_INFO : FieldName := "key_info".
Definition KEY_LENGTH : FieldName := "key_length".
Definition REPLAY_COUNTER : FieldName := "replay_counter".
Definition NONCE : FieldName := "nonce".
Definition KEY_IV : FieldName := "key_iv".
Definition KEY_RSC : FieldName := "key_rsc".
Definition KEY_MIC : FieldName := "key_mic".
Definition KEY_DATA_LENGTH : FieldName := "key_data_length".

Definition PACKET_TYPE_KEY : Z := 3.

Record KeyDescriptor := mkKeyDescriptor {
  key_descriptor_type : Z;
  key_info : Z;
  key_length : Z;
  replay_counter : Z;
  nonce : list Z;
  key_iv : list Z;
  key_rsc : Z;
  key_mic : list Z;
  key_data_length : Z;
}.

Definition read_key_descriptor : reader ParseError KeyDescriptor :=
  let? key_descriptor_type := ByteReader.u8 in
  let? key_info := ByteReader.u16_be in
  let? key_length := ByteReader.u16_be in
  let? replay_counter := ByteReader.u64_be in
  let? nonce := ByteReader.take 32 in
  let? key_iv := ByteReader.take 16 in
  let? key_rsc := ByteReader.u64_be in
  let? _key_id := ByteReader.take 8 in
  let? key_mic := ByteReader.take 16 in
  let? key_data_length := ByteReader.u16_be in
  rret (mkKeyDescriptor key_descriptor_type key_info key_length replay_counter nonce key_iv
          key_rsc key_mic key_data_length).

Definition key_fields (k : KeyDescriptor) : list (FieldName * Value) :=
  [(KEY_DESCRIPTOR_TYPE, VU64 (key_descriptor_type k)); (KEY_INFO, VU64 (key_info k));
   (KEY_LENGTH, VU64 (key_length k)); (REPLAY_COUNTER, VU64 (replay_counter k));
   (NONCE, Value_from_slice (nonce k)); (KEY_IV, Value_from_slice (key_iv k));
   (KEY_RSC, VU64 (key_rsc k)); (KEY_MIC, Value_from_slice (key_mic k));
   (KEY_DATA_LENGTH, VU64 (key_data_length k))].

Definition header (ctx : ParseCtx) : reader ParseError ParsedLayer :=
  let? version := ByteReader.u8 in
  let? packet_type := ByteReader.u8 in
  let? body_length := ByteReader.u16_be in
  let? body := ByteReader.take body_length in
  let? key :=
    if packet_type =? PACKET_TYPE_KEY
    then let? k := within body read_key_descriptor in rret (E:=ParseError) (Some k)
    else rret None in
  let fields := FieldMap.new in
  let fields := insert_at ctx DStructural
    [(VERSION, VU64 version); (PACKET_TYPE, VU64 packet_type); (BODY_LENGTH, VU64 body_length)] fields in
  let fields := insert_at ctx DFull (from_option key_fields [] key) fields in
  rret {| pl_header_len := 4 + body_length; pl_fields := fields; pl_hint := Hint_Terminal |}.

Definition plugin : LayerPlugin := {|
  name := "eapol";
  parse := fun bytes ctx => run_reader (header ctx) bytes;
  claims := [EtherType 0x888E];
  expected_predecessors := [];
  has_probe := false;
  probe := fun _ _ => None;
  stream_identity := None;
  condense := None |}.

#[export] Instance disciplined : Disciplined None (fun _ => header).
Proof. discipline ltac:(unfold header). Qed.

#[global] Instance conformant : Conformant plugin.
Proof. exact (dissector_conformant plugin (fun _ => header) (fun _ _ => eq_refl) disciplined). Qed.

End Eapol.

Module Lacp.

Definition ACTOR_SYSTEM : FieldName := "actor_system".
Definition PARTNER_SYSTEM : FieldName := "partner_system".
Definition ACTOR_KEY : FieldName := "actor_key".
Definition ACTOR_PORT : FieldName := "actor_port".
Definition ACTOR_STATE : FieldName := "actor_state".
Definition PARTNER_KEY : FieldName := "partner_key".
Definition PARTNER_PORT : FieldName := "partner_port".
Definition PARTNER_STATE : FieldName := "partner_state".

Definition LACP_SUBTYPE : Z := 0x01.
Definition TLV_ACTOR : Z := 0x01.
Definition TLV_PARTNER : Z := 0x02.
Definition TLV_COLLECTOR : Z := 0x03.
Definition TLV_TERMINATOR : Z := 0x00.
Definition ACTOR_PARTNER_TLV_LEN : Z := 0x14.
Definition COLLECTOR_TLV_LEN : Z := 0x10.
Definition RESERVED_TRAILER_LEN : Z := 50.

Definition KEY : list KeyField := [mkKeyField ACTOR_SYSTEM (Some PARTNER_SYSTEM)].
Definition ROLLUPS : list RollupSpec := [mkRollupSpec ACTOR_STATE RK_Accumulate].
Definition IDENTITY : StreamIdentity := {|
  key := KEY;
  canonicalize := EndpointSort;
  lifecycle := None;
  rollups := ROLLUPS |}.

(** System, key, port, state. *)
Definition read_endpoint_tlv (expected_type : Z) : reader ParseError (list Z * Z * Z * Z) :=
  let? tlv_type := ByteReader.u8 in
  if negb (tlv_type =? expected_type)
  then rfail (PE_Malformed "LACP: Actor/Partner TLV out of order") else
  let? tlv_len := ByteReader.u8 in
  if negb (tlv_len =? ACTOR_PARTNER_TLV_LEN)
  then rfail (PE_Malformed "LACP: unexpected Actor/Partner TLV length") else
  let? _system_priority := ByteReader.u16_be in
  let? system := ByteReader.take 6 in
  let? key := ByteReader.u16_be in
  let? _port_priority := ByteReader.u16_be in
  let? port := ByteReader.u16_be in
  let? state := ByteReader.u8 in
  let? _reserved := ByteReader.take 3 in
  rret (system, key, port, state).

Definition header (ctx : ParseCtx) : reader ParseError ParsedLayer :=
  let? subtype := ByteReader.u8 in
  if negb (subtype =? LACP_SUBTYPE)
  then rfail (PE_Malformed "LACP: not the LACP Slow Protocols subtype") else
  let? _version := ByteReader.u8 in
  let? (actor_system, actor_key, actor_port, actor_state) := read_endpoint_tlv TLV_ACTOR in
  let? (partner_system, partner_key, partner_port, partner_state) := read_endpoint_tlv TLV_PARTNER in
  let? tlv_type := ByteReader.u8 in
  if negb (tlv_type =? TLV_COLLECTOR)
  then rfail (PE_Malformed "LACP: Collector TLV out of order") else
  let? tlv_len := ByteReader.u8 in
  if negb (tlv_len =? COLLECTOR_TLV_LEN)
  then rfail (PE_Malformed "LACP: unexpected Collector TLV length") else
  let? _max_delay_reserved := ByteReader.take (COLLECTOR_TLV_LEN - 2) in
  let? terminator_type := ByteReader.u8 in
  let? terminator_len := ByteReader.u8 in
  if negb (terminator_type =? TLV_TERMINATOR) || negb (terminator_len =? 0)
  then rfail (PE_Malformed "LACP: missing Terminator TLV") else
  let? _trailer := ByteReader.take RESERVED_TRAILER_LEN in
  let fields := FieldMap.new in
  let fields := insert_at ctx DKeys
    [(ACTOR_SYSTEM, Value_from_slice actor_system);
     (PARTNER_SYSTEM, Value_from_slice partner_system)] fields in
  let fields := insert_at ctx DStructural
    [(ACTOR_KEY, VU64 actor_key); (ACTOR_PORT, VU64 actor_port); (ACTOR_STATE, VU64 actor_state);
     (PARTNER_KEY, VU64 partner_key); (PARTNER_PORT, VU64 partner_port);
     (PARTNER_STATE, VU64 partner_state)] fields in
  let? header_len := consumed in
  rret {| pl_header_len := header_len; pl_fields := fields; pl_hint := Hint_Terminal |}.

Definition plugin : LayerPlugin := {|
  name := "lacp";
  parse := fun bytes ctx => run_reader (header ctx) bytes;
  claims := [EtherType 0x8809];
  expected_predecessors := [];
  has_probe := false;
  probe := fun _ _ => None;
  stream_identity := Some IDENTITY;
  condense := None |}.

#[export] Instance disciplined : Disciplined (Some IDENTITY) (fun _ => header).
Proof. discipline ltac:(unfold header, read_endpoint_tlv). Qed.

#[global] Instance conformant : Conformant plugin.
Proof. exact (dissector_conformant plugin (fun _ => header) (fun _ _ => eq_refl) disciplined). Qed.

End Lacp.

Module Llc.

Definition DSAP : FieldName := "dsap".
Definition SSAP : FieldName := "ssap".
Definition CONTROL : FieldName := "control".
Definition OUI : FieldName := "oui".
Definition PID : FieldName := "pid".

Definition SNAP_SAP : Z := 0xAA.
Definition WELL_KNOWN_SAPS : list Z := [0x42; 0xAA; 0xE0; 0xF0].

Definition is_ieee_bridge_group (mac : list Z) : bool :=
  match mac with
  | [a; b; c; d; e; last] =>
      (a =? 0x01) && (b =? 0x80) && (c =? 0xC2) && (d =? 0x00) && (e =? 0x00) && (last <=? 0x0F)
  | _ => false
  end.

Definition is_cisco_multicast (mac : list Z) : bool :=
  match mac with
  | [a; b; c; d; e; f] =>
      (a =? 0x01) && (b =? 0x00) && (c =? 0x0C) && (d =? 0xCC) && (e =? 0xCC)
      && ((f =? 0xCC) || (f =? 0xCD))
  | _ => false
  end.

Definition header (ctx : ParseCtx) : reader ParseError ParsedLayer :=
  let? dsap := ByteReader.u8 in
  let? ssap := ByteReader.u8 in
  let? control_first := ByteReader.u8 in
  let? control :=
    if Z.land control_first 0x03 =? 0x03 then rret control_first
    else
      let? control_second := ByteReader.u8 in
      rret (E:=ParseError) (be_value [control_first; control_second]) in
  let? (oui, pid) :=
    if (dsap =? SNAP_SAP) && (ssap =? SNAP_SAP) then
      let? oui_bytes := ByteReader.take 3 in
      let oui := Z.lor (Z.lor (Z.shiftl (at_ix oui_bytes 0) 16) (Z.shiftl (at_ix oui_bytes 1) 8))
                   (at_ix oui_bytes 2) in
      let? pid := ByteReader.u16_be in
      rret (E:=ParseError) (Some oui, Some pid)
    else rret (None, None) in
  let fields := FieldMap.new in
  let fields := insert_at ctx DStructural
    [(DSAP, VU64 dsap); (SSAP, VU64 ssap); (CONTROL, VU64 control)] fields in
  let fields := insert_at ctx DFull (when_some oui OUI VU64 ++ when_some pid PID VU64) fields in
  let hint :=
    match oui, pid with
    | Some o, Some p =>
        if o =? 0 then Hint_Route (EtherType p)
        else Hint_Route (Custom "snap_pid" (Z.lor (Z.shiftl o 16) p))
    | _, _ => Hint_Route (Custom "llc_dsap" dsap)
    end in
  let? header_len := consumed in
  rret {| pl_header_len := header_len; pl_fields := fields; pl_hint := hint |}.

Definition probe (bytes : list Z) (ctx : ParseCtx) : option Z :=
  match bytes with
  | dsap :: ssap :: control_first :: _ =>
      let base_saps := bool_decide (dsap ∈ WELL_KNOWN_SAPS) && bool_decide (ssap ∈ WELL_KNOWN_SAPS) in
      let control_ok := (Z.land control_first 0x03 =? 0x03) || (4 <=? blen bytes) in
      let boosted :=
        match ctx_field ctx "ethernet" "dst_mac" with
        | Some (VBytes mac) => is_ieee_bridge_group mac || is_cisco_multicast mac
        | _ => false
        end in
      if boosted then Some (Confidence_new 90)
      else if base_saps && control_ok then Some (Confidence_new 55)
      else None
  | _ => None
  end.

Definition plugin : LayerPlugin := {|
  name := "llc";
  parse := fun bytes ctx => run_reader (header ctx) bytes;
  claims := [Custom "eth_llc_frame" 0];
  expected_predecessors := ["ethernet"; "dot11"]%string;
  has_probe := true;
  Types.probe := probe;
  stream_identity := None;
  condense := None |}.

#[export] Instance disciplined : Disciplined None (fun _ => header).
Proof. discipline ltac:(unfold header). Qed.

#[global] Instance conformant : Conformant plugin.
Proof. exact (dissector_conformant plugin (fun _ => header) (fun _ _ => eq_refl) disciplined). Qed.

End Llc.

Module Pppoe.

Definition VERSION : FieldName := "version".
Definition TYPE : FieldName := "type".
Definition CODE : FieldName := "code".
Definition SESSION_ID : FieldName := "session_id".
Definition SERVICE_NAME : FieldName := "service_name".
Definition AC_NAME : FieldName := "ac_name".
Definition HOST_UNIQ : FieldName := "host_uniq".

Definition CODE_SESSION_DATA : Z := 0x00.
Definition TAG_SERVICE_NAME : Z := 0x0101.
Definition TAG_AC_NAME : Z := 0x0102.
Definition TAG_HOST_UNIQ : Z := 0x0103.

Definition KEY : list KeyField := [mkKeyField SESSION_ID None].
Definition ROLLUPS : list RollupSpec := [mkRollupSpec CODE RK_Accumulate].
Definition IDENTITY : StreamIdentity := {|
  key := KEY;
  canonicalize := EndpointSort;
  lifecycle := None;
  rollups := ROLLUPS |}.

Record Tags := mkTags {
  service_name : option (list Z);
  ac_name : option (list Z);
  host_uniq : option (list Z);
}.

Definition record (tag_type : Z) (value : list Z) (t : Tags) : Tags :=
  if tag_type =? TAG_SERVICE_NAME then mkTags (Some value) (ac_name t) (host_uniq t)
  else if tag_type =? TAG_AC_NAME then mkTags (service_name t) (Some value) (host_uniq t)
  else if tag_type =? TAG_HOST_UNIQ then mkTags (service_name t) (ac_name t) (Some value)
  else t.

Definition full_fields (t : Tags) : list (FieldName * Value) :=
  when_some (service_name t) SERVICE_NAME (fun v => Value_from_str (decode_text v)) ++
  when_some (ac_name t) AC_NAME (fun v => Value_from_str (decode_text v)) ++
  when_some (host_uniq t) HOST_UNIQ Value_from_slice.

(** [while r.remaining() > 0]; every round reads. *)
Definition tag_round (t : Tags) : reader ParseError (Tags + Tags) :=
  let? rem := remaining in
  if rem <=? 0 then rret (inr t) else
  let? tag_type := ByteReader.u16_be in
  let? tag_len := ByteReader.u16_be in
  let? value := ByteReader.take tag_len in
  rret (E:=ParseError) (inl (record tag_type value t)).

Definition walk_tags : reader ParseError Tags :=
  read_loop (PE_Malformed "unreachable") tag_round (mkTags None None None).

Definition header (ctx : ParseCtx) : reader ParseError ParsedLayer :=
  let? first := ByteReader.u8 in
  if negb (first =? 0x11) then rfail (PE_Malformed "PPPoE: VER/TYPE is not 0x1/0x1") else
  let? code := ByteReader.u8 in
  let? session_id := ByteReader.u16_be in
  let? length := ByteReader.u16_be in
  let? (hint, header_len, tags) :=
    if code =? CODE_SESSION_DATA then
      let? header_len := consumed in
      rret (E:=ParseError) (Hint_ByProtocol "ppp", header_len, None)
    else
      let? region := ByteReader.take length in
      let? header_len := consumed in
      let? tags := within region walk_tags in
      rret (E:=ParseError) (Hint_Terminal, header_len, Some tags) in
  let fields := FieldMap.new in
  let fields := insert_at ctx DKeys [(SESSION_ID, VU64 session_id)] fields in
  let fields := insert_at ctx DStructural
    [(VERSION, VU64 (Z.shiftr first 4)); (TYPE, VU64 (Z.land first 0x0F)); (CODE, VU64 code)] fields in
  let fields := insert_at ctx DFull (from_option full_fields [] tags) fields in
  rret {| pl_header_len := header_len; pl_fields := fields; pl_hint := hint |}.

Definition plugin : LayerPlugin := {|
  name := "pppoe";
  parse := fun bytes ctx => run_reader (header ctx) bytes;
  claims := [EtherType 0x8863; EtherType 0x8864];
  expected_predecessors := [];
  has_probe := false;
  probe := fun _ _ => None;
  stream_identity := Some IDENTITY;
  condense := None |}.

#[export] Instance tag_round_progresses : Progresses tag_round.
Proof. progress_round ltac:(unfold tag_round). Qed.

#[export] Instance disciplined : Disciplined (Some IDENTITY) (fun _ => header).
Proof. discipline ltac:(unfold header). Qed.

#[global] Instance conformant : Conformant plugin.
Proof. exact (dissector_conformant plugin (fun _ => header) (fun _ _ => eq_refl) disciplined). Qed.

End Pppoe.

Module Lldp.

Definition CHASSIS_ID_SUBTYPE : FieldName := "chassis_id_subtype".
Definition CHASSIS_ID : FieldName := "chassis_id".
Definition PORT_ID_SUBTYPE : FieldName := "port_id_subtype".
Definition PORT_ID : FieldName := "port_id".
Definition TTL : FieldName := "ttl".
Definition SYSTEM_NAME : FieldName := "system_name".
Definition SYSTEM_DESCRIPTION : FieldName := "system_description".
Definition MANAGEMENT_ADDRESS : FieldName := "management_address".
Definition CAPABILITIES : FieldName := "capabilities".

Definition TLV_END : Z := 0.
Definition TLV_CHASSIS_ID : Z := 1.
Definition TLV_PORT_ID : Z := 2.
Definition TLV_TTL : Z := 3.
Definition TLV_SYSTEM_NAME : Z := 5.
Definition TLV_SYSTEM_DESCRIPTION : Z := 6.
Definition TLV_SYSTEM_CAPABILITIES : Z := 7.
Definition TLV_MANAGEMENT_ADDRESS : Z := 8.

Definition read_tlv : reader ParseError (Z * list Z) :=
  let? header := ByteReader.u16_be in
  let? value := ByteReader.take (Z.land header 0x01FF) in
  rret (E:=ParseError) (Z.shiftr header 9 mod 256, value).

(** The locals of the optional walk; the first of a kind is kept. *)
Record Optional := mkOptional {
  system_name : option string;
  system_description : option string;
  management_address : option Value;
  capabilities : option Z;
}.

Definition note_tlv (t : Z) (value : list Z) (o : Optional) : Optional :=
  if (t =? TLV_SYSTEM_NAME) && is_none (system_name o) then
    mkOptional (Some (decode_text value)) (system_description o) (management_address o) (capabilities o)
  else if (t =? TLV_SYSTEM_DESCRIPTION) && is_none (system_description o) then
    mkOptional (system_name o) (Some (decode_text value)) (management_address o) (capabilities o)
  else if (t =? TLV_SYSTEM_CAPABILITIES) && is_none (capabilities o) && (blen value =? 4) then
    mkOptional (system_name o) (system_description o) (management_address o)
      (Some (be_value [at_ix value 2; at_ix value 3]))
  else if (t =? TLV_MANAGEMENT_ADDRESS) && is_none (management_address o) then
    mkOptional (system_name o) (system_description o) (Some (Value_from_slice value)) (capabilities o)
  else o.

Definition tlv_round (o : Optional) : reader ParseError (Optional + Optional) :=
  let? (t, value) := read_tlv in
  if t =? TLV_END then rret (inr o) else rret (E:=ParseError) (inl (note_tlv t value o)).

Definition walk_tlvs : reader ParseError Optional :=
  read_loop (PE_Malformed "unreachable") tlv_round (mkOptional None None None None).

Definition header (ctx : ParseCtx) : reader ParseError ParsedLayer :=
  let? (t, chassis) := read_tlv in
  if negb (t =? TLV_CHASSIS_ID) || (blen chassis =? 0)
  then rfail (PE_Malformed "LLDP: expected Chassis ID TLV") else
  let chassis_id_subtype := at_ix chassis 0 in
  let chassis_id := slice_from chassis 1 in
  let? (t, port) := read_tlv in
  if negb (t =? TLV_PORT_ID) || (blen port =? 0)
  then rfail (PE_Malformed "LLDP: expected Port ID TLV") else
  let port_id_subtype := at_ix port 0 in
  let port_id := slice_from port 1 in
  let? (t, ttl_bytes) := read_tlv in
  if negb (t =? TLV_TTL) || negb (blen ttl_bytes =? 2)
  then rfail (PE_Malformed "LLDP: expected 2-byte TTL TLV") else
  let ttl := be_value [at_ix ttl_bytes 0; at_ix ttl_bytes 1] in
  let? o := walk_tlvs in
  let fields := FieldMap.new in
  let fields := insert_at ctx DStructural
    [(CHASSIS_ID_SUBTYPE, VU64 chassis_id_subtype); (CHASSIS_ID, Value_from_slice chassis_id);
     (PORT_ID_SUBTYPE, VU64 port_id_subtype); (PORT_ID, Value_from_slice port_id);
     (TTL, VU64 ttl)] fields in
  let fields := insert_at ctx DFull
    (when_some (system_name o) SYSTEM_NAME Value_from_str ++
     when_some (system_description o) SYSTEM_DESCRIPTION Value_from_str ++
     when_some (management_address o) MANAGEMENT_ADDRESS id ++
     when_some (capabilities o) CAPABILITIES VU64) fields in
  let? header_len := consumed in
  rret {| pl_header_len := header_len; pl_fields := fields; pl_hint := Hint_Terminal |}.

Definition plugin : LayerPlugin := {|
  name := "lldp";
  parse := fun bytes ctx => run_reader (header ctx) bytes;
  claims := [EtherType 0x88CC];
  expected_predecessors := [];
  has_probe := false;
  probe := fun _ _ => None;
  stream_identity := None;
  condense := None |}.

#[export] Instance stable_tlv_round o : Stable (tlv_round o).
Proof. unfold tlv_round, read_tlv. apply _. Qed.

#[export] Instance tlv_round_progresses : Progresses tlv_round.
Proof. progress_round ltac:(unfold tlv_round, read_tlv). Qed.

#[export] Instance disciplined : Disciplined None (fun _ => header).
Proof. discipline ltac:(unfold header, read_tlv, walk_tlvs). Qed.

#[global] Instance conformant : Conformant plugin.
Proof. exact (dissector_conformant plugin (fun _ => header) (fun _ _ => eq_refl) disciplined). Qed.

End Lldp.

Module Cdp.

Definition VERSION : FieldName := "version".
Definition TTL : FieldName := "ttl".
Definition CHECKSUM : FieldName := "checksum".
Definition DEVICE_ID : FieldName := "device_id".
Definition PORT_ID : FieldName := "port_id".
Definition PLATFORM : FieldName := "platform".
Definition CAPABILITIES : FieldName := "capabilities".
Definition NATIVE_VLAN : FieldName := "native_vlan".
Definition IP_ADDRESS : FieldName := "ip_address".

Definition TLV_DEVICE_ID : Z := 0x0001.
Definition TLV_ADDRESS : Z := 0x0002.
Definition TLV_PORT_ID : Z := 0x0003.
Definition TLV_CAPABILITIES : Z := 0x0004.
Definition TLV_PLATFORM : Z := 0x0006.
Definition TLV_NATIVE_VLAN : Z := 0x000A.

Definition OUI_CISCO : Z := 0x00000C.
Definition PID_CDP : Z := 0x2000.

Definition read_first_address : reader ParseError (list Z) :=
  let? count := ByteReader.u32_be in
  if count =? 0 then rfail (PE_Malformed "no address") else
  let? protocol_length := ByteReader.u8 in
  let? _protocol_type := ByteReader.u8 in
  let? _protocol := ByteReader.take protocol_length in
  let? address_length := ByteReader.u16_be in
  let? address := ByteReader.take address_length in
  rret (E:=ParseError) address.

(** [None] for whatever goes wrong. *)
Definition first_address (value : list Z) : option (list Z) := ok_of (run_reader read_first_address value).

Record Tlvs := mkTlvs {
  device_id : option string;
  port_id : option string;
  platform : option string;
  capabilities : option Z;
  native_vlan : option Z;
  ip_address : option (list Z);
}.

Definition record (tlv_type : Z) (value : list Z) (t : Tlvs) : Tlvs :=
  if tlv_type =? TLV_DEVICE_ID then
    mkTlvs (Some (decode_text value)) (port_id t) (platform t) (capabilities t) (native_vlan t) (ip_address t)
  else if tlv_type =? TLV_PORT_ID then
    mkTlvs (device_id t) (Some (decode_text value)) (platform t) (capabilities t) (native_vlan t) (ip_address t)
  else if tlv_type =? TLV_PLATFORM then
    mkTlvs (device_id t) (port_id t) (Some (decode_text value)) (capabilities t) (native_vlan t) (ip_address t)
  else if (tlv_type =? TLV_CAPABILITIES) && (blen value =? 4) then
    mkTlvs (device_id t) (port_id t) (platform t)
      (Some (be_value [at_ix value 0; at_ix value 1; at_ix value 2; at_ix value 3])) (native_vlan t) (ip_address t)
  else if (tlv_type =? TLV_NATIVE_VLAN) && (blen value =? 2) then
    mkTlvs (device_id t) (port_id t) (platform t) (capabilities t)
      (Some (be_value [at_ix value 0; at_ix value 1])) (ip_address t)
  else if tlv_type =? TLV_ADDRESS then
    match first_address value with
    | Some addr =>
        mkTlvs (device_id t) (port_id t) (platform t) (capabilities t) (native_vlan t) (Some addr)
    | None => t
    end
  else t.

Definition full_fields (t : Tlvs) : list (FieldName * Value) :=
  when_some (device_id t) DEVICE_ID Value_from_str ++ when_some (port_id t) PORT_ID Value_from_str ++
  when_some (platform t) PLATFORM Value_from_str ++ when_some (capabilities t) CAPABILITIES VU64 ++
  when_some (native_vlan t) NATIVE_VLAN VU64 ++ when_some (ip_address t) IP_ADDRESS Value_from_slice.

(** [tlvs] and [header_len] of the walk. *)
Record Walk := mkWalk { walk_tlvs : Tlvs; walk_len : Z }.

(** [while r.remaining() >= 4]; an all-zero TLV header is padding. *)
Definition tlv_round (w : Walk) : reader ParseError (Walk + Walk) :=
  let? rem := remaining in
  if rem <? 4 then rret (inr w) else
  let? before := consumed in
  let? tlv_type := ByteReader.u16_be in
  let? tlv_len := ByteReader.u16_be in
  if (tlv_type =? 0) && (tlv_len =? 0) then rret (inr (mkWalk (walk_tlvs w) before)) else
  if tlv_len <? 4 then rfail (PE_Malformed "CDP: TLV length shorter than its own header") else
  let? value := ByteReader.take (tlv_len - 4) in
  let? header_len := consumed in
  rret (E:=ParseError) (inl (mkWalk (record tlv_type value (walk_tlvs w)) header_len)).

Definition no_tlvs : Tlvs := mkTlvs None None None None None None.

Definition walk (header_len : Z) : reader ParseError Walk :=
  read_loop (PE_Malformed "unreachable") tlv_round (mkWalk no_tlvs header_len).

Definition header (ctx : ParseCtx) : reader ParseError ParsedLayer :=
  let? version := ByteReader.u8 in
  let? ttl := ByteReader.u8 in
  let? checksum := ByteReader.u16_be in
  let? header_len := consumed in
  let? w := walk header_len in
  let tlvs := walk_tlvs w in
  if is_none (device_id tlvs) then rfail (PE_Malformed "CDP: missing Device ID TLV") else
  let fields := FieldMap.new in
  let fields := insert_at ctx DStructural
    [(VERSION, VU64 version); (TTL, VU64 ttl); (CHECKSUM, VU64 checksum)] fields in
  let fields := insert_at ctx DFull (full_fields tlvs) fields in
  rret {| pl_header_len := walk_len w; pl_fields := fields; pl_hint := Hint_Terminal |}.

Definition plugin : LayerPlugin := {|
  name := "cdp";
  parse := fun bytes ctx => run_reader (header ctx) bytes;
  claims := [Custom "snap_pid" (Z.lor (Z.shiftl OUI_CISCO 16) PID_CDP)];
  expected_predecessors := [];
  has_probe := false;
  probe := fun _ _ => None;
  stream_identity := None;
  condense := None |}.

#[export] Instance tlv_round_progresses : Progresses tlv_round.
Proof. progress_round ltac:(unfold tlv_round). Qed.

(** The length the walk reports never runs ahead of the cursor. *)
Lemma walk_consumes n len : 0 <= len <= n ->
  consumes n (walk len) (fun n' w => 0 <= walk_len w <= n').
Proof.
  intros Hlen. unfold walk. apply (consumes_loop _ _ (fun m w => 0 <= walk_len w <= m)); [|done].
  intros m w Hw. unfold tlv_round. repeat consume_step; simpl; reflect_bools; lia.
Qed.

#[export] Instance readable_header : Readable None (fun _ => header).
Proof.
  constructor.
  - intros n c _. unfold header. do 4 consume_step.
    eapply consumes_bind; [apply walk_consumes; lia|]. intros n' w Hw. cbv beta zeta in *. consume_step; [consume_step|].
    consume_step. layer_owed.
  - intros n c d1 d2. unfold header. repeat relate_step; framing_same.
Qed.

#[global] Instance framed : Framed plugin.
Proof. exact (dissector_framed plugin (fun _ => header) None (fun _ _ => eq_refl) readable_header). Qed.

#[global] Instance keyed : Keyed plugin.
Proof. exact (dissector_keyed plugin (fun _ => header) None (fun _ _ => eq_refl) readable_header eq_refl). Qed.

(** An announcement with its Device ID first, then a Port ID: cut anywhere in
    the second TLV's first bytes, it is accepted with a shorter header.  The
    rule the kit samples (every strict prefix declines) does not hold of CDP. *)
Definition announcement : list Z :=
  [2; 180; 0; 0;  0; 1; 0; 6; 115; 49;  0; 3; 0; 6; 71; 105].

Example short_success : forall c,
  (exists l, parse plugin announcement c = Ok l /\ pl_header_len l = 16) /\
  (exists l, parse plugin (take 12 announcement) c = Ok l /\ pl_header_len l = 10).
Proof. intros c. split; eexists; (split; [vm_compute; reflexivity|reflexivity]). Qed.

End Cdp.
