(* ===== verification/PlugRadio.v ===== *)
(** * Wireless dissectors

    Models [radiotap.rs] and [dot11.rs] of [crates/pktflow-plugins/src]. *)

From S2P Require Import Prelude Values Bytes Types Contract PlugKit.
Local Open Scope reader_scope.

Module Radiotap.

Definition IT_VERSION : FieldName := "it_version".
Definition IT_LEN : FieldName := "it_len".
Definition IT_PRESENT : FieldName := "it_present".
Definition ANTENNA_SIGNAL : FieldName := "antenna_signal".
Definition RATE : FieldName := "rate".
Definition CHANNEL_FREQ : FieldName := "channel_freq".

Definition PRESENT_EXTENSION_BIT : Z := Z.shiftl 1 31.
Definition MAX_PRESENT_WORDS : nat := 8.

(** Alignment and size of the fields of bits 0 to 5. *)
Definition FIELD_LAYOUT : list (Z * Z) := [(8, 8); (1, 1); (1, 1); (2, 4); (1, 2); (1, 1)].

Definition BIT_RATE : Z := 2.
Definition BIT_CHANNEL : Z := 3.
Definition BIT_ANTENNA_SIGNAL : Z := 5.

(** The present words after [word], of which [words_read] were read. *)
Fixpoint more_words (room : nat) (word : Z) : reader ParseError unit :=
  if flag word PRESENT_EXTENSION_BIT then
    match room with
    | O => rfail (PE_Malformed "radiotap: present-word chain exceeds the 8-word bound")
    | S room' => let? word := ByteReader.u32_le in more_words room' word
    end
  else rret tt.

Record Signals := mkSignals { rate : option Z; channel_freq : option Z; antenna_signal : option Z }.

Definition note_field (bit : Z) (value : list Z) (s : Signals) : Signals :=
  if bit =? BIT_RATE then mkSignals (Some (at_ix value 0)) (channel_freq s) (antenna_signal s)
  else if bit =? BIT_CHANNEL then
    mkSignals (rate s) (Some (le_value [at_ix value 0; at_ix value 1])) (antenna_signal s)
  else if bit =? BIT_ANTENNA_SIGNAL then
    mkSignals (rate s) (channel_freq s) (Some (to_signed 8 (at_ix value 0)))
  else s.

(** The fields present, from bit [bit] on, each aligned from the header's start. *)
Fixpoint field_walk (it_present bit : Z) (layout : list (Z * Z)) (s : Signals) : reader ParseError Signals :=
  match layout with
  | [] => rret s
  | (align, size) :: layout' =>
      if negb (flag it_present (Z.shiftl 1 bit)) then field_walk it_present (bit + 1) layout' s
      else
        let? offset := consumed in
        let pad := align - offset mod align in
        let pad := if pad =? align then 0 else pad in
        let? _padding := if 0 <? pad then ByteReader.take pad else rret [] in
        let? value := ByteReader.take size in
        field_walk it_present (bit + 1) layout' (note_field bit value s)
  end.

Definition header (available : Z) (ctx : ParseCtx) : reader ParseError ParsedLayer :=
  let? it_version := ByteReader.u8 in
  let? _it_pad := ByteReader.u8 in
  let? it_len := ByteReader.u16_le in
  let header_len := it_len in
  if available <? header_len then rfail (PE_Malformed "radiotap: it_len exceeds captured bytes") else
  let? it_present := ByteReader.u32_le in
  let? _words := more_words (MAX_PRESENT_WORDS - 1) it_present in
  let? s := field_walk it_present 0 FIELD_LAYOUT (mkSignals None None None) in
  let? used := consumed in
  if header_len <? used then rfail (PE_Malformed "radiotap: present fields overrun it_len") else
  let fields := FieldMap.new in
  let fields := insert_at ctx DStructural
    [(IT_VERSION, VU64 it_version); (IT_LEN, VU64 it_len); (IT_PRESENT, VU64 it_present)] fields in
  let fields := insert_at ctx DFull
    (when_some (rate s) RATE VU64 ++ when_some (channel_freq s) CHANNEL_FREQ VU64 ++
     when_some (antenna_signal s) ANTENNA_SIGNAL VI64) fields in
  rret {| pl_header_len := header_len; pl_fields := fields; pl_hint := Hint_ByProtocol "dot11" |}.

Definition plugin : LayerPlugin := {|
  name := "radiotap";
  parse := fun bytes ctx => run_reader (header (blen bytes) ctx) bytes;
  claims := [LinkType 127];
  expected_predecessors := [];
  has_probe := false;
  probe := fun _ _ => None;
  stream_identity := None;
  condense := None |}.

#[export] Instance more_words_forward room word : Consumes (more_words room word) (fun n n' _ => n <= n').
Proof.
  intros n. revert word n. induction room as [|room IH]; intros word n; cbn [more_words]; consume_step.
  - consume_step.
  - consume_step. lia.
  - consume_step. eapply consumes_impl; [apply IH|]. intros; cbv beta in *; lia.
  - consume_step. lia.
Qed.

#[export] Instance field_walk_forward p bit layout s : Consumes (field_walk p bit layout s) (fun n n' _ => n <= n').
Proof.
  intros n. revert bit s n. induction layout as [|[align size] layout IH]; intros bit s n; cbn [field_walk].
  { apply consumes_ret. lia. }
  consume_step; [apply IH|]. repeat (consume_step; cbv zeta);
    (eapply consumes_impl; [apply IH|]; intros; cbv beta in *; lia).
Qed.

#[export] Instance readable_header : Readable None header.
Proof. readable ltac:(unfold header). Qed.

#[global] Instance framed : Framed plugin.
Proof. exact (dissector_framed plugin header None (fun _ _ => eq_refl) readable_header). Qed.

(** The length is announced in the third and fourth octets. *)
Definition announced_len : reader ParseError Z :=
  let? _it_version := ByteReader.u8 in
  let? _it_pad := ByteReader.u8 in
  let? it_len := ByteReader.u16_le in
  rret it_len.

#[global] Instance conformant : Conformant plugin.
Proof.
  constructor; [apply _|exact (dissector_keyed plugin header None (fun _ _ => eq_refl) readable_header eq_refl)|].
  apply (declining_announced plugin header announced_len (fun _ _ => eq_refl) _ _).
  announce ltac:(unfold header, announced_len).
Qed.

End Radiotap.

Module Dot11.

Definition ADDR1 : FieldName := "addr1".
Definition ADDR2 : FieldName := "addr2".
Definition ADDR3 : FieldName := "addr3".
Definition ADDR4 : FieldName := "addr4".
Definition FRAME_TYPE : FieldName := "frame_type".
Definition FRAME_SUBTYPE : FieldName := "frame_subtype".
Definition FLAGS : FieldName := "flags".
Definition DURATION : FieldName := "duration".
Definition SEQ_NUM : FieldName := "seq_num".
Definition QOS_CONTROL : FieldName := "qos_control".
Definition SSID : FieldName := "ssid".

Definition TYPE_MANAGEMENT : Z := 0.
Definition TYPE_CONTROL : Z := 1.
Definition TYPE_DATA : Z := 2.
Definition SUBTYPE_PROBE_REQUEST : Z := 0x4.
Definition SUBTYPE_PROBE_RESPONSE : Z := 0x5.
Definition SUBTYPE_BEACON : Z := 0x8.
Definition CONTROL_SUBTYPES_WITH_ADDR2 : list Z := [0x8; 0x9; 0xA; 0xB].
Definition DATA_SUBTYPE_QOS_BIT : Z := 0x08.
Definition DATA_SUBTYPE_NO_BODY_BIT : Z := 0x04.
Definition SSID_ELEMENT_ID : Z := 0.
Definition BEACON_FIXED_FIELDS_LEN : Z := 12.

Definition KEY : list KeyField := [mkKeyField ADDR1 (Some ADDR2)].
Definition ROLLUPS : list RollupSpec := [mkRollupSpec FRAME_SUBTYPE RK_Accumulate].
Definition IDENTITY : StreamIdentity := {|
  key := KEY;
  canonicalize := EndpointSort;
  lifecycle := None;
  rollups := ROLLUPS |}.

Definition control_frame (ctx : ParseCtx) (frame_subtype : Z) (fields : FieldMap.t)
    : reader ParseError ParsedLayer :=
  let? addr2 :=
    if bool_decide (frame_subtype ∈ CONTROL_SUBTYPES_WITH_ADDR2)
    then let? a := ByteReader.take 6 in rret (E:=ParseError) (Some a)
    else rret None in
  let fields := insert_at ctx DKeys (when_some addr2 ADDR2 Value_from_slice) fields in
  let? header_len := consumed in
  rret {| pl_header_len := header_len; pl_fields := fields; pl_hint := Hint_Terminal |}.

(** The SSID element, first after the fixed fields of three subtypes. *)
Definition ssid_element (frame_subtype : Z) : reader ParseError (option string) :=
  if (frame_subtype =? SUBTYPE_BEACON) || (frame_subtype =? SUBTYPE_PROBE_REQUEST)
     || (frame_subtype =? SUBTYPE_PROBE_RESPONSE) then
    let? _fixed :=
      if (frame_subtype =? SUBTYPE_BEACON) || (frame_subtype =? SUBTYPE_PROBE_RESPONSE)
      then ByteReader.take BEACON_FIXED_FIELDS_LEN else rret [] in
    let? el_id := ByteReader.u8 in
    let? el_len := ByteReader.u8 in
    let? value := ByteReader.take el_len in
    rret (E:=ParseError) (if el_id =? SSID_ELEMENT_ID then Some (decode_text value) else None)
  else rret None.

Definition management_frame (ctx : ParseCtx) (frame_subtype : Z) (fields : FieldMap.t)
    : reader ParseError ParsedLayer :=
  let? addr2 := ByteReader.take 6 in
  let? addr3 := ByteReader.take 6 in
  let? seq_ctrl := ByteReader.u16_le in
  let seq_num := Z.shiftr seq_ctrl 4 in
  let fields := insert_at ctx DKeys [(ADDR2, Value_from_slice addr2)] fields in
  let fields := insert_at ctx DStructural
    [(ADDR3, Value_from_slice addr3); (SEQ_NUM, VU64 seq_num)] fields in
  let? ssid := ssid_element frame_subtype in
  let fields := insert_at ctx DFull (when_some ssid SSID Value_from_str) fields in
  let? header_len := consumed in
  rret {| pl_header_len := header_len; pl_fields := fields; pl_hint := Hint_Terminal |}.

Definition data_frame (ctx : ParseCtx) (frame_subtype : Z) (to_ds from_ds protected : bool)
    (fields : FieldMap.t) : reader ParseError ParsedLayer :=
  let? addr2 := ByteReader.take 6 in
  let? addr3 := ByteReader.take 6 in
  let? seq_ctrl := ByteReader.u16_le in
  let seq_num := Z.shiftr seq_ctrl 4 in
  let? addr4 :=
    if to_ds && from_ds
    then let? a := ByteReader.take 6 in rret (E:=ParseError) (Some a)
    else rret None in
  let has_qos := flag frame_subtype DATA_SUBTYPE_QOS_BIT in
  let? qos_control :=
    if has_qos
    then let? q := ByteReader.u16_le in rret (E:=ParseError) (Some q)
    else rret None in
  let fields := insert_at ctx DKeys [(ADDR2, Value_from_slice addr2)] fields in
  let fields := insert_at ctx DStructural
    [(ADDR3, Value_from_slice addr3); (SEQ_NUM, VU64 seq_num)] fields in
  let fields := insert_at ctx DFull
    (when_some addr4 ADDR4 Value_from_slice ++ when_some qos_control QOS_CONTROL VU64) fields in
  let no_body := flag frame_subtype DATA_SUBTYPE_NO_BODY_BIT in
  let hint := if protected || no_body then Hint_Terminal else Hint_ByProtocol "llc" in
  let? header_len := consumed in
  rret {| pl_header_len := header_len; pl_fields := fields; pl_hint := hint |}.

Definition header (ctx : ParseCtx) : reader ParseError ParsedLayer :=
  let? fc0 := ByteReader.u8 in
  let? fc1 := ByteReader.u8 in
  let frame_type := Z.land (Z.shiftr fc0 2) 0x03 in
  let frame_subtype := Z.land (Z.shiftr fc0 4) 0x0F in
  let to_ds := flag fc1 0x01 in
  let from_ds := flag fc1 0x02 in
  let protected := flag fc1 0x40 in
  let? duration := ByteReader.u16_le in
  let? addr1 := ByteReader.take 6 in
  let fields := FieldMap.new in
  let fields := insert_at ctx DStructural
    [(FRAME_TYPE, VU64 frame_type); (FRAME_SUBTYPE, VU64 frame_subtype); (FLAGS, VU64 fc1);
     (DURATION, VU64 duration)] fields in
  let fields := insert_at ctx DKeys [(ADDR1, Value_from_slice addr1)] fields in
  if frame_type =? TYPE_CONTROL then control_frame ctx frame_subtype fields
  else if frame_type =? TYPE_MANAGEMENT then management_frame ctx frame_subtype fields
  else if frame_type =? TYPE_DATA then data_frame ctx frame_subtype to_ds from_ds protected fields
  else rfail (PE_Malformed "dot11: unsupported frame type (Extension/reserved)").

Definition plugin : LayerPlugin := {|
  name := "dot11";
  parse := fun bytes ctx => run_reader (header ctx) bytes;
  claims := [LinkType 105];
  expected_predecessors := [];
  has_probe := false;
  probe := fun _ _ => None;
  stream_identity := Some IDENTITY;
  condense := None |}.

(** Without the identity: a control frame need not have a second address. *)
#[export] Instance disciplined : Disciplined None (fun _ => header).
Proof. discipline ltac:(unfold header, control_frame, management_frame, data_frame, ssid_element). Qed.

#[global] Instance framed : Framed plugin.
Proof. exact (dissector_framed plugin (fun _ => header) None (fun _ _ => eq_refl) disc_readable). Qed.

#[global] Instance declining : Declining plugin.
Proof. exact (dissector_declining plugin (fun _ => header) None (fun _ _ => eq_refl) disc_readable disc_stable disc_length). Qed.

(** An acknowledgement: parsed, but the stream key cannot be built. *)
Definition ack : list Z := [0xD4; 0; 0; 0; 2; 0; 0; 0; 0; 1].

Example ack_has_no_key : forall layers m,
  exists l, parse plugin ack (mkCtx layers DFull m) = Ok l /\ FieldMap.get ADDR2 (pl_fields l) = None.
Proof. intros layers m. eexists. by vm_compute. Qed.

Example not_keyed : ~ Keyed plugin.
Proof.
  intros Hk. destruct (ack_has_no_key [] (mkMeta 0 10 10 105)) as (l & Hl & Hn).
  pose proof (Hk _ _ _ _ Hl eq_refl eq_refl) as Hr. unfold key_ready in Hr. simpl in Hr.
  inversion_clear Hr as [|? ? _ Hr']. inversion_clear Hr' as [|? ? H _]. rewrite Hn in H. by destruct H.
Qed.

End Dot11.
