(* ===== verification/PlugText.v ===== *)
(** * Text protocols

    The line and header helpers that the text-based dissectors of
    [crates/pktflow-plugins/src] each have a copy of ([split_line],
    [parse_reply_code], [find_header_end], [split_lines], [trim_spaces],
    [header_value], ...), over the bytes as slices, and the contract of a
    dissector that first finds its terminator and then looks at what comes
    before it only. *)

From S2P Require Import Prelude Values Bytes Utf8 Text Types Contract PlugKit PlugScan.
Local Open Scope reader_scope.

(** ** Iterators over slices *)

(** [iter().position(p)]. *)
Fixpoint position (p : Z -> bool) (l : list Z) : option nat :=
  match l with
  | [] => None
  | b :: l' => if p b then Some 0%nat else S <$> position p l'
  end.

(** [iter().rposition(p)]. *)
Definition rposition (p : Z -> bool) (l : list Z) : option nat :=
  (fun i => (length l - 1 - i)%nat) <$> position p (reverse l).

(** [windows(n).position(|w| w == pat)], [n] the length of [pat]. *)
Fixpoint window_position (pat l : list Z) : option nat :=
  if bool_decide (take (length pat) l = pat) && (length pat <=? length l)%nat then Some 0%nat
  else match l with [] => None | _ :: l' => S <$> window_position pat l' end.

(** [iter().find_map(f)]. *)
Fixpoint find_map {A B} (f : A -> option B) (l : list A) : option B :=
  match l with
  | [] => None
  | a :: l' => match f a with Some b => Some b | None => find_map f l' end
  end.

(** [splitn(n, |b| b == sep)], the pieces in order. *)
Fixpoint splitn (n : nat) (sep : Z) (l : list Z) : list (list Z) :=
  match n with
  | O => []
  | S O => [l]
  | S n' =>
      match position (Z.eqb sep) l with
      | Some i => take i l :: splitn n' sep (drop (S i) l)
      | None => [l]
      end
  end.

(** [split(|b| b == sep)]. *)
Fixpoint split_by (sep : Z) (l : list Z) : list (list Z) :=
  match l with
  | [] => [[]]
  | b :: l' =>
      if b =? sep then [] :: split_by sep l'
      else match split_by sep l' with
           | piece :: pieces => (b :: piece) :: pieces
           | [] => [[b]]
           end
  end.

(** [r.read().ok()?] in a function that returns an [Option]: the failure is [None]. *)
#[export] Instance From_unit {E} : From E unit := fun _ => tt.

Definition read_option {A} (m : reader unit A) (bytes : list Z) : option A :=
  ok_of (fst (m (ByteReader.new bytes))).

(** [slice == b"..."] and [slice.starts_with(b"...")]. *)
Definition bytes_are (s : string) (l : list Z) : bool := bool_decide (l = str_bytes s).
Definition begins_with (pre l : list Z) : bool := bool_decide (take (length pre) l = pre).

Definition ok_or {A E} (o : option A) (e : E) : result A E :=
  match o with Some a => Ok a | None => Error e end.

(** [Truncated { needed: bytes.len() + 1, have: bytes.len() }]. *)
Definition unterminated (bytes : list Z) : ParseError := PE_Truncated (mkTruncated (blen bytes + 1) (blen bytes)).

(** [u8::to_ascii_uppercase] and the character classes of [u8]. *)
Definition upper_byte (b : Z) : Z := if in_range 97 122 b then b - 32 else b.
Definition is_alphabetic (b : Z) : bool := in_range 65 90 b || in_range 97 122 b.
Definition is_alphanumeric (b : Z) : bool := is_alphabetic b || is_digit b.

(** [str::parse::<i64>]: a sign, digits, and the range of the type. *)
Definition parse_i64 (bytes : list Z) : option Z :=
  let '(neg, digits) :=
    match bytes with
    | 45 :: rest => (true, rest)
    | 43 :: rest => (false, rest)
    | _ => (false, bytes)
    end in
  let n := if neg then - digits_value digits else digits_value digits in
  if (0 <? blen digits) && forallb is_digit digits && (- 2 ^ 63 <=? n) && (n <? 2 ^ 63)
  then Some n else None.

(** ** The shared helpers *)

(** The first line without its end, and how much it takes with it. *)
Definition split_line (bytes : list Z) : option (list Z * Z) :=
  nl ← position (Z.eqb 10) bytes;
  let header_len := Z.of_nat nl + 1 in
  let line :=
    if (0 <? nl)%nat && bool_decide (bytes !! (nl - 1)%nat = Some 13)
    then take (nl - 1) bytes else take nl bytes in
  Some (line, header_len).

(** A three-digit reply code and the text after it. *)
Definition parse_reply_code (line : list Z) : option (Z * list Z) :=
  if (length line <? 3)%nat || negb (forallb is_digit (take 3 line)) then None else
  let code := digits_value (take 3 line) in
  match line !! 3%nat with
  | None => Some (code, drop 3 line)
  | Some b => if (b =? 32) || (b =? 45) then Some (code, drop 4 line) else None
  end.

(** A command word of [commands], in upper case, and its argument. *)
Definition parse_command (commands : list string) (line : list Z) : option (string * list Z) :=
  let stop := default (length line) (position (Z.eqb 32) line) in
  if (stop =? 0)%nat || negb (forallb is_alphabetic (take stop line)) then None else
  command ← str_from_utf8 (upper_byte <$> take stop line);
  if negb (existsb (String.eqb command) commands) then None else
  let arg := if (stop <? length line)%nat then drop (stop + 1) line else drop stop line in
  Some (command, arg).

(** Where the blank line that ends a header block starts. *)
Definition find_header_end (bytes : list Z) : option Z :=
  Z.of_nat <$> window_position [13; 10; 13; 10] bytes.

(** The lines of a header block; each round takes at least two bytes. *)
Fixpoint lines_from (fuel : nat) (rest : list Z) : list (list Z) :=
  match fuel with
  | O => [rest]
  | S fuel' =>
      match window_position [13; 10] rest with
      | Some pos => take pos rest :: lines_from fuel' (drop (pos + 2) rest)
      | None => [rest]
      end
  end.

Definition split_lines (block : list Z) : list (list Z) := lines_from (length block) block.

Definition trim_spaces (bytes : list Z) : list Z :=
  let start := default (length bytes) (position (fun b => negb (b =? 32)) bytes) in
  let stop := match rposition (fun b => negb (b =? 32)) bytes with Some p => (p + 1)%nat | None => start end in
  drop start (take stop bytes).

(** The first header of that name after the start line. *)
Definition header_value (lines : list (list Z)) (name : string) : option (list Z) :=
  find_map (fun line =>
    colon ← position (Z.eqb 58) line;
    if bool_decide (lower_byte <$> take colon line = lower_byte <$> str_bytes name)
    then Some (trim_spaces (drop 1 (drop colon line))) else None) (drop 1 lines).

(** ** Terminators *)

Lemma position_app p l t i : position p l = Some i -> position p (l ++ t) = Some i.
Proof.
  revert i. induction l as [|b l IH]; intros i; [done|]. cbn [position app]. destruct (p b); [done|].
  intros (j & Hj & ->)%fmap_Some. by rewrite (IH _ Hj).
Qed.

Lemma position_lt p l i : position p l = Some i -> (i < length l)%nat.
Proof.
  revert i. induction l as [|b l IH]; intros i; [done|]. cbn [position length]. destruct (p b).
  - intros [= <-]. lia.
  - intros (j & Hj%IH & ->)%fmap_Some. lia.
Qed.

Lemma window_position_spec pat l i :
  window_position pat l = Some i -> exists a b, l = a ++ pat ++ b /\ length a = i.
Proof.
  revert i. induction l as [|c l IH]; intros i; cbn [window_position];
    destruct (bool_decide _ && _) eqn:E.
  1, 3: intros [= <-]; apply andb_true_iff in E as [E%bool_decide_eq_true _]; eexists [], _;
    (split; [cbn [app]; rewrite <- E at 1; symmetry; apply take_drop|done]).
  - done.
  - intros (j & (a & b & -> & <-)%IH & ->)%fmap_Some. by exists (c :: a), b.
Qed.

Lemma window_position_lt pat l i : window_position pat l = Some i -> (i + length pat <= length l)%nat.
Proof. intros (a & b & -> & <-)%window_position_spec. rewrite !length_app. lia. Qed.

Lemma window_position_app pat l t i :
  window_position pat l = Some i -> window_position pat (l ++ t) = Some i.
Proof.
  revert i. induction l as [|c l IH]; intros i.
  - cbn [window_position]. destruct (bool_decide _ && _) eqn:E; [|done]. intros [= <-].
    apply andb_true_iff in E as [_ E]. destruct pat; [|done]. by destruct t.
  - cbn [app window_position]. change (c :: l ++ t) with ((c :: l) ++ t).
    destruct (bool_decide (take _ (c :: l) = _) && _) eqn:E.
    + intros [= <-]. apply andb_true_iff in E as [E%bool_decide_eq_true El%Nat.leb_le].
      rewrite take_app_le by done. rewrite length_app.
      rewrite bool_decide_true by done. rewrite (proj2 (Nat.leb_le _ _)) by lia. done.
    + intros (j & Hj & ->)%fmap_Some.
      destruct (bool_decide (take _ ((c :: l) ++ t) = _) && _) eqn:E'.
      * apply andb_true_iff in E' as [E'%bool_decide_eq_true El'%Nat.leb_le].
        apply window_position_lt in Hj. cbn [length] in *. 
        rewrite take_app_le in E' by (cbn [length]; lia).
        rewrite bool_decide_true in E by done. rewrite (proj2 (Nat.leb_le _ _)) in E by lia. done.
      * by rewrite (IH _ Hj).
Qed.

Lemma begins_with_length pre l : begins_with pre l = true -> 0 <= blen pre <= blen l.
Proof.
  intros Hb%bool_decide_eq_true. apply (f_equal length) in Hb. rewrite length_take in Hb. unfold blen. lia.
Qed.

Lemma begins_with_app pre l t : begins_with pre l = true -> begins_with pre (l ++ t) = true.
Proof.
  intros Hb. pose proof (begins_with_length _ _ Hb). apply bool_decide_eq_true in Hb. apply bool_decide_eq_true.
  rewrite take_app_le; [done|]. unfold blen in *. lia.
Qed.

(** What only begins so with more bytes is itself a part of [pre]. *)
Lemma begins_with_cut pre l t :
  begins_with pre l = false -> begins_with pre (l ++ t) = true ->
  l = take (length l) pre /\ (length l < length pre)%nat.
Proof.
  intros Hl%bool_decide_eq_false Hb%bool_decide_eq_true. assert (length l < length pre)%nat as Hlt.
  { apply Nat.nle_gt. intros Hle. apply Hl. by rewrite take_app_le in Hb by lia. }
  split; [|done]. rewrite <- Hb, take_take, take_app_le by lia. rewrite take_ge; [done|lia].
Qed.

(** What ends what it finds: once it is there, more bytes change nothing. *)
Class Terminated {H} (find : list Z -> option (H * Z)) : Prop := {
  term_inside : forall bytes h n, find bytes = Some (h, n) -> 0 <= n <= blen bytes;
  term_app : forall bytes t x, find bytes = Some x -> find (bytes ++ t) = Some x;
}.

#[export] Instance split_line_terminated : Terminated split_line.
Proof.
  constructor; unfold split_line.
  - intros bytes h n (nl & Hnl & [= <- <-])%bind_Some. apply position_lt in Hnl. unfold blen. lia.
  - intros bytes t x (nl & Hnl & Hx)%bind_Some. rewrite (position_app _ _ _ _ Hnl). cbn.
    apply position_lt in Hnl. rewrite !take_app_le by lia.
    rewrite lookup_app_l by lia. done.
Qed.

(** [find_header_end] and the block it ends. *)
Definition header_block (bytes : list Z) : option (list Z * Z) :=
  blank_pos ← find_header_end bytes; Some (take (Z.to_nat blank_pos) bytes, blank_pos + 4).

#[export] Instance header_block_terminated : Terminated header_block.
Proof.
  constructor; unfold header_block, find_header_end.
  - intros bytes h n (z & (i & Hi & ->)%fmap_Some & [= <- <-])%bind_Some.
    apply window_position_lt in Hi. cbn [length] in Hi. unfold blen. lia.
  - intros bytes t x (z & (i & Hi & ->)%fmap_Some & [= <-])%bind_Some.
    rewrite (window_position_app _ _ _ _ Hi). cbn. apply window_position_lt in Hi. cbn [length] in Hi.
    rewrite Nat2Z.id, take_app_le by lia. done.
Qed.

(** The lines of a block put together again are the block. *)
Fixpoint unlines (lines : list (list Z)) : list Z :=
  match lines with
  | [] => []
  | [l] => l
  | l :: lines' => l ++ [13; 10] ++ unlines lines'
  end.

Lemma lines_from_cons fuel rest : exists l ls, lines_from fuel rest = l :: ls.
Proof. destruct fuel; simpl; [by eauto|]. case_match; eauto. Qed.

Lemma lines_from_unlines fuel rest : unlines (lines_from fuel rest) = rest.
Proof.
  revert rest. induction fuel as [|fuel IH]; intros rest; [done|]. cbn [lines_from].
  destruct (window_position [13; 10] rest) as [i|] eqn:Hi; [|done].
  apply window_position_spec in Hi as (a & b & -> & <-).
  destruct (lines_from_cons fuel (drop (length a + 2) (a ++ [13; 10] ++ b))) as (l & ls & E).
  pose proof (IH (drop (length a + 2) (a ++ [13; 10] ++ b))) as IH'. rewrite E in IH' |- *.
  change (unlines (?x :: l :: ls)) with (x ++ [13; 10] ++ unlines (l :: ls)). rewrite IH'.
  rewrite take_app_length, drop_app_ge, drop_app_ge by (cbn [length]; lia).
  do 2 f_equal. cbn [length]. replace (length a + 2 - length a - 2)%nat with 0%nat by lia. done.
Qed.

(** No line holds a line end. *)
Lemma lines_from_whole fuel rest :
  (length rest <= fuel)%nat -> Forall (fun l => window_position [13; 10] l = None) (lines_from fuel rest).
Proof.
  revert rest. induction fuel as [|fuel IH]; intros rest Hl; cbn [lines_from].
  { destruct rest; [|simpl in Hl; lia]. by repeat constructor. }
  destruct (window_position [13; 10] rest) as [i|] eqn:Hi; [|by repeat constructor].
  pose proof (window_position_lt _ _ _ Hi) as Hlt. cbn [length] in Hlt.
  constructor; [|apply IH; rewrite length_drop; lia].
  destruct (window_position [13; 10] (take i rest)) as [j|] eqn:Hj; [exfalso|done].
  pose proof (window_position_lt _ _ _ Hj) as Hjl. cbn [length] in Hjl. rewrite length_take in Hjl.
  apply (window_position_app _ _ (drop i rest)) in Hj. rewrite take_drop in Hj. simplify_eq. lia.
Qed.

Lemma split_lines_spec block :
  unlines (split_lines block) = block /\
  Forall (fun l => window_position [13; 10] l = None) (split_lines block).
Proof. split; [apply lines_from_unlines|by apply lines_from_whole]. Qed.

(** ** Dissectors of what ends somewhere *)

Section Ended.
Context {H X : Type} (p : LayerPlugin) (find : list Z -> option (H * Z)) (look : H -> result X ParseError).
Context (layer : ParseCtx -> Z * X -> ParsedLayer) (id : option StreamIdentity).
Context `{!Terminated find}.

Definition ended_core (bytes : list Z) (ctx : ParseCtx) : result (Z * X) ParseError :=
  let! (h, n) := ok_or (find bytes) (unterminated bytes) in
  let! x := look h in
  Ok (n, x).

Lemma ended_inv bytes c n x :
  ended_core bytes c = Ok (n, x) -> exists h, find bytes = Some (h, n) /\ look h = Ok x.
Proof.
  unfold ended_core. rewrite result_bind_Ok. intros ([h k] & Hf & Hx).
  apply result_bind_Ok in Hx as (y & Hy & Hn). destruct (find bytes) as [[h' k']|] eqn:?; simplify_eq/=. eauto.
Qed.

Lemma ended_inside bytes c n x : ended_core bytes c = Ok (n, x) -> 0 <= n <= blen bytes.
Proof. intros (h & Hf & _)%ended_inv. by apply (term_inside _ _ _ Hf). Qed.

Lemma ended_app b t c x : ended_core b c = Ok x -> ended_core (b ++ t) c = Ok x.
Proof.
  destruct x as [n x]. intros (h & Hf & Hx)%ended_inv. unfold ended_core.
  rewrite (term_app _ t _ Hf). cbn. by rewrite Hx.
Qed.

Lemma ended_conformant :
  Layered p ended_core layer id -> stream_identity p = id -> Conformant p.
Proof.
  intros Hl Hid. constructor.
  - exact (layered_framed _ ended_core layer id).
  - exact (layered_keyed _ ended_core layer id Hid).
  - apply (layered_declining _ ended_core layer id). intros b t c x Hx. exists x. split; [by apply ended_app|done].
Qed.
End Ended.
