(* ===== verification/PlugRouting.v ===== *)
(** * First-hop and routing-protocol dissectors

    Models [hsrp.rs], [vrrp.rs], [ospf.rs] and [bgp.rs] of [crates/pktflow-plugins/src]. *)

From S2P Require Import Prelude Values Bytes Types Contract PlugKit PlugScan.
Local Open Scope reader_scope.

Module Hsrp.

Definition GROUP : FieldName := "group".
Definition VERSION : FieldName := "version".
Definition OPCODE : FieldName := "opcode".
Definition STATE : FieldName := "state".
Definition PRIORITY : FieldName := "priority".
Definition HELLOTIME : FieldName := "hellotime".
Definition HOLDTIME : FieldName := "holdtime".
Definition VIRTUAL_IP : FieldName := "virtual_ip".
Definition AUTH_DATA : FieldName := "auth_data".
Definition VERSION_1 : Z := 0.
Definition HEADER_LEN : Z := 20.
Definition AUTH_DATA_LEN : Z := 8.
Definition VIRTUAL_IP_LEN : Z := 4.

Definition KEY : list KeyField := [mkKeyField GROUP None].
Definition ROLLUPS : list RollupSpec :=
  [mkRollupSpec STATE RK_Accumulate; mkRollupSpec PRIORITY RK_Accumulate].
Definition IDENTITY : StreamIdentity := {|
  key := KEY;
  canonicalize := EndpointSort;
  lifecycle := None;
  rollups := ROLLUPS |}.

Definition header (ctx : ParseCtx) : reader ParseError ParsedLayer :=
  let? version := ByteReader.u8 in
  if negb (version =? VERSION_1) then rfail (PE_Malformed "HSRP: unsupported version") else
  let? opcode := ByteReader.u8 in
  let? state := ByteReader.u8 in
  let? hellotime := ByteReader.u8 in
  let? holdtime := ByteReader.u8 in
  let? priority := ByteReader.u8 in
  let? group := ByteReader.u8 in
  let? _reserved := ByteReader.u8 in
  let? auth_data := ByteReader.take AUTH_DATA_LEN in
  let? virtual_ip := ByteReader.take VIRTUAL_IP_LEN in
  let fields := FieldMap.new in
  let fields := insert_at ctx DKeys [(GROUP, VU64 group)] fields in
  let fields := insert_at ctx DStructural
    [(VERSION, VU64 version); (OPCODE, VU64 opcode); (STATE, VU64 state);
     (PRIORITY, VU64 priority); (HELLOTIME, VU64 hellotime); (HOLDTIME, VU64 holdtime)] fields in
  let fields := insert_at ctx DFull
    [(VIRTUAL_IP, Value_from_slice virtual_ip); (AUTH_DATA, Value_from_slice auth_data)] fields in
  rret {| pl_header_len := HEADER_LEN; pl_fields := fields; pl_hint := Hint_Terminal |}.

Definition plugin : LayerPlugin := {|
  name := "hsrp";
  parse := fun bytes ctx => run_reader (header ctx) bytes;
  claims := [UdpPort 1985];
  expected_predecessors := [];
  has_probe := false;
  probe := fun _ _ => None;
  stream_identity := Some IDENTITY;
  condense := None |}.

#[export] Instance disciplined : Disciplined (Some IDENTITY) (fun _ => header).
Proof. discipline ltac:(unfold header, HEADER_LEN, AUTH_DATA_LEN, VIRTUAL_IP_LEN). Qed.

#[global] Instance conformant : Conformant plugin.
Proof. exact (dissector_conformant plugin (fun _ => header) (fun _ _ => eq_refl) disciplined). Qed.

End Hsrp.

Module Vrrp.

Definition VRID : FieldName := "vrid".
Definition VERSION : FieldName := "version".
Definition TYPE : FieldName := "type".
Definition PRIORITY : FieldName := "priority".
Definition COUNT_IP_ADDRS : FieldName := "count_ip_addrs".
Definition ADVER_INT : FieldName := "adver_int".
Definition IP_ADDRESSES : FieldName := "ip_addresses".
Definition TYPE_ADVERTISEMENT : Z := 1.
Definition V2_AUTH_DATA_LEN : Z := 8.

Definition KEY : list KeyField := [mkKeyField VRID None].
Definition ROLLUPS : list RollupSpec :=
  [mkRollupSpec PRIORITY RK_Accumulate].
Definition IDENTITY : StreamIdentity := {|
  key := KEY;
  canonicalize := EndpointSort;
  lifecycle := None;
  rollups := ROLLUPS |}.

Definition address_len (version : Z) (ctx : ParseCtx) : Z :=
  if (version =? 3) && bool_decide (protocol <$> ctx_prev ctx = Some "ipv6"%string) then 16 else 4.

Definition header (ctx : ParseCtx) : reader ParseError ParsedLayer :=
  let? version_type := ByteReader.u8 in
  let version := Z.shiftr version_type 4 in
  let vrrp_type := Z.land version_type 0x0F in
  if negb (version =? 2) && negb (version =? 3)
  then rfail (PE_Malformed "VRRP: unsupported version") else
  if negb (vrrp_type =? TYPE_ADVERTISEMENT)
  then rfail (PE_Malformed "VRRP: unknown packet type") else
  let? vrid := ByteReader.u8 in
  let? priority := ByteReader.u8 in
  let? count_ip_addrs := ByteReader.u8 in
  let? adver_int :=
    if version =? 2
    then let? _auth_type := ByteReader.u8 in ByteReader.u8
    else let? word := ByteReader.u16_be in rret (Z.land word 0x0FFF) in
  let? _checksum := ByteReader.u16_be in
  let addr_len := address_len version ctx in
  let? ip_addresses := read_times (Z.to_nat count_ip_addrs) (ByteReader.take addr_len) in
  let? _auth_data := if version =? 2 then ByteReader.take V2_AUTH_DATA_LEN else rret [] in
  let fields := FieldMap.new in
  let fields := insert_at ctx DKeys [(VRID, VU64 vrid)] fields in
  let fields := insert_at ctx DStructural
    [(VERSION, VU64 version); (TYPE, VU64 vrrp_type); (PRIORITY, VU64 priority);
     (COUNT_IP_ADDRS, VU64 count_ip_addrs); (ADVER_INT, VU64 adver_int)] fields in
  let fields := insert_at ctx DFull
    [(IP_ADDRESSES, VList (map Value_from_slice ip_addresses))] fields in
  let? used := consumed in
  rret {| pl_header_len := used; pl_fields := fields; pl_hint := Hint_Terminal |}.

Definition plugin : LayerPlugin := {|
  name := "vrrp";
  parse := fun bytes ctx => run_reader (header ctx) bytes;
  claims := [IpProtocol 112];
  expected_predecessors := [];
  has_probe := false;
  probe := fun _ _ => None;
  stream_identity := Some IDENTITY;
  condense := None |}.

#[export] Instance disciplined : Disciplined (Some IDENTITY) (fun _ => header).
Proof. discipline ltac:(unfold header, V2_AUTH_DATA_LEN). Qed.

#[global] Instance conformant : Conformant plugin.
Proof. exact (dissector_conformant plugin (fun _ => header) (fun _ _ => eq_refl) disciplined). Qed.

End Vrrp.

Module Ospf.

Definition VERSION : FieldName := "version".
Definition TYPE : FieldName := "type".
Definition PACKET_LENGTH : FieldName := "packet_length".
Definition ROUTER_ID : FieldName := "router_id".
Definition AREA_ID : FieldName := "area_id".
Definition HELLO_INTERVAL : FieldName := "hello_interval".
Definition ROUTER_DEAD_INTERVAL : FieldName := "router_dead_interval".
Definition DESIGNATED_ROUTER : FieldName := "designated_router".
Definition NEIGHBORS : FieldName := "neighbors".
Definition INTERFACE_MTU : FieldName := "interface_mtu".
Definition DD_SEQUENCE : FieldName := "dd_sequence".
Definition LSA_HEADERS : FieldName := "lsa_headers".
Definition HELLO : Z := 1.
Definition DATABASE_DESCRIPTION : Z := 2.
Definition LINK_STATE_UPDATE : Z := 4.
Definition V2_AUTH_LEN : Z := 8.
Definition LSA_HEADER_LEN : Z := 20.

(** The locals of the body walk. *)
Record Body := mkBody {
  hello_interval : option Z;
  router_dead_interval : option Z;
  designated_router : option (list Z);
  neighbors : list Value;
  interface_mtu : option Z;
  dd_sequence : option Z;
  lsa_headers : list Value;
}.

Definition no_body : Body := mkBody None None None [] None None [].

Definition neighbor_round (l : list Value) : reader ParseError (list Value + list Value) :=
  let? neighbor := ByteReader.take 4 in
  rret (inl (l ++ [Value_from_slice neighbor])).

Definition v2_hello : reader ParseError Body :=
  let? _network_mask := ByteReader.take 4 in
  let? hello_interval := ByteReader.u16_be in
  let? _options := ByteReader.u8 in
  let? _rtr_pri := ByteReader.u8 in
  let? router_dead_interval := ByteReader.u32_be in
  let? designated_router := ByteReader.take 4 in
  let? _backup_designated_router := ByteReader.take 4 in
  let? neighbors := while_left neighbor_round [] in
  rret (mkBody (Some hello_interval) (Some router_dead_interval) (Some designated_router)
          neighbors None None []).

Definition v3_hello : reader ParseError Body :=
  let? _interface_id := ByteReader.u32_be in
  let? _rtr_pri := ByteReader.u8 in
  let? _options := ByteReader.take 3 in
  let? hello_interval := ByteReader.u16_be in
  let? router_dead_interval := ByteReader.u16_be in
  let? designated_router := ByteReader.take 4 in
  let? _backup_designated_router := ByteReader.take 4 in
  let? neighbors := while_left neighbor_round [] in
  rret (mkBody (Some hello_interval) (Some router_dead_interval) (Some designated_router)
          neighbors None None []).

Definition v2_description : reader ParseError Body :=
  let? interface_mtu := ByteReader.u16_be in
  let? _options := ByteReader.u8 in
  let? _bits := ByteReader.u8 in
  let? dd_sequence := ByteReader.u32_be in
  rret (mkBody None None None [] (Some interface_mtu) (Some dd_sequence) []).

Definition v3_description : reader ParseError Body :=
  let? _reserved1 := ByteReader.u8 in
  let? _options := ByteReader.take 3 in
  let? interface_mtu := ByteReader.u16_be in
  let? _reserved2 := ByteReader.u8 in
  let? _bits := ByteReader.u8 in
  let? dd_sequence := ByteReader.u32_be in
  rret (mkBody None None None [] (Some interface_mtu) (Some dd_sequence) []).

Definition lsa_length : reader ParseError Z :=
  let? _age := ByteReader.u16_be in
  let? _type_field := ByteReader.u16_be in
  let? _link_state_id := ByteReader.take 4 in
  let? _advertising_router := ByteReader.take 4 in
  let? _sequence := ByteReader.u32_be in
  let? _checksum := ByteReader.u16_be in
  let? length := ByteReader.u16_be in
  rret length.

(** [for _ in 0..num_lsas]: the rounds left and the headers so far. *)
Definition lsa_round (s : Z * list Value) : reader ParseError ((Z * list Value) + list Value) :=
  let '(rounds, lsa_headers) := s in
  if rounds =? 0 then rret (inr lsa_headers) else
  let? header := ByteReader.take LSA_HEADER_LEN in
  let? length := within header lsa_length in
  if length <? LSA_HEADER_LEN
  then rfail (PE_Malformed "OSPF: LSA length shorter than its own header") else
  let? _body := ByteReader.take (length - LSA_HEADER_LEN) in
  rret (E:=ParseError) (inl (rounds - 1, lsa_headers ++ [Value_from_slice header])).

Definition link_state_update : reader ParseError Body :=
  let? num_lsas := ByteReader.u32_be in
  let? lsa_headers := read_loop (PE_Malformed "unreachable") lsa_round (num_lsas, []) in
  rret (mkBody None None None [] None None lsa_headers).

Definition read_body (version msg_type : Z) : reader ParseError Body :=
  if (msg_type =? HELLO) && (version =? 2) then v2_hello
  else if msg_type =? HELLO then v3_hello
  else if (msg_type =? DATABASE_DESCRIPTION) && (version =? 2) then v2_description
  else if msg_type =? DATABASE_DESCRIPTION then v3_description
  else if msg_type =? LINK_STATE_UPDATE then link_state_update
  else rret no_body.

(** What the second reader, over the message only, finds. *)
Definition read_message (version msg_type : Z) : reader ParseError (list Z * list Z * Body) :=
  let? router_id := ByteReader.take 4 in
  let? area_id := ByteReader.take 4 in
  let? _checksum := ByteReader.u16_be in
  let? _auth :=
    if version =? 2
    then let? _autype := ByteReader.u16_be in ByteReader.take V2_AUTH_LEN
    else let? _instance_id := ByteReader.u8 in let? _reserved := ByteReader.u8 in rret [] in
  let? b := read_body version msg_type in
  rret (E:=ParseError) (router_id, area_id, b).

Definition body_fields (msg_type : Z) (b : Body) : list (FieldName * Value) :=
  when_some (hello_interval b) HELLO_INTERVAL VU64 ++
  when_some (router_dead_interval b) ROUTER_DEAD_INTERVAL VU64 ++
  when_some (designated_router b) DESIGNATED_ROUTER Value_from_slice ++
  (if msg_type =? HELLO then [(NEIGHBORS, VList (neighbors b))] else []) ++
  when_some (interface_mtu b) INTERFACE_MTU VU64 ++
  when_some (dd_sequence b) DD_SEQUENCE VU64 ++
  (if msg_type =? LINK_STATE_UPDATE then [(LSA_HEADERS, VList (lsa_headers b))] else []).

Definition header (ctx : ParseCtx) : reader ParseError ParsedLayer :=
  let? version := ByteReader.u8 in
  if negb (version =? 2) && negb (version =? 3)
  then rfail (PE_Malformed "OSPF: unsupported version") else
  let? msg_type := ByteReader.u8 in
  let? packet_length := ByteReader.u16_be in
  if packet_length <? 4
  then rfail (PE_Malformed "OSPF: packet_length shorter than the common header prefix") else
  let? body := ByteReader.take (packet_length - 4) in
  let? (router_id, area_id, b) := within body (read_message version msg_type) in
  let fields := FieldMap.new in
  let fields := insert_at ctx DStructural
    [(VERSION, VU64 version); (TYPE, VU64 msg_type); (PACKET_LENGTH, VU64 packet_length);
     (ROUTER_ID, Value_from_slice router_id); (AREA_ID, Value_from_slice area_id)] fields in
  let fields := insert_at ctx DFull (body_fields msg_type b) fields in
  rret {| pl_header_len := packet_length; pl_fields := fields; pl_hint := Hint_Terminal |}.

Definition plugin : LayerPlugin := {|
  name := "ospf";
  parse := fun bytes ctx => run_reader (header ctx) bytes;
  claims := [IpProtocol 89];
  expected_predecessors := [];
  has_probe := false;
  probe := fun _ _ => None;
  stream_identity := None;
  condense := None |}.

(** The loops over neighbours and LSAs end with the message. *)
#[export] Instance neighbor_progresses : Progresses neighbor_round.
Proof. progress_round ltac:(unfold neighbor_round). Qed.

#[export] Instance lsa_progresses : Progresses lsa_round.
Proof. progress_round ltac:(unfold lsa_round, LSA_HEADER_LEN). Qed.

#[export] Instance disciplined : Disciplined None (fun _ => header).
Proof. discipline ltac:(unfold header). Qed.

#[global] Instance conformant : Conformant plugin.
Proof. exact (dissector_conformant plugin (fun _ => header) (fun _ _ => eq_refl) disciplined). Qed.

End Ospf.

Module Bgp.

Definition APP : FieldName := "app".
Definition MSG_TYPE : FieldName := "msg_type".
Definition LENGTH : FieldName := "length".
Definition MY_AS : FieldName := "my_as".
Definition HOLD_TIME : FieldName := "hold_time".
Definition BGP_IDENTIFIER : FieldName := "bgp_identifier".
Definition WITHDRAWN_ROUTES : FieldName := "withdrawn_routes".
Definition NLRI : FieldName := "nlri".
Definition NEXT_HOP : FieldName := "next_hop".
Definition MARKER_LEN : Z := 16.
Definition HEADER_LEN : Z := 19.
Definition MAX_LENGTH : Z := 4096.
Definition TYPE_OPEN : Z := 1.
Definition TYPE_UPDATE : Z := 2.
Definition BGP_VERSION_4 : Z := 4.
Definition ATTR_EXTENDED_LENGTH : Z := 0x10.
Definition ATTR_NEXT_HOP : Z := 3.
Definition ATTR_MP_REACH_NLRI : Z := 14.

Definition KEY : list KeyField := [mkKeyField APP None].
Definition ROLLUPS : list RollupSpec :=
  [mkRollupSpec MSG_TYPE RK_Accumulate; mkRollupSpec MY_AS RK_Sample].
Definition IDENTITY : StreamIdentity := {|
  key := KEY;
  canonicalize := EndpointSort;
  lifecycle := None;
  rollups := ROLLUPS |}.

Definition prefix_round (out : list Value) : reader ParseError (list Value + list Value) :=
  let? prefix_len_bits := ByteReader.u8 in
  let prefix_byte_len := (prefix_len_bits + 7) / 8 in
  if 4 <? prefix_byte_len then rfail (PE_Malformed "BGP: prefix length exceeds 32 bits") else
  let? addr := ByteReader.take prefix_byte_len in
  rret (E:=ParseError) (inl (out ++ [Value_from_slice (prefix_len_bits :: addr)])).

Definition parse_prefix_list (bytes : list Z) : result (list Value) ParseError :=
  walk_slice prefix_round [] bytes.

Definition read_next_hop : reader ParseError (list Z) :=
  let? _afi := ByteReader.u16_be in
  let? _safi := ByteReader.u8 in
  let? nh_len := ByteReader.u8 in
  let? next_hop := ByteReader.take nh_len in
  rret next_hop.

Definition mp_reach_next_hop (value : list Z) : option (list Z) :=
  ok_of (run_reader read_next_hop value).

Definition attribute_round (next_hop : option (list Z)) :
    reader ParseError (option (list Z) + option (list Z)) :=
  let? flags := ByteReader.u8 in
  let? type_code := ByteReader.u8 in
  let? length := if flag flags ATTR_EXTENDED_LENGTH then ByteReader.u16_be else ByteReader.u8 in
  let? value := ByteReader.take length in
  rret (E:=ParseError) (inl (
    if is_none next_hop then
      if type_code =? ATTR_NEXT_HOP then Some value
      else if type_code =? ATTR_MP_REACH_NLRI then mp_reach_next_hop value
      else next_hop
    else next_hop)).

Definition extract_next_hop (bytes : list Z) : result (option (list Z)) ParseError :=
  walk_slice attribute_round None bytes.

Record Body := mkBody {
  my_as : option Z;
  hold_time : option Z;
  bgp_identifier : option (list Z);
  withdrawn_routes : list Value;
  nlri : list Value;
  next_hop : option (list Z);
}.

Definition read_open : reader ParseError Body :=
  let? version := ByteReader.u8 in
  if negb (version =? BGP_VERSION_4)
  then rfail (PE_Malformed "BGP: unsupported OPEN version") else
  let? as_num := ByteReader.u16_be in
  let? ht := ByteReader.u16_be in
  let? identifier := ByteReader.take 4 in
  let? opt_parm_len := ByteReader.u8 in
  let? _parameters := ByteReader.take opt_parm_len in
  rret (E:=ParseError) (mkBody (Some as_num) (Some ht) (Some identifier) [] [] None).

Definition read_update : reader ParseError Body :=
  let? withdrawn_len := ByteReader.u16_be in
  let? withdrawn_bytes := ByteReader.take withdrawn_len in
  let? withdrawn_routes := of_result (parse_prefix_list withdrawn_bytes) in
  let? path_attr_len := ByteReader.u16_be in
  let? path_attrs := ByteReader.take path_attr_len in
  let? next_hop := of_result (extract_next_hop path_attrs) in
  let? left_over := remaining (E:=ParseError) in
  let? nlri_bytes := ByteReader.take left_over in
  let? nlri := of_result (parse_prefix_list nlri_bytes) in
  rret (E:=ParseError) (mkBody None None None withdrawn_routes nlri next_hop).

Definition read_body (msg_type : Z) (body : list Z) : reader ParseError Body :=
  if msg_type =? TYPE_OPEN then within body read_open
  else if msg_type =? TYPE_UPDATE then within body read_update
  else rret (mkBody None None None [] [] None).

Definition body_fields (msg_type : Z) (b : Body) : list (FieldName * Value) :=
  when_some (my_as b) MY_AS VU64 ++ when_some (hold_time b) HOLD_TIME VU64 ++
  when_some (bgp_identifier b) BGP_IDENTIFIER Value_from_slice ++
  (if msg_type =? TYPE_UPDATE then
     [(WITHDRAWN_ROUTES, VList (withdrawn_routes b)); (NLRI, VList (nlri b))] ++
     when_some (next_hop b) NEXT_HOP Value_from_slice
   else []).

Definition header (ctx : ParseCtx) : reader ParseError ParsedLayer :=
  let? _marker := ByteReader.take MARKER_LEN in
  let? length := ByteReader.u16_be in
  let? msg_type := ByteReader.u8 in
  if negb ((HEADER_LEN <=? length) && (length <=? MAX_LENGTH))
  then rfail (PE_Malformed "BGP: length out of range") else
  let? body := ByteReader.take (length - HEADER_LEN) in
  let? b := read_body msg_type body in
  let fields := FieldMap.new in
  let fields := insert_at ctx DKeys [(APP, Value_from_str "bgp")] fields in
  let fields := insert_at ctx DStructural
    [(MSG_TYPE, VU64 msg_type); (LENGTH, VU64 length)] fields in
  let fields := insert_at ctx DFull (body_fields msg_type b) fields in
  rret {| pl_header_len := length; pl_fields := fields; pl_hint := Hint_Terminal |}.

Definition plugin : LayerPlugin := {|
  name := "bgp";
  parse := fun bytes ctx => run_reader (header ctx) bytes;
  claims := [TcpPort 179];
  expected_predecessors := [];
  has_probe := false;
  probe := fun _ _ => None;
  stream_identity := Some IDENTITY;
  condense := None |}.

(** The walks over prefixes and attributes end with their bytes. *)
#[export] Instance prefix_progresses : Progresses prefix_round.
Proof. progress_round ltac:(unfold prefix_round). Qed.

#[export] Instance attribute_progresses : Progresses attribute_round.
Proof. progress_round ltac:(unfold attribute_round). Qed.

#[export] Instance disciplined : Disciplined (Some IDENTITY) (fun _ => header).
Proof. discipline ltac:(unfold header, read_body, MARKER_LEN, HEADER_LEN). Qed.

#[global] Instance conformant : Conformant plugin.
Proof. exact (dissector_conformant plugin (fun _ => header) (fun _ _ => eq_refl) disciplined). Qed.

End Bgp.
