(* ===== verification/PlugCarrier.v ===== *)
(** * Carrier, transport-network and media dissectors

    Models [sctp.rs], [gtp_u.rs], [gtp_c.rs], [l2tpv3.rs], [rtp.rs] and
    [rtcp.rs] of [crates/pktflow-plugins/src]. *)

From S2P Require Import Prelude Values Bytes Utf8 Text Types Contract PlugKit PlugScan.
Local Open Scope reader_scope.

Module Sctp.

Definition SRC_PORT : FieldName := "src_port".
Definition DST_PORT : FieldName := "dst_port".
Definition VERIFICATION_TAG : FieldName := "verification_tag".
Definition FIRST_CHUNK_TYPE : FieldName := "first_chunk_type".
Definition INITIATE_TAG : FieldName := "initiate_tag".
Definition A_RWND : FieldName := "a_rwnd".
Definition NUM_OUTBOUND_STREAMS : FieldName := "num_outbound_streams".
Definition NUM_INBOUND_STREAMS : FieldName := "num_inbound_streams".
Definition INITIAL_TSN : FieldName := "initial_tsn".
Definition COMMON_HEADER_LEN : Z := 12.
Definition CHUNK_HEADER_LEN : Z := 4.
Definition INIT_FIXED_LEN : Z := 16.
Definition TYPE_INIT : Z := 1.
Definition TYPE_INIT_ACK : Z := 2.
Definition TYPE_ABORT : Z := 6.
Definition TYPE_SHUTDOWN : Z := 7.
Definition TYPE_SHUTDOWN_ACK : Z := 8.
Definition TYPE_COOKIE_ECHO : Z := 10.
Definition TYPE_COOKIE_ACK : Z := 11.
Definition TYPE_SHUTDOWN_COMPLETE : Z := 14.

Definition KEY : list KeyField := [mkKeyField SRC_PORT (Some DST_PORT)].
Definition ROLLUPS : list RollupSpec :=
  [mkRollupSpec FIRST_CHUNK_TYPE RK_Accumulate].

(** The association's state after a chunk, in the order of the [match]'s arms. *)
Definition next_state (chunk_type : Z) (state : StateName) : StateName :=
  if chunk_type =? TYPE_ABORT then "aborted"
  else if String.eqb state "new" then
    if chunk_type =? TYPE_INIT then "init_sent" else "established_midstream"
  else if String.eqb state "init_sent" && (chunk_type =? TYPE_INIT_ACK) then "cookie_wait"
  else if String.eqb state "cookie_wait" && (chunk_type =? TYPE_COOKIE_ECHO) then "cookie_echoed"
  else if String.eqb state "cookie_echoed" && (chunk_type =? TYPE_COOKIE_ACK) then "established"
  else if (String.eqb state "established" || String.eqb state "established_midstream") &&
          (chunk_type =? TYPE_SHUTDOWN) then "shutdown_pending"
  else if String.eqb state "shutdown_pending" &&
          ((chunk_type =? TYPE_SHUTDOWN_ACK) || (chunk_type =? TYPE_SHUTDOWN_COMPLETE)) then "closed"
  else state.

(** [u8::try_from(chunk_type).unwrap_or(u8::MAX)]. *)
Definition advance (fields : FieldMap.t) (state : StateName) (_dir : PacketDirection) : StateName :=
  match FieldMap.get FIRST_CHUNK_TYPE fields with
  | Some (VU64 chunk_type) => next_state (if chunk_type <? 256 then chunk_type else 255) state
  | _ => state
  end.

Definition LIFECYCLE : LifecycleSpec := {|
  initial := "new";
  Types.advance := advance;
  closed_states := ["closed"; "aborted"]%string |}.
Definition IDENTITY : StreamIdentity := {|
  key := KEY;
  canonicalize := EndpointSort;
  lifecycle := Some LIFECYCLE;
  rollups := ROLLUPS |}.

Definition read_init_fixed : reader ParseError (Z * Z * Z * Z * Z) :=
  let? initiate_tag := ByteReader.u32_be in
  let? a_rwnd := ByteReader.u32_be in
  let? num_outbound := ByteReader.u16_be in
  let? num_inbound := ByteReader.u16_be in
  let? initial_tsn := ByteReader.u32_be in
  rret (initiate_tag, a_rwnd, num_outbound, num_inbound, initial_tsn).

Definition init_fields (i : Z * Z * Z * Z * Z) : list (FieldName * Value) :=
  let '(initiate_tag, a_rwnd, num_outbound, num_inbound, initial_tsn) := i in
  [(INITIATE_TAG, VU64 initiate_tag); (A_RWND, VU64 a_rwnd);
   (NUM_OUTBOUND_STREAMS, VU64 num_outbound); (NUM_INBOUND_STREAMS, VU64 num_inbound);
   (INITIAL_TSN, VU64 initial_tsn)].

Definition header (ctx : ParseCtx) : reader ParseError ParsedLayer :=
  let? src_port := ByteReader.u16_be in
  let? dst_port := ByteReader.u16_be in
  let? verification_tag := ByteReader.u32_be in
  let? _checksum := ByteReader.u32_be in
  let? chunk_type := ByteReader.u8 in
  let? _chunk_flags := ByteReader.u8 in
  let? chunk_length := ByteReader.u16_be in
  if chunk_length <? CHUNK_HEADER_LEN
  then rfail (PE_Malformed "chunk length below the 4-byte chunk header") else
  let value_len := chunk_length - CHUNK_HEADER_LEN in
  let? value := ByteReader.take value_len in
  let is_init_family := (chunk_type =? TYPE_INIT) || (chunk_type =? TYPE_INIT_ACK) in
  let? init_fixed :=
    if is_init_family then
      if blen value <? INIT_FIXED_LEN
      then rfail (PE_Malformed "INIT/INIT-ACK chunk shorter than its fixed fields")
      else let? i := within value read_init_fixed in rret (E:=ParseError) (Some i)
    else rret None in
  let fields := FieldMap.new in
  let fields := insert_at ctx DKeys
    [(SRC_PORT, VU64 src_port); (DST_PORT, VU64 dst_port)] fields in
  let fields := insert_at ctx DStructural
    [(VERIFICATION_TAG, VU64 verification_tag); (FIRST_CHUNK_TYPE, VU64 chunk_type)] fields in
  let fields := insert_at ctx DFull (from_option init_fields [] init_fixed) fields in
  rret {| pl_header_len := COMMON_HEADER_LEN + chunk_length; pl_fields := fields;
          pl_hint := Hint_Terminal |}.

Definition plugin : LayerPlugin := {|
  name := "sctp";
  parse := fun bytes ctx => run_reader (header ctx) bytes;
  claims := [IpProtocol 132];
  expected_predecessors := ["ipv4"; "ipv6"]%string;
  has_probe := false;
  probe := fun _ _ => None;
  stream_identity := Some IDENTITY;
  condense := None |}.

#[export] Instance disciplined : Disciplined (Some IDENTITY) (fun _ => header).
Proof. discipline ltac:(unfold header, COMMON_HEADER_LEN, CHUNK_HEADER_LEN). Qed.

#[global] Instance conformant : Conformant plugin.
Proof. exact (dissector_conformant plugin (fun _ => header) (fun _ _ => eq_refl) disciplined). Qed.

End Sctp.

Module GtpU.

Definition TEID : FieldName := "teid".
Definition MESSAGE_TYPE : FieldName := "message_type".
Definition FLAGS : FieldName := "flags".
Definition LENGTH : FieldName := "length".
Definition SEQUENCE_NUMBER : FieldName := "sequence_number".
Definition VERSION_MASK : Z := 0xE0.
Definition VERSION_SHIFT : Z := 5.
Definition GTP_VERSION_1 : Z := 1.
Definition PT_BIT : Z := 0x10.
Definition E_BIT : Z := 0x04.
Definition S_BIT : Z := 0x02.
Definition PN_BIT : Z := 0x01.
Definition MSG_GPDU : Z := 255.

Definition KEY : list KeyField := [mkKeyField TEID None].
Definition ROLLUPS : list RollupSpec :=
  [mkRollupSpec MESSAGE_TYPE RK_Accumulate].
Definition IDENTITY : StreamIdentity := {|
  key := KEY;
  canonicalize := EndpointSort;
  lifecycle := None;
  rollups := ROLLUPS |}.

(** [while next_ext_type != 0]: the state is [(next_ext_type, header_len)]. *)
Definition extension_round (s : Z * Z) : reader ParseError ((Z * Z) + Z) :=
  let '(next_ext_type, header_len) := s in
  if next_ext_type =? 0 then rret (inr header_len) else
  let? length_words := ByteReader.u8 in
  if length_words =? 0 then rfail (PE_Malformed "GTP-U: zero-length extension header") else
  let record_len := length_words * 4 in
  let? _content := ByteReader.take (record_len - 2) in
  let? next_ext_type := ByteReader.u8 in
  rret (E:=ParseError) (inl (next_ext_type, header_len + record_len)).

Definition walk_extensions (next_ext_type header_len : Z) : reader ParseError Z :=
  read_loop (PE_Malformed "unreachable") extension_round (next_ext_type, header_len).

Definition header (ctx : ParseCtx) : reader ParseError ParsedLayer :=
  let? flags_octet := ByteReader.u8 in
  let version := Z.shiftr (Z.land flags_octet VERSION_MASK) VERSION_SHIFT in
  if negb (version =? GTP_VERSION_1) then rfail (PE_Malformed "GTP-U: unsupported version") else
  if negb (flag flags_octet PT_BIT)
  then rfail (PE_Malformed "GTP-U: PT bit selects GTP', not GTP") else
  let? message_type := ByteReader.u8 in
  let? length := ByteReader.u16_be in
  let? teid := ByteReader.u32_be in
  let? (header_len, sequence_number) :=
    if flag flags_octet (Z.lor E_BIT (Z.lor S_BIT PN_BIT)) then
      let? seq := ByteReader.u16_be in
      let? _n_pdu_number := ByteReader.u8 in
      let? next_ext_type := ByteReader.u8 in
      let? header_len := walk_extensions next_ext_type (8 + 4) in
      rret (E:=ParseError) (header_len, if flag flags_octet S_BIT then Some seq else None)
    else rret (8, None) in
  let fields := FieldMap.new in
  let fields := insert_at ctx DKeys [(TEID, VU64 teid)] fields in
  let fields := insert_at ctx DStructural
    [(MESSAGE_TYPE, VU64 message_type); (FLAGS, VU64 flags_octet); (LENGTH, VU64 length)] fields in
  let fields := insert_at ctx DFull (when_some sequence_number SEQUENCE_NUMBER VU64) fields in
  let hint := if message_type =? MSG_GPDU then Hint_Unknown else Hint_Terminal in
  rret {| pl_header_len := header_len; pl_fields := fields; pl_hint := hint |}.

Definition plugin : LayerPlugin := {|
  name := "gtp_u";
  parse := fun bytes ctx => run_reader (header ctx) bytes;
  claims := [UdpPort 2152];
  expected_predecessors := [];
  has_probe := false;
  probe := fun _ _ => None;
  stream_identity := Some IDENTITY;
  condense := None |}.

#[export] Instance stable_extension_round s : Stable (extension_round s).
Proof. unfold extension_round. apply _. Qed.

#[export] Instance stable_walk_extensions e l : Stable (walk_extensions e l).
Proof. unfold walk_extensions. apply _. Qed.

(** The tracked length is what was read: each record adds its words. *)
#[export] Instance walk_extensions_length e l :
  Consumes (walk_extensions e l) (fun n n' r => n <= n' /\ r - l = n' - n).
Proof.
  intros n. unfold walk_extensions.
  apply (consumes_loop _ _ (fun m s => n <= m /\ snd s - l = m - n)); [|simpl; lia].
  intros m [e' l'] [Hm Hl]. cbn [snd] in Hl. unfold extension_round.
  repeat consume_step; reflect_bools; cbn [snd]; lia.
Qed.

#[export] Instance disciplined : Disciplined (Some IDENTITY) (fun _ => header).
Proof. discipline ltac:(unfold header). Qed.

#[global] Instance conformant : Conformant plugin.
Proof. exact (dissector_conformant plugin (fun _ => header) (fun _ _ => eq_refl) disciplined). Qed.

End GtpU.

Module GtpC.

Definition TEID : FieldName := "teid".
Definition VERSION : FieldName := "version".
Definition MESSAGE_TYPE : FieldName := "message_type".
Definition LENGTH : FieldName := "length".
Definition IMSI : FieldName := "imsi".
Definition APN : FieldName := "apn".
Definition VERSION_MASK : Z := 0xE0.
Definition VERSION_SHIFT : Z := 5.
Definition V1_PT_BIT : Z := 0x10.
Definition V1_E_BIT : Z := 0x04.
Definition V1_S_BIT : Z := 0x02.
Definition V1_PN_BIT : Z := 0x01.
Definition V2_T_BIT : Z := 0x08.
Definition V1_IMSI_TYPE : Z := 0x02.
Definition V1_APN_TYPE : Z := 0x83.
Definition V2_IMSI_TYPE : Z := 1.
Definition V2_APN_TYPE : Z := 71.

Definition KEY : list KeyField := [mkKeyField TEID None].
Definition ROLLUPS : list RollupSpec :=
  [mkRollupSpec MESSAGE_TYPE RK_Accumulate].
Definition IDENTITY : StreamIdentity := {|
  key := KEY;
  canonicalize := EndpointSort;
  lifecycle := None;
  rollups := ROLLUPS |}.

Definition V1_TV_LENGTHS : list (Z * Z) :=
  [(0x01, 1); (0x02, 8); (0x03, 6); (0x0E, 1); (0x0F, 1); (0x10, 4); (0x11, 4); (0x12, 5);
   (0x14, 1); (0x1A, 2)].

Fixpoint bcd_from (nibbles : list Z) (digits : string) : option string :=
  match nibbles with
  | [] => if String.eqb digits "" then None else Some digits
  | nibble :: nibbles' =>
      if nibble =? 0xF then (if String.eqb digits "" then None else Some digits)
      else if 9 <? nibble then None
      else bcd_from nibbles' (String.append digits (chars [48 + nibble]))
  end.

Definition decode_bcd_digits (bytes : list Z) : option string :=
  bcd_from (bytes ≫= fun b => [Z.land b 0x0F; Z.land (Z.shiftr b 4) 0x0F]) "".

Definition label_round (labels : list string) : reader ParseError (list string + list string) :=
  let? len := ByteReader.u8 in
  let? label := ByteReader.take len in
  match str_from_utf8 label with
  | Some s => rret (E:=ParseError) (inl (labels ++ [s]))
  | None => rfail (PE_Malformed "not UTF-8")
  end.

(** Every error of the walk gives [None], as does an empty list. *)
Definition decode_apn_labels (bytes : list Z) : option string :=
  match walk_slice label_round [] bytes with
  | Ok (_ :: _ as labels) => Some (join "." labels)
  | _ => None
  end.

(** The locals [imsi] and [apn]. *)
Definition Ids : Type := option string * option string.

Definition v1_round (s : Ids) : reader ParseError (Ids + Ids) :=
  or_break ByteReader.u8 s (fun ty =>
  if ty <? 0x80 then
    match find_first (fun e => fst e =? ty) V1_TV_LENGTHS with
    | None => rret (inr s)
    | Some (_, value_len) =>
        or_break (ByteReader.take value_len) s (fun value =>
        rret (inl (if ty =? V1_IMSI_TYPE then (decode_bcd_digits value, snd s) else s)))
    end
  else
    or_break ByteReader.u16_be s (fun len =>
    or_break (ByteReader.take len) s (fun value =>
    rret (inl (if ty =? V1_APN_TYPE then (fst s, decode_apn_labels value) else s))))).

Definition walk_v1_ies (ies : list Z) : Ids := walk_leniently v1_round (None, None) ies.

Definition v2_round (s : Ids) : reader ParseError (Ids + Ids) :=
  or_break ByteReader.u8 s (fun ty =>
  or_break ByteReader.u16_be s (fun len =>
  or_break ByteReader.u8 s (fun _cr_instance =>
  or_break (ByteReader.take len) s (fun value =>
  rret (inl (if ty =? V2_IMSI_TYPE then (decode_bcd_digits value, snd s)
             else if ty =? V2_APN_TYPE then (fst s, decode_apn_labels value) else s)))))).

Definition walk_v2_ies (ies : list Z) : Ids := walk_leniently v2_round (None, None) ies.

Definition read_version (flags version : Z) : reader ParseError (Z * Z * Z * Z) :=
  if version =? 1 then
    if negb (flag flags V1_PT_BIT)
    then rfail (PE_Malformed "GTPv1-C: PT bit selects GTP', not GTP") else
    let? message_type := ByteReader.u8 in
    let? length := ByteReader.u16_be in
    let? teid := ByteReader.u32_be in
    let? ie_start :=
      if flag flags (Z.lor V1_E_BIT (Z.lor V1_S_BIT V1_PN_BIT))
      then let? _seq := ByteReader.take 4 in rret (8 + 4) else rret 8 in
    rret (E:=ParseError) (teid, message_type, length, ie_start)
  else if version =? 2 then
    let? message_type := ByteReader.u8 in
    let? length := ByteReader.u16_be in
    let? (teid, ie_start) :=
      if flag flags V2_T_BIT
      then let? teid := ByteReader.u32_be in let? _seq := ByteReader.take 4 in rret (teid, 12)
      else let? _seq := ByteReader.take 4 in rret (0, 8) in
    rret (E:=ParseError) (teid, message_type, length, ie_start)
  else rfail (PE_Malformed "unsupported GTP-C version").

Definition ie_fields (version : Z) (ies : list Z) : list (FieldName * Value) :=
  let '(imsi, apn) := if version =? 1 then walk_v1_ies ies else walk_v2_ies ies in
  when_some imsi IMSI Value_from_str ++ when_some apn APN Value_from_str.

Definition header (ctx : ParseCtx) : reader ParseError ParsedLayer :=
  let? flags := ByteReader.u8 in
  let version := Z.shiftr (Z.land flags VERSION_MASK) VERSION_SHIFT in
  let? (teid, message_type, length, ie_start) := read_version flags version in
  let fixed_prefix_len := if version =? 1 then 8 else 4 in
  let header_len := fixed_prefix_len + length in
  if header_len <? ie_start
  then rfail (PE_Malformed "GTP-C length shorter than the header it must contain") else
  let ie_len := header_len - ie_start in
  let? ies := ByteReader.take ie_len in
  let fields := FieldMap.new in
  let fields := insert_at ctx DKeys [(TEID, VU64 teid)] fields in
  let fields := insert_at ctx DStructural
    [(VERSION, VU64 version); (MESSAGE_TYPE, VU64 message_type); (LENGTH, VU64 length)] fields in
  let fields := insert_at ctx DFull (ie_fields version ies) fields in
  rret {| pl_header_len := header_len; pl_fields := fields; pl_hint := Hint_Terminal |}.

Definition plugin : LayerPlugin := {|
  name := "gtp_c";
  parse := fun bytes ctx => run_reader (header ctx) bytes;
  claims := [UdpPort 2123];
  expected_predecessors := [];
  has_probe := false;
  probe := fun _ _ => None;
  stream_identity := Some IDENTITY;
  condense := None |}.

(** The walks over labels and information elements end with their bytes. *)
#[export] Instance label_progresses : Progresses label_round.
Proof. progress_round ltac:(unfold label_round). Qed.

#[export] Instance v1_progresses : Progresses v1_round.
Proof. lenient_round ltac:(unfold v1_round). Qed.

#[export] Instance v2_progresses : Progresses v2_round.
Proof. lenient_round ltac:(unfold v2_round). Qed.

#[export] Instance disciplined : Disciplined (Some IDENTITY) (fun _ => header).
Proof. discipline ltac:(unfold header, read_version). Qed.

#[global] Instance conformant : Conformant plugin.
Proof. exact (dissector_conformant plugin (fun _ => header) (fun _ _ => eq_refl) disciplined). Qed.

End GtpC.

Module L2tpv3.

Definition T_BIT : FieldName := "t_bit".
Definition SESSION_ID : FieldName := "session_id".
Definition CONTROL_CONNECTION_ID : FieldName := "control_connection_id".
Definition L2TPV3_VERSION : Z := 3.
Definition SHARED_WORD_LEN : Z := 4.
Definition SESSION_ID_LEN : Z := 4.
Definition CONTROL_TAIL_LEN : Z := 8.

Definition KEY : list KeyField := [mkKeyField SESSION_ID None].
Definition IDENTITY : StreamIdentity := {|
  key := KEY;
  canonicalize := EndpointSort;
  lifecycle := None;
  rollups := [] |}.

Definition header (ctx : ParseCtx) : reader ParseError ParsedLayer :=
  let over_udp := bool_decide (protocol <$> ctx_prev ctx = Some "udp"%string) in
  let? t_bit :=
    if over_udp then
      let? word1 := ByteReader.u32_be in
      let ver := Z.land (Z.shiftr word1 16) 0x0F in
      if negb (ver =? L2TPV3_VERSION) then rfail (PE_Malformed "L2TPv3: unsupported Ver")
      else rret (flag word1 0x80000000)
    else rret false in
  let fields := FieldMap.new in
  if t_bit then
    let? control_connection_id := ByteReader.u32_be in
    let? _ns_nr := ByteReader.take 4 in
    let header_len := SHARED_WORD_LEN + CONTROL_TAIL_LEN in
    let fields := insert_at ctx DStructural
      [(T_BIT, VBool t_bit); (CONTROL_CONNECTION_ID, VU64 control_connection_id)] fields in
    rret {| pl_header_len := header_len; pl_fields := fields; pl_hint := Hint_Terminal |}
  else
    let? session_id := ByteReader.u32_be in
    let header_len := (if over_udp then SHARED_WORD_LEN else 0) + SESSION_ID_LEN in
    let fields := insert_at ctx DKeys [(SESSION_ID, VU64 session_id)] fields in
    let fields := insert_at ctx DStructural [(T_BIT, VBool t_bit)] fields in
    rret {| pl_header_len := header_len; pl_fields := fields; pl_hint := Hint_ByProtocol "ethernet" |}.

Definition plugin : LayerPlugin := {|
  name := "l2tpv3";
  parse := fun bytes ctx => run_reader (header ctx) bytes;
  claims := [UdpPort 1701; IpProtocol 115];
  expected_predecessors := [];
  has_probe := false;
  probe := fun _ _ => None;
  stream_identity := Some IDENTITY;
  condense := None |}.

(** Without the identity: a control message has no session id. *)
#[export] Instance disciplined : Disciplined None (fun _ => header).
Proof. discipline ltac:(unfold header, SHARED_WORD_LEN, CONTROL_TAIL_LEN, SESSION_ID_LEN). Qed.

#[global] Instance framed : Framed plugin.
Proof. exact (dissector_framed plugin (fun _ => header) None (fun _ _ => eq_refl) disc_readable). Qed.

#[global] Instance declining : Declining plugin.
Proof. exact (dissector_declining plugin (fun _ => header) None (fun _ _ => eq_refl) disc_readable disc_stable disc_length). Qed.

End L2tpv3.

Module Rtp.

Definition SSRC : FieldName := "ssrc".
Definition VERSION : FieldName := "version".
Definition PAYLOAD_TYPE : FieldName := "payload_type".
Definition SEQUENCE_NUMBER : FieldName := "sequence_number".
Definition TIMESTAMP : FieldName := "timestamp".
Definition MARKER_BIT : FieldName := "marker_bit".
Definition CSRC_LIST : FieldName := "csrc_list".
Definition RTP_VERSION : Z := 2.
Definition FIXED_HEADER_LEN : Z := 12.
Definition EXTENSION_BIT : Z := 0x10.

Definition KEY : list KeyField := [mkKeyField SSRC None].
Definition ROLLUPS : list RollupSpec :=
  [mkRollupSpec PAYLOAD_TYPE RK_Accumulate].
Definition IDENTITY : StreamIdentity := {|
  key := KEY;
  canonicalize := EndpointSort;
  lifecycle := None;
  rollups := ROLLUPS |}.

Definition header (ctx : ParseCtx) : reader ParseError ParsedLayer :=
  let? byte0 := ByteReader.u8 in
  let version := Z.shiftr (Z.land byte0 0xC0) 6 in
  if negb (version =? RTP_VERSION) then rfail (PE_Malformed "unsupported RTP version") else
  let cc := Z.land byte0 0x0F in
  let? byte1 := ByteReader.u8 in
  let marker_bit := flag byte1 0x80 in
  let payload_type := Z.land byte1 0x7F in
  let? sequence_number := ByteReader.u16_be in
  let? timestamp := ByteReader.u32_be in
  let? ssrc := ByteReader.u32_be in
  let? csrc_list := read_times (Z.to_nat cc) ByteReader.u32_be in
  let? extension_len :=
    if flag byte0 EXTENSION_BIT then
      let? _profile := ByteReader.u16_be in
      let? words := ByteReader.u16_be in
      let? _data := ByteReader.take (words * 4) in
      rret (4 + words * 4)
    else rret 0 in
  let header_len := FIXED_HEADER_LEN + cc * 4 + extension_len in
  let fields := FieldMap.new in
  let fields := insert_at ctx DKeys [(SSRC, VU64 ssrc)] fields in
  let fields := insert_at ctx DStructural
    [(VERSION, VU64 version); (PAYLOAD_TYPE, VU64 payload_type);
     (SEQUENCE_NUMBER, VU64 sequence_number); (TIMESTAMP, VU64 timestamp);
     (MARKER_BIT, VBool marker_bit)] fields in
  let fields := insert_at ctx DFull [(CSRC_LIST, VList (map VU64 csrc_list))] fields in
  rret {| pl_header_len := header_len; pl_fields := fields; pl_hint := Hint_Terminal |}.

Definition plugin : LayerPlugin := {|
  name := "rtp";
  parse := fun bytes ctx => run_reader (header ctx) bytes;
  claims := [];
  expected_predecessors := [];
  has_probe := false;
  probe := fun _ _ => None;
  stream_identity := Some IDENTITY;
  condense := None |}.

#[export] Instance disciplined : Disciplined (Some IDENTITY) (fun _ => header).
Proof. discipline ltac:(unfold header, FIXED_HEADER_LEN). Qed.

#[global] Instance conformant : Conformant plugin.
Proof. exact (dissector_conformant plugin (fun _ => header) (fun _ _ => eq_refl) disciplined). Qed.

End Rtp.

Module Rtcp.

Definition SSRC : FieldName := "ssrc".
Definition PACKET_TYPE : FieldName := "packet_type".
Definition NTP_TIMESTAMP : FieldName := "ntp_timestamp".
Definition RTP_TIMESTAMP : FieldName := "rtp_timestamp".
Definition PACKET_COUNT : FieldName := "packet_count".
Definition OCTET_COUNT : FieldName := "octet_count".
Definition CNAME : FieldName := "cname".
Definition RTCP_VERSION : Z := 2.
Definition PT_SR : Z := 200.
Definition PT_RR : Z := 201.
Definition PT_SDES : Z := 202.
Definition PT_BYE : Z := 203.
Definition PT_APP : Z := 204.
Definition SDES_CNAME : Z := 1.

Definition KEY : list KeyField := [mkKeyField SSRC None].
Definition ROLLUPS : list RollupSpec :=
  [mkRollupSpec PACKET_TYPE RK_Accumulate].
Definition IDENTITY : StreamIdentity := {|
  key := KEY;
  canonicalize := EndpointSort;
  lifecycle := None;
  rollups := ROLLUPS |}.

(** One SDES item: [inl] goes on to the next, [inr] ends the walk. *)
Definition cname_round (_ : unit) : reader ParseError (unit + option string) :=
  let? item_type := ByteReader.u8 in
  if item_type =? 0 then rret (inr None) else
  let? item_len := ByteReader.u8 in
  let? text := ByteReader.take item_len in
  if item_type =? SDES_CNAME then rret (inr (Some (lossy text))) else rret (E:=ParseError) (inl tt).

(** Every [.ok()?] of the walk gives [None]. *)
Definition read_first_cname (chunk_after_ssrc : list Z) : option string :=
  default None (ok_of (run_reader (read_loop (PE_Malformed "unreachable") cname_round tt) chunk_after_ssrc)).

Record Details := mkDetails {
  ntp_timestamp : option Z;
  rtp_timestamp : option Z;
  packet_count : option Z;
  octet_count : option Z;
  cname : option string;
}.

Definition no_details : Details := mkDetails None None None None None.

Definition sender_info : reader ParseError Details :=
  let? ntp_sec := ByteReader.u32_be in
  let? ntp_frac := ByteReader.u32_be in
  let? rtp_ts := ByteReader.u32_be in
  let? pkt_cnt := ByteReader.u32_be in
  let? oct_cnt := ByteReader.u32_be in
  rret (mkDetails (Some (Z.lor (Z.shiftl ntp_sec 32) ntp_frac)) (Some rtp_ts) (Some pkt_cnt)
          (Some oct_cnt) None).

(** The [match packet_type]; [rest] is the body past the SSRC. *)
Definition read_details (packet_type : Z) (rest : list Z) : reader ParseError Details :=
  if packet_type =? PT_SR then rret (default no_details (ok_of (run_reader sender_info rest)))
  else if packet_type =? PT_SDES then rret (mkDetails None None None None (read_first_cname rest))
  else if (packet_type =? PT_RR) || (packet_type =? PT_BYE) || (packet_type =? PT_APP)
  then rret no_details
  else rfail (PE_Malformed "unrecognized RTCP packet type").

Definition header (ctx : ParseCtx) : reader ParseError ParsedLayer :=
  let? byte0 := ByteReader.u8 in
  let version := Z.shiftr (Z.land byte0 0xC0) 6 in
  if negb (version =? RTCP_VERSION) then rfail (PE_Malformed "unsupported RTCP version") else
  let? packet_type := ByteReader.u8 in
  let? length_words := ByteReader.u16_be in
  let total_len := (length_words + 1) * 4 in
  let? body := ByteReader.take (total_len - 4) in
  let header_len := total_len in
  let? ssrc := within body (let? ssrc := ByteReader.u32_be in rret ssrc) in
  let? d := read_details packet_type (slice_from body 4) in
  let fields := FieldMap.new in
  let fields := insert_at ctx DKeys [(SSRC, VU64 ssrc)] fields in
  let fields := insert_at ctx DStructural [(PACKET_TYPE, VU64 packet_type)] fields in
  let fields := insert_at ctx DFull
    (when_some (ntp_timestamp d) NTP_TIMESTAMP VU64 ++
     when_some (rtp_timestamp d) RTP_TIMESTAMP VU64 ++
     when_some (packet_count d) PACKET_COUNT VU64 ++
     when_some (octet_count d) OCTET_COUNT VU64 ++
     when_some (cname d) CNAME Value_from_str) fields in
  rret {| pl_header_len := header_len; pl_fields := fields; pl_hint := Hint_Terminal |}.

Definition plugin : LayerPlugin := {|
  name := "rtcp";
  parse := fun bytes ctx => run_reader (header ctx) bytes;
  claims := [];
  expected_predecessors := [];
  has_probe := false;
  probe := fun _ _ => None;
  stream_identity := Some IDENTITY;
  condense := None |}.

#[export] Instance stable_cname_round u : Stable (cname_round u).
Proof. unfold cname_round. apply _. Qed.

(** The bound of the walk is never the reason it ends. *)
#[export] Instance cname_round_progresses : Progresses cname_round.
Proof. progress_round ltac:(unfold cname_round). Qed.

#[export] Instance disciplined : Disciplined (Some IDENTITY) (fun _ => header).
Proof. discipline ltac:(unfold header, read_details). Qed.

#[global] Instance conformant : Conformant plugin.
Proof. exact (dissector_conformant plugin (fun _ => header) (fun _ _ => eq_refl) disciplined). Qed.

End Rtcp.
