(* ===== verification/PlugNames.v ===== *)
(** * Name-service dissectors

    Models [dns.rs], [mdns.rs], [llmnr.rs] and [netbios_ns.rs] of
    [crates/pktflow-plugins/src].  The first three share one message walk,
    over the message as a slice because compressed names point back into it. *)

From S2P Require Import Prelude Values Bytes Text Types Contract PlugKit PlugScan.
Local Open Scope reader_scope.

Module Dns.

Definition APP : FieldName := "app".
Definition ID : FieldName := "id".
Definition IS_RESPONSE : FieldName := "is_response".
Definition OPCODE : FieldName := "opcode".
Definition RCODE : FieldName := "rcode".
Definition QNAME : FieldName := "qname".
Definition QTYPE : FieldName := "qtype".
Definition ANSWERS : FieldName := "answers".
Definition QDCOUNT : FieldName := "qdcount".
Definition ANCOUNT : FieldName := "ancount".
Definition NSCOUNT : FieldName := "nscount".
Definition ARCOUNT : FieldName := "arcount".
Definition MAX_POINTER_JUMPS : Z := 64.
Definition MAX_NAME_LEN : Z := 255.
Definition MAX_RECORDS_PER_SECTION : Z := 128.

Definition KEY : list KeyField := [mkKeyField APP None].
Definition ROLLUPS : list RollupSpec :=
  [mkRollupSpec QNAME RK_Accumulate; mkRollupSpec RCODE RK_Accumulate].
Definition IDENTITY : StreamIdentity := {|
  key := KEY;
  canonicalize := EndpointSort;
  lifecycle := None;
  rollups := ROLLUPS |}.

(** The locals of [decode_name]. *)
Record NameState := mkNameState {
  at_pos : Z;
  used : option Z;
  jumps : Z;
  name_so_far : string;
}.

Definition label_char (c : Z) : Z := if ascii_graphic c && negb (c =? 46) then c else 63.

(** One round: [inl] is the next state, [inr] the name and what it took. *)
Definition name_step (msg : list Z) (start : Z) (s : NameState) :
    result (NameState + string * Z) ParseError :=
  let pos := at_pos s in
  match byte_at msg pos with
  | None => Error (PE_Malformed "name runs past message")
  | Some l =>
      if l =? 0 then Ok (inr (name_so_far s, default (pos + 1 - start) (used s)))
      else if Z.land l 0xC0 =? 0xC0 then
        match byte_at msg (pos + 1) with
        | None => Error (PE_Malformed "pointer runs past message")
        | Some low =>
            let used := match used s with None => Some (pos + 2 - start) | u => u end in
            let target := Z.lor (Z.shiftl (Z.land l 0x3F) 8) low in
            if pos <=? target then Error (PE_Malformed "forward compression pointer") else
            let jumps := jumps s + 1 in
            if MAX_POINTER_JUMPS <? jumps
            then Error (PE_Malformed "compression pointer chain too long")
            else Ok (inl (mkNameState target used jumps (name_so_far s)))
        end
      else if Z.land l 0xC0 =? 0 then
        match slice msg (pos + 1) (pos + 1 + l) with
        | None => Error (PE_Malformed "label runs past message")
        | Some label =>
            let name := name_so_far s in
            let name := if String.eqb name "" then name else String.append name "." in
            let name := String.append name (chars (label_char <$> label)) in
            if MAX_NAME_LEN <? Z.of_nat (String.length name)
            then Error (PE_Malformed "name too long")
            else Ok (inl (mkNameState (pos + (1 + l)) (used s) (jumps s) name))
        end
      else Error (PE_Malformed "reserved label type")
  end.

Fixpoint name_loop (fuel : nat) (msg : list Z) (start : Z) (s : NameState) :
    result (string * Z) ParseError :=
  match fuel with
  | O => Error (PE_Malformed "unreachable")
  | S fuel' =>
      let! x := name_step msg start s in
      match x with inl s' => name_loop fuel' msg start s' | inr r => Ok r end
  end.

(** Each round follows one of at most 64 pointers or adds to a name of at most
    255 characters, so no name takes more than 320 ([name_rounds]). *)
Definition NAME_ROUNDS : nat := Z.to_nat (MAX_POINTER_JUMPS + MAX_NAME_LEN + 1).

Definition decode_name (msg : list Z) (start : Z) : result (string * Z) ParseError :=
  name_loop NAME_ROUNDS msg start (mkNameState start None 0 "").

Fixpoint hextets (rdata : list Z) : list string :=
  match rdata with
  | a :: b :: rdata' => hex_min (be_value [a; b]) :: hextets rdata'
  | _ => []
  end.

Definition render_rdata (msg : list Z) (rtype rdata_offset : Z) (rdata : list Z) : string :=
  let unnamed := String.append "type" (show_Z rtype) in
  if (rtype =? 1) && (blen rdata =? 4) then join "." (show_Z <$> rdata)
  else if (rtype =? 28) && (blen rdata =? 16) then join ":" (hextets rdata)
  else if (rtype =? 5) || (rtype =? 12) then
    match decode_name msg rdata_offset with Ok (n, _) => n | Error _ => unnamed end
  else unnamed.

Record RawMessage := mkRawMessage {
  id : Z;
  flags : Z;
  counts : Z * Z * Z * Z;
  qname : option string;
  qtype : option Z;
  qclass : option Z;
  first_answer_class : option Z;
  answers : list Value;
  header_len : Z;
}.

Definition read_head : reader ParseError (Z * Z * (Z * Z * Z * Z)) :=
  let? id := ByteReader.u16_be in
  let? flags := ByteReader.u16_be in
  let? qd := ByteReader.u16_be in
  let? an := ByteReader.u16_be in
  let? ns := ByteReader.u16_be in
  let? ar := ByteReader.u16_be in
  rret (id, flags, (qd, an, ns, ar)).

Definition implausible (c : Z) : bool := MAX_RECORDS_PER_SECTION <? c.

(** The locals of the walk over the sections. *)
Record Walk := mkWalk {
  wpos : Z;
  wqname : option string;
  wqtype : option Z;
  wqclass : option Z;
  wanswers : list Value;
  wfirst_class : option Z;
}.

Definition read_question : reader ParseError (Z * Z) :=
  let? t := ByteReader.u16_be in
  let? cls := ByteReader.u16_be in
  rret (t, cls).

Definition question_step (msg : list Z) (w : Walk) : result Walk ParseError :=
  let! (name, consumed) := decode_name msg (wpos w) in
  let pos := wpos w + consumed in
  let! (t, cls) := run_reader read_question (slice_from msg pos) in
  let pos := pos + 4 in
  Ok (match wqname w with
      | None => mkWalk pos (Some name) (Some t) (Some cls) (wanswers w) (wfirst_class w)
      | _ => mkWalk pos (wqname w) (wqtype w) (wqclass w) (wanswers w) (wfirst_class w)
      end).

Definition read_record : reader ParseError (Z * Z * Z * list Z) :=
  let? rtype := ByteReader.u16_be in
  let? cls := ByteReader.u16_be in
  let? _ttl := ByteReader.u32_be in
  let? rdlength := ByteReader.u16_be in
  let? rdata := ByteReader.take rdlength in
  rret (rtype, cls, rdlength, rdata).

(** The body of the section loops; [is_answer] is [section == 0]. *)
Definition record_step (msg : list Z) (is_answer : bool) (w : Walk) : result Walk ParseError :=
  let! (_, consumed) := decode_name msg (wpos w) in
  let pos := wpos w + consumed in
  let! (rtype, cls, rdlength, rdata) := run_reader read_record (slice_from msg pos) in
  let rdata_offset := pos + 10 in
  let next := pos + (10 + rdlength) in
  Ok (if is_answer then
        mkWalk next (wqname w) (wqtype w) (wqclass w)
          (wanswers w ++ [Value_from_str (render_rdata msg rtype rdata_offset rdata)])
          (match wfirst_class w with None => Some cls | c => c end)
      else mkWalk next (wqname w) (wqtype w) (wqclass w) (wanswers w) (wfirst_class w)).

(** [for _ in 0..n]. *)
Fixpoint repeatedly {S E} (n : nat) (step : S -> result S E) (s : S) : result S E :=
  match n with
  | O => Ok s
  | Datatypes.S n' => let! s' := step s in repeatedly n' step s'
  end.

Definition walk_sections (msg : list Z) (c : Z * Z * Z * Z) : result Walk ParseError :=
  let '(qd, an, ns, ar) := c in
  let! w := repeatedly (Z.to_nat qd) (question_step msg) (mkWalk 12 None None None [] None) in
  let! w := repeatedly (Z.to_nat an) (record_step msg true) w in
  let! w := repeatedly (Z.to_nat ns) (record_step msg false) w in
  repeatedly (Z.to_nat ar) (record_step msg false) w.

Definition parse_message (msg : list Z) : result RawMessage ParseError :=
  let! (id, flags, counts) := run_reader read_head msg in
  let '(qd, an, ns, ar) := counts in
  if existsb implausible [qd; an; ns; ar]
  then Error (PE_Malformed "implausible section count") else
  let! w := walk_sections msg counts in
  Ok (mkRawMessage id flags counts (wqname w) (wqtype w) (wqclass w) (wfirst_class w)
        (wanswers w) (wpos w)).

(** The message and the length of its TCP prefix. *)
Definition tcp_framed : reader ParseError (list Z) :=
  let? msg_len := ByteReader.u16_be in
  let? msg := ByteReader.take msg_len in
  rret msg.

Definition unframe (bytes : list Z) (ctx : ParseCtx) : result (list Z * Z) ParseError :=
  let over_tcp := bool_decide (protocol <$> ctx_prev ctx = Some "tcp"%string) in
  if over_tcp then let! msg := run_reader tcp_framed bytes in Ok (msg, 2) else Ok (bytes, 0).

Definition core (bytes : list Z) (ctx : ParseCtx) : result (Z * RawMessage) ParseError :=
  let! (msg, prefix) := unframe bytes ctx in
  let! raw := parse_message msg in
  Ok (prefix, raw).

(** [if let (Some(name), Some(t)) = (raw.qname, raw.qtype)]. *)
Definition question_fields (raw : RawMessage) : list (FieldName * Value) :=
  match qname raw, qtype raw with
  | Some name, Some t => [(QNAME, Value_from_str name); (QTYPE, VU64 t)]
  | _, _ => []
  end.

Definition layer (ctx : ParseCtx) (x : Z * RawMessage) : ParsedLayer :=
  let '(prefix, raw) := x in
  let '(qd, an, ns, ar) := counts raw in
  let fields := FieldMap.new in
  let fields := insert_at ctx DKeys [(APP, Value_from_str "dns")] fields in
  let fields := insert_at ctx DStructural
    ([(ID, VU64 (id raw)); (IS_RESPONSE, VBool (flag (flags raw) 0x8000));
      (OPCODE, VU64 (Z.land (Z.shiftr (flags raw) 11) 0xF));
      (RCODE, VU64 (Z.land (flags raw) 0xF))] ++ question_fields raw) fields in
  let fields := insert_at ctx DFull
    [(ANSWERS, VList (answers raw)); (QDCOUNT, VU64 qd); (ANCOUNT, VU64 an);
     (NSCOUNT, VU64 ns); (ARCOUNT, VU64 ar)] fields in
  {| pl_header_len := prefix + header_len raw; pl_fields := fields; pl_hint := Hint_Terminal |}.

Definition header (bytes : list Z) (ctx : ParseCtx) : result ParsedLayer ParseError :=
  let! x := core bytes ctx in Ok (layer ctx x).

Definition plugin : LayerPlugin := {|
  name := "dns";
  parse := header;
  claims := [UdpPort 53; TcpPort 53];
  expected_predecessors := [];
  has_probe := false;
  probe := fun _ _ => None;
  stream_identity := Some IDENTITY;
  condense := None |}.

(** *** Names *)

Definition rounds_left (s : NameState) : nat :=
  (Z.to_nat (MAX_POINTER_JUMPS - jumps s) +
   Z.to_nat (MAX_NAME_LEN - Z.of_nat (String.length (name_so_far s))))%nat.

Lemma chars_length l : String.length (chars l) = length l.
Proof. unfold chars. induction l as [|c l IH]; [done|]. cbn. by rewrite IH. Qed.

Lemma append_length a b : String.length (String.append a b) = (String.length a + String.length b)%nat.
Proof. induction a as [|c a IH]; [done|]. change (S (String.length (String.append a b)) = S (String.length a + String.length b)). by rewrite IH. Qed.

(** A round that goes on is one of finitely many. *)
Lemma name_step_counts msg start s s' :
  name_step msg start s = Ok (inl s') -> (rounds_left s' < rounds_left s)%nat.
Proof.
  unfold name_step, rounds_left. destruct (byte_at msg (at_pos s)) as [l|]; [|done].
  destruct (l =? 0) eqn:H0; [done|]. destruct (Z.land l 192 =? 192).
  - destruct (byte_at msg (at_pos s + 1)) as [low|]; [|done]. case_match; [done|]. case_match eqn:Hj; [done|].
    intros [= <-]. cbn. reflect_bools. lia.
  - destruct (Z.land l 192 =? 0); [|done]. destruct (slice msg _ _) as [k|] eqn:Hk; [|done].
    case_match eqn:Hn; [done|]. intros [= <-]. cbn [jumps name_so_far]. reflect_bools.
    apply slice_length in Hk as Hlen. apply slice_Some in Hk.
    assert (0 < blen k)%Z by lia. unfold blen in *. revert Hn.
    rewrite append_length, chars_length, length_fmap.
    destruct (String.eqb (name_so_far s) "") eqn:He;
      [apply String.eqb_eq in He; rewrite He; cbn|rewrite append_length; cbn]; lia.
Qed.

(** How a name is read, without a bound on the rounds. *)
Inductive Named (msg : list Z) (start : Z) : NameState -> result (string * Z) ParseError -> Prop :=
| Named_stop s e : name_step msg start s = Error e -> Named msg start s (Error e)
| Named_name s r : name_step msg start s = Ok (inr r) -> Named msg start s (Ok r)
| Named_next s s' x : name_step msg start s = Ok (inl s') -> Named msg start s' x -> Named msg start s x.

Lemma name_loop_ends msg start fuel s :
  (rounds_left s < fuel)%nat -> Named msg start s (name_loop fuel msg start s).
Proof.
  revert s. induction fuel as [|fuel IH]; intros s Hs; [lia|]. cbn [name_loop].
  destruct (name_step msg start s) as [[s'|r]|e] eqn:E; cbn [result_bind].
  - apply (Named_next _ _ _ s'); [done|]. apply IH. apply name_step_counts in E. lia.
  - by apply Named_name.
  - by apply Named_stop.
Qed.

(** What was found in a prefix is found in the whole. *)
Lemma name_step_app msg t start s x :
  name_step msg start s = Ok x -> name_step (msg ++ t) start s = Ok x.
Proof.
  unfold name_step. cbv zeta. destruct (byte_at msg (at_pos s)) as [l|] eqn:Hl; [|done].
  rewrite (byte_at_app _ t _ _ Hl). destruct (l =? 0); [done|]. destruct (Z.land l 192 =? 192).
  - destruct (byte_at msg (at_pos s + 1)) as [low|] eqn:Hw; [|done]. by rewrite (byte_at_app _ t _ _ Hw).
  - destruct (Z.land l 192 =? 0); [|done].
    destruct (slice msg _ _) as [k|] eqn:Hk; [|done]. by rewrite (slice_app_stable _ t _ _ _ Hk).
Qed.

Lemma decode_name_app msg t start r :
  decode_name msg start = Ok r -> decode_name (msg ++ t) start = Ok r.
Proof.
  unfold decode_name. generalize (mkNameState start None 0 "").
  induction NAME_ROUNDS as [|fuel IH]; intros s; cbn [name_loop]; [done|].
  rewrite result_bind_Ok. intros (x & Hx & Hr). rewrite (name_step_app _ t _ _ _ Hx). cbn [result_bind].
  destruct x; [by apply IH|done].
Qed.

(** The bytes a name takes at its start: some, and inside the message. *)
Definition name_inside (msg : list Z) (start : Z) (s : NameState) : Prop :=
  match used s with Some n => 1 <= n /\ start + n <= blen msg | None => start <= at_pos s end.

Lemma name_step_inside msg start s x :
  name_step msg start s = Ok x -> name_inside msg start s ->
  match x with
  | inl s' => name_inside msg start s'
  | inr (_, n) => 1 <= n /\ start + n <= blen msg
  end.
Proof.
  unfold name_step, name_inside. cbv zeta. destruct (byte_at msg (at_pos s)) as [l|] eqn:Hl; [|done].
  apply byte_at_inside in Hl. destruct (l =? 0).
  { intros [= <-] Hs. destruct (used s); simpl; lia. }
  destruct (Z.land l 192 =? 192).
  - destruct (byte_at msg (at_pos s + 1)) as [low|] eqn:Hw; [|done]. apply byte_at_inside in Hw.
    case_match; [done|]. case_match; [done|]. intros [= <-] Hs. cbn. destruct (used s); lia.
  - destruct (Z.land l 192 =? 0); [|done].
    destruct (slice msg _ _) as [k|] eqn:Hk; [|done]. apply slice_Some in Hk.
    case_match; [done|]. intros [= <-] Hs. cbn. destruct (used s); lia.
Qed.

Lemma decode_name_inside msg start name n :
  decode_name msg start = Ok (name, n) -> 1 <= n /\ start + n <= blen msg.
Proof.
  unfold decode_name.
  assert (name_inside msg start (mkNameState start None 0 "")) as Hi by (unfold name_inside; simpl; lia).
  revert Hi. generalize (mkNameState start None 0 "").
  induction NAME_ROUNDS as [|fuel IH]; intros s Hi; cbn [name_loop]; [done|].
  rewrite result_bind_Ok. intros (x & Hx & Hr).
  pose proof (name_step_inside _ _ _ _ Hx Hi) as Hx'. destruct x as [s'|[m k]]; [by apply (IH s')|].
  by simplify_eq.
Qed.

(** The name stays within its bound. *)
Lemma name_step_length msg start s x :
  name_step msg start s = Ok x -> Z.of_nat (String.length (name_so_far s)) <= MAX_NAME_LEN ->
  Z.of_nat (String.length (match x with inl s' => name_so_far s' | inr r => fst r end)) <= MAX_NAME_LEN.
Proof.
  unfold name_step. cbv zeta. destruct (byte_at msg (at_pos s)) as [l|]; [|done].
  destruct (l =? 0); [by intros [= <-]|]. destruct (Z.land l 192 =? 192).
  - destruct (byte_at msg (at_pos s + 1)) as [low|]; [|done]. case_match; [done|]. case_match; [done|].
    by intros [= <-].
  - destruct (Z.land l 192 =? 0); [|done]. destruct (slice msg _ _) as [k|]; [|done].
    case_match eqn:Hn; [done|]. intros [= <-] _. cbn [name_so_far]. reflect_bools. lia.
Qed.

Lemma decode_name_length msg start name n :
  decode_name msg start = Ok (name, n) -> Z.of_nat (String.length name) <= MAX_NAME_LEN.
Proof.
  unfold decode_name.
  assert (Z.of_nat (String.length (name_so_far (mkNameState start None 0 ""))) <= MAX_NAME_LEN) as Hi by done.
  revert Hi. generalize (mkNameState start None 0 "").
  induction NAME_ROUNDS as [|fuel IH]; intros s Hi; cbn [name_loop]; [done|].
  rewrite result_bind_Ok. intros (x & Hx & Hr).
  pose proof (name_step_length _ _ _ _ Hx Hi) as Hx'. destruct x as [s'|[m k]]; [by apply (IH s')|].
  by simplify_eq.
Qed.

(** C37: Reading a compressed DNS name always ends, whatever the pointers, with the
    result the unbounded loop has: within 320 rounds it fails or yields a name
    of at most 255 characters together with the bytes taken at its start, at
    least one and inside the message, which do not depend on what follows. *)
Theorem decode_name_total msg start :
  Named msg start (mkNameState start None 0 "") (decode_name msg start) /\
  (forall name n, decode_name msg start = Ok (name, n) ->
     Z.of_nat (String.length name) <= MAX_NAME_LEN /\ 1 <= n /\ start + n <= blen msg /\
     forall t, decode_name (msg ++ t) start = Ok (name, n)).
Proof.
  split; [by apply name_loop_ends, Nat.ltb_lt|]. intros name n Hn.
  destruct (decode_name_inside _ _ _ _ Hn) as [? ?].
  split_and!; [by eapply decode_name_length|done|done|]. intros t. by apply decode_name_app.
Qed.

(** *** Messages *)

Lemma read_question_consumes : consumes 0 read_question (fun n _ => n = 4).
Proof. unfold read_question. repeat consume_step. lia. Qed.

Lemma read_record_consumes : consumes 0 read_record (fun n x => n = 10 + x.1.2 /\ 0 <= x.1.2).
Proof. unfold read_record. repeat consume_step. cbn. lia. Qed.

(** A step over a message, and the same step where more follows: the same
    place is reached, inside the message.  What is rendered may differ. *)
Definition extends (msg : list Z) (step step' : Walk -> result Walk ParseError) : Prop :=
  forall w w' w1, wpos w' = wpos w -> 0 <= wpos w -> step w = Ok w1 ->
    wpos w <= wpos w1 <= blen msg /\ exists w1', step' w' = Ok w1' /\ wpos w1' = wpos w1.

Lemma question_step_extends msg t : extends msg (question_step msg) (question_step (msg ++ t)).
Proof.
  intros w w' w1 Hw H0. unfold question_step. rewrite result_bind_Ok.
  intros ([name n] & Hn & Hq). cbv zeta in Hq. apply result_bind_Ok in Hq as ([ty cls] & Hr & Hw1).
  destruct (decode_name_inside _ _ _ _ Hn) as [? ?].
  destruct (run_reader_consumes _ _ _ _ read_question_consumes Hr) as (k & Hk & ->).
  rewrite blen_slice_from in Hk by lia.
  rewrite Hw, (decode_name_app _ t _ _ Hn). cbn [result_bind]. cbv zeta.
  rewrite slice_from_more by lia.
  rewrite (run_reader_app read_question _ t _ Hr). cbn [result_bind].
  destruct (wqname w); simplify_eq/=; (split; [lia|]); eexists; (split; [done|]); by destruct (wqname w').
Qed.

Lemma record_step_extends msg t b : extends msg (record_step msg b) (record_step (msg ++ t) b).
Proof.
  intros w w' w1 Hw H0. unfold record_step. rewrite result_bind_Ok.
  intros ([name n] & Hn & Hq). cbv zeta in Hq.
  apply result_bind_Ok in Hq as ([[[ty cls] len] rd] & Hr & Hw1).
  destruct (decode_name_inside _ _ _ _ Hn) as [? ?].
  destruct (run_reader_consumes _ _ _ _ read_record_consumes Hr) as (k & Hk & -> & Hl). cbn in Hk, Hl.
  rewrite blen_slice_from in Hk by lia.
  rewrite Hw, (decode_name_app _ t _ _ Hn). cbn [result_bind]. cbv zeta.
  rewrite slice_from_more by lia.
  rewrite (run_reader_app read_record _ t _ Hr). cbn [result_bind].
  destruct b; simplify_eq/=; (split; [lia|]); by eexists.
Qed.

Lemma repeatedly_extends msg n step step' :
  extends msg step step' ->
  forall w w' w1, wpos w' = wpos w -> 0 <= wpos w <= blen msg -> repeatedly n step w = Ok w1 ->
    wpos w <= wpos w1 <= blen msg /\ exists w1', repeatedly n step' w' = Ok w1' /\ wpos w1' = wpos w1.
Proof.
  intros Hs. induction n as [|n IH]; intros w w' w1 Hw H0; cbn [repeatedly].
  { intros [= <-]. split; [lia|by eexists]. }
  rewrite result_bind_Ok. intros (w2 & H2 & H1).
  destruct (Hs _ _ _ Hw (proj1 H0) H2) as (Hp & w2' & H2' & Hw2). rewrite H2'. cbn [result_bind].
  destruct (IH w2 w2' w1 Hw2 ltac:(lia) H1) as (? & w1' & ? & ?). split; [lia|by eexists].
Qed.

Lemma walk_sections_app msg t c w :
  12 <= blen msg -> walk_sections msg c = Ok w ->
  0 <= wpos w <= blen msg /\ exists w', walk_sections (msg ++ t) c = Ok w' /\ wpos w' = wpos w.
Proof.
  intros H12. unfold walk_sections. destruct c as [[[qd an] ns] ar].
  rewrite result_bind_Ok. intros (w1 & H1 & Hb). apply result_bind_Ok in Hb as (w2 & H2 & Hb).
  apply result_bind_Ok in Hb as (w3 & H3 & H4).
  set (w0 := mkWalk 12 None None None [] None) in *. assert (0 <= wpos w0 <= blen msg) as H0 by (cbn; lia).
  destruct (repeatedly_extends _ _ _ _ (question_step_extends msg t) w0 w0 _ eq_refl H0 H1)
    as (P1 & w1' & -> & E1). cbn [result_bind].
  destruct (repeatedly_extends _ _ _ _ (record_step_extends msg t true) _ _ _ E1 ltac:(lia) H2)
    as (P2 & w2' & -> & E2). cbn [result_bind].
  destruct (repeatedly_extends _ _ _ _ (record_step_extends msg t false) _ _ _ E2 ltac:(lia) H3)
    as (P3 & w3' & -> & E3). cbn [result_bind].
  destruct (repeatedly_extends _ _ _ _ (record_step_extends msg t false) _ _ _ E3 ltac:(lia) H4)
    as (P4 & w4' & -> & E4). split; [lia|by eexists].
Qed.

Lemma read_head_consumes : consumes 0 read_head (fun n _ => n = 12).
Proof. unfold read_head. repeat consume_step. lia. Qed.

Lemma parse_message_app msg t raw :
  parse_message msg = Ok raw ->
  0 <= header_len raw <= blen msg /\
  exists raw', parse_message (msg ++ t) = Ok raw' /\ header_len raw' = header_len raw.
Proof.
  unfold parse_message. rewrite result_bind_Ok. intros ([[i f] c] & Hh & Hb).
  destruct (run_reader_consumes _ _ _ _ read_head_consumes Hh) as (n & Hn & ->).
  rewrite (run_reader_app read_head _ t _ Hh). cbn [result_bind].
  destruct c as [[[qd an] ns] ar] eqn:Hc. destruct (existsb _ _); [done|].
  apply result_bind_Ok in Hb as (w & Hw & [= <-]).
  destruct (walk_sections_app _ t _ _ (proj2 Hn) Hw) as (P & w' & -> & E).
  split; [done|]. by eexists.
Qed.

(** *** The contract *)

Lemma tcp_framed_consumes : consumes 0 tcp_framed (fun n msg => n = 2 + blen msg).
Proof. unfold tcp_framed. repeat consume_step. subst. lia. Qed.

(** The message in the bytes, also where more follows. *)
Lemma unframe_app bytes t c msg k :
  unframe bytes c = Ok (msg, k) ->
  0 <= k /\ k + blen msg <= blen bytes /\
  exists u, unframe (bytes ++ t) c = Ok (msg ++ u, k).
Proof.
  unfold unframe. cbv zeta. case_bool_decide.
  - rewrite result_bind_Ok. intros (m & Hm & [= <- <-]).
    destruct (run_reader_consumes _ _ _ _ tcp_framed_consumes Hm) as (n & Hn & ->).
    split_and!; [lia|lia|]. exists []. rewrite (run_reader_app tcp_framed _ t _ Hm), app_nil_r. done.
  - intros [= <- <-]. split_and!; [lia|lia|]. by exists t.
Qed.

Lemma core_app bytes t c x :
  core bytes c = Ok x ->
  0 <= fst x + header_len (snd x) <= blen bytes /\
  exists x', core (bytes ++ t) c = Ok x' /\ fst x' = fst x /\ header_len (snd x') = header_len (snd x).
Proof.
  unfold core. rewrite result_bind_Ok. intros ([msg k] & Hu & Hb).
  apply result_bind_Ok in Hb as (raw & Hr & [= <-]).
  destruct (unframe_app _ t _ _ _ Hu) as (? & ? & u & ->). cbn [result_bind].
  destruct (parse_message_app _ u _ Hr) as (? & raw' & -> & E).
  split; [simpl; lia|]. by eexists.
Qed.

#[export] Instance layered_dns : Layered plugin core layer (Some IDENTITY).
Proof.
  layered ltac:(unfold layer; repeat case_match) ltac:(intros bytes c [k raw] Hx).
  destruct (core_app _ [] _ _ Hx) as [H _]. unfold layer. by destruct (counts raw) as [[[? ?] ?] ?].
Qed.

#[global] Instance conformant : Conformant plugin.
Proof.
  constructor; [exact (layered_framed _ core layer _)|exact (layered_keyed _ core layer _ eq_refl)|].
  apply (layered_declining _ core layer (Some IDENTITY)). intros b t c [k raw] Hx.
  destruct (core_app _ t _ _ Hx) as (_ & [k' raw'] & Hx' & Hk & Hl). exists (k', raw'). split; [done|].
  cbn in Hk, Hl. unfold layer. repeat case_match; cbn [pl_header_len]; congruence.
Qed.

End Dns.

Module Mdns.

Definition APP : FieldName := "app".
Definition ID : FieldName := "id".
Definition IS_RESPONSE : FieldName := "is_response".
Definition OPCODE : FieldName := "opcode".
Definition RCODE : FieldName := "rcode".
Definition QNAME : FieldName := "qname".
Definition QTYPE : FieldName := "qtype".
Definition ANSWERS : FieldName := "answers".
Definition IS_MULTICAST_QUERY : FieldName := "is_multicast_query".
Definition CACHE_FLUSH : FieldName := "cache_flush".
Definition TOP_BIT : Z := 0x8000.

Definition KEY : list KeyField := [mkKeyField APP None].
Definition ROLLUPS : list RollupSpec :=
  [mkRollupSpec QNAME RK_Accumulate].
Definition IDENTITY : StreamIdentity := {|
  key := KEY;
  canonicalize := EndpointSort;
  lifecycle := None;
  rollups := ROLLUPS |}.

Definition class_fields (raw : Dns.RawMessage) : list (FieldName * Value) :=
  when_some (Dns.qclass raw) IS_MULTICAST_QUERY (fun qclass => VBool (flag qclass TOP_BIT)) ++
  when_some (Dns.first_answer_class raw) CACHE_FLUSH (fun acls => VBool (flag acls TOP_BIT)).

Definition core (bytes : list Z) (_ctx : ParseCtx) : result Dns.RawMessage ParseError :=
  Dns.parse_message bytes.

Definition layer (ctx : ParseCtx) (raw : Dns.RawMessage) : ParsedLayer :=
  let fields := FieldMap.new in
  let fields := insert_at ctx DKeys [(APP, Value_from_str "mdns")] fields in
  let fields := insert_at ctx DStructural
    ([(ID, VU64 (Dns.id raw)); (IS_RESPONSE, VBool (flag (Dns.flags raw) 0x8000));
      (OPCODE, VU64 (Z.land (Z.shiftr (Dns.flags raw) 11) 0xF));
      (RCODE, VU64 (Z.land (Dns.flags raw) 0xF))] ++
     Dns.question_fields raw ++ class_fields raw) fields in
  let fields := insert_at ctx DFull [(ANSWERS, VList (Dns.answers raw))] fields in
  {| pl_header_len := Dns.header_len raw; pl_fields := fields; pl_hint := Hint_Terminal |}.

Definition header (bytes : list Z) (ctx : ParseCtx) : result ParsedLayer ParseError :=
  let! x := core bytes ctx in Ok (layer ctx x).

Definition plugin : LayerPlugin := {|
  name := "mdns";
  parse := header;
  claims := [UdpPort 5353];
  expected_predecessors := [];
  has_probe := false;
  probe := fun _ _ => None;
  stream_identity := Some IDENTITY;
  condense := None |}.

#[export] Instance layered_message : Layered plugin core layer (Some IDENTITY).
Proof.
  layered ltac:(unfold layer) ltac:(intros bytes c raw Hx).
  unfold core in Hx. by destruct (Dns.parse_message_app _ [] _ Hx) as [H _].
Qed.

#[global] Instance conformant : Conformant plugin.
Proof.
  constructor; [exact (layered_framed _ core layer _)|exact (layered_keyed _ core layer _ eq_refl)|].
  apply (layered_declining _ core layer (Some IDENTITY)). intros b t c raw Hx.
  destruct (Dns.parse_message_app _ t _ Hx) as (_ & raw' & ? & ?). by exists raw'.
Qed.

End Mdns.

Module Llmnr.

Definition APP : FieldName := "app".
Definition ID : FieldName := "id".
Definition IS_RESPONSE : FieldName := "is_response".
Definition OPCODE : FieldName := "opcode".
Definition RCODE : FieldName := "rcode".
Definition QNAME : FieldName := "qname".
Definition QTYPE : FieldName := "qtype".
Definition ANSWERS : FieldName := "answers".
Definition CONFLICT : FieldName := "conflict".
Definition TENTATIVE : FieldName := "tentative".
Definition CONFLICT_BIT : Z := 0x0400.
Definition TENTATIVE_BIT : Z := 0x0100.

Definition KEY : list KeyField := [mkKeyField APP None].
Definition ROLLUPS : list RollupSpec :=
  [mkRollupSpec QNAME RK_Accumulate].
Definition IDENTITY : StreamIdentity := {|
  key := KEY;
  canonicalize := EndpointSort;
  lifecycle := None;
  rollups := ROLLUPS |}.

Definition core (bytes : list Z) (_ctx : ParseCtx) : result Dns.RawMessage ParseError :=
  Dns.parse_message bytes.

Definition layer (ctx : ParseCtx) (raw : Dns.RawMessage) : ParsedLayer :=
  let fields := FieldMap.new in
  let fields := insert_at ctx DKeys [(APP, Value_from_str "llmnr")] fields in
  let fields := insert_at ctx DStructural
    ([(ID, VU64 (Dns.id raw)); (IS_RESPONSE, VBool (flag (Dns.flags raw) 0x8000));
      (OPCODE, VU64 (Z.land (Z.shiftr (Dns.flags raw) 11) 0xF));
      (RCODE, VU64 (Z.land (Dns.flags raw) 0xF));
      (CONFLICT, VBool (flag (Dns.flags raw) CONFLICT_BIT));
      (TENTATIVE, VBool (flag (Dns.flags raw) TENTATIVE_BIT))] ++
     Dns.question_fields raw) fields in
  let fields := insert_at ctx DFull [(ANSWERS, VList (Dns.answers raw))] fields in
  {| pl_header_len := Dns.header_len raw; pl_fields := fields; pl_hint := Hint_Terminal |}.

Definition header (bytes : list Z) (ctx : ParseCtx) : result ParsedLayer ParseError :=
  let! x := core bytes ctx in Ok (layer ctx x).

Definition plugin : LayerPlugin := {|
  name := "llmnr";
  parse := header;
  claims := [UdpPort 5355];
  expected_predecessors := [];
  has_probe := false;
  probe := fun _ _ => None;
  stream_identity := Some IDENTITY;
  condense := None |}.

#[export] Instance layered_message : Layered plugin core layer (Some IDENTITY).
Proof.
  layered ltac:(unfold layer) ltac:(intros bytes c raw Hx).
  unfold core in Hx. by destruct (Dns.parse_message_app _ [] _ Hx) as [H _].
Qed.

#[global] Instance conformant : Conformant plugin.
Proof.
  constructor; [exact (layered_framed _ core layer _)|exact (layered_keyed _ core layer _ eq_refl)|].
  apply (layered_declining _ core layer (Some IDENTITY)). intros b t c raw Hx.
  destruct (Dns.parse_message_app _ t _ Hx) as (_ & raw' & ? & ?). by exists raw'.
Qed.

End Llmnr.

Module NetbiosNs.

Definition APP : FieldName := "app".
Definition OPCODE : FieldName := "opcode".
Definition NM_FLAGS : FieldName := "nm_flags".
Definition RCODE : FieldName := "rcode".
Definition QUESTION_COUNT : FieldName := "question_count".
Definition ANSWER_COUNT : FieldName := "answer_count".
Definition NAME : FieldName := "name".
Definition NAME_TYPE : FieldName := "name_type".
Definition RR_TYPE : FieldName := "rr_type".
Definition FIRST_LEVEL_LEN : Z := 32.

Definition KEY : list KeyField := [mkKeyField APP None].
Definition ROLLUPS : list RollupSpec :=
  [mkRollupSpec NAME RK_Accumulate].
Definition IDENTITY : StreamIdentity := {|
  key := KEY;
  canonicalize := EndpointSort;
  lifecycle := None;
  rollups := ROLLUPS |}.

Definition nibble (c : Z) : result Z ParseError :=
  if (65 <=? c) && (c <=? 80) then Ok (c - 65)
  else Error (PE_Malformed "netbios_ns: byte outside first-level encoding alphabet").

Fixpoint decode_pairs (encoded : list Z) : result (list Z) ParseError :=
  match encoded with
  | hi :: lo :: encoded' =>
      let! h := nibble hi in
      let! l := nibble lo in
      let! out := decode_pairs encoded' in
      Ok (Z.lor (Z.shiftl h 4) l :: out)
  | _ => Ok []
  end.

Definition decode_first_level (encoded : list Z) : result (list Z) ParseError :=
  if negb (blen encoded =? FIRST_LEVEL_LEN)
  then Error (PE_Malformed "netbios_ns: first-level name is not 32 characters")
  else decode_pairs encoded.

(** Without the spaces at the end. *)
Fixpoint trim_spaces (bytes : list Z) : list Z :=
  match bytes with
  | [] => []
  | b :: bytes' =>
      match trim_spaces bytes' with
      | [] => if b =? 32 then [] else [b]
      | kept => b :: kept
      end
  end.

Definition render_name (name_bytes : list Z) : string :=
  chars ((fun c => if ascii_graphic c then c else 63) <$> trim_spaces name_bytes).

(** The name, its suffix and the record type, of the first question or answer. *)
Definition read_name (qdcount ancount : Z) : reader ParseError (option (string * Z * Z)) :=
  if (1 <=? qdcount) || (1 <=? ancount) then
    let? label_len := ByteReader.u8 in
    if negb (label_len =? FIRST_LEVEL_LEN)
    then rfail (PE_Malformed "netbios_ns: name label is not the 32-char first-level form") else
    let? encoded := ByteReader.take FIRST_LEVEL_LEN in
    let? decoded := of_result (decode_first_level encoded) in
    let? terminator := ByteReader.u8 in
    if negb (terminator =? 0)
    then rfail (PE_Malformed "netbios_ns: scoped names are not supported") else
    let? ty := ByteReader.u16_be in
    let? _class := ByteReader.u16_be in
    rret (E:=ParseError) (Some (render_name (take 15 decoded), at_ix decoded 15, ty))
  else rret None.

Definition name_fields (x : string * Z * Z) : list (FieldName * Value) :=
  let '(name, name_type, rr_type) := x in
  [(NAME, Value_from_str name); (NAME_TYPE, VU64 name_type); (RR_TYPE, VU64 rr_type)].

Definition header (ctx : ParseCtx) : reader ParseError ParsedLayer :=
  let? _name_trn_id := ByteReader.u16_be in
  let? flags := ByteReader.u16_be in
  let opcode := Z.land (Z.shiftr flags 11) 0x0F in
  let nm_flags := Z.land (Z.shiftr flags 4) 0x7F in
  let rcode := Z.land flags 0x0F in
  let? qdcount := ByteReader.u16_be in
  let? ancount := ByteReader.u16_be in
  let? _nscount := ByteReader.u16_be in
  let? _arcount := ByteReader.u16_be in
  let? name := read_name qdcount ancount in
  let fields := FieldMap.new in
  let fields := insert_at ctx DKeys [(APP, Value_from_str "netbios_ns")] fields in
  let fields := insert_at ctx DStructural
    [(OPCODE, VU64 opcode); (NM_FLAGS, VU64 nm_flags); (RCODE, VU64 rcode);
     (QUESTION_COUNT, VU64 qdcount); (ANSWER_COUNT, VU64 ancount)] fields in
  let fields := insert_at ctx DFull (from_option name_fields [] name) fields in
  let? used := consumed in
  rret {| pl_header_len := used; pl_fields := fields; pl_hint := Hint_Terminal |}.

Definition plugin : LayerPlugin := {|
  name := "netbios_ns";
  parse := fun bytes ctx => run_reader (header ctx) bytes;
  claims := [UdpPort 137];
  expected_predecessors := [];
  has_probe := false;
  probe := fun _ _ => None;
  stream_identity := Some IDENTITY;
  condense := None |}.

#[export] Instance disciplined : Disciplined (Some IDENTITY) (fun _ => header).
Proof. discipline ltac:(unfold header, read_name). Qed.

#[global] Instance conformant : Conformant plugin.
Proof. exact (dissector_conformant plugin (fun _ => header) (fun _ _ => eq_refl) disciplined). Qed.

End NetbiosNs.
