(* ===== verification/PlugAdmin.v ===== *)
(** * Management and configuration dissectors

    Models [snmp.rs], [dhcpv6.rs], [netflow9.rs], [ipfix.rs] and [syslog.rs] of [crates/pktflow-plugins/src]. *)

From S2P Require Import Prelude Values Bytes Utf8 Text Types Contract PlugKit PlugScan PlugText.
Local Open Scope reader_scope.

Module Snmp.

Definition APP : FieldName := "app".
Definition VERSION : FieldName := "version".
Definition COMMUNITY : FieldName := "community".
Definition PDU_TYPE : FieldName := "pdu_type".
Definition REQUEST_ID : FieldName := "request_id".
Definition SNMP_V1 : Z := 0.
Definition SNMP_V2C : Z := 1.
Definition TAG_SEQUENCE : Z := 0x30.
Definition TAG_INTEGER : Z := 0x02.
Definition TAG_OCTET_STRING : Z := 0x04.
Definition PDU_CLASS_MASK : Z := 0xE0.
Definition PDU_CLASS_TAG : Z := 0xA0.
Definition PDU_NUMBER_MASK : Z := 0x1F.

Definition KEY : list KeyField := [mkKeyField APP None].
Definition ROLLUPS : list RollupSpec :=
  [mkRollupSpec PDU_TYPE RK_Accumulate; mkRollupSpec COMMUNITY RK_Sample].
Definition IDENTITY : StreamIdentity := {|
  key := KEY;
  canonicalize := EndpointSort;
  lifecycle := None;
  rollups := ROLLUPS |}.

(** [usize::try_from] of a [u64] does not fail on the 64-bit targets. *)
Definition ber_length : reader ParseError Z :=
  let? first := ByteReader.u8 in
  if negb (flag first 0x80) then rret first else
  let n := Z.land first 0x7F in
  if n =? 0 then rfail (PE_Malformed "indefinite-length BER not supported") else
  if 8 <? n then rfail (PE_Malformed "BER length field too wide") else
  let? octets := ByteReader.take n in
  rret (E:=ParseError) (fold_be octets).

Definition read_tlv : reader ParseError (Z * list Z) :=
  let? tag := ByteReader.u8 in
  let? len := ber_length in
  let? value := ByteReader.take len in
  rret (E:=ParseError) (tag, value).

Definition ber_uint (bytes : list Z) : result Z ParseError :=
  match bytes with
  | [] => Error (PE_Malformed "empty BER INTEGER")
  | first :: _ =>
      if flag first 0x80 then Error (PE_Malformed "negative SNMP INTEGER not supported")
      else if 8 <? blen bytes then Error (PE_Malformed "SNMP INTEGER wider than 64 bits")
      else Ok (fold_be bytes)
  end.

Definition first_integer (pdu_body : list Z) : option Z :=
  match run_reader read_tlv pdu_body with
  | Ok (first_tag, first_bytes) =>
      if first_tag =? TAG_INTEGER then ok_of (ber_uint first_bytes) else None
  | Error _ => None
  end.

(** The community, the PDU's type and its request id, where the version is known. *)
Definition read_pdu : reader ParseError (list Z * Z * option Z) :=
  let? (community_tag, community_bytes) := read_tlv in
  if negb (community_tag =? TAG_OCTET_STRING)
  then rfail (PE_Malformed "SNMP community must be an OCTET STRING") else
  let? (pdu_tag, pdu_body) := read_tlv in
  if negb (Z.land pdu_tag PDU_CLASS_MASK =? PDU_CLASS_TAG)
  then rfail (PE_Malformed "SNMP PDU tag is not context-specific constructed") else
  rret (E:=ParseError) (community_bytes, Z.land pdu_tag PDU_NUMBER_MASK, first_integer pdu_body).

Definition read_body : reader ParseError (Z * option (list Z * Z * option Z)) :=
  let? (version_tag, version_bytes) := read_tlv in
  if negb (version_tag =? TAG_INTEGER)
  then rfail (PE_Malformed "SNMP version must be an INTEGER") else
  let? version := of_result (ber_uint version_bytes) in
  if (version =? SNMP_V1) || (version =? SNMP_V2C)
  then let? pdu := read_pdu in rret (E:=ParseError) (version, Some pdu)
  else rret (E:=ParseError) (version, None).

Definition header (ctx : ParseCtx) : reader ParseError ParsedLayer :=
  let? (msg_tag, msg_body) := read_tlv in
  if negb (msg_tag =? TAG_SEQUENCE)
  then rfail (PE_Malformed "SNMP message must be a BER SEQUENCE") else
  let? header_len := consumed in
  let? (version, pdu) := within msg_body read_body in
  let fields := FieldMap.new in
  let fields := insert_at ctx DKeys [(APP, Value_from_str "snmp")] fields in
  let fields := insert_at ctx DStructural
    ([(VERSION, VU64 version)] ++
     when_some (fst <$> (fst <$> pdu)) COMMUNITY (fun c => Value_from_str (lossy c)) ++
     when_some (snd <$> (fst <$> pdu)) PDU_TYPE VU64) fields in
  let fields := insert_at ctx DFull (when_some (pdu ≫= snd) REQUEST_ID VU64) fields in
  rret {| pl_header_len := header_len; pl_fields := fields; pl_hint := Hint_Terminal |}.

Definition plugin : LayerPlugin := {|
  name := "snmp";
  parse := fun bytes ctx => run_reader (header ctx) bytes;
  claims := [UdpPort 161; UdpPort 162];
  expected_predecessors := [];
  has_probe := false;
  probe := fun _ _ => None;
  stream_identity := Some IDENTITY;
  condense := None |}.

#[export] Instance disciplined : Disciplined (Some IDENTITY) (fun _ => header).
Proof. discipline ltac:(unfold header, read_tlv, ber_length). Qed.

#[global] Instance conformant : Conformant plugin.
Proof. exact (dissector_conformant plugin (fun _ => header) (fun _ _ => eq_refl) disciplined). Qed.

End Snmp.

Module Dhcpv6.

Definition APP : FieldName := "app".
Definition MSG_TYPE : FieldName := "msg_type".
Definition TRANSACTION_ID : FieldName := "transaction_id".
Definition CLIENT_DUID : FieldName := "client_duid".
Definition SERVER_DUID : FieldName := "server_duid".
Definition REQUESTED_IP : FieldName := "requested_ip".
Definition PREFERRED_LIFETIME : FieldName := "preferred_lifetime".
Definition VALID_LIFETIME : FieldName := "valid_lifetime".
Definition RELAY_FORW : Z := 12.
Definition RELAY_REPL : Z := 13.
Definition OPTION_CLIENTID : Z := 1.
Definition OPTION_SERVERID : Z := 2.
Definition OPTION_IA_NA : Z := 3.
Definition OPTION_IA_TA : Z := 4.
Definition OPTION_IAADDR : Z := 5.

Definition KEY : list KeyField := [mkKeyField APP None].
Definition ROLLUPS : list RollupSpec :=
  [mkRollupSpec MSG_TYPE (RK_Series 64)].
Definition IDENTITY : StreamIdentity := {|
  key := KEY;
  canonicalize := EndpointSort;
  lifecycle := None;
  rollups := ROLLUPS |}.

Definition IaAddress : Type := list Z * Z * Z.

Definition read_ia_address : reader ParseError IaAddress :=
  let? addr := ByteReader.take 16 in
  let? preferred := ByteReader.u32_be in
  let? valid := ByteReader.u32_be in
  rret (addr, preferred, valid).

Definition suboption_round (found : option IaAddress) :
    reader ParseError (option IaAddress + option IaAddress) :=
  let? code := ByteReader.u16_be in
  let? len := ByteReader.u16_be in
  let? sub := ByteReader.take len in
  if (code =? OPTION_IAADDR) && is_none found
  then let? ia := within sub read_ia_address in rret (E:=ParseError) (inl (Some ia))
  else rret (E:=ParseError) (inl found).

Definition first_ia_address (data : list Z) : result (option IaAddress) ParseError :=
  walk_slice suboption_round None data.

Record Options := mkOptions {
  client_duid : option Value;
  server_duid : option Value;
  requested_ip : option Value;
  preferred_lifetime : option Z;
  valid_lifetime : option Z;
}.

(** The address of an IA option whose own fields take [skip] bytes. *)
Definition note_ia (skip : Z) (short : string) (data : list Z) (o : Options) : result Options ParseError :=
  if blen data <? skip then Error (PE_Malformed short) else
  let! found := first_ia_address (slice_from data skip) in
  Ok (match found with
      | Some (addr, preferred, valid) =>
          mkOptions (client_duid o) (server_duid o) (Some (Value_from_slice addr))
            (Some preferred) (Some valid)
      | None => o
      end).

Definition note_option (code : Z) (data : list Z) (o : Options) : result Options ParseError :=
  if (code =? OPTION_CLIENTID) && is_none (client_duid o) then
    Ok (mkOptions (Some (Value_from_slice data)) (server_duid o) (requested_ip o)
          (preferred_lifetime o) (valid_lifetime o))
  else if (code =? OPTION_SERVERID) && is_none (server_duid o) then
    Ok (mkOptions (client_duid o) (Some (Value_from_slice data)) (requested_ip o)
          (preferred_lifetime o) (valid_lifetime o))
  else if (code =? OPTION_IA_NA) && is_none (requested_ip o) then
    note_ia 12 "DHCPv6: IA_NA shorter than IAID+T1+T2 (RFC 8415 §21.4)" data o
  else if (code =? OPTION_IA_TA) && is_none (requested_ip o) then
    note_ia 4 "DHCPv6: IA_TA shorter than IAID (RFC 8415 §21.5)" data o
  else Ok o.

Definition option_round (o : Options) : reader ParseError (Options + Options) :=
  let? code := ByteReader.u16_be in
  let? len := ByteReader.u16_be in
  let? data := ByteReader.take len in
  let? o := of_result (note_option code data o) in
  rret (E:=ParseError) (inl o).

Definition header (available : Z) (ctx : ParseCtx) : reader ParseError ParsedLayer :=
  let? msg_type := ByteReader.u8 in
  if (msg_type =? RELAY_FORW) || (msg_type =? RELAY_REPL)
  then rfail (PE_Malformed "DHCPv6: relay message layout not supported (RFC 8415 §7.2)") else
  let? xid := ByteReader.take 3 in
  let transaction_id :=
    Z.lor (Z.lor (Z.shiftl (at_ix xid 0) 16) (Z.shiftl (at_ix xid 1) 8)) (at_ix xid 2) in
  let? o := while_left option_round (mkOptions None None None None None) in
  let fields := FieldMap.new in
  let fields := insert_at ctx DKeys [(APP, Value_from_str "dhcpv6")] fields in
  let fields := insert_at ctx DStructural
    [(MSG_TYPE, VU64 msg_type); (TRANSACTION_ID, VU64 transaction_id)] fields in
  let fields := insert_at ctx DFull
    (when_some (client_duid o) CLIENT_DUID Datatypes.id ++
     when_some (server_duid o) SERVER_DUID Datatypes.id ++
     when_some (requested_ip o) REQUESTED_IP Datatypes.id ++
     when_some (preferred_lifetime o) PREFERRED_LIFETIME VU64 ++
     when_some (valid_lifetime o) VALID_LIFETIME VU64) fields in
  rret {| pl_header_len := available; pl_fields := fields; pl_hint := Hint_Terminal |}.

Definition plugin : LayerPlugin := {|
  name := "dhcpv6";
  parse := fun bytes ctx => run_reader (header (blen bytes) ctx) bytes;
  claims := [UdpPort 547; UdpPort 546];
  expected_predecessors := [];
  has_probe := false;
  probe := fun _ _ => None;
  stream_identity := Some IDENTITY;
  condense := None |}.

(** Both option walks end with their bytes. *)
#[export] Instance suboption_progresses : Progresses suboption_round.
Proof. progress_round ltac:(unfold suboption_round). Qed.

#[export] Instance option_progresses : Progresses option_round.
Proof. progress_round ltac:(unfold option_round). Qed.

#[export] Instance readable_header : Readable (Some IDENTITY) header.
Proof. readable ltac:(unfold header). Qed.

#[global] Instance framed : Framed plugin.
Proof. exact (dissector_framed plugin header (Some IDENTITY) (fun _ _ => eq_refl) readable_header). Qed.

#[global] Instance keyed : Keyed plugin.
Proof. exact (dissector_keyed plugin header (Some IDENTITY) (fun _ _ => eq_refl) readable_header eq_refl). Qed.

(** The end of the bytes is the end of the message, so a prefix that stops
    between two options is a message. *)
Example dhcpv6_short_success : forall c,
  let solicit := [1; 0xA; 0xB; 0xC; 0; 1; 0; 2; 7; 7] in
  (exists l, parse plugin solicit c = Ok l /\ pl_header_len l = 10) /\
  (exists l, parse plugin (take 4 solicit) c = Ok l /\ pl_header_len l = 4).
Proof. intros c. split; eexists; (split; [vm_compute; reflexivity|reflexivity]). Qed.

End Dhcpv6.

Module Netflow9.

Definition APP : FieldName := "app".
Definition VERSION : FieldName := "version".
Definition COUNT : FieldName := "count".
Definition SEQUENCE : FieldName := "sequence".
Definition SOURCE_ID : FieldName := "source_id".
Definition FLOWSETS : FieldName := "flowsets".
Definition TEMPLATE_FLOWSET_ID : Z := 0.

Definition KEY : list KeyField := [mkKeyField APP None].
Definition ROLLUPS : list RollupSpec :=
  [mkRollupSpec SOURCE_ID RK_Accumulate].
Definition IDENTITY : StreamIdentity := {|
  key := KEY;
  canonicalize := EndpointSort;
  lifecycle := None;
  rollups := ROLLUPS |}.

Definition read_field_def : reader ParseError (list Value) :=
  let? field_type := ByteReader.u16_be in
  let? field_length := ByteReader.u16_be in
  rret [VU64 field_type; VU64 field_length].

(** [for _ in 0..n] of a reader that keeps what it reads. *)
Fixpoint read_defs (n : nat) : reader ParseError (list Value) :=
  match n with
  | O => rret []
  | S n' =>
      let? def := read_field_def in
      let? defs := read_defs n' in
      rret (E:=ParseError) (def ++ defs)
  end.

Definition template_round (records : list Value) : reader ParseError (list Value + list Value) :=
  let? template_id := ByteReader.u16_be in
  let? field_count := ByteReader.u16_be in
  let? field_defs := read_defs (Z.to_nat field_count) in
  rret (E:=ParseError)
    (inl (records ++ [VList [VU64 template_id; VU64 field_count; VList field_defs]])).

Definition decode_template_records (body : list Z) : result (list Value) ParseError :=
  run_reader (while_more (Z.leb 4) template_round []) body.

Definition flowset_round (flowsets : list Value) : reader ParseError (list Value + list Value) :=
  let? flowset_id := ByteReader.u16_be in
  let? length := ByteReader.u16_be in
  if length <? 4 then rfail (PE_Malformed "NetFlow: FlowSet length under 4") else
  let? body := ByteReader.take (length - 4) in
  let? payload :=
    if flowset_id =? TEMPLATE_FLOWSET_ID
    then let? records := of_result (decode_template_records body) in rret (E:=ParseError) (VList records)
    else rret (Value_from_slice body) in
  rret (E:=ParseError) (inl (flowsets ++ [VList [VU64 flowset_id; VU64 length; payload]])).

Definition header (ctx : ParseCtx) : reader ParseError ParsedLayer :=
  let? version := ByteReader.u16_be in
  if negb (version =? 9) then rfail (PE_Malformed "NetFlow: version is not 9") else
  let? count := ByteReader.u16_be in
  let? _sys_uptime := ByteReader.u32_be in
  let? _unix_secs := ByteReader.u32_be in
  let? sequence := ByteReader.u32_be in
  let? source_id := ByteReader.u32_be in
  let? header_len := consumed in
  let? flowsets := while_more (Z.leb 4) flowset_round [] in
  let fields := FieldMap.new in
  let fields := insert_at ctx DKeys [(APP, Value_from_str "netflow9")] fields in
  let fields := insert_at ctx DStructural
    [(VERSION, VU64 version); (COUNT, VU64 count); (SEQUENCE, VU64 sequence);
     (SOURCE_ID, VU64 source_id)] fields in
  let fields := insert_at ctx DFull [(FLOWSETS, VList flowsets)] fields in
  rret {| pl_header_len := header_len; pl_fields := fields; pl_hint := Hint_Terminal |}.

Definition plugin : LayerPlugin := {|
  name := "netflow9";
  parse := fun bytes ctx => run_reader (header ctx) bytes;
  claims := [UdpPort 2055];
  expected_predecessors := [];
  has_probe := false;
  probe := fun _ _ => None;
  stream_identity := Some IDENTITY;
  condense := None |}.

(** The walks over flow sets and template records end with their bytes. *)
#[export] Instance read_defs_forward n : Consumes (read_defs n) (fun k k' _ => k <= k').
Proof.
  intros k. revert k. induction n as [|n IH]; intros k; cbn [read_defs]; [apply consumes_ret; lia|].
  unfold read_field_def. repeat consume_step.
  eapply consumes_bind; [apply IH|]. intros ? ? Hk. consume_step. cbv beta in Hk. lia.
Qed.

#[export] Instance template_progresses : Progresses template_round.
Proof. progress_round ltac:(unfold template_round). Qed.

#[export] Instance flowset_progresses : Progresses flowset_round.
Proof. progress_round ltac:(unfold flowset_round). Qed.

#[export] Instance readable_header : Readable (Some IDENTITY) (fun _ => header).
Proof. readable ltac:(unfold header). Qed.

#[global] Instance framed : Framed plugin.
Proof. exact (dissector_framed plugin (fun _ => header) (Some IDENTITY) (fun _ _ => eq_refl) readable_header). Qed.

#[global] Instance keyed : Keyed plugin.
Proof. exact (dissector_keyed plugin (fun _ => header) (Some IDENTITY) (fun _ _ => eq_refl) readable_header eq_refl). Qed.

(** The length is that of the fixed header. *)
Definition fixed_len : reader ParseError Z :=
  let? version := ByteReader.u16_be in
  let? _count := ByteReader.u16_be in
  let? _sys_uptime := ByteReader.u32_be in
  let? _unix_secs := ByteReader.u32_be in
  let? _sequence := ByteReader.u32_be in
  let? _source_id := ByteReader.u32_be in
  let? header_len := consumed in
  rret (E:=ParseError) header_len.

#[global] Instance conformant : Conformant plugin.
Proof.
  constructor; [apply _|apply _|].
  apply (declining_announced plugin (fun _ => header) fixed_len (fun _ _ => eq_refl) _ _).
  announce ltac:(unfold header, fixed_len).
Qed.

End Netflow9.

Module Ipfix.

Definition APP : FieldName := "app".
Definition VERSION : FieldName := "version".
Definition LENGTH : FieldName := "length".
Definition SEQUENCE : FieldName := "sequence".
Definition DOMAIN_ID : FieldName := "domain_id".
Definition SETS : FieldName := "sets".
Definition HEADER_LEN : Z := 16.
Definition TEMPLATE_SET_ID : Z := 2.
Definition ENTERPRISE_BIT : Z := 0x8000.

Definition KEY : list KeyField := [mkKeyField APP None].
Definition ROLLUPS : list RollupSpec :=
  [mkRollupSpec DOMAIN_ID RK_Accumulate].
Definition IDENTITY : StreamIdentity := {|
  key := KEY;
  canonicalize := EndpointSort;
  lifecycle := None;
  rollups := ROLLUPS |}.

Definition read_field_spec : reader ParseError Value :=
  let? raw_ie_id := ByteReader.u16_be in
  let? field_length := ByteReader.u16_be in
  let? (ie_id, enterprise_number) :=
    if flag raw_ie_id ENTERPRISE_BIT
    then let? n := ByteReader.u32_be in rret (Z.land raw_ie_id (65535 - ENTERPRISE_BIT), n)
    else rret (raw_ie_id, 0) in
  rret (E:=ParseError) (VList [VU64 ie_id; VU64 field_length; VU64 enterprise_number]).

Definition template_round (records : list Value) : reader ParseError (list Value + list Value) :=
  let? template_id := ByteReader.u16_be in
  let? field_count := ByteReader.u16_be in
  let? field_defs := read_times (Z.to_nat field_count) read_field_spec in
  rret (E:=ParseError)
    (inl (records ++ [VList [VU64 template_id; VU64 field_count; VList field_defs]])).

Definition decode_template_records (body : list Z) : result (list Value) ParseError :=
  run_reader (while_more (Z.leb 4) template_round []) body.

Definition set_round (sets : list Value) : reader ParseError (list Value + list Value) :=
  let? set_id := ByteReader.u16_be in
  let? set_len := ByteReader.u16_be in
  if set_len <? 4 then rfail (PE_Malformed "IPFIX: Set length under 4") else
  let? set_body := ByteReader.take (set_len - 4) in
  let? payload :=
    if set_id =? TEMPLATE_SET_ID
    then let? records := of_result (decode_template_records set_body) in rret (E:=ParseError) (VList records)
    else rret (Value_from_slice set_body) in
  rret (E:=ParseError) (inl (sets ++ [VList [VU64 set_id; VU64 set_len; payload]])).

Definition header (ctx : ParseCtx) : reader ParseError ParsedLayer :=
  let? version := ByteReader.u16_be in
  if negb (version =? 10) then rfail (PE_Malformed "IPFIX: version is not 10") else
  let? length := ByteReader.u16_be in
  let? _export_time := ByteReader.u32_be in
  let? sequence := ByteReader.u32_be in
  let? domain_id := ByteReader.u32_be in
  if length <? HEADER_LEN then rfail (PE_Malformed "IPFIX: length below fixed header") else
  let? body := ByteReader.take (length - HEADER_LEN) in
  let? sets := within body (while_more (Z.leb 4) set_round []) in
  let fields := FieldMap.new in
  let fields := insert_at ctx DKeys [(APP, Value_from_str "ipfix")] fields in
  let fields := insert_at ctx DStructural
    [(VERSION, VU64 version); (LENGTH, VU64 length); (SEQUENCE, VU64 sequence);
     (DOMAIN_ID, VU64 domain_id)] fields in
  let fields := insert_at ctx DFull [(SETS, VList sets)] fields in
  rret {| pl_header_len := length; pl_fields := fields; pl_hint := Hint_Terminal |}.

Definition plugin : LayerPlugin := {|
  name := "ipfix";
  parse := fun bytes ctx => run_reader (header ctx) bytes;
  claims := [UdpPort 4739];
  expected_predecessors := [];
  has_probe := false;
  probe := fun _ _ => None;
  stream_identity := Some IDENTITY;
  condense := None |}.

(** The walks over sets and template records end with their bytes. *)
#[export] Instance read_specs_forward n : Consumes (read_times n read_field_spec) (fun k k' _ => k <= k').
Proof.
  intros k. revert k. induction n as [|n IH]; intros k; cbn [read_times]; [apply consumes_ret; lia|].
  unfold read_field_spec at 1. repeat consume_step;
    (eapply consumes_bind; [apply IH|]; intros ? ? Hk; consume_step; cbv beta in Hk; lia).
Qed.

#[export] Instance template_progresses : Progresses template_round.
Proof.
  intros n records. unfold template_round. do 2 consume_step.
  eapply consumes_bind; [apply consumes_here|]. intros n' defs Hn. consume_step. cbv beta in Hn. lia.
Qed.

#[export] Instance set_progresses : Progresses set_round.
Proof. progress_round ltac:(unfold set_round). Qed.

#[export] Instance disciplined : Disciplined (Some IDENTITY) (fun _ => header).
Proof. discipline ltac:(unfold header, HEADER_LEN). Qed.

#[global] Instance conformant : Conformant plugin.
Proof. exact (dissector_conformant plugin (fun _ => header) (fun _ _ => eq_refl) disciplined). Qed.

End Ipfix.

Module Syslog.

Definition APP : FieldName := "app".
Definition FACILITY : FieldName := "facility".
Definition SEVERITY : FieldName := "severity".
Definition VERSION : FieldName := "version".
Definition HOSTNAME : FieldName := "hostname".
Definition APP_NAME : FieldName := "app_name".
Definition MSG : FieldName := "msg".
Definition LEGACY_TIMESTAMP_LEN : Z := 15.
Definition MAX_TAG_LEN : Z := 32.

Definition KEY : list KeyField := [mkKeyField APP None].
Definition ROLLUPS : list RollupSpec :=
  [mkRollupSpec SEVERITY RK_Accumulate].
Definition IDENTITY : StreamIdentity := {|
  key := KEY;
  canonicalize := EndpointSort;
  lifecycle := None;
  rollups := ROLLUPS |}.

(** [while end - start < limit && bytes.get(end).is_some_and(p) { end += 1 }]. *)
Fixpoint scan (limit : nat) (p : Z -> bool) (bytes : list Z) (stop : Z) : Z :=
  match limit with
  | O => stop
  | S limit' =>
      match byte_at bytes stop with
      | Some b => if p b then scan limit' p bytes (stop + 1) else stop
      | None => stop
      end
  end.

Definition read_pri (bytes : list Z) : result (Z * Z) ParseError :=
  if negb (bool_decide (byte_at bytes 0 = Some 60))
  then Error (PE_Malformed "missing PRI open bracket") else
  let start := 1 in
  let stop := scan 3 is_digit bytes start in
  if stop =? start then Error (PE_Malformed "PRI has no digits") else
  if negb (bool_decide (byte_at bytes stop = Some 62))
  then Error (PE_Malformed "missing PRI close bracket") else
  let! digits := ok_or (slice bytes start stop) (PE_Malformed "PRI digit slice out of range") in
  let value := digits_value digits in
  if 191 <? value then Error (PE_Malformed "PRI exceeds facility*8+severity max")
  else Ok (value, stop + 1).

Definition read_version (bytes : list Z) (pos : Z) : option (Z * Z) :=
  first ← byte_at bytes pos;
  if negb (is_digit first) || (first =? 48) then None else
  let stop := scan 2 is_digit bytes (pos + 1) in
  if negb (bool_decide (byte_at bytes stop = Some 32)) then None else
  digits ← slice bytes pos stop;
  Some (Z.min (digits_value digits) 255, stop + 1).

Definition read_field (bytes : list Z) (pos : Z) : result (Z * Z * Z) ParseError :=
  let! rel := ok_or (Z.of_nat <$> (s ← slice bytes pos (blen bytes); position (Z.eqb 32) s))
    (PE_Malformed "expected SP-delimited header field") in
  let stop := pos + rel in
  if stop =? pos then Error (PE_Malformed "empty header field") else Ok (pos, stop, stop + 1).

(** A round reads on, so [length bytes] of them are enough. *)
Fixpoint sd_rounds (fuel : nat) (bytes : list Z) (p : Z) : result Z ParseError :=
  match fuel with
  | O => Error (PE_Malformed "unreachable")
  | S fuel' =>
      match byte_at bytes p with
      | Some b =>
          if b =? 93 then Ok (p + 1)
          else if b =? 92 then
            match byte_at bytes (p + 1) with
            | None => Error (PE_Malformed "dangling escape in structured data")
            | Some _ => sd_rounds fuel' bytes (p + 2)
            end
          else sd_rounds fuel' bytes (p + 1)
      | None => Error (PE_Malformed "unterminated structured-data element")
      end
  end.

Definition skip_sd_element (bytes : list Z) (open : Z) : result Z ParseError :=
  sd_rounds (S (length bytes)) bytes (open + 1).

Fixpoint skip_elements (fuel : nat) (bytes : list Z) (p : Z) : result Z ParseError :=
  match fuel with
  | O => Error (PE_Malformed "unreachable")
  | S fuel' =>
      if bool_decide (byte_at bytes p = Some 91)
      then let! p := skip_sd_element bytes p in skip_elements fuel' bytes p
      else Ok p
  end.

Definition skip_structured_data (bytes : list Z) (pos : Z) : result Z ParseError :=
  match byte_at bytes pos with
  | Some b =>
      if b =? 45 then Ok (pos + 1)
      else if b =? 91 then skip_elements (S (length bytes)) bytes pos
      else Error (PE_Malformed "invalid structured-data marker")
  | None => Error (PE_Malformed "invalid structured-data marker")
  end.

Definition trailing_msg (bytes : list Z) (pos : Z) : result (option (Z * Z)) ParseError :=
  match byte_at bytes pos with
  | None => Ok None
  | Some b =>
      if b =? 32 then
        let msg_start := pos + 1 in
        if blen bytes <=? msg_start then Error (PE_Malformed "dangling separator with empty message")
        else Ok (Some (msg_start, blen bytes))
      else Error (PE_Malformed "expected SP before message")
  end.

Definition to_str (bytes : list Z) : string := lossy bytes.

(** The tuple both formats end with. *)
Record Message := mkMessage {
  facility : Z;
  severity : Z;
  version : option Z;
  hostname : option string;
  app_name : option string;
  msg : option string;
  header_len : Z;
}.

(** The fields' texts and the length, from where they are. *)
Definition message_of (bytes : list Z) (pri : Z) (version : option Z) (hn an : Z * Z) (stop : Z)
    (msg_range : option (Z * Z)) : Message :=
  let text r := to_str <$> slice bytes (fst r) (snd r) in
  mkMessage (Z.shiftr pri 3) (Z.land pri 0x07) version (text hn) (text an) (msg_range ≫= text)
    (match msg_range with Some (_, e) => e | None => stop end).

Definition read_5424 (bytes : list Z) (pri version pos : Z) : result Message ParseError :=
  let! (_, _, pos) := read_field bytes pos in
  let! (hn_s, hn_e, pos) := read_field bytes pos in
  let! (an_s, an_e, pos) := read_field bytes pos in
  let! (_, _, pos) := read_field bytes pos in
  let! (_, _, pos) := read_field bytes pos in
  let! sd_end := skip_structured_data bytes pos in
  let! msg_range := trailing_msg bytes sd_end in
  Ok (message_of bytes pri (Some version) (hn_s, hn_e) (an_s, an_e) sd_end msg_range).

(** The optional [\[PID\]] after the tag: where it ends. *)
Definition skip_pid (bytes : list Z) (p : Z) : result Z ParseError :=
  if bool_decide (byte_at bytes p = Some 91) then
    let pid_start := p + 1 in
    let pid_end := scan (length bytes) is_digit bytes pid_start in
    if (pid_end =? pid_start) || negb (bool_decide (byte_at bytes pid_end = Some 93))
    then Error (PE_Malformed "malformed legacy PID suffix")
    else Ok (pid_end + 1)
  else Ok p.

Definition read_timestamp : reader ParseError (list Z) :=
  let? t := ByteReader.take LEGACY_TIMESTAMP_LEN in rret (E:=ParseError) t.

Definition read_3164 (bytes : list Z) (pri pos : Z) : result Message ParseError :=
  let! _ := run_reader read_timestamp (slice_from bytes pos) in
  let ts_end := pos + LEGACY_TIMESTAMP_LEN in
  if negb (bool_decide (byte_at bytes ts_end = Some 32))
  then Error (PE_Malformed "missing SP after legacy timestamp") else
  let! (hn_s, hn_e, tag_start) := read_field bytes (ts_end + 1) in
  let tag_end := scan (Z.to_nat MAX_TAG_LEN) is_alphanumeric bytes tag_start in
  if tag_end =? tag_start then Error (PE_Malformed "empty legacy TAG") else
  let! p := skip_pid bytes tag_end in
  if negb (bool_decide (byte_at bytes p = Some 58))
  then Error (PE_Malformed "missing legacy TAG terminator") else
  let colon_end := p + 1 in
  let! msg_range := trailing_msg bytes colon_end in
  Ok (message_of bytes pri None (hn_s, hn_e) (tag_start, tag_end) colon_end msg_range).

Definition core (bytes : list Z) (ctx : ParseCtx) : result Message ParseError :=
  let! (pri, pos) := read_pri bytes in
  match read_version bytes pos with
  | Some (version, pos) => read_5424 bytes pri version pos
  | None => read_3164 bytes pri pos
  end.

Definition layer (ctx : ParseCtx) (x : Message) : ParsedLayer :=
  let fields := FieldMap.new in
  let fields := insert_at ctx DKeys [(APP, Value_from_str "syslog")] fields in
  let fields := insert_at ctx DStructural
    [(FACILITY, VU64 (facility x)); (SEVERITY, VU64 (severity x));
     (VERSION, VU64 (default 0 (version x)))] fields in
  let fields := insert_at ctx DFull
    (when_some (hostname x) HOSTNAME Value_from_str ++ when_some (app_name x) APP_NAME Value_from_str ++
     when_some (msg x) MSG Value_from_str) fields in
  {| pl_header_len := header_len x; pl_fields := fields; pl_hint := Hint_Terminal |}.

Definition header (bytes : list Z) (ctx : ParseCtx) : result ParsedLayer ParseError :=
  let! x := core bytes ctx in Ok (layer ctx x).

Definition plugin : LayerPlugin := {|
  name := "syslog";
  parse := header;
  claims := [UdpPort 514];
  expected_predecessors := [];
  has_probe := false;
  probe := fun _ _ => None;
  stream_identity := Some IDENTITY;
  condense := None |}.

(** The element walks move on in every round: more rounds change nothing. *)
Lemma sd_rounds_enough bytes fuel fuel' p :
  0 <= p <= blen bytes -> blen bytes - p < Z.of_nat fuel -> blen bytes - p < Z.of_nat fuel' ->
  sd_rounds fuel bytes p = sd_rounds fuel' bytes p.
Proof.
  revert fuel' p. induction fuel as [|fuel IH]; intros fuel' p Hp H H'; [lia|].
  destruct fuel' as [|fuel']; [lia|]. cbn [sd_rounds].
  destruct (byte_at bytes p) as [b|] eqn:Hb; [|done]. apply byte_at_inside in Hb.
  destruct (b =? 93); [done|]. destruct (b =? 92); [|apply IH; lia].
  destruct (byte_at bytes (p + 1)) eqn:Hb1; [|done]. apply byte_at_inside in Hb1. apply IH; lia.
Qed.

Lemma sd_rounds_inside bytes fuel p q : 0 <= p -> sd_rounds fuel bytes p = Ok q -> p < q <= blen bytes.
Proof.
  revert p. induction fuel as [|fuel IH]; intros p Hp; [done|]. cbn [sd_rounds].
  destruct (byte_at bytes p) as [b|] eqn:Hb; [|done]. apply byte_at_inside in Hb.
  destruct (b =? 93); [intros [= <-]; lia|]. destruct (b =? 92).
  - destruct (byte_at bytes (p + 1)); [|done]. intros H%IH; lia.
  - intros H%IH; lia.
Qed.

Lemma skip_elements_inside bytes fuel p q :
  0 <= p <= blen bytes -> skip_elements fuel bytes p = Ok q -> 0 <= q <= blen bytes.
Proof.
  revert p. induction fuel as [|fuel IH]; intros p Hp; [done|]. cbn [skip_elements].
  case_match; [|by intros [= <-]]. rewrite result_bind_Ok. intros (p' & Hp' & Hq).
  apply sd_rounds_inside in Hp'; [|lia]. apply IH in Hq; lia.
Qed.

Lemma skip_elements_enough bytes fuel fuel' p :
  0 <= p <= blen bytes -> blen bytes - p < Z.of_nat fuel -> blen bytes - p < Z.of_nat fuel' ->
  skip_elements fuel bytes p = skip_elements fuel' bytes p.
Proof.
  revert fuel' p. induction fuel as [|fuel IH]; intros fuel' p Hp H H'; [lia|].
  destruct fuel' as [|fuel']; [lia|]. cbn [skip_elements]. case_match; [|done].
  destruct (skip_sd_element bytes p) as [q|e] eqn:Hq; [|done]. cbn [result_bind].
  apply sd_rounds_inside in Hq; [|lia]. apply IH; lia.
Qed.

Lemma skip_structured_data_inside bytes p q :
  skip_structured_data bytes p = Ok q -> 0 <= q <= blen bytes.
Proof.
  unfold skip_structured_data. destruct (byte_at bytes p) as [b|] eqn:Hb; [|done]. apply byte_at_inside in Hb.
  destruct (b =? 45); [intros [= <-]; lia|]. destruct (b =? 91); [|done]. apply skip_elements_inside. lia.
Qed.

Lemma message_inside bytes pri v hn an stop r :
  0 <= stop <= blen bytes -> trailing_msg bytes stop = Ok r ->
  0 <= header_len (message_of bytes pri v hn an stop r) <= blen bytes.
Proof.
  intros Hs. unfold trailing_msg, message_of. cbn [header_len]. pose proof (blen_nonneg bytes).
  destruct (byte_at bytes stop) as [b|]; [|by intros [= <-]].
  destruct (b =? 32); [|done]. destruct (_ <=? _); [done|]. intros [= <-]. lia.
Qed.

Lemma syslog_inside bytes c x : core bytes c = Ok x -> 0 <= header_len x <= blen bytes.
Proof.
  unfold core. rewrite result_bind_Ok. intros ([pri pos] & _ & Hx).
  destruct (read_version bytes pos) as [[v pos']|].
  - unfold read_5424 in Hx. repeat (apply result_bind_Ok in Hx as ([[? ?] ?] & _ & Hx)).
    apply result_bind_Ok in Hx as (sd & Hsd%skip_structured_data_inside & Hx).
    apply result_bind_Ok in Hx as (r & Hr & [= <-]). by apply message_inside.
  - unfold read_3164 in Hx. apply result_bind_Ok in Hx as (? & _ & Hx). cbv zeta in Hx.
    case_match; [done|]. apply result_bind_Ok in Hx as ([[? ?] ?] & _ & Hx).
    case_match; [done|]. apply result_bind_Ok in Hx as (p & _ & Hx).
    destruct (negb (bool_decide (byte_at bytes p = Some 58))) eqn:Hp; [done|].
    apply negb_false_iff, bool_decide_eq_true, byte_at_inside in Hp.
    apply result_bind_Ok in Hx as (r & Hr & Hx%Ok_inj). rewrite <- Hx. apply message_inside; [lia|done].
Qed.

#[export] Instance layered_message : Layered plugin core layer (Some IDENTITY).
Proof. layered ltac:(unfold layer) ltac:(intros bytes c x; exact (syslog_inside bytes c x)). Qed.

#[global] Instance framed : Framed plugin.
Proof. exact (layered_framed _ core layer _). Qed.

#[global] Instance keyed : Keyed plugin.
Proof. exact (layered_keyed _ core layer _ eq_refl). Qed.

(** The message runs to the end of the bytes, so one that lost its last bytes
    is a message still. *)
Example syslog_short_success : forall c,
  let line := str_bytes "<34>Oct 11 22:14:15 host su: failed" in
  (exists l, parse plugin line c = Ok l /\ pl_header_len l = 35) /\
  (exists l, parse plugin (take 30 line) c = Ok l /\ pl_header_len l = 30).
Proof. intros c. split; eexists; (split; [vm_compute; reflexivity|reflexivity]). Qed.

End Syslog.
