(* ===== verification/PlugMail.v ===== *)
(** * Mail, file-transfer control and file-service dissectors

    Models [pop3.rs], [smtp.rs], [ftp.rs], [imap.rs], [nfs.rs], [tftp.rs] and
    [smb2.rs] of [crates/pktflow-plugins/src].  The first four read one line,
    ended by its line feed, that is either a reply or a command of a closed
    vocabulary. *)

From S2P Require Import Prelude Values Bytes Utf8 Text Types Contract PlugKit PlugScan PlugText.
Local Open Scope reader_scope.

Module Pop3.

Definition APP : FieldName := "app".
Definition IS_REQUEST : FieldName := "is_request".
Definition COMMAND : FieldName := "command".
Definition STATUS : FieldName := "status".
Definition ARG : FieldName := "arg".
Definition COMMANDS : list string :=
  ["USER"; "PASS"; "APOP"; "STAT"; "LIST"; "RETR"; "DELE"; "NOOP"; "RSET"; "QUIT"; "TOP";
   "UIDL"; "CAPA"; "STLS"; "AUTH"]%string.

Definition KEY : list KeyField := [mkKeyField APP None].
Definition ROLLUPS : list RollupSpec :=
  [mkRollupSpec COMMAND RK_Accumulate].
Definition IDENTITY : StreamIdentity := {|
  key := KEY;
  canonicalize := EndpointSort;
  lifecycle := None;
  rollups := ROLLUPS |}.

Definition split_line := PlugText.split_line.

Definition after_status (status line : list Z) : option (list Z) :=
  match line !! length status with
  | None => Some (drop (length status) line)
  | Some b => if b =? 32 then Some (drop (length status + 1) line) else None
  end.

Definition parse_status (line : list Z) : option (list Z * list Z) :=
  find_map (fun status =>
    if begins_with status line then rest ← after_status status line; Some (status, rest) else None)
    [str_bytes "+OK"; str_bytes "-ERR"].

Definition parse_command : list Z -> option (string * list Z) := PlugText.parse_command COMMANDS.

Inductive Line :=
  | Status (status rest : list Z)
  | Command (command : string) (arg : list Z).

Definition classify (line : list Z) : result Line ParseError :=
  match parse_status line with
  | Some (status, rest) => Ok (Status status rest)
  | None =>
      match parse_command line with
      | Some (command, arg) => Ok (Command command arg)
      | None => Error (PE_Malformed "not a POP3 status line or command line")
      end
  end.

Definition core (bytes : list Z) (ctx : ParseCtx) : result (Z * Line) ParseError :=
  let! (line, header_len) := ok_or (split_line bytes) (unterminated bytes) in
  let! x := classify line in
  Ok (header_len, x).

Definition structural_fields (x : Line) : list (FieldName * Value) :=
  match x with
  | Status status _ => [(IS_REQUEST, VBool false); (STATUS, Value_from_str (lossy status))]
  | Command command _ => [(IS_REQUEST, VBool true); (COMMAND, Value_from_str command)]
  end.

Definition full_fields (x : Line) : list (FieldName * Value) :=
  match x with Status _ text | Command _ text => [(ARG, Value_from_str (lossy text))] end.

Definition layer (ctx : ParseCtx) (x : Z * Line) : ParsedLayer :=
  let fields := FieldMap.new in
  let fields := insert_at ctx DKeys [(APP, Value_from_str "pop3")] fields in
  let fields := insert_at ctx DStructural (structural_fields (snd x)) fields in
  let fields := insert_at ctx DFull (full_fields (snd x)) fields in
  {| pl_header_len := fst x; pl_fields := fields; pl_hint := Hint_Terminal |}.

Definition header (bytes : list Z) (ctx : ParseCtx) : result ParsedLayer ParseError :=
  let! x := core bytes ctx in Ok (layer ctx x).

Definition plugin : LayerPlugin := {|
  name := "pop3";
  parse := header;
  claims := [TcpPort 110];
  expected_predecessors := [];
  has_probe := false;
  probe := fun _ _ => None;
  stream_identity := Some IDENTITY;
  condense := None |}.

#[global] Instance conformant : Conformant plugin.
Proof.
  apply (ended_conformant plugin split_line classify layer (Some IDENTITY)); [|reflexivity].
  layered ltac:(unfold layer)
    ltac:(intros bytes c [n x] Hx; exact (ended_inside split_line classify _ _ _ _ Hx)).
Qed.

End Pop3.

Module Smtp.

Definition APP : FieldName := "app".
Definition IS_REQUEST : FieldName := "is_request".
Definition COMMAND : FieldName := "command".
Definition REPLY_CODE : FieldName := "reply_code".
Definition ARG : FieldName := "arg".
Definition COMMANDS : list string :=
  ["HELO"; "EHLO"; "MAIL"; "RCPT"; "DATA"; "RSET"; "VRFY"; "EXPN"; "HELP"; "NOOP"; "QUIT";
   "STARTTLS"; "AUTH"; "BDAT"; "ETRN"; "TURN"; "SEND"; "SOML"; "SAML"]%string.

Definition KEY : list KeyField := [mkKeyField APP None].
Definition ROLLUPS : list RollupSpec :=
  [mkRollupSpec COMMAND RK_Accumulate; mkRollupSpec REPLY_CODE RK_Accumulate].
Definition IDENTITY : StreamIdentity := {|
  key := KEY;
  canonicalize := EndpointSort;
  lifecycle := None;
  rollups := ROLLUPS |}.

Definition split_line := PlugText.split_line.

Definition parse_reply_code : list Z -> option (Z * list Z) := PlugText.parse_reply_code.

Definition parse_command : list Z -> option (string * list Z) := PlugText.parse_command COMMANDS.

Inductive Line :=
  | Reply (code : Z) (rest : list Z)
  | Command (command : string) (arg : list Z).

Definition classify (line : list Z) : result Line ParseError :=
  match parse_reply_code line with
  | Some (code, rest) => Ok (Reply code rest)
  | None =>
      match parse_command line with
      | Some (command, arg) => Ok (Command command arg)
      | None => Error (PE_Malformed "not an SMTP reply code or command line")
      end
  end.

Definition core (bytes : list Z) (ctx : ParseCtx) : result (Z * Line) ParseError :=
  let! (line, header_len) := ok_or (split_line bytes) (unterminated bytes) in
  let! x := classify line in
  Ok (header_len, x).

Definition structural_fields (x : Line) : list (FieldName * Value) :=
  match x with
  | Reply code _ => [(IS_REQUEST, VBool false); (REPLY_CODE, VU64 code)]
  | Command command _ => [(IS_REQUEST, VBool true); (COMMAND, Value_from_str command)]
  end.

Definition full_fields (x : Line) : list (FieldName * Value) :=
  match x with Reply _ text | Command _ text => [(ARG, Value_from_str (lossy text))] end.

Definition layer (ctx : ParseCtx) (x : Z * Line) : ParsedLayer :=
  let fields := FieldMap.new in
  let fields := insert_at ctx DKeys [(APP, Value_from_str "smtp")] fields in
  let fields := insert_at ctx DStructural (structural_fields (snd x)) fields in
  let fields := insert_at ctx DFull (full_fields (snd x)) fields in
  {| pl_header_len := fst x; pl_fields := fields; pl_hint := Hint_Terminal |}.

Definition header (bytes : list Z) (ctx : ParseCtx) : result ParsedLayer ParseError :=
  let! x := core bytes ctx in Ok (layer ctx x).

Definition plugin : LayerPlugin := {|
  name := "smtp";
  parse := header;
  claims := [TcpPort 25];
  expected_predecessors := [];
  has_probe := false;
  probe := fun _ _ => None;
  stream_identity := Some IDENTITY;
  condense := None |}.

#[global] Instance conformant : Conformant plugin.
Proof.
  apply (ended_conformant plugin split_line classify layer (Some IDENTITY)); [|reflexivity].
  layered ltac:(unfold layer)
    ltac:(intros bytes c [n x] Hx; exact (ended_inside split_line classify _ _ _ _ Hx)).
Qed.

End Smtp.

Module Ftp.

Definition APP : FieldName := "app".
Definition IS_REQUEST : FieldName := "is_request".
Definition COMMAND : FieldName := "command".
Definition REPLY_CODE : FieldName := "reply_code".
Definition ARG : FieldName := "arg".
Definition COMMANDS : list string :=
  ["USER"; "PASS"; "ACCT"; "CWD"; "CDUP"; "SMNT"; "QUIT"; "REIN"; "PORT"; "PASV"; "TYPE";
   "STRU"; "MODE"; "RETR"; "STOR"; "STOU"; "APPE"; "ALLO"; "REST"; "RNFR"; "RNTO"; "ABOR";
   "DELE"; "RMD"; "MKD"; "PWD"; "LIST"; "NLST"; "SITE"; "SYST"; "STAT"; "HELP"; "NOOP"; "FEAT";
   "OPTS"; "AUTH"; "ADAT"; "PBSZ"; "PROT"; "CCC"; "MIC"; "CONF"; "ENC"; "EPRT"; "EPSV"; "SIZE";
   "MDTM"; "MLSD"; "MLST"; "LANG"; "XPWD"; "XCWD"; "XMKD"; "XRMD"; "XCUP"]%string.

Definition KEY : list KeyField := [mkKeyField APP None].
Definition ROLLUPS : list RollupSpec :=
  [mkRollupSpec COMMAND RK_Accumulate; mkRollupSpec REPLY_CODE RK_Accumulate].
Definition IDENTITY : StreamIdentity := {|
  key := KEY;
  canonicalize := EndpointSort;
  lifecycle := None;
  rollups := ROLLUPS |}.

Definition split_line := PlugText.split_line.

Definition parse_reply_code : list Z -> option (Z * list Z) := PlugText.parse_reply_code.

Definition parse_command : list Z -> option (string * list Z) := PlugText.parse_command COMMANDS.

Inductive Line :=
  | Reply (code : Z) (rest : list Z)
  | Command (command : string) (arg : list Z).

Definition classify (line : list Z) : result Line ParseError :=
  match parse_reply_code line with
  | Some (code, rest) => Ok (Reply code rest)
  | None =>
      match parse_command line with
      | Some (command, arg) => Ok (Command command arg)
      | None => Error (PE_Malformed "not an FTP reply code or command line")
      end
  end.

Definition core (bytes : list Z) (ctx : ParseCtx) : result (Z * Line) ParseError :=
  let! (line, header_len) := ok_or (split_line bytes) (unterminated bytes) in
  let! x := classify line in
  Ok (header_len, x).

Definition structural_fields (x : Line) : list (FieldName * Value) :=
  match x with
  | Reply code _ => [(IS_REQUEST, VBool false); (REPLY_CODE, VU64 code)]
  | Command command _ => [(IS_REQUEST, VBool true); (COMMAND, Value_from_str command)]
  end.

Definition full_fields (x : Line) : list (FieldName * Value) :=
  match x with Reply _ text | Command _ text => [(ARG, Value_from_str (lossy text))] end.

Definition layer (ctx : ParseCtx) (x : Z * Line) : ParsedLayer :=
  let fields := FieldMap.new in
  let fields := insert_at ctx DKeys [(APP, Value_from_str "ftp")] fields in
  let fields := insert_at ctx DStructural (structural_fields (snd x)) fields in
  let fields := insert_at ctx DFull (full_fields (snd x)) fields in
  {| pl_header_len := fst x; pl_fields := fields; pl_hint := Hint_Terminal |}.

Definition header (bytes : list Z) (ctx : ParseCtx) : result ParsedLayer ParseError :=
  let! x := core bytes ctx in Ok (layer ctx x).

Definition plugin : LayerPlugin := {|
  name := "ftp";
  parse := header;
  claims := [TcpPort 21];
  expected_predecessors := [];
  has_probe := false;
  probe := fun _ _ => None;
  stream_identity := Some IDENTITY;
  condense := None |}.

#[global] Instance conformant : Conformant plugin.
Proof.
  apply (ended_conformant plugin split_line classify layer (Some IDENTITY)); [|reflexivity].
  layered ltac:(unfold layer)
    ltac:(intros bytes c [n x] Hx; exact (ended_inside split_line classify _ _ _ _ Hx)).
Qed.

End Ftp.

Module Imap.

Definition APP : FieldName := "app".
Definition TAG : FieldName := "tag".
Definition COMMAND : FieldName := "command".
Definition IS_RESPONSE : FieldName := "is_response".
Definition RESPONSE_STATUS : FieldName := "response_status".
Definition ARGS : FieldName := "args".
Definition COMMANDS : list string :=
  ["CAPABILITY"; "NOOP"; "LOGOUT"; "STARTTLS"; "AUTHENTICATE"; "LOGIN"; "ENABLE"; "SELECT";
   "EXAMINE"; "CREATE"; "DELETE"; "RENAME"; "SUBSCRIBE"; "UNSUBSCRIBE"; "LIST"; "LSUB";
   "NAMESPACE"; "STATUS"; "APPEND"; "IDLE"; "CLOSE"; "UNSELECT"; "EXPUNGE"; "SEARCH"; "FETCH";
   "STORE"; "COPY"; "MOVE"; "UID"; "CHECK"]%string.

Definition KEY : list KeyField := [mkKeyField APP None].
Definition ROLLUPS : list RollupSpec :=
  [mkRollupSpec COMMAND RK_Accumulate].
Definition IDENTITY : StreamIdentity := {|
  key := KEY;
  canonicalize := EndpointSort;
  lifecycle := None;
  rollups := ROLLUPS |}.

Definition split_line := PlugText.split_line.

Definition split_tag_and_second_token (line : list Z) : option (list Z * list Z * list Z) :=
  tag_end ← position (Z.eqb 32) line;
  if (tag_end =? 0)%nat then None else
  let tag := take tag_end line in
  let rest := drop (tag_end + 1) line in
  let second_end := default (length rest) (position (Z.eqb 32) rest) in
  if (second_end =? 0)%nat then None else
  let second := take second_end rest in
  let args := if (second_end <? length rest)%nat then drop (second_end + 1) rest else drop second_end rest in
  Some (tag, second, args).

Definition is_response_status (token : list Z) : bool :=
  bytes_are "OK" token || bytes_are "NO" token || bytes_are "BAD" token.

Definition is_valid_tag (tag : list Z) : bool :=
  bytes_are "*" tag || bytes_are "+" tag || forallb (fun b => is_alphanumeric b || (b =? 46)) tag.

(** The tag, the second token, the arguments and the command, if it is one. *)
Record Line := mkLine {
  tag : list Z;
  second : list Z;
  args : list Z;
  command : option string;
}.

Definition read_line (line : list Z) : result Line ParseError :=
  let! (tag, second, args) :=
    ok_or (split_tag_and_second_token line) (PE_Malformed "not a tag + token IMAP line") in
  if negb (is_valid_tag tag) then Error (PE_Malformed "IMAP line does not start with a tag") else
  let untagged := bytes_are "*" tag || bytes_are "+" tag in
  let command :=
    if negb (is_response_status second) then str_from_utf8 (upper_byte <$> second) else None in
  match command with
  | Some c =>
      if negb untagged && negb (existsb (String.eqb c) COMMANDS)
      then Error (PE_Malformed "unrecognized IMAP command")
      else Ok (mkLine tag second args command)
  | None => Ok (mkLine tag second args command)
  end.

Definition core (bytes : list Z) (ctx : ParseCtx) : result (Z * Line) ParseError :=
  let! (line, header_len) := ok_or (split_line bytes) (unterminated bytes) in
  let! x := read_line line in
  Ok (header_len, x).

Definition structural_fields (x : Line) : list (FieldName * Value) :=
  (TAG, Value_from_str (lossy (tag x))) ::
  (if is_response_status (second x)
   then [(IS_RESPONSE, VBool true); (RESPONSE_STATUS, Value_from_str (lossy (second x)))]
   else match command x with
        | Some c => [(IS_RESPONSE, VBool false); (COMMAND, Value_from_str c)]
        | None => []
        end).

Definition layer (ctx : ParseCtx) (x : Z * Line) : ParsedLayer :=
  let fields := FieldMap.new in
  let fields := insert_at ctx DKeys [(APP, Value_from_str "imap")] fields in
  let fields := insert_at ctx DStructural (structural_fields (snd x)) fields in
  let fields := insert_at ctx DFull [(ARGS, Value_from_str (lossy (args (snd x))))] fields in
  {| pl_header_len := fst x; pl_fields := fields; pl_hint := Hint_Terminal |}.

Definition header (bytes : list Z) (ctx : ParseCtx) : result ParsedLayer ParseError :=
  let! x := core bytes ctx in Ok (layer ctx x).

Definition plugin : LayerPlugin := {|
  name := "imap";
  parse := header;
  claims := [TcpPort 143];
  expected_predecessors := [];
  has_probe := false;
  probe := fun _ _ => None;
  stream_identity := Some IDENTITY;
  condense := None |}.

#[global] Instance conformant : Conformant plugin.
Proof.
  apply (ended_conformant plugin split_line read_line layer (Some IDENTITY)); [|reflexivity].
  layered ltac:(unfold layer)
    ltac:(intros bytes c [n x] Hx; exact (ended_inside split_line read_line _ _ _ _ Hx)).
Qed.

End Imap.

Module Nfs.

Definition APP : FieldName := "app".
Definition XID : FieldName := "xid".
Definition MSG_TYPE : FieldName := "msg_type".
Definition PROGRAM : FieldName := "program".
Definition PROGRAM_VERSION : FieldName := "program_version".
Definition PROCEDURE : FieldName := "procedure".
Definition RPC_CALL : Z := 0.
Definition RPC_REPLY : Z := 1.
Definition RPC_VERSION_2 : Z := 2.
Definition MSG_ACCEPTED : Z := 0.
Definition MSG_DENIED : Z := 1.

Definition KEY : list KeyField := [mkKeyField APP None].
Definition ROLLUPS : list RollupSpec :=
  [mkRollupSpec PROCEDURE RK_Accumulate].
Definition IDENTITY : StreamIdentity := {|
  key := KEY;
  canonicalize := EndpointSort;
  lifecycle := None;
  rollups := ROLLUPS |}.

Definition call_fields (xid program program_version procedure : Z) : list (FieldName * Value) :=
  [(XID, VU64 xid); (MSG_TYPE, Value_from_str "call"); (PROGRAM, VU64 program);
   (PROGRAM_VERSION, VU64 program_version); (PROCEDURE, VU64 procedure)].

(** The [match msg_type]: the header's length and its structural fields. *)
Definition read_body (prefix_len xid msg_type : Z) :
    reader ParseError (Z * list (FieldName * Value)) :=
  if msg_type =? RPC_CALL then
    let? rpcvers := ByteReader.u32_be in
    if negb (rpcvers =? RPC_VERSION_2)
    then rfail (PE_Malformed "unsupported ONC RPC version") else
    let? program := ByteReader.u32_be in
    let? program_version := ByteReader.u32_be in
    let? procedure := ByteReader.u32_be in
    rret (E:=ParseError) (prefix_len + 24, call_fields xid program program_version procedure)
  else if msg_type =? RPC_REPLY then
    let? reply_stat := ByteReader.u32_be in
    if negb (reply_stat =? MSG_ACCEPTED) && negb (reply_stat =? MSG_DENIED)
    then rfail (PE_Malformed "unrecognized RPC reply_stat")
    else rret (E:=ParseError) (prefix_len + 12, [(XID, VU64 xid); (MSG_TYPE, Value_from_str "reply")])
  else rfail (PE_Malformed "unrecognized RPC msg_type").

Definition header (ctx : ParseCtx) : reader ParseError ParsedLayer :=
  let is_tcp := bool_decide (protocol <$> ctx_prev ctx = Some "tcp"%string) in
  let? prefix_len :=
    if is_tcp then let? _record_marking := ByteReader.u32_be in rret 4 else rret 0 in
  let? xid := ByteReader.u32_be in
  let? msg_type := ByteReader.u32_be in
  let fields := FieldMap.new in
  let fields := insert_at ctx DKeys [(APP, Value_from_str "nfs")] fields in
  let? (header_len, structural) := read_body prefix_len xid msg_type in
  let fields := insert_at ctx DStructural structural fields in
  rret {| pl_header_len := header_len; pl_fields := fields; pl_hint := Hint_Terminal |}.

Definition plugin : LayerPlugin := {|
  name := "nfs";
  parse := fun bytes ctx => run_reader (header ctx) bytes;
  claims := [UdpPort 2049; TcpPort 2049];
  expected_predecessors := [];
  has_probe := false;
  probe := fun _ _ => None;
  stream_identity := Some IDENTITY;
  condense := None |}.

#[export] Instance disciplined : Disciplined (Some IDENTITY) (fun _ => header).
Proof. discipline ltac:(unfold header, read_body). Qed.

#[global] Instance conformant : Conformant plugin.
Proof. exact (dissector_conformant plugin (fun _ => header) (fun _ _ => eq_refl) disciplined). Qed.

End Nfs.

Module Tftp.

Definition OPCODE : FieldName := "opcode".
Definition FILENAME : FieldName := "filename".
Definition MODE : FieldName := "mode".
Definition BLOCK_NUM : FieldName := "block_num".
Definition ERROR_CODE : FieldName := "error_code".
Definition ERROR_MSG : FieldName := "error_msg".
Definition OP_RRQ : Z := 1.
Definition OP_WRQ : Z := 2.
Definition OP_DATA : Z := 3.
Definition OP_ACK : Z := 4.
Definition OP_ERROR : Z := 5.

Definition cstring_round (out : list Z) : reader ParseError (list Z + list Z) :=
  let? b := ByteReader.u8 in
  rret (if b =? 0 then inr out else inl (out ++ [b])).

Definition read_cstring : reader ParseError (list Z) :=
  read_loop (PE_Malformed "unreachable") cstring_round [].

(** The [match opcode]: the header's length and its structural and full fields. *)
Definition read_body (opcode : Z) :
    reader ParseError (Z * list (FieldName * Value) * list (FieldName * Value)) :=
  if (opcode =? OP_RRQ) || (opcode =? OP_WRQ) then
    let? filename := read_cstring in
    let? mode := read_cstring in
    let? used := consumed in
    rret (E:=ParseError) (used, [(FILENAME, Value_from_str (lossy filename)); (MODE, Value_from_str (lossy mode))], [])
  else if (opcode =? OP_DATA) || (opcode =? OP_ACK) then
    let? block_num := ByteReader.u16_be in
    rret (E:=ParseError) (4, [], [(BLOCK_NUM, VU64 block_num)])
  else if opcode =? OP_ERROR then
    let? error_code := ByteReader.u16_be in
    let? error_msg := read_cstring in
    let? used := consumed in
    rret (E:=ParseError) (used, [], [(ERROR_CODE, VU64 error_code); (ERROR_MSG, Value_from_str (lossy error_msg))])
  else rfail (PE_Malformed "unrecognized TFTP opcode").

Definition header (ctx : ParseCtx) : reader ParseError ParsedLayer :=
  let? opcode := ByteReader.u16_be in
  let fields := FieldMap.new in
  let fields := insert_at ctx DStructural [(OPCODE, VU64 opcode)] fields in
  let? (header_len, structural, full) := read_body opcode in
  let fields := insert_at ctx DStructural structural fields in
  let fields := insert_at ctx DFull full fields in
  rret {| pl_header_len := header_len; pl_fields := fields; pl_hint := Hint_Terminal |}.

Definition plugin : LayerPlugin := {|
  name := "tftp";
  parse := fun bytes ctx => run_reader (header ctx) bytes;
  claims := [UdpPort 69];
  expected_predecessors := [];
  has_probe := false;
  probe := fun _ _ => None;
  stream_identity := None;
  condense := None |}.

#[export] Instance stable_cstring_round out : Stable (cstring_round out).
Proof. unfold cstring_round. apply _. Qed.

(** The walk to the terminator ends with the bytes. *)
#[export] Instance cstring_progresses : Progresses cstring_round.
Proof.
  intros n out. unfold cstring_round. consume_step. apply consumes_ret. destruct (_ =? 0); lia.
Qed.

#[export] Instance disciplined : Disciplined None (fun _ => header).
Proof. discipline ltac:(unfold header, read_body, read_cstring). Qed.

#[global] Instance conformant : Conformant plugin.
Proof. exact (dissector_conformant plugin (fun _ => header) (fun _ _ => eq_refl) disciplined). Qed.

End Tftp.

Module Smb2.

Definition SESSION_ID : FieldName := "session_id".
Definition COMMAND : FieldName := "command".
Definition STATUS : FieldName := "status".
Definition FLAGS : FieldName := "flags".
Definition MESSAGE_ID : FieldName := "message_id".
Definition TREE_ID : FieldName := "tree_id".
Definition FILE_ID : FieldName := "file_id".
Definition PROTOCOL_ID : list Z := [0xFE; 83; 77; 66].
Definition FIXED_HEADER_LEN : Z := 64.
Definition FLAG_SERVER_TO_REDIR : Z := 0x00000001.
Definition CMD_CREATE : Z := 5.
Definition CMD_CLOSE : Z := 6.
Definition CMD_READ : Z := 8.
Definition CMD_WRITE : Z := 9.

Definition KEY : list KeyField := [mkKeyField SESSION_ID None].
Definition ROLLUPS : list RollupSpec :=
  [mkRollupSpec COMMAND RK_Accumulate].
Definition IDENTITY : StreamIdentity := {|
  key := KEY;
  canonicalize := EndpointSort;
  lifecycle := None;
  rollups := ROLLUPS |}.

(** The fields of the fixed header that are kept. *)
Record Fixed := mkFixed {
  status : Z;
  command : Z;
  flags : Z;
  message_id : Z;
  tree_id : Z;
  session_id : Z;
}.

Definition read_fixed : reader ParseError Fixed :=
  let? protocol_id := ByteReader.take 4 in
  if negb (bool_decide (protocol_id = PROTOCOL_ID))
  then rfail (PE_Malformed "not an SMB2 message (bad ProtocolId)") else
  let? structure_size := ByteReader.u16_le in
  if negb (structure_size =? FIXED_HEADER_LEN)
  then rfail (PE_Malformed "SMB2 header StructureSize is not 64") else
  let? _credit_charge := ByteReader.u16_le in
  let? status := ByteReader.u32_le in
  let? command := ByteReader.u16_le in
  let? _credit := ByteReader.u16_le in
  let? flags := ByteReader.u32_le in
  let? _next_command := ByteReader.u32_le in
  let? message_id := ByteReader.u64_le in
  let? _reserved := ByteReader.u32_le in
  let? tree_id := ByteReader.u32_le in
  let? session_id := ByteReader.u64_le in
  let? _signature := ByteReader.take 16 in
  rret (E:=ParseError) (mkFixed status command flags message_id tree_id session_id).

Definition file_id_offset (command : Z) (is_response : bool) : option Z :=
  if (command =? CMD_CREATE) && is_response then Some 64
  else if ((command =? CMD_READ) || (command =? CMD_WRITE)) && negb is_response then Some 16
  else if (command =? CMD_CLOSE) && negb is_response then Some 8
  else None.

Definition read_file_id (body : list Z) (command : Z) (is_response : bool) : option (list Z) :=
  offset ← file_id_offset command is_response; slice body offset (offset + 16).

Definition header (ctx : ParseCtx) : reader ParseError ParsedLayer :=
  let? nbss_type := ByteReader.u8 in
  if negb (nbss_type =? 0)
  then rfail (PE_Malformed "not a NetBIOS Session Service message (0x00)") else
  let? len_hi := ByteReader.take 3 in
  let msg_len :=
    Z.lor (Z.lor (Z.shiftl (at_ix len_hi 0) 16) (Z.shiftl (at_ix len_hi 1) 8)) (at_ix len_hi 2) in
  let? message := ByteReader.take msg_len in
  let header_len := 4 + msg_len in
  let? f := within message read_fixed in
  let is_response := flag (flags f) FLAG_SERVER_TO_REDIR in
  let body := slice_from message FIXED_HEADER_LEN in
  let fields := FieldMap.new in
  let fields := insert_at ctx DKeys [(SESSION_ID, VU64 (session_id f))] fields in
  let fields := insert_at ctx DStructural
    [(COMMAND, VU64 (command f)); (STATUS, VU64 (status f)); (FLAGS, VU64 (flags f));
     (MESSAGE_ID, VU64 (message_id f))] fields in
  let fields := insert_at ctx DFull
    ([(TREE_ID, VU64 (tree_id f))] ++
     when_some (read_file_id body (command f) is_response) FILE_ID Value_from_slice) fields in
  rret (E:=ParseError) {| pl_header_len := header_len; pl_fields := fields; pl_hint := Hint_Terminal |}.

Definition plugin : LayerPlugin := {|
  name := "smb2";
  parse := fun bytes ctx => run_reader (header ctx) bytes;
  claims := [TcpPort 445];
  expected_predecessors := [];
  has_probe := false;
  probe := fun _ _ => None;
  stream_identity := Some IDENTITY;
  condense := None |}.

#[export] Instance disciplined : Disciplined (Some IDENTITY) (fun _ => header).
Proof. discipline ltac:(unfold header). Qed.

#[global] Instance conformant : Conformant plugin.
Proof. exact (dissector_conformant plugin (fun _ => header) (fun _ _ => eq_refl) disciplined). Qed.

End Smb2.
