(* ===== verification/PlugWeb.v ===== *)
(** * Header-block dissectors

    Models [ssdp.rs], [http.rs] and [sip.rs] of [crates/pktflow-plugins/src]: a
    start line and headers, ended by a blank line, and the preface that hands
    a connection over to HTTP/2. *)

From S2P Require Import Prelude Values Bytes Utf8 Text Types Contract PlugKit PlugScan PlugText.
Local Open Scope reader_scope.

Module Ssdp.

Definition APP : FieldName := "app".
Definition METHOD : FieldName := "method".
Definition STATUS_CODE : FieldName := "status_code".
Definition NTS : FieldName := "nts".
Definition ST : FieldName := "st".
Definition USN : FieldName := "usn".
Definition LOCATION : FieldName := "location".

Definition KEY : list KeyField := [mkKeyField APP None].
Definition ROLLUPS : list RollupSpec :=
  [mkRollupSpec NTS RK_Accumulate; mkRollupSpec LOCATION RK_Sample].
Definition IDENTITY : StreamIdentity := {|
  key := KEY;
  canonicalize := EndpointSort;
  lifecycle := None;
  rollups := ROLLUPS |}.

Definition find_header_end := PlugText.find_header_end.
Definition split_lines := PlugText.split_lines.
Definition trim_spaces := PlugText.trim_spaces.
Definition header_value := PlugText.header_value.
Definition to_str (bytes : list Z) : string := lossy bytes.

(** The method, or the status code. *)
Definition parse_start_line (line : list Z) : result (option string * option Z) ParseError :=
  let parts := splitn 3 32 line in
  let! first := ok_or (parts !! 0%nat) (PE_Malformed "empty start line") in
  if bytes_are "HTTP/1.1" first then
    let! code := ok_or (parts !! 1%nat) (PE_Malformed "status line missing status code") in
    if negb (blen code =? 3) || negb (forallb is_digit code)
    then Error (PE_Malformed "status code must be 3 digits")
    else Ok (None, Some (digits_value code))
  else if bytes_are "M-SEARCH" first || bytes_are "NOTIFY" first then
    let method := if bytes_are "M-SEARCH" first then "M-SEARCH"%string else "NOTIFY"%string in
    let! _ := ok_or (parts !! 1%nat) (PE_Malformed "request line missing Request-URI") in
    let! version := ok_or (parts !! 2%nat) (PE_Malformed "request line missing HTTP version") in
    if negb (bytes_are "HTTP/1.1" version) then Error (PE_Malformed "SSDP requires HTTP/1.1")
    else Ok (Some method, None)
  else Error (PE_Malformed "start line is neither M-SEARCH/NOTIFY nor an HTTP/1.1 status line").

Record Message := mkMessage {
  method : option string;
  status_code : option Z;
  lines : list (list Z);
}.

Definition read_block (block : list Z) : result Message ParseError :=
  let lines := split_lines block in
  let! start_line := ok_or (lines !! 0%nat) (PE_Malformed "empty header block") in
  let! (method, status_code) := parse_start_line start_line in
  Ok (mkMessage method status_code lines).

Definition core (bytes : list Z) (ctx : ParseCtx) : result (Z * Message) ParseError :=
  let! (block, header_len) := ok_or (header_block bytes) (unterminated bytes) in
  let! x := read_block block in
  Ok (header_len, x).

(** [if let Some(v) = header_value(&lines, name)]. *)
Definition header_field (x : Message) (name : string) (field : FieldName) : list (FieldName * Value) :=
  when_some (header_value (lines x) name) field (fun v => Value_from_str (to_str v)).

Definition layer (ctx : ParseCtx) (x : Z * Message) : ParsedLayer :=
  let m := snd x in
  let fields := FieldMap.new in
  let fields := insert_at ctx DKeys [(APP, Value_from_str "ssdp")] fields in
  let fields := insert_at ctx DStructural
    (when_some (method m) METHOD Value_from_str ++
     when_some (status_code m) STATUS_CODE VU64 ++
     (if bool_decide (method m = Some "NOTIFY"%string) then header_field m "NTS" NTS else [])) fields in
  let fields := insert_at ctx DFull
    (header_field m "ST" ST ++ header_field m "USN" USN ++ header_field m "LOCATION" LOCATION) fields in
  {| pl_header_len := fst x; pl_fields := fields; pl_hint := Hint_Terminal |}.

Definition header (bytes : list Z) (ctx : ParseCtx) : result ParsedLayer ParseError :=
  let! x := core bytes ctx in Ok (layer ctx x).

Definition plugin : LayerPlugin := {|
  name := "ssdp";
  parse := header;
  claims := [UdpPort 1900];
  expected_predecessors := [];
  has_probe := false;
  probe := fun _ _ => None;
  stream_identity := Some IDENTITY;
  condense := None |}.

#[global] Instance conformant : Conformant plugin.
Proof.
  apply (ended_conformant plugin header_block read_block layer (Some IDENTITY)); [|reflexivity].
  layered ltac:(unfold layer)
    ltac:(intros bytes c [n x] Hx; exact (ended_inside header_block read_block _ _ _ _ Hx)).
Qed.

End Ssdp.

Module Sip.

Definition CALL_ID : FieldName := "call_id".
Definition IS_REQUEST : FieldName := "is_request".
Definition METHOD : FieldName := "method".
Definition STATUS_CODE : FieldName := "status_code".
Definition FROM : FieldName := "from".
Definition TO : FieldName := "to".
Definition VIA : FieldName := "via".
Definition CSEQ : FieldName := "cseq".
Definition METHODS : list string :=
  ["INVITE"; "ACK"; "BYE"; "CANCEL"; "REGISTER"; "OPTIONS"; "PRACK"; "SUBSCRIBE"; "NOTIFY";
   "PUBLISH"; "INFO"; "REFER"; "MESSAGE"; "UPDATE"]%string.

Definition KEY : list KeyField := [mkKeyField CALL_ID None].
Definition ROLLUPS : list RollupSpec :=
  [mkRollupSpec METHOD RK_Accumulate; mkRollupSpec STATUS_CODE (RK_Series 64)].
Definition IDENTITY : StreamIdentity := {|
  key := KEY;
  canonicalize := EndpointSort;
  lifecycle := None;
  rollups := ROLLUPS |}.

Definition find_header_end := PlugText.find_header_end.
Definition split_lines := PlugText.split_lines.
Definition trim_spaces := PlugText.trim_spaces.
Definition header_value := PlugText.header_value.
Definition to_str (bytes : list Z) : string := lossy bytes.

Record StartLine := mkStartLine {
  is_request : bool;
  method : option string;
  status_code : option Z;
}.

Definition parse_start_line (line : list Z) : option StartLine :=
  let parts := splitn 3 32 line in
  first ← parts !! 0%nat;
  if bytes_are "SIP/2.0" first then
    code ← parts !! 1%nat;
    if negb (blen code =? 3) || negb (forallb is_digit code) then None
    else Some (mkStartLine false None (Some (digits_value code)))
  else
    method ← List.find (fun m => bytes_are m first) METHODS;
    _uri ← parts !! 1%nat;
    version ← parts !! 2%nat;
    if negb (bytes_are "SIP/2.0" version) then None
    else Some (mkStartLine true (Some method) None).

Record Message := mkMessage {
  start : StartLine;
  call_id : list Z;
  lines : list (list Z);
}.

Definition read_block (block : list Z) : result Message ParseError :=
  let lines := split_lines block in
  let! start := ok_or (lines !! 0%nat) (PE_Malformed "empty header block") in
  let! start := ok_or (parse_start_line start) (PE_Malformed "not a SIP start line") in
  let! call_id := ok_or (header_value lines "Call-ID") (PE_Malformed "SIP message missing Call-ID") in
  Ok (mkMessage start call_id lines).

Definition core (bytes : list Z) (ctx : ParseCtx) : result (Z * Message) ParseError :=
  let! (block, header_len) := ok_or (header_block bytes) (unterminated bytes) in
  let! x := read_block block in
  Ok (header_len, x).

(** [if let Some(v) = header_value(&lines, name)]. *)
Definition header_field (x : Message) (name : string) (field : FieldName) : list (FieldName * Value) :=
  when_some (header_value (lines x) name) field (fun v => Value_from_str (to_str v)).

Definition layer (ctx : ParseCtx) (x : Z * Message) : ParsedLayer :=
  let m := snd x in
  let fields := FieldMap.new in
  let fields := insert_at ctx DKeys [(CALL_ID, Value_from_str (to_str (call_id m)))] fields in
  let fields := insert_at ctx DStructural
    ([(IS_REQUEST, VBool (is_request (start m)))] ++
     when_some (method (start m)) METHOD Value_from_str ++
     when_some (status_code (start m)) STATUS_CODE VU64) fields in
  let fields := insert_at ctx DFull
    (header_field m "From" FROM ++ header_field m "To" TO ++ header_field m "Via" VIA ++
     header_field m "CSeq" CSEQ) fields in
  {| pl_header_len := fst x; pl_fields := fields; pl_hint := Hint_Terminal |}.

Definition header (bytes : list Z) (ctx : ParseCtx) : result ParsedLayer ParseError :=
  let! x := core bytes ctx in Ok (layer ctx x).

Definition plugin : LayerPlugin := {|
  name := "sip";
  parse := header;
  claims := [UdpPort 5060; TcpPort 5060];
  expected_predecessors := [];
  has_probe := false;
  probe := fun _ _ => None;
  stream_identity := Some IDENTITY;
  condense := None |}.

#[global] Instance conformant : Conformant plugin.
Proof.
  apply (ended_conformant plugin header_block read_block layer (Some IDENTITY)); [|reflexivity].
  layered ltac:(unfold layer)
    ltac:(intros bytes c [n x] Hx; exact (ended_inside header_block read_block _ _ _ _ Hx)).
Qed.

End Sip.

Module Http.

Definition APP : FieldName := "app".
Definition IS_REQUEST : FieldName := "is_request".
Definition METHOD : FieldName := "method".
Definition STATUS_CODE : FieldName := "status_code".
Definition VERSION : FieldName := "version".
Definition HOST : FieldName := "host".
Definition CONTENT_TYPE : FieldName := "content_type".
Definition CONTENT_LENGTH : FieldName := "content_length".
Definition USER_AGENT : FieldName := "user_agent".
Definition UPGRADE : FieldName := "upgrade".
Definition H2C_PREFACE : list Z := [80; 82; 73; 32; 42; 32; 72; 84; 84; 80; 47; 50; 46; 48; 13; 10; 13; 10; 83; 77; 13; 10; 13; 10].
Definition METHODS : list string :=
  ["GET"; "POST"; "PUT"; "DELETE"; "HEAD"; "OPTIONS"; "PATCH"; "CONNECT"; "TRACE"]%string.

Definition KEY : list KeyField := [mkKeyField APP None].
Definition ROLLUPS : list RollupSpec :=
  [mkRollupSpec METHOD RK_Accumulate; mkRollupSpec STATUS_CODE RK_Accumulate; mkRollupSpec HOST RK_Sample].
Definition IDENTITY : StreamIdentity := {|
  key := KEY;
  canonicalize := EndpointSort;
  lifecycle := None;
  rollups := ROLLUPS |}.

Definition find_header_end := PlugText.find_header_end.
Definition split_lines := PlugText.split_lines.
Definition trim_spaces := PlugText.trim_spaces.
Definition header_value := PlugText.header_value.
Definition to_str (bytes : list Z) : string := lossy bytes.

(** Every step saturates. *)
Definition parse_u64 (bytes : list Z) : option Z :=
  if bool_decide (bytes = []) || negb (forallb is_digit bytes) then None
  else Some (foldl (fun acc b => sat_add u64_max (Z.min u64_max (acc * 10)) (b - 48)) 0 bytes).

Definition is_http1_version (tok : list Z) : bool :=
  bytes_are "HTTP/1.0" tok || bytes_are "HTTP/1.1" tok.

Record StartLine := mkStartLine {
  is_request : bool;
  method : option string;
  status_code : option Z;
  version : string;
}.

Definition parse_start_line (line : list Z) : result StartLine ParseError :=
  let parts := splitn 3 32 line in
  let! first := ok_or (parts !! 0%nat) (PE_Malformed "empty start line") in
  if begins_with (str_bytes "HTTP/") first then
    if negb (is_http1_version first) then Error (PE_Malformed "unsupported HTTP version") else
    let! code := ok_or (parts !! 1%nat) (PE_Malformed "status line missing status code") in
    if negb (blen code =? 3) || negb (forallb is_digit code)
    then Error (PE_Malformed "status code must be 3 digits")
    else Ok (mkStartLine false None (Some (digits_value code)) (to_str first))
  else
    let! method := ok_or (List.find (fun m => bytes_are m first) METHODS)
      (PE_Malformed "unrecognized request method") in
    let! _ := ok_or (parts !! 1%nat) (PE_Malformed "request line missing request-target") in
    let! version := ok_or (parts !! 2%nat) (PE_Malformed "request line missing HTTP version") in
    if negb (is_http1_version version) then Error (PE_Malformed "unsupported HTTP version")
    else Ok (mkStartLine true (Some method) None (to_str version)).

Definition read_block (block : list Z) : result (StartLine * list (list Z)) ParseError :=
  let lines := split_lines block in
  let! start := ok_or (lines !! 0%nat) (PE_Malformed "empty header block") in
  let! start := parse_start_line start in
  Ok (start, lines).

(** The connection preface, or a message's start line and lines. *)
Definition core (bytes : list Z) (ctx : ParseCtx) :
    result (Z * option (StartLine * list (list Z))) ParseError :=
  if begins_with H2C_PREFACE bytes then Ok (blen H2C_PREFACE, None) else
  let! (block, header_len) := ok_or (header_block bytes) (unterminated bytes) in
  let! x := read_block block in
  Ok (header_len, Some x).

Definition header_field (lines : list (list Z)) (name : string) (field : FieldName) :
    list (FieldName * Value) :=
  when_some (header_value lines name) field (fun v => Value_from_str (to_str v)).

Definition structural_fields (x : option (StartLine * list (list Z))) : list (FieldName * Value) :=
  match x with
  | None => [(IS_REQUEST, VBool true); (VERSION, Value_from_str "HTTP/2.0")]
  | Some (start, lines) =>
      [(IS_REQUEST, VBool (is_request start)); (VERSION, Value_from_str (version start))] ++
      when_some (method start) METHOD Value_from_str ++
      when_some (status_code start) STATUS_CODE VU64 ++
      header_field lines "Host" HOST
  end.

Definition full_fields (x : option (StartLine * list (list Z))) : list (FieldName * Value) :=
  match x with
  | None => []
  | Some (start, lines) =>
      header_field lines "Content-Type" CONTENT_TYPE ++
      when_some (header_value lines "Content-Length" ≫= parse_u64) CONTENT_LENGTH VU64 ++
      (if is_request start then header_field lines "User-Agent" USER_AGENT else []) ++
      header_field lines "Upgrade" UPGRADE
  end.

Definition layer (ctx : ParseCtx) (x : Z * option (StartLine * list (list Z))) : ParsedLayer :=
  let fields := FieldMap.new in
  let fields := insert_at ctx DKeys [(APP, Value_from_str "http")] fields in
  let fields := insert_at ctx DStructural (structural_fields (snd x)) fields in
  let fields := insert_at ctx DFull (full_fields (snd x)) fields in
  {| pl_header_len := fst x; pl_fields := fields;
     pl_hint := match snd x with None => Hint_ByProtocol "http2" | Some _ => Hint_Terminal end |}.

Definition header (bytes : list Z) (ctx : ParseCtx) : result ParsedLayer ParseError :=
  let! x := core bytes ctx in Ok (layer ctx x).

Definition plugin : LayerPlugin := {|
  name := "http";
  parse := header;
  claims := [TcpPort 80];
  expected_predecessors := [];
  has_probe := false;
  probe := fun _ _ => None;
  stream_identity := Some IDENTITY;
  condense := None |}.

(** Past the preface a message is what ends with its blank line. *)
Lemma core_message bytes ctx :
  begins_with H2C_PREFACE bytes = false ->
  core bytes ctx = let! x := ended_core header_block read_block bytes ctx in Ok (fst x, Some (snd x)).
Proof.
  unfold core, ended_core. intros ->. destruct (ok_or (header_block bytes) _) as [[h n]|e]; [|done].
  cbn. by destruct (read_block h).
Qed.

(** Part of the preface is not a message. *)
Lemma preface_prefix n ctx :
  (n < length H2C_PREFACE)%nat -> exists e, core (take n H2C_PREFACE) ctx = Error e.
Proof. intros Hn. do 24 (destruct n as [|n]; [eexists; vm_compute; reflexivity|]). simpl in Hn. lia. Qed.

#[export] Instance layered_message : Layered plugin core layer (Some IDENTITY).
Proof.
  layered ltac:(unfold layer) ltac:(intros bytes c x Hx).
  cbn [layer pl_header_len]. destruct (begins_with H2C_PREFACE bytes) eqn:Hb.
  - unfold core in Hx. rewrite Hb in Hx. simplify_eq/=. by apply begins_with_length in Hb.
  - rewrite (core_message _ _ Hb) in Hx. apply result_bind_Ok in Hx as ([n y] & Hx & [= <-]).
    by apply (ended_inside header_block read_block) in Hx.
Qed.

#[global] Instance conformant : Conformant plugin.
Proof.
  constructor; [exact (layered_framed _ core layer _)|exact (layered_keyed _ core layer _ eq_refl)|].
  apply (layered_declining _ core layer (Some IDENTITY)). intros b t c x Hx. exists x. split; [|done].
  destruct (begins_with H2C_PREFACE b) eqn:Hb.
  { unfold core in *. rewrite (begins_with_app _ _ t Hb). by rewrite Hb in Hx. }
  destruct (begins_with H2C_PREFACE (b ++ t)) eqn:Hbt.
  - destruct (begins_with_cut _ _ _ Hb Hbt) as [Hk Hl]. rewrite Hk in Hx.
    by destruct (preface_prefix _ c Hl) as [e He]; rewrite He in Hx.
  - rewrite core_message in Hx |- * by done. apply result_bind_Ok in Hx as (y & Hy & Hx).
    by rewrite (ended_app _ _ _ t _ _ Hy).
Qed.

(** The preface goes to HTTP/2, whole. *)
Example http_hands_over ctx :
  exists l, header (H2C_PREFACE ++ [0; 0; 0; 4]) ctx = Ok l /\
    pl_header_len l = 24 /\ pl_hint l = Hint_ByProtocol "http2".
Proof. eexists. split; [vm_compute; reflexivity|done]. Qed.

End Http.
