(* ===== verification/PlugSession.v ===== *)
(** * Sessions over TCP

    Models [ssh.rs], [websocket.rs], [http2.rs], [amqp.rs] and [redis.rs] of
    [crates/pktflow-plugins/src]. *)

From S2P Require Import Prelude Values Bytes Utf8 Text Types Contract PlugKit PlugScan PlugText.
Local Open Scope reader_scope.

Module Ssh.

Definition APP : FieldName := "app".
Definition BANNER : FieldName := "banner".
Definition MSG_TYPE : FieldName := "msg_type".
Definition KEX_ALGORITHMS : FieldName := "kex_algorithms".
Definition SERVER_HOST_KEY_ALGORITHMS : FieldName := "server_host_key_algorithms".
Definition ENC_C2S : FieldName := "encryption_algorithms_client_to_server".
Definition ENC_S2C : FieldName := "encryption_algorithms_server_to_client".
Definition MAC_C2S : FieldName := "mac_algorithms_client_to_server".
Definition SSH_MSG_KEXINIT : Z := 20.
Definition COOKIE_LEN : Z := 16.

Definition KEY : list KeyField := [mkKeyField APP None].
Definition ROLLUPS : list RollupSpec :=
  [mkRollupSpec BANNER RK_Sample].
Definition IDENTITY : StreamIdentity := {|
  key := KEY;
  canonicalize := EndpointSort;
  lifecycle := None;
  rollups := ROLLUPS |}.

Definition trim_line_ending (line : list Z) : list Z :=
  let line := if bool_decide (last line = Some 10) then take (length line - 1) line else line in
  if bool_decide (last line = Some 13) then take (length line - 1) line else line.

Definition read_name_list : reader unit (list Value) :=
  let? len := ByteReader.u32_be in
  let? data := ByteReader.take len in
  match str_from_utf8 data with
  | None => rfail tt
  | Some s =>
      if String.eqb s "" then rret []
      else rret ((fun piece => Value_from_str (string_of_bytes piece)) <$> split_by 44 data)
  end.

Record Kexinit := mkKexinit {
  kex_algorithms : list Value;
  server_host_key_algorithms : list Value;
  enc_c2s : list Value;
  enc_s2c : list Value;
  mac_c2s : list Value;
}.

Definition read_kexinit : reader unit Kexinit :=
  let? _msg_type := ByteReader.u8 in
  let? _cookie := ByteReader.take COOKIE_LEN in
  let? kex := read_name_list in
  let? host_key := read_name_list in
  let? enc_c2s := read_name_list in
  let? enc_s2c := read_name_list in
  let? mac_c2s := read_name_list in
  rret (E:=unit) (mkKexinit kex host_key enc_c2s enc_s2c mac_c2s).

Definition parse_kexinit (payload : list Z) : option Kexinit := read_option read_kexinit payload.

(** The type of the payload's message. *)
Definition payload_type (payload : list Z) : result Z ParseError :=
  match byte_at payload 0 with
  | Some msg_type => Ok msg_type
  | None => Error (PE_Malformed "SSH payload is empty")
  end.

(** A KEXINIT packet: its length, its message's type and its payload. *)
Definition read_packet : reader ParseError (Z * Z * list Z) :=
  let? packet_length := ByteReader.u32_be in
  if packet_length <? 2
  then rfail (PE_Malformed "SSH packet_length too small for padding_length + payload") else
  let? padding_length := ByteReader.u8 in
  let? body := ByteReader.take (packet_length - 1) in
  if blen body <=? padding_length
  then rfail (PE_Malformed "SSH padding_length leaves no room for payload") else
  let payload := take (length body - Z.to_nat padding_length) body in
  let? msg_type := of_result (payload_type payload) in
  if negb (msg_type =? SSH_MSG_KEXINIT)
  then rfail (PE_Malformed "not an SSH identification line or a KEXINIT packet")
  else rret (E:=ParseError) (4 + packet_length, msg_type, payload).

Inductive Message :=
  | Banner (line : list Z)
  | Packet (msg_type : Z) (payload : list Z).

Definition find_banner (bytes : list Z) : option (list Z * Z) :=
  nl ← position (Z.eqb 10) bytes;
  let header_len := Z.of_nat nl + 1 in
  Some (trim_line_ending (take (Z.to_nat header_len) bytes), header_len).

Definition core (bytes : list Z) (ctx : ParseCtx) : result (Z * Message) ParseError :=
  if begins_with (str_bytes "SSH-") bytes then
    let! (line, header_len) := ok_or (find_banner bytes) (unterminated bytes) in
    Ok (header_len, Banner line)
  else
    let! (header_len, msg_type, payload) := run_reader read_packet bytes in
    Ok (header_len, Packet msg_type payload).

Definition structural_fields (x : Message) : list (FieldName * Value) :=
  match x with
  | Banner line => [(BANNER, Value_from_str (lossy line))]
  | Packet msg_type _ => [(MSG_TYPE, VU64 msg_type)]
  end.

Definition full_fields (x : Message) : list (FieldName * Value) :=
  match x with
  | Banner _ => []
  | Packet _ payload =>
      match parse_kexinit payload with
      | Some k =>
          [(KEX_ALGORITHMS, VList (kex_algorithms k));
           (SERVER_HOST_KEY_ALGORITHMS, VList (server_host_key_algorithms k));
           (ENC_C2S, VList (enc_c2s k)); (ENC_S2C, VList (enc_s2c k)); (MAC_C2S, VList (mac_c2s k))]
      | None => []
      end
  end.

Definition layer (ctx : ParseCtx) (x : Z * Message) : ParsedLayer :=
  let fields := FieldMap.new in
  let fields := insert_at ctx DKeys [(APP, Value_from_str "ssh")] fields in
  let fields := insert_at ctx DStructural (structural_fields (snd x)) fields in
  let fields := insert_at ctx DFull (full_fields (snd x)) fields in
  {| pl_header_len := fst x; pl_fields := fields; pl_hint := Hint_Terminal |}.

Definition header (bytes : list Z) (ctx : ParseCtx) : result ParsedLayer ParseError :=
  let! x := core bytes ctx in Ok (layer ctx x).

Definition plugin : LayerPlugin := {|
  name := "ssh";
  parse := header;
  claims := [TcpPort 22];
  expected_predecessors := [];
  has_probe := false;
  probe := fun _ _ => None;
  stream_identity := Some IDENTITY;
  condense := None |}.

#[export] Instance find_banner_terminated : Terminated find_banner.
Proof.
  constructor; unfold find_banner.
  - intros bytes h n (nl & Hnl & [= <- <-])%bind_Some. apply position_lt in Hnl. unfold blen. lia.
  - intros bytes t x (nl & Hnl & Hx)%bind_Some. rewrite (position_app _ _ _ _ Hnl). cbn.
    apply position_lt in Hnl. rewrite take_app_le by lia. done.
Qed.

#[export] Instance stable_packet : Stable read_packet.
Proof. unfold read_packet. cbv zeta. apply _. Qed.

Lemma packet_inside bytes n t k : run_reader read_packet bytes = Ok (n, t, k) -> 0 <= n <= blen bytes.
Proof.
  intros Hr. eapply (run_reader_consumes _ (fun n' a => 0 <= fst (fst a) <= n')) in Hr as (m & Hm & Hn); [simpl in *; lia|].
  unfold read_packet. repeat consume_step. cbn. reflect_bools. lia.
Qed.

Lemma ssh_inside bytes c x : core bytes c = Ok x -> 0 <= fst x <= blen bytes.
Proof.
  unfold core. destruct (begins_with _ bytes).
  - destruct (find_banner bytes) as [[l n]|] eqn:Hf; [|done]. intros [= <-]. by apply (term_inside _ _ _ Hf).
  - rewrite result_bind_Ok. intros ([[n t] k] & Hr & [= <-]). by apply packet_inside in Hr.
Qed.

Lemma ssh_app b t c x : core b c = Ok x -> core (b ++ t) c = Ok x.
Proof.
  unfold core. destruct (begins_with (str_bytes "SSH-") b) eqn:Hb.
  - rewrite (begins_with_app _ _ t Hb). destruct (find_banner b) as [[l n]|] eqn:Hf; [|done].
    by rewrite (term_app _ t _ Hf).
  - rewrite result_bind_Ok. intros (y & Hr & Hx).
    destruct (begins_with (str_bytes "SSH-") (b ++ t)) eqn:Hbt.
    + destruct (begins_with_cut _ _ _ Hb Hbt) as [Hk Hl]. rewrite Hk in Hr. clear Hk Hb Hbt.
      revert Hr Hl. generalize (length b). intros n Hr Hl.
      do 4 (destruct n as [|n]; [by vm_compute in Hr|]). simpl in Hl. lia.
    + by rewrite (run_reader_app _ _ t _ Hr).
Qed.

#[export] Instance layered_message : Layered plugin core layer (Some IDENTITY).
Proof. layered ltac:(unfold layer) ltac:(intros bytes c x; exact (ssh_inside bytes c x)). Qed.

#[global] Instance conformant : Conformant plugin.
Proof.
  constructor; [exact (layered_framed _ core layer _)|exact (layered_keyed _ core layer _ eq_refl)|].
  apply (layered_declining _ core layer (Some IDENTITY)). intros b t c x Hx. exists x.
  split; [by apply ssh_app|done].
Qed.

End Ssh.

Module Websocket.

Definition APP : FieldName := "app".
Definition FIN : FieldName := "fin".
Definition OPCODE : FieldName := "opcode".
Definition MASK_BIT : FieldName := "mask_bit".
Definition PAYLOAD_LEN : FieldName := "payload_len".
Definition MASKING_KEY : FieldName := "masking_key".
Definition OPCODE_CONTINUATION : Z := 0x0.
Definition OPCODE_TEXT : Z := 0x1.
Definition OPCODE_BINARY : Z := 0x2.
Definition OPCODE_CLOSE : Z := 0x8.
Definition OPCODE_PING : Z := 0x9.
Definition OPCODE_PONG : Z := 0xA.

Definition KEY : list KeyField := [mkKeyField APP None].
Definition ROLLUPS : list RollupSpec :=
  [mkRollupSpec OPCODE RK_Accumulate].
Definition IDENTITY : StreamIdentity := {|
  key := KEY;
  canonicalize := EndpointSort;
  lifecycle := None;
  rollups := ROLLUPS |}.

Definition is_defined_opcode (opcode : Z) : bool :=
  existsb (Z.eqb opcode)
    [OPCODE_CONTINUATION; OPCODE_TEXT; OPCODE_BINARY; OPCODE_CLOSE; OPCODE_PING; OPCODE_PONG].

Definition is_control_opcode (opcode : Z) : bool :=
  existsb (Z.eqb opcode) [OPCODE_CLOSE; OPCODE_PING; OPCODE_PONG].

(** [consumed] is how far the cursor went. *)
Record FrameHeader := mkFrameHeader {
  fin : bool;
  rsv : Z;
  opcode : Z;
  mask_bit : bool;
  payload_len : Z;
  masking_key : option (list Z);
  frame_consumed : Z;
}.

Definition read_frame_header : reader ParseError FrameHeader :=
  let? byte0 := ByteReader.u8 in
  let? byte1 := ByteReader.u8 in
  let mask_bit := flag byte1 0x80 in
  let len7 := Z.land byte1 0x7F in
  let? payload_len :=
    if len7 =? 126 then ByteReader.u16_be
    else if len7 =? 127 then ByteReader.u64_be
    else rret len7 in
  let? masking_key :=
    if mask_bit then let? key := ByteReader.take 4 in rret (Some key) else rret None in
  let? n := consumed in
  rret (E:=ParseError)
    (mkFrameHeader (flag byte0 0x80) (Z.shiftr (Z.land byte0 0x70) 4) (Z.land byte0 0x0F) mask_bit
       payload_len masking_key n).

Definition header (ctx : ParseCtx) : reader ParseError ParsedLayer :=
  let? h := read_frame_header in
  let fields := FieldMap.new in
  let fields := insert_at ctx DKeys [(APP, Value_from_str "websocket")] fields in
  let fields := insert_at ctx DStructural
    [(FIN, VBool (fin h)); (OPCODE, VU64 (opcode h)); (MASK_BIT, VBool (mask_bit h));
     (PAYLOAD_LEN, VU64 (payload_len h))] fields in
  let fields := insert_at ctx DFull (when_some (masking_key h) MASKING_KEY Value_from_slice) fields in
  rret {| pl_header_len := frame_consumed h; pl_fields := fields; pl_hint := Hint_Terminal |}.

Definition probe (bytes : list Z) : option Z :=
  match run_reader read_frame_header bytes with
  | Error _ => None
  | Ok h =>
      if negb (rsv h =? 0) then None
      else if opcode h =? OPCODE_CONTINUATION then None
      else if negb (is_defined_opcode (opcode h)) then None
      else if is_control_opcode (opcode h) && (negb (fin h) || (125 <? payload_len h)) then None
      else
        let remaining_after_header := blen bytes - frame_consumed h in
        if payload_len h <=? remaining_after_header then Some (Confidence_new 50) else None
  end.

Definition plugin : LayerPlugin := {|
  name := "websocket";
  parse := fun bytes ctx => run_reader (header ctx) bytes;
  claims := [];
  expected_predecessors := [];
  has_probe := true;
  Types.probe := fun bytes _ => probe bytes;
  stream_identity := Some IDENTITY;
  condense := None |}.

#[export] Instance disciplined : Disciplined (Some IDENTITY) (fun _ => header).
Proof. discipline ltac:(unfold header, read_frame_header). Qed.

#[global] Instance conformant : Conformant plugin.
Proof. exact (dissector_conformant plugin (fun _ => header) (fun _ _ => eq_refl) disciplined). Qed.

End Websocket.

Module Http2.

Definition STREAM_ID : FieldName := "stream_id".
Definition FRAME_TYPE : FieldName := "frame_type".
Definition FLAGS : FieldName := "flags".
Definition LENGTH : FieldName := "length".
Definition SETTINGS_ENTRIES : FieldName := "settings_entries".
Definition FRAME_HEADER_LEN : Z := 9.
Definition SETTINGS_ENTRY_LEN : Z := 6.
Definition TYPE_DATA : Z := 0x0.
Definition TYPE_HEADERS : Z := 0x1.
Definition TYPE_PRIORITY : Z := 0x2.
Definition TYPE_RST_STREAM : Z := 0x3.
Definition TYPE_SETTINGS : Z := 0x4.
Definition TYPE_PUSH_PROMISE : Z := 0x5.
Definition TYPE_PING : Z := 0x6.
Definition TYPE_GOAWAY : Z := 0x7.
Definition TYPE_WINDOW_UPDATE : Z := 0x8.
Definition TYPE_CONTINUATION : Z := 0x9.

Definition KEY : list KeyField := [mkKeyField STREAM_ID None].
Definition ROLLUPS : list RollupSpec :=
  [mkRollupSpec FRAME_TYPE RK_Accumulate].
Definition IDENTITY : StreamIdentity := {|
  key := KEY;
  canonicalize := EndpointSort;
  lifecycle := None;
  rollups := ROLLUPS |}.

Definition frame_type_name (ty : Z) : option string :=
  if ty =? TYPE_DATA then Some "DATA"%string
  else if ty =? TYPE_HEADERS then Some "HEADERS"%string
  else if ty =? TYPE_PRIORITY then Some "PRIORITY"%string
  else if ty =? TYPE_RST_STREAM then Some "RST_STREAM"%string
  else if ty =? TYPE_SETTINGS then Some "SETTINGS"%string
  else if ty =? TYPE_PUSH_PROMISE then Some "PUSH_PROMISE"%string
  else if ty =? TYPE_PING then Some "PING"%string
  else if ty =? TYPE_GOAWAY then Some "GOAWAY"%string
  else if ty =? TYPE_WINDOW_UPDATE then Some "WINDOW_UPDATE"%string
  else if ty =? TYPE_CONTINUATION then Some "CONTINUATION"%string
  else None.

(** [chunks_exact(6)]: what is left over is dropped. *)
Fixpoint settings_entries (payload : list Z) : list (list Z) :=
  match payload with
  | a :: b :: c :: d :: e :: f :: payload' => [a; b; c; d; e; f] :: settings_entries payload'
  | _ => []
  end.

Definition header (ctx : ParseCtx) : reader ParseError ParsedLayer :=
  let? len_hi := ByteReader.take 3 in
  let length :=
    Z.lor (Z.lor (Z.shiftl (at_ix len_hi 0) 16) (Z.shiftl (at_ix len_hi 1) 8)) (at_ix len_hi 2) in
  let? ty := ByteReader.u8 in
  match frame_type_name ty with
  | None => rfail (PE_Malformed "unrecognized HTTP/2 frame type")
  | Some frame_type =>
      let? flags := ByteReader.u8 in
      let? stream_id_word := ByteReader.u32_be in
      let stream_id := Z.land stream_id_word 0x7FFFFFFF in
      let? payload := ByteReader.take length in
      let header_len := FRAME_HEADER_LEN + length in
      let fields := FieldMap.new in
      let fields := insert_at ctx DKeys [(STREAM_ID, VU64 stream_id)] fields in
      let fields := insert_at ctx DStructural
        [(FRAME_TYPE, Value_from_str frame_type); (FLAGS, VU64 flags); (LENGTH, VU64 length)] fields in
      let fields := insert_at ctx DFull
        (if ty =? TYPE_SETTINGS
         then [(SETTINGS_ENTRIES, VList (Value_from_slice <$> settings_entries payload))] else []) fields in
      rret {| pl_header_len := header_len; pl_fields := fields; pl_hint := Hint_Terminal |}
  end.

Definition plugin : LayerPlugin := {|
  name := "http2";
  parse := fun bytes ctx => run_reader (header ctx) bytes;
  claims := [];
  expected_predecessors := [];
  has_probe := false;
  probe := fun _ _ => None;
  stream_identity := Some IDENTITY;
  condense := None |}.

#[export] Instance disciplined : Disciplined (Some IDENTITY) (fun _ => header).
Proof. discipline ltac:(unfold header, FRAME_HEADER_LEN). Qed.

#[global] Instance conformant : Conformant plugin.
Proof. exact (dissector_conformant plugin (fun _ => header) (fun _ _ => eq_refl) disciplined). Qed.

End Http2.

Module Amqp.

Definition APP : FieldName := "app".
Definition FRAME_TYPE : FieldName := "frame_type".
Definition CHANNEL : FieldName := "channel".
Definition SIZE : FieldName := "size".
Definition CLASS_ID : FieldName := "class_id".
Definition METHOD_ID : FieldName := "method_id".
Definition TYPE_METHOD : Z := 1.
Definition TYPE_HEADER : Z := 2.
Definition TYPE_BODY : Z := 3.
Definition TYPE_HEARTBEAT : Z := 8.
Definition FRAME_END : Z := 0xCE.

Definition KEY : list KeyField := [mkKeyField APP None].
Definition ROLLUPS : list RollupSpec :=
  [mkRollupSpec FRAME_TYPE RK_Accumulate; mkRollupSpec CLASS_ID RK_Accumulate].
Definition IDENTITY : StreamIdentity := {|
  key := KEY;
  canonicalize := EndpointSort;
  lifecycle := None;
  rollups := ROLLUPS |}.

Definition frame_type_name (ty : Z) : option string :=
  if ty =? TYPE_METHOD then Some "method"%string
  else if ty =? TYPE_HEADER then Some "header"%string
  else if ty =? TYPE_BODY then Some "body"%string
  else if ty =? TYPE_HEARTBEAT then Some "heartbeat"%string
  else None.

(** Both reads, or neither. *)
Definition read_ids : reader ParseError (Z * Z) :=
  let? c := ByteReader.u16_be in
  let? m := ByteReader.u16_be in
  rret (c, m).

Definition method_ids (ty : Z) (payload : list Z) : option (Z * Z) :=
  if ty =? TYPE_METHOD then ok_of (run_reader read_ids payload) else None.

Definition header (ctx : ParseCtx) : reader ParseError ParsedLayer :=
  let? ty := ByteReader.u8 in
  match frame_type_name ty with
  | None => rfail (PE_Malformed "unrecognized AMQP frame type")
  | Some frame_type =>
      let? channel := ByteReader.u16_be in
      let? size := ByteReader.u32_be in
      let? payload := ByteReader.take size in
      let? frame_end := ByteReader.u8 in
      if negb (frame_end =? FRAME_END)
      then rfail (PE_Malformed "AMQP frame missing 0xCE frame-end octet") else
      let header_len := 1 + 2 + 4 + size + 1 in
      let fields := FieldMap.new in
      let fields := insert_at ctx DKeys [(APP, Value_from_str "amqp")] fields in
      let fields := insert_at ctx DStructural
        [(FRAME_TYPE, Value_from_str frame_type); (CHANNEL, VU64 channel); (SIZE, VU64 size)] fields in
      let fields := insert_at ctx DFull
        (when_some (fst <$> method_ids ty payload) CLASS_ID VU64 ++
         when_some (snd <$> method_ids ty payload) METHOD_ID VU64) fields in
      rret {| pl_header_len := header_len; pl_fields := fields; pl_hint := Hint_Terminal |}
  end.

Definition plugin : LayerPlugin := {|
  name := "amqp";
  parse := fun bytes ctx => run_reader (header ctx) bytes;
  claims := [TcpPort 5672];
  expected_predecessors := [];
  has_probe := false;
  probe := fun _ _ => None;
  stream_identity := Some IDENTITY;
  condense := None |}.

#[export] Instance disciplined : Disciplined (Some IDENTITY) (fun _ => header).
Proof. discipline ltac:(unfold header). Qed.

#[global] Instance conformant : Conformant plugin.
Proof. exact (dissector_conformant plugin (fun _ => header) (fun _ _ => eq_refl) disciplined). Qed.

End Amqp.

Module Redis.

Definition APP : FieldName := "app".
Definition RESP_TYPE : FieldName := "resp_type".
Definition COMMAND : FieldName := "command".
Definition ARG_COUNT : FieldName := "arg_count".

Definition KEY : list KeyField := [mkKeyField APP None].
Definition ROLLUPS : list RollupSpec :=
  [mkRollupSpec COMMAND RK_Accumulate].
Definition IDENTITY : StreamIdentity := {|
  key := KEY;
  canonicalize := EndpointSort;
  lifecycle := None;
  rollups := ROLLUPS |}.

Definition find_line (bytes : list Z) : option (list Z * Z) :=
  pos ← window_position [13; 10] bytes; Some (take pos bytes, Z.of_nat pos + 2).

Definition parse_int (bytes : list Z) : option Z :=
  _ ← str_from_utf8 bytes; parse_i64 bytes.

Definition truncated (needed have : Z) : ParseError := PE_Truncated (mkTruncated needed have).

(** The sums stay far below the width of [usize]: the length was an [i64] that
    is not negative. *)
Definition parse_bulk_string (bytes : list Z) : result (option (list Z) * Z) ParseError :=
  let rest := drop 1 bytes in
  let! (line, line_consumed) := ok_or (find_line rest) (truncated (blen rest + 1) (blen rest)) in
  let! len := ok_or (parse_int line) (PE_Malformed "bad bulk string length") in
  if len <? 0 then Ok (None, 1 + line_consumed) else
  let content_start := 1 + line_consumed in
  let content_end := content_start + len in
  let! content := ok_or (slice bytes content_start content_end) (truncated content_end (blen bytes)) in
  let! trailing :=
    ok_or (slice bytes content_end (content_end + 2)) (truncated (content_end + 2) (blen bytes)) in
  if negb (bool_decide (trailing = [13; 10]))
  then Error (PE_Malformed "bulk string missing CRLF terminator")
  else Ok (Some content, content_end + 2).

Definition type_name (type_byte : Z) : result string ParseError :=
  if type_byte =? 43 then Ok "simple_string"%string
  else if type_byte =? 45 then Ok "error"%string
  else if type_byte =? 58 then Ok "integer"%string
  else if type_byte =? 36 then Ok "bulk_string"%string
  else if type_byte =? 42 then Ok "array"%string
  else Error (PE_Malformed "not a recognized RESP type byte").

Record Reply := mkReply {
  header_len : Z;
  resp_type : string;
  command : option string;
  arg_count : option Z;
}.

(** The first element of an array, where it is a whole bulk string of text. *)
Definition first_element (bytes : list Z) (header_len : Z) : option (string * Z) :=
  if bool_decide (byte_at bytes header_len = Some 36) then
    match parse_bulk_string (slice_from bytes header_len) with
    | Ok (Some text, elem_consumed) => s ← str_from_utf8 text; Some (s, elem_consumed)
    | _ => None
    end
  else None.

Definition read_array (bytes : list Z) (resp_type : string) : result Reply ParseError :=
  let rest := drop 1 bytes in
  let! (line, line_consumed) := ok_or (find_line rest) (truncated (blen rest + 1) (blen rest)) in
  let! count := ok_or (parse_int line) (PE_Malformed "bad array count") in
  let header_len := 1 + line_consumed in
  if 0 <? count then
    match first_element bytes header_len with
    | Some (s, elem_consumed) => Ok (mkReply (header_len + elem_consumed) resp_type (Some s) (Some count))
    | None => Ok (mkReply header_len resp_type None (Some count))
    end
  else Ok (mkReply header_len resp_type None (if count =? 0 then Some 0 else None)).

Definition core (bytes : list Z) (ctx : ParseCtx) : result Reply ParseError :=
  let! type_byte := ok_or (byte_at bytes 0) (truncated 1 0) in
  let! resp_type := type_name type_byte in
  let rest := drop 1 bytes in
  if type_byte =? 36 then
    let! (_, n) := parse_bulk_string bytes in Ok (mkReply n resp_type None None)
  else if type_byte =? 42 then read_array bytes resp_type
  else
    let! (_, n) := ok_or (find_line rest) (truncated (blen rest + 1) (blen rest)) in
    Ok (mkReply (1 + n) resp_type None None).

Definition layer (ctx : ParseCtx) (x : Reply) : ParsedLayer :=
  let fields := FieldMap.new in
  let fields := insert_at ctx DKeys [(APP, Value_from_str "redis")] fields in
  let fields := insert_at ctx DStructural [(RESP_TYPE, Value_from_str (resp_type x))] fields in
  let fields := insert_at ctx DFull
    (when_some (command x) COMMAND Value_from_str ++ when_some (arg_count x) ARG_COUNT VU64) fields in
  {| pl_header_len := header_len x; pl_fields := fields; pl_hint := Hint_Terminal |}.

Definition header (bytes : list Z) (ctx : ParseCtx) : result ParsedLayer ParseError :=
  let! x := core bytes ctx in Ok (layer ctx x).

Definition plugin : LayerPlugin := {|
  name := "redis";
  parse := header;
  claims := [TcpPort 6379];
  expected_predecessors := [];
  has_probe := false;
  probe := fun _ _ => None;
  stream_identity := Some IDENTITY;
  condense := None |}.

Lemma find_line_inside bytes line n : find_line bytes = Some (line, n) -> 2 <= n <= blen bytes.
Proof.
  unfold find_line. intros (i & Hi & [= <- <-])%bind_Some. apply window_position_lt in Hi.
  cbn [length] in Hi. unfold blen. lia.
Qed.

Lemma rest_line_inside bytes line n : find_line (drop 1 bytes) = Some (line, n) -> 2 <= n /\ 1 + n <= blen bytes.
Proof. intros H%find_line_inside. unfold blen in *. rewrite length_drop in H. lia. Qed.

Lemma bulk_inside bytes x n : parse_bulk_string bytes = Ok (x, n) -> 0 <= n <= blen bytes.
Proof.
  unfold parse_bulk_string. destruct (find_line (drop 1 bytes)) as [[line k]|] eqn:Hf; [|done].
  apply rest_line_inside in Hf. cbn [ok_or result_bind].
  destruct (parse_int line) as [len|]; [|done]. cbn [ok_or result_bind]. destruct (len <? 0) eqn:?.
  { intros [= <- <-]. lia. }
  destruct (slice bytes (1 + k) _) as [content|]; [|done]. cbn [ok_or result_bind].
  destruct (slice bytes (1 + k + len) _) as [trailing|] eqn:Ht; [|done]. cbn [ok_or result_bind].
  apply slice_Some in Ht. case_match; [done|]. intros [= <- <-]. reflect_bools. lia.
Qed.

Lemma first_element_inside bytes k s n :
  0 <= k <= blen bytes -> first_element bytes k = Some (s, n) -> 0 <= n /\ k + n <= blen bytes.
Proof.
  intros Hk. unfold first_element. case_match; [|done].
  destruct (parse_bulk_string _) as [[[text|] m]|e] eqn:Hb; [|done|done].
  apply bulk_inside in Hb. rewrite blen_slice_from in Hb by done.
  intros (s' & _ & [= <- <-])%bind_Some. lia.
Qed.

Lemma redis_inside bytes c x : core bytes c = Ok x -> 0 <= header_len x <= blen bytes.
Proof.
  unfold core. rewrite result_bind_Ok. intros (b & _ & (name & _ & Hx)%result_bind_Ok). cbv zeta in Hx.
  destruct (b =? 36).
  { apply result_bind_Ok in Hx as ([v n] & Hb%bulk_inside & [= <-]). done. }
  unfold read_array in Hx. destruct (find_line (drop 1 bytes)) as [[line n]|] eqn:Hf;
    [|by destruct (b =? 42)]. apply rest_line_inside in Hf. cbn [ok_or result_bind] in Hx.
  destruct (b =? 42); [|simplify_eq/=; lia].
  apply result_bind_Ok in Hx as (count & _ & Hx). destruct (0 <? count); [|simplify_eq/=; lia].
  destruct (first_element bytes (1 + n)) as [[s k]|] eqn:He; simplify_eq/=; [|lia].
  apply first_element_inside in He; lia.
Qed.

#[export] Instance layered_reply : Layered plugin core layer (Some IDENTITY).
Proof. layered ltac:(unfold layer) ltac:(intros bytes c x; exact (redis_inside bytes c x)). Qed.

#[global] Instance framed : Framed plugin.
Proof. exact (layered_framed _ core layer _). Qed.

#[global] Instance keyed : Keyed plugin.
Proof. exact (layered_keyed _ core layer _ eq_refl). Qed.

(** An array's command belongs to its header where it is whole: cut inside the
    command, what is left is the array's count line. *)
Example redis_short_success : forall c,
  let ping := str_bytes "*1" ++ [13; 10] ++ str_bytes "$4" ++ [13; 10] ++ str_bytes "PING" ++ [13; 10] in
  (exists l, parse plugin ping c = Ok l /\ pl_header_len l = 14) /\
  (exists l, parse plugin (take 12 ping) c = Ok l /\ pl_header_len l = 4).
Proof. intros c. split; eexists; (split; [vm_compute; reflexivity|reflexivity]). Qed.

End Redis.
