(* ===== verification/PlugEdge.v ===== *)
(** * Security, directory and traversal dissectors

    Models [tls.rs], [quic.rs], [stun.rs], [wireguard.rs], [kerberos.rs],
    [radius.rs] and [ldap.rs] of [crates/pktflow-plugins/src]. *)

From S2P Require Import Prelude Values Bytes Utf8 Text Types Contract PlugKit PlugScan PlugText.
Local Open Scope reader_scope.

Module Tls.

Definition APP : FieldName := "app".
Definition CONTENT_TYPE : FieldName := "content_type".
Definition RECORD_VERSION : FieldName := "record_version".
Definition HANDSHAKE_TYPE : FieldName := "handshake_type".
Definition SNI : FieldName := "sni".
Definition ALPN : FieldName := "alpn".
Definition CIPHER_SUITES : FieldName := "cipher_suites".
Definition SELECTED_CIPHER_SUITE : FieldName := "selected_cipher_suite".
Definition TLS_VERSION_SELECTED : FieldName := "tls_version_selected".
Definition CT_HANDSHAKE : Z := 22.
Definition HS_CLIENT_HELLO : Z := 1.
Definition HS_SERVER_HELLO : Z := 2.
Definition EXT_SERVER_NAME : Z := 0.
Definition EXT_ALPN : Z := 16.
Definition EXT_SUPPORTED_VERSIONS : Z := 43.

Definition KEY : list KeyField := [mkKeyField APP None].
Definition ROLLUPS : list RollupSpec :=
  [mkRollupSpec SNI RK_Sample; mkRollupSpec HANDSHAKE_TYPE RK_Accumulate; mkRollupSpec SELECTED_CIPHER_SUITE RK_Accumulate; mkRollupSpec TLS_VERSION_SELECTED RK_Accumulate].
Definition IDENTITY : StreamIdentity := {|
  key := KEY;
  canonicalize := EndpointSort;
  lifecycle := None;
  rollups := ROLLUPS |}.

Definition is_content_type (ct : Z) : bool := in_range 20 23 ct.

Definition is_record_version (v : Z) : bool := in_range 0x0300 0x0304 v.

Record Handshake := mkHandshake {
  hs_type : Z;
  cipher_suites : option (list Value);
  sni : option string;
  alpn : option (list Value);
  selected_cipher_suite : option Z;
  tls_version_selected : option Z;
}.

Definition extension_round (out : list (Z * list Z)) :
    reader ParseError (list (Z * list Z) + list (Z * list Z)) :=
  or_break ByteReader.u16_be out (fun ext_type =>
  or_break ByteReader.u16_be out (fun ext_len =>
  or_break (ByteReader.take ext_len) out (fun data =>
  rret (inl (out ++ [(ext_type, data)]))))).

(** The rounds do not fail, so the walk has a result. *)
Definition walk_extensions (block : list Z) : list (Z * list Z) :=
  default [] (ok_of (run_reader (while_more (Z.leb 4) extension_round []) block)).

Definition read_sni : reader ParseError (option string) :=
  let? _list_len := ByteReader.u16_be in
  let? name_type := ByteReader.u8 in
  let? name_len := ByteReader.u16_be in
  let? name := ByteReader.take name_len in
  rret (E:=ParseError) (if name_type =? 0 then Some (lossy name) else None).

Definition parse_sni (data : list Z) : option string := default None (ok_of (run_reader read_sni data)).

Definition alpn_round (protos : list Value) : reader ParseError (list Value + list Value) :=
  let? plen := ByteReader.u8 in
  let? proto := ByteReader.take plen in
  rret (E:=ParseError) (inl (protos ++ [Value_from_str (lossy proto)])).

Definition read_alpn : reader ParseError (list Value) :=
  let? _list_len := ByteReader.u16_be in
  let? protos := while_left alpn_round [] in
  rret (E:=ParseError) protos.

Definition parse_alpn (data : list Z) : option (list Value) :=
  match ok_of (run_reader read_alpn data) with
  | Some (_ :: _ as protos) => Some protos
  | _ => None
  end.

(** [while let Ok(suite) = cs.u16_be()]. *)
Fixpoint suites (cs_bytes : list Z) : list Value :=
  match cs_bytes with
  | a :: b :: cs_bytes' => VU64 (be_value [a; b]) :: suites cs_bytes'
  | _ => []
  end.

(** [m.ok()]. *)
Definition ok_read {A} (m : reader ParseError A) : reader ParseError (option A) :=
  fun r => match m r with
           | (Ok a, r') => (Ok (Some a), r')
           | (Error _, r') => (Ok None, r')
           end.

Definition read_extensions : reader ParseError (list (Z * list Z)) :=
  let? block := ok_read (let? ext_total := ByteReader.u16_be in
                         let? b := ByteReader.take ext_total in rret (E:=ParseError) b) in
  rret (match block with Some b => walk_extensions b | None => [] end).

Definition first_u16 (data : list Z) : option Z :=
  match data with a :: b :: _ => Some (be_value [a; b]) | _ => None end.

(** One extension of the hello. *)
Definition note_extension (hs : Handshake) (e : Z * list Z) : Handshake :=
  let '(ext_type, data) := e in
  if (ext_type =? EXT_SERVER_NAME) && (hs_type hs =? HS_CLIENT_HELLO) then
    mkHandshake (hs_type hs) (cipher_suites hs) (parse_sni data) (alpn hs)
      (selected_cipher_suite hs) (tls_version_selected hs)
  else if (ext_type =? EXT_ALPN) && (hs_type hs =? HS_CLIENT_HELLO) then
    mkHandshake (hs_type hs) (cipher_suites hs) (sni hs) (parse_alpn data)
      (selected_cipher_suite hs) (tls_version_selected hs)
  else if (ext_type =? EXT_SUPPORTED_VERSIONS) && (hs_type hs =? HS_SERVER_HELLO) then
    match first_u16 data with
    | Some v => mkHandshake (hs_type hs) (cipher_suites hs) (sni hs) (alpn hs)
                  (selected_cipher_suite hs) (Some v)
    | None => hs
    end
  else hs.

(** What the hello has in front of its extensions. *)
Definition read_choice (hs_type legacy_version : Z) : reader ParseError Handshake :=
  if hs_type =? HS_CLIENT_HELLO then
    let? cs_len := ByteReader.u16_be in
    let? cs_bytes := ByteReader.take cs_len in
    let? comp_len := ByteReader.u8 in
    let? _comp := ByteReader.take comp_len in
    rret (E:=ParseError) (mkHandshake hs_type (Some (suites cs_bytes)) None None None None)
  else
    let? suite := ByteReader.u16_be in
    let? _comp := ByteReader.u8 in
    rret (E:=ParseError) (mkHandshake hs_type None None None (Some suite) (Some legacy_version)).

Definition read_handshake (deep : bool) : reader ParseError Handshake :=
  let? hs_type := ByteReader.u8 in
  let? _hs_len := ByteReader.take 3 in
  if negb deep || (negb (hs_type =? HS_CLIENT_HELLO) && negb (hs_type =? HS_SERVER_HELLO))
  then rret (mkHandshake hs_type None None None None None) else
  let? legacy_version := ByteReader.u16_be in
  let? _random := ByteReader.take 32 in
  let? sid_len := ByteReader.u8 in
  let? _sid := ByteReader.take sid_len in
  let? hs := read_choice hs_type legacy_version in
  let? exts := read_extensions in
  rret (E:=ParseError) (foldl note_extension hs exts).

Definition parse_handshake (fragment : list Z) (deep : bool) : option Handshake :=
  ok_of (run_reader (read_handshake deep) fragment).

Definition structural_fields (content_type record_version : Z) (handshake : option Handshake) :
    list (FieldName * Value) :=
  [(CONTENT_TYPE, VU64 content_type); (RECORD_VERSION, VU64 record_version)] ++
  match handshake with
  | Some hs => (HANDSHAKE_TYPE, VU64 (hs_type hs)) :: when_some (sni hs) SNI Value_from_str
  | None => []
  end.

Definition full_fields (handshake : option Handshake) : list (FieldName * Value) :=
  match handshake with
  | Some hs =>
      when_some (cipher_suites hs) CIPHER_SUITES VList ++ when_some (alpn hs) ALPN VList ++
      when_some (selected_cipher_suite hs) SELECTED_CIPHER_SUITE VU64 ++
      when_some (tls_version_selected hs) TLS_VERSION_SELECTED VU64
  | None => []
  end.

(** [walked] is whether the handshake is walked beyond its type. *)
Definition record_of (walked : ParseCtx -> bool) (ctx : ParseCtx) : reader ParseError ParsedLayer :=
  let? content_type := ByteReader.u8 in
  if negb (is_content_type content_type) then rfail (PE_Malformed "not a TLS content type") else
  let? record_version := ByteReader.u16_be in
  if negb (is_record_version record_version)
  then rfail (PE_Malformed "implausible TLS record version") else
  let? length := ByteReader.u16_be in
  let? fragment := ByteReader.take length in
  let header_len := 5 + length in
  let handshake :=
    if content_type =? CT_HANDSHAKE then parse_handshake fragment (walked ctx) else None in
  let fields := FieldMap.new in
  let fields := insert_at ctx DKeys [(APP, Value_from_str "tls")] fields in
  let fields := insert_at ctx DStructural (structural_fields content_type record_version handshake) fields in
  let fields := insert_at ctx DFull (full_fields handshake) fields in
  rret (E:=ParseError) {| pl_header_len := header_len; pl_fields := fields; pl_hint := Hint_Terminal |}.

Definition header : ParseCtx -> reader ParseError ParsedLayer :=
  record_of (fun ctx => depth_geb (ctx_depth ctx) DStructural).

Definition read_record_header : reader ParseError (Z * Z * Z) :=
  let? content_type := ByteReader.u8 in
  let? record_version := ByteReader.u16_be in
  let? length := ByteReader.u16_be in
  rret (content_type, record_version, length).

Definition probe (bytes : list Z) : option Z :=
  match run_reader read_record_header bytes with
  | Error _ => None
  | Ok (content_type, record_version, length) =>
      let plausible_len := length <=? sat_sub (blen bytes) 5 + 16 in
      if is_content_type content_type && is_record_version record_version && plausible_len
      then Some (Confidence_new 55) else None
  end.

Definition plugin : LayerPlugin := {|
  name := "tls";
  parse := fun bytes ctx => run_reader (header ctx) bytes;
  claims := [TcpPort 443];
  expected_predecessors := [];
  has_probe := true;
  Types.probe := fun bytes _ => probe bytes;
  stream_identity := Some IDENTITY;
  condense := None |}.

#[export] Instance extension_progresses : Progresses extension_round.
Proof. lenient_round ltac:(unfold extension_round). Qed.

#[export] Instance alpn_progresses : Progresses alpn_round.
Proof. progress_round ltac:(unfold alpn_round). Qed.

(** How deep the handshake is walked shows only where its fields do. *)
Lemma header_walked ctx r : header ctx r = record_of (fun _ => true) ctx r.
Proof. destruct ctx as [layers [] meta]; reflexivity. Qed.

#[export] Instance disciplined : Disciplined (Some IDENTITY) (fun _ => record_of (fun _ => true)).
Proof. discipline ltac:(unfold record_of). Qed.

#[global] Instance conformant : Conformant plugin.
Proof.
  apply (dissector_conformant plugin (fun _ => record_of (fun _ => true))); [|exact disciplined].
  intros bytes c. cbn [parse plugin]. unfold run_reader. by rewrite header_walked.
Qed.

End Tls.

Module Quic.

Definition HEADER_FORM : FieldName := "header_form".
Definition FIXED_BIT : FieldName := "fixed_bit".
Definition VERSION : FieldName := "version".
Definition DCID : FieldName := "dcid".
Definition SCID : FieldName := "scid".
Definition PACKET_TYPE : FieldName := "packet_type".
Definition VERSION_1 : Z := 0x00000001.
Definition VERSION_2 : Z := 0x6b3343cf.
Definition VERSION_NEGOTIATION : Z := 0x00000000.
Definition HEADER_FORM_BIT : Z := 0x80.
Definition FIXED_BIT_MASK : Z := 0x40.
Definition LONG_TYPE_MASK : Z := 0x30.
Definition LONG_TYPE_SHIFT : Z := 4.

Definition KEY : list KeyField := [mkKeyField DCID None].
Definition ROLLUPS : list RollupSpec :=
  [mkRollupSpec PACKET_TYPE RK_Accumulate].
Definition IDENTITY : StreamIdentity := {|
  key := KEY;
  canonicalize := EndpointSort;
  lifecycle := None;
  rollups := ROLLUPS |}.

Definition packet_type_v1 (bits : Z) : string :=
  if bits =? 0 then "initial"%string else if bits =? 1 then "0-rtt"%string
  else if bits =? 2 then "handshake"%string else "retry"%string.

Definition packet_type_v2 (bits : Z) : string :=
  if bits =? 1 then "initial"%string else if bits =? 2 then "0-rtt"%string
  else if bits =? 3 then "handshake"%string else "retry"%string.

Definition is_reserved_negotiation_pattern (version : Z) : bool :=
  Z.land version 0x0F0F0F0F =? 0x0A0A0A0A.

Definition is_recognized_version (version : Z) : bool :=
  existsb (Z.eqb version) [VERSION_1; VERSION_2; VERSION_NEGOTIATION].

Definition packet_type_of (version byte0 : Z) : option string :=
  let bits := Z.shiftr (Z.land byte0 LONG_TYPE_MASK) LONG_TYPE_SHIFT in
  if version =? VERSION_1 then Some (packet_type_v1 bits)
  else if version =? VERSION_2 then Some (packet_type_v2 bits)
  else None.

Definition header (ctx : ParseCtx) : reader ParseError ParsedLayer :=
  let? byte0 := ByteReader.u8 in
  let is_long := flag byte0 HEADER_FORM_BIT in
  let fixed_bit := flag byte0 FIXED_BIT_MASK in
  let fields := FieldMap.new in
  if negb is_long then
    let fields := insert_at ctx DStructural
      [(HEADER_FORM, VBool false); (FIXED_BIT, VBool fixed_bit)] fields in
    rret {| pl_header_len := 1; pl_fields := fields; pl_hint := Hint_Terminal |}
  else
    let? version := ByteReader.u32_be in
    let? dcid_len := ByteReader.u8 in
    let? dcid := ByteReader.take dcid_len in
    let? scid_len := ByteReader.u8 in
    let? scid := ByteReader.take scid_len in
    let header_len := 1 + 4 + 1 + dcid_len + 1 + scid_len in
    let packet_type := packet_type_of version byte0 in
    let fields := insert_at ctx DKeys [(DCID, Value_from_slice dcid)] fields in
    let fields := insert_at ctx DStructural
      [(HEADER_FORM, VBool true); (FIXED_BIT, VBool fixed_bit)] fields in
    let fields := insert_at ctx DFull
      ([(VERSION, VU64 version); (SCID, Value_from_slice scid)] ++
       when_some packet_type PACKET_TYPE Value_from_str) fields in
    rret (E:=ParseError) {| pl_header_len := header_len; pl_fields := fields; pl_hint := Hint_Terminal |}.

Definition read_version : reader ParseError (option Z) :=
  let? byte0 := ByteReader.u8 in
  let is_long := flag byte0 HEADER_FORM_BIT in
  let fixed_bit := flag byte0 FIXED_BIT_MASK in
  if negb is_long || negb fixed_bit then rret None else
  let? version := ByteReader.u32_be in
  rret (E:=ParseError) (Some version).

Definition probe (bytes : list Z) : option Z :=
  match run_reader read_version bytes with
  | Ok (Some version) =>
      if is_recognized_version version || is_reserved_negotiation_pattern version
      then Some (Confidence_new 50) else None
  | _ => None
  end.

Definition plugin : LayerPlugin := {|
  name := "quic";
  parse := fun bytes ctx => run_reader (header ctx) bytes;
  claims := [UdpPort 443];
  expected_predecessors := [];
  has_probe := true;
  Types.probe := fun bytes _ => probe bytes;
  stream_identity := Some IDENTITY;
  condense := None |}.

#[export] Instance disciplined : Disciplined None (fun _ => header).
Proof. discipline ltac:(unfold header). Qed.

#[global] Instance framed : Framed plugin.
Proof. exact (dissector_framed plugin (fun _ => header) None (fun _ _ => eq_refl) disc_readable). Qed.

#[global] Instance declining : Declining plugin.
Proof. exact (dissector_declining plugin (fun _ => header) None (fun _ _ => eq_refl) disc_readable disc_stable disc_length). Qed.

(** A short header has no connection id of a length of its own, so a stream of
    packets that starts with one has no key. *)
Example quic_not_keyed :
  parse plugin [0x40] (mkCtx [] DFull (mkMeta 0 1 1 1)) =
    Ok {| pl_header_len := 1; pl_fields := [(HEADER_FORM, VBool false); (FIXED_BIT, VBool true)];
          pl_hint := Hint_Terminal |} /\
  ~ key_ready IDENTITY [(HEADER_FORM, VBool false); (FIXED_BIT, VBool true)].
Proof. split; [reflexivity|]. intros H. apply (Forall_inv) in H. by destruct H. Qed.

End Quic.

Module Stun.

Definition APP : FieldName := "app".
Definition MESSAGE_CLASS : FieldName := "message_class".
Definition MESSAGE_METHOD : FieldName := "message_method".
Definition MESSAGE_LENGTH : FieldName := "message_length".
Definition XOR_MAPPED_ADDRESS : FieldName := "xor_mapped_address".
Definition USERNAME : FieldName := "username".
Definition ERROR_CODE : FieldName := "error_code".
Definition RELAYED_ADDRESS : FieldName := "relayed_address".
Definition LIFETIME : FieldName := "lifetime".
Definition CHANNEL_NUMBER : FieldName := "channel_number".
Definition MAGIC_COOKIE : Z := 0x2112A442.
Definition HEADER_LEN : Z := 20.
Definition ATTR_XOR_MAPPED_ADDRESS : Z := 0x0020.
Definition ATTR_USERNAME : Z := 0x0006.
Definition ATTR_ERROR_CODE : Z := 0x0009.
Definition ATTR_XOR_RELAYED_ADDRESS : Z := 0x0016.
Definition ATTR_LIFETIME : Z := 0x000D.
Definition ATTR_CHANNEL_NUMBER : Z := 0x000C.

Definition KEY : list KeyField := [mkKeyField APP None].
Definition ROLLUPS : list RollupSpec :=
  [mkRollupSpec MESSAGE_CLASS RK_Accumulate; mkRollupSpec XOR_MAPPED_ADDRESS RK_Sample].
Definition IDENTITY : StreamIdentity := {|
  key := KEY;
  canonicalize := EndpointSort;
  lifecycle := None;
  rollups := ROLLUPS |}.

Definition message_class_name (class : Z) : string :=
  if class =? 0 then "request"%string else if class =? 1 then "indication"%string
  else if class =? 2 then "success_response"%string else "error_response"%string.

Definition decode_message_type (msg_type : Z) : Z * Z :=
  let c0 := Z.land (Z.shiftr msg_type 4) 0x1 in
  let c1 := Z.land (Z.shiftr msg_type 8) 0x1 in
  let class := Z.lor (Z.shiftl c1 1) c0 in
  let method :=
    Z.lor (Z.lor (Z.land msg_type 0xF) (Z.shiftl (Z.land (Z.shiftr msg_type 5) 0x7) 4))
      (Z.shiftl (Z.land (Z.shiftr msg_type 9) 0x1F) 7) in
  (class, method).

(** The address XORed with the cookie, and with the transaction id where it is longer. *)
Definition read_xor_address (transaction_id : list Z) : reader ParseError (option (list Z)) :=
  let? _reserved := ByteReader.u8 in
  let? family := ByteReader.u8 in
  let? _xor_port := ByteReader.u16_be in
  let cookie := be_bytes 4 MAGIC_COOKIE in
  if family =? 0x01 then
    let? addr := ByteReader.take 4 in
    rret (E:=ParseError) (Some (zip_with Z.lxor addr cookie))
  else if family =? 0x02 then
    let? addr := ByteReader.take 16 in
    rret (E:=ParseError) (Some (zip_with Z.lxor addr (cookie ++ transaction_id)))
  else rret None.

Definition decode_xor_address (value transaction_id : list Z) : option (list Z) :=
  default None (ok_of (run_reader (read_xor_address transaction_id) value)).

Definition read_error_code : reader ParseError Z :=
  let? _reserved_and_class_hi := ByteReader.u16_be in
  let? class_and_reserved := ByteReader.u8 in
  let? number := ByteReader.u8 in
  let class := Z.land class_and_reserved 0x07 in
  rret (class * 100 + number).

Definition decode_error_code (value : list Z) : option Z := ok_of (run_reader read_error_code value).

(** What an attribute adds to the fields. *)
Definition attribute_fields (transaction_id : list Z) (attr_type : Z) (value : list Z) :
    list (FieldName * Value) :=
  if attr_type =? ATTR_XOR_MAPPED_ADDRESS then
    when_some (decode_xor_address value transaction_id) XOR_MAPPED_ADDRESS Value_from_slice
  else if attr_type =? ATTR_XOR_RELAYED_ADDRESS then
    when_some (decode_xor_address value transaction_id) RELAYED_ADDRESS Value_from_slice
  else if attr_type =? ATTR_USERNAME then when_some (str_from_utf8 value) USERNAME Value_from_str
  else if attr_type =? ATTR_ERROR_CODE then when_some (decode_error_code value) ERROR_CODE VU64
  else if (attr_type =? ATTR_LIFETIME) && (blen value =? 4) then [(LIFETIME, VU64 (be_value value))]
  else if (attr_type =? ATTR_CHANNEL_NUMBER) && (2 <=? blen value)
  then [(CHANNEL_NUMBER, VU64 (be_value (take 2 value)))]
  else [].

(** The insertions so far, in order. *)
Definition attribute_round (transaction_id : list Z) (out : list (FieldName * Value)) :
    reader ParseError (list (FieldName * Value) + list (FieldName * Value)) :=
  or_break ByteReader.u16_be out (fun attr_type =>
  or_break ByteReader.u16_be out (fun attr_len =>
  or_break (ByteReader.take attr_len) out (fun value =>
  let padding := (4 - attr_len mod 4) mod 4 in
  or_break (ByteReader.take padding) out (fun _ =>
  rret (inl (out ++ attribute_fields transaction_id attr_type value)))))).

Definition walk_attributes (transaction_id attrs : list Z) : list (FieldName * Value) :=
  default [] (ok_of (run_reader (while_more (Z.leb 4) (attribute_round transaction_id) []) attrs)).

Definition header (ctx : ParseCtx) : reader ParseError ParsedLayer :=
  let? msg_type := ByteReader.u16_be in
  if flag msg_type 0xC000
  then rfail (PE_Malformed "STUN message type's top two bits must be zero") else
  let? message_length := ByteReader.u16_be in
  if negb (message_length mod 4 =? 0)
  then rfail (PE_Malformed "STUN message length is not a multiple of 4") else
  let? magic_cookie := ByteReader.u32_be in
  if negb (magic_cookie =? MAGIC_COOKIE) then rfail (PE_Malformed "STUN magic cookie mismatch") else
  let? transaction_id := ByteReader.take 12 in
  let? attrs := ByteReader.take message_length in
  let header_len := HEADER_LEN + message_length in
  let '(class, method) := decode_message_type msg_type in
  let fields := FieldMap.new in
  let fields := insert_at ctx DKeys [(APP, Value_from_str "stun")] fields in
  let fields := insert_at ctx DStructural
    [(MESSAGE_CLASS, Value_from_str (message_class_name class)); (MESSAGE_METHOD, VU64 method);
     (MESSAGE_LENGTH, VU64 message_length)] fields in
  let fields := insert_at ctx DFull (walk_attributes transaction_id attrs) fields in
  rret (E:=ParseError) {| pl_header_len := header_len; pl_fields := fields; pl_hint := Hint_Terminal |}.

Definition read_cookie : reader ParseError (option Z) :=
  let? msg_type := ByteReader.u16_be in
  if flag msg_type 0xC000 then rret None else
  let? _message_length := ByteReader.u16_be in
  let? magic_cookie := ByteReader.u32_be in
  rret (E:=ParseError) (Some magic_cookie).

Definition probe (bytes : list Z) : option Z :=
  match run_reader read_cookie bytes with
  | Ok (Some magic_cookie) => if magic_cookie =? MAGIC_COOKIE then Some (Confidence_new 95) else None
  | _ => None
  end.

Definition plugin : LayerPlugin := {|
  name := "stun";
  parse := fun bytes ctx => run_reader (header ctx) bytes;
  claims := [UdpPort 3478; TcpPort 3478];
  expected_predecessors := [];
  has_probe := true;
  Types.probe := fun bytes _ => probe bytes;
  stream_identity := Some IDENTITY;
  condense := None |}.

#[export] Instance attribute_progresses tid : Progresses (attribute_round tid).
Proof. lenient_round ltac:(unfold attribute_round; cbv zeta). Qed.

#[export] Instance disciplined : Disciplined (Some IDENTITY) (fun _ => header).
Proof. discipline ltac:(unfold header, HEADER_LEN, decode_message_type). Qed.

#[global] Instance conformant : Conformant plugin.
Proof. exact (dissector_conformant plugin (fun _ => header) (fun _ _ => eq_refl) disciplined). Qed.

End Stun.

Module Wireguard.

Definition APP : FieldName := "app".
Definition MSG_TYPE : FieldName := "msg_type".
Definition SENDER_INDEX : FieldName := "sender_index".
Definition RECEIVER_INDEX : FieldName := "receiver_index".
Definition TYPE_HANDSHAKE_INITIATION : Z := 1.
Definition TYPE_HANDSHAKE_RESPONSE : Z := 2.
Definition TYPE_COOKIE_REPLY : Z := 3.
Definition TYPE_TRANSPORT_DATA : Z := 4.
Definition HANDSHAKE_INITIATION_LEN : Z := 148.
Definition HANDSHAKE_RESPONSE_LEN : Z := 92.
Definition COOKIE_REPLY_LEN : Z := 64.
Definition TRANSPORT_DATA_HEADER_LEN : Z := 16.
Definition TRANSPORT_DATA_MIN_LEN : Z := TRANSPORT_DATA_HEADER_LEN + 16.

Definition KEY : list KeyField := [mkKeyField APP None].
Definition ROLLUPS : list RollupSpec :=
  [mkRollupSpec MSG_TYPE RK_Accumulate].
Definition IDENTITY : StreamIdentity := {|
  key := KEY;
  canonicalize := EndpointSort;
  lifecycle := None;
  rollups := ROLLUPS |}.

(** The [match msg_type]: its name, the header's length and the two indices. *)
Definition read_body (msg_type : Z) : reader ParseError (string * Z * option Z * option Z) :=
  if msg_type =? TYPE_HANDSHAKE_INITIATION then
    let? sender := ByteReader.u32_le in
    let? _rest := ByteReader.take (HANDSHAKE_INITIATION_LEN - 8) in
    rret (E:=ParseError) ("handshake_initiation"%string, HANDSHAKE_INITIATION_LEN, Some sender, None)
  else if msg_type =? TYPE_HANDSHAKE_RESPONSE then
    let? sender := ByteReader.u32_le in
    let? receiver := ByteReader.u32_le in
    let? _rest := ByteReader.take (HANDSHAKE_RESPONSE_LEN - 12) in
    rret (E:=ParseError) ("handshake_response"%string, HANDSHAKE_RESPONSE_LEN, Some sender, Some receiver)
  else if msg_type =? TYPE_COOKIE_REPLY then
    let? receiver := ByteReader.u32_le in
    let? _rest := ByteReader.take (COOKIE_REPLY_LEN - 8) in
    rret (E:=ParseError) ("cookie_reply"%string, COOKIE_REPLY_LEN, None, Some receiver)
  else if msg_type =? TYPE_TRANSPORT_DATA then
    let? receiver := ByteReader.u32_le in
    let? _counter := ByteReader.take 8 in
    rret (E:=ParseError) ("transport_data"%string, TRANSPORT_DATA_HEADER_LEN, None, Some receiver)
  else rfail (PE_Malformed "unknown wireguard message type").

Definition header (ctx : ParseCtx) : reader ParseError ParsedLayer :=
  let? type_and_reserved := ByteReader.u32_le in
  let msg_type := Z.land type_and_reserved 0xFF in
  let reserved := Z.shiftr type_and_reserved 8 in
  if negb (reserved =? 0)
  then rfail (PE_Malformed "wireguard reserved bytes are not zero") else
  let? (msg_type_str, header_len, sender_index, receiver_index) := read_body msg_type in
  let fields := FieldMap.new in
  let fields := insert_at ctx DKeys [(APP, Value_from_str "wireguard")] fields in
  let fields := insert_at ctx DStructural [(MSG_TYPE, Value_from_str msg_type_str)] fields in
  let fields := insert_at ctx DFull
    (when_some sender_index SENDER_INDEX VU64 ++
     when_some receiver_index RECEIVER_INDEX VU64) fields in
  rret {| pl_header_len := header_len; pl_fields := fields; pl_hint := Hint_Terminal |}.

Definition first_word : reader ParseError Z := let? w := ByteReader.u32_le in rret w.

Definition plausible (msg_type len : Z) : bool :=
  if msg_type =? TYPE_HANDSHAKE_INITIATION then len =? HANDSHAKE_INITIATION_LEN
  else if msg_type =? TYPE_HANDSHAKE_RESPONSE then len =? HANDSHAKE_RESPONSE_LEN
  else if msg_type =? TYPE_COOKIE_REPLY then len =? COOKIE_REPLY_LEN
  else if msg_type =? TYPE_TRANSPORT_DATA then TRANSPORT_DATA_MIN_LEN <=? len
  else false.

Definition probe (bytes : list Z) : option Z :=
  match run_reader first_word bytes with
  | Error _ => None
  | Ok type_and_reserved =>
      let msg_type := Z.land type_and_reserved 0xFF in
      let reserved := Z.shiftr type_and_reserved 8 in
      if negb (reserved =? 0) then None
      else if plausible msg_type (blen bytes) then Some (Confidence_new 50) else None
  end.

Definition plugin : LayerPlugin := {|
  name := "wireguard";
  parse := fun bytes ctx => run_reader (header ctx) bytes;
  claims := [UdpPort 51820];
  expected_predecessors := [];
  has_probe := true;
  Types.probe := fun bytes _ => probe bytes;
  stream_identity := Some IDENTITY;
  condense := None |}.

#[export] Instance disciplined : Disciplined (Some IDENTITY) (fun _ => header).
Proof. discipline ltac:(unfold header, read_body, HANDSHAKE_INITIATION_LEN, HANDSHAKE_RESPONSE_LEN, COOKIE_REPLY_LEN, TRANSPORT_DATA_HEADER_LEN). Qed.

#[global] Instance conformant : Conformant plugin.
Proof. exact (dissector_conformant plugin (fun _ => header) (fun _ _ => eq_refl) disciplined). Qed.

End Wireguard.

Module Kerberos.

Definition APP : FieldName := "app".
Definition MSG_TYPE : FieldName := "msg_type".
Definition DER_LENGTH : FieldName := "der_length".
Definition APPLICATION_CONSTRUCTED_MASK : Z := 0xE0.
Definition APPLICATION_CONSTRUCTED_TAG : Z := 0x60.
Definition TAG_NUMBER_MASK : Z := 0x1F.
Definition AS_REQ : Z := 10.
Definition AS_REP : Z := 11.
Definition TGS_REQ : Z := 12.
Definition TGS_REP : Z := 13.
Definition AP_REQ : Z := 14.
Definition AP_REP : Z := 15.
Definition KRB_ERROR : Z := 30.

Definition KEY : list KeyField := [mkKeyField APP None].
Definition ROLLUPS : list RollupSpec :=
  [mkRollupSpec MSG_TYPE RK_Accumulate].
Definition IDENTITY : StreamIdentity := {|
  key := KEY;
  canonicalize := EndpointSort;
  lifecycle := None;
  rollups := ROLLUPS |}.

Definition is_recognized_msg_type (msg_type : Z) : bool :=
  existsb (Z.eqb msg_type) [AS_REQ; AS_REP; TGS_REQ; TGS_REP; AP_REQ; AP_REP; KRB_ERROR].

Definition read_der_length : reader ParseError Z :=
  let? first := ByteReader.u8 in
  if negb (flag first 0x80) then rret first else
  let width := Z.land first 0x7F in
  if width =? 0
  then rfail (PE_Malformed "indefinite-length BER encoding is not valid DER") else
  if 8 <? width then rfail (PE_Malformed "DER length wider than 8 octets") else
  let? octets := ByteReader.take width in
  rret (E:=ParseError) (fold_be octets).

Definition header (ctx : ParseCtx) : reader ParseError ParsedLayer :=
  let? tag := ByteReader.u8 in
  if negb (Z.land tag APPLICATION_CONSTRUCTED_MASK =? APPLICATION_CONSTRUCTED_TAG)
  then rfail (PE_Malformed "not a Kerberos [APPLICATION n] SEQUENCE tag") else
  let msg_type := Z.land tag TAG_NUMBER_MASK in
  if negb (is_recognized_msg_type msg_type)
  then rfail (PE_Malformed "unrecognized Kerberos msg-type") else
  let? length := read_der_length in
  let? _content := ByteReader.take length in
  let? header_len := consumed in
  let fields := FieldMap.new in
  let fields := insert_at ctx DKeys [(APP, Value_from_str "kerberos")] fields in
  let fields := insert_at ctx DStructural
    [(MSG_TYPE, VU64 msg_type); (DER_LENGTH, VU64 length)] fields in
  rret {| pl_header_len := header_len; pl_fields := fields; pl_hint := Hint_Terminal |}.

Definition plugin : LayerPlugin := {|
  name := "kerberos";
  parse := fun bytes ctx => run_reader (header ctx) bytes;
  claims := [UdpPort 88; TcpPort 88];
  expected_predecessors := [];
  has_probe := false;
  probe := fun _ _ => None;
  stream_identity := Some IDENTITY;
  condense := None |}.

#[export] Instance disciplined : Disciplined (Some IDENTITY) (fun _ => header).
Proof. discipline ltac:(unfold header, read_der_length). Qed.

#[global] Instance conformant : Conformant plugin.
Proof. exact (dissector_conformant plugin (fun _ => header) (fun _ _ => eq_refl) disciplined). Qed.

End Kerberos.

Module Radius.

Definition APP : FieldName := "app".
Definition CODE : FieldName := "code".
Definition IDENTIFIER : FieldName := "identifier".
Definition USER_NAME : FieldName := "user_name".
Definition NAS_IP_ADDRESS : FieldName := "nas_ip_address".
Definition CALLING_STATION_ID : FieldName := "calling_station_id".
Definition ACCT_STATUS_TYPE : FieldName := "acct_status_type".
Definition FIXED_HEADER_LEN : Z := 20.
Definition MIN_LENGTH : Z := 20.
Definition MAX_LENGTH : Z := 4096.
Definition ACCOUNTING_REQUEST : Z := 4.
Definition ACCOUNTING_RESPONSE : Z := 5.
Definition ATTR_USER_NAME : Z := 1.
Definition ATTR_NAS_IP_ADDRESS : Z := 4.
Definition ATTR_CALLING_STATION_ID : Z := 31.
Definition ATTR_ACCT_STATUS_TYPE : Z := 40.

Definition KEY : list KeyField := [mkKeyField APP None].
Definition ROLLUPS : list RollupSpec :=
  [mkRollupSpec CODE RK_Accumulate; mkRollupSpec USER_NAME RK_Sample].
Definition IDENTITY : StreamIdentity := {|
  key := KEY;
  canonicalize := EndpointSort;
  lifecycle := None;
  rollups := ROLLUPS |}.

(** The attributes kept, the last of a kind. *)
Record Attrs := mkAttrs {
  user_name : option (list Z);
  nas_ip_address : option (list Z);
  calling_station_id : option (list Z);
  acct_status_type : option Z;
}.

Definition note_attr (attr_type : Z) (value : list Z) (a : Attrs) : Attrs :=
  if attr_type =? ATTR_USER_NAME then
    mkAttrs (Some value) (nas_ip_address a) (calling_station_id a) (acct_status_type a)
  else if (attr_type =? ATTR_NAS_IP_ADDRESS) && (blen value =? 4) then
    mkAttrs (user_name a) (Some value) (calling_station_id a) (acct_status_type a)
  else if attr_type =? ATTR_CALLING_STATION_ID then
    mkAttrs (user_name a) (nas_ip_address a) (Some value) (acct_status_type a)
  else if (attr_type =? ATTR_ACCT_STATUS_TYPE) && (blen value =? 4) then
    mkAttrs (user_name a) (nas_ip_address a) (calling_station_id a) (Some (be_value value))
  else a.

Definition attr_round (a : Attrs) : reader ParseError (Attrs + Attrs) :=
  let? attr_type := map_err ByteReader.u8 (PE_Malformed "RADIUS attribute stream ends mid-attribute") in
  let? attr_len := map_err ByteReader.u8 (PE_Malformed "RADIUS attribute stream ends mid-attribute") in
  if attr_len <? 2 then rfail (PE_Malformed "RADIUS attribute Length must be at least 2") else
  let? value := map_err (ByteReader.take (attr_len - 2))
    (PE_Malformed "RADIUS attribute overruns the message Length") in
  rret (E:=ParseError) (inl (note_attr attr_type value a)).

Definition attr_fields (code : Z) (a : Attrs) : list (FieldName * Value) :=
  when_some (user_name a) USER_NAME (fun v => Value_from_str (lossy v)) ++
  when_some (nas_ip_address a) NAS_IP_ADDRESS Value_from_slice ++
  when_some (calling_station_id a) CALLING_STATION_ID (fun v => Value_from_str (lossy v)) ++
  (if (code =? ACCOUNTING_REQUEST) || (code =? ACCOUNTING_RESPONSE)
   then when_some (acct_status_type a) ACCT_STATUS_TYPE VU64 else []).

(** The slice taken is [bytes[FIXED_HEADER_LEN..total_length]]. *)
Definition header (ctx : ParseCtx) : reader ParseError ParsedLayer :=
  let? code := ByteReader.u8 in
  let? identifier := ByteReader.u8 in
  let? length := ByteReader.u16_be in
  let? _authenticator := ByteReader.take 16 in
  if negb ((MIN_LENGTH <=? length) && (length <=? MAX_LENGTH))
  then rfail (PE_Malformed "RADIUS Length field outside the RFC 2865 §3 20..=4096 range") else
  let total_length := length in
  let? attrs := ByteReader.take (total_length - FIXED_HEADER_LEN) in
  let? a := of_result (walk_slice attr_round (mkAttrs None None None None) attrs) in
  let fields := FieldMap.new in
  let fields := insert_at ctx DKeys [(APP, Value_from_str "radius")] fields in
  let fields := insert_at ctx DStructural
    [(CODE, VU64 code); (IDENTIFIER, VU64 identifier)] fields in
  let fields := insert_at ctx DFull (attr_fields code a) fields in
  rret {| pl_header_len := total_length; pl_fields := fields; pl_hint := Hint_Terminal |}.

Definition plugin : LayerPlugin := {|
  name := "radius";
  parse := fun bytes ctx => run_reader (header ctx) bytes;
  claims := [UdpPort 1812; UdpPort 1813];
  expected_predecessors := [];
  has_probe := false;
  probe := fun _ _ => None;
  stream_identity := Some IDENTITY;
  condense := None |}.

(** The walk over the attributes ends with the message. *)
#[export] Instance attr_progresses : Progresses attr_round.
Proof. progress_round ltac:(unfold attr_round). Qed.

#[export] Instance disciplined : Disciplined (Some IDENTITY) (fun _ => header).
Proof. discipline ltac:(unfold header, FIXED_HEADER_LEN, MIN_LENGTH). Qed.

#[global] Instance conformant : Conformant plugin.
Proof. exact (dissector_conformant plugin (fun _ => header) (fun _ _ => eq_refl) disciplined). Qed.

End Radius.

Module Ldap.

Definition APP : FieldName := "app".
Definition MESSAGE_ID : FieldName := "message_id".
Definition PROTOCOL_OP : FieldName := "protocol_op".
Definition BIND_DN : FieldName := "bind_dn".
Definition TAG_SEQUENCE : Z := 0x30.
Definition TAG_INTEGER : Z := 0x02.
Definition TAG_OCTET_STRING : Z := 0x04.
Definition APPLICATION_CLASS_MASK : Z := 0xC0.
Definition APPLICATION_CLASS : Z := 0x40.
Definition TAG_NUMBER_MASK : Z := 0x1F.
Definition BIND_REQUEST : Z := 0.

Definition KEY : list KeyField := [mkKeyField APP None].
Definition ROLLUPS : list RollupSpec :=
  [mkRollupSpec PROTOCOL_OP RK_Accumulate; mkRollupSpec BIND_DN RK_Sample].
Definition IDENTITY : StreamIdentity := {|
  key := KEY;
  canonicalize := EndpointSort;
  lifecycle := None;
  rollups := ROLLUPS |}.

Record Tlv := mkTlv { tag : Z; content : list Z }.

Definition read_der_length : reader ParseError Z :=
  let? first := ByteReader.u8 in
  if negb (flag first 0x80) then rret first else
  let width := Z.land first 0x7F in
  if width =? 0
  then rfail (PE_Malformed "indefinite-length BER encoding is not valid DER") else
  if 8 <? width then rfail (PE_Malformed "DER length wider than 8 octets") else
  let? octets := ByteReader.take width in
  rret (E:=ParseError) (fold_be octets).

Definition read_tlv : reader ParseError Tlv :=
  let? tag := ByteReader.u8 in
  let? length := read_der_length in
  let? content := ByteReader.take length in
  rret (E:=ParseError) (mkTlv tag content).

Definition decode_uint (bytes : list Z) : option Z :=
  if (blen bytes =? 0) || (8 <? blen bytes) then None else Some (fold_be bytes).

Definition bind_name : reader ParseError (list Z) :=
  let? version := read_tlv in
  if negb (tag version =? TAG_INTEGER) then rfail (PE_Malformed "no version") else
  let? name := read_tlv in
  if negb (tag name =? TAG_OCTET_STRING) then rfail (PE_Malformed "no name") else
  rret (E:=ParseError) (content name).

(** Every error is [None] here. *)
Definition read_bind_dn (op_content : list Z) : option string :=
  ok_of (run_reader bind_name op_content) ≫= str_from_utf8.

(** What is read of the message's content. *)
Definition read_message : reader ParseError (Z * Z * list Z) :=
  let? msg_id_tlv := read_tlv in
  if negb (tag msg_id_tlv =? TAG_INTEGER)
  then rfail (PE_Malformed "LDAPMessage missing messageID") else
  match decode_uint (content msg_id_tlv) with
  | None => rfail (PE_Malformed "messageID too wide")
  | Some message_id =>
      let? op_tlv := read_tlv in
      if negb (Z.land (tag op_tlv) APPLICATION_CLASS_MASK =? APPLICATION_CLASS)
      then rfail (PE_Malformed "protocolOp is not an APPLICATION-tagged CHOICE") else
      rret (E:=ParseError) (message_id, Z.land (tag op_tlv) TAG_NUMBER_MASK, content op_tlv)
  end.

Definition header (ctx : ParseCtx) : reader ParseError ParsedLayer :=
  let? outer := read_tlv in
  if negb (tag outer =? TAG_SEQUENCE) then rfail (PE_Malformed "not an LDAPMessage SEQUENCE") else
  let? header_len := consumed in
  let? (message_id, protocol_op, op_content) := within (content outer) read_message in
  let fields := FieldMap.new in
  let fields := insert_at ctx DKeys [(APP, Value_from_str "ldap")] fields in
  let fields := insert_at ctx DStructural
    [(MESSAGE_ID, VU64 message_id); (PROTOCOL_OP, VU64 protocol_op)] fields in
  let fields := insert_at ctx DFull
    (if protocol_op =? BIND_REQUEST
     then when_some (read_bind_dn op_content) BIND_DN Value_from_str else []) fields in
  rret {| pl_header_len := header_len; pl_fields := fields; pl_hint := Hint_Terminal |}.

Definition plugin : LayerPlugin := {|
  name := "ldap";
  parse := fun bytes ctx => run_reader (header ctx) bytes;
  claims := [TcpPort 389];
  expected_predecessors := [];
  has_probe := false;
  probe := fun _ _ => None;
  stream_identity := Some IDENTITY;
  condense := None |}.

#[export] Instance disciplined : Disciplined (Some IDENTITY) (fun _ => header).
Proof. discipline ltac:(unfold header, read_tlv, read_der_length). Qed.

#[global] Instance conformant : Conformant plugin.
Proof. exact (dissector_conformant plugin (fun _ => header) (fun _ _ => eq_refl) disciplined). Qed.

End Ldap.
