(* ===== verification/PlugPlant.v ===== *)
(** * Telemetry, building-automation, industrial and timing dissectors

    Models [mqtt.rs], [enip.rs], [bacnet_ip.rs], [ptp.rs] and [dnp3.rs] of
    [crates/pktflow-plugins/src]. *)

From S2P Require Import Prelude Values Bytes Utf8 Text Types Contract PlugKit PlugScan PlugText.
Local Open Scope reader_scope.

Module Mqtt.

Definition APP : FieldName := "app".
Definition MESSAGE_TYPE : FieldName := "message_type".
Definition REMAINING_LENGTH : FieldName := "remaining_length".
Definition CLIENT_ID : FieldName := "client_id".
Definition KEEP_ALIVE : FieldName := "keep_alive".
Definition TOPIC : FieldName := "topic".
Definition QOS : FieldName := "qos".
Definition RETAIN : FieldName := "retain".
Definition TOPICS : FieldName := "topics".
Definition CONNECT : Z := 1.
Definition PUBLISH : Z := 3.
Definition SUBSCRIBE : Z := 8.
Definition PROTOCOL_VERSION_5 : Z := 5.
Definition PUBLISH_RETAIN : Z := 0x01.
Definition PUBLISH_QOS_MASK : Z := 0x06.
Definition PUBLISH_QOS_SHIFT : Z := 1.
Definition RESERVED_QOS : Z := 3.
Definition MAX_TOPICS : Z := 128.

Definition KEY : list KeyField := [mkKeyField APP None].
Definition ROLLUPS : list RollupSpec :=
  [mkRollupSpec MESSAGE_TYPE RK_Accumulate; mkRollupSpec TOPIC RK_Accumulate].
Definition IDENTITY : StreamIdentity := {|
  key := KEY;
  canonicalize := EndpointSort;
  lifecycle := None;
  rollups := ROLLUPS |}.

(** Four rounds at most: the sum stays below [2^28], so no [u32] overflows. *)
Fixpoint byte_int_rounds (rounds : nat) (value multiplier : Z) : reader ParseError Z :=
  match rounds with
  | O => rfail (PE_Malformed "variable byte integer exceeds 4 bytes")
  | S rounds' =>
      let? byte := ByteReader.u8 in
      let value := value + Z.land byte 0x7F * multiplier in
      if Z.land byte 0x80 =? 0 then rret value
      else byte_int_rounds rounds' value (multiplier * 128)
  end.

Definition variable_byte_int : reader ParseError Z := byte_int_rounds 4 0 1.

Definition utf8_string : reader ParseError string :=
  let? len := ByteReader.u16_be in
  let? bytes := ByteReader.take len in
  of_result (ok_or (str_from_utf8 bytes) (PE_Malformed "invalid UTF-8 encoded string")).

Definition read_connect : reader ParseError (string * Z) :=
  let? _protocol_name := utf8_string in
  let? protocol_version := ByteReader.u8 in
  let? _connect_flags := ByteReader.u8 in
  let? keep_alive := ByteReader.u16_be in
  let? _ :=
    if protocol_version =? PROTOCOL_VERSION_5 then
      let? property_len := variable_byte_int in
      let? _properties := ByteReader.take property_len in
      rret (E:=ParseError) tt
    else rret (E:=ParseError) tt in
  let? client_id := utf8_string in
  rret (E:=ParseError) (client_id, keep_alive).

Definition connect_fields (body : list Z) : result (string * Z) ParseError := run_reader read_connect body.

Definition publish_topic (body : list Z) : result string ParseError := run_reader utf8_string body.

Definition topic_round (topics : list string) : reader ParseError (list string + list string) :=
  if blen topics <? MAX_TOPICS then
    let? topic_filter := utf8_string in
    let? _subscription_options := ByteReader.u8 in
    rret (E:=ParseError) (inl (topics ++ [topic_filter]))
  else rret (inr topics).

Definition read_topics : reader ParseError (list string) :=
  let? _packet_identifier := ByteReader.u16_be in
  let? topics := while_left topic_round [] in
  rret (E:=ParseError) topics.

Definition subscribe_topics (body : list Z) : result (list string) ParseError := run_reader read_topics body.

Definition full_fields (message_type flags qos : Z) (body : list Z) : list (FieldName * Value) :=
  if message_type =? CONNECT then
    match connect_fields body with
    | Ok (client_id, keep_alive) => [(CLIENT_ID, Value_from_str client_id); (KEEP_ALIVE, VU64 keep_alive)]
    | Error _ => []
    end
  else if message_type =? PUBLISH then
    match publish_topic body with Ok topic => [(TOPIC, Value_from_str topic)] | Error _ => [] end ++
    [(QOS, VU64 qos); (RETAIN, VBool (flag flags PUBLISH_RETAIN))]
  else if message_type =? SUBSCRIBE then
    match subscribe_topics body with
    | Ok topics => [(TOPICS, VList (Value_from_str <$> topics))]
    | Error _ => []
    end
  else [].

Definition header (ctx : ParseCtx) : reader ParseError ParsedLayer :=
  let? first := ByteReader.u8 in
  let message_type := Z.shiftr first 4 in
  if message_type =? 0 then rfail (PE_Malformed "reserved MQTT control packet type") else
  let flags := Z.land first 0x0F in
  let? remaining_length := variable_byte_int in
  let? body := ByteReader.take remaining_length in
  let qos := Z.shiftr (Z.land flags PUBLISH_QOS_MASK) PUBLISH_QOS_SHIFT in
  if (message_type =? PUBLISH) && (qos =? RESERVED_QOS)
  then rfail (PE_Malformed "PUBLISH QoS value 3 is reserved") else
  let? header_len := consumed in
  let fields := FieldMap.new in
  let fields := insert_at ctx DKeys [(APP, Value_from_str "mqtt")] fields in
  let fields := insert_at ctx DStructural
    [(MESSAGE_TYPE, VU64 message_type); (REMAINING_LENGTH, VU64 remaining_length)] fields in
  let fields := insert_at ctx DFull (full_fields message_type flags qos body) fields in
  rret (E:=ParseError) {| pl_header_len := header_len; pl_fields := fields; pl_hint := Hint_Terminal |}.

Definition plugin : LayerPlugin := {|
  name := "mqtt";
  parse := fun bytes ctx => run_reader (header ctx) bytes;
  claims := [TcpPort 1883];
  expected_predecessors := [];
  has_probe := false;
  probe := fun _ _ => None;
  stream_identity := Some IDENTITY;
  condense := None |}.

#[export] Instance stable_byte_int rounds value multiplier : Stable (byte_int_rounds rounds value multiplier).
Proof. revert value multiplier. induction rounds; intros; cbn [byte_int_rounds]; cbv zeta; apply _. Qed.

#[export] Instance byte_int_forward : Consumes variable_byte_int (fun n n' _ => n <= n').
Proof.
  unfold variable_byte_int. generalize 0, 1. generalize 4%nat. intros rounds.
  induction rounds as [|rounds IH]; intros value multiplier n; cbn [byte_int_rounds]; [apply consumes_fail|].
  consume_step. cbv zeta. consume_step; [consume_step; lia|].
  eapply consumes_impl; [apply IH|]. cbv beta. intros. lia.
Qed.

#[export] Instance stable_variable_byte_int : Stable variable_byte_int.
Proof. apply stable_byte_int. Qed.

#[export] Instance utf8_string_forward : Consumes utf8_string (fun n n' _ => n + 2 <= n').
Proof.
  intros n. unfold utf8_string. repeat consume_step.
  destruct (ok_or _ _); [apply consumes_ret; lia|apply consumes_fail].
Qed.

#[export] Instance topic_progresses : Progresses topic_round.
Proof. progress_round ltac:(unfold topic_round). Qed.

#[export] Instance disciplined : Disciplined (Some IDENTITY) (fun _ => header).
Proof. discipline ltac:(unfold header). Qed.

#[global] Instance conformant : Conformant plugin.
Proof. exact (dissector_conformant plugin (fun _ => header) (fun _ _ => eq_refl) disciplined). Qed.

(** The four bytes of a length are enough for every length the format has. *)
Lemma byte_int_bounds rounds value multiplier r n r' :
  0 <= value -> 0 <= multiplier ->
  byte_int_rounds rounds value multiplier r = (Ok n, r') ->
  value <= n <= value + multiplier * (128 ^ Z.of_nat rounds - 1).
Proof.
  revert value multiplier r. induction rounds as [|rounds IH]; intros value multiplier r Hv Hm; [done|].
  cbn [byte_int_rounds]. intros H. apply rbind_Ok_inv in H as (b & r1 & _ & H). cbv zeta in H.
  assert (0 <= Z.land b 127 <= 127) as Hb.
  { assert (Z.land b 127 = b mod 2 ^ 7) as -> by (apply (Z.land_ones b 7); lia). pose proof (Z.mod_pos_bound b 128 eq_refl).
    change (2 ^ 7) with 128. lia. }
  rewrite Nat2Z.inj_succ, Z.pow_succ_r by lia.
  assert (1 <= 128 ^ Z.of_nat rounds) by (pose proof (Z.pow_pos_nonneg 128 (Z.of_nat rounds)); lia).
  destruct (Z.land b 128 =? 0).
  - injection H as <- _. nia.
  - apply IH in H; nia.
Qed.

Lemma variable_byte_int_bounds r n r' : variable_byte_int r = (Ok n, r') -> 0 <= n < 2 ^ 28.
Proof. intros H%byte_int_bounds; [|lia..]. change (128 ^ Z.of_nat 4) with (2 ^ 28) in H. lia. Qed.

End Mqtt.

Module Enip.

Definition SESSION_HANDLE : FieldName := "session_handle".
Definition COMMAND : FieldName := "command".
Definition LENGTH : FieldName := "length".
Definition STATUS : FieldName := "status".
Definition CIP_SERVICE : FieldName := "cip_service".
Definition CMD_SEND_RR_DATA : Z := 0x006F.
Definition CMD_SEND_UNIT_DATA : Z := 0x0070.
Definition CPF_UNCONNECTED_DATA : Z := 0x00B2.
Definition CPF_CONNECTED_DATA : Z := 0x00B1.

Definition KEY : list KeyField := [mkKeyField SESSION_HANDLE None].
Definition ROLLUPS : list RollupSpec :=
  [mkRollupSpec COMMAND RK_Accumulate].
Definition IDENTITY : StreamIdentity := {|
  key := KEY;
  canonicalize := EndpointSort;
  lifecycle := None;
  rollups := ROLLUPS |}.

(** [for _ in 0..item_count], until an item carries a CIP message. *)
Fixpoint read_items (item_count : nat) : reader ParseError (option Z) :=
  match item_count with
  | O => rret None
  | S item_count' =>
      let? type_id := ByteReader.u16_le in
      let? item_len := ByteReader.u16_le in
      let? data := ByteReader.take item_len in
      if type_id =? CPF_UNCONNECTED_DATA then rret (byte_at data 0)
      else if type_id =? CPF_CONNECTED_DATA then rret (byte_at data 2)
      else read_items item_count'
  end.

Definition read_cip_service : reader ParseError (option Z) :=
  let? _interface_handle := ByteReader.u32_le in
  let? _timeout := ByteReader.u16_le in
  let? item_count := ByteReader.u16_le in
  read_items (Z.to_nat item_count).

Definition leading_cip_service (body : list Z) : option Z :=
  default None (ok_of (run_reader read_cip_service body)).

Definition header (ctx : ParseCtx) : reader ParseError ParsedLayer :=
  let? command := ByteReader.u16_le in
  let? length := ByteReader.u16_le in
  let? session_handle := ByteReader.u32_le in
  let? status := ByteReader.u32_le in
  let? _sender_context := ByteReader.take 8 in
  let? options := ByteReader.u32_le in
  if negb (options =? 0)
  then rfail (PE_Malformed "Encapsulation Options is reserved and must be 0") else
  let? body := ByteReader.take length in
  let? header_len := consumed in
  let cip_service :=
    if (command =? CMD_SEND_RR_DATA) || (command =? CMD_SEND_UNIT_DATA)
    then leading_cip_service body else None in
  let fields := FieldMap.new in
  let fields := insert_at ctx DKeys [(SESSION_HANDLE, VU64 session_handle)] fields in
  let fields := insert_at ctx DStructural
    [(COMMAND, VU64 command); (LENGTH, VU64 length); (STATUS, VU64 status)] fields in
  let fields := insert_at ctx DFull (when_some cip_service CIP_SERVICE VU64) fields in
  rret (E:=ParseError) {| pl_header_len := header_len; pl_fields := fields; pl_hint := Hint_Terminal |}.

Definition plugin : LayerPlugin := {|
  name := "enip";
  parse := fun bytes ctx => run_reader (header ctx) bytes;
  claims := [TcpPort 44818];
  expected_predecessors := [];
  has_probe := false;
  probe := fun _ _ => None;
  stream_identity := Some IDENTITY;
  condense := None |}.

#[export] Instance disciplined : Disciplined (Some IDENTITY) (fun _ => header).
Proof. discipline ltac:(unfold header). Qed.

#[global] Instance conformant : Conformant plugin.
Proof. exact (dissector_conformant plugin (fun _ => header) (fun _ _ => eq_refl) disciplined). Qed.

End Enip.

Module BacnetIp.

Definition APP : FieldName := "app".
Definition BVLC_FUNCTION : FieldName := "bvlc_function".
Definition NPDU_CONTROL : FieldName := "npdu_control".
Definition APDU_TYPE : FieldName := "apdu_type".
Definition SERVICE_CHOICE : FieldName := "service_choice".
Definition BVLC_TYPE : Z := 0x81.
Definition FN_RESULT : Z := 0x00.
Definition FN_WRITE_BDT : Z := 0x01.
Definition FN_READ_BDT : Z := 0x02.
Definition FN_READ_BDT_ACK : Z := 0x03.
Definition FN_FORWARDED_NPDU : Z := 0x04.
Definition FN_REGISTER_FOREIGN_DEVICE : Z := 0x05.
Definition FN_READ_FDT : Z := 0x06.
Definition FN_READ_FDT_ACK : Z := 0x07.
Definition FN_DELETE_FDT_ENTRY : Z := 0x08.
Definition FN_DISTRIBUTE_BROADCAST : Z := 0x09.
Definition FN_ORIGINAL_UNICAST_NPDU : Z := 0x0A.
Definition FN_ORIGINAL_BROADCAST_NPDU : Z := 0x0B.
Definition KNOWN_FUNCTIONS : list Z := [FN_RESULT; FN_WRITE_BDT; FN_READ_BDT; FN_READ_BDT_ACK; FN_FORWARDED_NPDU; FN_REGISTER_FOREIGN_DEVICE; FN_READ_FDT; FN_READ_FDT_ACK; FN_DELETE_FDT_ENTRY; FN_DISTRIBUTE_BROADCAST; FN_ORIGINAL_UNICAST_NPDU; FN_ORIGINAL_BROADCAST_NPDU].
Definition NPDU_VERSION : Z := 0x01.
Definition CONTROL_NETWORK_LAYER_MSG : Z := 0x80.
Definition CONTROL_DEST_PRESENT : Z := 0x20.
Definition CONTROL_SRC_PRESENT : Z := 0x08.
Definition APDU_SEG_FLAG : Z := 0x08.
Definition APDU_CONFIRMED_REQUEST : Z := 0.
Definition APDU_UNCONFIRMED_REQUEST : Z := 1.
Definition APDU_SIMPLE_ACK : Z := 2.
Definition APDU_COMPLEX_ACK : Z := 3.

Definition KEY : list KeyField := [mkKeyField APP None].
Definition ROLLUPS : list RollupSpec :=
  [mkRollupSpec SERVICE_CHOICE RK_Accumulate].
Definition IDENTITY : StreamIdentity := {|
  key := KEY;
  canonicalize := EndpointSort;
  lifecycle := None;
  rollups := ROLLUPS |}.

(** An address of the network layer: the network, its length and the octets. *)
Definition read_address : reader ParseError (list Z) :=
  let? _net := ByteReader.u16_be in
  let? len := ByteReader.u8 in
  let? adr := ByteReader.take len in
  rret (E:=ParseError) adr.

Definition read_segment (segmented : bool) : reader ParseError unit :=
  if segmented then
    let? _sequence_number := ByteReader.u8 in
    let? _proposed_window_size := ByteReader.u8 in
    rret tt
  else rret tt.

(** The APDU's type and service choice. *)
Definition read_apdu : reader ParseError (Z * option Z) :=
  let? apdu_byte0 := ByteReader.u8 in
  let pdu_type := Z.shiftr apdu_byte0 4 in
  let segmented := flag apdu_byte0 APDU_SEG_FLAG in
  let? service_choice :=
    if pdu_type =? APDU_CONFIRMED_REQUEST then
      let? _max_segments_and_apdu := ByteReader.u8 in
      let? _invoke_id := ByteReader.u8 in
      let? _ := read_segment segmented in
      let? s := ByteReader.u8 in rret (E:=ParseError) (Some s)
    else if pdu_type =? APDU_UNCONFIRMED_REQUEST then
      let? s := ByteReader.u8 in rret (E:=ParseError) (Some s)
    else if pdu_type =? APDU_SIMPLE_ACK then
      let? _invoke_id := ByteReader.u8 in
      let? s := ByteReader.u8 in rret (E:=ParseError) (Some s)
    else if pdu_type =? APDU_COMPLEX_ACK then
      let? _invoke_id := ByteReader.u8 in
      let? _ := read_segment segmented in
      let? s := ByteReader.u8 in rret (E:=ParseError) (Some s)
    else rret (E:=ParseError) None in
  rret (E:=ParseError) (pdu_type, service_choice).

(** A network-layer message has no APDU. *)
Definition read_network_message : reader ParseError unit :=
  let? message_type := ByteReader.u8 in
  if 0x80 <=? message_type then let? _vendor_id := ByteReader.u16_be in rret tt else rret tt.

(** The control octet and the APDU. *)
Definition read_npdu (bvlc_function : Z) : reader ParseError (Z * option (Z * option Z)) :=
  let? _ :=
    if bvlc_function =? FN_FORWARDED_NPDU
    then let? _original_source_bip := ByteReader.take 6 in rret (E:=ParseError) tt
    else rret (E:=ParseError) tt in
  let? version := ByteReader.u8 in
  if negb (version =? NPDU_VERSION) then rfail (PE_Malformed "NPDU version is not 1") else
  let? control := ByteReader.u8 in
  let dest := flag control CONTROL_DEST_PRESENT in
  let? _ := if dest then read_address else rret [] in
  let? _ := if flag control CONTROL_SRC_PRESENT then read_address else rret [] in
  let? _ := if dest then let? hop_count := ByteReader.u8 in rret hop_count else rret 0 in
  if flag control CONTROL_NETWORK_LAYER_MSG
  then let? _ := read_network_message in rret (E:=ParseError) (control, None)
  else let? apdu := read_apdu in rret (E:=ParseError) (control, Some apdu).

Definition read_body (bvlc_function : Z) : reader ParseError (option (Z * option (Z * option Z))) :=
  if existsb (Z.eqb bvlc_function)
       [FN_ORIGINAL_UNICAST_NPDU; FN_ORIGINAL_BROADCAST_NPDU; FN_FORWARDED_NPDU]
  then let? npdu := read_npdu bvlc_function in rret (E:=ParseError) (Some npdu)
  else rret None.

Definition header (ctx : ParseCtx) : reader ParseError ParsedLayer :=
  let? bvlc_type := ByteReader.u8 in
  if negb (bvlc_type =? BVLC_TYPE)
  then rfail (PE_Malformed "BVLC type is not 0x81 (BACnet/IP)") else
  let? bvlc_function := ByteReader.u8 in
  let? declared_len := ByteReader.u16_be in
  if declared_len <? 4
  then rfail (PE_Malformed "BVLC length smaller than the BVLC header itself") else
  let? npdu := read_body bvlc_function in
  let? n := consumed in
  if declared_len <? n
  then rfail (PE_Malformed "BVLC length shorter than the fields it must contain") else
  let? _tail := ByteReader.take (declared_len - n) in
  let? header_len := consumed in
  let apdu := npdu ≫= snd in
  let fields := FieldMap.new in
  let fields := insert_at ctx DKeys [(APP, Value_from_str "bacnet")] fields in
  let fields := insert_at ctx DStructural
    ([(BVLC_FUNCTION, VU64 bvlc_function)] ++ when_some (fst <$> npdu) NPDU_CONTROL VU64) fields in
  let fields := insert_at ctx DFull
    (when_some (fst <$> apdu) APDU_TYPE VU64 ++ when_some (apdu ≫= snd) SERVICE_CHOICE VU64) fields in
  rret (E:=ParseError) {| pl_header_len := header_len; pl_fields := fields; pl_hint := Hint_Terminal |}.

Definition read_bvlc : reader ParseError (Z * Z * Z) :=
  let? bvlc_type := ByteReader.u8 in
  let? function := ByteReader.u8 in
  let? length := ByteReader.u16_be in
  rret (bvlc_type, function, length).

Definition probe (bytes : list Z) : option Z :=
  match run_reader read_bvlc bytes with
  | Error _ => None
  | Ok (bvlc_type, function, length) =>
      if (bvlc_type =? BVLC_TYPE) && existsb (Z.eqb function) KNOWN_FUNCTIONS && (4 <=? length)
      then Some (Confidence_new 60) else None
  end.

Definition plugin : LayerPlugin := {|
  name := "bacnet_ip";
  parse := fun bytes ctx => run_reader (header ctx) bytes;
  claims := [UdpPort 47808];
  expected_predecessors := [];
  has_probe := true;
  Types.probe := fun bytes _ => probe bytes;
  stream_identity := Some IDENTITY;
  condense := None |}.

#[export] Instance address_forward : Consumes read_address (fun n n' _ => n <= n').
Proof. intros n. unfold read_address. repeat consume_step. lia. Qed.

#[export] Instance segment_forward segmented : Consumes (read_segment segmented) (fun n n' _ => n <= n').
Proof. intros n. unfold read_segment. repeat consume_step; lia. Qed.

#[export] Instance apdu_forward : Consumes read_apdu (fun n n' _ => n <= n').
Proof. intros n. unfold read_apdu. cbv zeta. repeat consume_step; lia. Qed.

#[export] Instance network_message_forward : Consumes read_network_message (fun n n' _ => n <= n').
Proof. intros n. unfold read_network_message. repeat consume_step; lia. Qed.

#[export] Instance npdu_forward f : Consumes (read_npdu f) (fun n n' _ => n <= n').
Proof. intros n. unfold read_npdu. cbv zeta. repeat consume_step; lia. Qed.

#[export] Instance body_forward f : Consumes (read_body f) (fun n n' _ => n <= n').
Proof. intros n. unfold read_body. repeat consume_step; lia. Qed.

#[export] Instance stable_body f : Stable (read_body f).
Proof. unfold read_body, read_npdu, read_apdu, read_network_message, read_segment, read_address. cbv zeta. apply _. Qed.

#[export] Instance disciplined : Disciplined (Some IDENTITY) (fun _ => header).
Proof. discipline ltac:(unfold header). Qed.

#[global] Instance conformant : Conformant plugin.
Proof. exact (dissector_conformant plugin (fun _ => header) (fun _ _ => eq_refl) disciplined). Qed.

End BacnetIp.

Module Ptp.

Definition DOMAIN : FieldName := "domain".
Definition MSG_TYPE : FieldName := "msg_type".
Definition VERSION : FieldName := "version".
Definition SEQUENCE_ID : FieldName := "sequence_id".
Definition CLOCK_IDENTITY : FieldName := "clock_identity".
Definition SOURCE_PORT_ID : FieldName := "source_port_id".
Definition MESSAGE_LENGTH : FieldName := "message_length".
Definition FLAGS : FieldName := "flags".
Definition CORRECTION : FieldName := "correction".
Definition LOG_MESSAGE_INTERVAL : FieldName := "log_message_interval".
Definition COMMON_HEADER_LEN : Z := 34.

Definition KEY : list KeyField := [mkKeyField DOMAIN None].
Definition ROLLUPS : list RollupSpec :=
  [mkRollupSpec MSG_TYPE RK_Accumulate].
Definition IDENTITY : StreamIdentity := {|
  key := KEY;
  canonicalize := EndpointSort;
  lifecycle := None;
  rollups := ROLLUPS |}.

Definition message_type_defined (msg_type : Z) : bool :=
  ((0 <=? msg_type) && (msg_type <=? 3)) || ((8 <=? msg_type) && (msg_type <=? 13)).

Definition header (ctx : ParseCtx) : reader ParseError ParsedLayer :=
  let? transport_type := ByteReader.u8 in
  let msg_type := Z.land transport_type 0x0F in
  if negb (message_type_defined msg_type)
  then rfail (PE_Malformed "PTP: reserved message type") else
  let? version := ByteReader.u8 in
  let version := Z.land version 0x0F in
  if negb (version =? 2) then rfail (PE_Malformed "PTP: version is not 2") else
  let? message_length := ByteReader.u16_be in
  if message_length <? COMMON_HEADER_LEN
  then rfail (PE_Malformed "PTP: length below common header") else
  let? domain := ByteReader.u8 in
  let? _reserved := ByteReader.u8 in
  let? flags := ByteReader.u16_be in
  let? correction := ByteReader.u64_be in
  let? _reserved2 := ByteReader.u32_be in
  let? clock_identity := ByteReader.take 8 in
  let? source_port_id := ByteReader.u16_be in
  let? sequence_id := ByteReader.u16_be in
  let? _control := ByteReader.u8 in
  let? log_message_interval := ByteReader.u8 in
  let? _body := ByteReader.take (message_length - COMMON_HEADER_LEN) in
  let fields := FieldMap.new in
  let fields := insert_at ctx DKeys [(DOMAIN, VU64 domain)] fields in
  let fields := insert_at ctx DStructural
    [(MSG_TYPE, VU64 msg_type); (VERSION, VU64 version); (SEQUENCE_ID, VU64 sequence_id);
     (CLOCK_IDENTITY, Value_from_slice clock_identity)] fields in
  let fields := insert_at ctx DFull
    [(SOURCE_PORT_ID, VU64 source_port_id); (MESSAGE_LENGTH, VU64 message_length);
     (FLAGS, VU64 flags); (CORRECTION, VU64 correction);
     (LOG_MESSAGE_INTERVAL, VI64 (to_signed 8 log_message_interval))] fields in
  rret {| pl_header_len := message_length; pl_fields := fields; pl_hint := Hint_Terminal |}.

Definition plugin : LayerPlugin := {|
  name := "ptp";
  parse := fun bytes ctx => run_reader (header ctx) bytes;
  claims := [UdpPort 319; UdpPort 320; EtherType 0x88F7];
  expected_predecessors := [];
  has_probe := false;
  probe := fun _ _ => None;
  stream_identity := Some IDENTITY;
  condense := None |}.

#[export] Instance disciplined : Disciplined (Some IDENTITY) (fun _ => header).
Proof. discipline ltac:(unfold header, COMMON_HEADER_LEN). Qed.

#[global] Instance conformant : Conformant plugin.
Proof. exact (dissector_conformant plugin (fun _ => header) (fun _ _ => eq_refl) disciplined). Qed.

End Ptp.

Module Dnp3.

Definition START_BYTES : FieldName := "start_bytes".
Definition LENGTH : FieldName := "length".
Definition CONTROL : FieldName := "control".
Definition DESTINATION : FieldName := "destination".
Definition SOURCE : FieldName := "source".
Definition FUNCTION_CODE : FieldName := "function_code".
Definition SYNC : Z := 0x0564.
Definition MIN_LENGTH : Z := 5.

Definition KEY : list KeyField := [mkKeyField SOURCE (Some DESTINATION)].
Definition ROLLUPS : list RollupSpec :=
  [mkRollupSpec FUNCTION_CODE RK_Accumulate].
Definition IDENTITY : StreamIdentity := {|
  key := KEY;
  canonicalize := EndpointSort;
  lifecycle := None;
  rollups := ROLLUPS |}.

Definition header (ctx : ParseCtx) : reader ParseError ParsedLayer :=
  let? sync := ByteReader.u16_be in
  if negb (sync =? SYNC) then rfail (PE_Malformed "DNP3 start bytes are not 0x0564") else
  let? length := ByteReader.u8 in
  if length <? MIN_LENGTH then rfail (PE_Malformed "DNP3 length field too small") else
  let? control := ByteReader.u8 in
  let? destination := ByteReader.u16_le in
  let? source := ByteReader.u16_le in
  let? _header_crc := ByteReader.take 2 in
  let user_data_len := length - 5 in
  let? (consumed, function_code) :=
    if 3 <=? user_data_len then
      let? _transport_and_app_control := ByteReader.take 2 in
      let? fc := ByteReader.u8 in
      rret (10 + 3, Some fc)
    else rret (10, None) in
  let fields := FieldMap.new in
  let fields := insert_at ctx DKeys
    [(SOURCE, VU64 source); (DESTINATION, VU64 destination)] fields in
  let fields := insert_at ctx DStructural
    [(START_BYTES, VU64 SYNC); (LENGTH, VU64 length); (CONTROL, VU64 control)] fields in
  let fields := insert_at ctx DFull (when_some function_code FUNCTION_CODE VU64) fields in
  rret {| pl_header_len := consumed; pl_fields := fields; pl_hint := Hint_Terminal |}.

Definition sync_and_length : reader ParseError (Z * Z) :=
  let? sync := ByteReader.u16_be in
  let? length := ByteReader.u8 in
  rret (sync, length).

Definition probe (bytes : list Z) : option Z :=
  match run_reader sync_and_length bytes with
  | Ok (sync, length) =>
      if (sync =? SYNC) && (MIN_LENGTH <=? length) then Some (Confidence_new 90) else None
  | Error _ => None
  end.

Definition plugin : LayerPlugin := {|
  name := "dnp3";
  parse := fun bytes ctx => run_reader (header ctx) bytes;
  claims := [TcpPort 20000; UdpPort 20000];
  expected_predecessors := [];
  has_probe := true;
  Types.probe := fun bytes _ => probe bytes;
  stream_identity := Some IDENTITY;
  condense := None |}.

#[export] Instance disciplined : Disciplined (Some IDENTITY) (fun _ => header).
Proof. discipline ltac:(unfold header). Qed.

#[global] Instance conformant : Conformant plugin.
Proof. exact (dissector_conformant plugin (fun _ => header) (fun _ _ => eq_refl) disciplined). Qed.

End Dnp3.
