(* ===== verification/PlugReads.v ===== *)
(** * Headers that parse

    Total correctness of header readers: [reads m bs a t] says that [m],
    started in front of the bytes [bs], succeeds with [a] in front of [t].  It
    is what the probes' honesty and the round trip with the packet builder are
    proved with. *)

From S2P Require Import Prelude Values Bytes Types Contract PlugKit.

Definition at_rest (r : ByteReader) (bs : list Z) : Prop :=
  ByteReader.ok r /\ ByteReader.rest r = bs.

Definition reads {E A} (m : reader E A) (bs : list Z) (a : A) (t : list Z) : Prop :=
  forall r, at_rest r bs -> exists r', m r = (Ok a, r') /\ at_rest r' t.

Lemma reads_ret {E A} (a : A) t : reads (E:=E) (rret a) t a t.
Proof. intros r Hr. by exists r. Qed.

Lemma reads_bind {E F A B} `{From E F} (m : reader E A) (k : A -> reader F B) bs a t b u :
  reads m bs a t -> reads (k a) t b u -> reads (rbind m k) bs b u.
Proof.
  intros Hm Hk r Hr. destruct (Hm r Hr) as (r1 & H1 & Hr1).
  rewrite (rbind_Ok _ _ _ _ _ H1). by apply Hk.
Qed.

Lemma reads_take n s t : n = blen s -> reads (ByteReader.take n) (s ++ t) s t.
Proof.
  intros Hn r [Hok Hr]. destruct (ByteReader.take_rest n r s t Hok Hr Hn) as (H1 & H2 & H3).
  by exists (mkReader (buf r) (pos r + n)).
Qed.

Lemma reads_array N (f : list Z -> Z) s t :
  N = blen s ->
  reads (rbind (ByteReader.array N) (fun a => rret (E:=Truncated) (f a))) (s ++ t) (f s) t.
Proof.
  intros HN r [Hok Hr]. destruct (ByteReader.map_array_rest N f r s t Hok Hr HN) as (H1 & H2 & H3).
  by exists (mkReader (buf r) (pos r + N)).
Qed.

Lemma reads_u8 b t : reads ByteReader.u8 (b :: t) b t.
Proof. by apply (reads_array 1 (hd 0) [b] t). Qed.

Lemma reads_u16 a b t : reads ByteReader.u16_be (a :: b :: t) (be_value [a; b]) t.
Proof. by apply (reads_array 2 be_value [a; b] t). Qed.

Lemma reads_u32 a b c d t : reads ByteReader.u32_be (a :: b :: c :: d :: t) (be_value [a; b; c; d]) t.
Proof. by apply (reads_array 4 be_value [a; b; c; d] t). Qed.

(** The prefix a [take] cuts off a long enough rest. *)
Lemma reads_prefix n bs :
  0 <= n <= blen bs ->
  reads (ByteReader.take n) bs (take (Z.to_nat n) bs) (drop (Z.to_nat n) bs).
Proof.
  intros Hn. rewrite <- (take_drop (Z.to_nat n) bs) at 1. apply reads_take.
  unfold blen in *. rewrite length_take. lia.
Qed.

(** Reading an encoded integer back. *)
Lemma reads_enc16 z t : 0 <= z < 65536 -> reads ByteReader.u16_be (be_bytes 2 z ++ t) z t.
Proof.
  intros Hz. rewrite <- (be_value_be_bytes 2 z) at 2 by (simpl; lia).
  by apply (reads_array 2 be_value (be_bytes 2 z) t).
Qed.

Lemma reads_enc32 z t : 0 <= z < 4294967296 -> reads ByteReader.u32_be (be_bytes 4 z ++ t) z t.
Proof.
  intros Hz. rewrite <- (be_value_be_bytes 4 z) at 2 by (simpl; lia).
  by apply (reads_array 4 be_value (be_bytes 4 z) t).
Qed.

Lemma reads_run {A} (m : reader ParseError A) bytes a t :
  blen bytes <= usize_max -> reads m bytes a t -> run_reader m bytes = Ok a.
Proof.
  intros Hb Hm. destruct (Hm (ByteReader.new bytes)) as (r' & H & _).
  { split; [by apply ByteReader.new_ok|by apply ByteReader.rest_new]. }
  unfold run_reader. by rewrite H.
Qed.

(** ** Encodings of wider integers *)

Lemma drop_be_bytes n z : drop 1 (be_bytes (S n) z) = be_bytes n z.
Proof.
  revert z. induction n as [|n IH]; intros z; [done|].
  cbn [be_bytes]. rewrite drop_app_le by (rewrite length_app, length_be_bytes; simpl; lia).
  f_equal. apply (IH (z / 256)).
Qed.

Lemma be_value_mod n z : be_value (be_bytes n z) = z mod 256 ^ Z.of_nat n.
Proof.
  revert z. induction n as [|n IH]; intros z.
  - change (256 ^ Z.of_nat 0) with 1. by rewrite Z.mod_1_r.
  - cbn [be_bytes]. rewrite be_value_snoc, IH, pow256_S.
    rewrite Z.rem_mul_r by (apply Z.pow_nonzero || lia; lia). lia.
Qed.

(** A shifted value and a byte have no bits in common. *)
Lemma shl8_lor a b : is_byte b -> Z.lor (Z.shiftl a 8) b = a * 256 + b.
Proof.
  intros Hb. assert (Z.land (Z.shiftl a 8) b = 0) as H0.
  { apply Z.bits_inj'. intros n Hn. rewrite Z.land_spec, Z.bits_0, Z.shiftl_spec by done.
    destruct (Z.lt_ge_cases n 8) as [Hl|Hl].
    - by rewrite Z.testbit_neg_r by lia.
    - rewrite andb_comm, <- (Z.mod_small b (2 ^ 8)) by exact Hb.
      by rewrite Z.mod_pow2_bits_high by lia. }
  rewrite <- Z.lxor_lor, <- Z.add_nocarry_lxor by done.
  by rewrite Z.shiftl_mul_pow2 by lia.
Qed.

(** The shift-and-or fold is the big-endian value. *)
Lemma fold_be_value bs : bytes_ok bs -> fold_be bs = be_value bs.
Proof.
  unfold fold_be. intros Hb. induction bs as [|b bs IH] using rev_ind; [done|].
  apply Forall_app in Hb as [Hb H1]. rewrite Forall_singleton in H1.
  rewrite foldl_app, be_value_snoc, IH by done. cbn [foldl]. by rewrite shl8_lor.
Qed.

(** One read of a [reads] goal over explicit bytes. *)
Ltac read_next :=
  lazymatch goal with
  | |- reads (rbind ByteReader.u8 _) _ _ _ => eapply reads_bind; [apply reads_u8|cbv beta]
  | |- reads (rbind ByteReader.u16_be _) _ _ _ =>
      eapply reads_bind; [first [apply reads_enc16; lia | apply reads_u16]|cbv beta]
  | |- reads (rbind ByteReader.u32_be _) _ _ _ =>
      eapply reads_bind; [first [apply reads_enc32; lia | apply reads_u32]|cbv beta]
  | |- reads (let x := _ in _) _ _ _ => cbv zeta
  | |- reads (rret _) _ _ _ => apply reads_ret
  end.

(** The first bytes of a long enough buffer, by name. *)
Ltac name_bytes n bs H :=
  lazymatch n with
  | O => idtac
  | S ?n' =>
      let b := fresh "b" in let bs' := fresh "bs" in
      destruct bs as [|b bs']; [exfalso; unfold blen in H; simpl in H; lia|];
      name_bytes n' bs' H
  end.
