(* ===== verification/Plugins.v ===== *)
(** * The reference dissectors together

    The registration list of [crates/pktflow-plugins/src/lib.rs], in its order,
    and what holds of the plugins on it: the conformance contract the parser
    and the aggregator rely on, but for the exemptions listed.  Also the TCP session lifecycle and the IPv4 probe. *)

From S2P Require Import Prelude Values Bytes Types Contract PlugKit.
From S2P Require Import PlugLink PlugNet PlugTransport PlugTunnel PlugApp.
From S2P Require Import PlugSwitch PlugRadio PlugRouting PlugCarrier.
From S2P Require Import PlugNames PlugAdmin PlugMail PlugWeb PlugSession.
From S2P Require Import PlugEdge PlugPlant.

Definition reference_plugins : list LayerPlugin :=
  [Template.plugin; Ethernet.plugin; Vlan.plugin; Ipv4.plugin; Ipv6.plugin; Arp.plugin;
   Cdp.plugin; Icmpv4.plugin; Icmpv6.plugin; Ndp.plugin; Mld.plugin; Igmp.plugin;
   Vrrp.plugin; Hsrp.plugin; Ospf.plugin; Bfd.plugin; Tcp.plugin; Udp.plugin; Sctp.plugin;
   Quic.plugin; Bgp.plugin; Gre.plugin; Erspan.plugin; Mpls.plugin; Vxlan.plugin;
   GtpU.plugin; GtpC.plugin; Geneve.plugin; Esp.plugin; Ah.plugin; Wireguard.plugin;
   L2tpv3.plugin; Pppoe.plugin; Ppp.plugin; Dns.plugin; Mdns.plugin; Llmnr.plugin;
   NetbiosNs.plugin; Dhcp.plugin; Dhcpv6.plugin; Ntp.plugin; Ptp.plugin; Rocev2.plugin;
   Lldp.plugin; Llc.plugin; Lacp.plugin; Stp.plugin; PvstPlus.plugin; Eapol.plugin;
   Radiotap.plugin; Dot11.plugin; Modbus.plugin; Mqtt.plugin; Dnp3.plugin; Enip.plugin;
   BacnetIp.plugin; Syslog.plugin; Snmp.plugin; Radius.plugin; Kerberos.plugin;
   Ldap.plugin; Ssdp.plugin; Http.plugin; Http2.plugin; Tls.plugin; Ssh.plugin;
   Websocket.plugin; Stun.plugin; Ftp.plugin; Tftp.plugin; Smtp.plugin; Imap.plugin;
   Pop3.plugin; Smb2.plugin; Nfs.plugin; Sip.plugin; Rtp.plugin; Rtcp.plugin; Amqp.plugin;
   Redis.plugin; Netflow9.plugin; Ipfix.plugin].

(** The plugins that break a rule of the kit.  A prefix of a message of the
    first ones can be a message ([Cdp.short_success], [Ndp.ndp_short_success],
    [Mld.mld_short_success], [Dhcpv6.dhcpv6_short_success],
    [Syslog.syslog_short_success], [Redis.redis_short_success]); some messages
    of the others lack the field their stream is keyed by ([Dot11.not_keyed],
    [Quic.quic_not_keyed]; an L2TPv3 control message has no session). *)
Definition short_successes : list ProtocolName :=
  ["cdp"; "ndp"; "mld"; "dhcpv6"; "syslog"; "redis"]%string.
Definition unkeyed_messages : list ProtocolName := ["quic"; "l2tpv3"; "dot11"]%string.

(** ** Sequences that were seen

    [saw Ps l]: elements of [l], in order, satisfy the predicates [Ps]. *)

Definition saw {A} (Ps : list (A -> Prop)) (l : list A) : Prop :=
  exists sub, sublist sub l /\ Forall2 (fun P x => P x) Ps sub.

Lemma saw_snoc {A} (Ps : list (A -> Prop)) l x : saw Ps l -> saw Ps (l ++ [x]).
Proof. intros (sub & Hs & HP). exists sub. split; [by apply sublist_inserts_r|done]. Qed.

Lemma saw_now {A} (Ps : list (A -> Prop)) (P : A -> Prop) l x :
  saw Ps l -> P x -> saw (Ps ++ [P]) (l ++ [x]).
Proof.
  intros (sub & Hs & HP) Hx. exists (sub ++ [x]). split; [by apply sublist_app|].
  apply Forall2_app; [done|]. by repeat constructor.
Qed.

Lemma saw_nil {A} (l : list A) : saw [] l.
Proof. exists []. split; [apply sublist_nil_l|constructor]. Qed.

(** ** The TCP session lifecycle *)

(** A packet of the stream, as the lifecycle sees it. *)
Abbreviation observed := (FieldMap.t * PacketDirection)%type (only parsing).

Definition session (pkts : list observed) : StateName :=
  foldl (fun s p => Tcp.advance p.1 s p.2) (initial Tcp.LIFECYCLE) pkts.

(** The packet's flag bits, where it has them. *)
Definition flags_seen (p : observed) : option Z :=
  match FieldMap.get Tcp.FLAGS p.1 with Some (VU64 f) => Some f | _ => None end.

Definition is_flags (Q : Z -> Prop) (p : observed) : Prop :=
  exists f, flags_seen p = Some f /\ Q f.

Definition has_rst : observed -> Prop := is_flags (fun f => flag f Tcp.RST = true).
Definition is_syn : observed -> Prop :=
  is_flags (fun f => flag f Tcp.SYN = true /\ flag f Tcp.ACK_F = false).
Definition is_syn_ack : observed -> Prop :=
  is_flags (fun f => flag f Tcp.SYN = true /\ flag f Tcp.ACK_F = true).
Definition is_ack : observed -> Prop :=
  is_flags (fun f => flag f Tcp.ACK_F = true /\ flag f Tcp.SYN = false /\ flag f Tcp.FIN = false).
Definition is_fin : observed -> Prop := is_flags (fun f => flag f Tcp.FIN = true).
Definition is_fin_ack : observed -> Prop :=
  is_flags (fun f => flag f Tcp.FIN = true /\ flag f Tcp.ACK_F = true).

(** What a session in each state has gone through. *)
Definition session_seen (s : StateName) (pkts : list observed) : Prop :=
  (s = "new"%string /\ Forall (fun p => ~ has_rst p) pkts) \/
  (s = "syn_sent"%string /\ saw [is_syn] pkts) \/
  (s = "syn_received"%string /\ saw [is_syn; is_syn_ack] pkts) \/
  (s = "established"%string /\ saw [is_syn; is_syn_ack; is_ack] pkts) \/
  s = "established_midstream"%string \/
  (s = "closing"%string /\ saw [is_fin] pkts) \/
  (s = "closed"%string /\ saw [is_fin; is_fin_ack] pkts) \/
  (s = "reset"%string /\ Exists has_rst pkts).

Lemma session_snoc pkts p : session (pkts ++ [p]) = Tcp.advance p.1 (session pkts) p.2.
Proof. unfold session. by rewrite foldl_app. Qed.

Lemma advance_flags p s :
  Tcp.advance p.1 s p.2 =
  match flags_seen p with
  | Some f => if flag f Tcp.RST then "reset"%string
              else Tcp.next_state (flag f Tcp.SYN) (flag f Tcp.ACK_F) (flag f Tcp.FIN) s
  | None => s
  end.
Proof. unfold Tcp.advance, flags_seen. by destruct (FieldMap.get _ _) as [[]|]. Qed.

(** A packet that changes nothing keeps the account. *)
Lemma session_seen_keep s pkts p :
  ~ has_rst p -> session_seen s pkts -> session_seen s (pkts ++ [p]).
Proof.
  intros Hp. unfold session_seen. rewrite Forall_app, Forall_singleton, Exists_app.
  intros [[]|[[]|[[]|[[]|[|[[]|[[]|[]]]]]]]];
    eauto 12 using saw_snoc, saw_nil.
Qed.

(** Every arm of the state machine, for a packet without RST. *)
Lemma session_seen_next s pkts p f :
  flags_seen p = Some f -> flag f Tcp.RST = false -> session_seen s pkts ->
  session_seen (Tcp.next_state (flag f Tcp.SYN) (flag f Tcp.ACK_F) (flag f Tcp.FIN) s) (pkts ++ [p]).
Proof.
  intros Hf Hr Hs.
  assert (~ has_rst p) as Hp by (intros (f' & ? & ?); simplify_eq; congruence).
  pose proof (session_seen_keep _ _ _ Hp Hs) as Hkeep. revert Hkeep.
  assert (forall Q, Q f -> is_flags Q p) as HQ by (intros Q HQ; by exists f).
  pose proof (saw_nil pkts) as H0.
  unfold session_seen in Hs.
  destruct (flag f Tcp.SYN) eqn:?, (flag f Tcp.ACK_F) eqn:?, (flag f Tcp.FIN) eqn:?;
  destruct Hs as [[-> H]|[[-> H]|[[-> H]|[[-> H]|[->|[[-> H]|[[-> H]|[-> H]]]]]]]];
    cbn -[session_seen]; try done; intros _; unfold session_seen;
    first [ by right; right; right; right; left
          | right; left; split; [done|apply (saw_now [] _ _ _ H0), HQ; done]
          | right; right; left; split; [done|apply (saw_now [_] _ _ _ H), HQ; done]
          | right; right; right; left; split; [done|apply (saw_now [_; _] _ _ _ H), HQ; done]
          | right; right; right; right; right; left;
            split; [done|apply (saw_now [] _ _ _ H0), HQ; done]
          | right; right; right; right; right; right; left;
            split; [done|apply (saw_now [_] _ _ _ H), HQ; done] ].
Qed.

(** Only a RST resets, and nothing leaves [reset]. *)
Lemma next_state_reset syn ack fin s :
  Tcp.next_state syn ack fin s = "reset"%string <-> s = "reset"%string.
Proof.
  unfold Tcp.next_state. split; [|intros ->; by destruct syn, ack, fin].
  by repeat case_match.
Qed.

(** The TCP lifecycle is total and its states mean what their names say:
    whatever packets a stream saw, in any order and with or without flags, its
    state is one of the eight; it is [reset] exactly when some packet carried
    RST; [established] is reached only through SYN, SYN+ACK and ACK in that
    order, [closing] only after a FIN and [closed] only after a FIN followed
    by another FIN+ACK. *)
Theorem tcp_session_history (pkts : list observed) :
  session_seen (session pkts) pkts /\
  (session pkts = "reset"%string <-> Exists has_rst pkts).
Proof.
  induction pkts as [|p pkts [IH1 IH2]] using rev_ind.
  { split; [by left|]. rewrite Exists_nil. done. }
  rewrite session_snoc, advance_flags, Exists_app, Exists_cons, Exists_nil.
  destruct (flags_seen p) as [f|] eqn:Hf.
  - destruct (flag f Tcp.RST) eqn:Hr.
    + assert (has_rst p) as Hp by (by exists f).
      split; [|tauto]. unfold session_seen. rewrite Exists_app, Exists_cons. tauto.
    + assert (~ has_rst p) as Hp by (intros (f' & ? & ?); simplify_eq; congruence).
      split; [by apply session_seen_next|]. rewrite next_state_reset. tauto.
  - assert (~ has_rst p) as Hp by (intros (f' & ? & ?); congruence).
    split; [by apply session_seen_keep|]. tauto.
Qed.

(** ** Conformance of the modelled set *)

Ltac each_plugin H :=
  unfold reference_plugins in H; rewrite !elem_of_cons, elem_of_nil in H;
  repeat (destruct H as [->|H]; [|]); [..|done].

Lemma reference_plugins_framed p : p ∈ reference_plugins -> Framed p.
Proof. intros H. each_plugin H; apply _. Qed.

Lemma reference_plugins_keyed p :
  p ∈ reference_plugins -> name p ∉ unkeyed_messages -> Keyed p.
Proof. intros H. each_plugin H; intros Hn; first [by destruct Hn; set_solver|apply _]. Qed.

Lemma reference_plugins_declining p :
  p ∈ reference_plugins -> name p ∉ short_successes -> Declining p.
Proof. intros H. each_plugin H; intros Hn; first [by destruct Hn; set_solver|apply _]. Qed.

Lemma reference_plugins_sorted p id :
  p ∈ reference_plugins -> stream_identity p = Some id -> canonicalize id = EndpointSort.
Proof. intros H. each_plugin H; intros; by simplify_eq/=. Qed.

(** C11: The conformance kit's rules of the reference plugins on every input, not only
    on the kit's samples: a header that parses lies inside the bytes; every strict
    prefix of it is declined, except for cdp, ndp, mld, dhcpv6, syslog and redis,
    which are exempt from this rule; the depth changes neither length nor hint and
    only ever adds fields; field names are unique; and at [Keys] or deeper every
    field the identity's key names is present, except for quic, l2tpv3 and dot11,
    which are exempt from this one. *)
Theorem plugins_conform p bytes c l :
  p ∈ reference_plugins -> parse p bytes c = Ok l ->
  0 <= pl_header_len l <= blen bytes /\
  (name p ∉ short_successes ->
   forall n, 0 <= n < pl_header_len l -> exists e, parse p (take (Z.to_nat n) bytes) c = Error e) /\
  (forall d, exists l', parse p bytes (with_depth c d) = Ok l' /\
     pl_header_len l' = pl_header_len l /\ pl_hint l' = pl_hint l /\
     (depth_geb d (ctx_depth c) = true -> FieldMap.names (pl_fields l) ⊆ FieldMap.names (pl_fields l'))) /\
  NoDup (FieldMap.names (pl_fields l)) /\
  (depth_geb (ctx_depth c) DKeys = true -> name p ∉ unkeyed_messages ->
   forall id, stream_identity p = Some id ->
   Forall (fun n => is_Some (FieldMap.get n (pl_fields l))) (key_names (key id))).
Proof.
  intros Hp Hl. pose proof (reference_plugins_framed p Hp) as Hf. split_and!.
  - by apply (conf_header_len _ _ _ Hl).
  - by apply (conf_header_len _ _ _ Hl).
  - intros Hn n. pose proof (reference_plugins_declining p Hp Hn) as Hd. by apply Hd.
  - intros d. rewrite <- (with_depth_self c) in Hl.
    destruct (conf_depth _ _ _ d _ Hl) as (l' & ? & ? & ? & Hn). exists l'. split_and!; try done.
  - by apply (conf_fields_ok _ _ _ Hl).
  - intros Hd Hn id Hid. pose proof (reference_plugins_keyed p Hp Hn) as Hk.
    pose proof (Hk _ _ _ _ Hl Hd Hid) as Hr. unfold key_ready in Hr.
    by rewrite (reference_plugins_sorted p id Hp Hid) in Hr.
Qed.

Lemma plugins_conform_witness :
  let frame := [0; 27; 68; 17; 58; 183; 0; 26; 43; 60; 77; 94; 8; 0; 69] in
  exists e, parse Ethernet.plugin (take 13 frame) (mkCtx [] DFull (mkMeta 0 15 15 1)) = Error e.
Proof.
  refine (proj1 (proj2 (plugins_conform Ethernet.plugin
    [0; 27; 68; 17; 58; 183; 0; 26; 43; 60; 77; 94; 8; 0; 69] (mkCtx [] DFull (mkMeta 0 15 15 1))
    (mkParsed 14
       [("src_mac"%string, VBytes [0; 26; 43; 60; 77; 94]); ("dst_mac"%string, VBytes [0; 27; 68; 17; 58; 183]);
        ("ethertype"%string, VU64 2048)] (Hint_Route (EtherType 2048))) _ _)) _ 13 _).
  - unfold reference_plugins. right. left.
  - by vm_compute.
  - by apply (bool_decide_unpack (name Ethernet.plugin ∉ short_successes)); vm_compute.
  - by vm_compute.
Defined.
