(* ===== verification/Testkit.v ===== *)
(** * The synthetic packet builder

    Models [crates/pktflow-testkit/src/lib.rs]: layers, the checksum over chunks,
    [assemble] and [build]; the text of addresses, the DNS and DHCP messages; the
    capture builder with its pcap files and the two generated corpora.  A text that
    is no address or a length that does not fit its field is [None], the builder's
    panic. *)

From S2P Require Import Prelude Values Bytes Types Text PlugKit PlugNet.

Inductive Layer :=
  | L_Eth (src dst : list Z)
  | L_Vlan (vid tpid : Z)
  | L_Ipv4 (src dst : list Z)
  | L_Vxlan (vni : Z)
  | L_Tcp (sport dport flags seq ack : Z)
  | L_Udp (sport dport : Z)
  | L_Gre
  | L_Payload (b : list Z)
  | L_RawNext (protocol : Z) (bytes : list Z).

Record PacketBuilder := mkPacketBuilder { ts : SystemTime; kit_layers : list Layer }.

Definition PacketBuilder_new (ts : SystemTime) : PacketBuilder := mkPacketBuilder ts [].

Definition push_layer (l : Layer) (b : PacketBuilder) : PacketBuilder :=
  mkPacketBuilder (ts b) (kit_layers b ++ [l]).

Definition kit_vlan (vid : Z) : PacketBuilder -> PacketBuilder := push_layer (L_Vlan vid 0x8100).
Definition kit_vlan_stag (vid : Z) : PacketBuilder -> PacketBuilder := push_layer (L_Vlan vid 0x88A8).
Definition kit_tcp (sport dport flags seq : Z) : PacketBuilder -> PacketBuilder :=
  push_layer (L_Tcp sport dport flags seq 0).
Definition kit_tcp_ack (sport dport flags seq ack : Z) : PacketBuilder -> PacketBuilder :=
  push_layer (L_Tcp sport dport flags seq ack).
Definition kit_udp (sport dport : Z) : PacketBuilder -> PacketBuilder := push_layer (L_Udp sport dport).
Definition kit_gre : PacketBuilder -> PacketBuilder := push_layer L_Gre.
Definition kit_vxlan (vni : Z) : PacketBuilder -> PacketBuilder := push_layer (L_Vxlan vni).
Definition kit_bytes (b : list Z) : PacketBuilder -> PacketBuilder := push_layer (L_Payload b).
Definition kit_payload (n : nat) : PacketBuilder -> PacketBuilder := kit_bytes (replicate n 0xCC).
Definition kit_bytes_claiming (protocol : Z) (b : list Z) : PacketBuilder -> PacketBuilder :=
  push_layer (L_RawNext protocol b).

(** EtherType announcing a layer. *)
Definition ether_type_of (l : Layer) : Z :=
  match l with
  | L_Vlan _ tpid => tpid
  | L_Ipv4 _ _ => 0x0800
  | _ => 0x9999
  end.

(** IPv4 protocol number announcing a layer. *)
Definition ip_proto_of (l : option Layer) : Z :=
  match l with
  | Some (L_Tcp _ _ _ _ _) => 6
  | Some (L_Udp _ _) => 17
  | Some L_Gre => 47
  | Some (L_Ipv4 _ _) => 4
  | Some (L_RawNext protocol _) => protocol
  | _ => 253
  end.

(** One byte of the checksum loop: the running [u32] sum and the byte waiting
    for its partner, across chunk boundaries. *)
Definition sum_byte (st : Z * option Z) (b : Z) : Z * option Z :=
  match st with
  | (sum, None) => (sum, Some b)
  | (sum, Some hi) => (Z.land (sum + be_value [hi; b]) u32_max, None)
  end.

Definition chunks_checksum (chunks : list (list Z)) : Z :=
  let '(sum, carry_byte) := foldl (fun st chunk => foldl sum_byte st chunk) (0, None) chunks in
  let sum := match carry_byte with
             | Some hi => Z.land (sum + be_value [hi; 0]) u32_max
             | None => sum
             end in
  Z.land (Z.lnot (Ipv4.fold_carries sum)) 0xFFFF.

(** [v[i..i + n].copy_from_slice(bytes)]. *)
Definition copy_at (i : nat) (bytes v : list Z) : list Z :=
  take i v ++ bytes ++ drop (i + length bytes) v.

(** [u16::try_from(n).expect(..)]. *)
Definition u16_of (n : Z) : option Z := if n <=? u16_max then Some n else None.

Definition as_ipv4 (l : Layer) : option (list Z * list Z) :=
  match l with L_Ipv4 src dst => Some (src, dst) | _ => None end.

(** The pseudo-header checksum over the nearest enclosing IPv4. *)
Definition transport_checksum (layers : list Layer) (index : nat) (proto : Z)
    (header body : list Z) : option Z :=
  match head (omap as_ipv4 (rev (take index layers))) with
  | None => Some 0
  | Some (src, dst) =>
      seg_len ← u16_of (blen header + blen body);
      let pseudo := src ++ dst ++ [0; proto] ++ be_bytes 2 seg_len in
      Some (chunks_checksum [pseudo; header; body])
  end.

(** One round of [assemble]: layer [i] around its body. *)
Definition layer_bytes (layers : list Layer) (i : nat) (layer : Layer) (body : list Z)
    : option (list Z) :=
  let next := layers !! (i + 1)%nat in
  let next_type := from_option ether_type_of 0x9999 next in
  match layer with
  | L_Payload b => Some (b ++ body)
  | L_RawNext _ bytes => Some (bytes ++ body)
  | L_Eth src dst => Some (dst ++ src ++ be_bytes 2 next_type ++ body)
  | L_Vlan vid _ => Some (be_bytes 2 (Z.land vid 0x0FFF) ++ be_bytes 2 next_type ++ body)
  | L_Gre => Some (be_bytes 2 0 ++ be_bytes 2 next_type ++ body)
  | L_Vxlan vni => Some ([0x08] ++ [0; 0; 0] ++ drop 1 (be_bytes 4 vni) ++ [0] ++ body)
  | L_Ipv4 src dst =>
      total ← u16_of (20 + blen body);
      let hdr := [0x45; 0] ++ be_bytes 2 total ++
                 [0x00; 0x00; 0x40; 0x00; 64; ip_proto_of next] ++ [0; 0] ++ src ++ dst in
      let ck := chunks_checksum [hdr] in
      Some (copy_at 10 (be_bytes 2 ck) hdr ++ body)
  | L_Udp sport dport =>
      len ← u16_of (8 + blen body);
      let hdr := be_bytes 2 sport ++ be_bytes 2 dport ++ be_bytes 2 len ++ [0; 0] in
      ck ← transport_checksum layers i 17 hdr body;
      let ck := if ck =? 0 then 0xFFFF else ck in
      Some (copy_at 6 (be_bytes 2 ck) hdr ++ body)
  | L_Tcp sport dport flags seq ack =>
      let hdr := be_bytes 2 sport ++ be_bytes 2 dport ++ be_bytes 4 seq ++ be_bytes 4 ack ++
                 [Z.shiftl 5 4; flags] ++ be_bytes 2 8192 ++ [0; 0; 0; 0] in
      ck ← transport_checksum layers i 6 hdr body;
      Some (copy_at 16 (be_bytes 2 ck) hdr ++ body)
  end.

(** The loop from the innermost layer outwards. *)
Definition assemble (layers : list Layer) : option (list Z) :=
  foldr (fun il body => b ← body; layer_bytes layers il.1 il.2 b) (Some []) (imap pair layers).

Definition build_packet (b : PacketBuilder) : option (PacketMeta * list Z) :=
  bytes ← assemble (kit_layers b);
  Some (mkMeta (ts b) (blen bytes) (blen bytes) 1, bytes).

(** ** Addresses and messages *)

(** [u8::from_str_radix] and [str::parse]: an optional plus sign, then digits. *)
Definition digit_of (base c : Z) : option Z :=
  let d := if in_range 48 57 c then c - 48
           else if in_range 97 122 c then c - 87
           else if in_range 65 90 c then c - 55 else 36 in
  if d <? base then Some d else None.

Definition u8_from_radix (base : Z) (part : list Z) : option Z :=
  match match part with 43 :: rest => rest | _ => part end with
  | [] => None
  | digits =>
      ds ← mapM (digit_of base) digits;
      let n := foldl (fun n d => n * base + d) 0 ds in
      if n <=? u8_max then Some n else None
  end.

(** [mac] and [ipv4]: anything else than the octets is a panic. *)
Definition octets (sep base : Z) (count : nat) (s : string) : option (list Z) :=
  let parts := split_on sep (str_bytes s) in
  if (length parts =? count)%nat then mapM (u8_from_radix base) parts else None.

Definition mac : string -> option (list Z) := octets 58 16 6.
Definition ipv4 : string -> option (list Z) := octets 46 10 4.

Definition at_secs (secs : Z) : PacketBuilder := PacketBuilder_new (secs * 1000000000).

Definition kit_eth (src dst : string) (b : PacketBuilder) : option PacketBuilder :=
  src ← mac src; dst ← mac dst; Some (push_layer (L_Eth src dst) b).
Definition kit_ipv4 (src dst : string) (b : PacketBuilder) : option PacketBuilder :=
  src ← ipv4 src; dst ← ipv4 dst; Some (push_layer (L_Ipv4 src dst) b).

(** [u8::try_from(n).expect(..)]. *)
Definition u8_of (n : Z) : option Z := if n <=? u8_max then Some n else None.

Definition push_label (label : list Z) : option (list Z) := n ← u8_of (blen label); Some (n :: label).

(** What [push_qname] appends. *)
Definition qname_bytes (qname : string) : option (list Z) :=
  labels ← mapM push_label (split_on 46 (str_bytes qname)); Some (concat labels ++ [0]).

Definition dns_query (txid : Z) (qname : string) (b : PacketBuilder) : option PacketBuilder :=
  name ← qname_bytes qname;
  Some (kit_bytes (be_bytes 2 txid ++ be_bytes 2 0x0100 ++ [0; 1; 0; 0; 0; 0; 0; 0] ++ name ++ [0; 1; 0; 1]) b).

Definition dns_response (txid : Z) (qname addr : string) (b : PacketBuilder) : option PacketBuilder :=
  name ← qname_bytes qname;
  a ← ipv4 addr;
  Some (kit_bytes
    (be_bytes 2 txid ++ be_bytes 2 0x8180 ++ [0; 1; 0; 1; 0; 0; 0; 0] ++ name ++ [0; 1; 0; 1] ++ [0xC0; 0x0C] ++
     [0; 1; 0; 1] ++ be_bytes 4 60 ++ be_bytes 2 4 ++ a) b).

Definition dhcp_option (o : Z * list Z) : option (list Z) := n ← u8_of (blen o.2); Some (o.1 :: n :: o.2).

Definition dhcp (op msg_type xid : Z) (client_mac : string) (options : list (Z * list Z)) (b : PacketBuilder)
    : option PacketBuilder :=
  client ← mac client_mac;
  opts ← mapM dhcp_option options;
  Some (kit_bytes
    ([op; 1; 6; 0] ++ be_bytes 4 xid ++ replicate 8 0 ++ replicate 8 0 ++ replicate 4 0 ++ client ++ replicate 10 0 ++
     replicate 64 0 ++ replicate 128 0 ++ be_bytes 4 0x63825363 ++ [53; 1; msg_type] ++ concat opts ++ [255]) b).

(** ** Captures *)

(** [CaptureBuilder]: time stamps and wire bytes, in insertion order. *)
Abbreviation Capture := (list (SystemTime * list Z)) (only parsing).

Definition build_frame (b : PacketBuilder) : option (SystemTime * list Z) :=
  '(m, bytes) ← build_packet b; Some (timestamp m, bytes).

Definition capture_packet (b : PacketBuilder) (c : Capture) : option (list (SystemTime * list Z)) :=
  f ← build_frame b; Some (c ++ [f]).
Definition raw_packet (t : SystemTime) (bytes : list Z) (c : Capture) : list (SystemTime * list Z) := c ++ [(t, bytes)].

Definition u32_of (n : Z) : option Z := if n <=? u32_max then Some n else None.

(** The fields of the global header, and those of a record with its frame. *)
Definition pcap_header : list (list Z) :=
  [le_bytes 4 0xA1B2C3D4; le_bytes 2 2; le_bytes 2 4; le_bytes 4 0; le_bytes 4 0; le_bytes 4 65535; le_bytes 4 1].

Definition pcap_record (p : SystemTime * list Z) : option (list (list Z)) :=
  let '(t, frame) := p in
  if t <? 0 then None
  else
    len ← u32_of (blen frame);
    secs ← u32_of (t / 1000000000);
    Some [le_bytes 4 secs; le_bytes 4 (t mod 1000000000 / 1000); le_bytes 4 len; le_bytes 4 len; frame].

(** The bytes [CaptureBuilder::write_pcap] writes to its file. *)
Definition write_pcap (c : Capture) : option (list Z) :=
  records ← mapM pcap_record c; Some (concat (pcap_header ++ concat records)).

(** [File::create], an empty piece, and [write_all] of each piece; whether the next one succeeds is the head of [io]. *)
Fixpoint write_pieces (pieces : list (list Z)) (io : list bool) (out : list Z) : option (list Z * list bool) :=
  match pieces, io with
  | [], _ => Some (out, io)
  | p :: rest, [] => write_pieces rest [] (out ++ p)
  | p :: rest, true :: io' => write_pieces rest io' (out ++ p)
  | _ :: _, false :: _ => None
  end.

(** The loop of [write_pcap_streamed]: a panic ([None]), an I/O error ([Some None])
    or what was written. *)
Fixpoint stream_records (packets : Capture) (io : list bool) (out : list Z) : option (option (list Z)) :=
  match packets with
  | [] => Some (match io with false :: _ => None | _ => Some out end)
  | p :: rest =>
      pieces ← pcap_record p;
      match write_pieces pieces io out with
      | Some (out, io) => stream_records rest io out
      | None => Some None
      end
  end.

Definition write_pcap_streamed (packets : Capture) (io : list bool) : option (option (list Z)) :=
  match write_pieces ([] :: pcap_header) io [] with
  | Some (out, io) => stream_records packets io out
  | None => Some None
  end.

(** ** Corpora *)

(** The three low octets of an index, most significant first. *)
Definition low_octets (index : Z) : list Z := [index / 65536 mod 256; index / 256 mod 256; index mod 256].

Definition pool_ipv4 (prefix index : Z) : string := String.concat "." (show_Z <$> prefix :: low_octets index).
Definition pool_mac (tag index : Z) : string :=
  String.concat ":" ("aa" :: "bb" :: (hex_padded 2 <$> tag :: low_octets index))%string.

Definition kit_FIN : Z := 0x01.
Definition kit_SYN : Z := 0x02.
Definition kit_RST : Z := 0x04.
Definition kit_PSH : Z := 0x08.
Definition kit_ACK : Z := 0x10.

(** The four kinds of packets of [mixed_capture]. *)
Definition mixed_tcp (i : Z) (b : PacketBuilder) : option PacketBuilder :=
  let flow := i mod 2 ^ 32 / 14 mod 2000 in
  let client := pool_ipv4 10 flow in
  let server := pool_ipv4 172 flow in
  let cport := 40000 + flow mod 20000 in
  let phase := i mod 14 in
  let '(a, z, flags, seq) :=
    if phase =? 0 then (client, server, kit_SYN, 1)
    else if phase =? 1 then (server, client, Z.lor kit_SYN kit_ACK, 1)
    else if phase =? 13 then (client, server, Z.lor kit_FIN kit_ACK, 100)
    else if phase mod 2 =? 0 then (client, server, Z.lor kit_PSH kit_ACK, phase)
    else (server, client, Z.lor kit_PSH kit_ACK, phase) in
  let '(sport, dport) := if String.eqb a client then (cport, 443) else (443, cport) in
  b ← kit_eth (pool_mac 1 flow) (pool_mac 2 flow) b;
  b ← kit_ipv4 a z b;
  Some (kit_payload 64 (kit_tcp sport dport flags seq b)).

Definition mixed_dns (i : Z) (b : PacketBuilder) : option PacketBuilder :=
  let flow := i mod 2 ^ 32 / 4 mod 500 in
  let client := pool_ipv4 10 flow in
  let resolver := pool_ipv4 192 (flow mod 4) in
  let qname := ("host-" +:+ show_Z flow +:+ ".example.net")%string in
  let txid := (flow + i mod 2 ^ 16) mod 2 ^ 16 in
  if i mod 2 =? 0 then
    b ← kit_eth (pool_mac 3 flow) (pool_mac 4 flow) b;
    b ← kit_ipv4 client resolver b;
    dns_query txid qname (kit_udp 34567 53 b)
  else
    b ← kit_eth (pool_mac 4 flow) (pool_mac 3 flow) b;
    b ← kit_ipv4 resolver client b;
    dns_response txid qname "93.184.216.34" (kit_udp 53 34567 b).

Definition mixed_gre (i : Z) (b : PacketBuilder) : option PacketBuilder :=
  let flow := i mod 2 ^ 32 mod 100 in
  b ← kit_eth (pool_mac 5 flow) (pool_mac 6 flow) b;
  b ← kit_ipv4 (pool_ipv4 198 flow) (pool_ipv4 203 flow) b;
  b ← kit_ipv4 (pool_ipv4 10 ((flow + 1000000) mod 2 ^ 32)) (pool_ipv4 10 ((flow + 2000000) mod 2 ^ 32)) (kit_gre b);
  Some (kit_payload 32 (kit_tcp 50000 443 (Z.lor kit_PSH kit_ACK) (i mod 2 ^ 32) b)).

Definition mixed_noise (i : Z) (b : PacketBuilder) : option PacketBuilder :=
  let flow := i mod 2 ^ 32 mod 200 in
  b ← kit_eth (pool_mac 7 flow) (pool_mac 8 flow) b;
  b ← kit_ipv4 (pool_ipv4 10 ((flow + 3000000) mod 2 ^ 32)) (pool_ipv4 10 ((flow + 4000000) mod 2 ^ 32)) b;
  Some (kit_payload 96 (kit_udp 51820 51820 b)).

Definition mixed_packet (i : Z) : option (SystemTime * list Z) :=
  let bucket := i mod 20 in
  b ← (if bucket <? 14 then mixed_tcp i else if bucket <? 18 then mixed_dns i
       else if bucket <? 19 then mixed_gre i else mixed_noise i) (at_secs i);
  build_frame b.

Definition mixed_capture (n : Z) : option (list (SystemTime * list Z)) := mapM mixed_packet (seqZ 0 n).

Record FanOutSpec := mkFanOut {
  anchors : Z; flows_per_anchor : Z; packets_per_flow : Z; fo_payload_len : nat; fo_seed : Z }.

Definition total_flows (spec : FanOutSpec) : Z := anchors spec * flows_per_anchor spec.
Definition fo_total_packets (spec : FanOutSpec) : Z := total_flows spec * packets_per_flow spec.

Definition fan_out_flow_hash (seed flow : Z) : Z :=
  let h := Z.lxor seed (flow * 0x9E3779B97F4A7C15 mod 2 ^ 64) in
  let h := Z.lxor h (Z.shiftr h 30) * 0xBF58476D1CE4E5B9 mod 2 ^ 64 in
  let h := Z.lxor h (Z.shiftr h 27) * 0x94D049BB133111EB mod 2 ^ 64 in
  Z.lxor h (Z.shiftr h 31).

(** A flow's anchor, client slot and client port; the slot is computed in [u32]. *)
Definition fan_out_slot (spec : FanOutSpec) (flow : Z) : option Z :=
  u32_of (flow / flows_per_anchor spec mod 2 ^ 32 * 4096 + flow mod flows_per_anchor spec / 60000 mod 2 ^ 32).

Definition fan_out_port (spec : FanOutSpec) (flow : Z) : Z :=
  let port := 1024 + flow mod flows_per_anchor spec mod 60000 in if port =? 4789 then 61024 else port.

Definition fan_out_packet (spec : FanOutSpec) (idx : Z) : option (SystemTime * list Z) :=
  let flows := total_flows spec in
  let round := idx / flows in
  let flow := idx mod flows in
  let anchor := flow / flows_per_anchor spec mod 2 ^ 32 in
  client_slot ← fan_out_slot spec flow;
  let server := pool_ipv4 172 anchor in
  let client := pool_ipv4 10 client_slot in
  let server_mac := pool_mac 2 anchor in
  let client_mac := pool_mac 1 client_slot in
  let cport := fan_out_port spec flow in
  let tcp := negb (fan_out_flow_hash (fo_seed spec) flow mod 4 =? 0) in
  let last := round + 1 =? packets_per_flow spec in
  let client_sends := (round =? 0) || (round mod 2 =? 0) || last in
  let '(src, dst, smac, dmac, sport, dport) :=
    if client_sends then (client, server, client_mac, server_mac, cport, 443)
    else (server, client, server_mac, client_mac, 443, cport) in
  seq ← (if tcp then u32_of (round mod 2 ^ 32 + 1) else Some 0);
  b ← kit_eth smac dmac (PacketBuilder_new (idx * 1000000));
  pkt ← kit_ipv4 src dst b;
  build_frame
    (kit_payload (fo_payload_len spec)
       (if tcp then
          let flags := if round =? 0 then kit_SYN else if last then Z.lor kit_FIN kit_ACK else Z.lor kit_PSH kit_ACK in
          kit_tcp sport dport flags seq pkt
        else kit_udp sport dport pkt)).

Definition fan_out_packets (spec : FanOutSpec) : option (list (SystemTime * list Z)) :=
  mapM (fan_out_packet spec) (seqZ 0 (fo_total_packets spec)).

Definition fan_out_capture (spec : FanOutSpec) : option (list (SystemTime * list Z)) :=
  packets ← fan_out_packets spec; Some (foldl (fun c p => raw_packet p.1 p.2 c) [] packets).
