(* ===== verification/Checksum.v ===== *)
(** * The internet checksum

    RFC 1071 arithmetic behind [internet_checksum] of [ipv4.rs] and of the test
    kit: the [u32] accumulators of the sources against the ones' complement sum
    of the 16-bit words ([ones_sum]), and the two implementations against each other. *)

From S2P Require Import Prelude Values Bytes Types Contract PlugKit.
From S2P Require Import PlugNet Testkit.

(** The sum of the big-endian words, an odd last byte padded with zero. *)
Fixpoint word_sum (h : list Z) : Z :=
  match h with
  | a :: b :: rest => be_value [a; b] + word_sum rest
  | [last] => be_value [last; 0]
  | [] => 0
  end.

(** Ones' complement reduction: a nonzero multiple of 65535 is 65535. *)
Definition ones_fold (s : Z) : Z := if s =? 0 then 0 else (s - 1) mod 65535 + 1.

(** RFC 1071: ones' complement addition carries around the end, and the checksum
    is the complement of the sum of the words. *)
Definition ones_add (x y : Z) : Z := if x + y <=? 65535 then x + y else x + y - 65535.

Fixpoint ones_sum (h : list Z) : Z :=
  match h with
  | a :: b :: rest => ones_add (be_value [a; b]) (ones_sum rest)
  | [last] => be_value [last; 0]
  | [] => 0
  end.

(** Words come in pairs of bytes. *)
Lemma pairs_ind {A} (P : list A -> Prop) :
  P [] -> (forall a, P [a]) -> (forall a b l, P l -> P (a :: b :: l)) -> forall l, P l.
Proof.
  intros H0 H1 H2. fix IH 1. intros [|a [|b l]]; [apply H0|apply H1|apply H2, IH].
Qed.

Lemma be_value_pair a b : be_value [a; b] = a * 256 + b.
Proof. unfold be_value. simpl. lia. Qed.

Lemma word_sum_bounds h : bytes_ok h -> 0 <= word_sum h <= 32768 * blen h + 32767.
Proof.
  induction h as [|a|a b h IH] using pairs_ind; cbn [word_sum]; rewrite ?Forall_cons; unfold is_byte.
  - unfold blen. simpl. lia.
  - rewrite be_value_pair. unfold blen. simpl. lia.
  - rewrite be_value_pair, !blen_cons. intros (Ha & Hb & Hh). specialize (IH Hh). lia.
Qed.

(** The accumulator does not wrap below 131 070 bytes. *)
Lemma sum_chunks_exact h s :
  bytes_ok h -> 0 <= s -> s + word_sum h <= u32_max -> Ipv4.sum_chunks s h = s + word_sum h.
Proof.
  assert (forall x, 0 <= x <= u32_max -> Z.land x u32_max = x) as Hland.
  { intros x Hx. unfold u32_max in *. change 4294967295 with (Z.ones 32).
    rewrite Z.land_ones by lia. apply Z.mod_small. lia. }
  revert s. induction h as [|a|a b h IH] using pairs_ind; intros s Hh Hs; simpl;
    rewrite ?Forall_cons in Hh; unfold is_byte in Hh.
  - lia.
  - intros Hm. rewrite be_value_pair in *. rewrite Hland; lia.
  - destruct Hh as (Ha & Hb & Hh). intros Hm. pose proof (word_sum_bounds h Hh) as [Hw _].
    rewrite be_value_pair in *. rewrite Hland by lia. rewrite IH; [lia|done|lia|lia].
Qed.

Lemma fold_body_spec s :
  0 <= s ->
  Ipv4.fold_body s =
  if 65535 <? s then Again (s mod 65536 + s / 65536) else Done s.
Proof.
  intros Hs. unfold Ipv4.fold_body. change 0xFFFF with (Z.ones 16).
  rewrite Z.land_ones, Z.shiftr_div_pow2 by lia. done.
Qed.

Lemma ones_fold_step s : 65535 < s -> ones_fold (s mod 65536 + s / 65536) = ones_fold s.
Proof.
  intros Hs. pose proof (Z.div_mod s 65536 ltac:(lia)) as Hd.
  pose proof (Z.mod_pos_bound s 65536 ltac:(lia)). unfold ones_fold.
  assert (0 < s / 65536) by (apply Z.div_str_pos; lia).
  rewrite !(proj2 (Z.eqb_neq _ _)) by lia. f_equal.
  replace (s - 1) with (s mod 65536 + s / 65536 - 1 + (s / 65536) * 65535) by lia.
  by rewrite Z.mod_add.
Qed.

Lemma ones_fold_small s : 0 <= s <= 65535 -> ones_fold s = s.
Proof.
  intros Hs. unfold ones_fold. destruct (Z.eqb_spec s 0); [done|].
  rewrite Z.mod_small by lia. lia.
Qed.

Lemma ones_add_fold x s : 0 <= x <= 65535 -> 0 <= s -> ones_add x (ones_fold s) = ones_fold (x + s).
Proof.
  intros Hx Hs. unfold ones_fold, ones_add. destruct (Z.eqb_spec s 0) as [->|Hne].
  - rewrite Z.add_0_r, (proj2 (Z.leb_le _ _)) by lia.
    destruct (Z.eqb_spec x 0); [lia|]. rewrite Z.mod_small by lia. lia.
  - rewrite (proj2 (Z.eqb_neq (x + s) 0)) by lia.
    pose proof (Z.div_mod (s - 1) 65535 ltac:(lia)) as Hd. pose proof (Z.mod_pos_bound (s - 1) 65535 ltac:(lia)).
    set (r := (s - 1) mod 65535) in *. set (q := (s - 1) / 65535) in *.
    destruct (Z.leb_spec (x + (r + 1)) 65535).
    + rewrite <- (Z.mod_unique (x + s - 1) 65535 q (x + r)); lia.
    + rewrite <- (Z.mod_unique (x + s - 1) 65535 (q + 1) (x + r - 65535)); lia.
Qed.

Lemma ones_sum_fold h : bytes_ok h -> ones_sum h = ones_fold (word_sum h).
Proof.
  induction h as [|a|a b h IH] using pairs_ind; cbn [ones_sum word_sum]; rewrite ?Forall_cons; unfold is_byte.
  - done.
  - rewrite be_value_pair. intros [Ha _]. rewrite ones_fold_small; lia.
  - intros (Ha & Hb & Hh). rewrite (IH Hh), be_value_pair.
    pose proof (word_sum_bounds h Hh) as [Hw _]. apply ones_add_fold; lia.
Qed.

(** Two rounds of the [while] fold any [u32], and the folded value is the
    ones' complement reduction. *)
Lemma fold_carries_spec s : 0 <= s <= u32_max -> Ipv4.fold_carries s = ones_fold s.
Proof.
  unfold u32_max. intros Hs. unfold Ipv4.fold_carries, run_loop. cbn [loop].
  rewrite fold_body_spec by lia. destruct (Z.ltb_spec 65535 s) as [Hc|Hc].
  2:{ cbn. rewrite ones_fold_small; [done|lia]. }
  rewrite <- (ones_fold_step s) by done.
  pose proof (Z.div_mod s 65536 ltac:(lia)). pose proof (Z.mod_pos_bound s 65536 ltac:(lia)).
  assert (s / 65536 < 65536) by (apply Z.div_lt_upper_bound; lia).
  assert (0 < s / 65536) by (apply Z.div_str_pos; lia).
  set (s1 := s mod 65536 + s / 65536) in *. rewrite fold_body_spec by lia.
  destruct (Z.ltb_spec 65535 s1) as [Hc1|Hc1]; [|cbn; rewrite ones_fold_small; [done|lia]].
  rewrite <- (ones_fold_step s1) by done.
  assert (s1 / 65536 = 1) as -> by (symmetry; apply (Z.div_unique _ _ _ (s1 - 65536)); lia).
  assert (s1 mod 65536 = s1 - 65536) as -> by (symmetry; apply (Z.mod_unique _ _ 1); lia).
  rewrite fold_body_spec by lia. rewrite (proj2 (Z.ltb_ge _ _)) by lia.
  cbn. rewrite ones_fold_small; [done|lia].
Qed.

(** Buffers whose sum fits the [u32] accumulator. *)
Definition summable (h : list Z) : Prop := bytes_ok h /\ blen h <= 131070.

Lemma checksum_value h :
  summable h -> Ipv4.internet_checksum h = 65535 - ones_fold (word_sum h).
Proof.
  intros [Hb Hl]. pose proof (word_sum_bounds h Hb) as Hw.
  assert (word_sum h <= u32_max) as Hu by (unfold u32_max; lia).
  unfold Ipv4.internet_checksum. rewrite sum_chunks_exact by (done || lia).
  rewrite fold_carries_spec by lia. rewrite Z.add_0_l.
  assert (0 <= ones_fold (word_sum h) <= 65535) as Ho.
  { unfold ones_fold. destruct (Z.eqb_spec (word_sum h) 0); [lia|].
    pose proof (Z.mod_pos_bound (word_sum h - 1) 65535 ltac:(lia)). lia. }
  set (x := ones_fold (word_sum h)) in *. change (Z.land (Z.lnot x) 0xFFFF) with (Z.land (Z.lnot x) (Z.ones 16)).
  rewrite Z.land_ones by lia.
  change (2 ^ 16) with 65536. unfold Z.lnot, Z.pred.
  symmetry. apply (Z.mod_unique _ _ (-1)); [left|]; lia.
Qed.

Lemma word_sum_app pre post :
  Nat.Even (length pre) -> word_sum (pre ++ post) = word_sum pre + word_sum post.
Proof.
  induction pre as [|a|a b pre IH] using pairs_ind; intros He; cbn [app word_sum length] in *.
  - done.
  - destruct He as [k Hk]. lia.
  - destruct He as [k Hk]. rewrite IH; [lia|]. exists (k - 1)%nat. simpl in Hk. lia.
Qed.

Lemma checksum_zero_iff h :
  summable h -> Ipv4.internet_checksum h = 0 <-> 0 < word_sum h /\ (65535 | word_sum h).
Proof.
  intros Hh. rewrite checksum_value by done. destruct Hh as [Hb _].
  pose proof (word_sum_bounds h Hb) as [Hw _]. unfold ones_fold.
  destruct (Z.eqb_spec (word_sum h) 0) as [Hz|Hz]; [lia|].
  pose proof (Z.div_mod (word_sum h - 1) 65535 ltac:(lia)) as Hd.
  pose proof (Z.mod_pos_bound (word_sum h - 1) 65535 ltac:(lia)).
  split.
  - intros H0. split; [lia|]. exists ((word_sum h - 1) / 65535 + 1). lia.
  - intros [_ [k Hk]]. assert ((word_sum h - 1) / 65535 = k - 1) as Hq.
    { symmetry. apply (Z.div_unique _ _ _ 65534); lia. }
    lia.
Qed.

(** A header around one word. *)
Definition with_word (pre post : list Z) (w : Z) : list Z := pre ++ be_bytes 2 w ++ post.

Lemma word_sum_with_word pre post w :
  Nat.Even (length pre) -> 0 <= w < 65536 ->
  word_sum (with_word pre post w) = word_sum pre + w + word_sum post.
Proof.
  intros He Hw. unfold with_word. rewrite word_sum_app by done.
  rewrite (word_sum_app (be_bytes 2 w)) by (by exists 1%nat).
  pose proof (be_value_be_bytes 2 w) as Hv. cbn [be_bytes app word_sum] in *. lia.
Qed.

Lemma summable_with_word pre post w : summable (with_word pre post 0) -> summable (with_word pre post w).
Proof.
  unfold summable, with_word. rewrite !Forall_app, !blen_app. intros [(? & _ & ?) Hl].
  split; [split_and!; [done|apply be_bytes_ok|done]|].
  unfold blen in *. rewrite !length_be_bytes in *. done.
Qed.

(** The byte-wise accumulator of the test kit, after a whole buffer. *)
Lemma sum_bytes h s :
  let '(sum, carry) := foldl sum_byte (s, None) h in
  match carry with
  | Some hi => Z.land (sum + be_value [hi; 0]) u32_max
  | None => sum
  end = Ipv4.sum_chunks s h.
Proof.
  revert s. induction h as [|a|a b h IH] using pairs_ind; intros s; [done|done|].
  cbn [foldl sum_byte Ipv4.sum_chunks]. apply IH.
Qed.

Lemma sum_byte_concat chunks st :
  foldl (fun st chunk => foldl sum_byte st chunk) st chunks = foldl sum_byte st (concat chunks).
Proof.
  revert st. induction chunks as [|ch chunks IH]; intros st; [done|].
  cbn [foldl concat]. by rewrite foldl_app, IH.
Qed.

(** Chunk boundaries, odd ones included, do not matter. *)
Lemma chunks_checksum_concat chunks :
  chunks_checksum chunks = Ipv4.internet_checksum (concat chunks).
Proof.
  unfold chunks_checksum, Ipv4.internet_checksum. rewrite sum_byte_concat.
  pose proof (sum_bytes (concat chunks) 0) as H.
  destruct (foldl sum_byte (0, None) (concat chunks)) as [sum carry]. by rewrite <- H.
Qed.

(** C40: The checksum field: what the builder of a header writes and a receiver
    checks.  Over a buffer of bytes short enough not to overflow the [u32]
    accumulator,
    - the test kit's checksum of a list of chunks is the plugin's checksum of
      their concatenation, wherever the chunks are cut;
    - the plugin's checksum is the complement of the ones' complement sum of the
      words, an odd last byte padded with zero;
    - it is zero exactly when the words sum to a nonzero multiple of 65535;
    - storing the checksum of a header into its zeroed, word-aligned checksum
      field makes the whole header check to zero;
    - two headers that both check to zero and differ in one aligned word
      differ by 0x0000 against 0xFFFF there, the two zeros of ones' complement,
      which the sum cannot tell apart: any other corruption of a single word is
      detected. *)
Theorem internet_checksum_spec pre post :
  Nat.Even (length pre) -> summable (with_word pre post 0) ->
  (forall chunks, chunks_checksum chunks = Ipv4.internet_checksum (concat chunks)) /\
  (forall h, summable h -> Ipv4.internet_checksum h = 65535 - ones_sum h) /\
  (forall h, summable h ->
     Ipv4.internet_checksum h = 0 <-> 0 < word_sum h /\ (65535 | word_sum h)) /\
  Ipv4.internet_checksum
    (with_word pre post (Ipv4.internet_checksum (with_word pre post 0))) = 0 /\
  (forall w w', 0 <= w < 65536 -> 0 <= w' < 65536 ->
   Ipv4.internet_checksum (with_word pre post w) = 0 ->
   Ipv4.internet_checksum (with_word pre post w') = 0 ->
   w = w' \/ (w = 0 /\ w' = 65535) \/ (w = 65535 /\ w' = 0)).
Proof.
  intros He Hs. assert (bytes_ok pre /\ bytes_ok post) as [Hpre Hpost].
  { destruct Hs as [Hb _]. unfold with_word in Hb. rewrite !Forall_app in Hb. tauto. }
  pose proof (word_sum_bounds _ Hpre) as [H1 _]. pose proof (word_sum_bounds _ Hpost) as [H2 _].
  split_and!; [apply chunks_checksum_concat| |apply checksum_zero_iff| |].
  - intros h Hh. rewrite checksum_value, ones_sum_fold by apply Hh || done. done.
  - rewrite (checksum_value (with_word pre post 0)) by done.
    rewrite word_sum_with_word by (done || lia). unfold ones_fold.
    set (s := word_sum pre + 0 + word_sum post).
    pose proof (Z.mod_pos_bound (s - 1) 65535 ltac:(lia)) as Hm.
    pose proof (Z.div_mod (s - 1) 65535 ltac:(lia)) as Hd.
    apply checksum_zero_iff; [by apply summable_with_word|].
    rewrite word_sum_with_word by (done || (case_match; lia)).
    destruct (Z.eqb_spec s 0) as [Hz|Hz]; (split; [unfold s in *; lia|]).
    + exists 1. unfold s in *. lia.
    + exists ((s - 1) / 65535 + 1). unfold s in *. lia.
  - intros w w' Hw Hw' Hc Hc'.
    apply checksum_zero_iff in Hc as [Hp [k Hk]]; [|by apply summable_with_word].
    apply checksum_zero_iff in Hc' as [Hp' [k' Hk']]; [|by apply summable_with_word].
    rewrite word_sum_with_word in * by done.
    assert (w - w' = (k - k') * 65535) by lia.
    assert (k - k' = 0 \/ k - k' = 1 \/ k - k' = -1) as [|[|]] by lia; lia.
Qed.

Lemma internet_checksum_spec_witness :
  let hdr := with_word [0x45; 0; 0; 0x3C; 0x1C; 0x46; 0x40; 0; 0x40; 6] [10; 0; 0; 1; 10; 0; 0; 2] in
  Ipv4.internet_checksum (hdr (Ipv4.internet_checksum (hdr 0))) = 0.
Proof.
  refine (proj1 (proj2 (proj2 (proj2 (internet_checksum_spec
    [0x45; 0; 0; 0x3C; 0x1C; 0x46; 0x40; 0; 0x40; 6] [10; 0; 0; 1; 10; 0; 0; 2] _ _))))).
  - by exists 5%nat.
  - split; [|by vm_compute]. by repeat constructor.
Defined.
