(* ===== verification/Samples.v ===== *)
(** * Small concrete plugins

    Plugins and packets simple enough to evaluate by hand.  The witnesses of
    the development run the registry, the router, the iterator and the
    aggregator on them; no theorem depends on them. *)

From S2P Require Import Prelude Values Bytes Types.

(** A fixed-length header that always continues with [h]. *)
Definition fixed_plugin (n : ProtocolName) (ids : list RouteId) (len : Z) (h : Hint)
    (id : option StreamIdentity) : LayerPlugin := {|
  name := n;
  parse := fun bytes _ =>
    if len <=? blen bytes
    then Ok (mkParsed len
               (insert_all [("src", VU64 (hd 0 bytes)); ("dst", VU64 (hd 0 (rev (take (Z.to_nat len) bytes))))]%string
                  FieldMap.new) h)
    else Error (PE_Truncated (mkTruncated len (blen bytes)));
  claims := ids;
  expected_predecessors := [];
  has_probe := false;
  probe := fun _ _ => None;
  stream_identity := id;
  condense := None |}.

(** The same with a probe of constant confidence. *)
Definition probed_plugin (n : ProtocolName) (len : Z) (h : Hint) (score : Z)
    (preds : list ProtocolName) : LayerPlugin := {|
  name := n;
  parse := parse (fixed_plugin n [] len h None);
  claims := [];
  expected_predecessors := preds;
  has_probe := true;
  probe := fun _ _ => Some score;
  stream_identity := None;
  condense := None |}.

Definition pair_identity : StreamIdentity := {|
  key := [mkKeyField "src" (Some "dst"%string)];
  canonicalize := EndpointSort;
  lifecycle := None;
  rollups := [] |}.

Definition sample_link : LayerPlugin :=
  fixed_plugin "link" [LinkType 1] 2 (Hint_Route (EtherType 2048)) (Some pair_identity).
Definition sample_net : LayerPlugin :=
  fixed_plugin "net" [EtherType 2048] 2 (Hint_Route (IpProtocol 17)) (Some pair_identity).
Definition sample_guess : LayerPlugin :=
  probed_plugin "guess" 1 Hint_Terminal 40 ["net"%string].

Definition sample_meta : PacketMeta := mkMeta 1000 6 6 1.
