(* ===== verification/Engine.v ===== *)
(** * The plugin registry

    Models [crates/pktflow-core/src/engine.rs]: [EngineBuilder::build] with
    its five validation passes in the source's order, and the immutable
    [Engine] it returns.  [build_spec] relates every successful build to a
    declarative reading of the registrations ([route_spec]), and
    [build_Ok_iff] says exactly which registries are accepted. *)

From S2P Require Import Prelude Values Bytes Types Samples.

Inductive RegistryError :=
  | DuplicateName (name : ProtocolName)
  | ClaimCollision (id : RouteId) (first second : ProtocolName)
  | DanglingOverride (id : RouteId) (name : ProtocolName)
  | InvalidIdentity (plugin : ProtocolName) (reason : string).

#[export] Instance RegistryError_eq_dec : EqDecision RegistryError.
Proof. solve_decision. Defined.

Record EngineBuilder := mkBuilder {
  b_plugins : list LayerPlugin;
  overrides : list (RouteId * ProtocolName);
  unroutes : list RouteId;
}.

Definition EngineBuilder_new : EngineBuilder := mkBuilder [] [] [].

Definition plugin (p : LayerPlugin) (b : EngineBuilder) : EngineBuilder :=
  mkBuilder (b_plugins b ++ [p]) (overrides b) (unroutes b).

Definition route (id : RouteId) (proto : ProtocolName) (b : EngineBuilder) : EngineBuilder :=
  mkBuilder (b_plugins b) (overrides b ++ [(id, proto)]) (unroutes b).

Definition unroute (id : RouteId) (b : EngineBuilder) : EngineBuilder :=
  mkBuilder (b_plugins b) (overrides b) (unroutes b ++ [id]).

Record Engine := mkEngine {
  plugins : list LayerPlugin;
  by_name : gmap string nat;
  routes : gmap RouteId nat;
  fallback_idx : list nat;
}.

(** ** The passes of [build] *)

(** 1. Duplicate plugin names. *)
Fixpoint index_names (idx : nat) (ps : list LayerPlugin) (m : gmap string nat)
    : result (gmap string nat) RegistryError :=
  match ps with
  | [] => Ok m
  | p :: ps' =>
      match m !! name p with
      | Some _ => Error (DuplicateName (name p))
      | None => index_names (S idx) ps' (<[name p := idx]> m)
      end
  end.

Abbreviation Collision := (RouteId * nat * nat)%type (only parsing).
Abbreviation RouteTable := (gmap RouteId nat * list Collision)%type (only parsing).

(** 2. Auto-install claims, recording collisions. *)
Definition install_claim (st : RouteTable) (q : RouteId * nat) : RouteTable :=
  match st.1 !! q.1 with
  | Some first => (st.1, st.2 ++ [(q.1, first, q.2)])
  | None => (<[q.1 := q.2]> st.1, st.2)
  end.

Fixpoint claim_pairs (idx : nat) (ps : list LayerPlugin) : list (RouteId * nat) :=
  match ps with
  | [] => []
  | p :: ps' => ((fun id => (id, idx)) <$> claims p) ++ claim_pairs (S idx) ps'
  end.

Definition install_claims (ps : list LayerPlugin) : RouteTable :=
  foldl install_claim (∅, []) (claim_pairs 0 ps).

(** Manual resolution: [unroute] removes the id, [route] re-targets it. *)
Definition drop_collisions (id : RouteId) (cs : list Collision) : list Collision :=
  filter (fun c => c.1.1 <> id) cs.

Definition apply_unroute (st : RouteTable) (id : RouteId) : RouteTable :=
  (delete id st.1, drop_collisions id st.2).

Fixpoint apply_overrides (names : gmap string nat) (ovs : list (RouteId * ProtocolName))
    (st : RouteTable) : result RouteTable RegistryError :=
  match ovs with
  | [] => Ok st
  | (id, n) :: ovs' =>
      match names !! n with
      | None => Error (DanglingOverride id n)
      | Some idx => apply_overrides names ovs' (<[id := idx]> st.1, drop_collisions id st.2)
      end
  end.

Definition name_at (ps : list LayerPlugin) (i : nat) : ProtocolName :=
  from_option name EmptyString (ps !! i).

(** 4. Stream-identity static sanity, first offence wins. *)
Definition key_field_ok (kf : KeyField) : bool :=
  negb (String.eqb (kf_a kf) EmptyString) &&
  match kf_b kf with Some b => negb (String.eqb b EmptyString) | None => true end.

Definition rollup_error (r : RollupSpec) : option string :=
  if String.eqb (rs_field r) EmptyString then Some "empty rollup field name"%string
  else match rs_kind r with
       | RK_Series cap => if cap =? 0 then Some "Series rollup cap must be nonzero"%string else None
       | _ => None
       end.

Definition identity_error (id : StreamIdentity) : option string :=
  if forallb key_field_ok (key id)
  then head (omap rollup_error (rollups id))
  else Some "empty key field name"%string.

(** 5. Condensation declarations. *)
Definition is_EndpointSort (c : Canonicalize) : bool :=
  match c with EndpointSort => true | CustomRule _ => false end.

Definition pair_in_key (id : StreamIdentity) (e : KeyField) : bool :=
  existsb (fun kf => bool_decide (kf = e)) (key id).

Definition condense_error (p : LayerPlugin) : option string :=
  match condense p with
  | None => None
  | Some spec =>
      match stream_identity p with
      | None => Some "condense requires a stream identity"%string
      | Some id =>
          if negb (is_EndpointSort (canonicalize id))
          then Some "condense requires EndpointSort canonicalization"%string
          else if negb (pair_in_key id (ephemeral spec)) ||
                  bool_decide (kf_b (ephemeral spec) = None)
          then Some "condense ephemeral must be a paired key component"%string
          else None
      end
  end.

(** The [for p in &plugins] loops that return on the first error. *)
Definition first_invalid (check : LayerPlugin -> option string) (ps : list LayerPlugin)
    : option RegistryError :=
  head (omap (fun p => InvalidIdentity (name p) <$> check p) ps).

Definition check_identity (p : LayerPlugin) : option string :=
  id ← stream_identity p; identity_error id.

Fixpoint probing (idx : nat) (ps : list LayerPlugin) : list nat :=
  match ps with
  | [] => []
  | p :: ps' => if has_probe p then idx :: probing (S idx) ps' else probing (S idx) ps'
  end.

Definition build (b : EngineBuilder) : result Engine RegistryError :=
  match index_names 0 (b_plugins b) ∅ with
  | Error e => Error e
  | Ok names =>
      let st := foldl apply_unroute (install_claims (b_plugins b)) (unroutes b) in
      match apply_overrides names (overrides b) st with
      | Error e => Error e
      | Ok (rs, collisions) =>
          match collisions with
          | (id, first, second) :: _ =>
              Error (ClaimCollision id (name_at (b_plugins b) first) (name_at (b_plugins b) second))
          | [] =>
              match first_invalid check_identity (b_plugins b) with
              | Some e => Error e
              | None =>
                  match first_invalid condense_error (b_plugins b) with
                  | Some e => Error e
                  | None => Ok (mkEngine (b_plugins b) names rs (probing 0 (b_plugins b)))
                  end
              end
          end
      end
  end.

(** ** Lookups of the built engine *)

Definition plugin_for_route (e : Engine) (id : RouteId) : option LayerPlugin :=
  idx ← routes e !! id; plugins e !! idx.

Definition plugin_by_name (e : Engine) (n : string) : option LayerPlugin :=
  idx ← by_name e !! n; plugins e !! idx.

Definition fallback_pool (e : Engine) : list LayerPlugin :=
  omap (fun idx => plugins e !! idx) (fallback_idx e).

(** ** The declarative reading

    The last manual route of an id wins, then an unroute, then the plugin that
    claims it. *)

Definition last_override (b : EngineBuilder) (id : RouteId) : option ProtocolName :=
  snd <$> find_first (fun q => bool_decide (q.1 = id)) (rev (overrides b)).

Definition named (ps : list LayerPlugin) (n : string) : option LayerPlugin :=
  find_first (fun p => String.eqb (name p) n) ps.

Definition claimant (ps : list LayerPlugin) (id : RouteId) : option LayerPlugin :=
  find_first (fun p => bool_decide (id ∈ claims p)) ps.

Definition route_spec (b : EngineBuilder) (id : RouteId) : option LayerPlugin :=
  match last_override b id with
  | Some n => named (b_plugins b) n
  | None => if bool_decide (id ∈ unroutes b) then None else claimant (b_plugins b) id
  end.

Definition all_claims (ps : list LayerPlugin) : list RouteId := ps ≫= claims.

(** What [build] accepts. *)
Record registry_valid (b : EngineBuilder) : Prop := {
  rv_names : NoDup (name <$> b_plugins b);
  rv_overrides : forall id n, (id, n) ∈ overrides b -> n ∈ name <$> b_plugins b;
  rv_claims : forall id, id ∉ unroutes b -> id ∉ (overrides b).*1 ->
    (length (filter (fun x => x = id) (all_claims (b_plugins b))) <= 1)%nat;
  rv_identity : forall p, p ∈ b_plugins b -> check_identity p = None;
  rv_condense : forall p, p ∈ b_plugins b -> condense_error p = None;
}.

(** ** Pass 1: names *)

Lemma index_names_lookup idx ps m m' :
  index_names idx ps m = Ok m' ->
  NoDup (name <$> ps) /\ (forall n, n ∈ name <$> ps -> m !! n = None) /\
  forall n i, m' !! n = Some i <->
    m !! n = Some i \/ exists j p, ps !! j = Some p /\ name p = n /\ i = (idx + j)%nat.
Proof.
  revert idx m. induction ps as [|p ps IH]; intros idx m H; simplify_eq/=.
  - split_and!; [apply NoDup_nil_2|by intros n Hn%elem_of_nil|]. intros n i.
    split; [by left|]. by intros [|(j & p & Hj & _)].
  - destruct (m !! name p) eqn:Hm; [done|].
    apply IH in H as (Hnd & Hfresh & Hl). clear IH.
    assert (name p ∉ name <$> ps) as Hp.
    { intros Hin. apply Hfresh in Hin. by rewrite lookup_insert_eq in Hin. }
    split_and!.
    + by apply NoDup_cons.
    + intros n [->|Hn]%elem_of_cons; [done|]. pose proof (Hfresh _ Hn) as Hn'.
      rewrite lookup_insert_ne in Hn'; [done|]. by intros <-.
    + intros n i. rewrite Hl. split.
      * intros [Hi|(j & q & Hj & Hq & ->)].
        -- rewrite lookup_insert in Hi. case_decide; simplify_eq; [|by left].
           right. exists 0%nat, p. split_and!; [done|done|lia].
        -- right. exists (S j), q. split_and!; [done|done|lia].
      * intros [Hi|([|j] & q & Hj & Hq & ->)]; simplify_eq/=.
        -- left. rewrite lookup_insert_ne; [done|]. congruence.
        -- left. rewrite lookup_insert_eq. f_equal. lia.
        -- right. exists j, q. split_and!; [done|done|lia].
Qed.

Lemma index_names_Ok idx ps m :
  NoDup (name <$> ps) -> (forall n, n ∈ name <$> ps -> m !! n = None) ->
  exists m', index_names idx ps m = Ok m'.
Proof.
  revert idx m. induction ps as [|p ps IH]; intros idx m Hnd Hf; simpl; [by eauto|].
  rewrite fmap_cons in Hnd, Hf. apply NoDup_cons in Hnd as [Hp Hnd].
  rewrite Hf by (by apply elem_of_cons; left).
  apply IH; [done|]. intros n Hn. rewrite lookup_insert_ne by (by intros <-).
  apply Hf. by apply elem_of_cons; right.
Qed.

Lemma index_names_empty ps m n i :
  index_names 0 ps ∅ = Ok m -> m !! n = Some i <-> exists p, ps !! i = Some p /\ name p = n.
Proof.
  intros H. apply index_names_lookup in H as (_ & _ & Hl). rewrite Hl, lookup_empty. split.
  - intros [?|(j & p & Hj & Hn & ->)]; [done|]. by exists p.
  - intros (p & Hi & Hn). right. by exists i, p.
Qed.

Lemma NoDup_names_inj ps p q :
  NoDup (name <$> ps) -> p ∈ ps -> q ∈ ps -> name p = name q -> p = q.
Proof.
  intros Hnd Hp Hq Hn. apply list_elem_of_lookup in Hp as [i Hi], Hq as [j Hj].
  assert (i = j) as ->; [|congruence].
  eapply NoDup_lookup; [done| |]; rewrite list_lookup_fmap; [by rewrite Hi|].
  by rewrite Hj, Hn.
Qed.

Lemma named_lookup ps i p :
  NoDup (name <$> ps) -> ps !! i = Some p -> named ps (name p) = Some p.
Proof.
  intros Hnd Hi. apply list_elem_of_lookup_2 in Hi.
  apply find_first_unique; [done|apply String.eqb_refl|].
  intros y Hy Hn%String.eqb_eq. by eapply NoDup_names_inj.
Qed.

(** ** Pass 2: claims *)

Definition occurrences (id : RouteId) (l : list RouteId) : nat :=
  length (filter (fun x => x = id) l).

Lemma occurrences_app id l k : occurrences id (l ++ k) = (occurrences id l + occurrences id k)%nat.
Proof. unfold occurrences. by rewrite filter_app, length_app. Qed.

Lemma occurrences_zero id l : occurrences id l = 0%nat <-> id ∉ l.
Proof.
  unfold occurrences. rewrite length_zero_iff_nil. split.
  - intros H Hin. assert (id ∈ filter (fun x => x = id) l) as Hf.
    { by apply list_elem_of_filter. }
    rewrite H in Hf. by apply elem_of_nil in Hf.
  - intros H. destruct (filter _ l) as [|x k] eqn:E; [done|exfalso].
    assert (x ∈ filter (fun x => x = id) l) as Hx by (rewrite E; apply elem_of_cons; by left).
    apply list_elem_of_filter in Hx as [-> ?]. done.
Qed.

Definition first_claim (id : RouteId) (qs : list (RouteId * nat)) : option nat :=
  snd <$> find_first (fun q => bool_decide (q.1 = id)) qs.

Lemma first_claim_None id qs : first_claim id qs = None <-> id ∉ qs.*1.
Proof.
  unfold first_claim. rewrite fmap_None, find_first_None. split.
  - intros H Hin. apply list_elem_of_fmap in Hin as (q & -> & Hq).
    specialize (H q Hq). by rewrite bool_decide_true in H.
  - intros H q Hq. apply bool_decide_false. intros <-. apply H. by apply list_elem_of_fmap_2.
Qed.

(** The table holds each id's first claimant, and an id collided exactly when
    it occurs more than once. *)
Lemma install_spec qs :
  let st := foldl install_claim (∅, []) qs in
  (forall id, st.1 !! id = first_claim id qs) /\
  (forall id, id ∈ st.2.*1.*1 <-> (1 < occurrences id qs.*1)%nat).
Proof.
  induction qs as [|[id0 i0] qs IH] using rev_ind; simpl.
  - split; [done|]. intros id. split; [by intros ?%elem_of_nil|]. cbv. lia.
  - rewrite foldl_app. simpl. destruct (foldl install_claim (∅, []) qs) as [rs cs].
    simpl in IH. destruct IH as [Hr Hc]. unfold install_claim. simpl.
    assert (forall id, occurrences id (qs ++ [(id0, i0)]).*1 =
      (occurrences id qs.*1 + (if decide (id0 = id) then 1 else 0))%nat) as Hocc.
    { intros id. rewrite fmap_app, occurrences_app. f_equal. unfold occurrences.
      change ([(id0, i0)].*1) with [id0]. rewrite filter_cons. by case_decide. }
    assert (forall id, first_claim id (qs ++ [(id0, i0)]) =
      match first_claim id qs with Some i => Some i
      | None => if decide (id0 = id) then Some i0 else None end) as Hfc.
    { intros id. unfold first_claim. rewrite find_first_app.
      destruct (find_first _ qs); simpl; [done|]. by destruct (decide (id0 = id)) as [->|];
        [rewrite bool_decide_true|rewrite bool_decide_false]. }
    rewrite Hr. destruct (first_claim id0 qs) as [i|] eqn:E; simpl; split; intros id;
      rewrite ?Hfc, ?Hocc.
    + rewrite Hr. destruct (first_claim id qs) eqn:E2; [done|]. case_decide; congruence.
    + rewrite !fmap_app, elem_of_app, Hc. simpl. rewrite list_elem_of_singleton.
      assert (0 < occurrences id0 qs.*1)%nat as Hpos.
      { apply Nat.neq_0_lt_0. rewrite occurrences_zero. intros Hn.
        apply first_claim_None in Hn. congruence. }
      case_decide as Hd; [subst id|].
      * split; [lia|intros; by right].
      * split; [intros [?|?]; [lia|congruence]|intros; left; lia].
    + rewrite lookup_insert. apply first_claim_None in E as Hn. case_decide; subst.
      * by rewrite E.
      * rewrite Hr. by destruct (first_claim id qs).
    + rewrite Hc. apply first_claim_None in E. case_decide; subst; [|lia].
      apply occurrences_zero in E. rewrite E. lia.
Qed.

Lemma claim_pairs_fst idx ps : (claim_pairs idx ps).*1 = all_claims ps.
Proof.
  revert idx. induction ps as [|p ps IH]; intros idx; [done|]. simpl.
  rewrite fmap_app, IH, <- list_fmap_compose. unfold all_claims. simpl. f_equal.
  apply list_fmap_id.
Qed.

Lemma first_claim_claimant id idx ps :
  (forall i, first_claim id (claim_pairs idx ps) = Some i ->
    exists p, ps !! (i - idx)%nat = Some p /\ (idx <= i)%nat /\ claimant ps id = Some p) /\
  (first_claim id (claim_pairs idx ps) = None -> claimant ps id = None).
Proof.
  revert idx. induction ps as [|p ps IH]; intros idx; [done|].
  simpl. unfold first_claim. rewrite find_first_app.
  destruct (find_first (fun q => bool_decide (q.1 = id)) ((fun id0 => (id0, idx)) <$> claims p))
    as [q|] eqn:E.
  - apply find_first_Some in E as [Hq Hid]. apply list_elem_of_fmap in Hq as (id' & -> & Hin).
    apply bool_decide_eq_true in Hid. simpl in Hid. subst id'. split; [|done].
    intros i Hi. simplify_eq/=. exists p. rewrite Nat.sub_diag. split_and!; [done|done|].
    unfold claimant. simpl. by rewrite bool_decide_true.
  - assert (id ∉ claims p) as Hp.
    { intros Hin. rewrite find_first_None in E.
      specialize (E (id, idx)). simpl in E. rewrite bool_decide_true in E; [|done].
      assert (false = true) as ?; [|done]. symmetry. apply E.
      by apply (list_elem_of_fmap_2 (fun id0 => (id0, idx))). }
    unfold claimant in *. simpl. rewrite bool_decide_false by done.
    destruct (IH (S idx)) as [IH1 IH2]. split; [|done].
    intros i Hi. destruct (IH1 i Hi) as (p' & Hl & Hle & Hc).
    exists p'. split_and!; [|lia|done].
    replace (i - idx)%nat with (S (i - S idx)) by lia. done.
Qed.

(** ** Manual resolution *)

Lemma elem_of_drop_collisions id c cs : c ∈ drop_collisions id cs <-> c ∈ cs /\ c.1.1 <> id.
Proof. unfold drop_collisions. rewrite list_elem_of_filter. tauto. Qed.

Lemma unroutes_spec us st :
  let st' := foldl apply_unroute st us in
  (forall id, st'.1 !! id = if decide (id ∈ us) then None else st.1 !! id) /\
  (forall c, c ∈ st'.2 <-> c ∈ st.2 /\ c.1.1 ∉ us).
Proof.
  revert st. induction us as [|u us IH]; intros st; simpl.
  - split; [done|]. intros c. split; [|tauto]. split; [done|]. by intros ?%elem_of_nil.
  - destruct (IH (apply_unroute st u)) as [Hr Hc]. split.
    + intros id. rewrite Hr. simpl. rewrite lookup_delete.
      destruct (decide (id ∈ us)) as [Hin|Hin].
      * rewrite decide_True; [done|]. by apply elem_of_cons; right.
      * destruct (decide (u = id)) as [->|Hne].
        -- rewrite decide_True; [done|]. by apply elem_of_cons; left.
        -- rewrite decide_False; [done|]. by intros [->|?]%elem_of_cons.
    + intros c. rewrite Hc. simpl. rewrite elem_of_drop_collisions, not_elem_of_cons. tauto.
Qed.

Definition last_of (ovs : list (RouteId * ProtocolName)) (id : RouteId) : option ProtocolName :=
  snd <$> find_first (fun q => bool_decide (q.1 = id)) (rev ovs).

Lemma last_of_cons id0 n0 ovs id :
  last_of ((id0, n0) :: ovs) id =
  match last_of ovs id with
  | Some n => Some n
  | None => if decide (id0 = id) then Some n0 else None
  end.
Proof.
  unfold last_of. simpl. rewrite find_first_app.
  destruct (find_first _ (rev ovs)); simpl; [done|].
  destruct (decide (id0 = id)); [by rewrite bool_decide_true|by rewrite bool_decide_false].
Qed.

Lemma last_of_Some ovs id n : last_of ovs id = Some n -> (id, n) ∈ ovs.
Proof.
  unfold last_of. intros H. apply fmap_Some in H as ([id' n'] & Hf & ->).
  apply find_first_Some in Hf as [Hin Hid]. apply bool_decide_eq_true in Hid.
  simpl in *. subst. apply list_elem_of_In, in_rev in Hin. by apply list_elem_of_In.
Qed.

Lemma last_of_None ovs id : last_of ovs id = None <-> id ∉ ovs.*1.
Proof.
  induction ovs as [|[id0 n0] ovs IH].
  - split; [intros _ ?%elem_of_nil; done|done].
  - rewrite last_of_cons, fmap_cons, not_elem_of_cons, <- IH. simpl.
    destruct (last_of ovs id); [by split; [|intros []]|].
    case_decide as Hd; split; [done|intros [? _]; congruence| |done].
    intros _. split; [congruence|done].
Qed.

Lemma apply_overrides_spec names ovs st st' :
  apply_overrides names ovs st = Ok st' ->
  (forall id n, (id, n) ∈ ovs -> is_Some (names !! n)) /\
  (forall id, st'.1 !! id =
     match last_of ovs id with Some n => names !! n | None => st.1 !! id end) /\
  (forall c, c ∈ st'.2 <-> c ∈ st.2 /\ c.1.1 ∉ ovs.*1).
Proof.
  revert st. induction ovs as [|[id0 n0] ovs IH]; intros st H; simplify_eq/=.
  - split_and!; [by intros ?? ?%elem_of_nil|done|].
    intros c. split; [|tauto]. split; [done|]. by intros ?%elem_of_nil.
  - destruct (names !! n0) as [i0|] eqn:Hn0; [|done].
    apply IH in H as (Hn & Hr & Hc). clear IH. split_and!.
    + intros id n [?|Hin]%elem_of_cons; simplify_eq; [by eauto|by eapply Hn].
    + intros id. rewrite Hr, last_of_cons. destruct (last_of ovs id); [done|].
      simpl. rewrite lookup_insert. by case_decide.
    + intros c. rewrite Hc. simpl. rewrite elem_of_drop_collisions, not_elem_of_cons. tauto.
Qed.

Lemma apply_overrides_Ok names ovs st :
  (forall id n, (id, n) ∈ ovs -> is_Some (names !! n)) ->
  exists st', apply_overrides names ovs st = Ok st'.
Proof.
  revert st. induction ovs as [|[id0 n0] ovs IH]; intros st H; simpl; [by eauto|].
  destruct (H id0 n0) as [i ->]; [by apply elem_of_cons; left|].
  apply IH. intros id n Hin. eapply H. by apply elem_of_cons; right.
Qed.

Lemma first_invalid_None check ps :
  first_invalid check ps = None <-> forall p, p ∈ ps -> check p = None.
Proof.
  unfold first_invalid. rewrite head_omap_None. split; intros H p Hp; specialize (H p Hp).
  - by apply fmap_None in H.
  - by rewrite H.
Qed.

(** ** The fallback pool *)

Lemma probing_pool (ps0 : list LayerPlugin) idx (ps : list LayerPlugin) :
  (forall j, ps !! j = ps0 !! (idx + j)%nat) ->
  omap (fun i => ps0 !! i) (probing idx ps) = filter (fun p => has_probe p = true) ps.
Proof.
  revert idx. induction ps as [|p ps IH]; intros idx H; [done|].
  assert (omap (fun i => ps0 !! i) (probing (S idx) ps) =
          filter (fun p => has_probe p = true) ps) as IH'.
  { apply IH. intros j. replace (S idx + j)%nat with (idx + S j)%nat by lia. by rewrite <- H. }
  pose proof (H 0%nat) as H0. rewrite Nat.add_0_r in H0. simpl in H0.
  simpl. rewrite filter_cons. destruct (has_probe p) eqn:E.
  - rewrite decide_True by done. rewrite <- IH'. cbn. by rewrite <- H0.
  - rewrite decide_False by done. done.
Qed.

(** ** What a successful build is *)

Lemma no_collision_occurrences b id :
  let st := foldl apply_unroute (install_claims (b_plugins b)) (unroutes b) in
  (exists c, c ∈ st.2 /\ c.1.1 = id /\ id ∉ ((overrides b).*1)) <->
  (id ∉ unroutes b) /\ (id ∉ (overrides b).*1) /\
  (1 < occurrences id (all_claims (b_plugins b)))%nat.
Proof.
  simpl. pose proof (unroutes_spec (unroutes b) (install_claims (b_plugins b))) as [_ Hc].
  pose proof (install_spec (claim_pairs 0 (b_plugins b))) as [_ Hi].
  rewrite claim_pairs_fst in Hi. fold (install_claims (b_plugins b)) in Hi.
  split.
  - intros (c & Hcin & <- & Hov). apply Hc in Hcin as [Hcin Hun].
    split_and!; [done|done|]. apply Hi. by do 2 apply list_elem_of_fmap_2.
  - intros (Hun & Hov & Hocc). apply Hi in Hocc.
    apply list_elem_of_fmap in Hocc as (q & -> & Hq).
    apply list_elem_of_fmap in Hq as (c & -> & Hq).
    exists c. split_and!; [|done|done]. apply Hc. done.
Qed.

Lemma build_inv b e :
  build b = Ok e ->
  exists names rs,
    index_names 0 (b_plugins b) ∅ = Ok names /\
    apply_overrides names (overrides b)
      (foldl apply_unroute (install_claims (b_plugins b)) (unroutes b)) = Ok (rs, []) /\
    first_invalid check_identity (b_plugins b) = None /\
    first_invalid condense_error (b_plugins b) = None /\
    e = mkEngine (b_plugins b) names rs (probing 0 (b_plugins b)).
Proof.
  unfold build. destruct (index_names _ _ _) as [names|]; [|done].
  destruct (apply_overrides _ _ _) as [[rs cs]|] eqn:Ho; [|done].
  destruct cs as [|[[id first] second] cs]; [|done].
  destruct (first_invalid check_identity _) eqn:E1; [done|].
  destruct (first_invalid condense_error _) eqn:E2; [done|].
  intros; simplify_eq. by exists names, rs.
Qed.

Lemma registry_valid_of_build b e : build b = Ok e -> registry_valid b.
Proof.
  intros H. apply build_inv in H as (names & rs & Hn & Ho & Hi & Hc & ->).
  pose proof (index_names_lookup _ _ _ _ Hn) as (Hnd & _ & Hl).
  pose proof (apply_overrides_spec _ _ _ _ Ho) as (Hov & _ & Hcs). split.
  - done.
  - intros id n Hin. apply Hov in Hin as [i Hi']. apply (index_names_empty _ _ _ _ Hn) in Hi'
      as (p & Hp & <-). apply list_elem_of_fmap_2. by eapply list_elem_of_lookup_2.
  - intros id Hun Hovn. apply Nat.nlt_ge. intros Hocc.
    destruct (proj2 (no_collision_occurrences b id)) as (c & Hc1 & <- & Hc2);
      [split_and!; [done|done|exact Hocc]|].
    assert (c ∈ (rs, [] : list Collision).2) as Hbad by (by apply Hcs).
    by apply elem_of_nil in Hbad.
  - by apply first_invalid_None.
  - by apply first_invalid_None.
Qed.

Lemma build_of_registry_valid b : registry_valid b -> exists e, build b = Ok e.
Proof.
  intros [Hnd Hov Hcl Hid Hco]. unfold build.
  destruct (index_names_Ok 0 (b_plugins b) ∅ Hnd) as [names Hn]; [intros; apply lookup_empty|].
  rewrite Hn. destruct (apply_overrides_Ok names (overrides b)
    (foldl apply_unroute (install_claims (b_plugins b)) (unroutes b))) as [[rs cs] Ho].
  { intros id n Hin. apply Hov in Hin. apply list_elem_of_fmap in Hin as (p & -> & Hp).
    apply list_elem_of_lookup in Hp as [i Hi]. exists i.
    apply (index_names_empty _ _ _ _ Hn). by exists p. }
  rewrite Ho. destruct cs as [|[[id first] second] cs].
  - apply first_invalid_None in Hid, Hco. rewrite Hid, Hco. by eauto.
  - exfalso. pose proof (apply_overrides_spec _ _ _ _ Ho) as (_ & _ & Hcs).
    destruct (proj1 (Hcs (id, first, second))) as [Hin Hni]; [apply elem_of_cons; by left|].
    destruct (proj1 (no_collision_occurrences b id)) as (Hun & Hov' & Hocc); [by eauto|].
    specialize (Hcl id Hun Hov'). unfold occurrences in Hocc. lia.
Qed.

Lemma names_lookup_named ps names n :
  index_names 0 ps ∅ = Ok names ->
  (i ← names !! n; ps !! i) = named ps n.
Proof.
  intros Hn. pose proof (index_names_lookup _ _ _ _ Hn) as (Hnd & _ & _).
  destruct (names !! n) as [i|] eqn:E; simpl.
  - apply (index_names_empty _ _ _ _ Hn) in E as (p & Hp & <-).
    rewrite Hp. symmetry. by eapply named_lookup.
  - symmetry. apply find_first_None. intros p Hp. apply String.eqb_neq. intros <-.
    apply list_elem_of_lookup in Hp as [i Hi].
    assert (names !! name p = Some i) as Hs; [|congruence].
    apply (index_names_empty _ _ _ _ Hn). by exists p.
Qed.

Lemma build_routes b e id :
  build b = Ok e -> plugin_for_route e id = route_spec b id.
Proof.
  intros H. apply build_inv in H as (names & rs & Hn & Ho & _ & _ & ->).
  pose proof (apply_overrides_spec _ _ _ _ Ho) as (Hov & Hr & _). simpl in Hr.
  pose proof (unroutes_spec (unroutes b) (install_claims (b_plugins b))) as [Hu _].
  pose proof (install_spec (claim_pairs 0 (b_plugins b))) as [Hi _].
  fold (install_claims (b_plugins b)) in Hi.
  unfold plugin_for_route, route_spec, last_override. simpl. rewrite Hr.
  change (snd <$> find_first (fun q => bool_decide (q.1 = id)) (rev (overrides b)))
    with (last_of (overrides b) id).
  destruct (last_of (overrides b) id) as [n|]; [by apply names_lookup_named|].
  rewrite Hu. case_decide as Hun; [by rewrite bool_decide_true|].
  rewrite bool_decide_false by done. rewrite Hi.
  destruct (first_claim_claimant id 0 (b_plugins b)) as [Hs Hnone].
  destruct (first_claim id _) as [i|] eqn:E; simpl.
  - destruct (Hs i eq_refl) as (p & Hp & _ & ->). by rewrite Nat.sub_0_r in Hp.
  - symmetry. by apply Hnone.
Qed.

Lemma build_names b e n : build b = Ok e -> plugin_by_name e n = named (b_plugins b) n.
Proof.
  intros H. apply build_inv in H as (names & rs & Hn & _ & _ & _ & ->).
  unfold plugin_by_name. simpl. by apply names_lookup_named.
Qed.

Lemma build_pool b e :
  build b = Ok e -> fallback_pool e = filter (fun p => has_probe p = true) (b_plugins b).
Proof.
  intros H. apply build_inv in H as (names & rs & _ & _ & _ & _ & ->).
  unfold fallback_pool. simpl. by apply probing_pool.
Qed.

(** ** Errors *)

Lemma index_names_Error idx ps m e :
  index_names idx ps m = Error e ->
  exists n, e = DuplicateName n /\
    (is_Some (m !! n) /\ n ∈ name <$> ps \/ (1 < length (filter (fun x => x = n) (name <$> ps)))%nat).
Proof.
  revert idx m e. induction ps as [|p ps IH]; intros idx m e H; [done|]. simpl in H.
  destruct (m !! name p) eqn:E.
  - simplify_eq. exists (name p). split; [done|]. left. split; [by eauto|].
    rewrite fmap_cons. by apply elem_of_cons; left.
  - apply IH in H as (n & He & Hor). subst e. exists n. split; [done|]. rewrite fmap_cons.
    destruct Hor as [[Hs Hn]|Hn].
    + rewrite lookup_insert in Hs. case_decide as Hd; [subst n|].
      * right. rewrite filter_cons_True by done. simpl.
        assert (name p ∈ filter (fun x => x = name p) (name <$> ps)) as Hf
          by by apply list_elem_of_filter.
        destruct (filter _ _); [by apply elem_of_nil in Hf|simpl; lia].
      * left. split; [done|]. by apply elem_of_cons; right.
    + right. rewrite filter_cons. case_decide; simpl; lia.
Qed.

Lemma apply_overrides_Error names ovs st e :
  apply_overrides names ovs st = Error e ->
  exists id n, e = DanglingOverride id n /\ (id, n) ∈ ovs /\ names !! n = None.
Proof.
  revert st e. induction ovs as [|[id0 n0] ovs IH]; intros st e H; [done|]. simpl in H.
  destruct (names !! n0) as [i0|] eqn:E.
  - apply IH in H as (id & n & -> & Hin & Hn). exists id, n.
    split_and!; [done|by apply elem_of_cons; right|done].
  - simplify_eq. exists id0, n0. split_and!; [done|by apply elem_of_cons; left|done].
Qed.

Lemma first_invalid_Some check ps e :
  first_invalid check ps = Some e ->
  exists p why, p ∈ ps /\ check p = Some why /\ e = InvalidIdentity (name p) why.
Proof.
  unfold first_invalid. intros H. apply head_Some_elem_of in H.
  apply list_elem_of_omap in H as (p & Hp & H). apply fmap_Some in H as (why & ? & ->).
  by exists p, why.
Qed.

(** The indices a collision names: the first claimant and a later one. *)
Lemma claim_pairs_elem idx ps id i :
  (id, i) ∈ claim_pairs idx ps ->
  exists p, ps !! (i - idx)%nat = Some p /\ (idx <= i)%nat /\ id ∈ claims p.
Proof.
  revert idx. induction ps as [|p ps IH]; intros idx; simpl; [by intros ?%elem_of_nil|].
  rewrite elem_of_app. intros [H|H].
  - apply list_elem_of_fmap in H as (id' & H & Hin). simplify_eq.
    exists p. rewrite Nat.sub_diag. done.
  - apply IH in H as (q & Hq & Hle & Hin). exists q. split_and!; [|lia|done].
    by replace (i - idx)%nat with (S (i - S idx)) by lia.
Qed.

Lemma install_collisions qs c :
  c ∈ (foldl install_claim (∅, []) qs).2 ->
  (c.1.1, c.1.2) ∈ qs /\ (c.1.1, c.2) ∈ qs.
Proof.
  induction qs as [|[id0 i0] qs IH] using rev_ind; [by intros ?%elem_of_nil|].
  rewrite foldl_app. simpl. pose proof (install_spec qs) as [Hr _].
  destruct (foldl install_claim (∅, []) qs) as [rs cs]. simpl in *.
  unfold install_claim. simpl. rewrite Hr, !elem_of_app, !list_elem_of_singleton.
  destruct (first_claim id0 qs) as [i|] eqn:E; simpl.
  - rewrite elem_of_app, list_elem_of_singleton. intros [H| ->]; [by apply IH in H as [? ?]; auto|].
    simpl. split; [|by right]. left. unfold first_claim in E.
    apply fmap_Some in E as ([id' i'] & Hf & ->). apply find_first_Some in Hf as [? Hd].
    apply bool_decide_eq_true in Hd. simpl in Hd. by subst.
  - intros H. apply IH in H as [? ?]. auto.
Qed.

(** ** Properties *)

(** C23: A built engine answers every lookup as the registrations read
    declaratively: a route goes to the last manual [route] of that id, else
    nowhere if it was unrouted, else to its claimant; a name to the plugin
    registered under it; the fallback pool is the probing plugins in
    registration order. *)
Theorem build_spec b e :
  build b = Ok e ->
  plugins e = b_plugins b /\
  (forall id, plugin_for_route e id = route_spec b id) /\
  (forall n, plugin_by_name e n = named (b_plugins b) n) /\
  fallback_pool e = filter (fun p => has_probe p = true) (b_plugins b).
Proof.
  intros H. split_and!.
  - apply build_inv in H as (? & ? & _ & _ & _ & _ & ->). done.
  - intros id. by apply build_routes.
  - intros n. by apply build_names.
  - by apply build_pool.
Qed.

(** [build] accepts exactly the valid registries: distinct names, no dangling
    override, no unresolved claim collision, and every identity and condense
    declaration well formed. *)
Theorem build_Ok_iff b : (exists e, build b = Ok e) <-> registry_valid b.
Proof.
  split; [intros [e H]; by eapply registry_valid_of_build|apply build_of_registry_valid].
Qed.

(** Each registry error names a real defect of the registrations. *)
Theorem build_Error_meaning b err :
  build b = Error err ->
  match err with
  | DuplicateName n => (1 < length (filter (fun x => x = n) (name <$> b_plugins b)))%nat
  | DanglingOverride id n => (id, n) ∈ overrides b /\ n ∉ name <$> b_plugins b
  | ClaimCollision id first second =>
      (id ∉ unroutes b) /\ (id ∉ (overrides b).*1) /\
      exists i j p q, b_plugins b !! i = Some p /\ b_plugins b !! j = Some q /\
        name p = first /\ name q = second /\ id ∈ claims p /\ id ∈ claims q
  | InvalidIdentity n why =>
      exists p, p ∈ b_plugins b /\ name p = n /\
        (check_identity p = Some why \/ condense_error p = Some why)
  end.
Proof.
  unfold build. intros H. destruct (index_names 0 _ ∅) as [names|e1] eqn:Hn.
  2: { simplify_eq. apply index_names_Error in Hn as (n & -> & [[[? Hs] _]|Hl]); [|done].
       by rewrite lookup_empty in Hs. }
  destruct (apply_overrides _ _ _) as [[rs cs]|e1] eqn:Ho.
  2: { simplify_eq. apply apply_overrides_Error in Ho as (id & n & -> & Hin & Hnone).
       split; [done|]. intros Hel. apply list_elem_of_fmap in Hel as (p & -> & Hp).
       apply list_elem_of_lookup in Hp as [i Hi].
       assert (names !! name p = Some i) as Hs; [|congruence].
       apply (index_names_empty _ _ _ _ Hn). by exists p. }
  destruct cs as [|[[id i] j] cs]; simplify_eq.
  - destruct (first_invalid check_identity _) as [e1|] eqn:E1; [|destruct (first_invalid condense_error _)
      as [e1|] eqn:E2; [|done]]; simplify_eq;
      [apply first_invalid_Some in E1 as (p & why & ? & ? & ->)
      |apply first_invalid_Some in E2 as (p & why & ? & ? & ->)]; eauto.
  - pose proof (apply_overrides_spec _ _ _ _ Ho) as (_ & _ & Hcs). simpl in Hcs.
    destruct (proj1 (Hcs (id, i, j))) as [Hin Hov]; [by apply elem_of_cons; left|].
    apply unroutes_spec in Hin as [Hin Hun]. simpl in *.
    apply install_collisions in Hin as [Hi Hj]. simpl in *.
    apply claim_pairs_elem in Hi as (p & Hp & _ & Hcp), Hj as (q & Hq & _ & Hcq).
    rewrite Nat.sub_0_r in Hp, Hq. split_and!; [done|done|].
    exists i, j, p, q. unfold name_at. rewrite Hp, Hq. done.
Qed.

Lemma occurrences_claims_inj ps id p q :
  (occurrences id (all_claims ps) <= 1)%nat ->
  p ∈ ps -> q ∈ ps -> id ∈ claims p -> id ∈ claims q -> p = q.
Proof.
  intros Ho Hp Hq Hcp Hcq.
  assert (forall l r, r ∈ l -> id ∈ claims r -> (0 < occurrences id (all_claims l))%nat) as Hpos.
  { intros l r Hr Hc. apply Nat.neq_0_lt_0. rewrite occurrences_zero. intros Hn. apply Hn.
    unfold all_claims. apply list_elem_of_bind. by exists r. }
  induction ps as [|x ps IH]; [by apply elem_of_nil in Hp|].
  change (all_claims (x :: ps)) with (claims x ++ all_claims ps) in Ho.
  rewrite occurrences_app in Ho.
  assert (id ∈ claims x -> (0 < occurrences id (claims x))%nat) as Hx.
  { intros Hc. apply Nat.neq_0_lt_0. rewrite occurrences_zero. intros Hn. by apply Hn. }
  apply elem_of_cons in Hp as [->|Hp], Hq as [->|Hq]; try done.
  - pose proof (Hpos _ _ Hq Hcq). specialize (Hx Hcp). lia.
  - pose proof (Hpos _ _ Hp Hcp). specialize (Hx Hcq). lia.
  - apply IH; [lia|done|done].
Qed.

(** Registration order is irrelevant to routing: reordering the plugins of an
    accepted registry gives an accepted registry whose engine resolves every
    route and every name to the same plugin. *)
Theorem build_order_irrelevant b e ps :
  build b = Ok e -> ps ≡ₚ b_plugins b ->
  exists e', build (mkBuilder ps (overrides b) (unroutes b)) = Ok e' /\
    (forall id, plugin_for_route e' id = plugin_for_route e id) /\
    (forall n, plugin_by_name e' n = plugin_by_name e n).
Proof.
  intros H Hp. pose proof (registry_valid_of_build _ _ H) as [Hnd Hov Hcl Hid Hco].
  destruct (build_of_registry_valid (mkBuilder ps (overrides b) (unroutes b))) as [e' He'].
  { split; simpl.
    - by rewrite Hp.
    - intros id n Hin. rewrite Hp. by eapply Hov.
    - intros id Hu Ho. unfold all_claims. rewrite Hp. by apply Hcl.
    - intros p. rewrite Hp. apply Hid.
    - intros p. rewrite Hp. apply Hco. }
  assert (forall n, named ps n = named (b_plugins b) n) as Hnamed.
  { intros n. apply find_first_Permutation; [done|]. intros x y Hx Hy Hnx Hny.
    rewrite Hp in Hx, Hy. apply String.eqb_eq in Hnx, Hny.
    eapply NoDup_names_inj; [exact Hnd|done|done|congruence]. }
  exists e'. split_and!; [done| |].
  - intros id. rewrite (build_routes _ _ id He'), (build_routes _ _ id H).
    unfold route_spec, last_override. simpl. fold (last_of (overrides b) id).
    destruct (last_of (overrides b) id) as [n|] eqn:Hl; [apply Hnamed|].
    case_bool_decide as Hu; [done|]. apply find_first_Permutation; [done|].
    intros x y Hx Hy Hcx Hcy. rewrite Hp in Hx, Hy. apply bool_decide_eq_true in Hcx, Hcy.
    apply last_of_None in Hl. apply (occurrences_claims_inj (b_plugins b) id); [|done..].
    by apply Hcl.
  - intros n. by rewrite (build_names _ _ n He'), (build_names _ _ n H).
Qed.

(** A registry of three plugins with one manual route and one unroute. *)
Definition sample_builder : EngineBuilder :=
  unroute (TcpPort 80) (route (UdpPort 53) "guess"
    (plugin sample_guess (plugin sample_net (plugin sample_link EngineBuilder_new)))).

Lemma build_spec_witness :
  exists e, build sample_builder = Ok e /\
    name <$> plugin_for_route e (UdpPort 53) = Some "guess"%string /\
    name <$> plugin_for_route e (EtherType 2048) = Some "net"%string.
Proof.
  destruct (build sample_builder) as [e|] eqn:H; [|by vm_compute in H].
  exists e. destruct (build_spec sample_builder e H) as (_ & Hr & _ & _).
  split_and!; [done|by rewrite Hr|by rewrite Hr].
Defined.

Lemma build_Error_meaning_witness :
  build (plugin sample_link (plugin sample_link EngineBuilder_new)) = Error (DuplicateName "link") /\
  (1 < length (filter (fun x => x = "link"%string) ["link"%string; "link"%string]))%nat.
Proof.
  assert (build (plugin sample_link (plugin sample_link EngineBuilder_new)) =
          Error (DuplicateName "link")) as H by by vm_compute.
  split; [exact H|]. exact (build_Error_meaning _ _ H).
Defined.

Lemma build_order_irrelevant_witness :
  exists e e',
    build sample_builder = Ok e /\
    build (mkBuilder [sample_guess; sample_net; sample_link]
             (overrides sample_builder) (unroutes sample_builder)) = Ok e' /\
    plugin_for_route e' (EtherType 2048) = plugin_for_route e (EtherType 2048).
Proof.
  destruct (build sample_builder) as [e|] eqn:H; [|by vm_compute in H]. exists e.
  destruct (build_order_irrelevant sample_builder e [sample_guess; sample_net; sample_link] H)
    as (e' & He' & Hr & _).
  { change (b_plugins sample_builder) with [sample_link; sample_net; sample_guess].
    exact (Permutation_rev [sample_guess; sample_net; sample_link]). }
  exists e'. split_and!; [done|exact He'|apply Hr].
Defined.

Definition sample_engine : Engine :=
  match build sample_builder with Ok e => e | Error _ => mkEngine [] ∅ ∅ [] end.
