(* ===== verification/Router.v ===== *)
(** * Hint resolution, heuristic fallback and unknown diagnostics

    Models [crates/pktflow-core/src/router.rs] and [diagnostics.rs]: the
    03.4 decision table [resolve_next], the scoring pass shared by routing and
    diagnostics, the winner search of [heuristic_fallback] and the near-miss
    report of [diagnose_unknown]. *)

From S2P Require Import Prelude Values Bytes Types Samples Engine.

Definition PRIOR_BOOST : Z := 15.
Definition MIN_CONFIDENCE : Z := 50.
Definition SAMPLE_CAP : Z := 256.

Inductive StepOutcome :=
  | Step_Layer (proto : ProtocolName) (parsed : ParsedLayer) (via_heuristic : bool)
  | Step_Stop (reason : StopReason).

(** Truncation is reported as such, with [u16] counts; anything else is the
    plugin declining. *)
Definition route_failure (err : ParseError) : StopReason :=
  match err with
  | PE_Truncated t => Stop_Truncated (clamp_to u16_max (needed t)) (clamp_to u16_max (have t))
  | PE_Malformed _ => Stop_PluginError
  end.

Definition dispatch_explicit (p : LayerPlugin) (bytes : list Z) (c : ParseCtx) : StepOutcome :=
  match parse p bytes c with
  | Ok parsed =>
      if header_len_ok parsed (blen bytes) then Step_Layer (name p) parsed false
      else Step_Stop Stop_PluginError
  | Error e => Step_Stop (route_failure e)
  end.

(** ** Scoring (03.3) *)

(** The probe's confidence with the predecessor prior. *)
Definition score_plugin (p : LayerPlugin) (bytes : list Z) (c : ParseCtx) : option Z :=
  confidence ← probe p bytes c;
  Some (match ctx_prev c with
        | Some l =>
            if bool_decide (protocol l ∈ expected_predecessors p)
            then Z.min (sat_add u8_max confidence PRIOR_BOOST) 100
            else confidence
        | None => confidence
        end).

Definition score_fallback_pool (e : Engine) (bytes : list Z) (c : ParseCtx)
    : list (Z * LayerPlugin) :=
  omap (fun p => score ← score_plugin p bytes c; Some (score, p)) (fallback_pool e).

(** The inner scan: index of the best score from [best], a strictly greater
    score moving it. *)
Fixpoint best_from (i best : nat) (best_score : Z) (l : list (Z * LayerPlugin)) : nat :=
  match l with
  | [] => best
  | (score, _) :: l' =>
      if best_score <? score then best_from (S i) i score l'
      else best_from (S i) best best_score l'
  end.

(** A candidate that parses and does not overrun the bytes. *)
Definition attempt (p : LayerPlugin) (bytes : list Z) (c : ParseCtx)
    : option (ProtocolName * ParsedLayer) :=
  match parse p bytes c with
  | Ok parsed => if header_len_ok parsed (blen bytes) then Some (name p, parsed) else None
  | Error _ => None
  end.

(** [while !candidates.is_empty()]: each round removes one candidate, so the
    number of candidates bounds the rounds. *)
Fixpoint try_candidates (rounds : nat) (candidates : list (Z * LayerPlugin))
    (bytes : list Z) (c : ParseCtx) : option (ProtocolName * ParsedLayer) :=
  match rounds, candidates with
  | S rounds', (s0, _) :: _ =>
      let best := best_from 0 0 s0 candidates in
      match candidates !! best with
      | None => None
      | Some (_, p) =>
          match attempt p bytes c with
          | Some r => Some r
          | None => try_candidates rounds' (delete best candidates) bytes c
          end
      end
  | _, _ => None
  end.

Definition routing_candidates (e : Engine) (bytes : list Z) (c : ParseCtx)
    : list (Z * LayerPlugin) :=
  filter (fun q => (MIN_CONFIDENCE <=? q.1) = true) (score_fallback_pool e bytes c).

Definition heuristic_fallback (e : Engine) (bytes : list Z) (c : ParseCtx)
    : option (ProtocolName * ParsedLayer) :=
  let candidates := routing_candidates e bytes c in
  try_candidates (length candidates) candidates bytes c.

(** ** The decision table (03.4) *)

(** First candidate, in rank order, that parses. *)
Fixpoint first_parsing (ps : list LayerPlugin) (bytes : list Z) (c : ParseCtx)
    : option (ProtocolName * ParsedLayer) :=
  match ps with
  | [] => None
  | p :: ps' =>
      match attempt p bytes c with
      | Some r => Some r
      | None => first_parsing ps' bytes c
      end
  end.

Definition resolve_next (e : Engine) (hint : Hint) (bytes : list Z) (c : ParseCtx) : StepOutcome :=
  match bytes with
  | [] => Step_Stop Stop_Complete
  | _ =>
      match hint with
      | Hint_Terminal => Step_Stop Stop_Terminal
      | Hint_Route id =>
          match plugin_for_route e id with
          | None => Step_Stop (Stop_UnclaimedRoute id)
          | Some p => dispatch_explicit p bytes c
          end
      | Hint_Candidates ids =>
          match omap (plugin_for_route e) ids with
          | [] =>
              match ids with
              | first :: _ => Step_Stop (Stop_UnclaimedRoute first)
              | [] => Step_Stop Stop_PluginError
              end
          | claimed =>
              match first_parsing claimed bytes c with
              | Some (proto, parsed) => Step_Layer proto parsed false
              | None => Step_Stop Stop_PluginError
              end
          end
      | Hint_ByProtocol n =>
          match plugin_by_name e n with
          | None => Step_Stop (Stop_UnclaimedRoute (Custom n 0))
          | Some p =>
              match attempt p bytes c with
              | Some (proto, parsed) => Step_Layer proto parsed false
              | None => Step_Stop Stop_PluginError
              end
          end
      | Hint_Unknown =>
          match heuristic_fallback e bytes c with
          | Some (proto, parsed) => Step_Layer proto parsed true
          | None => Step_Stop Stop_UnknownHint
          end
      end
  end.

(** ** Unknown diagnostics (10.1) *)

Definition unknown_context (s : StopReason) (c : ParseCtx) : option UnknownContext :=
  match s with
  | Stop_UnclaimedRoute r => l ← ctx_prev c; Some (UC_UnclaimedRoute (protocol l) r)
  | Stop_UnknownHint => l ← ctx_prev c; Some (UC_NoHeuristicWinner (protocol l))
  | _ => None
  end.

(** [sort_by_key(Reverse(score))]: stable, best first. *)
Definition by_score_desc (a b : Z * LayerPlugin) : bool := b.1 <=? a.1.

Definition near_misses (e : Engine) (bytes : list Z) (c : ParseCtx) : list (ProtocolName * Z) :=
  (fun q => (name q.2, Confidence_new q.1)) <$>
    take 5 (sort_by by_score_desc (score_fallback_pool e bytes c)).

Definition diagnose_unknown (e : Engine) (s : StopReason) (bytes : list Z) (c : ParseCtx)
    : option UnknownDiagnostics :=
  ctx ← unknown_context s c;
  Some (mkDiag ctx (near_misses e bytes c)
          (take (Z.to_nat (Z.min (blen bytes) SAMPLE_CAP)) bytes)).

(** ** The winner search against its reference

    The source repeatedly scans for the maximum and removes it.  The reference
    reads: stable-sort by score, best first, and take the first candidate that
    parses. *)

Definition reference_fallback (e : Engine) (bytes : list Z) (c : ParseCtx)
    : option (ProtocolName * ParsedLayer) :=
  first_parsing (sort_by by_score_desc (routing_candidates e bytes c)).*2 bytes c.

Lemma by_score_desc_total a b : by_score_desc a b = false -> by_score_desc b a = true.
Proof. unfold by_score_desc. rewrite Z.leb_gt, Z.leb_le. lia. Qed.

Lemma by_score_desc_trans a b c :
  by_score_desc a b = true -> by_score_desc b c = true -> by_score_desc a c = true.
Proof. unfold by_score_desc. rewrite !Z.leb_le. lia. Qed.

(** Index of the first maximum, by recursion from the back. *)
Fixpoint first_max (l : list (Z * LayerPlugin)) : nat :=
  match l with
  | [] => 0
  | x :: l' =>
      match l' !! first_max l' with
      | None => 0
      | Some y => if y.1 <=? x.1 then 0 else S (first_max l')
      end
  end.

Lemma first_max_lookup l : l <> [] -> is_Some (l !! first_max l).
Proof.
  induction l as [|x l IH]; [done|]. intros _. simpl.
  destruct (l !! first_max l) as [y|] eqn:E; [|by eauto].
  destruct (y.1 <=? x.1); simpl; eauto.
Qed.

(** What the scan computes, for any standing best. *)
Lemma best_from_spec i best bs l :
  best_from i best bs l =
  match l !! first_max l with
  | None => best
  | Some y => if y.1 <=? bs then best else (i + first_max l)%nat
  end.
Proof.
  revert i best bs. induction l as [|[s p] l IH]; intros i best bs; [done|].
  simpl. destruct (bs <? s) eqn:E; rewrite IH; reflect_bools.
  - destruct (l !! first_max l) as [y|] eqn:Hy; simpl.
    + destruct (y.1 <=? s) eqn:Es; simpl; reflect_bools.
      * rewrite (proj2 (Z.leb_gt s bs)) by lia. lia.
      * rewrite Hy. rewrite (proj2 (Z.leb_gt y.1 bs)) by lia. lia.
    + rewrite (proj2 (Z.leb_gt s bs)) by lia. lia.
  - destruct (l !! first_max l) as [y|] eqn:Hy; simpl.
    + destruct (y.1 <=? s) eqn:Es; simpl; reflect_bools.
      * rewrite (proj2 (Z.leb_le y.1 bs)) by lia. by rewrite (proj2 (Z.leb_le s bs)) by lia.
      * rewrite Hy. destruct (y.1 <=? bs); [done|]. lia.
    + by rewrite (proj2 (Z.leb_le s bs)) by lia.
Qed.

Lemma best_from_first_max s p l : best_from 0 0 s ((s, p) :: l) = first_max ((s, p) :: l).
Proof.
  rewrite best_from_spec. simpl. destruct (l !! first_max l) as [y|] eqn:Hy; simpl.
  - destruct (y.1 <=? s) eqn:Es; simpl; [by rewrite Z.leb_refl|].
    rewrite Hy. by rewrite Es.
  - by rewrite Z.leb_refl.
Qed.

(** Selecting the first maximum is taking the head of the stable sort. *)
Lemma sort_first_max l y :
  l !! first_max l = Some y ->
  sort_by by_score_desc l = y :: sort_by by_score_desc (delete (first_max l) l).
Proof.
  revert y. induction l as [|x l IH]; intros y; [done|]. simpl.
  destruct (l !! first_max l) as [z|] eqn:Hz; simpl.
  - rewrite (IH _ eq_refl). simpl. unfold by_score_desc at 1. simpl.
    destruct (z.1 <=? x.1) eqn:E; intros Hy; simplify_eq/=.
    + f_equal. by rewrite (IH _ eq_refl).
    + done.
  - intros Hy; simplify_eq. destruct l as [|w l]; [done|].
    destruct (first_max_lookup (w :: l)) as [? ?]; [done|]. congruence.
Qed.

Lemma try_candidates_reference rounds l bytes c :
  (length l <= rounds)%nat ->
  try_candidates rounds l bytes c = first_parsing (sort_by by_score_desc l).*2 bytes c.
Proof.
  revert l. induction rounds as [|n IH]; intros [|[s p] l] Hl; try done; simpl in Hl; [lia|].
  destruct (first_max_lookup ((s, p) :: l)) as [[sy py] Hy]; [done|].
  rewrite (sort_first_max _ _ Hy). simpl try_candidates.
  change (if s <? s then _ else _) with (best_from 0 0 s ((s, p) :: l)).
  rewrite best_from_first_max, Hy. rewrite fmap_cons. cbn [first_parsing snd].
  destruct (attempt py bytes c); [done|]. apply IH.
  rewrite length_delete by (by rewrite Hy). simpl. lia.
Qed.

Lemma heuristic_fallback_reference e bytes c :
  heuristic_fallback e bytes c = reference_fallback e bytes c.
Proof. by apply try_candidates_reference. Qed.

(** ** Where a layer comes from *)

(** [parsed_by e b c proto parsed]: a registered plugin of that name parsed
    the bytes and did not overrun them. *)
Definition parsed_by (e : Engine) (b : list Z) (c : ParseCtx)
    (proto : ProtocolName) (parsed : ParsedLayer) : Prop :=
  exists p, p ∈ plugins e /\ proto = name p /\ parse p b c = Ok parsed /\
    pl_header_len parsed <= blen b.

Lemma plugin_for_route_elem e id p : plugin_for_route e id = Some p -> p ∈ plugins e.
Proof.
  unfold plugin_for_route. intros H. apply bind_Some in H as (i & _ & Hi).
  by eapply list_elem_of_lookup_2.
Qed.

Lemma plugin_by_name_elem e n p : plugin_by_name e n = Some p -> p ∈ plugins e.
Proof.
  unfold plugin_by_name. intros H. apply bind_Some in H as (i & _ & Hi).
  by eapply list_elem_of_lookup_2.
Qed.

Lemma fallback_pool_elem e p : p ∈ fallback_pool e -> p ∈ plugins e.
Proof.
  unfold fallback_pool. intros H. apply list_elem_of_omap in H as (i & _ & Hi).
  by eapply list_elem_of_lookup_2.
Qed.

Lemma attempt_Some p b c proto parsed :
  attempt p b c = Some (proto, parsed) <->
  parse p b c = Ok parsed /\ pl_header_len parsed <= blen b /\ proto = name p.
Proof.
  unfold attempt, header_len_ok. split.
  - destruct (parse p b c) as [r|]; [|done]. case_match eqn:E; [|done].
    reflect_bools. intros; simplify_eq. done.
  - intros (-> & Hl & ->). by rewrite (proj2 (Z.leb_le _ _) Hl).
Qed.

Lemma first_parsing_Some ps b c proto parsed :
  first_parsing ps b c = Some (proto, parsed) ->
  exists p, p ∈ ps /\ attempt p b c = Some (proto, parsed).
Proof.
  induction ps as [|p ps IH]; simpl; [done|].
  destruct (attempt p b c) eqn:E; intros H; simplify_eq.
  - exists p. split; [apply elem_of_cons; by left|done].
  - destruct (IH H) as (q & ? & ?). exists q. split; [apply elem_of_cons; by right|done].
Qed.

Lemma first_parsing_None ps b c :
  first_parsing ps b c = None <-> forall p, p ∈ ps -> attempt p b c = None.
Proof.
  induction ps as [|p ps IH]; simpl.
  - split; [intros _ p Hp; by apply elem_of_nil in Hp|done].
  - destruct (attempt p b c) eqn:E; split.
    + done.
    + intros H. rewrite H in E; [done|apply elem_of_cons; by left].
    + intros H q [->|Hq]%elem_of_cons; [done|]. by apply IH.
    + intros H. apply IH. intros q Hq. apply H. apply elem_of_cons; by right.
Qed.

Lemma attempt_parsed_by e p b c proto parsed :
  p ∈ plugins e -> attempt p b c = Some (proto, parsed) -> parsed_by e b c proto parsed.
Proof. intros Hp H. apply attempt_Some in H as (? & ? & ->). by exists p. Qed.

Lemma dispatch_explicit_layer e p b c proto parsed via :
  p ∈ plugins e -> dispatch_explicit p b c = Step_Layer proto parsed via ->
  via = false /\ parsed_by e b c proto parsed.
Proof.
  unfold dispatch_explicit, header_len_ok. intros Hp.
  destruct (parse p b c) as [r|] eqn:E; [|done]. case_match eqn:El; [|done].
  intros; simplify_eq. reflect_bools. split; [done|]. by exists p.
Qed.

Lemma score_pool_elem e b c s p :
  (s, p) ∈ score_fallback_pool e b c <-> p ∈ fallback_pool e /\ score_plugin p b c = Some s.
Proof.
  unfold score_fallback_pool. rewrite list_elem_of_omap. split.
  - intros (q & Hq & H). apply bind_Some in H as (s' & Hs & H). by simplify_eq.
  - intros [Hp Hs]. exists p. split; [done|]. by rewrite Hs.
Qed.

Lemma heuristic_fallback_Some e b c proto parsed :
  heuristic_fallback e b c = Some (proto, parsed) ->
  exists p s, p ∈ fallback_pool e /\ score_plugin p b c = Some s /\ MIN_CONFIDENCE <= s /\
    attempt p b c = Some (proto, parsed).
Proof.
  rewrite heuristic_fallback_reference. unfold reference_fallback. intros H.
  apply first_parsing_Some in H as (p & Hp & Ha).
  apply list_elem_of_fmap in Hp as ([s q] & -> & Hq). rewrite elem_of_sort_by in Hq.
  apply list_elem_of_filter in Hq as [Hs Hq]. apply score_pool_elem in Hq as [? ?].
  exists q, s. simpl in *. split_and!; try done. by apply Z.leb_le.
Qed.

Lemma heuristic_fallback_parsed_by e b c proto parsed :
  heuristic_fallback e b c = Some (proto, parsed) -> parsed_by e b c proto parsed.
Proof.
  intros H. apply heuristic_fallback_Some in H as (p & s & Hp & _ & _ & Ha).
  eapply attempt_parsed_by; [by apply fallback_pool_elem|done].
Qed.

Lemma resolve_next_parsed_by e h b c proto parsed via :
  resolve_next e h b c = Step_Layer proto parsed via ->
  parsed_by e b c proto parsed /\ (via = true <-> h = Hint_Unknown).
Proof.
  unfold resolve_next. destruct b as [|b0 b]; [done|]. set (bs := b0 :: b).
  destruct h as [id|ids|n| |]; intros H.
  - destruct (plugin_for_route e id) eqn:E; [|done].
    apply (dispatch_explicit_layer e) in H as [-> ?]; [done|by eapply plugin_for_route_elem].
  - destruct (omap _ ids) as [|q qs] eqn:E; [by destruct ids|].
    destruct (first_parsing _ _ _) as [[pr pl]|] eqn:Ef; simplify_eq.
    apply first_parsing_Some in Ef as (p & Hp & Ha). split; [|done].
    eapply attempt_parsed_by; [|done]. rewrite <- E in Hp.
    apply list_elem_of_omap in Hp as (i & _ & Hi). by eapply plugin_for_route_elem.
  - destruct (plugin_by_name e n) as [p|] eqn:E; [|done].
    destruct (attempt p _ c) as [[pr pl]|] eqn:Ea; simplify_eq. split; [|done].
    eapply attempt_parsed_by; [by eapply plugin_by_name_elem|done].
  - destruct (heuristic_fallback _ _ _) as [[pr pl]|] eqn:E; simplify_eq.
    split; [by apply heuristic_fallback_parsed_by|done].
  - done.
Qed.

(** ** What each outcome means *)

(** The plugins an explicit hint consults. *)
Definition consulted (e : Engine) (h : Hint) : list LayerPlugin :=
  match h with
  | Hint_Route id => option_list (plugin_for_route e id)
  | Hint_Candidates ids => omap (plugin_for_route e) ids
  | Hint_ByProtocol n => option_list (plugin_by_name e n)
  | Hint_Unknown | Hint_Terminal => []
  end.

Definition outcome_meaning (e : Engine) (h : Hint) (b : list Z) (c : ParseCtx)
    (o : StepOutcome) : Prop :=
  match o with
  | Step_Layer proto parsed via =>
      b <> [] /\ parsed_by e b c proto parsed /\ (via = true <-> h = Hint_Unknown)
  | Step_Stop Stop_Complete => b = []
  | Step_Stop Stop_Terminal => b <> [] /\ h = Hint_Terminal
  | Step_Stop (Stop_UnclaimedRoute r) =>
      match h with
      | Hint_Route id => r = id /\ plugin_for_route e id = None
      | Hint_Candidates ids => head ids = Some r /\ forall id, id ∈ ids -> plugin_for_route e id = None
      | Hint_ByProtocol n => r = Custom n 0 /\ plugin_by_name e n = None
      | _ => False
      end
  | Step_Stop Stop_UnknownHint => h = Hint_Unknown /\ heuristic_fallback e b c = None
  | Step_Stop (Stop_Truncated n m) =>
      exists id p t, h = Hint_Route id /\ plugin_for_route e id = Some p /\
        parse p b c = Error (PE_Truncated t) /\
        n = clamp_to u16_max (needed t) /\ m = clamp_to u16_max (have t)
  | Step_Stop Stop_PluginError =>
      h <> Hint_Unknown /\ h <> Hint_Terminal /\
      forall p, p ∈ consulted e h -> attempt p b c = None
  | Step_Stop Stop_DepthCap => False
  end.

Lemma attempt_None_dispatch p b c s :
  dispatch_explicit p b c = Step_Stop s -> attempt p b c = None.
Proof. unfold dispatch_explicit, attempt. by destruct (parse p b c); [case_match|]. Qed.

(** A candidate list nothing claims. *)
Lemma omap_nil {A B} (f : A -> option B) l : omap f l = [] -> forall x, x ∈ l -> f x = None.
Proof.
  intros H x Hx. destruct (f x) as [y|] eqn:E; [|done].
  assert (y ∈ omap f l) as Hy by (apply list_elem_of_omap; by exists x).
  rewrite H in Hy. by apply elem_of_nil in Hy.
Qed.

(** The winner of an ordered trial, with everything tried before it. *)
Lemma first_parsing_split (l : list (Z * LayerPlugin)) b c r :
  first_parsing l.*2 b c = Some r ->
  exists l1 l2 s p, l = l1 ++ (s, p) :: l2 /\ attempt p b c = Some r /\
    forall s' q, (s', q) ∈ l1 -> attempt q b c = None.
Proof.
  induction l as [|[s p] l IH]; [done|]. simpl. destruct (attempt p b c) eqn:E; intros H.
  - simplify_eq. exists [], l, s, p. split_and!; [done|done|]. by intros ?? ?%elem_of_nil.
  - destruct (IH H) as (l1 & l2 & s' & p' & -> & Ha & Hn).
    exists ((s, p) :: l1), l2, s', p'. split_and!; [done|done|].
    intros s2 q [?|Hq]%elem_of_cons; [by simplify_eq|by eapply Hn].
Qed.

(** ** Properties *)

(** The 03.4 decision table: what every outcome of [resolve_next] says about
    the hint, the registry and the plugins that were consulted. *)
Theorem resolve_next_meaning e h b c : outcome_meaning e h b c (resolve_next e h b c).
Proof.
  destruct (resolve_next e h b c) as [proto parsed via|s] eqn:H.
  - split; [by intros ->|]. by apply resolve_next_parsed_by.
  - unfold resolve_next in H. destruct b as [|b0 b]; [by simplify_eq|].
    destruct h as [id|ids|n| |].
    + destruct (plugin_for_route e id) as [p|] eqn:E; [|by simplify_eq].
      pose proof (attempt_None_dispatch _ _ _ _ H) as Ha. unfold dispatch_explicit in H.
      destruct (parse p _ c) as [r|[t|w]] eqn:Ep; [case_match; simplify_eq|simplify_eq..]; simpl.
      * split_and!; [done|done|]. rewrite E. by intros q ->%list_elem_of_singleton.
      * by exists id, p, t.
      * split_and!; [done|done|]. rewrite E. by intros q ->%list_elem_of_singleton.
    + destruct (omap _ ids) as [|q qs] eqn:E.
      * destruct ids as [|i ids]; simplify_eq; simpl.
        -- split_and!; [done|done|]. by intros q ?%elem_of_nil.
        -- split; [done|]. by apply omap_nil.
      * destruct (first_parsing _ _ _) as [[? ?]|] eqn:Ef; [done|]. simplify_eq. simpl.
        split_and!; [done|done|]. rewrite E. by apply first_parsing_None.
    + destruct (plugin_by_name e n) as [p|] eqn:E; [|by simplify_eq].
      destruct (attempt p _ c) as [[? ?]|] eqn:Ea; [done|]. simplify_eq. simpl.
      split_and!; [done|done|]. rewrite E. by intros q ->%list_elem_of_singleton.
    + destruct (heuristic_fallback e _ c) as [[? ?]|] eqn:E; [done|]. by simplify_eq.
    + by simplify_eq.
Qed.

(** The heuristic gate: under any hint but [Unknown], the outcome depends on
    the route table and the parsers alone - engines that agree on these agree
    on the outcome, whatever plugins probe, score or expect. *)
Theorem explicit_hints_ignore_probes e1 e2 h b c :
  let agree := option_Forall2 (fun p q : LayerPlugin => name p = name q /\ parse p = parse q) in
  h <> Hint_Unknown ->
  (forall id, agree (plugin_for_route e1 id) (plugin_for_route e2 id)) ->
  (forall n, agree (plugin_by_name e1 n) (plugin_by_name e2 n)) ->
  resolve_next e1 h b c = resolve_next e2 h b c.
Proof.
  intros agree Hh Hr Hn. unfold resolve_next. destruct b as [|b0 b]; [done|].
  set (bs := b0 :: b).
  assert (forall p q : LayerPlugin, name p = name q /\ parse p = parse q ->
    attempt p bs c = attempt q bs c) as Hat.
  { intros p q [H1 H2]. unfold attempt. by rewrite H1, H2. }
  destruct h as [id|ids|n| |]; [| | |done|done].
  - destruct (Hr id) as [p q [H1 H2]|]; [|done]. unfold dispatch_explicit. by rewrite H1, H2.
  - assert (Forall2 (fun p q : LayerPlugin => name p = name q /\ parse p = parse q)
      (omap (plugin_for_route e1) ids) (omap (plugin_for_route e2) ids)) as Hf.
    { clear Hh. induction ids as [|i ids IH]; [constructor|]. unfold omap in *. simpl.
      destruct (Hr i); [by constructor|done]. }
    assert (first_parsing (omap (plugin_for_route e1) ids) bs c =
            first_parsing (omap (plugin_for_route e2) ids) bs c) as Hp.
    { clear Hr. induction Hf as [|p q l1 l2 Hpq _ IH]; [done|]. simpl.
      by rewrite (Hat _ _ Hpq), IH. }
    by destruct Hf; [done|rewrite Hp].
  - destruct (Hn n) as [p q Hpq|]; [|done]. by rewrite (Hat _ _ Hpq).
Qed.

(** Repeatedly scanning for the best remaining candidate is trying the
    candidates in stable descending order of score. *)
Theorem heuristic_fallback_refines e b c :
  heuristic_fallback e b c = reference_fallback e b c.
Proof. apply heuristic_fallback_reference. Qed.

(** The winner reached the confidence floor and parsed; everything that
    outscored it declined the bytes.  There is no winner exactly when every
    plugin at or above the floor declines. *)
Theorem heuristic_fallback_optimal e b c :
  match heuristic_fallback e b c with
  | Some (proto, parsed) =>
      exists p s, p ∈ fallback_pool e /\ score_plugin p b c = Some s /\ MIN_CONFIDENCE <= s /\
        attempt p b c = Some (proto, parsed) /\
        forall q s', q ∈ fallback_pool e -> score_plugin q b c = Some s' -> s < s' ->
          attempt q b c = None
  | None =>
      forall q s', q ∈ fallback_pool e -> score_plugin q b c = Some s' -> MIN_CONFIDENCE <= s' ->
        attempt q b c = None
  end.
Proof.
  rewrite heuristic_fallback_reference. unfold reference_fallback.
  assert (forall q s, q ∈ fallback_pool e -> score_plugin q b c = Some s -> MIN_CONFIDENCE <= s ->
    (s, q) ∈ sort_by by_score_desc (routing_candidates e b c)) as Hcand.
  { intros q s Hq Hs Hm. apply elem_of_sort_by, list_elem_of_filter.
    split; [by apply Z.leb_le|]. by apply score_pool_elem. }
  assert (forall q s, (s, q) ∈ sort_by by_score_desc (routing_candidates e b c) ->
    q ∈ fallback_pool e /\ score_plugin q b c = Some s /\ MIN_CONFIDENCE <= s) as Hcand'.
  { intros q s Hq. apply elem_of_sort_by, list_elem_of_filter in Hq as [Hm Hq].
    apply Z.leb_le in Hm. apply score_pool_elem in Hq as [? ?]. done. }
  pose proof (sort_by_Sorted by_score_desc by_score_desc_total by_score_desc_trans
    (routing_candidates e b c)) as Hsorted.
  destruct (first_parsing _ b c) as [[proto parsed]|] eqn:Hf.
  - destruct (first_parsing_split _ _ _ _ Hf) as (l1 & l2 & s & p & Hl & Ha & Hno).
    destruct (Hcand' p s) as (Hp & Hs & Hm); [rewrite Hl; apply elem_of_app; right;
      by apply elem_of_cons; left|].
    exists p, s. split_and!; try done. intros q s' Hq Hs' Hlt.
    apply (Hno s'). assert ((s', q) ∈ l1 ++ (s, p) :: l2) as Hin.
    { rewrite <- Hl. apply Hcand; [done|done|lia]. }
    apply elem_of_app in Hin as [?|Hin]; [done|exfalso].
    rewrite Hl in Hsorted. apply StronglySorted_app_1_r in Hsorted.
    apply (Sorted_by_head _ _ _ _ Hsorted) in Hin as [?|Hle]; [simplify_eq; lia|].
    unfold by_score_desc in Hle. simpl in Hle. reflect_bools. lia.
  - intros q s Hq Hs Hm. apply (proj1 (first_parsing_None _ b c) Hf).
    change q with ((s, q).2). apply list_elem_of_fmap_2. by apply Hcand.
Qed.

(** Unknown diagnostics describe the payload: the context names the innermost
    layer, the near misses are at most five of the pool's scores, best first,
    with nothing better left out, and the sample is the payload's prefix of at
    most 256 bytes. *)
Theorem diagnose_unknown_sound e s b c d :
  diagnose_unknown e s b c = Some d ->
  stop_class s = UnknownPayload /\
  (exists l, ctx_prev c = Some l /\
     context d = match s with
                 | Stop_UnclaimedRoute r => UC_UnclaimedRoute (protocol l) r
                 | _ => UC_NoHeuristicWinner (protocol l)
                 end) /\
  (exists shown rest,
     shown ++ rest ≡ₚ score_fallback_pool e b c /\
     diag_near_misses d = (fun q => (name q.2, Confidence_new q.1)) <$> shown /\
     (length shown <= 5)%nat /\ (rest <> [] -> length shown = 5%nat) /\
     Sorted_by by_score_desc shown /\
     forall x y, x ∈ shown -> y ∈ rest -> y.1 <= x.1) /\
  (exists rest, b = sample d ++ rest) /\ blen (sample d) = Z.min (blen b) SAMPLE_CAP.
Proof.
  unfold diagnose_unknown. intros H. apply bind_Some in H as (ctx & Hctx & H). simplify_eq. simpl.
  assert (stop_class s = UnknownPayload) as Hs by by destruct s.
  split; [done|]. split.
  { destruct s; try done; simpl in Hctx; apply bind_Some in Hctx as (l & Hl & Hc); simplify_eq; eauto. }
  pose proof (blen_nonneg b) as Hb. split.
  - unfold near_misses. set (L := sort_by by_score_desc (score_fallback_pool e b c)).
    assert (Sorted_by by_score_desc L) as Hsorted
      by (apply sort_by_Sorted; [apply by_score_desc_total|apply by_score_desc_trans]).
    exists (take 5 L), (drop 5 L). split_and!.
    + rewrite take_drop. apply sort_by_Permutation.
    + done.
    + rewrite length_take. lia.
    + intros Hne. rewrite length_take. apply Nat.min_l. apply Nat.lt_le_incl, Nat.nle_gt.
      intros Hle. by rewrite drop_ge in Hne.
    + rewrite <- (take_drop 5 L) in Hsorted. by apply StronglySorted_app_1_l in Hsorted.
    + intros x y Hx Hy. rewrite <- (take_drop 5 L) in Hsorted.
      eapply StronglySorted_app_1_elem_of in Hsorted; [|exact Hx|exact Hy].
      unfold by_score_desc in Hsorted. by apply Z.leb_le.
  - unfold SAMPLE_CAP. split.
    + exists (drop (Z.to_nat (Z.min (blen b) 256)) b). by rewrite take_drop.
    + unfold blen in *. rewrite length_take. lia.
Qed.

Lemma explicit_hints_ignore_probes_witness :
  let c := mkCtx [] DFull sample_meta in
  let silent := mkEngine (plugins sample_engine) (by_name sample_engine) (routes sample_engine) [] in
  resolve_next sample_engine (Hint_Route (EtherType 2048)) [1; 2] c =
  resolve_next silent (Hint_Route (EtherType 2048)) [1; 2] c.
Proof.
  apply explicit_hints_ignore_probes; [done|..].
  - intros id. unfold plugin_for_route. simpl.
    destruct (routes sample_engine !! id); simpl; [|constructor].
    by destruct (plugins sample_engine !! _); constructor.
  - intros n. unfold plugin_by_name. simpl.
    destruct (by_name sample_engine !! n); simpl; [|constructor].
    by destruct (plugins sample_engine !! _); constructor.
Defined.

Lemma diagnose_unknown_sound_witness :
  let c := mkCtx [mkLayer "net" 0 2 []] DFull sample_meta in
  exists d, diagnose_unknown sample_engine Stop_UnknownHint [7; 8] c = Some d /\
    diag_near_misses d = [("guess"%string, 55)] /\ blen (sample d) = 2.
Proof.
  intros c. destruct (diagnose_unknown sample_engine Stop_UnknownHint [7; 8] c) as [d|] eqn:H;
    [|by vm_compute in H].
  exists d. pose proof (diagnose_unknown_sound _ _ _ _ _ H) as (_ & _ & _ & _ & Hl).
  split_and!; [done| |exact Hl]. vm_compute in H. by injection H as <-.
Defined.
