(* ===== verification/Parser.v ===== *)
(** * The lazy layer iterator and entry resolution

    Models [crates/pktflow-core/src/parser.rs].  [LayerIter] is a state
    record; [next] is one [Iterator::next] call, returning the yielded step
    (if any) and the state after it; [into_packet] drains it.  [Engine::layers]
    panics on an unknown forced entry: [layers_of] returns [None] there. *)

From S2P Require Import Prelude Values Bytes Types Samples Engine Router.

Record LayerStep := mkStep {
  record : LayerRecord;
  payload : list Z;
  via_heuristic : bool;
}.

Record LayerIter := mkIter {
  engine : Engine;
  bytes : list Z;
  it_meta : PacketMeta;
  opts : ParseOpts;
  records : list LayerRecord;
  cursor : Z;
  pending : option Hint;
  started : bool;
  it_stop : option StopReason;
  it_unknown : option UnknownDiagnostics;
}.

(** Entry precedence: forced entry, link-type route, opt-in heuristics. *)
Definition resolve_entry (e : Engine) (b : list Z) (c : ParseCtx) (o : ParseOpts)
    (link : Z) : StepOutcome :=
  match b with
  | [] => Step_Stop Stop_Complete
  | _ =>
      match entry o with
      | Some n =>
          match plugin_by_name e n with
          | Some p => dispatch_explicit p b c
          | None => Step_Stop Stop_PluginError
          end
      | None =>
          let id := LinkType link in
          match plugin_for_route e id with
          | Some p => dispatch_explicit p b c
          | None =>
              if allow_entry_heuristics o
              then match heuristic_fallback e b c with
                   | Some (proto, parsed) => Step_Layer proto parsed true
                   | None => Step_Stop Stop_UnknownHint
                   end
              else Step_Stop (Stop_UnclaimedRoute id)
          end
      end
  end.

(** [Engine::layers]; [None] is its panic. *)
Definition layers_of (e : Engine) (b : list Z) (m : PacketMeta) (o : ParseOpts)
    : option LayerIter :=
  let it := mkIter e b m o [] 0 None false None None in
  match entry o with
  | Some n => match plugin_by_name e n with Some _ => Some it | None => None end
  | None => Some it
  end.

Definition stop_at (it : LayerIter) (s : StopReason) (pend : option Hint) (st : bool)
    (u : option UnknownDiagnostics) : LayerIter :=
  mkIter (engine it) (bytes it) (it_meta it) (opts it) (records it) (cursor it) pend st (Some s) u.

(** One [Iterator::next] call. *)
Definition next (it : LayerIter) : option LayerStep * LayerIter :=
  match it_stop it with
  | Some _ => (None, it)
  | None =>
      let remaining := slice_from (bytes it) (cursor it) in
      if (max_layers (opts it) <=? length (records it))%nat then
        (None, stop_at it (match remaining with [] => Stop_Complete | _ => Stop_DepthCap end)
                 (pending it) (started it) (it_unknown it))
      else
        let c := mkCtx (records it) (effective_depth (opts it)) (it_meta it) in
        let via_resolve_next := started it in
        let outcome :=
          if started it then
            match pending it with
            | None => None
            | Some hint => Some (resolve_next (engine it) hint remaining c)
            end
          else Some (resolve_entry (engine it) remaining c (opts it) (link_type (it_meta it))) in
        match outcome with
        | None => (None, stop_at it Stop_PluginError None (started it) (it_unknown it))
        | Some (Step_Layer proto parsed via) =>
            let rec := mkLayer proto (cursor it) (pl_header_len parsed) (pl_fields parsed) in
            let cursor' := cursor it + pl_header_len parsed in
            (Some (mkStep rec (slice_from (bytes it) cursor') via),
             mkIter (engine it) (bytes it) (it_meta it) (opts it) (records it ++ [rec]) cursor'
               (Some (pl_hint parsed)) true None (it_unknown it))
        | Some (Step_Stop reason) =>
            let u := if via_resolve_next && opt_diagnose_unknown (opts it)
                     then diagnose_unknown (engine it) reason remaining c
                     else it_unknown it in
            (None, stop_at it reason None true u)
        end
  end.

(** [while self.next().is_some() {}]: the layer cap bounds the rounds. *)
Definition drain_body (it : LayerIter) : ctl LayerIter :=
  match next it with
  | (Some _, it') => Again it'
  | (None, it') => Done it'
  end.

Definition drain (it : LayerIter) : LayerIter :=
  run_loop drain_body (S (max_layers (opts it))) it.

Definition packet_of (it : LayerIter) (m : PacketMeta) : DissectedPacket :=
  mkPacket m (records it) (default Stop_Complete (it_stop it))
    (sat_sub (blen (bytes it)) (cursor it)) (it_unknown it).

Definition into_packet (it : LayerIter) (m : PacketMeta) : DissectedPacket :=
  packet_of (drain it) m.

Definition dissect (e : Engine) (b : list Z) (m : PacketMeta) (o : ParseOpts)
    : option DissectedPacket :=
  it ← layers_of e b m o; Some (into_packet it m).

(** ** What a dissection stack is

    [walk e b d m ls cur]: [ls] is a stack of layers the engine can produce
    from [b] - each starts where the previous one ended, was parsed there by a
    registered plugin that saw exactly the layers before it at depth [d] - and
    [cur] is the offset after the last header. *)

Inductive walk (e : Engine) (b : list Z) (d : Depth) (m : PacketMeta)
    : list LayerRecord -> Z -> Prop :=
  | walk_nil : walk e b d m [] 0
  | walk_snoc ls cur proto parsed :
      walk e b d m ls cur ->
      parsed_by e (slice_from b cur) (mkCtx ls d m) proto parsed ->
      walk e b d m (ls ++ [mkLayer proto cur (pl_header_len parsed) (pl_fields parsed)])
        (cur + pl_header_len parsed).

(** [usize] is unsigned: the one typing fact about an arbitrary plugin. *)
Definition typed_engine (e : Engine) : Prop :=
  forall p b c r, p ∈ plugins e -> parse p b c = Ok r -> 0 <= pl_header_len r.

Lemma walk_bounds e b d m ls cur :
  typed_engine e -> walk e b d m ls cur -> 0 <= cur <= blen b.
Proof.
  intros Ht. induction 1 as [|ls cur proto parsed Hw IH (p & Hp & -> & Hparse & Hlen)].
  - split; [done|apply blen_nonneg].
  - specialize (Ht _ _ _ _ Hp Hparse). rewrite blen_slice_from in Hlen by done. lia.
Qed.

(** Headers tile a prefix of the packet. *)
Fixpoint tiles (start : Z) (ls : list LayerRecord) (stop : Z) : Prop :=
  match ls with
  | [] => start = stop
  | l :: ls' => offset l = start /\ tiles (start + header_len l) ls' stop
  end.

Lemma tiles_snoc start ls mid l :
  tiles start ls mid -> offset l = mid -> tiles start (ls ++ [l]) (mid + header_len l).
Proof.
  revert start. induction ls as [|k ls IH]; intros start; simpl.
  - intros -> ->. done.
  - intros [-> Ht] Hl. split; [done|]. by apply IH.
Qed.

Lemma walk_tiles e b d m ls cur : walk e b d m ls cur -> tiles 0 ls cur.
Proof.
  induction 1 as [|ls cur proto parsed Hw IH _]; [done|].
  change (pl_header_len parsed) with
    (header_len (mkLayer proto cur (pl_header_len parsed) (pl_fields parsed))) at 2.
  by apply tiles_snoc.
Qed.

(** Each prefix of a stack is a stack, and layer [i] was parsed over it. *)
Lemma walk_lookup e b d m ls cur i l :
  walk e b d m ls cur -> ls !! i = Some l ->
  exists parsed, parsed_by e (slice_from b (offset l)) (mkCtx (take i ls) d m) (protocol l) parsed /\
    header_len l = pl_header_len parsed /\ fields l = pl_fields parsed.
Proof.
  induction 1 as [|ls cur proto parsed Hw IH Hp]; [done|]. intros Hl.
  destruct (decide (i < length ls)%nat) as [Hi|Hi].
  - rewrite lookup_app_l in Hl by done. rewrite take_app_le by lia. by apply IH.
  - rewrite lookup_app_r in Hl by lia. apply list_lookup_singleton_Some in Hl as [Hi0 <-].
    assert (i = length ls) as -> by lia. rewrite take_app_length. by exists parsed.
Qed.

(** ** The iterator invariant *)

Record iter_ok (it : LayerIter) : Prop := {
  io_walk : walk (engine it) (bytes it) (effective_depth (opts it)) (it_meta it)
              (records it) (cursor it);
  io_cap : (length (records it) <= max_layers (opts it))%nat;
  io_started : started it = false -> records it = [];
  io_pending : it_stop it = None -> started it = true ->
    is_Some (pending it) /\ records it <> [];
  io_live : it_stop it = None -> it_unknown it = None;
}.

Lemma layers_of_ok e b m o it : layers_of e b m o = Some it -> iter_ok it.
Proof.
  unfold layers_of. intros H.
  assert (it = mkIter e b m o [] 0 None false None None) as -> by (split_matches; done).
  split; simpl; [constructor|lia|done|done|done].
Qed.

Lemma resolve_entry_parsed_by e b c o link proto parsed via :
  resolve_entry e b c o link = Step_Layer proto parsed via -> parsed_by e b c proto parsed.
Proof.
  unfold resolve_entry. destruct b as [|b0 b]; [done|]. set (bs := b0 :: b). intros H.
  destruct (entry o) as [n|].
  - destruct (plugin_by_name e n) eqn:E; [|done].
    apply (dispatch_explicit_layer e) in H as [_ ?]; [done|by eapply plugin_by_name_elem].
  - destruct (plugin_for_route e (LinkType link)) eqn:E.
    + apply (dispatch_explicit_layer e) in H as [_ ?]; [done|by eapply plugin_for_route_elem].
    + destruct (allow_entry_heuristics o); [|done].
      destruct (heuristic_fallback _ _ _) as [[pr pl]|] eqn:Eh; simplify_eq.
      by apply heuristic_fallback_parsed_by.
Qed.

(** One call of [next], case by case: the view every proof below uses. *)
Inductive next_view (it : LayerIter) : option LayerStep * LayerIter -> Prop :=
  | nv_ended s : it_stop it = Some s -> next_view it (None, it)
  | nv_cap s :
      it_stop it = None -> (max_layers (opts it) <= length (records it))%nat ->
      s = (match slice_from (bytes it) (cursor it) with [] => Stop_Complete | _ => Stop_DepthCap end) ->
      next_view it (None, stop_at it s (pending it) (started it) (it_unknown it))
  | nv_no_hint :
      it_stop it = None -> started it = true -> pending it = None ->
      next_view it (None, stop_at it Stop_PluginError None (started it) (it_unknown it))
  | nv_layer proto parsed via :
      it_stop it = None -> (length (records it) < max_layers (opts it))%nat ->
      parsed_by (engine it) (slice_from (bytes it) (cursor it))
        (mkCtx (records it) (effective_depth (opts it)) (it_meta it)) proto parsed ->
      next_view it
        (Some (mkStep (mkLayer proto (cursor it) (pl_header_len parsed) (pl_fields parsed))
                 (slice_from (bytes it) (cursor it + pl_header_len parsed)) via),
         mkIter (engine it) (bytes it) (it_meta it) (opts it)
           (records it ++ [mkLayer proto (cursor it) (pl_header_len parsed) (pl_fields parsed)])
           (cursor it + pl_header_len parsed) (Some (pl_hint parsed)) true None (it_unknown it))
  | nv_entry_stop s :
      it_stop it = None -> started it = false -> (length (records it) < max_layers (opts it))%nat ->
      resolve_entry (engine it) (slice_from (bytes it) (cursor it))
        (mkCtx (records it) (effective_depth (opts it)) (it_meta it)) (opts it)
        (link_type (it_meta it)) = Step_Stop s ->
      next_view it (None, stop_at it s None true (it_unknown it))
  | nv_stop s hint :
      it_stop it = None -> started it = true -> pending it = Some hint ->
      (length (records it) < max_layers (opts it))%nat ->
      resolve_next (engine it) hint (slice_from (bytes it) (cursor it))
        (mkCtx (records it) (effective_depth (opts it)) (it_meta it)) = Step_Stop s ->
      next_view it (None, stop_at it s None true
        (if opt_diagnose_unknown (opts it)
         then diagnose_unknown (engine it) s (slice_from (bytes it) (cursor it))
                (mkCtx (records it) (effective_depth (opts it)) (it_meta it))
         else it_unknown it)).

Lemma next_viewP it : next_view it (next it).
Proof.
  unfold next. destruct (it_stop it) as [s|] eqn:Es; [by eapply nv_ended|].
  destruct (Nat.leb_spec (max_layers (opts it)) (length (records it))) as [Hcap|Hcap].
  { by apply nv_cap. }
  destruct (started it) eqn:Est.
  - destruct (pending it) as [hint|] eqn:Ep.
    + destruct (resolve_next _ hint _ _) as [proto parsed via|s] eqn:Er.
      * apply nv_layer; [done|done|]. by apply resolve_next_parsed_by in Er as [? _].
      * by eapply nv_stop.
    + rewrite <- Est at 1. by apply nv_no_hint.
  - destruct (resolve_entry _ _ _ _ _) as [proto parsed via|s] eqn:Er.
    + apply nv_layer; [done|done|]. by eapply resolve_entry_parsed_by.
    + by eapply nv_entry_stop.
Qed.

Lemma next_ok it : iter_ok it -> iter_ok (next it).2.
Proof.
  intros [Hw Hc Hs Hp Hl]. destruct (next_viewP it); simpl.
  - done.
  - by split.
  - by split.
  - split; simpl; try done.
    + by constructor.
    + rewrite length_app. simpl. lia.
    + intros _ _. split; [by eauto|]. by destruct (records it).
    + by intros _; apply Hl.
  - split; done.
  - split; done.
Qed.

(** ** Draining *)

Lemma next_frame it :
  engine (next it).2 = engine it /\ bytes (next it).2 = bytes it /\
  it_meta (next it).2 = it_meta it /\ opts (next it).2 = opts it.
Proof. by destruct (next_viewP it). Qed.

Lemma next_None_ended it : (next it).1 = None -> is_Some (it_stop (next it).2).
Proof. destruct (next_viewP it); simpl; by eauto. Qed.

Definition iter_measure (it : LayerIter) : nat := max_layers (opts it) - length (records it).

Lemma drain_body_decreases it it' :
  drain_body it = Again it' -> (iter_measure it' < iter_measure it)%nat.
Proof.
  unfold drain_body, iter_measure. destruct (next_viewP it); intros; simplify_eq/=.
  rewrite length_app. simpl. lia.
Qed.

(** The bound of [drain] is enough whatever the iterator's state: the loop
    always leaves by exhausting the iterator. *)
Lemma drain_total it :
  exists it', loop drain_body (S (max_layers (opts it))) it = Some it' /\ drain it = it'.
Proof.
  destruct (loop_total drain_body iter_measure (S (max_layers (opts it))) it) as [it' H].
  - apply drain_body_decreases.
  - unfold iter_measure. lia.
  - exists it'. split; [done|]. unfold drain, run_loop. by rewrite H.
Qed.

Lemma loop_more {S} (body : S -> ctl S) f1 f2 s s' :
  (f1 <= f2)%nat -> loop body f1 s = Some s' -> loop body f2 s = Some s'.
Proof.
  revert f2 s. induction f1 as [|f1 IH]; intros [|f2] s Hf H; try done; [lia|].
  simpl in *. destruct (body s); [|done]. apply IH; [lia|done].
Qed.

Lemma drain_next it : drain it = match next it with
                                 | (Some _, it') => drain it'
                                 | (None, it') => it'
                                 end.
Proof.
  destruct (drain_total it) as (it' & H & ->). simpl in H. unfold drain_body in H at 1.
  pose proof (next_frame it) as (_ & _ & _ & Ho).
  destruct (next it) as [[st|] it1] eqn:E; [|by simplify_eq]. simpl in Ho.
  destruct (drain_total it1) as (it2 & H2 & ->). rewrite Ho in H2.
  apply (loop_more _ _ (S (max_layers (opts it)))) in H; [|lia]. congruence.
Qed.

Lemma drain_invariant (I : LayerIter -> Prop) it :
  (forall it, I it -> I (next it).2) -> I it -> I (drain it).
Proof.
  intros HI H0. unfold drain. apply run_loop_inv; [| |done]; unfold drain_body;
    intros s1 s2 H1; specialize (HI s1 H1); destruct (next s1) as [[?|] ?];
    intros; simplify_eq/=; done.
Qed.

Lemma drain_ok it : iter_ok it -> iter_ok (drain it).
Proof. apply drain_invariant, next_ok. Qed.

Lemma drain_frame it :
  engine (drain it) = engine it /\ bytes (drain it) = bytes it /\
  it_meta (drain it) = it_meta it /\ opts (drain it) = opts it.
Proof.
  apply (drain_invariant (fun it' => engine it' = engine it /\ bytes it' = bytes it /\
    it_meta it' = it_meta it /\ opts it' = opts it)); [|done].
  intros it1 (<- & <- & <- & <-). apply next_frame.
Qed.

Lemma drain_ended it : is_Some (it_stop (drain it)).
Proof.
  destruct (drain_total it) as (it' & H & ->).
  apply (loop_exit _ (fun _ => True)) in H as (s0 & _ & Hd); [|done|done].
  unfold drain_body in Hd. pose proof (next_None_ended s0) as Hn.
  destruct (next s0) as [[?|] s1]; simplify_eq/=. by apply Hn.
Qed.

(** The iterator that [dissect] drains. *)
Lemma dissect_inv e b m o pkt :
  dissect e b m o = Some pkt ->
  exists it, layers_of e b m o = Some it /\ iter_ok (drain it) /\ pkt = packet_of (drain it) m /\
    engine (drain it) = e /\ bytes (drain it) = b /\ it_meta (drain it) = m /\ opts (drain it) = o.
Proof.
  unfold dissect. intros H. apply bind_Some in H as (it & Hit & H). simplify_eq.
  exists it. pose proof (drain_frame it) as (-> & -> & -> & ->).
  pose proof (layers_of_ok _ _ _ _ _ Hit) as Hok.
  assert (engine it = e /\ bytes it = b /\ it_meta it = m /\ opts it = o) as (-> & -> & -> & ->).
  { unfold layers_of in Hit. split_matches; done. }
  split_and!; try done. by apply drain_ok.
Qed.

(** ** How an iteration ends *)

(** What the recorded stop says about the state it was recorded in. *)
Definition stop_meaning (it : LayerIter) (s : StopReason) : Prop :=
  (s = Stop_Complete <-> slice_from (bytes it) (cursor it) = []) /\
  (s = Stop_DepthCap -> length (records it) = max_layers (opts it)) /\
  (is_Some (it_unknown it) <->
   opt_diagnose_unknown (opts it) = true /\ stop_class s = UnknownPayload /\ records it <> []).

Definition iter_ended_ok (it : LayerIter) : Prop :=
  iter_ok it /\ forall s, it_stop it = Some s -> stop_meaning it s.

Lemma resolve_entry_complete e b c o link s :
  resolve_entry e b c o link = Step_Stop s ->
  (s = Stop_Complete <-> b = []) /\ s <> Stop_DepthCap.
Proof.
  unfold resolve_entry. destruct b as [|b0 b]; [by intros; simplify_eq|]. intros H.
  assert (s <> Stop_Complete /\ s <> Stop_DepthCap) as [? ?]; [|by split; [split|]].
  assert (forall p, dispatch_explicit p (b0 :: b) c = Step_Stop s ->
    s <> Stop_Complete /\ s <> Stop_DepthCap) as Hd.
  { intros p. unfold dispatch_explicit, route_failure.
    destruct (parse p _ c) as [r|[|]]; [destruct (header_len_ok r _)|..]; intros; by simplify_eq. }
  destruct (entry o); [destruct (plugin_by_name _ _)|destruct (plugin_for_route _ _)];
    [by eapply Hd|by simplify_eq|by eapply Hd|].
  destruct (allow_entry_heuristics o); [|by simplify_eq].
  by destruct (heuristic_fallback _ _ _) as [[? ?]|]; simplify_eq.
Qed.

Lemma resolve_next_complete e h b c s :
  resolve_next e h b c = Step_Stop s ->
  (s = Stop_Complete <-> b = []) /\ s <> Stop_DepthCap.
Proof.
  unfold resolve_next. destruct b as [|b0 b]; [by intros; simplify_eq|]. intros H.
  assert (s <> Stop_Complete /\ s <> Stop_DepthCap) as [? ?]; [|by split; [split|]].
  destruct h as [id|ids|n| |].
  - destruct (plugin_for_route e id); [|by simplify_eq].
    unfold dispatch_explicit, route_failure in H.
    destruct (parse _ _ c) as [r|[|]]; [destruct (header_len_ok r _)|..]; by simplify_eq.
  - destruct (omap _ ids); [by destruct ids; simplify_eq|].
    by destruct (first_parsing _ _ _) as [[? ?]|]; simplify_eq.
  - destruct (plugin_by_name e n); [|by simplify_eq].
    by destruct (attempt _ _ _) as [[? ?]|]; simplify_eq.
  - by destruct (heuristic_fallback _ _ _) as [[? ?]|]; simplify_eq.
  - by simplify_eq.
Qed.

Lemma diagnose_unknown_is_Some e s b c :
  ctx_layers c <> [] -> is_Some (diagnose_unknown e s b c) <-> stop_class s = UnknownPayload.
Proof.
  intros Hl. assert (exists l, ctx_prev c = Some l) as [l Hp].
  { unfold ctx_prev. destruct (ctx_layers c) as [|x k _] using rev_ind; [done|].
    exists x. by rewrite last_snoc. }
  unfold diagnose_unknown. destruct s; simpl; rewrite ?Hp; simpl;
    split; try done; try (intros _; by eauto); by intros [? ?].
Qed.

Lemma next_ended_ok it : iter_ended_ok it -> iter_ended_ok (next it).2.
Proof.
  intros [Hok Hst]. split; [by apply next_ok|].
  pose proof Hok as [Hw Hc Hs Hp Hl].
  destruct (next_viewP it) as [s Hs0|s Hs0 Hcap ->|Hs0 Hstart Hpend|proto parsed via Hs0 Hcap Hpar
    |s Hs0 Hstart Hcap Hr|s hint Hs0 Hstart Hpend Hcap Hr]; simpl; try done;
    intros s' Hs'; simpl in Hs'; simplify_eq; unfold stop_meaning; simpl.
  - rewrite Hl by done. destruct (slice_from _ _); (split; [done|]); (split; [lia|]);
      split; try (by intros [? ?]); by intros (_ & ? & _).
  - destruct (Hp Hs0 Hstart) as [[? Hx] _]. by rewrite Hpend in Hx.
  - apply resolve_entry_complete in Hr as [? ?]. split; [done|]. split; [done|].
    rewrite Hl, Hs by done. split; [by intros [? ?]|by intros (_ & _ & ?)].
  - pose proof (resolve_next_complete _ _ _ _ _ Hr) as [? ?]. split; [done|]. split; [done|].
    destruct (Hp Hs0 Hstart) as [_ Hne].
    destruct (opt_diagnose_unknown (opts it)).
    + rewrite diagnose_unknown_is_Some by done. tauto.
    + rewrite Hl by done. split; [by intros [? ?]|by intros [? _]].
Qed.

Lemma layers_of_ended_ok e b m o it : layers_of e b m o = Some it -> iter_ended_ok it.
Proof.
  intros H. split; [by eapply layers_of_ok|]. unfold layers_of in H. intros s Hs.
  by destruct (entry o); [case_match|]; simplify_eq.
Qed.

Lemma dissect_ended e b m o pkt :
  dissect e b m o = Some pkt ->
  exists it s, engine it = e /\ bytes it = b /\ it_meta it = m /\ opts it = o /\
    iter_ok it /\ it_stop it = Some s /\ stop_meaning it s /\ pkt = packet_of it m.
Proof.
  intros H. pose proof (dissect_inv _ _ _ _ _ H) as (it & Hit & Hok & Hpkt & ? & ? & ? & ?).
  destruct (drain_ended it) as [s Hs].
  destruct (drain_invariant iter_ended_ok it next_ended_ok (layers_of_ended_ok _ _ _ _ _ Hit))
    as [_ Hm].
  exists (drain it), s. split_and!; try done. by apply Hm.
Qed.

(** ** Pulling steps one at a time *)

(** The state after [k] calls of [next]. *)
Definition pull (k : nat) (it : LayerIter) : LayerIter := Nat.iter k (fun it => (next it).2) it.

Lemma drain_pull k it : drain (pull k it) = drain it.
Proof.
  induction k as [|k IH]; [done|]. change (pull (S k) it) with (next (pull k it)).2.
  rewrite <- IH, (drain_next (pull k it)).
  pose proof (next_viewP (pull k it)) as Hv. destruct (next (pull k it)) as [[st|] it'] eqn:E; [done|].
  simpl. rewrite drain_next.
  assert (next it' = (None, it')) as ->; [|done].
  pose proof (next_None_ended (pull k it)) as [s Hs]; [by rewrite E|].
  rewrite E in Hs. simpl in Hs. unfold next. by rewrite Hs.
Qed.

(** Layers are only ever appended. *)
Lemma next_records it :
  records (next it).2 =
  records it ++ match (next it).1 with Some st => [record st] | None => [] end.
Proof. destruct (next_viewP it); simpl; by rewrite ?app_nil_r. Qed.

Lemma drain_records it : exists more, records (drain it) = records it ++ more.
Proof.
  apply (drain_invariant (fun it' => exists more, records it' = records it ++ more)).
  - intros it1 [more Hm]. rewrite next_records, Hm, <- app_assoc. by eexists.
  - exists []. by rewrite app_nil_r.
Qed.

Lemma next_step_payload it st :
  (next it).1 = Some st ->
  payload st = slice_from (bytes it) (offset (record st) + header_len (record st)).
Proof. destruct (next_viewP it); simpl; intros; by simplify_eq. Qed.

Lemma next_after_None it : (next it).1 = None -> next (next it).2 = (None, (next it).2).
Proof. intros H. apply next_None_ended in H as [s Hs]. unfold next at 1. by rewrite Hs. Qed.

Lemma pull_records_None k it :
  records it = [] -> (next (pull k it)).1 = None -> exists j, (j <= k)%nat /\ length (records (pull k it)) = j.
Proof.
  intros H0 _. exists (length (records (pull k it))). split; [|done].
  induction k as [|k IH]; [simpl; by rewrite H0|].
  change (pull (S k) it) with (next (pull k it)).2. rewrite next_records, length_app.
  destruct (next (pull k it)).1; simpl; lia.
Qed.

Lemma pull_records_Some k it :
  records it = [] -> is_Some (next (pull k it)).1 -> length (records (pull k it)) = k.
Proof.
  intros H0. induction k as [|k IH]; [simpl; by rewrite H0|]. intros Hk.
  change (pull (S k) it) with (next (pull k it)).2 in *. rewrite next_records, length_app.
  destruct (next (pull k it)).1 as [st|] eqn:E.
  - rewrite IH by eauto. simpl. lia.
  - rewrite (next_after_None _ E) in Hk. by destruct Hk.
Qed.

(** ** Properties *)

(** C36: Dissection always produces a packet: it fails only by the documented panic
    on a forced entry no plugin is registered under, and the layer cap bounds
    the iteration whatever the plugins do. *)
Theorem dissect_total e b m o :
  (dissect e b m o = None <-> exists n, entry o = Some n /\ plugin_by_name e n = None) /\
  (forall it, layers_of e b m o = Some it ->
     exists it', loop drain_body (S (max_layers o)) it = Some it' /\ is_Some (it_stop it') /\
       dissect e b m o = Some (packet_of it' m)).
Proof.
  split.
  - unfold dissect, layers_of. destruct (entry o) as [n|]; [|by split; [|intros (? & ? & _)]].
    destruct (plugin_by_name e n) eqn:E; simpl; split; try done; [|by eauto].
    intros (? & ? & ?). by simplify_eq.
  - intros it Hit. destruct (drain_total it) as (it' & Hl & Hd). exists it'.
    assert (opts it = o) as Ho.
    { unfold layers_of in Hit. by destruct (entry o); [destruct (plugin_by_name _ _)|]; simplify_eq. }
    rewrite Ho in Hl. split_and!; [done|rewrite <- Hd; apply drain_ended|].
    unfold dissect. rewrite Hit. simpl. unfold into_packet. by rewrite Hd.
Qed.

Lemma dissect_total_witness :
  dissect sample_engine [1; 2; 3; 4; 5] sample_meta
    (mkParseOpts DFull true 32 (Some "nope"%string) false false) = None.
Proof.
  apply (proj2 (proj1 (dissect_total sample_engine [1; 2; 3; 4; 5] sample_meta
    (mkParseOpts DFull true 32 (Some "nope"%string) false false)))).
  exists "nope"%string. split; [reflexivity|by vm_compute].
Defined.

(** C2: The layers of a packet tile it from offset 0 without gap or overlap, the
    bytes beyond the last header are exactly [opaque_len], the layer cap holds,
    and the stop reason is [Complete] exactly when nothing is left and
    [DepthCap] only at the cap. *)
Theorem dissect_tiles e b m o pkt :
  typed_engine e -> dissect e b m o = Some pkt ->
  meta pkt = m /\
  tiles 0 (layers pkt) (blen b - opaque_len pkt) /\
  0 <= opaque_len pkt <= blen b /\
  (length (layers pkt) <= max_layers o)%nat /\
  (stop pkt = Stop_Complete <-> opaque_len pkt = 0) /\
  (stop pkt = Stop_DepthCap -> length (layers pkt) = max_layers o).
Proof.
  intros Ht H. apply dissect_ended in H as (it & s & <- & <- & <- & <- & [Hw Hc _ _ _] & Hs & Hm & ->).
  pose proof (walk_bounds _ _ _ _ _ _ Ht Hw) as Hb. unfold packet_of, sat_sub. simpl.
  rewrite Hs. simpl. destruct Hm as (Hcomp & Hcap & _).
  split_and!; [done| |lia|lia|done| |done].
  - replace (blen _ - _) with (cursor it) by lia. by eapply walk_tiles.
  - rewrite Hcomp. split.
    + intros Hn. assert (blen (slice_from (bytes it) (cursor it)) = 0) as Hl by by rewrite Hn.
      rewrite blen_slice_from in Hl by done. lia.
    + intros Hl. apply blen_zero. rewrite blen_slice_from by done. lia.
Qed.

Lemma dissect_layer_source e b m o pkt i l :
  dissect e b m o = Some pkt -> layers pkt !! i = Some l ->
  exists p parsed, p ∈ plugins e /\ name p = protocol l /\
    parse p (slice_from b (offset l)) (mkCtx (take i (layers pkt)) (effective_depth o) m) = Ok parsed /\
    header_len l = pl_header_len parsed /\ fields l = pl_fields parsed /\
    pl_header_len parsed <= blen (slice_from b (offset l)).
Proof.
  intros H Hl. apply dissect_ended in H as (it & s & <- & <- & <- & <- & [Hw _ _ _ _] & _ & _ & ->).
  simpl in *. destruct (walk_lookup _ _ _ _ _ _ _ _ Hw Hl) as (parsed & (p & ? & ? & ? & ?) & ? & ?).
  exists p, parsed. done.
Qed.

(** Every layer is the result of a registered plugin's parse at that layer's
    offset, in a context holding exactly the layers before it and the
    effective depth: nothing is invented and nothing later is visible. *)
Theorem dissect_provenance e b m o pkt i l :
  dissect e b m o = Some pkt -> layers pkt !! i = Some l ->
  exists p parsed, p ∈ plugins e /\ name p = protocol l /\
    parse p (slice_from b (offset l)) (mkCtx (take i (layers pkt)) (effective_depth o) m) = Ok parsed /\
    header_len l = pl_header_len parsed /\ fields l = pl_fields parsed /\
    pl_header_len parsed <= blen (slice_from b (offset l)).
Proof. apply dissect_layer_source. Qed.

(** Laziness is invisible: after any number of [next] calls, draining gives
    the packet [dissect] gives; the [k]-th call yields the packet's [k]-th
    layer with the bytes after it, and once exhausted the iterator stays so. *)
Theorem lazy_eager_agree e b m o it k pkt :
  layers_of e b m o = Some it -> dissect e b m o = Some pkt ->
  into_packet (pull k it) m = pkt /\
  match next (pull k it) with
  | (Some st, _) =>
      layers pkt !! k = Some (record st) /\
      payload st = slice_from b (offset (record st) + header_len (record st))
  | (None, it') => (length (layers pkt) <= k)%nat /\ next it' = (None, it')
  end.
Proof.
  intros Hit Hd. unfold dissect in Hd. rewrite Hit in Hd. simpl in Hd. injection Hd as <-.
  assert (bytes it = b /\ records it = []) as [Hb Hr].
  { unfold layers_of in Hit. by destruct (entry o); [destruct (plugin_by_name _ _)|]; simplify_eq. }
  unfold into_packet. split; [by rewrite drain_pull|].
  pose proof (next_records (pull k it)) as Hrec.
  assert (records (drain it) = records (drain (next (pull k it)).2)) as Hdr.
  { change (next (pull k it)).2 with (pull (S k) it). by rewrite drain_pull. }
  simpl. destruct (next (pull k it)) as [[st|] it'] eqn:E; simpl in *.
  - assert (bytes (pull k it) = b) as Hbk.
    { clear -Hb. induction k as [|k IH]; [done|].
      change (pull (S k) it) with (next (pull k it)).2. by rewrite (proj1 (proj2 (next_frame _))). }
    assert (length (records (pull k it)) = k) as Hk.
    { apply pull_records_Some; [done|]. rewrite E. by eauto. }
    split.
    + destruct (drain_records it') as [more Hm]. rewrite Hdr, Hm, Hrec, <- app_assoc.
      rewrite lookup_app_r by lia. by rewrite Hk, Nat.sub_diag.
    + rewrite <- Hbk. apply next_step_payload. by rewrite E.
  - split.
    + assert (drain it' = it') as Hdi.
      { rewrite drain_next. pose proof (next_after_None (pull k it)) as Hn. rewrite E in Hn.
        simpl in Hn. by rewrite Hn. }
      rewrite Hdr, Hdi, Hrec, app_nil_r.
      destruct (pull_records_None k it) as (j & ? & ->); [done|by rewrite E|lia].
    + pose proof (next_after_None (pull k it)) as Hn. rewrite E in Hn. by apply Hn.
Qed.

(** Diagnostics are attached exactly when they were asked for, dissection
    stopped on unknown payload, and at least one layer precedes it. *)
Theorem dissect_unknown_iff e b m o pkt :
  dissect e b m o = Some pkt ->
  is_Some (unknown pkt) <->
  opt_diagnose_unknown o = true /\ stop_class (stop pkt) = UnknownPayload /\ layers pkt <> [].
Proof.
  intros H. apply dissect_ended in H as (it & s & <- & <- & <- & <- & _ & Hs & (_ & _ & Hu) & ->).
  simpl. by rewrite Hs.
Qed.

Definition sample_opts : ParseOpts := mkParseOpts DFull true 32 None false true.
Definition sample_bytes : list Z := [1; 2; 3; 4; 9; 9].
Definition sample_packet : DissectedPacket :=
  default (mkPacket sample_meta [] Stop_Complete 0 None)
    (dissect sample_engine sample_bytes sample_meta sample_opts).

Lemma sample_packet_dissect :
  dissect sample_engine sample_bytes sample_meta sample_opts = Some sample_packet.
Proof. by vm_compute. Qed.

Lemma sample_typed : typed_engine sample_engine.
Proof.
  intros p b c r Hp. change (plugins sample_engine) with [sample_link; sample_net; sample_guess] in Hp.
  rewrite !elem_of_cons, elem_of_nil in Hp. destruct Hp as [->|[->|[->|[]]]]; simpl;
    case_match; intros; simplify_eq; simpl; lia.
Qed.

Lemma dissect_tiles_witness :
  tiles 0 (layers sample_packet) 4 /\ opaque_len sample_packet = 2 /\
  stop sample_packet = Stop_UnclaimedRoute (IpProtocol 17).
Proof.
  pose proof (dissect_tiles _ _ _ _ _ sample_typed sample_packet_dissect) as (_ & Htile & _).
  split_and!; [exact Htile|by vm_compute|by vm_compute].
Defined.

Lemma dissect_provenance_witness :
  exists p parsed, name p = "net"%string /\ parse p [3; 4; 9; 9]
    (mkCtx (take 1 (layers sample_packet)) DFull sample_meta) = Ok parsed.
Proof.
  destruct (dissect_provenance sample_engine sample_bytes sample_meta sample_opts sample_packet 1
    (default (mkLayer "" 0 0 []) (layers sample_packet !! 1%nat)) sample_packet_dissect)
    as (p & parsed & _ & Hn & Hp & _); [by vm_compute|].
  exists p, parsed. split; [rewrite Hn; by vm_compute|exact Hp].
Defined.

Lemma lazy_eager_agree_witness :
  exists it, layers_of sample_engine sample_bytes sample_meta sample_opts = Some it /\
    into_packet (pull 1 it) sample_meta = sample_packet.
Proof.
  eexists. split; [reflexivity|].
  exact (proj1 (lazy_eager_agree sample_engine sample_bytes sample_meta sample_opts _ 1
    sample_packet eq_refl sample_packet_dissect)).
Defined.

(** An entry-tier stop carries no diagnostics even when they are asked for. *)
Lemma dissect_unknown_iff_witness :
  exists pkt, dissect sample_engine [1; 2] (mkMeta 0 2 2 77) sample_opts = Some pkt /\
    stop_class (stop pkt) = UnknownPayload /\ unknown pkt = None.
Proof.
  destruct (dissect sample_engine [1; 2] (mkMeta 0 2 2 77) sample_opts) as [pkt|] eqn:H;
    [|by vm_compute in H].
  pose proof (dissect_unknown_iff _ _ _ _ _ H) as Hiff. exists pkt.
  assert (stop_class (stop pkt) = UnknownPayload /\ layers pkt = []) as [? Hl].
  { vm_compute in H. by injection H as <-. }
  split_and!; [done|done|]. apply eq_None_not_Some. rewrite Hiff. by intros (_ & _ & ?).
Defined.
