(* ===== verification/Probes.v ===== *)
(** * The probes

    What the heuristic fallback relies on: a modelled plugin whose probe
    recognises a buffer also parses it.  Covers the probes of [ipv4.rs],
    [ipv6.rs], [tcp.rs] and [template.rs]. *)

From S2P Require Import Prelude Values Bytes Types Contract PlugKit.
From S2P Require Import PlugNet PlugTransport PlugApp PlugReads Samples.
From S2P Require Import Engine Router.

(** The plugins that can be reached without an explicit route, with what has
    to hold of the bytes beyond the probe's own checks: the IPv6 probe looks
    at the fixed header only. *)
Inductive recognises : LayerPlugin -> list Z -> Prop :=
  | rec_ipv4 bytes s : Ipv4.probe bytes = Some s -> recognises Ipv4.plugin bytes
  | rec_ipv6 bytes s nh :
      Ipv6.probe bytes = Some s -> byte_at bytes 6 = Some nh -> Ipv6.is_extension nh = false ->
      recognises Ipv6.plugin bytes
  | rec_tcp bytes s : Tcp.probe bytes = Some s -> recognises Tcp.plugin bytes
  | rec_template bytes s : Template.probe bytes = Some s -> recognises Template.plugin bytes.

Lemma get_u16_Some bytes i w :
  get_u16 bytes i = Some w ->
  exists hi lo, byte_at bytes i = Some hi /\ byte_at bytes (i + 1) = Some lo /\ w = be_value [hi; lo].
Proof.
  unfold get_u16. destruct (byte_at bytes i) as [hi|]; [|done].
  cbn [mbind option_bind]. destruct (byte_at bytes (i + 1)) as [lo|]; [|done].
  cbn [mbind option_bind]. intros; simplify_eq. by exists hi, lo.
Qed.

Lemma ipv4_reads bytes ctx :
  (exists first, head bytes = Some first /\ Z.shiftr first 4 = 4 /\ 5 <= Z.land first 0x0F /\
     Z.land first 0x0F * 4 <= blen bytes) ->
  exists l t, reads (Ipv4.header ctx) bytes l t.
Proof.
  intros (first & Hf & Hv & Hi & Hl).
  assert (20 <= blen bytes) as H20 by lia.
  name_bytes 20%nat bytes H20. simplify_eq/=. unfold Ipv4.header. do 2 eexists.
  read_next. rewrite Hv. cbn [Z.eqb Pos.eqb negb]. cbv zeta.
  rewrite (proj2 (Z.ltb_ge _ _)) by done. repeat read_next.
  eapply reads_bind; [by apply (reads_take 4 [_; _; _; _])|cbv beta].
  eapply reads_bind; [by apply (reads_take 4 [_; _; _; _])|cbv beta].
  eapply reads_bind.
  { apply reads_prefix. unfold blen in *. simpl in Hl. lia. }
  repeat read_next.
Qed.

(** The version nibble of a [u32] is its first byte's. *)
Lemma top_nibble a b c d :
  is_byte a -> is_byte b -> is_byte c -> is_byte d ->
  Z.shiftr (be_value [a; b; c; d]) 28 = Z.shiftr a 4.
Proof.
  unfold is_byte. intros Ha Hb Hc Hd.
  change (be_value [a; b; c; d]) with ((((0 * 256 + a) * 256 + b) * 256 + c) * 256 + d).
  rewrite !Z.shiftr_div_pow2 by lia. change (2 ^ 4) with 16. change (2 ^ 28) with (16777216 * 16).
  rewrite <- Z.div_div by lia. f_equal.
  symmetry. apply (Z.div_unique _ _ _ ((b * 256 + c) * 256 + d)); lia.
Qed.

Lemma ipv6_reads bytes ctx first nh :
  head bytes = Some first -> Z.shiftr first 4 = 6 -> bytes_ok bytes -> 40 <= blen bytes ->
  byte_at bytes 6 = Some nh -> Ipv6.is_extension nh = false ->
  exists l t, reads (Ipv6.header ctx) bytes l t.
Proof.
  intros Hf Hv Hok H40 Hb Hn. name_bytes 40%nat bytes H40. simplify_eq/=.
  cbv [byte_at Z.leb Z.compare lookup list_lookup Z.to_nat Pos.to_nat Pos.iter_op Nat.add] in Hb.
  simplify_eq/=. unfold Ipv6.header. do 2 eexists. read_next.
  rewrite !Forall_cons in Hok. rewrite top_nibble by tauto. rewrite Hv.
  cbn [Z.eqb Pos.eqb negb]. repeat read_next.
  eapply reads_bind; [by apply (reads_take 16 [_; _; _; _; _; _; _; _; _; _; _; _; _; _; _; _])|cbv beta].
  eapply reads_bind; [by apply (reads_take 16 [_; _; _; _; _; _; _; _; _; _; _; _; _; _; _; _])|cbv beta].
  eapply reads_bind.
  { unfold Ipv6.MAX_EXT_HEADERS. cbn [Ipv6.extensions Ipv6.next_header]. rewrite Hn. apply reads_ret. }
  repeat read_next.
Qed.

Lemma tcp_reads bytes available ctx offset_flags :
  get_u16 bytes 12 = Some offset_flags -> 5 <= Z.shiftr offset_flags 12 ->
  20 <= blen bytes -> Z.shiftr offset_flags 12 * 4 <= blen bytes ->
  exists l t, reads (Tcp.header available ctx) bytes l t.
Proof.
  intros Ho Hd H20 Hl. name_bytes 20%nat bytes H20.
  cbv [get_u16 byte_at Z.leb Z.compare Z.add Pos.add Pos.succ lookup list_lookup Z.to_nat Pos.to_nat
       Pos.iter_op Nat.add mbind option_bind] in Ho.
  simplify_eq/=. unfold Tcp.header. do 2 eexists. repeat read_next.
  rewrite (proj2 (Z.ltb_ge _ _)) by done. repeat read_next.
  eapply reads_bind.
  { apply reads_prefix. unfold blen in *. simpl in Hl. lia. }
  repeat read_next.
Qed.

Lemma recognises_parses p bytes c :
  recognises p bytes -> bytes_ok bytes -> blen bytes <= usize_max ->
  exists l, parse p bytes c = Ok l.
Proof.
  intros Hr Hok Hb.
  assert (forall m : reader ParseError ParsedLayer, (exists l t, reads m bytes l t) -> exists l, run_reader m bytes = Ok l) as Hrun.
  { intros m (l & t & Hm). exists l. by eapply reads_run. }
  destruct Hr as [bytes s Hp|bytes s nh Hp Hn He|bytes s Hp|bytes s Hp]; apply Hrun.
  - unfold Ipv4.probe in Hp. apply ipv4_reads.
    destruct (head bytes) as [first|]; [|done]. cbn [mbind option_bind] in Hp.
    destruct (negb _ || _) eqn:E1; [done|]. reflect_bools.
    destruct (slice bytes 0 _) as [h|] eqn:Hs; [|done]. apply slice_Some in Hs as (_ & _ & ? & _).
    by exists first.
  - unfold Ipv6.probe in Hp. destruct (head bytes) as [first|] eqn:Hf; [|done].
    cbn [mbind option_bind] in Hp. destruct (negb _ || _) eqn:E1; [done|]. reflect_bools.
    by eapply ipv6_reads.
  - unfold Tcp.probe in Hp. destruct (blen bytes <? 20) eqn:E0; [done|].
    destruct (get_u16 bytes 12) as [w|] eqn:Hw; [|done]. cbn [mbind option_bind] in Hp.
    destruct (negb _ || _) eqn:E1; [done|]. reflect_bools.
    eapply tcp_reads; [done|lia|lia|lia].
  - unfold Template.probe in Hp.
    destruct (run_reader Template.probe_len bytes) as [len|] eqn:Hl; [|done].
    destruct ((8 <=? len) && (len <=? blen bytes)) eqn:E; [|done]. reflect_bools.
    assert (8 <= blen bytes) as H8 by lia. name_bytes 8%nat bytes H8.
    unfold Template.header. do 2 eexists. repeat read_next.
Qed.

(** A probe vouches for bytes its plugin parses: what [ipv4], [tcp] or
    [template] recognise, the heuristic router can dispatch to them, and so
    for [ipv6] when no extension header follows the fixed one. *)
Theorem probes_vouch p bytes c :
  recognises p bytes -> bytes_ok bytes -> blen bytes <= usize_max ->
  exists l, attempt p bytes c = Some (name p, l).
Proof.
  intros Hr Hok Hb. destruct (recognises_parses p bytes c Hr Hok Hb) as [l Hl].
  exists l. unfold attempt. rewrite Hl. unfold header_len_ok.
  assert (Conformant p) as Hc by (destruct Hr; apply _).
  destruct (conf_header_len _ _ _ Hl) as [_ Hle]. by rewrite (proj2 (Z.leb_le _ _) Hle).
Qed.

(** A 20-byte TCP/IPv4 header with its checksum. *)
Definition sample_ipv4 : list Z :=
  [0x45; 0; 0; 20; 0x1C; 0x46; 0x40; 0; 0x40; 6; 0x0A; 0x9C; 10; 0; 0; 1; 10; 0; 0; 2].

Lemma probes_vouch_witness :
  exists l, attempt Ipv4.plugin sample_ipv4 (mkCtx [] DFull sample_meta) = Some ("ipv4"%string, l).
Proof.
  refine (probes_vouch Ipv4.plugin sample_ipv4 (mkCtx [] DFull sample_meta) _ _ _).
  - apply (rec_ipv4 _ 90). by vm_compute.
  - by repeat constructor.
  - by vm_compute.
Defined.
