(* ===== verification/TestkitRound.v ===== *)
(** * Building a packet and dissecting it

    The wire format read back: what [assemble] of the test kit writes layer by
    layer, the engine's iterator takes apart again.  [header_of] is the layer a
    correct dissector owes for a built header; each plugin is proved to return
    it, and the iterator to chain them.

    Then the rest of the kit: the text of a pool's addresses, the conversations of
    the fan-out, and the pcap files written at once or streamed. *)

From S2P Require Import Prelude Values Bytes Types Text Contract PlugKit.
From S2P Require Import PlugReads.
From S2P Require Import PlugLink PlugNet PlugTransport PlugTunnel.
From S2P Require Import Samples Engine Router Parser Checksum Testkit.

(** ** Well-formed stacks of layers *)

(** Field widths of the builder's arguments. *)
Definition layer_typed (l : Layer) : Prop :=
  match l with
  | L_Eth src dst => length src = 6%nat /\ length dst = 6%nat
  | L_Vlan vid tpid => 0 <= vid < 65536 /\ (tpid = 0x8100 \/ tpid = 0x88A8)
  | L_Ipv4 src dst => length src = 4%nat /\ length dst = 4%nat
  | L_Vxlan vni => 0 <= vni < 2 ^ 32
  | L_Tcp sport dport flags seq ack =>
      0 <= sport < 65536 /\ 0 <= dport < 65536 /\ 0 <= flags < 256 /\
      0 <= seq < 2 ^ 32 /\ 0 <= ack < 2 ^ 32
  | L_Udp sport dport => 0 <= sport < 65536 /\ 0 <= dport < 65536
  | L_Gre | L_Payload _ | L_RawNext _ _ => True
  end.

(** A header layer announces the next one by a number or a name the standard
    plugins claim. *)
Definition carries (l next : Layer) : Prop :=
  match l, next with
  | (L_Eth _ _ | L_Vlan _ _ | L_Gre), (L_Vlan _ _ | L_Ipv4 _ _) => True
  | L_Ipv4 _ _, (L_Tcp _ _ _ _ _ | L_Udp _ _ | L_Gre | L_Ipv4 _ _) => True
  | L_Udp _ dport, L_Vxlan _ => dport = 4789
  | L_Vxlan _, L_Eth _ _ => True
  | _, _ => False
  end.

Fixpoint stacked (l : Layer) (hs : list Layer) : Prop :=
  layer_typed l /\
  match hs with
  | [] => True
  | l' :: hs' => carries l l' /\ stacked l' hs'
  end.

(** ** What a header must dissect to *)

Definition proto_of (l : Layer) : ProtocolName :=
  match l with
  | L_Eth _ _ => "ethernet"
  | L_Vlan _ _ => "vlan"
  | L_Ipv4 _ _ => "ipv4"
  | L_Vxlan _ => "vxlan"
  | L_Tcp _ _ _ _ _ => "tcp"
  | L_Udp _ _ => "udp"
  | L_Gre => "gre"
  | L_Payload _ | L_RawNext _ _ => ""
  end.

Definition plugin_of (l : Layer) : LayerPlugin :=
  match l with
  | L_Eth _ _ => Ethernet.plugin
  | L_Vlan _ _ => Vlan.plugin
  | L_Ipv4 _ _ => Ipv4.plugin
  | L_Vxlan _ => Vxlan.plugin
  | L_Tcp _ _ _ _ _ => Tcp.plugin
  | L_Udp _ _ => Udp.plugin
  | _ => Gre.plugin
  end.

Definition len_of (l : Layer) : Z :=
  match l with
  | L_Eth _ _ => 14
  | L_Vlan _ _ | L_Gre => 4
  | L_Ipv4 _ _ | L_Tcp _ _ _ _ _ => 20
  | L_Vxlan _ | L_Udp _ _ => 8
  | L_Payload _ | L_RawNext _ _ => 0
  end.

(** The checksum field the builder stored. *)
Definition stored_checksum (layers : list Layer) (i : nat) (l : Layer) (body : list Z) : Z :=
  default 0 (built ← layer_bytes layers i l body;
             get_u16 built (match l with L_Ipv4 _ _ => 10 | L_Udp _ _ => 6 | _ => 16 end)).

(** All fields, in order, of layer [i] around [body]. *)
Definition fields_of (layers : list Layer) (i : nat) (l : Layer) (body : list Z) : FieldMap.t :=
  let next := layers !! (i + 1)%nat in
  let next_type := from_option ether_type_of 0x9999 next in
  let ck := stored_checksum layers i l body in
  match l with
  | L_Eth src dst => [("src_mac", VBytes src); ("dst_mac", VBytes dst); ("ethertype", VU64 next_type)]
  | L_Vlan vid _ =>
      [("vlan_id", VU64 (Z.land vid 0x0FFF)); ("pcp", VU64 0); ("dei", VBool false);
       ("ethertype", VU64 next_type)]
  | L_Ipv4 src dst =>
      [("src_addr", VBytes src); ("dst_addr", VBytes dst); ("protocol", VU64 (ip_proto_of next));
       ("ttl", VU64 64); ("total_len", VU64 (20 + blen body)); ("flags", VU64 2);
       ("frag_offset", VU64 0); ("ihl", VU64 5); ("dscp", VU64 0); ("ecn", VU64 0);
       ("id", VU64 0); ("checksum", VU64 ck)]
  | L_Vxlan vni => [("vni", VU64 (vni mod 2 ^ 24)); ("flags", VU64 8)]
  | L_Tcp sport dport flags seq ack =>
      [("src_port", VU64 sport); ("dst_port", VU64 dport); ("flags", VU64 flags);
       ("seq", VU64 seq); ("ack", VU64 ack); ("window", VU64 8192); ("data_offset", VU64 5);
       ("checksum", VU64 ck); ("urgent", VU64 0)]
  | L_Udp sport dport =>
      [("src_port", VU64 sport); ("dst_port", VU64 dport); ("length", VU64 (8 + blen body));
       ("checksum", VU64 ck)]
  | L_Gre => [("key", VU64 0); ("flags", VU64 0); ("protocol", VU64 next_type); ("version", VU64 0)]
  | L_Payload _ | L_RawNext _ _ => []
  end%string.

Definition hint_of (layers : list Layer) (i : nat) (l : Layer) (body : list Z) : Hint :=
  let next := layers !! (i + 1)%nat in
  match l with
  | L_Eth _ _ | L_Vlan _ _ | L_Gre => Hint_Route (EtherType (from_option ether_type_of 0x9999 next))
  | L_Ipv4 _ _ => Hint_Route (IpProtocol (ip_proto_of next))
  | L_Vxlan _ => Hint_ByProtocol "ethernet"
  | L_Udp sport dport => Hint_Candidates [UdpPort dport; UdpPort sport]
  | L_Tcp sport dport _ _ _ =>
      match body with
      | [] => Hint_Terminal
      | _ => Hint_Candidates [TcpPort dport; TcpPort sport]
      end
  | L_Payload _ | L_RawNext _ _ => Hint_Terminal
  end.

Definition header_of (layers : list Layer) (i : nat) (l : Layer) (body : list Z) : ParsedLayer :=
  mkParsed (len_of l) (fields_of layers i l body) (hint_of layers i l body).

Definition is_header (l : Layer) : Prop :=
  match l with L_Payload _ | L_RawNext _ _ => False | _ => True end.

(** What follows a header in the stack, as far as its bytes depend on it. *)
Definition next_ok (layers : list Layer) (i : nat) : Prop :=
  match layers !! (i + 1)%nat with Some l => layer_typed l | None => True end /\
  0 <= ip_proto_of (layers !! (i + 1)%nat) < 256.

Lemma ether_type_range o :
  match o with Some l => layer_typed l | None => True end ->
  0x0600 <= from_option ether_type_of 0x9999 o < 65536.
Proof. destruct o as [[]|]; simpl; lia. Qed.

(** ** Each plugin reads its own header *)

(** All depth tiers at [Full]. *)
Lemma insert_at_full c d entries m :
  ctx_depth c = DFull -> insert_at c d entries m = insert_all entries m.
Proof. intros Hd. unfold insert_at. rewrite Hd. by destruct d. Qed.

Section PerLayer.
Context (layers : list Layer) (i : nat) (body : list Z) (c : ParseCtx).
Context (Hd : ctx_depth c = DFull) (Hn : next_ok layers i).

Lemma eth_reads src dst bytes :
  layer_typed (L_Eth src dst) -> layer_bytes layers i (L_Eth src dst) body = Some bytes ->
  reads (Ethernet.header c) bytes (header_of layers i (L_Eth src dst) body) body.
Proof.
  intros [Hs Hdst] H. cbn [layer_bytes] in H. simplify_eq. unfold Ethernet.header.
  destruct Hn as [Hty _]. apply ether_type_range in Hty. unfold header_of, hint_of, fields_of.
  set (t := from_option _ _ _) in *.
  eapply reads_bind; [apply reads_take; unfold blen; lia|cbv beta].
  eapply reads_bind; [apply reads_take; unfold blen; lia|cbv beta].
  read_next. rewrite !insert_at_full by done. unfold Ethernet.MIN_ETHERTYPE.
  rewrite (proj2 (Z.leb_le _ _)) by lia. apply reads_ret.
Qed.

Lemma vlan_reads vid tpid bytes :
  layer_typed (L_Vlan vid tpid) -> layer_bytes layers i (L_Vlan vid tpid) body = Some bytes ->
  reads (Vlan.header c) bytes (header_of layers i (L_Vlan vid tpid) body) body.
Proof.
  intros [Hv _] H. cbn [layer_bytes] in H. simplify_eq. unfold Vlan.header.
  destruct Hn as [Hty _]. apply ether_type_range in Hty. unfold header_of, hint_of, fields_of.
  set (t := from_option _ _ _) in *.
  assert (Z.land vid 0x0FFF = vid mod 4096) as Hm by (by apply (Z.land_ones vid 12)).
  pose proof (Z.mod_pos_bound vid 4096 ltac:(lia)) as Hb.
  do 2 read_next. rewrite !insert_at_full by done.
  assert (Z.land (Z.land vid 0x0FFF) 0x0FFF = Z.land vid 0x0FFF) as ->.
  { rewrite <- Z.land_assoc. done. }
  assert (Z.shiftr (Z.land vid 0x0FFF) 13 = 0) as ->.
  { rewrite Hm, Z.shiftr_div_pow2 by lia. apply Z.div_small. lia. }
  assert (Z.shiftr (Z.land vid 0x0FFF) 12 = 0) as ->.
  { rewrite Hm, Z.shiftr_div_pow2 by lia. apply Z.div_small. lia. }
  apply reads_ret.
Qed.

Lemma gre_reads bytes :
  layer_bytes layers i L_Gre body = Some bytes ->
  reads (Gre.header c) bytes (header_of layers i L_Gre body) body.
Proof.
  intros H. cbn [layer_bytes] in H. simplify_eq. unfold Gre.header.
  destruct Hn as [Hty _]. apply ether_type_range in Hty. unfold header_of, hint_of, fields_of.
  set (t := from_option _ _ _) in *.
  read_next. change (negb (Z.land 0 0x0007 =? 0)) with false.
  change (flag 0 Gre.C_BIT) with false. change (flag 0 Gre.K_BIT) with false.
  change (flag 0 Gre.S_BIT) with false. cbv iota. read_next.
  do 3 (eapply reads_bind; [apply reads_ret|cbv beta iota]).
  rewrite !insert_at_full by done. apply reads_ret.
Qed.

Lemma vxlan_reads vni bytes :
  layer_typed (L_Vxlan vni) -> layer_bytes layers i (L_Vxlan vni) body = Some bytes ->
  reads (Vxlan.header c) bytes (header_of layers i (L_Vxlan vni) body) body.
Proof.
  intros Hv H. cbn [layer_bytes] in H. simplify_eq. unfold Vxlan.header, header_of, hint_of, fields_of.
  cbn [app]. read_next. change (Z.land 0x08 Vxlan.I_BIT =? 0) with false. cbv iota.
  eapply reads_bind; [by apply (reads_take 3 [_; _; _])|cbv beta].
  eapply reads_bind; [by apply (reads_take 3)|cbv beta]. read_next.
  rewrite fold_be_value by (apply Forall_drop, be_bytes_ok).
  rewrite drop_be_bytes, be_value_mod. change (256 ^ Z.of_nat 3) with (2 ^ 24).
  rewrite !insert_at_full by done. apply reads_ret.
Qed.

Lemma u16_of_Some n m : u16_of n = Some m -> m = n /\ n < 65536.
Proof. unfold u16_of, u16_max. case_match; reflect_bools; intros; simplify_eq. lia. Qed.

Lemma ipv4_reads_back src dst bytes :
  layer_typed (L_Ipv4 src dst) -> layer_bytes layers i (L_Ipv4 src dst) body = Some bytes ->
  reads (Ipv4.header c) bytes (header_of layers i (L_Ipv4 src dst) body) body.
Proof.
  intros [Hs Hdst] H. unfold header_of, fields_of, stored_checksum. rewrite H.
  cbn [layer_bytes] in H. destruct (u16_of _) as [total|] eqn:Ht; [|done].
  apply u16_of_Some in Ht as [-> Ht]. pose proof (blen_nonneg body) as Hb.
  cbn [mbind option_bind] in H |- *. simplify_eq.
  match goal with |- context [copy_at 10 (be_bytes 2 ?k) ?h] => set (ck := k) end.
  unfold copy_at. cbn [be_bytes length app take drop Nat.add]. rewrite drop_0, <- !app_assoc.
  unfold Ipv4.header. read_next. change (negb (Z.shiftr 0x45 4 =? 4)) with false. cbv iota zeta.
  change (Z.land 0x45 0x0F <? 5) with false. cbv iota. read_next.
  eapply reads_bind; [apply (reads_enc16 (20 + blen body)); lia|cbv beta].
  do 5 read_next.
  eapply reads_bind; [apply reads_take; unfold blen; lia|cbv beta].
  eapply reads_bind; [apply reads_take; unfold blen; lia|cbv beta].
  eapply reads_bind; [by apply (reads_take 0 [])|cbv beta].
  rewrite !insert_at_full by done. apply reads_ret.
Qed.

Lemma udp_reads sport dport bytes :
  layer_typed (L_Udp sport dport) -> layer_bytes layers i (L_Udp sport dport) body = Some bytes ->
  reads (Udp.header c) bytes (header_of layers i (L_Udp sport dport) body) body.
Proof.
  intros [Hs Hp] H. unfold header_of, fields_of, stored_checksum. rewrite H.
  cbn [layer_bytes] in H. destruct (u16_of _) as [len|] eqn:Hl; [|done].
  apply u16_of_Some in Hl as [-> Hl]. pose proof (blen_nonneg body) as Hb.
  cbn [mbind option_bind] in H |- *. destruct (transport_checksum _ _ _ _ _) as [k|]; [|done].
  cbn [mbind option_bind] in H |- *. simplify_eq.
  set (ck := if k =? 0 then 0xFFFF else k).
  unfold copy_at. cbn [be_bytes length app take drop Nat.add].
  unfold Udp.header.
  eapply reads_bind; [apply (reads_enc16 sport); lia|cbv beta].
  eapply reads_bind; [apply (reads_enc16 dport); lia|cbv beta].
  eapply reads_bind; [apply (reads_enc16 (8 + blen body)); lia|cbv beta].
  eapply reads_bind; [apply reads_u16|cbv beta].
  rewrite !insert_at_full by done. apply reads_ret.
Qed.

Lemma tcp_reads_back sport dport flags seq ack bytes :
  layer_typed (L_Tcp sport dport flags seq ack) ->
  layer_bytes layers i (L_Tcp sport dport flags seq ack) body = Some bytes ->
  reads (Tcp.header (blen bytes) c) bytes (header_of layers i (L_Tcp sport dport flags seq ack) body) body.
Proof.
  intros (Hs & Hp & Hf & Hq & Ha) H.
  unfold header_of, hint_of, fields_of, stored_checksum. rewrite H.
  cbn [layer_bytes] in H. destruct (transport_checksum _ _ _ _ _) as [ck|]; [|done].
  cbn [mbind option_bind] in H |- *. simplify_eq.
  unfold copy_at. cbn [be_bytes length app take drop Nat.add].
  match goal with |- context [Tcp.header ?n] => assert (n = 20 + blen body) as -> end.
  { rewrite !blen_cons. lia. }
  unfold Tcp.header. change (Z.shiftl 5 4) with 80.
  eapply reads_bind; [apply (reads_enc16 sport); lia|cbv beta].
  eapply reads_bind; [apply (reads_enc16 dport); lia|cbv beta].
  eapply reads_bind; [apply (reads_enc32 seq); lia|cbv beta].
  eapply reads_bind; [apply (reads_enc32 ack); lia|cbv beta].
  eapply reads_bind; [apply reads_u16|cbv beta]. rewrite be_value_pair.
  assert (Z.shiftr (80 * 256 + flags) 12 = 5) as ->.
  { rewrite Z.shiftr_div_pow2 by lia. change (2 ^ 12) with 4096.
    symmetry. apply (Z.div_unique _ _ _ flags); lia. }
  assert (Z.land (80 * 256 + flags) 0x01FF = flags) as ->.
  { change 0x01FF with (Z.ones 9). rewrite Z.land_ones by lia. change (2 ^ 9) with 512.
    symmetry. apply (Z.mod_unique _ _ 40); lia. }
  change (5 <? 5) with false. cbv iota zeta.
  do 3 (eapply reads_bind; [apply reads_u16|cbv beta]).
  eapply reads_bind; [by apply (reads_take 0 [])|cbv beta].
  rewrite !insert_at_full by done.
  assert ((20 + blen body =? 5 * 4) = match body with [] => true | _ => false end) as ->.
  { destruct body as [|b0 body']; [done|]. apply Z.eqb_neq. rewrite blen_cons.
    pose proof (blen_nonneg body'). lia. }
  destruct body; apply reads_ret.
Qed.

(** A header is put in front of its body. *)
Lemma layer_bytes_split l bytes :
  is_header l -> layer_typed l -> layer_bytes layers i l body = Some bytes ->
  exists hdr, bytes = hdr ++ body /\ blen hdr = len_of l.
Proof.
  intros Hh Ht Hb.
  assert (forall hdr n v, bytes = copy_at n v hdr ++ body -> blen hdr = len_of l ->
    (n + length v <= length hdr)%nat -> exists hdr, bytes = hdr ++ body /\ blen hdr = len_of l) as Hcopy.
  { intros hdr n v -> Hl Hn'. eexists. split; [done|]. rewrite <- Hl. unfold copy_at, blen.
    rewrite !length_app, length_take, length_drop. lia. }
  destruct l as [src dst|vid tpid|src dst|vni|sport dport flags seq ack|sport dport| |b|p b]; try done;
    cbn [layer_bytes layer_typed] in *;
    repeat match type of Hb with
    | context [u16_of ?n] => destruct (u16_of n) as [?|]; [|done]; cbn [mbind option_bind] in Hb
    | context [transport_checksum ?a ?b ?c ?d ?e] =>
        destruct (transport_checksum a b c d e) as [?|]; [|done]; cbn [mbind option_bind] in Hb
    end; apply Some_inj in Hb; symmetry in Hb;
    first [ eapply Hcopy; [exact Hb| |]
          | rewrite !app_assoc in Hb; eexists; split; [exact Hb|] ];
    unfold blen; rewrite ?length_app, ?length_drop, ?length_be_bytes; simpl; try lia.
Qed.

(** Every header, by its own plugin. *)
Lemma plugin_parses l bytes :
  is_header l -> layer_typed l -> layer_bytes layers i l body = Some bytes ->
  blen bytes <= usize_max ->
  parse (plugin_of l) bytes c = Ok (header_of layers i l body) /\
  blen bytes = len_of l + blen body /\ slice_from bytes (len_of l) = body.
Proof.
  intros Hh Ht Hb Hu.
  assert (forall m, reads m bytes (header_of layers i l body) body ->
    run_reader m bytes = Ok (header_of layers i l body)) as Hrun.
  { intros m Hm. by eapply reads_run. }
  split.
  - destruct l; try done; apply Hrun;
      eauto using eth_reads, vlan_reads, ipv4_reads_back, vxlan_reads, tcp_reads_back, udp_reads, gre_reads.
  - assert (exists hdr, bytes = hdr ++ body /\ blen hdr = len_of l) as (hdr & -> & Hl).
    { by apply layer_bytes_split in Hb. }
    rewrite blen_app, <- Hl. split; [lia|]. unfold slice_from, blen. rewrite Nat2Z.id.
    apply drop_app_length.
Qed.
End PerLayer.

(** ** An engine that serves the standard stack *)

Record serves (e : Engine) : Prop := {
  sv_link : plugin_for_route e (LinkType 1) = Some Ethernet.plugin;
  sv_vlan : plugin_for_route e (EtherType 0x8100) = Some Vlan.plugin;
  sv_stag : plugin_for_route e (EtherType 0x88A8) = Some Vlan.plugin;
  sv_ipv4 : plugin_for_route e (EtherType 0x0800) = Some Ipv4.plugin;
  sv_ipip : plugin_for_route e (IpProtocol 4) = Some Ipv4.plugin;
  sv_tcp : plugin_for_route e (IpProtocol 6) = Some Tcp.plugin;
  sv_udp : plugin_for_route e (IpProtocol 17) = Some Udp.plugin;
  sv_gre : plugin_for_route e (IpProtocol 47) = Some Gre.plugin;
  sv_vxlan : plugin_for_route e (UdpPort 4789) = Some Vxlan.plugin;
  sv_inner : plugin_by_name e "ethernet" = Some Ethernet.plugin;
}.

(** Nothing claims what the innermost header announces for the payload. *)
Definition unclaimed (e : Engine) (l : Layer) (payload : list Z) : Prop :=
  match l with
  | L_Eth _ _ | L_Vlan _ _ | L_Gre => plugin_for_route e (EtherType 0x9999) = None
  | L_Ipv4 _ _ => plugin_for_route e (IpProtocol 253) = None
  | L_Tcp sport dport _ _ _ =>
      plugin_for_route e (TcpPort dport) = None /\ plugin_for_route e (TcpPort sport) = None
  | L_Udp sport dport =>
      plugin_for_route e (UdpPort dport) = None /\ plugin_for_route e (UdpPort sport) = None
  | _ => payload = []
  end.

(** Why dissection stops at the payload. *)
Definition stop_of (l : Layer) (payload : list Z) : StopReason :=
  match payload, l with
  | [], _ => Stop_Complete
  | _, (L_Eth _ _ | L_Vlan _ _ | L_Gre) => Stop_UnclaimedRoute (EtherType 0x9999)
  | _, L_Ipv4 _ _ => Stop_UnclaimedRoute (IpProtocol 253)
  | _, L_Tcp _ dport _ _ _ => Stop_UnclaimedRoute (TcpPort dport)
  | _, L_Udp _ dport => Stop_UnclaimedRoute (UdpPort dport)
  | _, _ => Stop_Complete
  end.

(** The bytes from layer [k] on. *)
Definition suffix (layers : list Layer) (k : nat) : option (list Z) :=
  foldr (fun il body => b ← body; layer_bytes layers il.1 il.2 b) (Some [])
    (drop k (imap pair layers)).

Lemma suffix_S layers k l :
  layers !! k = Some l -> suffix layers k = b ← suffix layers (S k); layer_bytes layers k l b.
Proof.
  intros Hl. unfold suffix at 1.
  rewrite (drop_S _ (k, l) k); [done|]. by rewrite list_lookup_imap, Hl.
Qed.

(** The layers the iterator owes, from layer [i] at offset [o]. *)
Fixpoint records_of (layers : list Layer) (i : nat) (hs : list Layer) (o : Z) : list LayerRecord :=
  match hs with
  | [] => []
  | l :: hs' =>
      mkLayer (proto_of l) o (len_of l) (fields_of layers i l (default [] (suffix layers (S i))))
        :: records_of layers (S i) hs' (o + len_of l)
  end.

Section Chain.
Context (e : Engine) (Hs : serves e) (layers : list Layer) (c : ParseCtx).
Context (Hd : ctx_depth c = DFull).

Lemma proto_name l : is_header l -> name (plugin_of l) = proto_of l.
Proof. by destruct l. Qed.

(** A built header, handed to its plugin. *)
Lemma dispatches i l body bytes :
  is_header l -> layer_typed l -> next_ok layers i ->
  layer_bytes layers i l body = Some bytes -> blen bytes <= usize_max ->
  bytes <> [] /\
  attempt (plugin_of l) bytes c = Some (proto_of l, header_of layers i l body) /\
  dispatch_explicit (plugin_of l) bytes c = Step_Layer (proto_of l) (header_of layers i l body) false.
Proof.
  intros Hh Ht Hn Hb Hu.
  destruct (plugin_parses layers i body c Hd Hn l bytes Hh Ht Hb Hu) as (Hp & Hl & _).
  pose proof (blen_nonneg body).
  unfold attempt, dispatch_explicit, header_len_ok. rewrite Hp. cbn [pl_header_len header_of].
  rewrite (proj2 (Z.leb_le _ _)) by lia. rewrite proto_name by done. split_and!; [|done|done].
  intros ->. change (blen []) with 0 in Hl. destruct l; cbn [len_of] in Hl; lia || done.
Qed.

Lemma is_header_carried l l' : carries l l' -> is_header l'.
Proof. by destruct l, l'. Qed.

(** The hint of one header leads to the next. *)
Lemma resolves i l l' body bytes :
  carries l l' -> layers !! S i = Some l' -> layer_typed l' -> next_ok layers (S i) ->
  layer_bytes layers (S i) l' body = Some bytes -> blen bytes <= usize_max ->
  resolve_next e (hint_of layers i l bytes) bytes c =
  Step_Layer (proto_of l') (header_of layers (S i) l' body) false.
Proof.
  intros Hc Hl Ht Hn Hb Hu.
  destruct (dispatches (S i) l' body bytes (is_header_carried _ _ Hc) Ht Hn Hb Hu) as (Hne & Ha & Hp).
  unfold resolve_next, hint_of. rewrite Nat.add_1_r, Hl.
  destruct bytes as [|b0 bs]; [done|]. destruct Hs.
  destruct l, l'; try done; cbn [carries from_option ether_type_of ip_proto_of plugin_of omap list_omap] in *;
    subst;
    try match type of Ht with layer_typed (L_Vlan _ _) => destruct Ht as [_ [-> | ->]] end;
    rewrite ?sv_link0, ?sv_vlan0, ?sv_stag0, ?sv_ipv4, ?sv_ipip0, ?sv_tcp0, ?sv_udp0, ?sv_gre0, ?sv_inner0;
    cbn [plugin_of] in *; try done.
  - by rewrite Ha.
  - rewrite sv_vxlan0. destruct (plugin_for_route e (UdpPort sport)); cbn [first_parsing]; by rewrite Ha.
Qed.

(** The hint of the last header stops at the payload. *)
Lemma stops i l payload :
  is_header l -> layers !! S i = Some (L_Payload payload) -> unclaimed e l payload ->
  resolve_next e (hint_of layers i l payload) payload c = Step_Stop (stop_of l payload).
Proof.
  intros Hh Hl Hu. unfold resolve_next, hint_of. rewrite Nat.add_1_r, Hl.
  destruct payload as [|b0 bs]; [by destruct l|].
  destruct l; try done; cbn [unclaimed from_option ether_type_of ip_proto_of omap list_omap] in *;
    first [by rewrite Hu | by rewrite (proj1 Hu), (proj2 Hu)].
Qed.
End Chain.

(** ** The iterator over a built packet *)

Fixpoint last_header (l : Layer) (hs : list Layer) : Layer :=
  match hs with [] => l | l' :: hs' => last_header l' hs' end.

(** An iterator that has just yielded layer [i], [l]. *)
Record after_layer (e : Engine) (o : ParseOpts) (layers : list Layer) (bytes : list Z)
    (i : nat) (l : Layer) (body : list Z) (it : LayerIter) : Prop := {
  al_engine : engine it = e;
  al_opts : opts it = o;
  al_bytes : Parser.bytes it = bytes;
  al_started : started it = true;
  al_live : it_stop it = None;
  al_unknown : it_unknown it = None;
  al_body : slice_from bytes (cursor it) = body;
  al_cursor : 0 <= cursor it <= blen bytes;
  al_pending : pending it = Some (hint_of layers i l body);
}.

Section Drain.
Context (e : Engine) (Hs : serves e) (o : ParseOpts).
Context (Ho : effective_depth o = DFull) (Hu : opt_diagnose_unknown o = false).
Context (layers : list Layer) (bytes payload : list Z) (Hb : blen bytes <= usize_max).

(** One layer further. *)
Lemma next_header i l l' body body' it :
  after_layer e o layers bytes i l body it ->
  (length (records it) < max_layers o)%nat ->
  carries l l' -> layers !! S i = Some l' -> layer_typed l' -> next_ok layers (S i) ->
  layer_bytes layers (S i) l' body' = Some body ->
  exists st it', next it = (Some st, it') /\ after_layer e o layers bytes (S i) l' body' it' /\
    records it' = records it ++ [mkLayer (proto_of l') (cursor it) (len_of l') (fields_of layers (S i) l' body')] /\
    cursor it' = cursor it + len_of l'.
Proof.
  intros [He Hop Hby Hst Hli Hun Hbo Hcu Hpe] Hm Hc Hl Ht Hn Hlb.
  assert (blen body = blen bytes - cursor it) as Hbl by (rewrite <- Hbo; by apply blen_slice_from).
  set (c := mkCtx (records it) DFull (it_meta it)).
  assert (resolve_next e (hint_of layers i l body) body c =
    Step_Layer (proto_of l') (header_of layers (S i) l' body') false) as Hr.
  { apply (resolves e Hs layers c eq_refl); try done. lia. }
  destruct (plugin_parses layers (S i) body' c eq_refl Hn l' body (is_header_carried _ _ Hc) Ht Hlb
    ltac:(lia)) as (_ & Hlen & Hsl).
  pose proof (blen_nonneg body') as Hb0.
  assert (0 <= len_of l') as Hl0 by (destruct l'; done).
  eexists _, _. unfold next. rewrite Hli, Hby, Hop, Hst, Hpe, He, Hbo, Ho.
  rewrite (proj2 (Nat.leb_gt _ _)) by done. fold c. rewrite Hr. cbn [header_of pl_header_len pl_fields pl_hint].
  split_and!; [done| |done|done].
  split; cbn [engine opts Parser.bytes started it_stop it_unknown cursor pending]; try done; [|lia].
  rewrite <- Hsl, <- Hbo. unfold slice_from. rewrite drop_drop. f_equal. lia.
Qed.

Lemma drop_cons_inv {A} (l : list A) k x t :
  drop k l = x :: t -> l !! k = Some x /\ drop (S k) l = t.
Proof.
  intros Hd. assert (l !! k = Some x) as Hk.
  { rewrite <- (Nat.add_0_r k), <- lookup_drop, Hd. done. }
  split; [done|]. rewrite (drop_S _ _ _ Hk) in Hd. by simplify_eq.
Qed.

(** What follows layer [i] is typed. *)
Lemma stacked_next l hs i :
  stacked l hs -> drop (S i) layers = hs ++ [L_Payload payload] -> next_ok layers i.
Proof.
  intros Hst Hdr. unfold next_ok. rewrite Nat.add_1_r.
  destruct hs as [|l' hs]; cbn [app] in Hdr; apply drop_cons_inv in Hdr as [-> _].
  - split; [done|]. simpl. lia.
  - destruct Hst as [_ [Hc Hst]]. split; [by destruct hs as [|??]; destruct Hst|].
    destruct l, l'; simpl in *; done || lia.
Qed.

(** The iterator at the payload. *)
Lemma next_payload i l it :
  after_layer e o layers bytes i l payload it -> is_header l ->
  layers !! S i = Some (L_Payload payload) -> unclaimed e l payload ->
  (length (records it) < max_layers o)%nat ->
  next it = (None, stop_at it (stop_of l payload) None true None).
Proof.
  intros [He Hop Hby Hst Hli Hun Hbo Hcu Hpe] Hh Hl Huc Hm.
  unfold next. rewrite Hli, Hby, Hop, Hst, Hpe, He, Hbo, Ho, Hu, Hun.
  rewrite (proj2 (Nat.leb_gt _ _)) by done.
  rewrite (stops e layers (mkCtx (records it) DFull (it_meta it)) i l payload Hh Hl Huc).
  by rewrite andb_false_r.
Qed.

(** Draining yields the remaining headers and stops at the payload. *)
Lemma drain_headers hs i l body it :
  after_layer e o layers bytes i l body it ->
  stacked l hs -> is_header l ->
  drop (S i) layers = hs ++ [L_Payload payload] ->
  suffix layers (S i) = Some body ->
  unclaimed e (last_header l hs) payload ->
  (length (records it) + length hs < max_layers o)%nat ->
  records (drain it) = records it ++ records_of layers (S i) hs (cursor it) /\
  it_stop (drain it) = Some (stop_of (last_header l hs) payload) /\
  it_unknown (drain it) = None /\ Parser.bytes (drain it) = bytes /\
  slice_from bytes (cursor (drain it)) = payload /\ 0 <= cursor (drain it) <= blen bytes.
Proof.
  revert i l body it. induction hs as [|l' hs IH]; intros i l body it Ha Hst Hh Hdr Hsx Huc Hm.
  - cbn [app] in Hdr. apply drop_cons_inv in Hdr as [Hl Hend].
    rewrite (suffix_S _ _ _ Hl) in Hsx. unfold suffix in Hsx.
    rewrite drop_ge in Hsx.
    2:{ rewrite length_imap. apply (f_equal length) in Hend. rewrite length_drop in Hend. simpl in Hend. lia. }
    cbn in Hsx. rewrite app_nil_r in Hsx. injection Hsx as <-.
    rewrite drain_next, (next_payload i l) by (done || lia).
    destruct Ha. cbn [records_of]. rewrite app_nil_r. split_and!; done || apply al_cursor0.
  - pose proof (stacked_next _ _ _ Hst Hdr) as Hni.
    cbn [app] in Hdr. apply drop_cons_inv in Hdr as [Hl Hdr].
    destruct Hst as [_ [Hc Hst]].
    rewrite (suffix_S _ _ _ Hl) in Hsx.
    destruct (suffix layers (S (S i))) as [body'|] eqn:Hsx'; [|done]. cbn [mbind option_bind] in Hsx.
    destruct (next_header i l l' body body' it) as (st & it' & Hnx & Ha' & Hr' & Hc'); try done.
    { simpl in Hm. lia. }
    { destruct hs; by destruct Hst. }
    { by eapply stacked_next. }
    rewrite drain_next, Hnx.
    destruct (IH (S i) l' body' it') as (H1 & H2 & H3); try done.
    { by eapply is_header_carried. }
    { rewrite Hr', length_app. simpl in *. lia. }
    split_and!; try apply H3.
    + rewrite H1, Hr', Hc', <- app_assoc. cbn [records_of]. rewrite Hsx'. done.
    + by rewrite H2.
Qed.
End Drain.

(** The first layer, by the link type. *)
Lemma first_header e o ts src dst hs payload m bytes :
  serves e -> entry o = None -> effective_depth o = DFull -> (0 < max_layers o)%nat ->
  let layers := L_Eth src dst :: hs ++ [L_Payload payload] in
  stacked (L_Eth src dst) hs ->
  build_packet (mkPacketBuilder ts layers) = Some (m, bytes) -> blen bytes <= usize_max ->
  exists body it0 it st,
    suffix layers 1 = Some body /\ layers_of e bytes m o = Some it0 /\
    next it0 = (Some st, it) /\
    after_layer e o layers bytes 0 (L_Eth src dst) body it /\
    records it = [mkLayer "ethernet" 0 14 (fields_of layers 0 (L_Eth src dst) body)] /\ cursor it = 14.
Proof.
  intros Hs Hen Ho Hm layers Hst Hbuild Hb.
  unfold build_packet, assemble in Hbuild. cbn [kit_layers] in Hbuild.
  change (foldr _ _ _) with (suffix layers 0) in Hbuild.
  rewrite (suffix_S layers 0 (L_Eth src dst) eq_refl) in Hbuild.
  destruct (suffix layers 1) as [body|] eqn:Hsx; [|done]. cbn [mbind option_bind] in Hbuild.
  destruct (layer_bytes layers 0 (L_Eth src dst) body) as [bs|] eqn:Hlb; [|done].
  cbn [mbind option_bind] in Hbuild. injection Hbuild as <- <-.
  assert (next_ok layers 0) as Hn by (by eapply stacked_next).
  assert (layer_typed (L_Eth src dst)) as Ht by (destruct hs; by destruct Hst).
  set (m := mkMeta ts (blen bs) (blen bs) 1).
  set (c := mkCtx [] DFull m).
  destruct (dispatches layers c eq_refl 0 (L_Eth src dst) body bs I Ht Hn Hlb Hb) as (Hne & _ & Hd).
  destruct (plugin_parses layers 0 body c eq_refl Hn (L_Eth src dst) bs I Ht Hlb Hb) as (_ & Hlen & Hsl).
  eexists body, _, _, _. split; [done|]. unfold layers_of. rewrite Hen. split; [done|].
  unfold next. cbn [it_stop Parser.bytes cursor opts records started engine it_meta link_type].
  rewrite slice_from_0, Ho. fold m. fold c.
  rewrite (proj2 (Nat.leb_gt _ _)) by (simpl; lia).
  assert (resolve_entry e bs c o (link_type m) = Step_Layer "ethernet" (header_of layers 0 (L_Eth src dst) body) false) as ->.
  { unfold resolve_entry. destruct bs as [|b0 bs]; [done|]. rewrite Hen. cbn [link_type m].
    rewrite (sv_link _ Hs). exact Hd. }
  cbn [header_of pl_header_len pl_fields pl_hint len_of]. split; [done|]. split; [|done].
  pose proof (blen_nonneg body). cbn [len_of] in Hlen, Hsl.
  split; cbn; try done. lia.
Qed.

(** C1: Everything the test kit builds from a coherent stack of headers, the engine
    takes apart again: dissecting the assembled bytes of an Ethernet frame of
    any number of VLAN tags, (nested) IPv4, GRE, UDP, TCP and VXLAN headers
    around a payload yields exactly those layers, in order, at consecutive
    offsets, with every field the builder wrote - computed lengths, announced
    next protocols and checksums included - then stops at the payload for the
    reason its innermost header announces, leaving precisely the payload
    opaque. *)
Theorem kit_roundtrip e o ts src dst hs payload m bytes :
  let layers := L_Eth src dst :: hs ++ [L_Payload payload] in
  let innermost := last_header (L_Eth src dst) hs in
  serves e -> unclaimed e innermost payload -> stacked (L_Eth src dst) hs ->
  build_packet (mkPacketBuilder ts layers) = Some (m, bytes) -> blen bytes <= usize_max ->
  entry o = None -> effective_depth o = DFull -> opt_diagnose_unknown o = false ->
  (S (length hs) < max_layers o)%nat ->
  dissect e bytes m o =
    Some (mkPacket m (records_of layers 0 (L_Eth src dst :: hs) 0)
            (stop_of innermost payload) (blen payload) None).
Proof.
  intros layers innermost Hs Huc Hst Hbuild Hb Hen Ho Hdu Hm.
  destruct (first_header e o ts src dst hs payload m bytes) as (body & it0 & it & st & Hsx & Hl & Hnx & Ha & Hr & Hc);
    try done; [lia|].
  unfold dissect. rewrite Hl. cbn [mbind option_bind]. f_equal. unfold into_packet, packet_of.
  rewrite drain_next, Hnx.
  destruct (drain_headers e Hs o Ho Hdu layers bytes payload Hb hs 0 (L_Eth src dst) body it)
    as (H1 & H2 & H3 & H4 & H5 & H6); try done.
  { rewrite Hr. simpl. lia. }
  rewrite H1, H2, H3, H4, Hr, Hc. cbn [app default records_of proto_of len_of].
  fold layers in Hsx. rewrite Hsx. cbn [default from_option id].
  f_equal. apply (f_equal blen) in H5. rewrite blen_slice_from in H5 by done.
  unfold sat_sub. lia.
Qed.

Definition kit_plugins : list LayerPlugin :=
  [Ethernet.plugin; Vlan.plugin; Ipv4.plugin; Tcp.plugin; Udp.plugin; Gre.plugin; Vxlan.plugin].

(** An engine with the standard stack registered. *)
Definition kit_builder : EngineBuilder :=
  foldl (fun b p => Engine.plugin p b) EngineBuilder_new kit_plugins.

Definition kit_engine : Engine :=
  match Engine.build kit_builder with Ok e => e | Error _ => mkEngine [] ∅ ∅ [] end.

Lemma kit_engine_plugins : plugins kit_engine = kit_plugins.
Proof. reflexivity. Qed.

(** A lookup in the kit engine, by index. *)
Lemma kit_route id n p :
  routes kit_engine !! id = Some n -> kit_plugins !! n = Some p -> plugin_for_route kit_engine id = Some p.
Proof. intros Hr Hp. unfold plugin_for_route. rewrite Hr, kit_engine_plugins. exact Hp. Qed.

Lemma kit_engine_serves : serves kit_engine.
Proof.
  split; try (eapply kit_route; [vm_compute; reflexivity|reflexivity]).
  unfold plugin_by_name. replace (by_name kit_engine !! "ethernet"%string) with (Some 0%nat) by (by vm_compute).
  rewrite kit_engine_plugins. reflexivity.
Qed.

(** A VLAN-tagged IPv4/UDP/VXLAN tunnel around an inner TCP packet. *)
Definition kit_headers : list Layer :=
  [L_Vlan 100 0x8100; L_Ipv4 [10; 0; 0; 1] [10; 0; 0; 2]; L_Udp 5000 4789; L_Vxlan 42;
   L_Eth [2; 0; 0; 0; 0; 1] [2; 0; 0; 0; 0; 2]; L_Ipv4 [192; 168; 0; 1] [192; 168; 0; 2];
   L_Tcp 40000 80 0x18 1000 2000].

Definition kit_opts : ParseOpts := mkParseOpts DFull true 32 None false false.

Lemma kit_roundtrip_witness :
  exists pkt m bytes,
    build_packet (mkPacketBuilder 7 (L_Eth [2; 0; 0; 0; 0; 3] [2; 0; 0; 0; 0; 4] :: kit_headers ++ [L_Payload [1; 2; 3]])) = Some (m, bytes) /\
    dissect kit_engine bytes m kit_opts = Some pkt /\
    protocol <$> layers pkt = ["ethernet"; "vlan"; "ipv4"; "udp"; "vxlan"; "ethernet"; "ipv4"; "tcp"]%string /\
    stop pkt = Stop_UnclaimedRoute (TcpPort 80) /\ opaque_len pkt = 3.
Proof.
  eexists _, _, _. split; [vm_compute; reflexivity|]. split.
  - apply (kit_roundtrip kit_engine kit_opts 7 [2; 0; 0; 0; 0; 3] [2; 0; 0; 0; 0; 4] kit_headers [1; 2; 3]).
    + apply kit_engine_serves.
    + by vm_compute.
    + cbn. lia.
    + by vm_compute.
    + by vm_compute.
    + done.
    + done.
    + done.
    + vm_compute. lia.
  - by vm_compute.
Defined.

(** ** The text of the pools *)

Lemma octet_dec : Forall (fun b =>
  u8_from_radix 10 (str_bytes (show_Z b)) = Some b /\ 46 ∉ str_bytes (show_Z b)) (seqZ 0 256).
Proof. apply (bool_decide_unpack _). vm_compute. exact I. Qed.

Lemma octet_hex : Forall (fun b =>
  u8_from_radix 16 (str_bytes (hex_padded 2 b)) = Some b /\ 58 ∉ str_bytes (hex_padded 2 b)) (seqZ 0 256).
Proof. apply (bool_decide_unpack _). vm_compute. exact I. Qed.

Lemma mapM_texts {A} (f : list Z -> option Z) (show : A -> string) (val : A -> Z) l :
  Forall (fun x => f (str_bytes (show x)) = Some (val x)) l -> mapM f (str_bytes <$> (show <$> l)) = Some (val <$> l).
Proof.
  induction 1 as [|x l Hx Hl IH]; [done|]. rewrite !fmap_cons. cbn [mapM]. rewrite Hx. cbn [mbind option_bind].
  by rewrite IH.
Qed.

(** The octets joined as text are read back. *)
Lemma octets_join sep base (c : string) (show : Z -> string) bs :
  str_bytes c = [sep] -> bs <> [] ->
  Forall (fun b => u8_from_radix base (str_bytes (show b)) = Some b /\ sep ∉ str_bytes (show b)) bs ->
  octets sep base (length bs) (String.concat c (show <$> bs)) = Some bs.
Proof.
  intros Hc Hne Hall. unfold octets. change (String.concat c) with (join c). rewrite (split_on_join sep c Hc).
  - rewrite !length_fmap, Nat.eqb_refl. rewrite (mapM_texts _ show id); [by rewrite list_fmap_id|].
    eapply Forall_impl; [exact Hall|]. by intros b [? _].
  - by destruct bs.
  - apply Forall_fmap. eapply Forall_impl; [exact Hall|]. by intros b [_ ?].
Qed.

Lemma low_octets_bytes index : Forall (fun b => b ∈ seqZ 0 256) (low_octets index).
Proof.
  unfold low_octets. rewrite !Forall_cons. split_and!; [..|constructor]; apply elem_of_seqZ;
    match goal with |- context [?a mod 256] => pose proof (Z.mod_pos_bound a 256 ltac:(lia)) end; lia.
Qed.

Lemma from_octets P l : Forall P (seqZ 0 256) -> Forall (fun b => b ∈ seqZ 0 256) l -> Forall P l.
Proof. rewrite !Forall_forall. intros HP Hl b Hb. by apply HP, Hl. Qed.

(** The address of a pool index is the prefix and its three low octets. *)
Theorem pool_text prefix index :
  0 <= prefix < 256 ->
  ipv4 (pool_ipv4 prefix index) = Some (prefix :: low_octets index) /\
  mac (pool_mac prefix index) = Some (0xaa :: 0xbb :: prefix :: low_octets index).
Proof.
  intros Hp.
  assert (Forall (fun b => b ∈ seqZ 0 256) (prefix :: low_octets index)) as Hin
    by (constructor; [apply elem_of_seqZ; lia|apply low_octets_bytes]).
  split.
  - apply (octets_join 46 10 "." show_Z (prefix :: low_octets index) eq_refl); [done|].
    by eapply from_octets; [apply octet_dec|].
  - change (pool_mac prefix index) with
      (String.concat ":" (hex_padded 2 <$> 0xaa :: 0xbb :: prefix :: low_octets index)).
    apply (octets_join 58 16 ":" (hex_padded 2) (0xaa :: 0xbb :: prefix :: low_octets index) eq_refl); [done|].
    eapply from_octets; [apply octet_hex|]. rewrite !(Forall_cons _ 170), !(Forall_cons _ 187). by split_and!; [apply elem_of_seqZ; lia..|].
Qed.

(** ** The fan-out *)

(** What tells a flow from the others: its addresses and its client port. *)
Definition conversation (spec : FanOutSpec) (flow : Z) : option (list Z * list Z * Z) :=
  slot ← fan_out_slot spec flow;
  server ← ipv4 (pool_ipv4 172 (flow / flows_per_anchor spec mod 2 ^ 32));
  client ← ipv4 (pool_ipv4 10 slot);
  Some (server, client, fan_out_port spec flow).

Lemma low_octets_inj i j : low_octets i = low_octets j -> i mod 2 ^ 24 = j mod 2 ^ 24.
Proof.
  unfold low_octets. intros [= H2 H1 H0].
  assert (forall n, n mod 2 ^ 24 = n mod 256 + 256 * (n / 256 mod 256 + 256 * (n / 65536 mod 256))) as Hn.
  { intros n. change (2 ^ 24) with (256 * (256 * 256)). rewrite Z.rem_mul_r, (Z.rem_mul_r (n / 256)) by lia.
    rewrite Z.div_div by lia. done. }
  by rewrite !Hn, H2, H1, H0.
Qed.

Lemma fan_out_port_range spec flow : 0 < flows_per_anchor spec ->
  1024 <= fan_out_port spec flow <= 61024 /\ fan_out_port spec flow <> 4789.
Proof.
  intros Hf. unfold fan_out_port. pose proof (Z.mod_pos_bound (flow mod flows_per_anchor spec) 60000 ltac:(lia)).
  cbv zeta. destruct (Z.eqb_spec (1024 + flow mod flows_per_anchor spec mod 60000) 4789); lia.
Qed.

Lemma fan_out_port_inj spec f g :
  fan_out_port spec f = fan_out_port spec g ->
  f mod flows_per_anchor spec mod 60000 = g mod flows_per_anchor spec mod 60000.
Proof.
  unfold fan_out_port. pose proof (Z.mod_pos_bound (f mod flows_per_anchor spec) 60000 ltac:(lia)).
  pose proof (Z.mod_pos_bound (g mod flows_per_anchor spec) 60000 ltac:(lia)). cbv zeta.
  destruct (Z.eqb_spec (1024 + f mod flows_per_anchor spec mod 60000) 4789),
    (Z.eqb_spec (1024 + g mod flows_per_anchor spec mod 60000) 4789); lia.
Qed.

Lemma Some_triple {A B C} (a a' : A) (b b' : B) (c c' : C) :
  Some (a, b, c) = Some (a', b', c') -> a = a' /\ b = b' /\ c = c'.
Proof. by intros [= -> -> ->]. Qed.

Section FanOut.
Context (spec : FanOutSpec) (Hanchors : 0 < anchors spec <= 2 ^ 20).
Context (Hflows : 0 < flows_per_anchor spec <= 60000 * 4096).

(** The anchor and the client's host of a flow, in range. *)
Lemma flow_parts flow : 0 <= flow < total_flows spec ->
  let anchor := flow / flows_per_anchor spec in
  let host := flow mod flows_per_anchor spec / 60000 in
  0 <= anchor < 2 ^ 20 /\ 0 <= host < 4096 /\ fan_out_slot spec flow = Some (anchor * 4096 + host).
Proof.
  intros Hflow anchor host. unfold total_flows in Hflow.
  assert (0 <= anchor < anchors spec) as Ha.
  { split; [apply Z.div_pos; lia|]. apply Z.div_lt_upper_bound; lia. }
  assert (0 <= host < 4096) as Hh.
  { pose proof (Z.mod_pos_bound flow (flows_per_anchor spec) ltac:(lia)). split; [apply Z.div_pos; lia|].
    apply Z.div_lt_upper_bound; lia. }
  split; [lia|]. split; [done|]. unfold fan_out_slot. fold anchor host.
  rewrite !Z.mod_small by lia. unfold u32_of, u32_max. by rewrite (proj2 (Z.leb_le _ _)) by lia.
Qed.

(** Every flow of the fan-out is its own conversation: no two share the server's
    address, the client's address and the client's port; and no client port is the
    one VXLAN claims. *)
Theorem fan_out_flows_distinct f g :
  0 <= f < total_flows spec -> 0 <= g < total_flows spec ->
  is_Some (conversation spec f) /\ fan_out_port spec f <> 4789 /\
  (conversation spec f = conversation spec g -> f = g).
Proof.
  intros Hf Hg. destruct (flow_parts f Hf) as (Haf & Hhf & Hsf), (flow_parts g Hg) as (Hag & Hhg & Hsg).
  assert (forall h i, 0 <= h < 256 -> ipv4 (pool_ipv4 h i) = Some (h :: low_octets i)) as Haddr
    by (intros h i Hh; by apply pool_text).
  unfold conversation. rewrite Hsf, Hsg. cbn [mbind option_bind]. rewrite !Haddr by lia. cbn [mbind option_bind].
  split; [by eexists|]. split; [apply fan_out_port_range; lia|].
  intros (Hserver & Hclient & Hport)%Some_triple.
  apply (f_equal tail) in Hserver, Hclient. cbn [tail] in Hserver, Hclient. apply low_octets_inj in Hserver, Hclient. apply fan_out_port_inj in Hport.
  rewrite !(Z.mod_small _ (2 ^ 32)) in Hserver by lia. rewrite !Z.mod_small in Hserver by lia.
  pose proof (Z.div_mod f (flows_per_anchor spec) ltac:(lia)) as Df.
  pose proof (Z.div_mod g (flows_per_anchor spec) ltac:(lia)) as Dg.
  pose proof (Z.div_mod (f mod flows_per_anchor spec) 60000 ltac:(lia)) as Ef.
  pose proof (Z.div_mod (g mod flows_per_anchor spec) 60000 ltac:(lia)) as Eg.
  set (af := f / flows_per_anchor spec) in *. set (ag := g / flows_per_anchor spec) in *.
  set (hf := f mod flows_per_anchor spec / 60000) in *. set (hg := g mod flows_per_anchor spec / 60000) in *.
  assert (hf = hg) as Hh.
  { pose proof (Z.div_mod (af * 4096 + hf) (2 ^ 24) ltac:(lia)). pose proof (Z.div_mod (ag * 4096 + hg) (2 ^ 24) ltac:(lia)).
    rewrite Hserver in *. lia. }
  rewrite Hserver in Df. lia.
Qed.
End FanOut.

(** ** pcap files *)

(** A reader of the format: records until the end, each time stamp in whole
    microseconds. *)
Fixpoint read_frames (fuel : nat) (b : list Z) : option (list (SystemTime * list Z)) :=
  match fuel, b with
  | _, [] => Some []
  | O, _ => None
  | S fuel', _ =>
      let field i := le_value (take 4 (drop i b)) in
      let len := Z.to_nat (field 8%nat) in
      if (length b <? 16 + len)%nat then None
      else
        rest ← read_frames fuel' (drop (16 + len) b);
        Some ((field 0%nat * 1000000000 + field 4%nat * 1000, take len (drop 16 b)) :: rest)
  end.

Definition read_pcap (b : list Z) : option (list (SystemTime * list Z)) :=
  if bool_decide (take 24 b = concat pcap_header) then read_frames (length b) (drop 24 b) else None.

Lemma length_le_bytes n z : length (le_bytes n z) = n.
Proof. unfold le_bytes. by rewrite length_rev, length_be_bytes. Qed.

(** A record on its own, before whatever follows. *)
Lemma read_one_frame p pieces rest fuel :
  pcap_record p = Some pieces ->
  read_frames (S fuel) (concat pieces ++ rest) =
  (l ← read_frames fuel rest; Some ((p.1 - p.1 mod 1000, p.2) :: l)) /\
  (16 <= length (concat pieces))%nat.
Proof.
  destruct p as [t frame]. unfold pcap_record, u32_of. destruct (Z.ltb_spec t 0); [done|].
  destruct (Z.leb_spec (blen frame) u32_max) as [Hl|]; [|done]. cbn [mbind option_bind].
  destruct (Z.leb_spec (t / 1000000000) u32_max) as [Hs|]; [|done]. cbn [mbind option_bind]. intros [= <-].
  pose proof (blen_nonneg frame). pose proof (Z.div_pos t 1000000000 ltac:(lia) ltac:(lia)).
  pose proof (Z.mod_pos_bound t 1000000000 ltac:(lia)) as Hmod.
  assert (0 <= t mod 1000000000 / 1000 < 1000000) as Hus
    by (split; [apply Z.div_pos; lia|apply Z.div_lt_upper_bound; lia]).
  set (secs := le_bytes 4 (t / 1000000000)). set (us := le_bytes 4 (t mod 1000000000 / 1000)).
  set (len := le_bytes 4 (blen frame)).
  assert (length secs = 4 /\ length us = 4 /\ length len = 4)%nat as (L1 & L2 & L3)
    by (unfold secs, us, len; by rewrite !length_le_bytes).
  cbn [concat]. rewrite app_nil_r, <-!app_assoc. set (b := secs ++ us ++ len ++ len ++ frame ++ rest).
  assert (drop 16 b = frame ++ rest) as H16.
  { unfold b. rewrite (app_assoc secs), (app_assoc (secs ++ us)), (app_assoc ((secs ++ us) ++ len)).
    apply drop_app_length'. rewrite !length_app. lia. }
  assert (take 4 (drop 0 b) = secs) as T0 by (apply take_app_length'; lia).
  assert (take 4 (drop 4 b) = us) as T4.
  { unfold b. rewrite (drop_app_length' secs) by lia. apply take_app_length'. lia. }
  assert (take 4 (drop 8 b) = len) as T8.
  { unfold b. rewrite (app_assoc secs), drop_app_length' by (rewrite length_app; lia). apply take_app_length'. lia. }
  assert (le_value secs = t / 1000000000 /\ le_value us = t mod 1000000000 / 1000 /\ le_value len = blen frame) as (V1 & V2 & V3)
    by (unfold secs, us, len, u32_max in *; rewrite !le_value_le_bytes by lia; done).
  split; [|rewrite !length_app; lia].
  assert (length b = 16 + length frame + length rest)%nat as Lb by (unfold b; rewrite !length_app; lia).
  clearbody b. destruct b as [|b0 bs]; [simpl in Lb; lia|]. cbn [read_frames].
  rewrite T0, T4, T8, V1, V2, V3. unfold blen. rewrite Nat2Z.id, Lb.
  rewrite (proj2 (Nat.ltb_ge _ _)) by lia. rewrite <- drop_drop, H16, drop_app_length, take_app_length.
  destruct (read_frames fuel rest); [|done]. simpl. do 3 f_equal.
  pose proof (Z.div_mod t 1000000000 ltac:(lia)). pose proof (Z.div_mod (t mod 1000000000) 1000 ltac:(lia)).
  assert (t mod 1000000000 mod 1000 = t mod 1000) by (apply Z.mod_mod_divide; by exists 1000000). lia.
Qed.

(** A capture written as a pcap file is read back, frame by frame, its times cut to
    microseconds. *)
Theorem pcap_roundtrip c bytes :
  write_pcap c = Some bytes -> read_pcap bytes = Some ((fun p => (p.1 - p.1 mod 1000, p.2)) <$> c).
Proof.
  unfold write_pcap. destruct (mapM pcap_record c) as [records|] eqn:Hrec; [|done]. cbn [mbind option_bind]. intros <-%(inj Some).
  rewrite concat_app. unfold read_pcap. rewrite (take_app_length' (concat pcap_header)) by done.
  rewrite bool_decide_eq_true_2 by done. rewrite (drop_app_length' (concat pcap_header)) by done.
  assert (forall fuel, (length (concat (concat records)) <= fuel)%nat ->
    read_frames fuel (concat (concat records)) = Some ((fun p => (p.1 - p.1 mod 1000, p.2)) <$> c)) as Hread;
    [|apply Hread; rewrite length_app; lia].
  apply mapM_Some in Hrec. induction Hrec as [|p pieces c records Hp Hc IH]; intros fuel Hfuel; [by destruct fuel|].
  cbn [concat] in *. rewrite concat_app in *. rewrite length_app in Hfuel.
  destruct fuel as [|fuel].
  - destruct (read_one_frame p pieces [] 0 Hp) as [_ Hlen]. lia.
  - destruct (read_one_frame p pieces (concat (concat records)) fuel Hp) as [-> Hlen]. rewrite IH by lia. done.
Qed.

Lemma write_pieces_ok pieces out : write_pieces pieces [] out = Some (out ++ concat pieces, []).
Proof.
  revert out. induction pieces as [|p pieces IH]; intros out; simpl; [by rewrite app_nil_r|].
  by rewrite IH, app_assoc.
Qed.

(** Streaming a capture to disk, when no call fails, writes the file
    [CaptureBuilder::write_pcap] writes; and panics on the same captures. *)
Theorem pcap_streamed packets : write_pcap_streamed packets [] = Some <$> write_pcap packets.
Proof.
  unfold write_pcap_streamed, write_pcap. rewrite write_pieces_ok. cbn [app concat].
  change ([] ++ concat pcap_header) with (concat pcap_header).
  assert (forall out, stream_records packets [] out =
    (records ← mapM pcap_record packets; Some (Some (out ++ concat (concat records))))) as H.
  { induction packets as [|p packets IH]; intros out; simpl; [by rewrite app_nil_r|].
    destruct (pcap_record p) as [pieces|]; [|done]. cbn [mbind option_bind]. rewrite write_pieces_ok, IH.
    destruct (mapM pcap_record packets); [|done]. simpl. by rewrite concat_app, app_assoc. }
  rewrite H. destruct (mapM pcap_record packets); [|done]. cbn [mbind option_bind fmap option_fmap option_map].
  by rewrite concat_app.
Qed.

(** ** The corpora on examples *)

Example qname_example : qname_bytes "host-3.example" = Some (6 :: str_bytes "host-3" ++ 7 :: str_bytes "example" ++ [0]).
Proof. vm_compute. reflexivity. Qed.

(** Twenty consecutive packets hold every kind; none panics. *)
Example mixed_lengths :
  (fun c : list (SystemTime * list Z) => (fun p => length p.2) <$> c) <$> mixed_capture 20 =
  Some [118; 118; 118; 118; 118; 118; 118; 118; 118; 118; 118; 118; 118; 118; 78; 94; 78; 94; 110; 138]%nat.
Proof. vm_compute. reflexivity. Qed.
