(* ===== verification/FlowKeys.v ===== *)
(** * Flow keys

    Models [crates/pktflow-flows/src/key.rs]: the tagged, length-prefixed
    value encoding and [flow_key], which sorts the two endpoint encodings into
    a canonical key and reports the packet's direction.  The encoding is
    prefix-free on values whose lengths fit their prefixes ([encodable]), so a
    key determines the endpoints it was built from. *)

From S2P Require Import Prelude Values Bytes Types Contract Samples.

Definition TAG_BYTES : Z := 0.
Definition TAG_U64 : Z := 1.
Definition TAG_I64 : Z := 2.
Definition TAG_BOOL : Z := 3.
Definition TAG_STR : Z := 4.
Definition TAG_LIST : Z := 5.

(** [KeyBuf] is the bytes pushed so far; each encoder returns what it
    appends. *)
Definition encode_len_prefixed (tag : Z) (payload : list Z) : list Z :=
  let len := clamp_to u16_max (blen payload) in
  tag :: be_bytes 2 len ++ take (Z.to_nat len) payload.

Fixpoint encode_value (v : Value) : list Z :=
  match v with
  | VBytes b => encode_len_prefixed TAG_BYTES b
  | VU64 n => TAG_U64 :: be_bytes 8 n
  | VI64 n => TAG_I64 :: be_bytes 8 (n mod 2 ^ 64)
  | VBool b => [TAG_BOOL; Z.b2z b]
  | VStr s => encode_len_prefixed TAG_STR (str_bytes s)
  | VList vs =>
      let count := clamp_to u16_max (blen vs) in
      TAG_LIST :: be_bytes 2 count ++ concat (take (Z.to_nat count) (map encode_value vs))
  end.

(** The three buffers the loop of [flow_key] fills: shared, side A, side B. *)
Record KeySides := mkSides { shared : list Z; side_a : list Z; side_b : list Z }.

Fixpoint key_sides (ks : list KeyField) (m : FieldMap.t) (s : KeySides)
    : result KeySides KeyError :=
  match ks with
  | [] => Ok s
  | kf :: ks' =>
      match FieldMap.get (kf_a kf) m with
      | None => Error (MissingField (kf_a kf))
      | Some va =>
          match kf_b kf with
          | None =>
              key_sides ks' m (mkSides (shared s ++ encode_value va) (side_a s) (side_b s))
          | Some b =>
              match FieldMap.get b m with
              | None => Error (MissingField b)
              | Some vb =>
                  key_sides ks' m (mkSides (shared s) (side_a s ++ encode_value va)
                                     (side_b s ++ encode_value vb))
              end
          end
      end
  end.

Definition flow_key (id : StreamIdentity) (m : FieldMap.t)
    : result (FlowKey * PacketDirection) KeyError :=
  match canonicalize id with
  | CustomRule f => f m
  | EndpointSort =>
      match key_sides (key id) m (mkSides [] [] []) with
      | Error e => Error e
      | Ok s =>
          let direction := if lex_leb (side_a s) (side_b s) then AtoB else BtoA in
          let '(lo, hi) := match direction with
                           | AtoB => (side_a s, side_b s)
                           | BtoA => (side_b s, side_a s)
                           end in
          Ok (shared s ++ lo ++ hi, direction)
      end
  end.

(** ** Prefix-freedom of the encoding *)

(** Lengths and counts that their [u16] prefixes can hold, at every level. *)
Fixpoint encodable (v : Value) : Prop :=
  match v with
  | VBytes b => blen b <= u16_max
  | VStr s => blen (str_bytes s) <= u16_max
  | VList vs =>
      blen vs <= u16_max /\
      (fix go (vs : list Value) : Prop :=
         match vs with [] => True | v :: vs' => encodable v /\ go vs' end) vs
  | _ => True
  end.

Lemma encodable_VList vs : encodable (VList vs) <-> blen vs <= u16_max /\ Forall encodable vs.
Proof.
  simpl. apply and_iff_compat_l. induction vs as [|v vs IH]; [by split; [constructor|]|].
  by rewrite Forall_cons, <- IH.
Qed.

Lemma clamp_id max n : n <= max -> clamp_to max n = n.
Proof. intros H. unfold clamp_to. by rewrite (proj2 (Z.leb_le _ _) H). Qed.

Lemma encode_len_prefixed_short tag b :
  blen b <= u16_max -> encode_len_prefixed tag b = tag :: be_bytes 2 (blen b) ++ b.
Proof.
  intros H. unfold encode_len_prefixed. rewrite clamp_id by done.
  rewrite take_ge; [done|]. unfold blen. lia.
Qed.

(** A length-prefixed field can be split off the front. *)
Lemma be_prefix_inj n z1 z2 r1 r2 :
  0 <= z1 < 256 ^ Z.of_nat n -> 0 <= z2 < 256 ^ Z.of_nat n ->
  be_bytes n z1 ++ r1 = be_bytes n z2 ++ r2 -> z1 = z2 /\ r1 = r2.
Proof.
  intros H1 H2 H. apply app_inj_1 in H as [Hb ->]; [|by rewrite !length_be_bytes].
  split; [|done]. by eapply be_bytes_inj.
Qed.

Lemma cons_eq_inv {A} (x y : A) l k : x :: l = y :: k -> x = y /\ l = k.
Proof. by intros [= -> ->]. Qed.

#[local] Arguments be_bytes : simpl never.

Lemma len_prefixed_inj tag1 tag2 b1 b2 r1 r2 :
  blen b1 <= u16_max -> blen b2 <= u16_max ->
  encode_len_prefixed tag1 b1 ++ r1 = encode_len_prefixed tag2 b2 ++ r2 ->
  tag1 = tag2 /\ b1 = b2 /\ r1 = r2.
Proof.
  unfold u16_max. intros H1 H2. rewrite !encode_len_prefixed_short by done.
  rewrite <- !app_comm_cons, <- !app_assoc. intros H. apply cons_eq_inv in H as [-> H].
  pose proof (blen_nonneg b1). pose proof (blen_nonneg b2).
  apply be_prefix_inj in H as [Hl H]; [|simpl; lia..].
  apply app_inj_1 in H as [-> ->]; [done|]. unfold blen in Hl. lia.
Qed.

Lemma str_bytes_encodable_inj s t : str_bytes s = str_bytes t -> VStr s = VStr t.
Proof. intros H. f_equal. by apply str_bytes_inj. Qed.

(** Values encoded in a row are read back one at a time. *)
Definition prefix_free (v : Value) : Prop :=
  forall w r1 r2, value_ok v -> value_ok w -> encodable v -> encodable w ->
    encode_value v ++ r1 = encode_value w ++ r2 -> v = w /\ r1 = r2.

Lemma concat_prefix_free vs ws r1 r2 :
  Forall prefix_free vs -> length vs = length ws ->
  Forall value_ok vs -> Forall value_ok ws -> Forall encodable vs -> Forall encodable ws ->
  concat (map encode_value vs) ++ r1 = concat (map encode_value ws) ++ r2 ->
  vs = ws /\ r1 = r2.
Proof.
  intros Hp. revert ws. induction Hp as [|v vs Hv Hvs IH]; intros [|w ws] Hl Ho1 Ho2 He1 He2 H;
    simplify_eq/=; [done|].
  apply Forall_cons in Ho1 as [? ?], Ho2 as [? ?], He1 as [? ?], He2 as [? ?].
  rewrite <- !app_assoc in H. apply Hv in H as [-> H]; try done.
  apply IH in H as [-> ->]; try done.
Qed.

Lemma encode_value_list vs :
  blen vs <= u16_max ->
  encode_value (VList vs) = TAG_LIST :: be_bytes 2 (blen vs) ++ concat (map encode_value vs).
Proof.
  intros H. simpl. rewrite clamp_id by done. rewrite take_ge; [done|].
  rewrite length_map. unfold blen. lia.
Qed.

Lemma signed_mod_inj n1 n2 :
  i64_min <= n1 <= i64_max -> i64_min <= n2 <= i64_max ->
  n1 mod 2 ^ 64 = n2 mod 2 ^ 64 -> n1 = n2.
Proof.
  unfold i64_min, i64_max. intros H1 H2 H.
  pose proof (Z.div_mod n1 (2 ^ 64)). pose proof (Z.div_mod n2 (2 ^ 64)).
  assert (n1 - n2 = 2 ^ 64 * (n1 / 2 ^ 64 - n2 / 2 ^ 64)) by lia.
  assert (n1 / 2 ^ 64 - n2 / 2 ^ 64 = 0) by lia. lia.
Qed.

Lemma encode_value_prefix_free v : prefix_free v.
Proof.
  unfold prefix_free.
  induction v as [b|n|n|b|s|vs IH] using value_nested_ind;
    intros [b'|n'|n'|b'|s'|vs'] r1 r2 Ho1 Ho2 He1 He2 H; try (simpl in H; discriminate H).
  - apply len_prefixed_inj in H as (_ & -> & ->); done.
  - cbn [encode_value] in H. rewrite <- !app_comm_cons in H.
    apply cons_eq_inv in H as [_ H]. unfold value_ok, u64_max in *.
    apply be_prefix_inj in H as [-> ->]; [done|simpl; lia..].
  - cbn [encode_value] in H. rewrite <- !app_comm_cons in H.
    apply cons_eq_inv in H as [_ H].
    apply be_prefix_inj in H as [H ->]; [|apply Z.mod_pos_bound; lia..].
    by apply signed_mod_inj in H as ->.
  - simpl in H. destruct b, b'; by simplify_eq/=.
  - apply len_prefixed_inj in H as (_ & H & ->); [|done..]. by apply str_bytes_inj in H as ->.
  - apply encodable_VList in He1 as [Hl1 He1], He2 as [Hl2 He2].
    apply value_ok_VList in Ho1, Ho2. rewrite !encode_value_list in H by done.
    rewrite <- !app_comm_cons, <- !app_assoc in H. apply cons_eq_inv in H as [_ H].
    unfold u16_max in *. pose proof (blen_nonneg vs). pose proof (blen_nonneg vs').
    apply be_prefix_inj in H as [Hl H]; [|simpl; lia..].
    apply concat_prefix_free in H as [-> ->]; [done|exact IH|unfold blen in Hl; lia|done..].
Qed.

Lemma encode_value_inj v w :
  value_ok v -> value_ok w -> encodable v -> encodable w ->
  encode_value v = encode_value w -> v = w.
Proof.
  intros ???? H. apply (encode_value_prefix_free v w [] []); try done. by rewrite H.
Qed.

(** ** What a key is made of *)

(** The values behind the three buffers. *)
Fixpoint key_values (ks : list KeyField) (m : FieldMap.t)
    : option (list Value * list Value * list Value) :=
  match ks with
  | [] => Some ([], [], [])
  | kf :: ks' =>
      va ← FieldMap.get (kf_a kf) m;
      match kf_b kf with
      | None => '(sh, a, b) ← key_values ks' m; Some (va :: sh, a, b)
      | Some nb =>
          vb ← FieldMap.get nb m;
          '(sh, a, b) ← key_values ks' m; Some (sh, va :: a, vb :: b)
      end
  end.

Definition encode_values (vs : list Value) : list Z := concat (map encode_value vs).

(** The first key-named field, in declaration order, that is absent. *)
Definition first_missing (ks : list KeyField) (m : FieldMap.t) : option FieldName :=
  find_first (fun n => bool_decide (FieldMap.get n m = None)) (key_names ks).

Lemma key_names_cons kf ks :
  key_names (kf :: ks) = kf_a kf :: from_option (fun b => [b]) [] (kf_b kf) ++ key_names ks.
Proof. done. Qed.

Lemma key_sides_values ks m s sh a b :
  key_values ks m = Some (sh, a, b) ->
  key_sides ks m s = Ok (mkSides (shared s ++ encode_values sh) (side_a s ++ encode_values a)
                           (side_b s ++ encode_values b)).
Proof.
  unfold encode_values. revert s sh a b. induction ks as [|kf ks IH]; intros s sh a b H; simpl in *.
  - simplify_eq/=. rewrite !app_nil_r. by destruct s.
  - destruct (FieldMap.get (kf_a kf) m) as [va|]; [|done]. simpl in H.
    destruct (kf_b kf) as [nb|]; [destruct (FieldMap.get nb m) as [vb|]; [|done]|]; simpl in H;
      (destruct (key_values ks m) as [[[sh' a'] b']|]; [|done]); simplify_eq/=;
      rewrite (IH _ _ _ _ eq_refl); simpl; by rewrite !app_assoc.
Qed.

Lemma key_sides_missing ks m s :
  key_values ks m = None ->
  exists n, first_missing ks m = Some n /\ key_sides ks m s = Error (MissingField n).
Proof.
  unfold first_missing. revert s. induction ks as [|kf ks IH]; intros s H; [done|].
  rewrite key_names_cons. simpl in *.
  destruct (FieldMap.get (kf_a kf) m) as [va|]; [|by eauto]. simpl in *.
  destruct (kf_b kf) as [nb|]; [destruct (FieldMap.get nb m) as [vb|] eqn:Eb|]; simpl in *;
    rewrite ?Eb; simpl.
  - apply IH. by destruct (key_values ks m) as [[[? ?] ?]|].
  - by eauto.
  - apply IH. by destruct (key_values ks m) as [[[? ?] ?]|].
Qed.

Lemma key_values_is_Some ks m :
  is_Some (key_values ks m) <-> Forall (fun n => is_Some (FieldMap.get n m)) (key_names ks).
Proof.
  induction ks as [|kf ks IH]; [split; [by constructor|by eauto]|].
  rewrite key_names_cons. rewrite Forall_cons, Forall_app, <- IH. simpl.
  destruct (FieldMap.get (kf_a kf) m) as [va|]; simpl.
  2: { split; [by intros [? ?]|by intros [[? ?] _]]. }
  destruct (kf_b kf) as [nb|]; simpl; [rewrite Forall_singleton; destruct (FieldMap.get nb m); simpl|].
  - by destruct (key_values ks m) as [[[? ?] ?]|]; simpl; split; [intros; split_and!; eauto|eauto|intros [? ?]|intros (_ & _ & [? ?])].
  - split; [by intros [? ?]|by intros (_ & [? ?] & _)].
  - by destruct (key_values ks m) as [[[? ?] ?]|]; simpl; split; [intros; split_and!; eauto|eauto|intros [? ?]|intros (_ & _ & [? ?])].
Qed.

Lemma key_values_length ks m1 m2 sh1 a1 b1 sh2 a2 b2 :
  key_values ks m1 = Some (sh1, a1, b1) -> key_values ks m2 = Some (sh2, a2, b2) ->
  length sh1 = length sh2 /\ length a1 = length a2 /\ length b1 = length b2 /\ length a1 = length b1.
Proof.
  revert sh1 a1 b1 sh2 a2 b2. induction ks as [|kf ks IH]; intros sh1 a1 b1 sh2 a2 b2 H1 H2; simpl in *.
  - by simplify_eq.
  - destruct (FieldMap.get (kf_a kf) m1), (FieldMap.get (kf_a kf) m2); try done. simpl in *.
    destruct (kf_b kf) as [nb|];
      [destruct (FieldMap.get nb m1), (FieldMap.get nb m2); try done; simpl in *|];
      (destruct (key_values ks m1) as [[[? ?] ?]|]; [|done]);
      (destruct (key_values ks m2) as [[[? ?] ?]|]; [|done]); simplify_eq/=;
      destruct (IH _ _ _ _ _ _ eq_refl eq_refl) as (? & ? & ? & ?); lia.
Qed.

(** Values a key may be built from. *)
Definition key_value_ok (v : Value) : Prop := value_ok v /\ encodable v.

Lemma encode_values_inj vs ws r1 r2 :
  length vs = length ws -> Forall key_value_ok vs -> Forall key_value_ok ws ->
  encode_values vs ++ r1 = encode_values ws ++ r2 -> vs = ws /\ r1 = r2.
Proof.
  unfold key_value_ok, encode_values. rewrite !Forall_and. intros Hl [Ho1 He1] [Ho2 He2] H.
  apply concat_prefix_free in H; try done.
  apply Forall_forall. intros v _. apply encode_value_prefix_free.
Qed.

Lemma flow_key_values id m sh a b :
  canonicalize id = EndpointSort -> key_values (key id) m = Some (sh, a, b) ->
  flow_key id m =
  Ok (if lex_leb (encode_values a) (encode_values b)
      then (encode_values sh ++ encode_values a ++ encode_values b, AtoB)
      else (encode_values sh ++ encode_values b ++ encode_values a, BtoA)).
Proof.
  intros Hc Hk. unfold flow_key. rewrite Hc, (key_sides_values _ _ _ _ _ _ Hk). simpl.
  by destruct (lex_leb _ _).
Qed.

(** The three value lists are recovered from the concatenated encodings. *)
Lemma encoded_parts_inj sh1 x1 y1 sh2 x2 y2 :
  length sh1 = length sh2 -> length x1 = length x2 -> length y1 = length y2 ->
  Forall key_value_ok (sh1 ++ x1 ++ y1) -> Forall key_value_ok (sh2 ++ x2 ++ y2) ->
  encode_values sh1 ++ encode_values x1 ++ encode_values y1 =
  encode_values sh2 ++ encode_values x2 ++ encode_values y2 ->
  sh1 = sh2 /\ x1 = x2 /\ y1 = y2.
Proof.
  rewrite !Forall_app. intros L1 L2 L3 (? & ? & ?) (? & ? & ?) Henc.
  apply encode_values_inj in Henc as [-> Henc]; [|done..].
  apply encode_values_inj in Henc as [-> Henc]; [|done..].
  rewrite <- (app_nil_r (encode_values y1)), <- (app_nil_r (encode_values y2)) in Henc.
  by apply encode_values_inj in Henc as [-> _].
Qed.

(** Equal encodings of the two sides commute. *)
Lemma encoded_sides_comm x y :
  lex_leb (encode_values x) (encode_values y) = true ->
  lex_leb (encode_values y) (encode_values x) = true ->
  encode_values x ++ encode_values y = encode_values y ++ encode_values x.
Proof. intros ? ?. by rewrite (lex_leb_antisym (encode_values x) (encode_values y)). Qed.

Lemma flow_key_ready id m : key_ready id m <-> exists kd, flow_key id m = Ok kd.
Proof.
  unfold key_ready, flow_key. destruct (canonicalize id) as [|f]; [|done].
  rewrite <- key_values_is_Some. split.
  - intros [[[sh a] b] Hk]. rewrite (key_sides_values _ _ _ _ _ _ Hk). simpl.
    destruct (lex_leb _ _); by eauto.
  - intros [kd Hk]. destruct (key_values (key id) m) as [x|] eqn:E; [by eauto|].
    destruct (key_sides_missing _ _ (mkSides [] [] []) E) as (n & _ & Hs). by rewrite Hs in Hk.
Qed.

(** ** Properties *)

(** The encoding loses nothing: values whose lengths fit their prefixes have
    distinct encodings, even when other encodings follow them. *)
Theorem encode_value_injective v w r1 r2 :
  value_ok v -> value_ok w -> encodable v -> encodable w ->
  encode_value v ++ r1 = encode_value w ++ r2 -> v = w /\ r1 = r2.
Proof. intros. by apply encode_value_prefix_free. Qed.

Lemma encode_value_injective_witness :
  encode_value (VStr "ab") <> encode_value (VBytes [97; 98]).
Proof.
  intros H.
  destruct (encode_value_injective (VStr "ab") (VBytes [97; 98]) [] []) as [? _];
    [done|by repeat constructor|by vm_compute|by vm_compute|by rewrite H|done].
Defined.

(** C38: Two packets share an endpoint-sorted key exactly when they agree on the
    shared values and on the unordered pair of endpoints; they then have the
    same direction exactly when the endpoints are on the same sides. *)
Theorem flow_key_identity id m1 m2 sh1 a1 b1 sh2 a2 b2 k1 d1 k2 d2 :
  canonicalize id = EndpointSort ->
  key_values (key id) m1 = Some (sh1, a1, b1) -> key_values (key id) m2 = Some (sh2, a2, b2) ->
  Forall key_value_ok (sh1 ++ a1 ++ b1) -> Forall key_value_ok (sh2 ++ a2 ++ b2) ->
  flow_key id m1 = Ok (k1, d1) -> flow_key id m2 = Ok (k2, d2) ->
  (k1 = k2 <-> sh1 = sh2 /\ ((a1 = a2 /\ b1 = b2) \/ (a1 = b2 /\ b1 = a2))) /\
  (k1 = k2 -> (d1 = d2 <-> a1 = a2 /\ b1 = b2)).
Proof.
  intros Hc Hk1 Hk2 Hok1 Hok2 Hf1 Hf2.
  pose proof (key_values_length _ _ _ _ _ _ _ _ _ Hk1 Hk2) as (Ls & La & Lb & Lab).
  rewrite (flow_key_values _ _ _ _ _ Hc Hk1) in Hf1.
  rewrite (flow_key_values _ _ _ _ _ Hc Hk2) in Hf2.
  rewrite !Forall_app in Hok1, Hok2. destruct Hok1 as (? & ? & ?), Hok2 as (? & ? & ?).
  destruct (lex_leb (encode_values a1) (encode_values b1)) eqn:E1,
    (lex_leb (encode_values a2) (encode_values b2)) eqn:E2; simplify_eq;
    (split; [split|]; [intros Hk|intros [-> [[-> ->]|[-> ->]]]|intros Hk]);
    try (apply encoded_parts_inj in Hk as (-> & ? & ?); [|rewrite ?Forall_app; done || congruence..]);
    try (by intuition congruence); try done.
  - by rewrite encoded_sides_comm.
  - apply lex_leb_total in E1. congruence.
Qed.

(** The reply of a packet of [sample_link] keys to the same stream, backwards. *)
Lemma flow_key_identity_witness :
  exists k, flow_key pair_identity [("src", VU64 9); ("dst", VU64 4)]%string = Ok (k, BtoA) /\
            flow_key pair_identity [("src", VU64 4); ("dst", VU64 9)]%string = Ok (k, AtoB).
Proof.
  assert (forall v, 0 <= v <= 9 -> key_value_ok (VU64 v)) as Hok
    by (intros v Hv; split; [unfold value_ok, u64_max; lia|done]).
  destruct (flow_key pair_identity [("src", VU64 9); ("dst", VU64 4)]%string) as [[k1 d1]|] eqn:E1;
    [|by vm_compute in E1].
  destruct (flow_key pair_identity [("src", VU64 4); ("dst", VU64 9)]%string) as [[k2 d2]|] eqn:E2;
    [|by vm_compute in E2].
  assert (k1 = k2) as <-.
  { eapply (flow_key_identity pair_identity [("src", VU64 9); ("dst", VU64 4)]%string
              [("src", VU64 4); ("dst", VU64 9)]%string);
      [reflexivity|reflexivity|reflexivity| | |exact E1|exact E2|split; [done|by right]];
      repeat (constructor; [apply Hok; lia|]); constructor. }
  exists k1. vm_compute in E1, E2. split; congruence.
Defined.

(** Key construction is total up to its one documented error, which names the
    first absent key field in declaration order; with every key field present
    it succeeds. *)
Theorem flow_key_missing_field id m :
  canonicalize id = EndpointSort ->
  match first_missing (key id) m with
  | Some n => flow_key id m = Error (MissingField n)
  | None => key_ready id m /\ exists k d, flow_key id m = Ok (k, d)
  end.
Proof.
  intros Hc. destruct (key_values (key id) m) as [[[sh a] b]|] eqn:E.
  - assert (key_ready id m) as Hr.
    { unfold key_ready. rewrite Hc. apply key_values_is_Some. by rewrite E. }
    assert (first_missing (key id) m = None) as ->.
    { apply find_first_None. intros n Hn. apply bool_decide_false. intros Hnone.
      unfold key_ready in Hr. rewrite Hc, Forall_forall in Hr. destruct (Hr n Hn). congruence. }
    split; [done|]. apply flow_key_ready in Hr as [[k d] ?]. by eauto.
  - destruct (key_sides_missing _ _ (mkSides [] [] []) E) as (n & -> & Hs).
    unfold flow_key. by rewrite Hc, Hs.
Qed.

Lemma flow_key_missing_field_witness :
  flow_key pair_identity [("src"%string, VU64 9)] = Error (MissingField "dst").
Proof. exact (flow_key_missing_field pair_identity [("src"%string, VU64 9)] eq_refl). Defined.
