(* ===== verification/Rollups.v ===== *)
(** * Metadata rollups

    Models [crates/pktflow-flows/src/rollup.rs]: the three retention kinds,
    their construction from the plugin's declaration under the configured
    caps, and the per-packet [apply].  [rollup_history] states what a rollup
    set holds after any run of packets, in terms of the observed values. *)

From S2P Require Import Prelude Values Bytes Types Contract.

Definition ACCUMULATE_SET_CAP : nat := 64.

(** The timestamp is a signed nanosecond offset from the stream's
    [first_seen], clamped to [i64]. *)
Record SeriesPoint := mkPoint {
  ts_offset_nanos : Z;
  point_dir : PacketDirection;
  point_value : Value;
}.

(** [i64::wrapping_neg]. *)
Definition i64_wrapping_neg (n : Z) : Z := if n =? i64_min then i64_min else - n.

Definition SeriesPoint_new (base ts : SystemTime) (dir : PacketDirection) (v : Value) : SeriesPoint :=
  let ts_offset_nanos :=
    if base <=? ts
    then (if ts - base <=? i64_max then ts - base else i64_max)
    else (if base - ts <=? i64_max then i64_wrapping_neg (base - ts) else i64_min) in
  mkPoint ts_offset_nanos dir v.

(** [SeriesPoint::ts]; [unsigned_abs] is the mathematical absolute value. *)
Definition point_ts (p : SeriesPoint) (base : SystemTime) : SystemTime :=
  if 0 <=? ts_offset_nanos p then base + ts_offset_nanos p else base - Z.abs (ts_offset_nanos p).

Inductive Rollup :=
  | Accumulate (values : list Value) (count : Z) (overflow : bool)
  | Sample (first last : option Value)
  | Series (ring : list SeriesPoint) (cap : Z) (truncated : bool).

(** [struct RollupSet { entries: Vec<(FieldName, Rollup)> }]. *)
Definition RollupSet : Type := list (FieldName * Rollup).

Definition series_cap (cap default_cap : Z) (max_cap : option Z) : Z :=
  let cap := if cap =? 0 then default_cap else cap in
  match max_cap with Some clamp => Z.min cap (Z.max clamp 1) | None => cap end.

Definition rollup_of (k : RollupKind) (default_cap : Z) (max_cap : option Z) : Rollup :=
  match k with
  | RK_Accumulate => Accumulate [] 0 false
  | RK_Sample => Sample None None
  | RK_Series cap => Series [] (series_cap cap default_cap max_cap) false
  end.

Definition RollupSet_new (specs : list RollupSpec) (series_default_cap : Z)
    (series_max_cap : option Z) : RollupSet :=
  (fun spec => (rs_field spec, rollup_of (rs_kind spec) series_default_cap series_max_cap)) <$> specs.

(** [values.contains(v)] decides by the derived [Eq]. *)
Definition contains (v : Value) (vs : list Value) : bool := bool_decide (v ∈ vs).

(** One observation of a present field. *)
Definition observe (base ts : SystemTime) (dir : PacketDirection) (v : Value) (r : Rollup) : Rollup :=
  match r with
  | Accumulate values count overflow =>
      if contains v values then Accumulate values (count + 1) overflow
      else if (length values <? ACCUMULATE_SET_CAP)%nat
           then Accumulate (values ++ [v]) (count + 1) overflow
           else Accumulate values (count + 1) true
  | Sample first _ =>
      Sample (match first with None => Some v | Some _ => first end) (Some v)
  | Series ring cap truncated =>
      let full := cap <=? blen ring in
      Series ((if full then tail ring else ring) ++ [SeriesPoint_new base ts dir v]) cap
        (truncated || full)
  end.

Definition apply_entry (m : FieldMap.t) (base ts : SystemTime) (dir : PacketDirection)
    (e : FieldName * Rollup) : FieldName * Rollup :=
  match FieldMap.get e.1 m with
  | None => e
  | Some v => (e.1, observe base ts dir v e.2)
  end.

Definition RollupSet_apply (m : FieldMap.t) (base ts : SystemTime) (dir : PacketDirection)
    (s : RollupSet) : RollupSet :=
  apply_entry m base ts dir <$> s.

(** [RollupSet::get]: the first slot of that field. *)
Definition RollupSet_get (field : string) (s : RollupSet) : option Rollup :=
  snd <$> find_first (fun e => String.eqb e.1 field) s.

Definition RollupSet_is_empty (s : RollupSet) : bool := match s with [] => true | _ => false end.

(** ** What a rollup retains *)

(** Observations of one field, oldest first. *)
Abbreviation Observation := (SystemTime * PacketDirection * Value)%type (only parsing).

Definition observed (field : FieldName) (packets : list (FieldMap.t * SystemTime * PacketDirection))
    : list (SystemTime * PacketDirection * Value) :=
  omap (fun p => v ← FieldMap.get field p.1.1; Some (p.1.2, p.2, v)) packets.

(** The reading of a rollup declared as [k] after observing [obs]. *)
Definition retained (k : RollupKind) (default_cap : Z) (max_cap : option Z) (base : SystemTime)
    (obs : list (SystemTime * PacketDirection * Value)) : Rollup :=
  match k with
  | RK_Accumulate =>
      let '(vs, over) := bounded_set ACCUMULATE_SET_CAP obs.*2 in Accumulate vs (blen obs) over
  | RK_Sample => Sample (head obs.*2) (last obs.*2)
  | RK_Series cap =>
      let cap := series_cap cap default_cap max_cap in
      Series ((fun o => SeriesPoint_new base o.1.1 o.1.2 o.2) <$> last_n (Z.to_nat (Z.max 1 cap)) obs)
        cap (negb (bool_decide (obs = [])) && (cap <? blen obs))
  end.

Lemma observe_accumulate base ts dir v d m obs :
  observe base ts dir v (retained RK_Accumulate d m base obs) =
  retained RK_Accumulate d m base (obs ++ [(ts, dir, v)]).
Proof.
  simpl. rewrite fmap_app. change ([(ts, dir, v)].*2) with [v].
  rewrite blen_app, blen_cons, (blen_nil (A:=SystemTime * PacketDirection * Value)).
  pose proof (admit_bounded_snoc ACCUMULATE_SET_CAP obs.*2 v) as H.
  unfold admit_bounded, bounded_set, contains in *. simpl in H.
  case_decide; [rewrite bool_decide_true by done|rewrite bool_decide_false by done].
  - by injection H as <- <-.
  - destruct (length (take _ _) <? _)%nat; by injection H as <- <-.
Qed.

Lemma observe_sample base ts dir v d m obs :
  observe base ts dir v (retained RK_Sample d m base obs) =
  retained RK_Sample d m base (obs ++ [(ts, dir, v)]).
Proof.
  simpl. rewrite fmap_app. change ([(ts, dir, v)].*2) with [v]. rewrite last_snoc.
  by destruct obs as [|[[? ?] ?] obs].
Qed.

Lemma observe_series base ts dir v d m cap obs :
  0 <= series_cap cap d m ->
  observe base ts dir v (retained (RK_Series cap) d m base obs) =
  retained (RK_Series cap) d m base (obs ++ [(ts, dir, v)]).
Proof.
  intros Hc. simpl. set (c := series_cap cap d m) in *.
  rewrite last_n_snoc by lia. rewrite fmap_app. simpl.
  unfold blen at 1. rewrite length_fmap, length_last_n. f_equal.
  - f_equal. destruct (Nat.leb_spec (Z.to_nat (Z.max 1 c)) (length obs)) as [Hl|Hl].
    + rewrite (proj2 (Z.leb_le _ _)) by lia. by destruct (last_n _ obs).
    + destruct (Z.leb_spec c (Z.of_nat (Nat.min (Z.to_nat (Z.max 1 c)) (length obs)))) as [Hd|Hd]; [|done].
      assert (obs = []) as -> by (apply nil_length_inv; lia). by unfold last_n; rewrite drop_nil.
  - rewrite blen_app, blen_cons, (blen_nil (A:=SystemTime * PacketDirection * Value)).
    rewrite (bool_decide_false (obs ++ [(ts, dir, v)] = [])) by by destruct obs.
    simpl. unfold blen. pose proof (Nat2Z.is_nonneg (length obs)).
    case_bool_decide as He; [subst obs; simpl|]; simpl.
    + destruct (Z.leb_spec c (Z.of_nat 0)), (Z.ltb_spec c (Z.of_nat 0 + (0 + 1)));
        try done; exfalso; lia.
    + assert (0 < length obs)%nat as Hpos by (destruct obs; [done|simpl; lia]).
      rewrite orb_comm, length_fmap, length_last_n.
      destruct (Z.leb_spec c (Z.of_nat (Nat.min (Z.to_nat (Z.max 1 c)) (length obs))))
        as [Hle|Hgt]; simpl; symmetry.
      * apply Z.ltb_lt. lia.
      * rewrite !(proj2 (Z.ltb_ge _ _)) by lia. done.
Qed.

Lemma observe_retained k base ts dir v d m obs :
  0 <= series_cap (match k with RK_Series cap => cap | _ => 0 end) d m ->
  observe base ts dir v (retained k d m base obs) = retained k d m base (obs ++ [(ts, dir, v)]).
Proof.
  destruct k; intros; [apply observe_accumulate|apply observe_sample|by apply observe_series].
Qed.

Lemma rollup_of_retained k d m base : rollup_of k d m = retained k d m base [].
Proof. by destruct k. Qed.

(** ** Properties *)

(** The set as a function of the packets it was applied to. *)
Definition apply_all (base : SystemTime) (packets : list (FieldMap.t * SystemTime * PacketDirection))
    (s : RollupSet) : RollupSet :=
  foldl (fun s p => RollupSet_apply p.1.1 base p.1.2 p.2 s) s packets.

(** Whatever packets a stream sees, each declared rollup holds exactly what
    its kind promises about the values its field took: the first 64 distinct
    values with the number of observations and an honest overflow flag; the
    first and the last value; the latest points up to the cap, in order, with
    an honest truncation flag. *)
Theorem rollup_history specs default_cap max_cap base packets :
  0 <= default_cap -> Forall (fun s => match rs_kind s with RK_Series cap => 0 <= cap | _ => True end) specs ->
  apply_all base packets (RollupSet_new specs default_cap max_cap) =
  (fun s => (rs_field s, retained (rs_kind s) default_cap max_cap base (observed (rs_field s) packets)))
    <$> specs.
Proof.
  intros Hd Hs. unfold apply_all. induction packets as [|[[m ts] dir] packets IH] using rev_ind.
  - simpl. unfold RollupSet_new. apply list_fmap_ext. intros i s _. by rewrite (rollup_of_retained _ _ _ base).
  - rewrite foldl_app, IH. simpl. unfold RollupSet_apply. rewrite <- list_fmap_compose.
    apply list_fmap_ext. intros i s Hi. unfold compose, apply_entry, observed. simpl.
    rewrite omap_app. simpl. destruct (FieldMap.get (rs_field s) m) as [v|]; simpl;
      [|by rewrite app_nil_r].
    f_equal. apply observe_retained. eapply Forall_lookup_1 in Hs; [|exact Hi]. simpl in Hs.
    unfold series_cap. destruct (rs_kind s) as [| |cap]; simpl;
      [destruct max_cap; lia..|]. destruct (cap =? 0); destruct max_cap; lia.
Qed.

Lemma rollup_history_witness :
  let packet n t : FieldMap.t * SystemTime * PacketDirection := ([("n"%string, VU64 n)], t, AtoB) in
  apply_all 10 [packet 7 11; packet 7 12; packet 8 5]
    (RollupSet_new [mkRollupSpec "n" RK_Accumulate; mkRollupSpec "n" (RK_Series 2)] 0 None) =
  [("n"%string, Accumulate [VU64 7; VU64 8] 3 false);
   ("n"%string, Series [mkPoint 2 AtoB (VU64 7); mkPoint (-5) AtoB (VU64 8)] 2 true)].
Proof.
  intros packet. rewrite (rollup_history _ 0 None 10); [by vm_compute|lia|].
  repeat constructor; simpl; lia.
Defined.

(** A retained set never outgrows its bounds. *)
Theorem rollup_bounds k default_cap max_cap base obs :
  match retained k default_cap max_cap base obs with
  | Accumulate values count overflow =>
      (length values <= ACCUMULATE_SET_CAP)%nat /\ NoDup values /\ blen values <= count /\
      (overflow = false -> forall v, v ∈ obs.*2 -> v ∈ values)
  | Sample first last => first = None <-> last = None
  | Series ring cap truncated =>
      blen ring <= Z.max 1 cap /\ (truncated = false -> length ring = length obs) /\
      match max_cap with Some m => cap <= Z.max m 1 | None => True end
  end.
Proof.
  destruct k as [| |cap]; simpl.
  - split_and!.
    + rewrite length_take. lia.
    + pose proof (NoDup_dedup obs.*2) as Hnd.
      rewrite <- (take_drop ACCUMULATE_SET_CAP (dedup obs.*2)) in Hnd.
      by apply NoDup_app in Hnd as [? _].
    + unfold blen. rewrite length_take.
      assert (length (dedup obs.*2) <= length obs)%nat; [|lia].
      rewrite <- (length_fmap snd obs). apply submseteq_length, NoDup_submseteq; [apply NoDup_dedup|].
      intros v. by rewrite elem_of_dedup.
    + intros Ho v Hv. apply Nat.ltb_ge in Ho. rewrite take_ge by done. by apply elem_of_dedup.
  - rewrite last_None. by destruct obs as [|[[? ?] ?] obs].
  - unfold blen. rewrite length_fmap, length_last_n. split_and!; [lia| |].
    + intros Ht. apply andb_false_iff in Ht as [He|Hl].
      * apply negb_false_iff, bool_decide_eq_true in He. rewrite He. simpl. lia.
      * apply Z.ltb_ge in Hl. unfold blen in Hl. lia.
    + unfold series_cap. destruct max_cap; [lia|done].
Qed.

(** Timestamps survive the offset encoding exactly within the range of [i64]
    nanoseconds around the base, on either side of it, and saturate beyond. *)
Theorem series_point_ts base ts dir v :
  point_ts (SeriesPoint_new base ts dir v) base = base + Z.max i64_min (Z.min i64_max (ts - base)).
Proof.
  unfold point_ts, SeriesPoint_new, i64_wrapping_neg, i64_min, i64_max. simpl.
  destruct (Z.leb_spec base ts).
  - destruct (Z.leb_spec (ts - base) 9223372036854775807);
      rewrite (proj2 (Z.leb_le _ _)) by lia; lia.
  - destruct (Z.leb_spec (base - ts) 9223372036854775807).
    + destruct (Z.eqb_spec (base - ts) (-9223372036854775808)); [lia|].
      rewrite (proj2 (Z.leb_gt _ _)) by lia. lia.
    + simpl. lia.
Qed.
