(* ===== verification/Unknowns.v ===== *)
(** * The unknown-occurrence registry

    Models [crates/pktflow-flows/src/unknown.rs]: one group per shape of
    unknown payload, updated by [registry_ingest] and bounded by
    [enforce_max_groups].  The source's hash maps are [gmap]s; the choice of
    the coldest group does not depend on their iteration order because
    sequence numbers are distinct ([registry_ok]). *)

From S2P Require Import Prelude Values Bytes Types Contract Rollups.

Record EndpointKey := mkEndpoint { ep_protocol : ProtocolName; ep_key : list Z }.

#[export] Instance EndpointKey_eq_dec : EqDecision EndpointKey.
Proof. solve_decision. Defined.

Record UnknownKey := mkUnknownKey { predecessor : ProtocolName; uk_route : option RouteId }.

#[export] Instance UnknownKey_eq_dec : EqDecision UnknownKey.
Proof. solve_decision. Defined.

#[export] Instance UnknownKey_countable : Countable UnknownKey.
Proof.
  apply (inj_countable' (fun k => (predecessor k, uk_route k)) (fun p => mkUnknownKey p.1 p.2)).
  by intros [].
Defined.

(** [impl From<&UnknownContext> for UnknownKey]. *)
Definition UnknownKey_of (c : UnknownContext) : UnknownKey :=
  match c with
  | UC_UnclaimedRoute p r => mkUnknownKey p (Some r)
  | UC_NoHeuristicWinner p => mkUnknownKey p None
  end.

(** The derived [Ord]. *)
Definition unknown_key_leb : UnknownKey -> UnknownKey -> bool :=
  key_leb (fun k => (predecessor k, uk_route k)) (lex_pair str_leb (option_leb route_leb)).

#[export] Instance unknown_key_leb_ord : TotalOrd unknown_key_leb.
Proof. unfold unknown_key_leb. apply _. Qed.

Record UnknownGroup := mkGroup {
  ug_key : UnknownKey;
  ug_count : Z;
  bytes_total : Z;
  bytes_min : Z;
  bytes_max : Z;
  ug_first_seen : SystemTime;
  ug_last_seen : SystemTime;
  endpoints : list EndpointKey;
  endpoints_overflow : bool;
  ug_near_misses : list (ProtocolName * Z);
  samples : list (list Z);
}.

Record UnknownRegistryConfig := mkUnknownConfig { max_groups : nat; samples_per_group : nat }.

Definition UnknownRegistryConfig_default : UnknownRegistryConfig := mkUnknownConfig 500 5.

Record UnknownRegistry := mkRegistry {
  groups : gmap UnknownKey UnknownGroup;
  seqs : gmap UnknownKey Z;
  ur_next_seq : Z;
}.

Definition UnknownRegistry_new : UnknownRegistry := mkRegistry ∅ ∅ 0.

(** One occurrence, as [ingest] receives it. *)
Record Occurrence := mkOccurrence {
  oc_diag : UnknownDiagnostics;
  oc_bytes : Z;
  oc_ts : SystemTime;
  oc_endpoint : option EndpointKey;
}.

Definition oc_key (o : Occurrence) : UnknownKey := UnknownKey_of (context (oc_diag o)).

Definition new_group (k : UnknownKey) (ts : SystemTime) : UnknownGroup :=
  mkGroup k 0 0 u32_max 0 ts ts [] false [] [].

(** Admit an endpoint into the bounded distinct set. *)
Definition note_endpoint (ep : option EndpointKey) (eps : list EndpointKey) (over : bool)
    : list EndpointKey * bool :=
  match ep with
  | None => (eps, over)
  | Some e =>
      if bool_decide (e ∈ eps) then (eps, over)
      else if (length eps <? ACCUMULATE_SET_CAP)%nat then (eps ++ [e], over) else (eps, true)
  end.

(** [candidate_top.is_some() && candidate_top >= current_top]. *)
Definition better_near_misses (candidate current : list (ProtocolName * Z)) : bool :=
  match candidate, current with
  | [], _ => false
  | _, [] => true
  | (_, c) :: _, (_, d) :: _ => d <=? c
  end.

Definition update_group (samples_per_group : nat) (o : Occurrence) (g : UnknownGroup) : UnknownGroup :=
  let '(eps, over) := note_endpoint (oc_endpoint o) (endpoints g) (endpoints_overflow g) in
  mkGroup (ug_key g) (ug_count g + 1) (bytes_total g + oc_bytes o)
    (Z.min (bytes_min g) (oc_bytes o)) (Z.max (bytes_max g) (oc_bytes o))
    (Z.min (ug_first_seen g) (oc_ts o)) (Z.max (ug_last_seen g) (oc_ts o))
    eps over
    (if better_near_misses (diag_near_misses (oc_diag o)) (ug_near_misses g)
     then diag_near_misses (oc_diag o) else ug_near_misses g)
    ((if (samples_per_group <=? length (samples g))%nat then tail (samples g) else samples g)
       ++ [sample (oc_diag o)]).

(** The order of [min_by_key]: last update, then insertion. *)
Definition colder (sq : gmap UnknownKey Z) (a b : UnknownGroup) : bool :=
  (ug_last_seen a <? ug_last_seen b) ||
  ((ug_last_seen a =? ug_last_seen b) &&
   (default 0 (sq !! ug_key a) <=? default 0 (sq !! ug_key b))).

Fixpoint coldest (sq : gmap UnknownKey Z) (gs : list UnknownGroup) : option UnknownGroup :=
  match gs with
  | [] => None
  | g :: gs' =>
      match coldest sq gs' with
      | None => Some g
      | Some h => if colder sq g h then Some g else Some h
      end
  end.

Definition group_values (r : UnknownRegistry) : list UnknownGroup := (map_to_list (groups r)).*2.

(** One round of [while self.groups.len() > max_groups]. *)
Definition enforce_body (max_groups : nat) (r : UnknownRegistry) : ctl UnknownRegistry :=
  if (max_groups <? size (groups r))%nat
  then match coldest (seqs r) (group_values r) with
       | Some g => Again (mkRegistry (delete (ug_key g) (groups r)) (delete (ug_key g) (seqs r))
                            (ur_next_seq r))
       | None => Done r
       end
  else Done r.

Definition enforce_max_groups (max_groups : nat) (r : UnknownRegistry) : UnknownRegistry :=
  run_loop (enforce_body max_groups) (S (size (groups r))) r.

(** The group update, before the cap is enforced. *)
Definition record_occurrence (samples_per_group : nat) (o : Occurrence) (r : UnknownRegistry)
    : UnknownRegistry :=
  let k := oc_key o in
  let '(sq, nx) := match seqs r !! k with
                   | Some _ => (seqs r, ur_next_seq r)
                   | None => (<[k := ur_next_seq r]> (seqs r), ur_next_seq r + 1)
                   end in
  let g := default (new_group k (oc_ts o)) (groups r !! k) in
  mkRegistry (<[k := update_group samples_per_group o g]> (groups r)) sq nx.

Definition registry_ingest (cfg : UnknownRegistryConfig) (o : Occurrence) (r : UnknownRegistry)
    : UnknownRegistry :=
  enforce_max_groups (max_groups cfg) (record_occurrence (samples_per_group cfg) o r).

(** [groups()]: count descending, then key. *)
Definition group_leb : UnknownGroup -> UnknownGroup -> bool :=
  key_leb (fun g => (ug_count g, ug_key g)) (lex_pair (reverse_leb Z.leb) unknown_key_leb).

#[export] Instance group_leb_ord : TotalOrd group_leb.
Proof. unfold group_leb. apply _. Qed.

Definition registry_groups (r : UnknownRegistry) : list UnknownGroup :=
  sort_by group_leb (group_values r).

Definition registry_group (r : UnknownRegistry) (k : UnknownKey) : option UnknownGroup :=
  groups r !! k.

(** ** The registry invariant *)

Record registry_ok (r : UnknownRegistry) : Prop := {
  rk_key : forall k g, groups r !! k = Some g -> ug_key g = k;
  rk_seqs : forall k, is_Some (groups r !! k) <-> is_Some (seqs r !! k);
  rk_bound : forall k n, seqs r !! k = Some n -> n < ur_next_seq r;
  rk_inj : forall k1 k2 n, seqs r !! k1 = Some n -> seqs r !! k2 = Some n -> k1 = k2;
}.

Lemma registry_new_ok : registry_ok UnknownRegistry_new.
Proof. split; simpl; [intros k g|intros k|intros k n|intros k1 k2 n]; by rewrite !lookup_empty. Qed.

Lemma update_group_key n o g : ug_key (update_group n o g) = ug_key g.
Proof. unfold update_group. by destruct (note_endpoint _ _ _). Qed.

Lemma record_occurrence_ok n o r : registry_ok r -> registry_ok (record_occurrence n o r).
Proof.
  intros [Hk Hs Hb Hi]. unfold record_occurrence.
  destruct (seqs r !! oc_key o) as [q|] eqn:E; split; simpl.
  - intros k g. rewrite lookup_insert. case_decide as Hd; [|apply Hk]. intros; simplify_eq.
    rewrite update_group_key. destruct (groups r !! oc_key o) eqn:E2; simpl; [by apply Hk|done].
  - intros k. rewrite lookup_insert. case_decide as Hd; [subst k|apply Hs]. by rewrite E.
  - done.
  - done.
  - intros k g. rewrite lookup_insert. case_decide as Hd; [|apply Hk]. intros; simplify_eq.
    rewrite update_group_key. destruct (groups r !! oc_key o) eqn:E2; simpl; [by apply Hk|done].
  - intros k. rewrite !lookup_insert. case_decide; [by split; eauto|apply Hs].
  - intros k m. rewrite lookup_insert. case_decide; [intros; simplify_eq; lia|].
    intros Hm. apply Hb in Hm. lia.
  - intros k1 k2 m. rewrite !lookup_insert. do 2 case_decide; subst; try done; intros H1 H2; simplify_eq.
    + apply Hb in H2. lia.
    + apply Hb in H1. lia.
    + by eapply Hi.
Qed.

Lemma elem_of_group_values r g : g ∈ group_values r <-> exists k, groups r !! k = Some g.
Proof.
  unfold group_values. rewrite list_elem_of_fmap. split.
  - intros ([k h] & -> & Hin). apply elem_of_map_to_list in Hin. by exists k.
  - intros [k Hk]. exists (k, g). split; [done|]. by apply elem_of_map_to_list.
Qed.

Lemma length_group_values r : length (group_values r) = size (groups r).
Proof. unfold group_values. by rewrite length_fmap, length_map_to_list. Qed.

Lemma colder_total sq a b : colder sq a b = false -> colder sq b a = true.
Proof.
  unfold colder. rewrite orb_false_iff, andb_false_iff, orb_true_iff, andb_true_iff,
    !Z.ltb_lt, !Z.ltb_ge, !Z.eqb_eq, !Z.eqb_neq, !Z.leb_le, !Z.leb_gt. lia.
Qed.

Lemma colder_trans sq a b c : colder sq a b = true -> colder sq b c = true -> colder sq a c = true.
Proof.
  unfold colder. rewrite !orb_true_iff, !andb_true_iff, !Z.ltb_lt, !Z.eqb_eq, !Z.leb_le. lia.
Qed.

Lemma colder_refl sq a : colder sq a a = true.
Proof. unfold colder. by rewrite Z.eqb_refl, Z.leb_refl, orb_true_r. Qed.

Lemma coldest_Some sq gs g :
  coldest sq gs = Some g -> g ∈ gs /\ forall h, h ∈ gs -> colder sq g h = true.
Proof.
  revert g. induction gs as [|x gs IH]; intros g H; simpl in H; [done|].
  destruct (coldest sq gs) as [y|] eqn:E.
  - destruct (IH y eq_refl) as [Hy Hmin].
    destruct (colder sq x y) eqn:Ec; simplify_eq.
    + split; [apply elem_of_cons; by left|]. intros h [->|Hh]%elem_of_cons; [apply colder_refl|].
      eapply colder_trans; [exact Ec|by apply Hmin].
    + split; [apply elem_of_cons; by right|]. intros h [->|Hh]%elem_of_cons; [by apply colder_total|].
      by apply Hmin.
  - simplify_eq. split; [apply elem_of_cons; by left|].
    intros h [->|Hh]%elem_of_cons; [apply colder_refl|]. exfalso. clear IH. destruct gs as [|z gs]; [by apply elem_of_nil in Hh|].
    simpl in E. destruct (coldest sq gs); [by destruct (colder _ _ _)|done].
Qed.

Lemma coldest_None sq gs : coldest sq gs = None -> gs = [].
Proof.
  destruct gs as [|g gs]; [done|]. simpl. destruct (coldest sq gs); [by destruct (colder _ _ _)|done].
Qed.

(** One eviction: the coldest group goes, and only it. *)
Lemma enforce_body_Again m r r' :
  registry_ok r -> enforce_body m r = Again r' ->
  registry_ok r' /\ (m < size (groups r))%nat /\ size (groups r) = S (size (groups r')) /\
  ur_next_seq r' = ur_next_seq r /\
  exists k g, groups r !! k = Some g /\ groups r' = delete k (groups r) /\ seqs r' = delete k (seqs r) /\
    forall k2 g2, groups r !! k2 = Some g2 -> colder (seqs r) g g2 = true.
Proof.
  intros [Hk Hs Hb Hi]. unfold enforce_body.
  destruct (Nat.ltb_spec m (size (groups r))) as [Hlt|]; [|done].
  destruct (coldest _ _) as [g|] eqn:E; [|done]. intros; simplify_eq; simpl.
  apply coldest_Some in E as [Hg Hmin]. apply elem_of_group_values in Hg as [k Hg].
  rewrite (Hk _ _ Hg). split_and!; [|done| |done|].
  - split; simpl.
    + intros k2 g2 [_ H2]%lookup_delete_Some. by apply Hk.
    + intros k2. rewrite !lookup_delete.
      destruct (decide (k = k2)); [done|apply Hs].
    + intros k2 n [_ H2]%lookup_delete_Some. by apply (Hb k2).
    + intros k1 k2 n [_ H1]%lookup_delete_Some [_ H2]%lookup_delete_Some. by eapply Hi.
  - symmetry. rewrite map_size_delete, Hg. assert (size (groups r) <> 0)%nat by lia. simpl. lia.
  - exists k, g. split_and!; try done. intros k2 g2 H2. apply Hmin, elem_of_group_values. by eauto.
Qed.

Lemma enforce_body_Done m r r' :
  registry_ok r -> enforce_body m r = Done r' -> r' = r /\ (size (groups r) <= m)%nat.
Proof.
  intros Hok. unfold enforce_body. destruct (Nat.ltb_spec m (size (groups r))) as [Hlt|]; [|by intros; simplify_eq].
  destruct (coldest _ _) as [g|] eqn:E; [done|]. apply coldest_None in E.
  pose proof (length_group_values r) as Hl. rewrite E in Hl. simpl in Hl. lia.
Qed.

(** The loop ends by itself, under the cap. *)
Lemma enforce_max_groups_ends m r :
  registry_ok r -> exists r', loop (enforce_body m) (S (size (groups r))) r = Some r'.
Proof.
  intros Hok. remember (size (groups r)) as n eqn:Hn. revert r Hok Hn.
  induction n as [|n IH]; intros r Hok Hn.
  - simpl. unfold enforce_body. rewrite <- Hn. simpl. by eauto.
  - change (exists r', match enforce_body m r with
      | Done r' => Some r' | Again r' => loop (enforce_body m) (S n) r' end = Some r').
    destruct (enforce_body m r) as [r1|r1] eqn:E; [|by eauto].
    apply enforce_body_Again in E as (Hok1 & _ & Hsz & _); [|done]. apply IH; [done|lia].
Qed.

(** What survives: the warmest groups, untouched. *)
Record enforced (m : nat) (r r' : UnknownRegistry) : Prop := {
  en_ok : registry_ok r';
  en_sub : groups r' ⊆ groups r;
  en_size : size (groups r') = Nat.min m (size (groups r));
  en_warm : forall k g k2 g2, groups r !! k = Some g -> groups r' !! k = None ->
    groups r' !! k2 = Some g2 -> colder (seqs r) g g2 = true;
}.

Lemma enforce_max_groups_enforced m r :
  registry_ok r -> enforced m r (enforce_max_groups m r).
Proof.
  intros Hok. unfold enforce_max_groups, run_loop.
  destruct (enforce_max_groups_ends m r Hok) as [r' Hr']. rewrite Hr'. simpl.
  revert Hr'. generalize (S (size (groups r))) as fuel. intros fuel. revert r Hok.
  induction fuel as [|fuel IH]; intros r Hok H; [done|]. simpl in H.
  destruct (enforce_body m r) as [r1|r1] eqn:E.
  - apply enforce_body_Again in E as (Hok1 & Hlt & Hsz & _ & k & g & Hg & Hgr & Hsq & Hmin); [|done].
    destruct (IH r1 Hok1 H) as [Ho Hsub Hsize Hwarm]. split; [done| |lia|].
    + rewrite Hgr in Hsub. etrans; [exact Hsub|]. apply delete_subseteq.
    + intros k1 g1 k2 g2 H1 Hn H2.
      pose proof (lookup_weaken _ _ _ _ H2 Hsub) as H2'. rewrite Hgr in H2'.
      apply lookup_delete_Some in H2' as [Hne2 H2'].
      destruct (decide (k = k1)) as [->|Hne].
      { rewrite H1 in Hg. simplify_eq. by eapply Hmin. }
      assert (colder (seqs r1) g1 g2 = true) as Hc.
      { eapply Hwarm; [|exact Hn|exact H2]. rewrite Hgr. by rewrite lookup_delete_ne. }
      destruct Hok as [Hk _ _ _]. unfold colder in *.
      rewrite Hsq, (Hk _ _ H1), (Hk _ _ H2'), !lookup_delete_ne in Hc by done.
      by rewrite (Hk _ _ H1), (Hk _ _ H2').
  - apply enforce_body_Done in E as [-> Hle]; [|done]. simplify_eq. split; [done|done|lia|].
    intros k g k2 g2 H1 H2. congruence.
Qed.

(** ** A run of occurrences *)

Definition registry_run (cfg : UnknownRegistryConfig) (os : list Occurrence) : UnknownRegistry :=
  foldl (fun r o => registry_ingest cfg o r) UnknownRegistry_new os.

Definition occurrences_of (k : UnknownKey) (os : list Occurrence) : list Occurrence :=
  filter (fun o => oc_key o = k) os.

(** The group a nonempty run of same-shaped occurrences builds up. *)
Definition group_of (n : nat) (k : UnknownKey) (os : list Occurrence) : option UnknownGroup :=
  match os with
  | [] => None
  | o :: _ => Some (foldl (fun g o => update_group n o g) (new_group k (oc_ts o)) os)
  end.

Lemma registry_run_snoc cfg os o :
  registry_run cfg (os ++ [o]) = registry_ingest cfg o (registry_run cfg os).
Proof. unfold registry_run. by rewrite foldl_app. Qed.

Lemma registry_ingest_ok cfg o r : registry_ok r -> registry_ok (registry_ingest cfg o r).
Proof. intros H. by apply enforce_max_groups_enforced, record_occurrence_ok. Qed.

Lemma registry_run_ok cfg os : registry_ok (registry_run cfg os).
Proof.
  induction os as [|o os IH] using rev_ind; [apply registry_new_ok|].
  rewrite registry_run_snoc. by apply registry_ingest_ok.
Qed.

Lemma group_of_snoc n k os o :
  group_of n k (os ++ [o]) =
  Some (update_group n o (default (new_group k (oc_ts o)) (group_of n k os))).
Proof. destruct os as [|o' os]; [done|]. simpl. by rewrite foldl_app. Qed.

Lemma record_occurrence_lookup n o r k :
  groups (record_occurrence n o r) !! k =
  if decide (oc_key o = k)
  then Some (update_group n o (default (new_group k (oc_ts o)) (groups r !! k)))
  else groups r !! k.
Proof.
  unfold record_occurrence. destruct (seqs r !! oc_key o); simpl;
    rewrite lookup_insert; by case_decide; subst.
Qed.

Lemma enforce_under_cap m r : (size (groups r) <= m)%nat -> enforce_max_groups m r = r.
Proof.
  intros H. unfold enforce_max_groups, run_loop. simpl. unfold enforce_body.
  by rewrite (proj2 (Nat.ltb_ge _ _)).
Qed.

Lemma occurrences_of_snoc k os o :
  occurrences_of k (os ++ [o]) =
  occurrences_of k os ++ (if decide (oc_key o = k) then [o] else []).
Proof. unfold occurrences_of. rewrite filter_app, filter_cons, filter_nil. by case_decide. Qed.

Lemma registry_run_groups cfg os :
  (length (dedup (oc_key <$> os)) <= max_groups cfg)%nat ->
  forall k, groups (registry_run cfg os) !! k =
            group_of (samples_per_group cfg) k (occurrences_of k os).
Proof.
  induction os as [|o os IH] using rev_ind; intros Hcap k; [apply lookup_empty|].
  rewrite fmap_app in Hcap. change (oc_key <$> [o]) with [oc_key o] in Hcap.
  rewrite registry_run_snoc. unfold registry_ingest.
  set (r := registry_run cfg os) in *.
  assert (forall k, groups r !! k = group_of (samples_per_group cfg) k (occurrences_of k os)) as Hr.
  { apply IH. rewrite dedup_snoc in Hcap. case_decide; [done|]. rewrite length_app in Hcap. lia. }
  rewrite enforce_under_cap.
  - rewrite record_occurrence_lookup, occurrences_of_snoc, Hr. case_decide; [by rewrite group_of_snoc|].
    by rewrite app_nil_r.
  - etrans; [|exact Hcap]. rewrite <- length_group_values. unfold group_values.
    rewrite length_fmap, <- (length_fmap fst).
    apply submseteq_length, NoDup_submseteq; [apply NoDup_fst_map_to_list|].
    intros k2 Hk2. apply list_elem_of_fmap in Hk2 as ([k3 g] & -> & Hin). simpl.
    apply elem_of_map_to_list in Hin. rewrite record_occurrence_lookup in Hin.
    rewrite elem_of_dedup, elem_of_app, list_elem_of_singleton.
    case_decide as Hd; [by right|left]. rewrite Hr in Hin.
    destruct (occurrences_of k3 os) as [|o' l] eqn:E; [done|].
    assert (o' ∈ occurrences_of k3 os) as Ho' by (rewrite E; apply elem_of_cons; by left).
    apply list_elem_of_filter in Ho' as [<- ?]. by apply list_elem_of_fmap_2.
Qed.

(** ** What a group says about its occurrences *)

Definition sum (l : list Z) : Z := foldr Z.add 0 l.
Definition min_from (z : Z) (l : list Z) : Z := foldr Z.min z l.
Definition max_from (z : Z) (l : list Z) : Z := foldr Z.max z l.

Lemma sum_snoc l x : sum (l ++ [x]) = sum l + x.
Proof. unfold sum. induction l as [|y l IH]; simpl; [lia|]. rewrite IH. lia. Qed.
Lemma min_from_snoc z l x : min_from z (l ++ [x]) = Z.min (min_from z l) x.
Proof. unfold min_from. induction l as [|y l IH]; simpl; [lia|]. rewrite IH. lia. Qed.
Lemma max_from_snoc z l x : max_from z (l ++ [x]) = Z.max (max_from z l) x.
Proof. unfold max_from. induction l as [|y l IH]; simpl; [lia|]. rewrite IH. lia. Qed.

(** Top score of a ranked list; an empty list ranks below every score. *)
Definition top (l : list (ProtocolName * Z)) : option Z := snd <$> head l.

Definition top_leb (a b : option Z) : bool :=
  match a, b with None, _ => true | Some _, None => false | Some x, Some y => x <=? y end.

(** [g] summarises [os], the first of which happened at [t0]. *)
Record summarises (n : nat) (t0 : SystemTime) (os : list Occurrence) (g : UnknownGroup) : Prop := {
  su_count : ug_count g = blen os;
  su_bytes : bytes_total g = sum (oc_bytes <$> os);
  su_min : bytes_min g = min_from u32_max (oc_bytes <$> os);
  su_max : bytes_max g = max_from 0 (oc_bytes <$> os);
  su_first : ug_first_seen g = min_from t0 (oc_ts <$> os);
  su_last : ug_last_seen g = max_from t0 (oc_ts <$> os);
  su_eps : (endpoints g, endpoints_overflow g) =
    bounded_set ACCUMULATE_SET_CAP (omap oc_endpoint os);
  su_near : top_leb (top (ug_near_misses g)) None = true /\ (forall o, o ∈ os -> diag_near_misses (oc_diag o) = []) \/
    exists l1 o l2, os = l1 ++ o :: l2 /\ ug_near_misses g = diag_near_misses (oc_diag o) /\
      (forall o', o' ∈ l1 -> top_leb (top (diag_near_misses (oc_diag o'))) (top (ug_near_misses g)) = true) /\
      (forall o', o' ∈ l2 -> top_leb (top (ug_near_misses g)) (top (diag_near_misses (oc_diag o'))) = false);
  su_samples : samples g = last_n (Nat.max 1 n) ((fun o => sample (oc_diag o)) <$> os);
}.

Lemma fmap_snoc {A B} (f : A -> B) l x : f <$> (l ++ [x]) = (f <$> l) ++ [f x].
Proof. by rewrite fmap_app. Qed.

Lemma note_endpoint_admit ep eps over :
  note_endpoint ep eps over =
  match ep with Some e => admit_bounded ACCUMULATE_SET_CAP e (eps, over) | None => (eps, over) end.
Proof.
  destruct ep as [e|]; [|done]. unfold note_endpoint, admit_bounded. simpl.
  by destruct (decide (e ∈ eps)); [rewrite bool_decide_true|rewrite bool_decide_false].
Qed.

Lemma better_near_misses_top a b :
  better_near_misses a b = match a with [] => false | _ => top_leb (top b) (top a) end.
Proof. by destruct a as [|[? ?] ?], b as [|[? ?] ?]. Qed.

Lemma top_leb_trans a b c : top_leb a b = true -> top_leb b c = true -> top_leb a c = true.
Proof. destruct a, b, c; simpl; rewrite ?Z.leb_le; done || lia. Qed.

Lemma top_leb_refl a : top_leb a a = true.
Proof. destruct a; simpl; [apply Z.leb_refl|done]. Qed.

(** Keeping the best ranked list, later ties winning. *)
Lemma best_ranked_snoc (os : list Occurrence) (best : list (ProtocolName * Z)) o :
  let nm o := diag_near_misses (oc_diag o) in
  let best' := if better_near_misses (nm o) best then nm o else best in
  let summary os best :=
    top_leb (top best) None = true /\ (forall o, o ∈ os -> nm o = []) \/
    exists l1 o l2, os = l1 ++ o :: l2 /\ best = nm o /\
      (forall o', o' ∈ l1 -> top_leb (top (nm o')) (top best) = true) /\
      (forall o', o' ∈ l2 -> top_leb (top best) (top (nm o')) = false) in
  summary os best -> summary (os ++ [o]) best'.
Proof.
  intros nm best' summary H. unfold best'. rewrite better_near_misses_top.
  destruct (nm o) as [|x l] eqn:Eo.
  - destruct H as [[Ht Ha]|(l1 & o1 & l2 & -> & -> & H1 & H2)].
    + left. split; [done|]. intros o' [Ho'|Ho']%elem_of_app; [by apply Ha|].
      by apply list_elem_of_singleton in Ho' as ->.
    + destruct (nm o1) as [|y k] eqn:E1.
      * left. split; [done|]. intros o' [Ho'|Ho']%elem_of_app;
          [|by apply list_elem_of_singleton in Ho' as ->].
        apply elem_of_app in Ho' as [Ho'|[->|Ho']%elem_of_cons]; [|done|].
        -- specialize (H1 _ Ho'). by destruct (nm o').
        -- by specialize (H2 _ Ho').
      * right. exists l1, o1, (l2 ++ [o]). rewrite E1. split_and!; try done.
        -- by rewrite <- app_assoc.
        -- intros o' [Ho'|Ho']%elem_of_app; [by apply H2|].
           apply list_elem_of_singleton in Ho' as ->. by rewrite Eo.
  - rewrite <- Eo. destruct (top_leb (top best) (top (nm o))) eqn:Ec.
    + right. exists os, o, []. split_and!; [done|done| |by intros ? ?%elem_of_nil].
      intros o' Ho'. destruct H as [[Ht Ha]|(l1 & o1 & l2 & -> & -> & H1 & H2)].
      * by rewrite (Ha _ Ho').
      * apply elem_of_app in Ho' as [Ho'|[->|Ho']%elem_of_cons]; [|done|].
        -- eapply top_leb_trans; [by apply H1|done].
        -- eapply top_leb_trans; [|exact Ec]. specialize (H2 _ Ho').
           destruct (top (nm o1)), (top (nm o')); simpl in *; try done.
           apply Z.leb_gt in H2. apply Z.leb_le. lia.
    + destruct H as [[Ht Ha]|(l1 & o1 & l2 & -> & -> & H1 & H2)].
      * destruct best as [|b best]; [done|]. simpl in Ht. done.
      * right. exists l1, o1, (l2 ++ [o]). split_and!; try done.
        -- by rewrite <- app_assoc.
        -- intros o' [Ho'|Ho']%elem_of_app; [by apply H2|].
           by apply list_elem_of_singleton in Ho' as ->.
Qed.

Lemma group_of_summarises n k os o0 l :
  os = o0 :: l -> exists g, group_of n k os = Some g /\ ug_key g = k /\ summarises n (oc_ts o0) os g.
Proof.
  intros Hos. assert (os <> []) as Hne by by subst.
  assert (forall os', os' <> [] -> head os' = Some o0 ->
    exists g, group_of n k os' = Some g /\ ug_key g = k /\ summarises n (oc_ts o0) os' g) as Hgen;
    [|apply Hgen; [done|by subst]].
  clear Hos Hne os l. intros os. induction os as [|o os IH] using rev_ind; [done|]. intros _ Hh.
  rewrite group_of_snoc.
  assert (exists g, default (new_group k (oc_ts o)) (group_of n k os) = g /\ ug_key g = k /\
    summarises n (oc_ts o0) os g) as (g & -> & Hk & [? ? ? ? ? ? He Hn Hs]).
  { destruct os as [|o1 os].
    - simpl in Hh. injection Hh as ->. eexists. split; [reflexivity|]. split; [done|].
      split; try done. left. split; [done|]. by intros ? ?%elem_of_nil.
    - destruct IH as (g & -> & ? & ?); [done|done|]. by exists g. }
  eexists. split; [reflexivity|]. rewrite update_group_key. split; [done|].
  unfold update_group. rewrite note_endpoint_admit, He.
  assert (match oc_endpoint o with
          | Some e => admit_bounded ACCUMULATE_SET_CAP e (bounded_set ACCUMULATE_SET_CAP (omap oc_endpoint os))
          | None => bounded_set ACCUMULATE_SET_CAP (omap oc_endpoint os)
          end = bounded_set ACCUMULATE_SET_CAP (omap oc_endpoint (os ++ [o]))) as ->.
  { rewrite omap_app. simpl. destruct (oc_endpoint o); [apply admit_bounded_snoc|].
    by rewrite app_nil_r. }
  destruct (bounded_set _ _) as [eps over] eqn:Eb.
  split; simpl; rewrite ?fmap_snoc, ?sum_snoc, ?min_from_snoc, ?max_from_snoc; try congruence; try reflexivity.
  - rewrite blen_app, blen_cons, (blen_nil (A:=Occurrence)). lia.
  - by apply best_ranked_snoc.
  - rewrite Hs, last_n_snoc by lia. rewrite length_last_n, !length_fmap. f_equal.
    destruct (Nat.leb_spec n (Nat.min (Nat.max 1 n) (length os))),
      (Nat.leb_spec (Nat.max 1 n) (length os)); try done; try lia.
    assert (n = 0 /\ length os = 0)%nat as [-> Hos] by lia. apply nil_length_inv in Hos as ->. done.
Qed.

(** ** Properties *)

(** Every ingest leaves a well-formed registry of at most [max_groups] groups;
    when the cap forces groups out, exactly the coldest by last packet time,
    then by insertion, are gone and the others are untouched. *)
Theorem registry_ingest_bounded cfg o r :
  registry_ok r ->
  let r1 := record_occurrence (samples_per_group cfg) o r in
  let r2 := registry_ingest cfg o r in
  registry_ok r2 /\
  size (groups r2) = Nat.min (max_groups cfg) (size (groups r1)) /\
  groups r2 ⊆ groups r1 /\
  (forall k g k2 g2, groups r1 !! k = Some g -> groups r2 !! k = None ->
     groups r2 !! k2 = Some g2 -> colder (seqs r1) g g2 = true) /\
  exists r', loop (enforce_body (max_groups cfg)) (S (size (groups r1))) r1 = Some r'.
Proof.
  intros Hok r1 r2. pose proof (record_occurrence_ok (samples_per_group cfg) o _ Hok) as Hok1.
  destruct (enforce_max_groups_enforced (max_groups cfg) _ Hok1).
  split_and!; try done. by apply enforce_max_groups_ends.
Qed.

(** While the capture shows no more shapes than [max_groups], each group is an
    exact account of the occurrences of its shape, however interleaved: their
    number, total and extreme sizes, time span, bounded endpoint set, best
    near-miss list (latest among equals) and latest samples. *)
Theorem registry_history cfg os k :
  (length (dedup (oc_key <$> os)) <= max_groups cfg)%nat ->
  match occurrences_of k os with
  | [] => registry_group (registry_run cfg os) k = None
  | o0 :: _ => exists g, registry_group (registry_run cfg os) k = Some g /\
      summarises (samples_per_group cfg) (oc_ts o0) (occurrences_of k os) g
  end.
Proof.
  intros Hcap. unfold registry_group. rewrite registry_run_groups by done.
  destruct (occurrences_of k os) as [|o0 l] eqn:E; [done|].
  destruct (group_of_summarises (samples_per_group cfg) k (o0 :: l) o0 l eq_refl) as (g & ? & _ & ?).
  by exists g.
Qed.

(** The report lists every group once, most frequent first, and is ordered by
    shape among equals - not by hash-map iteration. *)
Theorem registry_groups_report r :
  registry_ok r ->
  registry_groups r ≡ₚ group_values r /\
  NoDup (ug_key <$> registry_groups r) /\
  Sorted_by group_leb (registry_groups r) /\
  forall i j a b, (i < j)%nat -> registry_groups r !! i = Some a -> registry_groups r !! j = Some b ->
    ug_count b < ug_count a \/
    (ug_count b = ug_count a /\ unknown_key_leb (ug_key a) (ug_key b) = true).
Proof.
  intros [Hk _ _ _]. assert (Sorted_by group_leb (registry_groups r)) as Hs.
  { apply sort_by_Sorted; apply group_leb_ord. }
  split_and!; [apply sort_by_Permutation| |done|].
  - unfold registry_groups. rewrite (sort_by_Permutation group_leb). unfold group_values.
    assert (ug_key <$> (map_to_list (groups r)).*2 = (map_to_list (groups r)).*1) as ->;
      [|apply NoDup_fst_map_to_list].
    rewrite <- list_fmap_compose. apply list_fmap_ext. intros i [k g] Hi.
    apply list_elem_of_lookup_2, elem_of_map_to_list in Hi. by apply Hk.
  - intros i j a b Hij Ha Hb.
    pose proof (Sorted_by_lookup _ _ _ _ _ _ Hs Hij Ha Hb) as Hle.
    unfold group_leb, key_leb, lex_pair, reverse_leb in Hle. simpl in Hle.
    apply andb_true_iff in Hle as [H1 H2]. apply orb_true_iff in H2. rewrite negb_true_iff in H2.
    apply Z.leb_le in H1. destruct H2 as [H2|H2]; [apply Z.leb_gt in H2; lia|].
    destruct (decide (ug_count b = ug_count a)); [by right|left; lia].
Qed.

Definition sample_occurrence (n t : Z) : Occurrence :=
  mkOccurrence (mkDiag (UC_UnclaimedRoute "net" (IpProtocol n)) [("guess"%string, n)] [n]) (10 * n) t None.

Lemma registry_ingest_bounded_witness :
  let r := registry_run (mkUnknownConfig 1 2) [sample_occurrence 17 3] in
  size (groups (registry_ingest (mkUnknownConfig 1 2) (sample_occurrence 6 5) r)) = 1%nat.
Proof.
  intros r. destruct (registry_ingest_bounded (mkUnknownConfig 1 2) (sample_occurrence 6 5) r)
    as (_ & Hs & _); [apply registry_run_ok|].
  rewrite Hs. by vm_compute.
Defined.

Lemma registry_history_witness :
  let os := [sample_occurrence 17 3; sample_occurrence 6 9; sample_occurrence 17 1] in
  exists g, registry_group (registry_run (mkUnknownConfig 2 5) os)
              (mkUnknownKey "net" (Some (IpProtocol 17))) = Some g /\
    ug_count g = 2 /\ bytes_total g = 340 /\ ug_first_seen g = 1 /\ ug_last_seen g = 3.
Proof.
  intros os. destruct (registry_history (mkUnknownConfig 2 5) os
    (mkUnknownKey "net" (Some (IpProtocol 17)))) as (g & Hg & Hs); [by vm_compute; repeat constructor|].
  exists g. destruct Hs as [Hc Hb _ _ Hf Hl _ _ _].
  split_and!; [exact Hg|rewrite Hc|rewrite Hb|rewrite Hf|rewrite Hl]; by vm_compute.
Defined.

Lemma registry_groups_report_witness :
  let r := registry_run (mkUnknownConfig 5 5)
             [sample_occurrence 17 3; sample_occurrence 6 9; sample_occurrence 6 1] in
  Sorted_by group_leb (registry_groups r) /\ ug_count <$> registry_groups r = [2; 1].
Proof.
  intros r. split; [|by vm_compute].
  apply (registry_groups_report r). apply registry_run_ok.
Defined.
