(* ===== verification/Arena.v ===== *)
(** * Generational slots

    Models the slot storage of [crates/pktflow-flows/src/store.rs]: [StreamId]
    handles, [Slot]s with their generation counter, the stack of recyclable
    indices, and the four accesses the aggregator makes - generation-checked
    [get], [get_mut], allocation in [create_stream_raw] and removal in
    [evict].  The laws below are all the aggregator's proofs use: what each
    access does to [get] and to the multiset of live records. *)

From S2P Require Import Prelude.

Record StreamId := mkId { sid_index : Z; generation : Z }.

#[export] Instance StreamId_eq_dec : EqDecision StreamId.
Proof. solve_decision. Defined.

#[export] Instance StreamId_countable : Countable StreamId.
Proof.
  apply (inj_countable' (fun i => (sid_index i, generation i)) (fun p => mkId p.1 p.2)).
  by intros [].
Defined.

Record Slot (S : Type) := mkSlot { slot_generation : Z; slot_stream : option S }.
Arguments mkSlot {S} _ _.
Arguments slot_generation {S} _.
Arguments slot_stream {S} _.

(** [slots] and [free] of the aggregator; the top of the free stack first. *)
Record Arena (S : Type) := mkArena { slots : list (Slot S); free : list Z }.
Arguments mkArena {S} _ _.
Arguments slots {S} _.
Arguments free {S} _.

Definition wrap32 (n : Z) : Z := n mod 2 ^ 32.

Section Arena.
Context {S : Type}.
Implicit Types (a : Arena S) (s : S) (id : StreamId) (i : Z).

Definition arena_new : Arena S := mkArena [] [].

(** [self.slots.get(index as usize)]; an index is unsigned. *)
Definition slot_at a i : option (Slot S) := if 0 <=? i then slots a !! Z.to_nat i else None.

(** Generation-checked lookup. *)
Definition get a id : option S :=
  slot ← slot_at a (sid_index id);
  if slot_generation slot =? generation id then slot_stream slot else None.

(** [get_mut] followed by an assignment to the record. *)
Definition get_mut a id (f : S -> S) : Arena S :=
  match slot_at a (sid_index id) with
  | Some (mkSlot g (Some s)) =>
      if g =? generation id
      then mkArena (<[Z.to_nat (sid_index id) := mkSlot g (Some (f s))]> (slots a)) (free a)
      else a
  | _ => a
  end.

(** Recycle an evicted slot or grow: the handle of the next record. *)
Definition next_id a : StreamId :=
  match free a with
  | i :: _ => mkId i (from_option slot_generation 0 (slot_at a i))
  | [] => mkId (clamp_to u32_max (blen (slots a))) 0
  end.

Definition place a id s : Arena S :=
  let i := sid_index id in
  mkArena
    (match slot_at a i with
     | Some slot => <[Z.to_nat i := mkSlot (slot_generation slot) (Some s)]> (slots a)
     | None => slots a ++ [mkSlot 0 (Some s)]
     end) (tail (free a)).

(** The first half of [evict]: take the record, bump the generation, recycle
    the index. *)
Definition remove a id : option (S * Arena S) :=
  match slot_at a (sid_index id) with
  | Some (mkSlot g (Some s)) =>
      if g =? generation id
      then Some (s, mkArena (<[Z.to_nat (sid_index id) := mkSlot (wrap32 (g + 1)) None]> (slots a))
                      (sid_index id :: free a))
      else None
  | _ => None
  end.

(** Live records in arena order. *)
Definition live a : list S := omap slot_stream (slots a).

(** ** Invariant *)

Record arena_ok a : Prop := {
  ao_size : blen (slots a) <= 2 ^ 32;
  ao_free : NoDup (free a);
  ao_free_empty : forall i, i ∈ free a -> exists g, slot_at a i = Some (mkSlot g None);
  ao_empty_free : forall i g, slot_at a i = Some (mkSlot g None) -> i ∈ free a;
  ao_gen : forall i slot, slot_at a i = Some slot -> 0 <= slot_generation slot < 2 ^ 32;
}.

Lemma arena_new_ok : arena_ok arena_new.
Proof.
  assert (forall i, slot_at arena_new i = None) as Hn by (intros i; unfold slot_at; by case_match).
  split; [done|constructor|by intros i ?%elem_of_nil|intros i g|intros i slot]; by rewrite Hn.
Qed.

Lemma get_Some a id s :
  get a id = Some s <-> slot_at a (sid_index id) = Some (mkSlot (generation id) (Some s)).
Proof.
  unfold get. destruct (slot_at a (sid_index id)) as [[g o]|]; simpl; [|done].
  destruct (Z.eqb_spec g (generation id)) as [->|]; split; intros; by simplify_eq.
Qed.

Lemma slot_at_Some a i slot : slot_at a i = Some slot <-> 0 <= i /\ slots a !! Z.to_nat i = Some slot.
Proof.
  unfold slot_at. destruct (Z.leb_spec 0 i); split; try tauto; try done; intros [? ?]; lia.
Qed.

(** ** get_mut *)

Lemma slot_at_insert a i j slot f :
  0 <= i ->
  slot_at (mkArena (<[Z.to_nat i := slot]> (slots a)) f) j =
  if decide (i = j /\ is_Some (slot_at a j)) then Some slot else slot_at a j.
Proof.
  intros Hi. unfold slot_at. simpl. destruct (Z.leb_spec 0 j) as [Hj|Hj].
  2: { rewrite decide_False; [done|]. by intros [_ [? ?]]. }
  destruct (decide (i = j)) as [<-|Hne].
  - destruct (slots a !! Z.to_nat i) as [s'|] eqn:E.
    + rewrite decide_True by eauto. apply list_lookup_insert_eq. by eapply lookup_lt_Some.
    + rewrite decide_False by (intros [_ [? ?]]; done).
      rewrite list_insert_ge; [done|]. by apply lookup_ge_None.
  - rewrite decide_False by tauto. rewrite list_lookup_insert_ne; [done|lia].
Qed.

(** Writing a live slot keeps its index in range. *)
Lemma get_index a id s : get a id = Some s -> 0 <= sid_index id.
Proof. rewrite get_Some. by intros [? _]%slot_at_Some. Qed.

Lemma get_get_mut a id f id' :
  get (get_mut a id f) id' = if decide (id' = id) then f <$> get a id else get a id'.
Proof.
  destruct (get a id) as [s|] eqn:Hg.
  - pose proof (get_index _ _ _ Hg) as Hi. apply get_Some in Hg.
    unfold get_mut. rewrite Hg, Z.eqb_refl. unfold get at 1. rewrite slot_at_insert by done.
    destruct id as [i g], id' as [i' g']. simpl in *.
    destruct (decide (mkId i' g' = mkId i g)) as [Heq|Hne]; simplify_eq/=.
    + rewrite decide_True by (split; [done|rewrite Hg; eauto]). simpl. by rewrite Z.eqb_refl.
    + case_decide as Hd; [|done]. destruct Hd as [-> _]. simpl. unfold get. simpl. rewrite Hg. simpl.
      destruct (Z.eqb_spec g g'); [congruence|done].
  - assert (get_mut a id f = a) as ->; [|by case_decide; subst].
    unfold get, get_mut in *. destruct (slot_at a (sid_index id)) as [[g [s|]]|]; simpl in *; try done.
    by destruct (g =? generation id).
Qed.

Lemma live_insert a i f slot slot' :
  slot_at a i = Some slot ->
  exists rest, live a ≡ₚ option_list (slot_stream slot) ++ rest /\
    live (mkArena (<[Z.to_nat i := slot']> (slots a)) f) ≡ₚ option_list (slot_stream slot') ++ rest.
Proof.
  rewrite slot_at_Some. unfold live. simpl. intros [_ H].
  exists (omap slot_stream (take (Z.to_nat i) (slots a)) ++
          omap slot_stream (drop (Datatypes.S (Z.to_nat i)) (slots a))).
  assert (forall l1 l2 (x : Slot S), omap slot_stream (l1 ++ x :: l2) ≡ₚ
    option_list (slot_stream x) ++ (omap slot_stream l1 ++ omap slot_stream l2)) as Hsplit.
  { intros l1 l2 x. rewrite omap_app. cbn. destruct (slot_stream x); simpl; [|done].
    by rewrite Permutation_middle. }
  split.
  - rewrite <- (take_drop_middle (slots a) (Z.to_nat i) slot H) at 1. apply Hsplit.
  - rewrite insert_take_drop by (by eapply lookup_lt_Some). apply Hsplit.
Qed.

Lemma live_get_mut a id f s :
  get a id = Some s ->
  exists rest, live a ≡ₚ s :: rest /\ live (get_mut a id f) ≡ₚ f s :: rest.
Proof.
  rewrite get_Some. intros H. unfold get_mut. rewrite H. simpl. rewrite Z.eqb_refl.
  destruct (live_insert a (sid_index id) (free a) _ (mkSlot (generation id) (Some (f s))) H)
    as (rest & H1 & H2).
  by exists rest.
Qed.

Lemma get_mut_None a id f : get a id = None -> get_mut a id f = a.
Proof.
  unfold get, get_mut. destruct (slot_at a (sid_index id)) as [[g [s|]]|]; simpl; [|done|done].
  by destruct (g =? generation id).
Qed.

Lemma get_mut_ok a id f : arena_ok a -> arena_ok (get_mut a id f).
Proof.
  intros Hok. destruct (get a id) as [s|] eqn:Hg; [|by rewrite get_mut_None].
  pose proof (get_index _ _ _ Hg) as Hi. rewrite get_Some in Hg.
  unfold get_mut. rewrite Hg. simpl. rewrite Z.eqb_refl.
  destruct Hok as [Hsz Hnd Hfe Hef Hgen]. split.
  - unfold blen in *. simpl. by rewrite length_insert.
  - done.
  - intros i Hin. destruct (Hfe i Hin) as [g Hs]. exists g.
    rewrite slot_at_insert, decide_False; [done| |done]. intros [<- _]. congruence.
  - intros i g. rewrite slot_at_insert by done. case_decide; [done|]. by apply Hef.
  - intros i slot. rewrite slot_at_insert by done. case_decide; [|apply Hgen].
    intros; simplify_eq. simpl. by apply (Hgen _ _ Hg).
Qed.

(** ** remove *)

Lemma remove_Some a id s a' :
  remove a id = Some (s, a') ->
  get a id = Some s /\
  a' = mkArena (<[Z.to_nat (sid_index id) := mkSlot (wrap32 (generation id + 1)) None]> (slots a))
         (sid_index id :: free a).
Proof.
  unfold remove, get. destruct (slot_at a (sid_index id)) as [[g [s'|]]|]; simpl; try done.
  destruct (Z.eqb_spec g (generation id)) as [->|]; intros; by simplify_eq.
Qed.

Lemma remove_get a id : fst <$> remove a id = get a id.
Proof.
  unfold remove, get. destruct (slot_at a (sid_index id)) as [[g [s'|]]|]; simpl; [|by destruct (_ =? _)|done].
  by destruct (g =? generation id).
Qed.

Lemma get_remove a id s a' id' :
  remove a id = Some (s, a') ->
  get a' id' = if decide (id' = id) then None else get a id'.
Proof.
  intros H. apply remove_Some in H as [Hg ->]. pose proof (get_index _ _ _ Hg) as Hi.
  rewrite get_Some in Hg. unfold get at 1. rewrite slot_at_insert by done.
  destruct id as [i g], id' as [i' g']. simpl in *.
  destruct (decide (mkId i' g' = mkId i g)) as [Heq|Hne]; simplify_eq/=.
  - rewrite decide_True by (split; [done|rewrite Hg; eauto]). simpl. by destruct (_ =? _).
  - case_decide as Hd; [|done]. destruct Hd as [-> _]. simpl.
    unfold get. simpl. rewrite Hg. simpl.
    assert (g <> g') by congruence. rewrite (proj2 (Z.eqb_neq g g')) by done.
    by destruct (_ =? _).
Qed.

Lemma live_remove a id s a' : remove a id = Some (s, a') -> live a ≡ₚ s :: live a'.
Proof.
  intros H. apply remove_Some in H as [Hg ->]. rewrite get_Some in Hg.
  destruct (live_insert a (sid_index id) (sid_index id :: free a) _
    (mkSlot (wrap32 (generation id + 1)) None) Hg) as (rest & H1 & H2).
  simpl in H1, H2. by rewrite H1, H2.
Qed.

Lemma remove_ok a id s a' : arena_ok a -> remove a id = Some (s, a') -> arena_ok a'.
Proof.
  intros [Hsz Hnd Hfe Hef Hgen] H. apply remove_Some in H as [Hg ->].
  pose proof (get_index _ _ _ Hg) as Hi. rewrite get_Some in Hg.
  assert (sid_index id ∉ free a) as Hni.
  { intros Hin. destruct (Hfe _ Hin) as [g Hs]. congruence. }
  split.
  - unfold blen in *. simpl. by rewrite length_insert.
  - by apply NoDup_cons.
  - simpl. intros i [->|Hin]%elem_of_cons.
    + eexists. rewrite slot_at_insert, decide_True; [done| |done].
      split; [done|]. rewrite Hg. by eauto.
    + destruct (Hfe i Hin) as [g Hs]. exists g.
      rewrite slot_at_insert, decide_False; [done| |done]. intros [<- _]. congruence.
  - simpl. intros i g. rewrite slot_at_insert by done. case_decide as Hd.
    + intros _. apply elem_of_cons. left. by destruct Hd.
    + intros Hs. apply elem_of_cons. right. by eapply Hef.
  - simpl. intros i slot. rewrite slot_at_insert by done. case_decide; [|apply Hgen].
    intros; simplify_eq. simpl. unfold wrap32. apply Z.mod_pos_bound. lia.
Qed.

(** ** place *)

Lemma next_id_spec a : arena_ok a -> blen (slots a) <= u32_max ->
  0 <= sid_index (next_id a) /\
  match free a with
  | [] => next_id a = mkId (blen (slots a)) 0 /\ slot_at a (blen (slots a)) = None
  | i :: _ => sid_index (next_id a) = i /\ slot_at a i = Some (mkSlot (generation (next_id a)) None)
  end.
Proof.
  intros [Hsz Hnd Hfe Hef Hgen] Hlen. unfold next_id. destruct (free a) as [|i fs] eqn:Ef; simpl.
  - unfold clamp_to. rewrite (proj2 (Z.leb_le _ _)) by done. split_and!; [apply blen_nonneg|done|].
    unfold slot_at. case_match; [|done]. apply lookup_ge_None_2. unfold blen. lia.
  - destruct (Hfe i) as [g Hs]; [apply elem_of_cons; by left|]. rewrite Hs. simpl.
    split; [by apply slot_at_Some in Hs as [? _]|done].
Qed.

Lemma next_id_fresh a : arena_ok a -> blen (slots a) <= u32_max -> get a (next_id a) = None.
Proof.
  intros Hok Hlen. pose proof (next_id_spec a Hok Hlen) as [_ Hs]. unfold get.
  destruct (free a) as [|i fs].
  - destruct Hs as [-> Hs]. simpl. by rewrite Hs.
  - destruct Hs as [Hi Hs]. rewrite Hi, Hs. simpl. by rewrite Z.eqb_refl.
Qed.

(** Placing adds nothing but the record. *)
Lemma get_place_inv a id s x t : get (place a id s) x = Some t -> t = s \/ get a x = Some t.
Proof.
  rewrite !get_Some, !slot_at_Some. unfold place. simpl. intros [Hi Hx].
  destruct (slot_at a (sid_index id)) as [slot|].
  - apply list_lookup_insert_Some in Hx as [(_ & Hs & _)|[_ Hx]]; [|by right].
    injection Hs as _ ->. by left.
  - apply lookup_app_Some in Hx as [Hx|[_ Hx]]; [by right|]. left.
    apply list_lookup_singleton_Some in Hx as [_ Hx]. by injection Hx as _ ->.
Qed.

Lemma get_place a s id' :
  arena_ok a -> blen (slots a) <= u32_max ->
  get (place a (next_id a) s) id' = if decide (id' = next_id a) then Some s else get a id'.
Proof.
  intros Hok Hlen. pose proof (next_id_spec a Hok Hlen) as [Hi Hs].
  unfold place. destruct (free a) as [|i fs] eqn:Ef; simpl.
  - destruct Hs as [-> Hs]. simpl. rewrite Hs. destruct id' as [i' g']. unfold get, slot_at. simpl.
    destruct (Z.leb_spec 0 i') as [Hi'|Hi'].
    2: { rewrite decide_False; [done|]. intros [= -> _]. pose proof (blen_nonneg (slots a)). lia. }
    destruct (decide (Z.to_nat i' < length (slots a))%nat) as [Hl|Hl].
    + rewrite lookup_app_l by done. rewrite decide_False; [done|]. intros [= -> ->].
      unfold blen in Hl. lia.
    + rewrite lookup_app_r by lia. destruct (decide (mkId i' g' = mkId (blen (slots a)) 0)) as [Hd|Hd].
      * injection Hd as -> ->. unfold blen. by rewrite Nat2Z.id, Nat.sub_diag.
      * rewrite (lookup_ge_None_2 (slots a)) by lia.
        destruct (Z.to_nat i' - length (slots a))%nat as [|n] eqn:En; [|done].
        destruct (Z.eqb_spec 0 g') as [<-|Hg]; [exfalso; apply Hd; f_equal; unfold blen; lia|].
        simpl. by destruct g'.
  - destruct Hs as [Hix Hs]. rewrite Hix, Hs. destruct (next_id a) as [i0 g0] eqn:Eid.
    simpl in *. subst i0. unfold get at 1. rewrite slot_at_insert by done.
    destruct id' as [i' g']. simpl in *.
    destruct (decide (mkId i' g' = mkId i g0)) as [Hd|Hd].
    + injection Hd as -> ->. rewrite decide_True by (split; [done|rewrite Hs; eauto]).
      simpl. by rewrite Z.eqb_refl.
    + case_decide as Hd2; [|done]. destruct Hd2 as [<- _].
      unfold get. simpl. rewrite Hs. simpl. destruct (Z.eqb_spec g0 g'); [congruence|done].
Qed.

Lemma live_place a s :
  arena_ok a -> blen (slots a) <= u32_max -> live (place a (next_id a) s) ≡ₚ s :: live a.
Proof.
  intros Hok Hlen. pose proof (next_id_spec a Hok Hlen) as [Hi Hs].
  unfold place. destruct (free a) as [|i fs] eqn:Ef; simpl.
  - destruct Hs as [-> Hs]. simpl. rewrite Hs. unfold live. simpl. rewrite omap_app. simpl.
    by rewrite Permutation_app_comm.
  - destruct Hs as [Hix Hs]. rewrite Hix, Hs.
    destruct (live_insert a i fs _ (mkSlot (generation (next_id a)) (Some s)) Hs)
      as (rest & H1 & H2).
    simpl in *. by rewrite H1, H2.
Qed.

Lemma place_ok a s :
  arena_ok a -> blen (slots a) <= u32_max -> arena_ok (place a (next_id a) s).
Proof.
  intros Hok Hlen. pose proof (next_id_spec a Hok Hlen) as [Hi Hs].
  destruct Hok as [Hsz Hnd Hfe Hef Hgen]. unfold place.
  destruct (free a) as [|i fs] eqn:Ef; simpl.
  - destruct Hs as [-> Hs]. simpl. rewrite Hs.
    assert (forall i slot, slot_at (mkArena (slots a ++ [mkSlot 0 (Some s)]) []) i = Some slot ->
      slot_at a i = Some slot \/ slot = mkSlot 0 (Some s)) as Hsl.
    { intros i slot. rewrite !slot_at_Some. simpl. rewrite lookup_app. intros [? H].
      destruct (slots a !! Z.to_nat i); [by left|].
      apply list_lookup_singleton_Some in H as [_ <-]. by right. }
    split; simpl.
    + unfold u32_max in Hlen. rewrite blen_app, blen_cons, (blen_nil (A:=Slot S)). lia.
    + constructor.
    + by intros i ?%elem_of_nil.
    + intros i g H. apply Hsl in H as [H|H]; [|done]. by eapply Hef.
    + intros i slot H. apply Hsl in H as [H| -> ]; [by eapply Hgen|simpl; lia].
  - destruct Hs as [Hix Hs]. rewrite Hix in *. rewrite Hs.
    apply NoDup_cons in Hnd as [Hni Hnd]. split; simpl.
    + unfold blen in *. by rewrite length_insert.
    + done.
    + intros j Hj. destruct (Hfe j) as [g Hg]; [apply elem_of_cons; by right|].
      exists g. rewrite slot_at_insert, decide_False; [done| |done]. by intros [-> _].
    + intros j g. rewrite slot_at_insert by done. case_decide as Hd; [done|]. intros H.
      pose proof (Hef _ _ H) as Hin. apply elem_of_cons in Hin as [->|?]; [|done].
      exfalso. apply Hd. split; [done|]. rewrite H. by eauto.
    + intros j slot. rewrite slot_at_insert by done. case_decide; [|apply Hgen].
      intros; simplify_eq. simpl. by apply (Hgen _ _ Hs).
Qed.

Lemma blen_slots_get_mut a id f : blen (slots (get_mut a id f)) = blen (slots a).
Proof.
  unfold get_mut, blen. destruct (slot_at a _) as [[g [s|]]|]; [|done|done].
  destruct (g =? _); [|done]. simpl. by rewrite length_insert.
Qed.

Lemma blen_slots_remove a id s a' : remove a id = Some (s, a') -> blen (slots a') = blen (slots a).
Proof. intros H. apply remove_Some in H as [_ ->]. unfold blen. simpl. by rewrite length_insert. Qed.

Lemma blen_slots_place a id s : blen (slots a) <= blen (slots (place a id s)) <= blen (slots a) + 1.
Proof.
  unfold place, blen. destruct (slot_at a _); simpl; [rewrite length_insert; lia|].
  rewrite length_app. simpl. lia.
Qed.

(** ** Runs of accesses

    [steps K n a a']: [a'] is reached from [a] by accesses of which [n] are
    removals, the updates in place being among [K]. *)

Inductive steps (K : (S -> S) -> Prop) : nat -> Arena S -> Arena S -> Prop :=
  | steps_refl a : steps K 0 a a
  | steps_get_mut n a a1 id f : steps K n a a1 -> K f -> steps K n a (get_mut a1 id f)
  | steps_place n a a1 s : steps K n a a1 -> blen (slots a1) <= u32_max ->
      steps K n a (place a1 (next_id a1) s)
  | steps_remove n a a1 id s a2 :
      steps K n a a1 -> remove a1 id = Some (s, a2) -> steps K (Datatypes.S n) a a2.

Lemma steps_trans K n1 n2 a1 a2 a3 : steps K n1 a1 a2 -> steps K n2 a2 a3 -> steps K (n1 + n2) a1 a3.
Proof.
  intros H1 H2. induction H2; rewrite ?Nat.add_0_r, ?Nat.add_succ_r; [done|..];
    econstructor; eauto.
Qed.

Lemma steps_ok K n a a' : steps K n a a' -> arena_ok a -> arena_ok a'.
Proof.
  intros H Hok. induction H; [done|by apply get_mut_ok; auto|by apply place_ok; auto|].
  eapply remove_ok; [|done]. auto.
Qed.

Lemma generation_get_mut a id f i slot :
  slot_at a i = Some slot ->
  exists slot', slot_at (get_mut a id f) i = Some slot' /\ slot_generation slot' = slot_generation slot.
Proof.
  intros Hs. unfold get_mut. destruct (slot_at a (sid_index id)) as [[g [s|]]|] eqn:E; eauto.
  destruct (g =? generation id); eauto. pose proof E as [Hi _]%slot_at_Some.
  rewrite slot_at_insert by done. case_decide as Hd; [|by eauto].
  eexists. split; [done|]. destruct Hd as [<- _]. by simplify_eq.
Qed.

Lemma generation_place a id s i slot :
  slot_at a i = Some slot ->
  exists slot', slot_at (place a id s) i = Some slot' /\ slot_generation slot' = slot_generation slot.
Proof.
  intros Hs. unfold place. destruct (slot_at a (sid_index id)) as [sl|] eqn:E.
  - pose proof E as [Hi _]%slot_at_Some. rewrite slot_at_insert by done.
    case_decide as Hd; [|by eauto].
    eexists. split; [done|]. destruct Hd as [<- _]. by simplify_eq.
  - exists slot. split; [|done]. apply slot_at_Some in Hs as [Hi Hs]. apply slot_at_Some. simpl.
    rewrite lookup_app_l; [done|]. by eapply lookup_lt_Some.
Qed.

Lemma generation_remove a id s a' i slot :
  remove a id = Some (s, a') -> slot_at a i = Some slot ->
  exists slot', slot_at a' i = Some slot' /\
    (slot_generation slot' = slot_generation slot \/
     slot_generation slot' = wrap32 (slot_generation slot + 1)).
Proof.
  intros H Hs. apply remove_Some in H as [Hg ->]. pose proof (get_index _ _ _ Hg) as Hi.
  apply get_Some in Hg. rewrite slot_at_insert by done. case_decide as Hd; [|by eauto].
  eexists. split; [done|]. right. destruct Hd as [<- _]. by simplify_eq.
Qed.

Lemma steps_generation K n a a' i slot :
  steps K n a a' -> slot_at a i = Some slot -> 0 <= slot_generation slot < 2 ^ 32 ->
  exists slot' k, slot_at a' i = Some slot' /\ 0 <= k <= Z.of_nat n /\
    slot_generation slot' = wrap32 (slot_generation slot + k).
Proof.
  intros Hst Hs Hg. induction Hst as [a|n a a1 id f Hst IH HK|n a a1 s Hst IH Hlen|n a a1 id s a2 Hst IH Hr].
  - exists slot, 0. split_and!; [done|lia|lia|]. unfold wrap32. rewrite Z.add_0_r. by rewrite Z.mod_small.
  - destruct (IH Hs) as (sl & k & H1 & ? & Hk).
    destruct (generation_get_mut _ id f _ _ H1) as (sl' & ? & Hsg). exists sl', k. by rewrite Hsg.
  - destruct (IH Hs) as (sl & k & H1 & ? & Hk).
    destruct (generation_place _ (next_id a1) s _ _ H1) as (sl' & ? & Hsg). exists sl', k. by rewrite Hsg.
  - destruct (IH Hs) as (sl & k & H1 & ? & Hk).
    destruct (generation_remove _ _ _ _ _ _ Hr H1) as (sl' & ? & [Hsg|Hsg]).
    + exists sl', k. rewrite Hsg. split_and!; [done|lia|lia|done].
    + exists sl', (k + 1). rewrite Hsg, Hk. split_and!; [done|lia|lia|]. unfold wrap32.
      rewrite Z.add_mod_idemp_l by lia. f_equal. lia.
Qed.

(** A removed handle stays dead until its slot has been recycled 2^32 times. *)
Lemma removed_handle_dead K a id s a1 n a2 :
  arena_ok a -> remove a id = Some (s, a1) -> steps K n a1 a2 -> Z.of_nat n < 2 ^ 32 - 1 ->
  get a2 id = None.
Proof.
  intros Hok Hr Hst Hn. pose proof (remove_Some _ _ _ _ Hr) as [Hg Ha1].
  pose proof (get_index _ _ _ Hg) as Hi. rewrite get_Some in Hg.
  pose proof (ao_gen _ Hok _ _ Hg) as Hgen. simpl in Hgen.
  assert (slot_at a1 (sid_index id) = Some (mkSlot (wrap32 (generation id + 1)) None)) as Hs1.
  { rewrite Ha1, slot_at_insert, decide_True; [done| |done]. split; [done|]. rewrite Hg. by eauto. }
  destruct (steps_generation _ _ _ _ _ _ Hst Hs1) as (sl & k & Hs2 & Hk & Hgk).
  { unfold wrap32. simpl. apply Z.mod_pos_bound. lia. }
  unfold get. rewrite Hs2. simpl.
  destruct (Z.eqb_spec (slot_generation sl) (generation id)) as [He|]; [exfalso|done].
  rewrite Hgk in He. simpl in He. unfold wrap32 in He. rewrite Z.add_mod_idemp_l in He by lia.
  destruct (Z_lt_le_dec (generation id + 1 + k) (2 ^ 32)).
  - rewrite Z.mod_small in He by lia. lia.
  - rewrite <- (Z.mod_unique (generation id + 1 + k) (2 ^ 32) 1 (generation id + 1 + k - 2 ^ 32)) in He; lia.
Qed.

(** A live handle still resolves to its own record: [m] is any reading of a
    record that the updates keep. *)
Lemma steps_same {B} (m : S -> B) K n a a' id s :
  (forall f, K f -> forall s, m (f s) = m s) ->
  arena_ok a -> get a id = Some s -> steps K n a a' -> Z.of_nat n < 2 ^ 32 ->
  forall s', get a' id = Some s' -> m s' = m s.
Proof.
  intros Hm Hok Hg Hst Hn.
  pose proof Hg as Hs. rewrite get_Some in Hs. pose proof (ao_gen _ Hok _ _ Hs) as Hgen. simpl in Hgen.
  assert (exists k, 0 <= k <= Z.of_nat n /\
    (exists sl, slot_at a' (sid_index id) = Some sl /\ slot_generation sl = wrap32 (generation id + k)) /\
    (k = 0 -> exists s', get a' id = Some s' /\ m s' = m s)) as (k & Hk & (sl & Hsl & Hgk) & H0).
  { clear Hn. induction Hst as [a|n a a1 x f Hst IH HK|n a a1 t Hst IH Hlen|n a a1 x t a2 Hst IH Hr];
      [|destruct (IH Hok Hg Hs) as (k & Hk & (sl & Hsl & Hgk) & H0)..].
    - exists 0. unfold wrap32. rewrite Z.add_0_r, Z.mod_small by done. split_and!; eauto; lia.
    - exists k. destruct (generation_get_mut _ x f _ _ Hsl) as (sl' & Hsl' & Hsg).
      split_and!; [lia|lia|exists sl'; by rewrite Hsg|]. intros Hz. destruct (H0 Hz) as (s1 & Hs1 & Hm1).
      rewrite get_get_mut. case_decide; subst; [|by eauto]. rewrite Hs1. exists (f s1).
      split; [done|]. by rewrite Hm.
    - exists k. destruct (generation_place _ (next_id a1) t _ _ Hsl) as (sl' & Hsl' & Hsg).
      pose proof (steps_ok _ _ _ _ Hst Hok) as Hok1.
      split_and!; [lia|lia|exists sl'; by rewrite Hsg|]. intros Hz. destruct (H0 Hz) as (s1 & Hs1 & Hm1).
      rewrite get_place by done. rewrite decide_False; [by eauto|]. intros ->.
      by rewrite next_id_fresh in Hs1.
    - pose proof (remove_Some _ _ _ _ Hr) as [Hx Ha2]. pose proof (get_index _ _ _ Hx) as Hi.
      destruct (decide (sid_index id = sid_index x)) as [Heq|Hne].
      + exists (k + 1). rewrite get_Some in Hx. rewrite Heq, Hx in Hsl. injection Hsl as <-. simpl in Hgk.
        split_and!; [lia|lia| |lia]. rewrite Ha2, Heq. eexists. rewrite slot_at_insert, decide_True; [|by rewrite Hx; eauto|done].
        split; [done|]. simpl. rewrite Hgk. unfold wrap32. rewrite Z.add_mod_idemp_l by lia. f_equal. lia.
      + exists k. split_and!; [lia|lia| |].
        * exists sl. rewrite Ha2, slot_at_insert, decide_False; [done|by intros [? _]|done].
        * intros Hz. rewrite (get_remove _ _ _ _ id Hr), decide_False by congruence. by apply H0. }
  intros s' Hs'. rewrite get_Some in Hs'. rewrite Hs' in Hsl. injection Hsl as <-. simpl in Hgk.
  assert (k = 0) as Hz.
  { unfold wrap32 in Hgk. destruct (Z_lt_le_dec (generation id + k) (2 ^ 32)).
    - rewrite Z.mod_small in Hgk by lia. lia.
    - rewrite <- (Z.mod_unique (generation id + k) (2 ^ 32) 1 (generation id + k - 2 ^ 32)) in Hgk; lia. }
  destruct (H0 Hz) as (s1 & Hs1 & Hm1). rewrite get_Some in Hs1. congruence.
Qed.

(** Live records and handles. *)
Lemma elem_of_live a s : s ∈ live a <-> exists id, get a id = Some s.
Proof.
  unfold live. rewrite list_elem_of_omap. split.
  - intros ([g o] & Hin & Ho). simpl in Ho. subst o. apply list_elem_of_lookup in Hin as [i Hi].
    exists (mkId (Z.of_nat i) g). apply get_Some, slot_at_Some. simpl.
    split; [lia|]. by rewrite Nat2Z.id.
  - intros (id & Hg). apply get_Some, slot_at_Some in Hg as [_ Hg].
    eexists. split; [by eapply list_elem_of_lookup_2|done].
Qed.

Lemma get_live a id s : get a id = Some s -> s ∈ live a.
Proof. intros Hg. apply elem_of_live. by exists id. Qed.

(** Records that know their handle are all different. *)
Lemma NoDup_omap_index {A B} (h : A -> option B) (g : B -> Z) (l : list A) (k : Z) :
  (forall (i : nat) x y, l !! i = Some x -> h x = Some y -> g y = k + Z.of_nat i) -> NoDup (g <$> omap h l).
Proof.
  revert k. induction l as [|x l IH]; intros k Hg; [constructor|].
  assert (NoDup (g <$> omap h l)) as Hnd.
  { apply (IH (k + 1)). intros i z y Hz Hy. rewrite (Hg (Datatypes.S i) z y Hz Hy). lia. }
  cbn [omap list_omap]. destruct (h x) as [y|] eqn:E; [|done]. rewrite fmap_cons. apply NoDup_cons.
  split; [|done]. rewrite (Hg 0%nat x y eq_refl E). intros (y' & Hy & Hin)%list_elem_of_fmap.
  apply list_elem_of_omap in Hin as (z & Hin & Hz). apply list_elem_of_lookup in Hin as [i Hi].
  rewrite (Hg (Datatypes.S i) z y' Hi Hz) in Hy. lia.
Qed.

Lemma NoDup_live a (f : S -> StreamId) :
  (forall id s, get a id = Some s -> f s = id) -> NoDup (f <$> live a).
Proof.
  intros Hf. apply (NoDup_fmap_1 sid_index). rewrite <- list_fmap_compose. unfold live.
  apply (NoDup_omap_index slot_stream (sid_index ∘ f) (slots a) 0). intros i [g o] s Hi Ho. simpl in *.
  rewrite (Hf (mkId (Z.of_nat i) g) s); [simpl; lia|]. apply get_Some, slot_at_Some. simpl.
  rewrite Nat2Z.id, Hi, Ho. split; [lia|done].
Qed.
End Arena.
