(* ===== verification/Store.v ===== *)
(** * The stream aggregator: data and operations

    Models [crates/pktflow-flows/src/store.rs].  [Aggregator] is the source's
    struct with [slots] and [free] grouped as an [Arena] and the sink replaced
    by the list of records handed to it ([emitted]); every operation returns
    the state after it.  Binary heaps are sorted lists (equal elements are
    equal tuples, so [peek], [pop] and [push] are the same), hash maps are
    [gmap]s, and the standard hasher is the class [Hasher]: nothing depends on
    which digests it returns.  [usize] and [u64] counters are unbounded here;
    saturating operations saturate at 0.

    Adding a timeout to a packet's time panics past [SystemTime]'s range, which a
    huge [--idle-timeout] reaches.  The one field that is the model's own,
    [ag_overflowed], says that this has happened: each such sum sets it and none
    clears it.  The code's thread is gone then; the state here goes on with the
    mathematical sum, and whoever runs an aggregator reads the flag ([Pipeline]'s
    runs have no result once it is set).  [StoreFinish.run_running] shows that it
    stays clear while the timeouts fit. *)

From S2P Require Import Prelude Values Bytes Types Contract Engine.
From S2P Require Import FlowKeys Rollups Unknowns Arena.

(** [DefaultHasher] on a flow key and on a key buffer. *)
Class Hasher := {
  key_hash : list Z -> Z;
  encoding_digest : list Z -> Z;
}.

Inductive CloseReason := ProtocolClose | IdleTimeout | LruEvicted | CaptureEnd.

Inductive EvictionPolicy :=
  | EvictNone
  | EvictLive (idle_timeout close_linger : Duration) (max_streams : Z).

Definition DEFAULT_CONDENSE_THRESHOLD : Z := 256.
Definition CONDENSE_MEMBER_CAP : Z := 65536.
Definition CONDENSED_KEY_SENTINEL : Z := 254.

Record AggregatorConfig := mkConfig {
  eviction : EvictionPolicy;
  condense_threshold : Z;
  rollup_series_default_cap : Z;
  rollup_series_max_cap : option Z;
  unknown_config : UnknownRegistryConfig;
}.

Definition AggregatorConfig_default : AggregatorConfig :=
  mkConfig EvictNone DEFAULT_CONDENSE_THRESHOLD 1024 None UnknownRegistryConfig_default.

Record DirStats := mkStats { st_packets : Z; st_bytes : Z }.
Definition DirStats_default : DirStats := mkStats 0 0.

Record CondensedInfo := mkCondensed {
  member_flows : Z;
  ephemeral_field : FieldName;
  ci_overflow : bool;
}.

Record Stream := mkStream {
  st_id : StreamId;
  st_protocol : ProtocolName;
  st_key : list Z;
  key_fields : FieldMap.t;
  parent : option StreamId;
  children : list StreamId;
  initiator : PacketDirection;
  first_seen : SystemTime;
  last_seen : SystemTime;
  stats : DirStats * DirStats;
  opaque_bytes : Z;
  state : option StateName;
  st_rollups : RollupSet;
  closed : option CloseReason;
  close_eligible : bool;
  close_eligible_since : option SystemTime;
  created_seq : Z;
  condensed : option CondensedInfo;
}.

(** [stats[dir_index(dir)]], updated. *)
Definition upd_stats (d : PacketDirection) (f : DirStats -> DirStats) (s : DirStats * DirStats)
    : DirStats * DirStats :=
  match d with AtoB => (f s.1, s.2) | BtoA => (s.1, f s.2) end.

Definition stream_bytes (s : Stream) : Z := st_bytes (stats s).1 + st_bytes (stats s).2.

Definition set_children (f : list StreamId -> list StreamId) (s : Stream) : Stream :=
  mkStream (st_id s) (st_protocol s) (st_key s) (key_fields s) (parent s) (f (children s))
    (initiator s) (first_seen s) (last_seen s) (stats s) (opaque_bytes s) (state s) (st_rollups s)
    (closed s) (close_eligible s) (close_eligible_since s) (created_seq s) (condensed s).

Definition set_opaque (n : Z) (s : Stream) : Stream :=
  mkStream (st_id s) (st_protocol s) (st_key s) (key_fields s) (parent s) (children s)
    (initiator s) (first_seen s) (last_seen s) (stats s) (opaque_bytes s + n) (state s) (st_rollups s)
    (closed s) (close_eligible s) (close_eligible_since s) (created_seq s) (condensed s).

Definition set_closed (r : CloseReason) (s : Stream) : Stream :=
  mkStream (st_id s) (st_protocol s) (st_key s) (key_fields s) (parent s) (children s)
    (initiator s) (first_seen s) (last_seen s) (stats s) (opaque_bytes s) (state s) (st_rollups s)
    (Some r) (close_eligible s) (close_eligible_since s) (created_seq s) (condensed s).

Definition set_condensed (f : CondensedInfo -> CondensedInfo) (s : Stream) : Stream :=
  mkStream (st_id s) (st_protocol s) (st_key s) (key_fields s) (parent s) (children s)
    (initiator s) (first_seen s) (last_seen s) (stats s) (opaque_bytes s) (state s) (st_rollups s)
    (closed s) (close_eligible s) (close_eligible_since s) (created_seq s) (f <$> condensed s).

Record EvictedStream := mkEvicted { ev_stream : Stream; ev_reason : CloseReason }.

Record Totals := mkTotals {
  packets : Z;
  tot_bytes : Z;
  streams_created : Z;
  flows_condensed : Z;
  key_errors : Z;
}.

Record CondenseGroup := mkCGroup { expanded : Z; node : option StreamId; members : gset Z }.
Definition CondenseGroup_default : CondenseGroup := mkCGroup 0 None ∅.

(** Parent scope, protocol, anchor encoding. *)
Abbreviation CondenseKey := (option StreamId * string * list Z)%type (only parsing).
(** Parent scope, protocol, key digest. *)
Abbreviation IndexKey := (option StreamId * string * Z)%type (only parsing).
Abbreviation ExpiryEntry := (Z * Z * Z)%type (only parsing).
Abbreviation LruEntry := (Z * Z * Z * Z)%type (only parsing).

Record CondenseCandidate := mkCandidate {
  anchor : list Z;
  anchor_field : FieldName;
  anchor_value : Value;
  varying_digest : Z;
  fold_dir : PacketDirection;
}.

Record Aggregator := mkAgg {
  ag_engine : Engine;
  config : AggregatorConfig;
  arena : Arena Stream;
  index : gmap (option StreamId * string * Z) (list StreamId);
  roots : list StreamId;
  totals : Totals;
  clock : SystemTime;
  next_seq : Z;
  stop_classes : Z * Z * Z * Z;
  created_per_protocol : gmap string Z;
  live_per_protocol : gmap string Z;
  live_bytes_per_protocol : gmap string Z;
  expiry : list ExpiryEntry;
  lru : list LruEntry;
  live_count : Z;
  unknowns : UnknownRegistry;
  ag_condense : gmap (option StreamId * string * list Z) CondenseGroup;
  emitted : list EvictedStream;
  ag_overflowed : bool;
}.

Definition Aggregator_new (e : Engine) (c : AggregatorConfig) : Aggregator :=
  mkAgg e c arena_new ∅ [] (mkTotals 0 0 0 0 0) 0 0 (0, 0, 0, 0) ∅ ∅ ∅ [] [] 0
    UnknownRegistry_new ∅ [] false.

(** Assignments to one field. *)
Definition set_arena (v : Arena Stream) (a : Aggregator) : Aggregator :=
  mkAgg (ag_engine a) (config a) v (index a) (roots a) (totals a) (clock a) (next_seq a)
    (stop_classes a) (created_per_protocol a) (live_per_protocol a) (live_bytes_per_protocol a)
    (expiry a) (lru a) (live_count a) (unknowns a) (ag_condense a) (emitted a)
    (ag_overflowed a).
Definition set_index (v : gmap (option StreamId * string * Z) (list StreamId)) (a : Aggregator) : Aggregator :=
  mkAgg (ag_engine a) (config a) (arena a) v (roots a) (totals a) (clock a) (next_seq a)
    (stop_classes a) (created_per_protocol a) (live_per_protocol a) (live_bytes_per_protocol a)
    (expiry a) (lru a) (live_count a) (unknowns a) (ag_condense a) (emitted a)
    (ag_overflowed a).
Definition set_roots (v : list StreamId) (a : Aggregator) : Aggregator :=
  mkAgg (ag_engine a) (config a) (arena a) (index a) v (totals a) (clock a) (next_seq a)
    (stop_classes a) (created_per_protocol a) (live_per_protocol a) (live_bytes_per_protocol a)
    (expiry a) (lru a) (live_count a) (unknowns a) (ag_condense a) (emitted a)
    (ag_overflowed a).
Definition set_totals (v : Totals) (a : Aggregator) : Aggregator :=
  mkAgg (ag_engine a) (config a) (arena a) (index a) (roots a) v (clock a) (next_seq a)
    (stop_classes a) (created_per_protocol a) (live_per_protocol a) (live_bytes_per_protocol a)
    (expiry a) (lru a) (live_count a) (unknowns a) (ag_condense a) (emitted a)
    (ag_overflowed a).
Definition set_clock (v : SystemTime) (a : Aggregator) : Aggregator :=
  mkAgg (ag_engine a) (config a) (arena a) (index a) (roots a) (totals a) v (next_seq a)
    (stop_classes a) (created_per_protocol a) (live_per_protocol a) (live_bytes_per_protocol a)
    (expiry a) (lru a) (live_count a) (unknowns a) (ag_condense a) (emitted a)
    (ag_overflowed a).
Definition set_next_seq (v : Z) (a : Aggregator) : Aggregator :=
  mkAgg (ag_engine a) (config a) (arena a) (index a) (roots a) (totals a) (clock a) v
    (stop_classes a) (created_per_protocol a) (live_per_protocol a) (live_bytes_per_protocol a)
    (expiry a) (lru a) (live_count a) (unknowns a) (ag_condense a) (emitted a)
    (ag_overflowed a).
Definition set_stop_classes (v : Z * Z * Z * Z) (a : Aggregator) : Aggregator :=
  mkAgg (ag_engine a) (config a) (arena a) (index a) (roots a) (totals a) (clock a) (next_seq a) v
    (created_per_protocol a) (live_per_protocol a) (live_bytes_per_protocol a) (expiry a) (lru a)
    (live_count a) (unknowns a) (ag_condense a) (emitted a)
    (ag_overflowed a).
Definition set_created_per_protocol (v : gmap string Z) (a : Aggregator) : Aggregator :=
  mkAgg (ag_engine a) (config a) (arena a) (index a) (roots a) (totals a) (clock a) (next_seq a)
    (stop_classes a) v (live_per_protocol a) (live_bytes_per_protocol a) (expiry a) (lru a)
    (live_count a) (unknowns a) (ag_condense a) (emitted a)
    (ag_overflowed a).
Definition set_live_per_protocol (v : gmap string Z) (a : Aggregator) : Aggregator :=
  mkAgg (ag_engine a) (config a) (arena a) (index a) (roots a) (totals a) (clock a) (next_seq a)
    (stop_classes a) (created_per_protocol a) v (live_bytes_per_protocol a) (expiry a) (lru a)
    (live_count a) (unknowns a) (ag_condense a) (emitted a)
    (ag_overflowed a).
Definition set_live_bytes_per_protocol (v : gmap string Z) (a : Aggregator) : Aggregator :=
  mkAgg (ag_engine a) (config a) (arena a) (index a) (roots a) (totals a) (clock a) (next_seq a)
    (stop_classes a) (created_per_protocol a) (live_per_protocol a) v (expiry a) (lru a)
    (live_count a) (unknowns a) (ag_condense a) (emitted a)
    (ag_overflowed a).
Definition set_expiry (v : list ExpiryEntry) (a : Aggregator) : Aggregator :=
  mkAgg (ag_engine a) (config a) (arena a) (index a) (roots a) (totals a) (clock a) (next_seq a)
    (stop_classes a) (created_per_protocol a) (live_per_protocol a) (live_bytes_per_protocol a) v
    (lru a) (live_count a) (unknowns a) (ag_condense a) (emitted a)
    (ag_overflowed a).
Definition set_lru (v : list LruEntry) (a : Aggregator) : Aggregator :=
  mkAgg (ag_engine a) (config a) (arena a) (index a) (roots a) (totals a) (clock a) (next_seq a)
    (stop_classes a) (created_per_protocol a) (live_per_protocol a) (live_bytes_per_protocol a)
    (expiry a) v (live_count a) (unknowns a) (ag_condense a) (emitted a)
    (ag_overflowed a).
Definition set_live_count (v : Z) (a : Aggregator) : Aggregator :=
  mkAgg (ag_engine a) (config a) (arena a) (index a) (roots a) (totals a) (clock a) (next_seq a)
    (stop_classes a) (created_per_protocol a) (live_per_protocol a) (live_bytes_per_protocol a)
    (expiry a) (lru a) v (unknowns a) (ag_condense a) (emitted a)
    (ag_overflowed a).
Definition set_unknowns (v : UnknownRegistry) (a : Aggregator) : Aggregator :=
  mkAgg (ag_engine a) (config a) (arena a) (index a) (roots a) (totals a) (clock a) (next_seq a)
    (stop_classes a) (created_per_protocol a) (live_per_protocol a) (live_bytes_per_protocol a)
    (expiry a) (lru a) (live_count a) v (ag_condense a) (emitted a)
    (ag_overflowed a).
Definition set_condense (v : gmap (option StreamId * string * list Z) CondenseGroup) (a : Aggregator) : Aggregator :=
  mkAgg (ag_engine a) (config a) (arena a) (index a) (roots a) (totals a) (clock a) (next_seq a)
    (stop_classes a) (created_per_protocol a) (live_per_protocol a) (live_bytes_per_protocol a)
    (expiry a) (lru a) (live_count a) (unknowns a) v (emitted a) (ag_overflowed a).
Definition set_emitted (v : list EvictedStream) (a : Aggregator) : Aggregator :=
  mkAgg (ag_engine a) (config a) (arena a) (index a) (roots a) (totals a) (clock a) (next_seq a)
    (stop_classes a) (created_per_protocol a) (live_per_protocol a) (live_bytes_per_protocol a)
    (expiry a) (lru a) (live_count a) (unknowns a) (ag_condense a) v (ag_overflowed a).
Definition set_overflowed (v : bool) (a : Aggregator) : Aggregator :=
  mkAgg (ag_engine a) (config a) (arena a) (index a) (roots a) (totals a) (clock a) (next_seq a)
    (stop_classes a) (created_per_protocol a) (live_per_protocol a) (live_bytes_per_protocol a)
    (expiry a) (lru a) (live_count a) (unknowns a) (ag_condense a) (emitted a) v.

(** ** Sums of times

    [SystemTime + Duration] panics when the seconds of the sum do not fit an
    [i64]. *)

Definition time_fits (t : SystemTime) : bool := t / 1000000000 <=? i64_max.

(** The panic of a sum that comes out as [t], when it does. *)
Definition check_time (t : SystemTime) (a : Aggregator) : Aggregator :=
  set_overflowed (ag_overflowed a || negb (time_fits t)) a.

(** ** Heaps *)

Definition expiry_leb : ExpiryEntry -> ExpiryEntry -> bool := lex_pair (lex_pair Z.leb Z.leb) Z.leb.
Definition lru_leb : LruEntry -> LruEntry -> bool :=
  lex_pair (lex_pair (lex_pair Z.leb Z.leb) Z.leb) Z.leb.

Definition push_expiry (d : SystemTime) (id : StreamId) (a : Aggregator) : Aggregator :=
  set_expiry (insert_by expiry_leb (d, sid_index id, generation id) (expiry a)) a.

Definition push_lru (seen : SystemTime) (seq : Z) (id : StreamId) (a : Aggregator) : Aggregator :=
  set_lru (insert_by lru_leb (seen, seq, sid_index id, generation id) (lru a)) a.

(** ** Lookups *)

Definition ag_get (a : Aggregator) (id : StreamId) : option Stream := get (arena a) id.

(** [if let Some(stream) = self.get_mut(id) { *stream = f(stream) }]. *)
Definition modify (id : StreamId) (f : Stream -> Stream) (a : Aggregator) : Aggregator :=
  set_arena (get_mut (arena a) id f) a.

Definition streams (a : Aggregator) : list Stream := live (arena a).

Definition is_live_policy (c : AggregatorConfig) : bool :=
  match eviction c with EvictNone => false | EvictLive _ _ _ => true end.

(** The deadline as a number; the panic of its sums is [call_deadline_of]'s. *)
Definition deadline_of (a : Aggregator) (id : StreamId) : option SystemTime :=
  match eviction (config a) with
  | EvictNone => None
  | EvictLive idle_timeout close_linger _ =>
      s ← ag_get a id;
      let idle := last_seen s + idle_timeout in
      Some (match close_eligible_since s with
            | Some entered => Z.min idle (entered + close_linger)
            | None => idle
            end)
  end.

(** The sums of [deadline_of] fit. *)
Definition deadline_fits (a : Aggregator) (id : StreamId) : bool :=
  match eviction (config a), ag_get a id with
  | EvictLive idle_timeout close_linger _, Some s =>
      time_fits (last_seen s + idle_timeout) &&
      match close_eligible_since s with Some entered => time_fits (entered + close_linger) | None => true end
  | _, _ => true
  end.

(** A call of [deadline_of]: its result with the state after it. *)
Definition call_deadline_of (a : Aggregator) (id : StreamId) : Aggregator * option SystemTime :=
  (set_overflowed (ag_overflowed a || negb (deadline_fits a id)) a, deadline_of a id).

(** [*map.entry(k).or_insert(0) += n]. *)
Definition bump (k : string) (n : Z) (m : gmap string Z) : gmap string Z :=
  <[k := default 0 (m !! k) + n]> m.

Definition add_totals (dp db dc df dk : Z) (t : Totals) : Totals :=
  mkTotals (packets t + dp) (tot_bytes t + db) (streams_created t + dc) (flows_condensed t + df)
    (key_errors t + dk).

(** ** Condensation (D16) *)

(** The shared prefix of a flow's anchors; [None] is the [?] on an absent
    field. *)
Fixpoint condense_prefix (ks : list KeyField) (eph : KeyField) (m : FieldMap.t) : option (list Z) :=
  match ks with
  | [] => Some []
  | kf :: ks' =>
      if bool_decide (kf = eph) then condense_prefix ks' eph m
      else
        va ← FieldMap.get (kf_a kf) m;
        match kf_b kf with
        | None => rest ← condense_prefix ks' eph m; Some (encode_value va ++ rest)
        | Some b =>
            vb ← FieldMap.get b m;
            let ea := encode_value va in
            let eb := encode_value vb in
            rest ← condense_prefix ks' eph m;
            Some ((if lex_leb ea eb then ea ++ eb else eb ++ ea) ++ rest)
        end
  end.

Section Aggregator.
Context `{Hasher}.

Definition condense_candidates (id : StreamIdentity) (spec : CondenseSpec) (m : FieldMap.t)
    : option (list CondenseCandidate) :=
  let eph := ephemeral spec in
  b_name ← kf_b eph;
  va ← FieldMap.get (kf_a eph) m;
  vb ← FieldMap.get b_name m;
  prefix ← condense_prefix (key id) eph m;
  let enc_a := encode_value va in
  let enc_b := encode_value vb in
  let first := mkCandidate (prefix ++ enc_a) (kf_a eph) va (encoding_digest enc_b) AtoB in
  Some (if bool_decide (enc_a = enc_b) then [first]
        else [first; mkCandidate (prefix ++ enc_b) b_name vb (encoding_digest enc_a) BtoA]).

(** ** Creation *)

Definition create_stream_raw (par : option StreamId) (k : list Z) (kfields : FieldMap.t)
    (st : option StateName) (rolls : RollupSet) (cond : option CondensedInfo)
    (dir : PacketDirection) (proto : ProtocolName) (ts : SystemTime) (a : Aggregator)
    : Aggregator * StreamId :=
  let id := next_id (arena a) in
  let seq := next_seq a in
  let s := mkStream id proto k kfields par [] dir ts ts (DirStats_default, DirStats_default) 0
             st rolls None false None seq cond in
  let a := set_next_seq (next_seq a + 1) a in
  let a := set_totals (add_totals 0 0 1 0 0 (totals a)) a in
  let a := set_created_per_protocol (bump proto 1 (created_per_protocol a)) a in
  let a := set_live_per_protocol (bump proto 1 (live_per_protocol a)) a in
  let a := set_live_count (live_count a + 1) a in
  let a := set_arena (place (arena a) id s) a in
  let ik := (par, proto, key_hash k) in
  let a := set_index (<[ik := default [] (index a !! ik) ++ [id]]> (index a)) a in
  let a := match par with
           | Some p =>
               match ag_get a p with
               | Some _ => modify p (set_children (fun cs => cs ++ [id])) a
               | None => set_roots (roots a ++ [id]) a
               end
           | None => set_roots (roots a ++ [id]) a
           end in
  let a := match eviction (config a) with
           | EvictLive idle_timeout _ _ =>
               let due := ts + idle_timeout in push_lru ts seq id (push_expiry due id (check_time due a))
           | EvictNone => a
           end in
  (a, id).

(** The key-named fields of the layer, for display. *)
Definition display_fields (id : StreamIdentity) (m : FieldMap.t) : FieldMap.t :=
  foldl (fun acc n => match FieldMap.get n m with
                      | Some v => FieldMap.insert n v acc
                      | None => acc
                      end) FieldMap.new (key_names (key id)).

Definition new_rollups (id : StreamIdentity) (c : AggregatorConfig) : RollupSet :=
  RollupSet_new (rollups id) (rollup_series_default_cap c) (rollup_series_max_cap c).

Definition create_stream (par : option StreamId) (k : list Z) (id : StreamIdentity)
    (cond : option CondensedInfo) (l : LayerRecord) (dir : PacketDirection) (ts : SystemTime)
    (a : Aggregator) : Aggregator * StreamId :=
  create_stream_raw par k (display_fields id (fields l)) (initial <$> lifecycle id)
    (new_rollups id (config a)) cond dir (protocol l) ts a.

(** The condensed node of a triggered group: the standing one, or a new one
    with the synthesized key. *)
Definition condensed_node (par : option StreamId) (proto : ProtocolName) (id : StreamIdentity)
    (c : CondenseCandidate) (g : CondenseGroup) (ts : SystemTime) (a : Aggregator)
    : Aggregator * StreamId :=
  let standing := n ← node g; _ ← ag_get a n; Some n in
  match standing with
  | Some n => (a, n)
  | None =>
      let ckey := (par, proto, anchor c) in
      let '(a, n) := create_stream_raw par (CONDENSED_KEY_SENTINEL :: anchor c)
        (FieldMap.insert (anchor_field c) (anchor_value c) FieldMap.new) None
        (new_rollups id (config a)) (Some (mkCondensed 0 (anchor_field c) false)) (fold_dir c)
        proto ts a in
      let a := set_totals (add_totals 0 0 (-1) 0 0 (totals a)) a in
      let a := set_created_per_protocol (alter (fun n => n - 1) proto (created_per_protocol a)) a in
      let a := set_condense
        (alter (fun g => mkCGroup (expanded g) (Some n) (members g)) ckey (ag_condense a)) a in
      (a, n)
  end.

(** Membership of the varying side in the group. *)
Definition join_group (proto : ProtocolName) (ckey : CondenseKey) (digest : Z) (n : StreamId)
    (a : Aggregator) : Aggregator :=
  match ag_condense a !! ckey with
  | None => a
  | Some g =>
      let room := Z.of_nat (size (members g)) <? CONDENSE_MEMBER_CAP in
      let known := bool_decide (digest ∈ members g) in
      let new_member := room && negb known in
      let overflowed := negb room && negb known in
      let a := if room
               then set_condense (<[ckey := mkCGroup (expanded g) (node g) ({[digest]} ∪ members g)]>
                                    (ag_condense a)) a
               else a in
      let a := if new_member
               then set_created_per_protocol (bump proto 1 (created_per_protocol a))
                      (set_totals (add_totals 0 0 1 1 0 (totals a)) a)
               else a in
      if new_member || overflowed
      then modify n (set_condensed (fun i =>
             mkCondensed (if new_member then member_flows i + 1 else member_flows i)
               (ephemeral_field i) (ci_overflow i || overflowed))) a
      else a
  end.

Definition condense_fold (par : option StreamId) (proto : ProtocolName) (id : StreamIdentity)
    (c : CondenseCandidate) (ts : SystemTime) (a : Aggregator)
    : option (Aggregator * (StreamId * PacketDirection)) :=
  let ckey := (par, proto, anchor c) in
  g ← ag_condense a !! ckey;
  if bool_decide (node g = None) && (expanded g <? condense_threshold (config a)) then None
  else
    let '(a, n) := condensed_node par proto id c g ts a in
    Some (join_group proto ckey (varying_digest c) n a, (n, fold_dir c)).

(** The first candidate anchor that folds. *)
Fixpoint fold_first (par : option StreamId) (proto : ProtocolName) (id : StreamIdentity)
    (cs : list CondenseCandidate) (ts : SystemTime) (a : Aggregator)
    : option (Aggregator * (StreamId * PacketDirection)) :=
  match cs with
  | [] => None
  | c :: cs' =>
      match condense_fold par proto id c ts a with
      | Some r => Some r
      | None => fold_first par proto id cs' ts a
      end
  end.

(** Count a new expanded flow toward its anchors. *)
Definition tally (par : option StreamId) (proto : ProtocolName) (cs : list CondenseCandidate)
    (m : gmap (option StreamId * string * list Z) CondenseGroup)
    : gmap (option StreamId * string * list Z) CondenseGroup :=
  foldl (fun m c =>
    let ckey := (par, proto, anchor c) in
    let g := default CondenseGroup_default (m !! ckey) in
    <[ckey := mkCGroup (expanded g + 1) (node g) (members g)]> m) m cs.

Definition bucket_hit (a : Aggregator) (ik : IndexKey) (k : list Z) : option StreamId :=
  find_first (fun id => match ag_get a id with Some s => bool_decide (st_key s = k) | None => false end)
    (default [] (index a !! ik)).

Definition get_or_insert (par : option StreamId) (k : list Z) (id : StreamIdentity)
    (cond : option CondenseSpec) (l : LayerRecord) (dir : PacketDirection) (ts : SystemTime)
    (a : Aggregator) : Aggregator * (StreamId * PacketDirection) :=
  match bucket_hit a (par, protocol l, key_hash k) k with
  | Some n => (a, (n, dir))
  | None =>
      let candidates :=
        spec ← cond;
        if 0 <? condense_threshold (config a) then condense_candidates id spec (fields l) else None in
      match candidates with
      | Some cs =>
          match fold_first par (protocol l) id cs ts a with
          | Some r => r
          | None =>
              let '(a, n) := create_stream par k id None l dir ts a in
              (set_condense (tally par (protocol l) cs (ag_condense a)) a, (n, dir))
          end
      | None =>
          let '(a, n) := create_stream par k id None l dir ts a in (a, (n, dir))
      end
  end.

(** ** Eviction *)

Definition untally (par : option StreamId) (proto : ProtocolName) (cs : list CondenseCandidate)
    (m : gmap (option StreamId * string * list Z) CondenseGroup)
    : gmap (option StreamId * string * list Z) CondenseGroup :=
  foldl (fun m c =>
    let ckey := (par, proto, anchor c) in
    match m !! ckey with
    | None => m
    | Some g =>
        let e := sat_sub (expanded g) 1 in
        if (e =? 0) && bool_decide (node g = None) then delete ckey m
        else <[ckey := mkCGroup e (node g) (members g)]> m
    end) m cs.

Definition condense_evict (s : Stream) (a : Aggregator) : Aggregator :=
  if condense_threshold (config a) =? 0 then a
  else match condensed s with
  | Some _ => set_condense (delete (parent s, st_protocol s, tail (st_key s)) (ag_condense a)) a
  | None =>
      let candidates :=
        p ← plugin_by_name (ag_engine a) (st_protocol s);
        spec ← condense p;
        id ← stream_identity p;
        condense_candidates id spec (key_fields s) in
      match candidates with
      | Some cs => set_condense (untally (parent s) (st_protocol s) cs (ag_condense a)) a
      | None => a
      end
  end.

(** Drop the handle from its index bucket, and the bucket when it empties. *)
Definition unindex (ik : IndexKey) (id : StreamId) (a : Aggregator) : Aggregator :=
  match index a !! ik with
  | None => a
  | Some bucket =>
      match filter (fun c => c <> id) bucket with
      | [] => set_index (delete ik (index a)) a
      | bucket' => set_index (<[ik := bucket']> (index a)) a
      end
  end.

(** Unlink from the parent and re-arm it, or from the roots. *)
Definition unlink (id : StreamId) (par : option StreamId) (a : Aggregator) : Aggregator :=
  match par with
  | None => set_roots (filter (fun r => r <> id) (roots a)) a
  | Some p =>
      let a := modify p (set_children (filter (fun c => c <> id))) a in
      let '(a, deadline) := call_deadline_of a p in
      let a := match deadline with Some d => push_expiry d p a | None => a end in
      match ag_get a p with
      | Some ps => push_lru (last_seen ps) (created_seq ps) p a
      | None => a
      end
  end.

Definition evict (id : StreamId) (reason : CloseReason) (a : Aggregator) : Aggregator :=
  match remove (arena a) id with
  | None => a
  | Some (s, arena') =>
      let a := set_arena arena' a in
      let a := set_live_count (live_count a - 1) a in
      let a := set_live_per_protocol (alter (fun n => sat_sub n 1) (st_protocol s) (live_per_protocol a)) a in
      let a := set_live_bytes_per_protocol
        (alter (fun n => sat_sub n (stream_bytes s)) (st_protocol s) (live_bytes_per_protocol a)) a in
      let a := condense_evict s a in
      let a := unindex (parent s, st_protocol s, key_hash (st_key s)) id a in
      let a := unlink id (parent s) a in
      set_emitted (emitted a ++ [mkEvicted (set_closed reason s) reason]) a
  end.

(** ** Timeouts and caps *)

(** Its sum is one that [deadline_of] has just made. *)
Definition close_reason (s : Stream) (close_linger : Duration) (now : SystemTime) : CloseReason :=
  match close_eligible_since s with
  | Some entered => if entered + close_linger <=? now then ProtocolClose else IdleTimeout
  | None => IdleTimeout
  end.

Definition sweep_body (close_linger : Duration) (now : SystemTime) (a : Aggregator) : ctl Aggregator :=
  match expiry a with
  | [] => Done a
  | (entry_deadline, i, g) :: rest =>
      if now <? entry_deadline then Done a
      else
        let a := set_expiry rest a in
        let id := mkId i g in
        let '(a, deadline) := call_deadline_of a id in
        match deadline with
        | None => Again a
        | Some actual =>
            if now <? actual then Again (push_expiry actual id a)
            else match ag_get a id with
                 | None => Again a
                 | Some s =>
                     match children s with
                     | _ :: _ => Again a
                     | [] => Again (evict id (close_reason s close_linger now) a)
                     end
                 end
        end
  end.

(** Rounds of [sweep]: two per live stream and one per pending entry. *)
Definition sweep_fuel (a : Aggregator) : nat :=
  Datatypes.S (2 * length (streams a) + length (expiry a)).

Definition sweep (a : Aggregator) : Aggregator :=
  match eviction (config a) with
  | EvictNone => a
  | EvictLive _ close_linger _ =>
      run_loop (sweep_body close_linger (clock a)) (sweep_fuel a) a
  end.

Definition enforce_streams_body (max_streams : Z) (a : Aggregator) : ctl Aggregator :=
  if max_streams <? live_count a
  then match lru a with
       | [] => Done a
       | (entry_seen, entry_seq, i, g) :: rest =>
           let a := set_lru rest a in
           let id := mkId i g in
           match ag_get a id with
           | None => Again a
           | Some s =>
               match children s with
               | _ :: _ => Again a
               | [] =>
                   if bool_decide ((last_seen s, created_seq s) = (entry_seen, entry_seq))
                   then Again (evict id LruEvicted a)
                   else Again (push_lru (last_seen s) (created_seq s) id a)
               end
           end
       end
  else Done a.

(** Rounds of [enforce_max_streams]: two per entry and two per live stream. *)
Definition enforce_fuel (a : Aggregator) : nat :=
  Datatypes.S (2 * length (streams a) + 2 * length (lru a)).

Definition enforce_max_streams (a : Aggregator) : Aggregator :=
  match eviction (config a) with
  | EvictNone => a
  | EvictLive _ _ max_streams => run_loop (enforce_streams_body max_streams) (enforce_fuel a) a
  end.

Definition compact_lru (a : Aggregator) : Aggregator :=
  if blen (lru a) <=? 2 * live_count a + 1024 then a
  else
    let leaves := filter (fun s => children s = []) (streams a) in
    set_lru (sort_by lru_leb
      ((fun s => (last_seen s, created_seq s, sid_index (st_id s), generation (st_id s))) <$> leaves)) a.

(** ** Ingest *)

(** The updates of one layer's packet to its stream; the flag is
    [became_eligible]. *)
Definition touch (id : StreamIdentity) (m : FieldMap.t) (dir : PacketDirection) (ts : SystemTime)
    (origlen : Z) (s : Stream) : Stream * bool :=
  let stats' := upd_stats dir (fun d => mkStats (st_packets d + 1) (st_bytes d + origlen)) (stats s) in
  let '(state', eligible', since', became) :=
    match lifecycle id, state s with
    | Some spec, Some current =>
        let nxt := advance spec m current dir in
        let eligible := bool_decide (nxt ∈ closed_states spec) in
        let entering := eligible && negb (close_eligible s) in
        (Some nxt, eligible,
         (if entering then Some ts else if negb eligible then None else close_eligible_since s),
         entering)
    | _, _ => (state s, close_eligible s, close_eligible_since s, false)
    end in
  (mkStream (st_id s) (st_protocol s) (st_key s) (key_fields s) (parent s) (children s)
     (initiator s) (first_seen s) ts stats' (opaque_bytes s) state'
     (RollupSet_apply m (first_seen s) ts dir (st_rollups s))
     (closed s) eligible' since' (created_seq s) (condensed s), became).

(** The loop state of [ingest]: aggregator, parent, last endpoint. *)
Record IngestState := mkIngest {
  is_agg : Aggregator;
  is_parent : option StreamId;
  is_endpoint : option EndpointKey;
}.

Definition ingest_layer (ts : SystemTime) (origlen : Z) (st : IngestState) (l : LayerRecord)
    : IngestState :=
  let a := is_agg st in
  match plugin_by_name (ag_engine a) (protocol l) with
  | None => st
  | Some p =>
      match stream_identity p with
      | None => st
      | Some ident =>
          match flow_key ident (fields l) with
          | Error _ =>
              mkIngest (set_totals (add_totals 0 0 0 0 1 (totals a)) a) (is_parent st) (is_endpoint st)
          | Ok (k, dir) =>
              let '(a, (id, dir)) := get_or_insert (is_parent st) k ident (condense p) l dir ts a in
              let a := set_live_bytes_per_protocol
                         (bump (protocol l) origlen (live_bytes_per_protocol a)) a in
              let became_eligible :=
                match ag_get a id with
                | Some s => (touch ident (fields l) dir ts origlen s).2
                | None => false
                end in
              let a := modify id (fun s => (touch ident (fields l) dir ts origlen s).1) a in
              let a := if became_eligible
                       then match eviction (config a) with
                            | EvictLive _ close_linger _ =>
                                let due := ts + close_linger in push_expiry due id (check_time due a)
                            | EvictNone => a
                            end
                       else a in
              mkIngest a (Some id) (Some (mkEndpoint (protocol l) k))
          end
      end
  end.

Definition bump_stop_class (c : StopClass) (n : Z * Z * Z * Z) : Z * Z * Z * Z :=
  let '(a, b, d, e) := n in
  match c with
  | Clean => (a + 1, b, d, e)
  | UnknownPayload => (a, b + 1, d, e)
  | Malformed => (a, b, d + 1, e)
  | Suspicious => (a, b, d, e + 1)
  end.

Definition ingest (pkt : DissectedPacket) (a : Aggregator) : Aggregator :=
  let ts := timestamp (meta pkt) in
  let a := set_clock (Z.max (clock a) ts) a in
  let a := set_totals (add_totals 1 (origlen (meta pkt)) 0 0 0 (totals a)) a in
  let a := set_stop_classes (bump_stop_class (stop_class (stop pkt)) (stop_classes a)) a in
  let a := sweep a in
  let a := compact_lru a in
  let st := foldl (ingest_layer ts (origlen (meta pkt))) (mkIngest a None None) (layers pkt) in
  let a := is_agg st in
  let a := match is_parent st with
           | Some innermost => modify innermost (set_opaque (opaque_len pkt)) a
           | None => a
           end in
  let a := match unknown pkt with
           | Some diag =>
               set_unknowns (registry_ingest (unknown_config (config a))
                 (mkOccurrence diag (clamp_to u32_max (opaque_len pkt)) ts (is_endpoint st))
                 (unknowns a)) a
           | None => a
           end in
  enforce_max_streams a.

(** ** End of capture *)

(** Hops to the root; the bound covers any acyclic chain of live streams. *)
Fixpoint depth_of (fuel : nat) (a : Aggregator) (cursor : option StreamId) : nat :=
  match fuel, cursor with
  | Datatypes.S fuel', Some pid =>
      Datatypes.S (depth_of fuel' a (s ← ag_get a pid; parent s))
  | _, _ => 0
  end.

Definition finish_leb : (nat * Z * StreamId) -> (nat * Z * StreamId) -> bool :=
  key_leb (fun e => (Z.of_nat e.1.1, e.1.2)) (lex_pair (reverse_leb Z.leb) Z.leb).

Definition finish_order (a : Aggregator) : list (nat * Z * StreamId) :=
  sort_by finish_leb
    ((fun s => (depth_of (length (streams a)) a (parent s), created_seq s, st_id s)) <$> streams a).

Definition finish_one (a : Aggregator) (e : nat * Z * StreamId) : Aggregator :=
  if is_live_policy (config a) then evict e.2 CaptureEnd a
  else match ag_get a e.2 with
       | Some s =>
           let a := modify e.2 (set_closed CaptureEnd) a in
           set_emitted (emitted a ++ [mkEvicted (set_closed CaptureEnd s) CaptureEnd]) a
       | None => a
       end.

Definition finish (a : Aggregator) : Aggregator := foldl finish_one a (finish_order a).
End Aggregator.
