(* ===== verification/StoreInv.v ===== *)
(** * The stream aggregator: invariants

    The store as a forest of live streams ([forest_ok]: parent and child links
    agree, roots are the parentless streams, every index bucket holds exactly
    the live streams of its key), the incremental counters as totals over live
    streams ([counters_ok]), the condensation groups ([groups_ok], which gives
    the D10 uniqueness of parent, protocol and key), and the coverage of the
    two lazy heaps ([heaps_ok]).  Each is stated on the components it reads, so
    that an operation's lemma is about the components it writes. *)

From S2P Require Import Prelude Values Bytes Types Contract Engine.
From S2P Require Import FlowKeys Rollups Unknowns Arena Store.

(** ** Totals over live streams *)

Definition sum_of (f : Stream -> Z) (l : list Stream) : Z := foldr (fun s n => f s + n) 0 l.

#[export] Instance sum_of_Permutation f : Proper ((≡ₚ) ==> (=)) (sum_of f).
Proof.
  intros l1 l2 H. unfold sum_of. induction H; simpl; lia.
Qed.

Definition total (f : Stream -> Z) (a : Aggregator) : Z := sum_of f (streams a).

Lemma sum_of_app f l k : sum_of f (l ++ k) = sum_of f l + sum_of f k.
Proof. unfold sum_of. induction l as [|x l IH]; simpl; [lia|]. rewrite IH. lia. Qed.

Lemma sum_of_nonneg f l : (forall s, s ∈ l -> 0 <= f s) -> 0 <= sum_of f l.
Proof.
  induction l as [|x l IH]; simpl; intros H; [done|].
  pose proof (H x ltac:(by apply elem_of_cons; left)).
  assert (0 <= sum_of f l); [|lia]. apply IH. intros s Hs. apply H. by apply elem_of_cons; right.
Qed.

Lemma sum_of_elem f l s : (forall s, s ∈ l -> 0 <= f s) -> s ∈ l -> f s <= sum_of f l.
Proof.
  intros Hn Hs. apply list_elem_of_split in Hs as (l1 & l2 & ->). rewrite sum_of_app. simpl.
  assert (0 <= sum_of f l1 /\ 0 <= sum_of f l2) as [? ?]; [|lia].
  split; apply sum_of_nonneg; intros x Hx; apply Hn; rewrite elem_of_app, elem_of_cons; auto.
Qed.

(** ** What the accesses do to [ag_get] and to totals *)

Lemma ag_get_modify a id f x :
  ag_get (modify id f a) x = if decide (x = id) then f <$> ag_get a id else ag_get a x.
Proof. apply get_get_mut. Qed.

Lemma total_modify f a id g s :
  ag_get a id = Some s -> total f (modify id g a) = total f a + f (g s) - f s.
Proof.
  intros H. destruct (live_get_mut (arena a) id g s H) as (rest & H1 & H2).
  unfold total, streams. simpl. rewrite H1, H2. simpl. lia.
Qed.

Lemma modify_None a id f : ag_get a id = None -> modify id f a = a.
Proof. intros H. unfold modify. rewrite (get_mut_None _ _ _ H). by destruct a. Qed.

Lemma total_modify_inert f a id g :
  (forall s, f (g s) = f s) -> total f (modify id g a) = total f a.
Proof.
  intros Hg. destruct (ag_get a id) as [s|] eqn:E; [|by rewrite modify_None].
  rewrite (total_modify _ _ _ _ s) by done. rewrite Hg. lia.
Qed.

Lemma elem_of_streams a s : s ∈ streams a <-> exists id, ag_get a id = Some s.
Proof. apply elem_of_live. Qed.

(** ** The forest *)

(** Everything but statistics and child links. *)
Definition same_node (s s' : Stream) : Prop :=
  st_id s' = st_id s /\ st_protocol s' = st_protocol s /\ st_key s' = st_key s /\
  parent s' = parent s /\ created_seq s' = created_seq s /\
  (condensed s' = None <-> condensed s = None).

(** Everything an update that is not structural keeps. *)
Definition same_shape (s s' : Stream) : Prop := same_node s s' /\ children s' = children s.

Lemma same_node_refl s : same_node s s.
Proof. by repeat split. Qed.

Lemma same_node_trans s1 s2 s3 : same_node s1 s2 -> same_node s2 s3 -> same_node s1 s3.
Proof. unfold same_node. intuition congruence. Qed.

Lemma same_node_condensed f s : same_node s (set_condensed f s).
Proof. repeat split; simpl; by destruct (condensed s). Qed.

Create HintDb store.
#[export] Hint Resolve same_node_refl same_node_trans same_node_condensed : store.

Section Forest.
Context `{Hasher}.

Record ids_ok (g : StreamId -> option Stream) (nseq : Z) : Prop := {
  fo_id : forall id s, g id = Some s -> st_id s = id;
  fo_seq : forall id s, g id = Some s -> created_seq s < nseq;
  fo_seq_inj : forall id1 s1 id2 s2, g id1 = Some s1 -> g id2 = Some s2 ->
    created_seq s1 = created_seq s2 -> id1 = id2;
}.

Record links_ok (g : StreamId -> option Stream) : Prop := {
  fo_parent : forall id s p, g id = Some s -> parent s = Some p ->
    exists ps, g p = Some ps /\ id ∈ children ps /\ created_seq ps < created_seq s;
  fo_child : forall id s c, g id = Some s -> c ∈ children s ->
    exists cs, g c = Some cs /\ parent cs = Some id;
  fo_children : forall id s, g id = Some s -> NoDup (children s);
}.

Record roots_ok (g : StreamId -> option Stream) (rts : list StreamId) : Prop := {
  fo_roots : forall id, id ∈ rts <-> exists s, g id = Some s /\ parent s = None;
  fo_roots_nodup : NoDup rts;
}.

Record index_ok (g : StreamId -> option Stream)
    (idx : gmap (option StreamId * string * Z) (list StreamId)) : Prop := {
  fo_index : forall par proto h id, id ∈ default [] (idx !! (par, proto, h)) <->
    exists s, g id = Some s /\ parent s = par /\ st_protocol s = proto /\ key_hash (st_key s) = h;
  fo_bucket : forall k b, idx !! k = Some b -> b <> [] /\ NoDup b;
}.

Record forest_ok (g : StreamId -> option Stream) (rts : list StreamId)
    (idx : gmap (option StreamId * string * Z) (list StreamId)) (nseq : Z) : Prop := {
  fo_ids : ids_ok g nseq;
  fo_links : links_ok g;
  fo_rts : roots_ok g rts;
  fo_idx : index_ok g idx;
}.

(** What the read side needs of a store. *)
Definition readable (a : Aggregator) : Prop :=
  forest_ok (ag_get a) (roots a) (index a) (next_seq a) /\ blen (slots (arena a)) <= 2 ^ 32.

(** *** Updates that keep every shape *)

Definition shape_map (g g' : StreamId -> option Stream) : Prop :=
  forall x, option_Forall2 same_shape (g x) (g' x).

Lemma shape_fwd g g' x s : shape_map g g' -> g x = Some s -> exists s', g' x = Some s' /\ same_shape s s'.
Proof. intros Hx Hs. destruct (Hx x); simplify_eq. by eexists. Qed.

Lemma shape_bwd g g' x s' : shape_map g g' -> g' x = Some s' -> exists s, g x = Some s /\ same_shape s s'.
Proof. intros Hx Hs. destruct (Hx x); simplify_eq. by eexists. Qed.

Lemma same_shape_refl s : same_shape s s.
Proof. by repeat split. Qed.

Lemma shape_map_refl g : shape_map g g.
Proof. intros x. destruct (g x); constructor. apply same_shape_refl. Qed.

Lemma shape_map_trans g1 g2 g3 : shape_map g1 g2 -> shape_map g2 g3 -> shape_map g1 g3.
Proof.
  intros H12 H23 x. specialize (H12 x). specialize (H23 x). unfold same_shape, same_node in *.
  destruct H12 as [a b Hab|]; inversion H23 as [? c Hbc|]; subst; constructor.
  intuition congruence.
Qed.

Lemma forest_ok_shape g g' rts idx n :
  shape_map g g' -> forest_ok g rts idx n -> forest_ok g' rts idx n.
Proof.
  intros Hx [[H1 H2 H3] [H4 H5 H6] [H7 H8] [H9 H10]].
  pose proof (shape_fwd g g') as Hf. pose proof (shape_bwd g g') as Hb.
  unfold same_shape, same_node in *. split; split; try done.
  - intros id s' Hs. destruct (Hb _ _ Hx Hs) as (s & Hgs & (-> & _) & _). by apply H1.
  - intros id s' Hs. destruct (Hb _ _ Hx Hs) as (s & Hgs & (_ & _ & _ & _ & -> & _) & _). by eapply H2.
  - intros id1 s1' id2 s2' Hs1 Hs2.
    destruct (Hb _ _ Hx Hs1) as (s1 & Hg1 & (_ & _ & _ & _ & -> & _) & _).
    destruct (Hb _ _ Hx Hs2) as (s2 & Hg2 & (_ & _ & _ & _ & -> & _) & _). by eapply H3.
  - intros id s' p Hs. destruct (Hb _ _ Hx Hs) as (s & Hgs & (_ & _ & _ & -> & -> & _) & _). intros Hp.
    destruct (H4 _ _ _ Hgs Hp) as (ps & Hps & Hin & Hlt).
    destruct (Hf _ _ Hx Hps) as (ps' & Hps' & (_ & _ & _ & _ & Hq & _) & Hc).
    exists ps'. by rewrite Hc, Hq.
  - intros id s' c Hs. destruct (Hb _ _ Hx Hs) as (s & Hgs & _ & ->). intros Hc.
    destruct (H5 _ _ _ Hgs Hc) as (cs & Hcs & Hp).
    destruct (Hf _ _ Hx Hcs) as (cs' & Hcs' & (_ & _ & _ & Hq & _) & _). exists cs'. by rewrite Hq.
  - intros id s' Hs. destruct (Hb _ _ Hx Hs) as (s & Hgs & _ & ->). by eapply H6.
  - intros id. rewrite H7. split.
    + intros (s & Hs & Hp). destruct (Hf _ _ Hx Hs) as (s' & Hs' & (_ & _ & _ & Hq & _) & _). exists s'. by rewrite Hq.
    + intros (s' & Hs & Hp). destruct (Hb _ _ Hx Hs) as (s & Hgs & (_ & _ & _ & Hq & _) & _). exists s. by rewrite <- Hq.
  - intros par proto h id. rewrite H9. split.
    + intros (s & Hs & Hp). destruct (Hf _ _ Hx Hs) as (s' & Hs' & (_ & Hq1 & Hq2 & Hq3 & _) & _). exists s'. by rewrite Hq1, Hq2, Hq3.
    + intros (s' & Hs & Hp). destruct (Hb _ _ Hx Hs) as (s & Hgs & (_ & Hq1 & Hq2 & Hq3 & _) & _). exists s. by rewrite <- Hq1, <- Hq2, <- Hq3.
Qed.

(** *** A new leaf *)

(** [g'] is [g] with the leaf [s] at [id], linked under its parent. *)
Record grows (g g' : StreamId -> option Stream) (id : StreamId) (s : Stream) : Prop := {
  gr_fresh : g id = None;
  gr_id : st_id s = id;
  gr_leaf : children s = [];
  gr_parent : forall p, parent s = Some p -> is_Some (g p);
  gr_new : g' id = Some s;
  gr_bwd : forall x t', g' x = Some t' -> x <> id -> exists t, g x = Some t /\ same_node t t' /\
    children t' = if decide (parent s = Some x) then children t ++ [id] else children t;
  gr_fwd : forall x t, g x = Some t -> exists t', g' x = Some t' /\ same_node t t' /\
    children t' = if decide (parent s = Some x) then children t ++ [id] else children t;
}.

Lemma grows_intro g g' id s :
  g id = None -> st_id s = id -> children s = [] -> (forall p, parent s = Some p -> is_Some (g p)) ->
  (forall x, g' x = if decide (x = id) then Some s
                    else if decide (parent s = Some x) then set_children (fun cs => cs ++ [id]) <$> g x
                    else g x) -> grows g g' id s.
Proof.
  intros Hfresh Hid Hch Hpar Hg. split; try done.
  - by rewrite Hg, decide_True.
  - intros x t' Ht Hne. rewrite Hg, decide_False in Ht by done.
    case_decide; [|by exists t']. destruct (g x) as [t|]; [|done]. simplify_eq/=. by exists t.
  - intros x t Ht. assert (x <> id) by congruence. rewrite Hg, decide_False, Ht by done.
    case_decide; by eexists.
Qed.

Lemma ids_ok_grows g g' id s n :
  grows g g' id s -> created_seq s = n -> ids_ok g n -> ids_ok g' (n + 1).
Proof.
  intros [Hfresh Hid Hch Hpar Hnew Hb Hf] Hseq [H1 H2 H3]. unfold same_node in *. split.
  - intros x t' Ht. destruct (decide (x = id)) as [->|Hne]; [congruence|].
    destruct (Hb _ _ Ht Hne) as (t & Hgt & (-> & _) & _). by apply H1.
  - intros x t' Ht. destruct (decide (x = id)) as [->|Hne].
    { rewrite Hnew in Ht. simplify_eq. lia. }
    destruct (Hb _ _ Ht Hne) as (t & Hgt & (_ & _ & _ & _ & -> & _) & _). apply H2 in Hgt. lia.
  - intros x1 t1 x2 t2 Ht1 Ht2 Heq.
    destruct (decide (x1 = id)) as [->|Hn1], (decide (x2 = id)) as [->|Hn2]; [done| | |].
    + rewrite Hnew in Ht1. simplify_eq. destruct (Hb _ _ Ht2 Hn2) as (t & Hgt & (_ & _ & _ & _ & Hs & _) & _).
      apply H2 in Hgt. lia.
    + rewrite Hnew in Ht2. simplify_eq. destruct (Hb _ _ Ht1 Hn1) as (t & Hgt & (_ & _ & _ & _ & Hs & _) & _).
      apply H2 in Hgt. lia.
    + destruct (Hb _ _ Ht1 Hn1) as (u1 & Hu1 & (_ & _ & _ & _ & Hs1 & _) & _).
      destruct (Hb _ _ Ht2 Hn2) as (u2 & Hu2 & (_ & _ & _ & _ & Hs2 & _) & _).
      eapply H3; [done|done|congruence].
Qed.

Lemma links_ok_grows g g' id s n :
  grows g g' id s -> created_seq s = n -> ids_ok g n -> links_ok g -> links_ok g'.
Proof.
  intros [Hfresh Hid Hch Hpar Hnew Hb Hf] Hseq [_ H2 _] [H4 H5 H6]. unfold same_node in *. split.
  - intros x t' p Ht Hp. destruct (decide (x = id)) as [->|Hne].
    + rewrite Hnew in Ht. simplify_eq. destruct (Hpar p Hp) as [ps Hps].
      destruct (Hf _ _ Hps) as (ps' & Hps' & (_ & _ & _ & _ & Hs & _) & Hc). exists ps'.
      rewrite decide_True in Hc by done. split_and!; [done| |apply H2 in Hps; lia].
      rewrite Hc, elem_of_app, list_elem_of_singleton. by right.
    + destruct (Hb _ _ Ht Hne) as (t & Hgt & (_ & _ & _ & Hpt & Hst & _) & _). rewrite Hpt in Hp.
      destruct (H4 _ _ _ Hgt Hp) as (ps & Hps & Hin & Hlt).
      destruct (Hf _ _ Hps) as (ps' & Hps' & (_ & _ & _ & _ & Hs & _) & Hc). exists ps'.
      split_and!; [done| |lia]. rewrite Hc. case_decide; [|done]. apply elem_of_app. by left.
  - intros x t' c Ht Hc. destruct (decide (x = id)) as [->|Hne].
    { rewrite Hnew in Ht. simplify_eq. rewrite Hch in Hc. by apply elem_of_nil in Hc. }
    destruct (Hb _ _ Ht Hne) as (t & Hgt & _ & Hct). rewrite Hct in Hc.
    assert (c ∈ children t -> exists cs, g' c = Some cs /\ parent cs = Some x) as Hold.
    { intros Hin. destruct (H5 _ _ _ Hgt Hin) as (cs & Hcs & Hp).
      destruct (Hf _ _ Hcs) as (cs' & Hcs' & (_ & _ & _ & Hpc & _) & _). exists cs'. by rewrite Hpc. }
    case_decide as Hd; [|by apply Hold]. apply elem_of_app in Hc as [Hc|Hc]; [by apply Hold|].
    apply list_elem_of_singleton in Hc as ->. by exists s.
  - intros x t' Ht. destruct (decide (x = id)) as [->|Hne].
    { rewrite Hnew in Ht. simplify_eq. rewrite Hch. constructor. }
    destruct (Hb _ _ Ht Hne) as (t & Hgt & _ & ->). pose proof (H6 _ _ Hgt) as Hnd.
    case_decide; [|done]. apply NoDup_app. split_and!; [done| |apply NoDup_singleton].
    intros c Hc ->%list_elem_of_singleton. destruct (H5 _ _ _ Hgt Hc) as (cs & Hcs & _). congruence.
Qed.

Lemma roots_ok_grows g g' id s rts :
  grows g g' id s -> roots_ok g rts ->
  roots_ok g' (match parent s with Some _ => rts | None => rts ++ [id] end).
Proof.
  intros [Hfresh Hid Hch Hpar Hnew Hb Hf] [H7 H8]. unfold same_node in *. split.
  - assert (forall x, x ∈ rts <-> x <> id /\ exists s0, g' x = Some s0 /\ parent s0 = None) as Hrts.
    { intros x. rewrite H7. split.
      - intros (t & Ht & Hp). split; [congruence|].
        destruct (Hf _ _ Ht) as (t' & Ht' & (_ & _ & _ & Hpt & _) & _). exists t'. by rewrite Hpt.
      - intros (Hne & t' & Ht' & Hp). destruct (Hb _ _ Ht' Hne) as (t & Ht & (_ & _ & _ & Hpt & _) & _).
        exists t. by rewrite <- Hpt. }
    intros x. destruct (parent s) as [p|] eqn:Ep.
    + rewrite Hrts. split; [by intros [_ ?]|]. intros (t & Ht & Hp). split; [|by eauto].
      intros ->. rewrite Hnew in Ht. congruence.
    + rewrite elem_of_app, list_elem_of_singleton, Hrts. split.
      * intros [[_ ?]| -> ]; [done|]. by exists s.
      * intros Hx. destruct (decide (x = id)); [by right|by left].
  - destruct (parent s); [done|]. apply NoDup_app. split_and!; [done| |apply NoDup_singleton].
    intros x Hx ->%list_elem_of_singleton. apply H7 in Hx as (t & Ht & _). congruence.
Qed.

Lemma index_ok_grows g g' id s idx :
  grows g g' id s -> index_ok g idx ->
  let ik := (parent s, st_protocol s, key_hash (st_key s)) in
  index_ok g' (<[ik := default [] (idx !! ik) ++ [id]]> idx).
Proof.
  intros [Hfresh Hid Hch Hpar Hnew Hb Hf] [H9 H10] ik. unfold same_node in *. split.
  - assert (forall par proto h x, x ∈ default [] (idx !! (par, proto, h)) <->
      x <> id /\ exists t, g' x = Some t /\ parent t = par /\ st_protocol t = proto /\
      key_hash (st_key t) = h) as Hidx.
    { intros par proto h x. rewrite H9. split.
      - intros (t & Ht & Hp). split; [congruence|].
        destruct (Hf _ _ Ht) as (t' & Ht' & (_ & Hpr & Hk & Hpt & _) & _). exists t'.
        by rewrite Hpt, Hpr, Hk.
      - intros (Hne & t' & Ht' & Hp).
        destruct (Hb _ _ Ht' Hne) as (t & Ht & (_ & Hpr & Hk & Hpt & _) & _).
        exists t. by rewrite <- Hpt, <- Hpr, <- Hk. }
    intros par proto h x. rewrite lookup_insert. case_decide as Hd.
    + injection Hd as <- <- <-.
      change (default [] (Some (default [] (idx !! ik) ++ [id]))) with (default [] (idx !! ik) ++ [id]).
      unfold ik. rewrite elem_of_app, list_elem_of_singleton, Hidx. split.
      * intros [[_ ?]| -> ]; [done|]. by exists s.
      * intros Hx. destruct (decide (x = id)); [by right|by left].
    + rewrite Hidx. split; [by intros [_ ?]|]. intros (t & Ht & Hp). split; [|by eauto].
      intros ->. rewrite Hnew in Ht. simplify_eq. apply Hd. unfold ik. by destruct Hp as (-> & -> & ->).
  - intros k b. rewrite lookup_insert. case_decide as Hd; [|apply H10]. intros Hkb. injection Hkb as <-.
    split; [by destruct (default [] _)|]. apply NoDup_app. split_and!; [| |apply NoDup_singleton].
    + destruct (idx !! ik) eqn:E; simpl; [by apply H10 in E as [_ ?]|constructor].
    + intros x Hx ->%list_elem_of_singleton. apply H9 in Hx as (t & Ht & _). congruence.
Qed.

Lemma forest_ok_grows g g' rts idx n id s :
  forest_ok g rts idx n -> grows g g' id s -> created_seq s = n ->
  let ik := (parent s, st_protocol s, key_hash (st_key s)) in
  forest_ok g' (match parent s with Some _ => rts | None => rts ++ [id] end)
    (<[ik := default [] (idx !! ik) ++ [id]]> idx) (n + 1).
Proof.
  intros [Hi Hl Hr Hx] Hg Hseq ik. split.
  - by eapply ids_ok_grows.
  - by eapply links_ok_grows.
  - by eapply roots_ok_grows.
  - by eapply index_ok_grows.
Qed.

(** *** A leaf less *)

(** [g'] is [g] without the leaf [s] at [id], unlinked from its parent. *)
Record shrinks (g g' : StreamId -> option Stream) (id : StreamId) (s : Stream) : Prop := {
  sh_old : g id = Some s;
  sh_leaf : children s = [];
  sh_gone : g' id = None;
  sh_bwd : forall x t', g' x = Some t' -> exists t, x <> id /\ g x = Some t /\ same_node t t' /\
    children t' = if decide (parent s = Some x) then filter (fun c => c <> id) (children t) else children t;
  sh_fwd : forall x t, g x = Some t -> x <> id -> exists t', g' x = Some t' /\ same_node t t' /\
    children t' = if decide (parent s = Some x) then filter (fun c => c <> id) (children t) else children t;
}.

Lemma shrinks_intro g g' id s :
  g id = Some s -> children s = [] ->
  (forall x, g' x = if decide (x = id) then None
                    else if decide (parent s = Some x)
                         then set_children (filter (fun c => c <> id)) <$> g x
                    else g x) -> shrinks g g' id s.
Proof.
  intros Hold Hch Hg. split; try done.
  - by rewrite Hg, decide_True.
  - intros x t' Ht. rewrite Hg in Ht. destruct (decide (x = id)) as [|Hne]; [done|].
    case_decide; [|by exists t']. destruct (g x) as [t|]; [|done]. simplify_eq/=. by exists t.
  - intros x t Ht Hne. rewrite Hg, decide_False, Ht by done. case_decide; by eexists.
Qed.

Lemma ids_ok_shrinks g g' id s n : shrinks g g' id s -> ids_ok g n -> ids_ok g' n.
Proof.
  intros [Hold Hch Hgone Hb Hf] [H1 H2 H3]. unfold same_node in *. split.
  - intros x t' Ht. destruct (Hb _ _ Ht) as (t & _ & Hgt & (-> & _) & _). by apply H1.
  - intros x t' Ht. destruct (Hb _ _ Ht) as (t & _ & Hgt & (_ & _ & _ & _ & -> & _) & _). by eapply H2.
  - intros x1 t1 x2 t2 Ht1 Ht2 Heq.
    destruct (Hb _ _ Ht1) as (u1 & _ & Hu1 & (_ & _ & _ & _ & Hs1 & _) & _).
    destruct (Hb _ _ Ht2) as (u2 & _ & Hu2 & (_ & _ & _ & _ & Hs2 & _) & _).
    eapply H3; [done|done|congruence].
Qed.

Lemma links_ok_shrinks g g' id s : shrinks g g' id s -> links_ok g -> links_ok g'.
Proof.
  intros [Hold Hch Hgone Hb Hf] [H4 H5 H6]. unfold same_node in *. split.
  - intros x t' p Ht Hp. destruct (Hb _ _ Ht) as (t & Hne & Hgt & (_ & _ & _ & Hpt & Hst & _) & _).
    rewrite Hpt in Hp. destruct (H4 _ _ _ Hgt Hp) as (ps & Hps & Hin & Hlt).
    assert (p <> id) as Hpne.
    { intros ->. rewrite Hold in Hps. simplify_eq. rewrite Hch in Hin. by apply elem_of_nil in Hin. }
    destruct (Hf _ _ Hps Hpne) as (ps' & Hps' & (_ & _ & _ & _ & Hs & _) & Hc). exists ps'.
    split_and!; [done| |lia]. rewrite Hc. case_decide; [|done]. by apply list_elem_of_filter.
  - intros x t' c Ht Hc. destruct (Hb _ _ Ht) as (t & Hne & Hgt & _ & Hct). rewrite Hct in Hc.
    assert (c ∈ children t) as Hin.
    { case_decide; [|done]. by apply list_elem_of_filter in Hc as [_ ?]. }
    destruct (H5 _ _ _ Hgt Hin) as (cs & Hcs & Hp).
    assert (c <> id) as Hcne.
    { intros ->. rewrite Hold in Hcs. simplify_eq. rewrite decide_True in Hc by done.
      by apply list_elem_of_filter in Hc as [? _]. }
    destruct (Hf _ _ Hcs Hcne) as (cs' & Hcs' & (_ & _ & _ & Hpc & _) & _). exists cs'. by rewrite Hpc.
  - intros x t' Ht. destruct (Hb _ _ Ht) as (t & Hne & Hgt & _ & ->). pose proof (H6 _ _ Hgt).
    case_decide; [|done]. by apply NoDup_filter.
Qed.

Lemma roots_ok_shrinks g g' id s rts :
  shrinks g g' id s -> roots_ok g rts ->
  roots_ok g' (match parent s with Some _ => rts | None => filter (fun r => r <> id) rts end).
Proof.
  intros [Hold Hch Hgone Hb Hf] [H7 H8]. unfold same_node in *.
  assert (forall x, x ∈ filter (fun r => r <> id) rts <-> exists s0, g' x = Some s0 /\ parent s0 = None) as Hrts.
  { intros x. rewrite list_elem_of_filter, H7. split.
    - intros (Hne & t & Ht & Hp). destruct (Hf _ _ Ht Hne) as (t' & Ht' & (_ & _ & _ & Hpt & _) & _).
      exists t'. by rewrite Hpt.
    - intros (t' & Ht' & Hp). destruct (Hb _ _ Ht') as (t & Hne & Ht & (_ & _ & _ & Hpt & _) & _).
      split; [done|]. exists t. by rewrite <- Hpt. }
  destruct (parent s) as [p|] eqn:Ep; split; try done; [|by apply NoDup_filter].
  intros x. rewrite <- Hrts, list_elem_of_filter. split; [|by intros [_ ?]].
  intros Hx. split; [|done]. intros ->. apply H7 in Hx as (t & Ht & Hp). congruence.
Qed.

(** The index without one handle. *)
Definition drop_handle (ik : option StreamId * string * Z) (id : StreamId)
    (idx : gmap (option StreamId * string * Z) (list StreamId))
    : gmap (option StreamId * string * Z) (list StreamId) :=
  match idx !! ik with
  | None => idx
  | Some bucket =>
      match filter (fun c => c <> id) bucket with
      | [] => delete ik idx
      | bucket' => <[ik := bucket']> idx
      end
  end.

Lemma drop_handle_lookup ik id idx k :
  default [] (drop_handle ik id idx !! k) =
  if decide (ik = k) then filter (fun c => c <> id) (default [] (idx !! k)) else default [] (idx !! k).
Proof.
  unfold drop_handle. destruct (idx !! ik) as [b|] eqn:E.
  - destruct (filter (fun c => c <> id) b) as [|x l] eqn:Ef.
    + rewrite lookup_delete. case_decide as Hd; subst; [|done]. by rewrite E.
    + rewrite lookup_insert. case_decide as Hd; subst; [|done]. by rewrite E.
  - case_decide as Hd; subst; [|done]. by rewrite E.
Qed.

Lemma index_ok_shrinks g g' id s idx :
  shrinks g g' id s -> index_ok g idx ->
  index_ok g' (drop_handle (parent s, st_protocol s, key_hash (st_key s)) id idx).
Proof.
  intros [Hold Hch Hgone Hb Hf] [H9 H10]. unfold same_node in *. split.
  - assert (forall par proto h x, (x <> id /\ x ∈ default [] (idx !! (par, proto, h))) <->
      exists t, g' x = Some t /\ parent t = par /\ st_protocol t = proto /\
      key_hash (st_key t) = h) as Hidx.
    { intros par proto h x. rewrite H9. split.
      - intros (Hne & t & Ht & Hp). destruct (Hf _ _ Ht Hne) as (t' & Ht' & (_ & Hpr & Hk & Hpt & _) & _).
        exists t'. by rewrite Hpt, Hpr, Hk.
      - intros (t' & Ht' & Hp). destruct (Hb _ _ Ht') as (t & Hne & Ht & (_ & Hpr & Hk & Hpt & _) & _).
        split; [done|]. exists t. by rewrite <- Hpt, <- Hpr, <- Hk. }
    intros par proto h x. rewrite <- Hidx, drop_handle_lookup. case_decide as Hd.
    + by rewrite list_elem_of_filter.
    + split; [|by intros [_ ?]]. intros Hx. split; [|done]. intros ->. apply Hd.
      apply H9 in Hx as (t & Ht & <- & <- & <-). rewrite Hold in Ht. by simplify_eq.
  - intros k b. unfold drop_handle. destruct (idx !! _) as [b0|] eqn:E; [|apply H10].
    destruct (filter (fun c => c <> id) b0) as [|x l] eqn:Ef.
    + rewrite lookup_delete_Some. intros [_ Hk]. by apply (H10 k).
    + rewrite lookup_insert. case_decide; [|apply H10]. intros Hk. injection Hk as <-.
      split; [done|]. rewrite <- Ef. apply NoDup_filter. by apply H10 in E as [_ ?].
Qed.

Lemma forest_ok_shrinks g g' rts idx n id s :
  forest_ok g rts idx n -> shrinks g g' id s ->
  forest_ok g' (match parent s with Some _ => rts | None => filter (fun r => r <> id) rts end)
    (drop_handle (parent s, st_protocol s, key_hash (st_key s)) id idx) n.
Proof.
  intros [Hi Hl Hr Hx] Hg. split.
  - by eapply ids_ok_shrinks.
  - by eapply links_ok_shrinks.
  - by eapply roots_ok_shrinks.
  - by eapply index_ok_shrinks.
Qed.
End Forest.

(** ** Creating a stream *)

Section Create.
Context `{Hasher}.

(** In-place updates never renumber a stream. *)
Definition keeps_seq (f : Stream -> Stream) : Prop := forall s, created_seq (f s) = created_seq s.

(** A measure of streams that child links do not enter. *)
Definition ignores_children (f : Stream -> Z) : Prop := forall h s, f (set_children h s) = f s.

Record created (a a' : Aggregator) (id : StreamId) (s : Stream) : Prop := {
  cr_grows : grows (ag_get a) (ag_get a') id s;
  cr_others : forall x t', x <> id -> ag_get a' x = Some t' ->
    exists t h, ag_get a x = Some t /\ t' = set_children h t;
  cr_seq : created_seq s = next_seq a /\ next_seq a' = next_seq a + 1;
  cr_arena : arena_ok (arena a') /\ blen (slots (arena a')) <= blen (slots (arena a)) + 1;
  cr_steps : steps keeps_seq 0 (arena a) (arena a');
  cr_total : forall f, ignores_children f -> total f a' = f s + total f a;
  cr_roots : roots a' = match parent s with Some _ => roots a | None => roots a ++ [id] end;
  cr_index : index a' =
    let ik := (parent s, st_protocol s, key_hash (st_key s)) in
    <[ik := default [] (index a !! ik) ++ [id]]> (index a);
  cr_totals : totals a' = add_totals 0 0 1 0 0 (totals a);
  cr_counts : live_count a' = live_count a + 1 /\
    live_per_protocol a' = bump (st_protocol s) 1 (live_per_protocol a) /\
    created_per_protocol a' = bump (st_protocol s) 1 (created_per_protocol a) /\
    live_bytes_per_protocol a' = live_bytes_per_protocol a;
  cr_frame : ag_engine a' = ag_engine a /\ config a' = config a /\ clock a' = clock a /\
    stop_classes a' = stop_classes a /\ unknowns a' = unknowns a /\
    ag_condense a' = ag_condense a /\ emitted a' = emitted a;
  cr_expiry : expiry a' = match eviction (config a) with
    | EvictLive idle _ _ =>
        insert_by expiry_leb (first_seen s + idle, sid_index id, generation id) (expiry a)
    | EvictNone => expiry a end;
  cr_lru : lru a' = match eviction (config a) with
    | EvictLive _ _ _ =>
        insert_by lru_leb (first_seen s, created_seq s, sid_index id, generation id) (lru a)
    | EvictNone => lru a end;
}.

Lemma create_stream_raw_created par k kf st rolls cond dir proto ts a :
  arena_ok (arena a) -> blen (slots (arena a)) <= u32_max ->
  (forall p, par = Some p -> is_Some (ag_get a p)) ->
  let '(a', id) := create_stream_raw par k kf st rolls cond dir proto ts a in
  let s := mkStream id proto k kf par [] dir ts ts (DirStats_default, DirStats_default) 0
             st rolls None false None (next_seq a) cond in
  created a a' id s.
Proof.
  intros Hok Hlen Hpar. unfold create_stream_raw.
  set (id := next_id (arena a)). set (s := mkStream id _ _ _ _ _ _ _ _ _ _ _ _ _ _ _ _ _).
  pose proof (next_id_fresh _ Hok Hlen) as Hfresh.
  pose proof (fun x => get_place (arena a) s x Hok Hlen) as Hget. fold id in Hfresh, Hget.
  pose proof (live_place (arena a) s Hok Hlen) as Hlive. fold id in Hlive.
  pose proof (place_ok (arena a) s Hok Hlen) as Hok'. fold id in Hok'.
  pose proof (blen_slots_place (arena a) id s) as Hblen.
  unfold ag_get in Hpar |- *. cbn [set_index set_arena set_live_count set_live_per_protocol
    set_created_per_protocol set_totals set_next_seq arena index].
  destruct par as [p|].
  - destruct (Hpar p eq_refl) as [ps Hps].
    assert (p <> id) as Hne by congruence.
    rewrite Hget, decide_False, Hps by done.
    assert (get (place (arena a) id s) p = Some ps) as Hpp by (by rewrite Hget, decide_False).
    set (b := modify p _ _).
    assert (arena b = get_mut (place (arena a) id s) p (set_children (fun cs => cs ++ [id]))) as Hb by done.
    assert (forall x, get (arena b) x = if decide (x = id) then Some s
      else if decide (Some p = Some x) then set_children (fun cs => cs ++ [id]) <$> get (arena a) x
      else get (arena a) x) as Hgb.
    { intros x. rewrite Hb, get_get_mut, Hpp, !Hget. repeat case_decide; simplify_eq; try done.
      by rewrite Hps. }
    assert (forall x t', x <> id -> get (arena b) x = Some t' ->
      exists t h, get (arena a) x = Some t /\ t' = set_children h t) as Hoth.
    { intros x t' Hx. rewrite Hgb, decide_False by done. intros Ht. case_decide.
      - destruct (get (arena a) x) as [t|]; [|done]. injection Ht as <-. by eexists t, _.
      - exists t', (fun c => c). by destruct t'. }
    assert (forall f, ignores_children f -> sum_of f (live (arena b)) = f s + total f a) as Htot.
    { intros f Hf. rewrite Hb. destruct (live_get_mut _ p (set_children (fun cs => cs ++ [id])) _ Hpp)
        as (rest & H1 & H2). rewrite H2. unfold total, streams.
      assert (sum_of f (s :: live (arena a)) = sum_of f (ps :: rest)) as Hs by by rewrite <- Hlive, H1.
      simpl in *. rewrite Hf. lia. }
    assert (steps keeps_seq 0 (arena a) (arena b)) as Hst.
    { rewrite Hb. apply steps_get_mut; [|done]. by apply steps_place; [apply steps_refl|]. }
    destruct (eviction (config a)) eqn:Ev;
      change (eviction (config b)) with (eviction (config a)); rewrite Ev; split; try done;
      rewrite ?Ev; try done.
    all: try (apply grows_intro; try done; intros q; intros [= <-]; by rewrite Hps).
    all: split; [|change (blen (slots (arena b)) <= blen (slots (arena a)) + 1);
      rewrite Hb, blen_slots_get_mut; lia].
    all: change (arena_ok (arena b)); rewrite Hb; by apply get_mut_ok.
  - set (b := set_roots _ _).
    assert (arena b = place (arena a) id s) as Hb by done.
    assert (forall f, ignores_children f -> sum_of f (live (arena b)) = f s + total f a) as Htot.
    { intros f Hf. by rewrite Hb, Hlive. }
    assert (forall x, get (arena b) x = if decide (x = id) then Some s else get (arena a) x) as Hgb.
    { intros x. rewrite Hb. apply Hget. }
    assert (forall x t', x <> id -> get (arena b) x = Some t' ->
      exists t h, get (arena a) x = Some t /\ t' = set_children h t) as Hoth.
    { intros x t' Hx. rewrite Hgb, decide_False by done. intros Ht.
      exists t', (fun c => c). by destruct t'. }
    assert (arena_ok (arena b) /\ blen (slots (arena b)) <= blen (slots (arena a)) + 1) as Hab.
    { rewrite Hb. split; [done|lia]. }
    assert (grows (fun x => get (arena a) x) (fun x => get (arena b) x) id s) as Hgr.
    { apply grows_intro; try done. }
    assert (steps keeps_seq 0 (arena a) (arena b)) as Hst.
    { rewrite Hb. by apply steps_place; [apply steps_refl|]. }
    destruct (eviction (config a)) eqn:Ev;
      change (eviction (config b)) with (eviction (config a)); rewrite Ev; split; try done;
      rewrite ?Ev; done.
Qed.
End Create.
