(* ===== verification/StoreOps.v ===== *)
(** * The stream aggregator: what the operations do

    [evict] on a live leaf and the in-place updates of one stream, summarised
    field by field ([evicted], [updated]); with [created] of [StoreInv] these
    three summaries are all that the invariants of the store are proved from. *)

From S2P Require Import Prelude Values Bytes Types Contract Engine.
From S2P Require Import FlowKeys Rollups Unknowns Arena Store StoreInv.

Section Evict.
Context `{Hasher}.

(** The condensation groups after a stream is evicted. *)
Definition evict_groups (e : Engine) (c : AggregatorConfig) (s : Stream)
    (m : gmap (option StreamId * string * list Z) CondenseGroup)
    : gmap (option StreamId * string * list Z) CondenseGroup :=
  if condense_threshold c =? 0 then m
  else match condensed s with
  | Some _ => delete (parent s, st_protocol s, tail (st_key s)) m
  | None =>
      match (p ← plugin_by_name e (st_protocol s); spec ← condense p; id ← stream_identity p;
             condense_candidates id spec (key_fields s)) with
      | Some cs => untally (parent s) (st_protocol s) cs m
      | None => m
      end
  end.

Lemma condense_evict_eq s a :
  condense_evict s a = set_condense (evict_groups (ag_engine a) (config a) s (ag_condense a)) a.
Proof.
  unfold condense_evict, evict_groups.
  destruct (condense_threshold (config a) =? 0); [by destruct a|].
  destruct (condensed s); [done|]. by destruct (_ ≫= _); destruct a.
Qed.

Lemma unindex_eq ik id a : unindex ik id a = set_index (drop_handle ik id (index a)) a.
Proof.
  unfold unindex, drop_handle. destruct (index a !! ik) as [b|]; [|by destruct a].
  by destruct (filter _ b).
Qed.

Record evicted (a a' : Aggregator) (id : StreamId) (s : Stream) (r : CloseReason) : Prop := {
  ev_shrinks : shrinks (ag_get a) (ag_get a') id s;
  ev_others : forall x t', ag_get a' x = Some t' ->
    exists t h, ag_get a x = Some t /\ t' = set_children h t;
  ev_arena : arena_ok (arena a') /\ blen (slots (arena a')) = blen (slots (arena a));
  ev_steps : steps keeps_seq 1 (arena a) (arena a');
  ev_total : forall f, ignores_children f -> total f a = f s + total f a';
  ev_index : index a' = drop_handle (parent s, st_protocol s, key_hash (st_key s)) id (index a);
  ev_roots : roots a' = match parent s with
                        | Some _ => roots a | None => filter (fun r => r <> id) (roots a) end;
  ev_counts : live_count a' = live_count a - 1 /\
    live_per_protocol a' = alter (fun n => sat_sub n 1) (st_protocol s) (live_per_protocol a) /\
    live_bytes_per_protocol a' =
      alter (fun n => sat_sub n (stream_bytes s)) (st_protocol s) (live_bytes_per_protocol a);
  ev_condense : ag_condense a' = evict_groups (ag_engine a) (config a) s (ag_condense a);
  ev_emitted : emitted a' = emitted a ++ [mkEvicted (set_closed r s) r];
  ev_frame : ag_engine a' = ag_engine a /\ config a' = config a /\ clock a' = clock a /\
    totals a' = totals a /\ next_seq a' = next_seq a /\ stop_classes a' = stop_classes a /\
    created_per_protocol a' = created_per_protocol a /\ unknowns a' = unknowns a;
  ev_heaps : match parent s with
    | None => expiry a' = expiry a /\ lru a' = lru a
    | Some p => exists ps, ag_get a p = Some ps /\
        expiry a' = match deadline_of a p with
                    | Some d => insert_by expiry_leb (d, sid_index p, generation p) (expiry a)
                    | None => expiry a end /\
        lru a' = insert_by lru_leb (last_seen ps, created_seq ps, sid_index p, generation p) (lru a)
    end;
}.

Lemma evict_dead id r a : ag_get a id = None -> evict id r a = a.
Proof.
  unfold ag_get, evict. rewrite <- remove_get. by destruct (remove _ _) as [[??]|].
Qed.

Lemma total_drop_child f p id a :
  ignores_children f -> total f (modify p (set_children (filter (fun c => c <> id))) a) = total f a.
Proof. intros Hf. apply total_modify_inert. intros s. apply Hf. Qed.

Lemma deadline_of_child p id a :
  deadline_of (modify p (set_children (filter (fun c => c <> id))) a) p = deadline_of a p.
Proof.
  unfold deadline_of. change (config (modify _ _ a)) with (config a).
  destruct (eviction (config a)); [done|]. rewrite ag_get_modify, decide_True by done.
  by destruct (ag_get a p).
Qed.

(** [evict] without the parent's bookkeeping. *)
Definition detach (id : StreamId) (s : Stream) (ar : Arena Stream) (a : Aggregator) : Aggregator :=
  let a := set_arena ar a in
  let a := set_live_count (live_count a - 1) a in
  let a := set_live_per_protocol (alter (fun n => sat_sub n 1) (st_protocol s) (live_per_protocol a)) a in
  let a := set_live_bytes_per_protocol
    (alter (fun n => sat_sub n (stream_bytes s)) (st_protocol s) (live_bytes_per_protocol a)) a in
  let a := set_condense (evict_groups (ag_engine a) (config a) s (ag_condense a)) a in
  set_index (drop_handle (parent s, st_protocol s, key_hash (st_key s)) id (index a)) a.

Lemma evict_live id r s a : ag_get a id = Some s ->
  exists ar, remove (arena a) id = Some (s, ar) /\
  evict id r a = (let b := unlink id (parent s) (detach id s ar a) in
                 set_emitted (emitted b ++ [mkEvicted (set_closed r s) r]) b).
Proof.
  unfold ag_get, evict. rewrite <- remove_get. destruct (remove _ _) as [[s' ar]|]; [|done].
  intros [= ->]. exists ar. split; [done|]. cbv zeta. by rewrite condense_evict_eq, unindex_eq.
Qed.

Lemma evict_evicted id r s a :
  arena_ok (arena a) -> ag_get a id = Some s -> children s = [] ->
  (forall p, parent s = Some p -> p <> id /\ is_Some (ag_get a p)) ->
  evicted a (evict id r a) id s r.
Proof.
  intros Hok Hs Hleaf Hpar. destruct (evict_live id r s a Hs) as (ar & Hr & ->). cbv zeta.
  pose proof (fun x => get_remove _ _ _ _ x Hr) as Hget. pose proof (remove_ok _ _ _ _ Hok Hr) as Hok'.
  pose proof (live_remove _ _ _ _ Hr) as Hlive. pose proof (blen_slots_remove _ _ _ _ Hr) as Hblen.
  assert (steps keeps_seq 1 (arena a) ar) as Hst by (econstructor; [constructor|done]).
  assert (forall f, total f a = f s + sum_of f (live ar)) as Htot.
  { intros f. unfold total, streams. by rewrite Hlive. }
  set (b := detach id s ar a). assert (arena b = ar) as Hb by done.
  destruct (parent s) as [p|] eqn:Ep; unfold unlink.
  - destruct (Hpar p eq_refl) as [Hne [ps Hps]].
    assert (ag_get b p = Some ps) as Hbp.
    { unfold ag_get. rewrite Hb, Hget, decide_False; [exact Hps|done]. }
    unfold call_deadline_of. cbv beta iota zeta.
    rewrite deadline_of_child. assert (deadline_of b p = deadline_of a p) as ->.
    { unfold deadline_of. by rewrite Hbp, Hps. }
    set (b1 := modify p _ b).
    assert (forall x, ag_get b1 x = if decide (x = id) then None else if decide (Some p = Some x)
      then (set_children (filter (fun c => c <> id)) <$> ag_get a x) else ag_get a x) as Hg1.
    { intros x. unfold b1. rewrite ag_get_modify, Hbp. unfold ag_get at 1. rewrite Hb, Hget.
      repeat case_decide; simplify_eq; try done. by rewrite Hps. }
    assert (ag_get b1 p = Some (set_children (filter (fun c => c <> id)) ps)) as Hp1.
    { by rewrite Hg1, decide_False, decide_True, Hps by done. }
    set (b2 := match deadline_of a p with Some d => _ | None => _ end).
    assert (arena b2 = arena b1) as Ha2 by (unfold b2; by destruct (deadline_of a p)).
    assert (ag_get b2 p = ag_get b1 p) as -> by (unfold ag_get; by rewrite Ha2). rewrite Hp1.
    split; rewrite ?Ep.
    + apply shrinks_intro; try done. intros x. rewrite Ep, <- Hg1. unfold ag_get. simpl. by rewrite Ha2.
    + intros x t'. change (ag_get b2 x = Some t' -> exists t h, ag_get a x = Some t /\ t' = set_children h t).
      assert (ag_get b2 x = ag_get b1 x) as -> by (unfold ag_get; by rewrite Ha2). rewrite Hg1.
      case_decide; [done|]. case_decide; intros Ht.
      * destruct (ag_get a x) as [t|]; [|done]. injection Ht as <-. by eexists t, _.
      * exists t', (fun c => c). by destruct t'.
    + simpl. rewrite Ha2. split; [by apply get_mut_ok|]. unfold b1. simpl.
      rewrite blen_slots_get_mut. exact Hblen.
    + simpl. rewrite Ha2. by constructor.
    + intros f Hf. rewrite Htot. f_equal. change (sum_of f (live ar)) with (total f b).
      rewrite <- (total_drop_child f p id b Hf). unfold total, streams. simpl. by rewrite Ha2.
    + unfold b2. destruct (deadline_of a p); simpl; by rewrite Ep.
    + unfold b2. by destruct (deadline_of a p).
    + unfold b2. by destruct (deadline_of a p).
    + unfold b2. by destruct (deadline_of a p).
    + unfold b2. by destruct (deadline_of a p).
    + unfold b2. by destruct (deadline_of a p).
    + exists ps. split; [done|]. unfold b2. by destruct (deadline_of a p).
  - split; rewrite ?Ep; try done.
    + apply shrinks_intro; try done. intros x. rewrite Ep. unfold ag_get. simpl. rewrite Hget.
      by repeat case_decide.
    + intros x t'. unfold ag_get. simpl. rewrite Hget. case_decide; [done|]. intros Ht.
      exists t', (fun c => c). by destruct t'.
    + simpl. by rewrite Ep.
Qed.
End Evict.
