(* ===== verification/StoreCounts.v ===== *)
(** * The stream aggregator: counters

    [summary] reads counters that are maintained incrementally; [counters_ok]
    says that each of them is the total it stands for over the live streams
    and, for the ones that survive eviction, over the records handed to the
    sink as well.  A stream stands for one flow, a condensed node for its
    members. *)

From S2P Require Import Prelude Values Bytes Types Contract Engine.
From S2P Require Import FlowKeys Rollups Unknowns Arena Store StoreInv.
From S2P Require Import StoreOps.

(** Flows a node stands for (D16). *)
Definition members_of (s : Stream) : Z :=
  match condensed s with Some i => member_flows i | None => 0 end.
Definition flows_of (s : Stream) : Z :=
  match condensed s with Some i => member_flows i | None => 1 end.

(** One per stream, and one per stream whose byte count is negative. *)
Definition one (s : Stream) : Z := 1.
Definition neg_bytes (s : Stream) : Z := if stream_bytes s <? 0 then 1 else 0.

(** A measure restricted to one protocol. *)
Definition of_proto (p : string) (f : Stream -> Z) (s : Stream) : Z :=
  if String.eqb p (st_protocol s) then f s else 0.

(** A measure over live and emitted streams. *)
Definition ever (f : Stream -> Z) (a : Aggregator) : Z :=
  total f a + sum_of f (ev_stream <$> emitted a).

Record counters_ok (a : Aggregator) : Prop := {
  co_pos : total neg_bytes a = 0;
  co_live : live_count a = total one a;
  co_proto : forall p, default 0 (live_per_protocol a !! p) = total (of_proto p one) a;
  co_bytes : forall p, default 0 (live_bytes_per_protocol a !! p) = total (of_proto p stream_bytes) a;
  co_created : streams_created (totals a) = ever flows_of a;
  co_condensed : flows_condensed (totals a) = ever members_of a;
  co_ever : forall p, default 0 (created_per_protocol a !! p) = ever (of_proto p flows_of) a;
}.

Lemma lookup_bump k n m q :
  default 0 (bump k n m !! q) = default 0 (m !! q) + (if String.eqb q k then n else 0).
Proof.
  unfold bump. rewrite lookup_insert. destruct (String.eqb_spec q k) as [->|Hne].
  - by rewrite decide_True.
  - rewrite decide_False by congruence. lia.
Qed.

Lemma lookup_alter_default (f : Z -> Z) k (m : gmap string Z) q : f 0 = 0 ->
  default 0 (alter f k m !! q) = if String.eqb q k then f (default 0 (m !! q)) else default 0 (m !! q).
Proof.
  intros Hf. rewrite lookup_alter. destruct (String.eqb_spec q k) as [->|Hne].
  - rewrite decide_True by done. destruct (m !! k); simpl; [done|lia].
  - by rewrite decide_False by congruence.
Qed.

Lemma total_ext f g a : (forall s, f s = g s) -> total f a = total g a.
Proof.
  intros Hf. unfold total. induction (streams a) as [|s l IH]; simpl; [done|]. by rewrite Hf, IH.
Qed.

(** Reading totals off [counters_ok] when one part of the state changes. *)
Lemma counters_ok_frame a a' :
  streams a' = streams a -> emitted a' = emitted a ->
  live_count a' = live_count a -> live_per_protocol a' = live_per_protocol a ->
  live_bytes_per_protocol a' = live_bytes_per_protocol a ->
  streams_created (totals a') = streams_created (totals a) ->
  flows_condensed (totals a') = flows_condensed (totals a) ->
  created_per_protocol a' = created_per_protocol a ->
  counters_ok a -> counters_ok a'.
Proof.
  intros Hs He H1 H2 H3 H4 H5 H6 [K0 K1 K2 K3 K4 K5 K6].
  assert (forall f, total f a' = total f a) as Ht by (intros; unfold total; by rewrite Hs).
  assert (forall f, ever f a' = ever f a) as Hv by (intros; unfold ever; by rewrite Ht, He).
  split; intros; rewrite ?Ht, ?Hv, ?H1, ?H2, ?H3, ?H4, ?H5, ?H6; auto.
Qed.

Lemma of_proto_eq p f s : of_proto p f s = if String.eqb p (st_protocol s) then f s else 0.
Proof. done. Qed.

Lemma ignores_of_proto p f : ignores_children f -> ignores_children (of_proto p f).
Proof. intros Hf h s. unfold of_proto. simpl. by rewrite Hf. Qed.

Lemma total_elem f a id s :
  (forall x t, ag_get a x = Some t -> 0 <= f t) -> ag_get a id = Some s -> f s <= total f a.
Proof.
  intros Hf Hs. apply sum_of_elem; [|by apply elem_of_streams; exists id].
  intros t [x Ht]%elem_of_streams. by eapply Hf.
Qed.

Lemma emitted_snoc f a e :
  sum_of f (ev_stream <$> (emitted a ++ [e])) = sum_of f (ev_stream <$> emitted a) + f (ev_stream e).
Proof. rewrite fmap_app, sum_of_app. simpl. lia. Qed.

Lemma ignores_flows : ignores_children flows_of /\ ignores_children members_of /\
  ignores_children stream_bytes /\ ignores_children one.
Proof. done. Qed.

Section Counts.
Context `{Hasher}.

Lemma bytes_pos a id s : counters_ok a -> ag_get a id = Some s -> 0 <= stream_bytes s.
Proof.
  intros Hc Hs. pose proof (co_pos _ Hc) as H0.
  assert (neg_bytes s <= 0) as Hle; [|unfold neg_bytes in Hle; by destruct (Z.ltb_spec (stream_bytes s) 0)].
  etrans; [|by apply Z.eq_le_incl, H0].
  apply (total_elem neg_bytes _ id); [|done].
  intros x t _. unfold neg_bytes. by destruct (_ <? _).
Qed.

Lemma of_proto_bytes_pos a p : counters_ok a ->
  forall x t, ag_get a x = Some t -> 0 <= of_proto p stream_bytes t.
Proof. intros Hc x t Ht. unfold of_proto. destruct (String.eqb _ _); [by eapply bytes_pos|lia]. Qed.

(** Saturation never bites: the subtracted amount is part of the total. *)
Lemma sat_sub_evicted a a' id s r p f :
  evicted a a' id s r -> ignores_children f -> (forall x t, ag_get a x = Some t -> 0 <= f t) ->
  (if String.eqb p (st_protocol s) then sat_sub (total (of_proto p f) a) (f s)
   else total (of_proto p f) a) = total (of_proto p f) a'.
Proof.
  intros He Hf Hpos. pose proof (sh_old _ _ _ _ (ev_shrinks _ _ _ _ _ He)) as Hs.
  assert (forall x t, ag_get a x = Some t -> 0 <= of_proto p f t) as Hpos'.
  { intros x t Hx. unfold of_proto. destruct (String.eqb _ _); [by eapply Hpos|lia]. }
  pose proof (total_elem (of_proto p f) a id s Hpos' Hs) as Hle.
  rewrite (ev_total _ _ _ _ _ He _ (ignores_of_proto p f Hf)) in *.
  rewrite (of_proto_eq p f s) in *. unfold sat_sub.
  destruct (String.eqb p (st_protocol s)); lia.
Qed.
Lemma counters_ok_evicted a a' id s r : evicted a a' id s r -> counters_ok a -> counters_ok a'.
Proof.
  intros He Hc. pose proof Hc as [K0 K1 K2 K3 K4 K5 K6].
  pose proof (sh_old _ _ _ _ (ev_shrinks _ _ _ _ _ He)) as Hs.
  pose proof (ev_total _ _ _ _ _ He) as Ht. destruct (ev_counts _ _ _ _ _ He) as (E1 & E2 & E3).
  destruct (ev_frame _ _ _ _ _ He) as (_ & _ & _ & Etot & _ & _ & Ecr & _).
  assert (forall f, ignores_children f -> (forall t, f (set_closed r t) = f t) -> ever f a' = ever f a) as Hev.
  { intros f Hf Hr. unfold ever. rewrite (Ht f Hf), (ev_emitted _ _ _ _ _ He), emitted_snoc. simpl.
    rewrite Hr. lia. }
  pose proof (bytes_pos _ _ _ Hc Hs) as Hpos. split.
  - rewrite (Ht neg_bytes) in K0 by done. unfold neg_bytes at 1 in K0. destruct (Z.ltb_spec (stream_bytes s) 0); lia.
  - rewrite E1, K1, (Ht one) by done. unfold one at 1. lia.
  - intros p. rewrite E2, lookup_alter_default, K2 by done.
    by apply (sat_sub_evicted _ _ _ _ _ p one He).
  - intros p. rewrite E3, lookup_alter_default, K3 by (unfold sat_sub; lia).
    apply (sat_sub_evicted _ _ _ _ _ p stream_bytes He); [done|]. intros x t. by apply bytes_pos.
  - by rewrite Etot, Hev.
  - by rewrite Etot, Hev.
  - intros p. rewrite Ecr, Hev; [done| |done]. by apply ignores_of_proto.
Qed.

(** A new stream enters every counter; [b] is the state after the totals are
    adjusted for what it stands for. *)
Lemma counters_ok_created a a' b id s :
  created a a' id s -> stream_bytes s = 0 -> members_of s = 0 ->
  streams b = streams a' -> emitted b = emitted a' -> live_count b = live_count a' ->
  live_per_protocol b = live_per_protocol a' -> live_bytes_per_protocol b = live_bytes_per_protocol a' ->
  streams_created (totals b) = streams_created (totals a) + flows_of s ->
  flows_condensed (totals b) = flows_condensed (totals a) ->
  (forall p, default 0 (created_per_protocol b !! p) =
             default 0 (created_per_protocol a !! p) + of_proto p flows_of s) ->
  counters_ok a -> counters_ok b.
Proof.
  intros Hcr Hb Hm Es Ee El Ep Ebp Ecr Eco Eev [K0 K1 K2 K3 K4 K5 K6].
  pose proof (cr_total _ _ _ _ Hcr) as Ht.
  destruct (cr_counts _ _ _ _ Hcr) as (E1 & E2 & E3 & E4).
  destruct (cr_frame _ _ _ _ Hcr) as (_ & _ & _ & _ & _ & _ & Eem).
  assert (forall f, ignores_children f -> total f b = f s + total f a) as Htb.
  { intros f Hf. rewrite <- (Ht f Hf). unfold total. by rewrite Es. }
  assert (forall f, ignores_children f -> ever f b = f s + ever f a) as Hev.
  { intros f Hf. unfold ever. rewrite (Htb f Hf), Ee, Eem. lia. }
  split.
  - rewrite (Htb neg_bytes), K0 by done. unfold neg_bytes. by rewrite Hb.
  - rewrite El, E1, (Htb one) by done. unfold one at 1. lia.
  - intros p. rewrite Ep, E2, lookup_bump, K2, (Htb (of_proto p one)) by done.
    rewrite of_proto_eq. unfold one at 2. lia.
  - intros p. rewrite Ebp, E4, K3, (Htb (of_proto p stream_bytes)) by done.
    rewrite of_proto_eq, Hb. by destruct (String.eqb _ _).
  - rewrite Ecr, Hev by done. lia.
  - rewrite Eco, Hev by done. lia.
  - intros p. rewrite Eev, K6, Hev by (by apply ignores_of_proto). lia.
Qed.

Lemma counters_ok_created_flow a a' id s :
  created a a' id s -> stream_bytes s = 0 -> condensed s = None -> counters_ok a -> counters_ok a'.
Proof.
  intros Hcr Hb Hn. destruct (cr_counts _ _ _ _ Hcr) as (_ & _ & E3 & _).
  assert (flows_of s = 1 /\ members_of s = 0) as [Hf1 Hm0] by (unfold flows_of, members_of; by rewrite Hn).
  eapply (counters_ok_created a a' a'); try done.
  - rewrite (cr_totals _ _ _ _ Hcr), Hf1. done.
  - rewrite (cr_totals _ _ _ _ Hcr). simpl. lia.
  - intros p. rewrite E3, lookup_bump, of_proto_eq, Hf1. done.
Qed.

Lemma counters_ok_created_node a a' id s i m :
  created a a' id s -> stream_bytes s = 0 -> condensed s = Some i -> member_flows i = 0 ->
  counters_ok a ->
  counters_ok (set_condense m (set_created_per_protocol
    (alter (fun n => n - 1) (st_protocol s) (created_per_protocol a'))
    (set_totals (add_totals 0 0 (-1) 0 0 (totals a')) a'))).
Proof.
  intros Hcr Hb Hn Hi. destruct (cr_counts _ _ _ _ Hcr) as (_ & _ & E3 & _).
  assert (flows_of s = 0 /\ members_of s = 0) as [Hf0 Hm0] by (unfold flows_of, members_of; by rewrite Hn).
  eapply (counters_ok_created a a'); try done.
  - simpl. rewrite (cr_totals _ _ _ _ Hcr), Hf0. simpl. lia.
  - simpl. rewrite (cr_totals _ _ _ _ Hcr). simpl. lia.
  - intros p. simpl. rewrite of_proto_eq, Hf0, E3. unfold bump.
    rewrite lookup_alter. destruct (String.eqb_spec p (st_protocol s)) as [->|Hne].
    + rewrite decide_True, lookup_insert, decide_True by done. simpl. lia.
    + rewrite decide_False, lookup_insert, decide_False by congruence. lia.
Qed.

(** Updating one live stream moves each total by what its measure moves. *)
Lemma total_modify_by f a id g s d :
  ag_get a id = Some s -> f (g s) = f s + d -> total f (modify id g a) = total f a + d.
Proof. intros Hs Hd. rewrite (total_modify _ _ _ _ _ Hs). lia. Qed.

(** A packet's bytes go to its stream and to its protocol's counter. *)
Lemma counters_ok_bytes a id s g n :
  ag_get a id = Some s -> 0 <= n -> st_protocol (g s) = st_protocol s -> condensed (g s) = condensed s ->
  stream_bytes (g s) = stream_bytes s + n -> counters_ok a ->
  counters_ok (modify id g (set_live_bytes_per_protocol (bump (st_protocol s) n (live_bytes_per_protocol a)) a)).
Proof.
  intros Hs Hn Hpr Hco Hby Hc. pose proof (bytes_pos _ _ _ Hc Hs) as Hpos.
  destruct Hc as [K0 K1 K2 K3 K4 K5 K6]. set (b := set_live_bytes_per_protocol _ a).
  assert (ag_get b id = Some s) as Hb by done.
  assert (flows_of (g s) = flows_of s /\ members_of (g s) = members_of s) as [Hfl Hme].
  { unfold flows_of, members_of. by rewrite Hco. }
  assert (forall f, f (g s) = f s -> total f (modify id g b) = total f a) as Hsame.
  { intros f Hf. rewrite (total_modify_by f b id g s 0 Hb); [unfold total, streams; simpl; lia|lia]. }
  assert (forall f, f (g s) = f s -> ever f (modify id g b) = ever f a) as Hev.
  { intros f Hf. unfold ever. rewrite (Hsame f Hf). done. }
  split; simpl.
  - rewrite Hsame; [done|]. unfold neg_bytes. rewrite Hby.
    destruct (Z.ltb_spec (stream_bytes s + n) 0), (Z.ltb_spec (stream_bytes s) 0); lia.
  - by rewrite Hsame.
  - intros p. rewrite Hsame; [done|]. by rewrite !of_proto_eq, Hpr.
  - intros p. rewrite lookup_bump, K3.
    rewrite (total_modify_by (of_proto p stream_bytes) b id g s
               (if String.eqb p (st_protocol s) then n else 0) Hb); [done|].
    rewrite !of_proto_eq, Hpr, Hby. by destruct (String.eqb _ _).
  - by rewrite Hev.
  - by rewrite Hev.
  - intros p. rewrite Hev; [done|]. by rewrite !of_proto_eq, Hpr, Hfl.
Qed.

(** A new member enters the node and the flow counters. *)
Lemma counters_ok_member a id s i g :
  ag_get a id = Some s -> condensed s = Some i ->
  let n i := mkCondensed (member_flows i + 1) (ephemeral_field i) (g i) in
  counters_ok a ->
  counters_ok (modify id (set_condensed n) (set_created_per_protocol
    (bump (st_protocol s) 1 (created_per_protocol a)) (set_totals (add_totals 0 0 1 1 0 (totals a)) a))).
Proof.
  intros Hs Hi n [K0 K1 K2 K3 K4 K5 K6]. set (b := set_created_per_protocol _ _).
  assert (ag_get b id = Some s) as Hb by done.
  assert (flows_of (set_condensed n s) = flows_of s + 1 /\ members_of (set_condensed n s) = members_of s + 1)
    as [Hfl Hme].
  { unfold flows_of, members_of. simpl. rewrite Hi. done. }
  assert (forall f, f (set_condensed n s) = f s -> total f (modify id (set_condensed n) b) = total f a) as Hsame.
  { intros f Hf. rewrite (total_modify_by f b id _ s 0 Hb); [unfold total, streams; simpl; lia|lia]. }
  assert (forall f d, f (set_condensed n s) = f s + d -> ever f (modify id (set_condensed n) b) = ever f a + d) as Hev.
  { intros f d Hf. unfold ever. rewrite (total_modify_by f b id _ s d Hb Hf). unfold total, streams. simpl. lia. }
  split; simpl.
  - by rewrite Hsame.
  - by rewrite Hsame.
  - intros p. by rewrite Hsame.
  - intros p. by rewrite Hsame.
  - rewrite (Hev flows_of 1 Hfl). lia.
  - rewrite (Hev members_of 1 Hme). lia.
  - intros p. rewrite lookup_bump, K6, (Hev (of_proto p flows_of) (if String.eqb p (st_protocol s) then 1 else 0));
      [done|]. rewrite !of_proto_eq, Hfl. simpl. destruct (String.eqb _ _); lia.
Qed.

(** Updates that no counter sees. *)
Lemma counters_ok_inert a id g :
  (forall s, st_protocol (g s) = st_protocol s) -> (forall s, stream_bytes (g s) = stream_bytes s) ->
  (forall s, flows_of (g s) = flows_of s) -> (forall s, members_of (g s) = members_of s) ->
  counters_ok a -> counters_ok (modify id g a).
Proof.
  intros Hp Hb Hf Hm [K0 K1 K2 K3 K4 K5 K6]. unfold ever in *.
  split; intros; unfold ever; simpl; rewrite total_modify_inert; auto; intros; unfold neg_bytes, of_proto;
    by rewrite ?Hp, ?Hb, ?Hf, ?Hm.
Qed.
End Counts.
