(* ===== verification/StoreKeys.v ===== *)
(** * The stream aggregator: identities and condensation groups

    [keys_ok]: under one parent and protocol a key names one live stream (D10);
    a condensed node's key is the sentinel followed by its anchor, and its
    group points back at it.  The flow keys of condensing protocols never start
    with the sentinel, so the two kinds of key cannot meet. *)

From S2P Require Import Prelude Values Bytes Types Contract Engine.
From S2P Require Import FlowKeys Rollups Unknowns Arena Store StoreInv.
From S2P Require Import StoreOps.

(** ** Flow keys never start with the sentinel *)

Lemma encode_value_head v : exists t r, encode_value v = t :: r /\ 0 <= t <= 5.
Proof. destruct v; eexists _, _; (split; [done|]); unfold TAG_BYTES, TAG_U64, TAG_I64, TAG_BOOL, TAG_STR, TAG_LIST; lia. Qed.

(** Empty, or starting with a value tag. *)
Definition tag_headed (k : list Z) : Prop := forall t r, k = t :: r -> 0 <= t <= 5.

Lemma tag_headed_app k1 k2 : tag_headed k1 -> tag_headed k2 -> tag_headed (k1 ++ k2).
Proof. intros H1 H2 t r. destruct k1 as [|x k1]; [apply H2|]. intros [= -> _]. by eapply H1. Qed.

Lemma tag_headed_values vs : tag_headed (encode_values vs).
Proof.
  unfold encode_values. induction vs as [|v vs IH]; [done|].
  change (tag_headed (encode_value v ++ concat (map encode_value vs))). apply tag_headed_app; [|done].
  destruct (encode_value_head v) as (t & r & Hv & Ht). intros t' r' Heq. rewrite Hv in Heq.
  by injection Heq as <- _.
Qed.

Lemma flow_key_headed id m k d :
  canonicalize id = EndpointSort -> flow_key id m = Ok (k, d) -> tag_headed k.
Proof.
  intros Hc Hk. destruct (key_values (key id) m) as [[[sh a] b]|] eqn:E.
  - rewrite (flow_key_values _ _ _ _ _ Hc E) in Hk.
    destruct (lex_leb _ _); injection Hk as <- _; repeat apply tag_headed_app; apply tag_headed_values.
  - destruct (key_sides_missing _ _ (mkSides [] [] []) E) as (n & _ & Hs).
    unfold flow_key in Hk. by rewrite Hc, Hs in Hk.
Qed.

(** ** What condensation needs of the engine

    [build] rejects every plugin whose condensation declaration is invalid. *)
Definition engine_wf (e : Engine) : Prop :=
  forall n p, plugin_by_name e n = Some p -> condense_error p = None.

Definition condensing (e : Engine) (proto : ProtocolName) : Prop :=
  exists p, plugin_by_name e proto = Some p /\ condense p <> None.

Lemma condense_error_None p spec id :
  condense_error p = None -> condense p = Some spec -> stream_identity p = Some id ->
  canonicalize id = EndpointSort /\ ephemeral spec ∈ key id /\ exists b, kf_b (ephemeral spec) = Some b.
Proof.
  unfold condense_error. intros H Hs Hi. rewrite Hs, Hi in H.
  destruct (canonicalize id); [|done]. simpl in H. split; [done|].
  destruct (pair_in_key id (ephemeral spec)) eqn:Ep; [|done]. simpl in H.
  unfold pair_in_key in Ep. apply existsb_exists in Ep as (kf & Hin & Hkf%bool_decide_eq_true). subst kf.
  split; [by apply list_elem_of_In|]. destruct (kf_b (ephemeral spec)); [by eauto|done].
Qed.

Section Keys.
Context `{Hasher}.

Abbreviation groups := (gmap (option StreamId * string * list Z) CondenseGroup) (only parsing).

Record keys_ok (e : Engine) (c : AggregatorConfig) (g : StreamId -> option Stream)
    (m : groups) : Prop := {
  ko_off : condense_threshold c = 0 -> m = ∅;
  ko_unique : forall id1 s1 id2 s2, g id1 = Some s1 -> g id2 = Some s2 ->
    parent s1 = parent s2 -> st_protocol s1 = st_protocol s2 -> st_key s1 = st_key s2 -> id1 = id2;
  ko_plain : forall id s, g id = Some s -> condensed s = None -> condensing e (st_protocol s) ->
    tag_headed (st_key s);
  ko_node : forall id s, g id = Some s -> condensed s <> None -> exists anc gr,
    st_key s = CONDENSED_KEY_SENTINEL :: anc /\
    m !! (parent s, st_protocol s, anc) = Some gr /\ node gr = Some id;
  ko_group : forall par proto anc gr, m !! (par, proto, anc) = Some gr -> condensing e proto /\
    forall n, node gr = Some n -> exists s, g n = Some s /\ condensed s <> None /\
      parent s = par /\ st_protocol s = proto /\ st_key s = CONDENSED_KEY_SENTINEL :: anc;
}.

(** Groups may come and go, but not the ones with a node, and new ones belong
    to condensing protocols. *)
Record same_nodes (e : Engine) (m m' : groups) : Prop := {
  sn_fwd : forall k gr, m !! k = Some gr -> node gr <> None ->
    exists gr', m' !! k = Some gr' /\ node gr' = node gr;
  sn_bwd : forall k gr', m' !! k = Some gr' ->
    (exists gr, m !! k = Some gr /\ node gr = node gr') \/ (node gr' = None /\ condensing e k.1.2);
}.

Lemma same_nodes_refl e m : same_nodes e m m.
Proof. split; eauto. Qed.

Lemma same_nodes_trans e m1 m2 m3 : same_nodes e m1 m2 -> same_nodes e m2 m3 -> same_nodes e m1 m3.
Proof.
  intros [F1 B1] [F2 B2]. split.
  - intros k gr Hk Hn. destruct (F1 _ _ Hk Hn) as (g2 & H2 & E2).
    destruct (F2 _ _ H2) as (g3 & H3 & E3); [congruence|]. exists g3. split; [done|congruence].
  - intros k gr Hk. destruct (B2 _ _ Hk) as [(g2 & H2 & E2)|?]; [|by right].
    destruct (B1 _ _ H2) as [(g1 & H1 & E1)|[? ?]]; [left; exists g1; split; [done|congruence]|].
    right. split; [congruence|done].
Qed.

Lemma same_nodes_insert e m k gr :
  (exists gr0, m !! k = Some gr0 /\ node gr0 = node gr) \/
  (m !! k = None /\ node gr = None /\ condensing e k.1.2) ->
  same_nodes e m (<[k := gr]> m).
Proof.
  intros Hk. split.
  - intros k' gr' Hk' Hn. rewrite lookup_insert. case_decide as Hd; subst; [|by eauto].
    destruct Hk as [(gr0 & H0 & E0)|(H0 & _)]; simplify_eq. eauto.
  - intros k' gr' Hk'. rewrite lookup_insert in Hk'. case_decide as Hd; subst; simplify_eq; [|by eauto].
    destruct Hk as [?|(_ & ? & ?)]; eauto.
Qed.

Lemma same_nodes_delete e m k gr : m !! k = Some gr -> node gr = None -> same_nodes e m (delete k m).
Proof.
  intros Hk Hn. split.
  - intros k' gr' Hk' Hn'. rewrite lookup_delete_ne; [by eauto|]. intros ->. congruence.
  - intros k' gr' [_ Hk']%lookup_delete_Some. eauto.
Qed.

Lemma keys_ok_same_nodes e c g m m' :
  condense_threshold c <> 0 -> same_nodes e m m' -> keys_ok e c g m -> keys_ok e c g m'.
Proof.
  intros Hc [F B] [K0 K1 K2 K3 K4]. split; try done.
  - intros id s Hs Hn. destruct (K3 _ _ Hs Hn) as (anc & gr & Hk & Hm & Hnode).
    destruct (F _ _ Hm) as (gr' & Hm' & E); [congruence|]. exists anc, gr'. split_and!; [done|done|congruence].
  - intros par proto anc gr' Hm'. destruct (B _ _ Hm') as [(gr & Hm & E)|[Hn Hco]].
    + destruct (K4 _ _ _ _ Hm) as [Hco Hgr]. split; [done|]. intros n Hn. apply Hgr. congruence.
    + split; [done|]. intros n. by rewrite Hn.
Qed.

Lemma keys_ok_shape e c g g' m : shape_map g g' -> keys_ok e c g m -> keys_ok e c g' m.
Proof.
  intros Hx [K0 K1 K2 K3 K4]. pose proof (fun x s => shape_fwd g g' x s Hx) as Hf.
  pose proof (fun x s => shape_bwd g g' x s Hx) as Hb. unfold same_shape, same_node in *. split; try done.
  - intros id1 s1 id2 s2 H1 H2.
    destruct (Hb _ _ H1) as (t1 & G1 & (_ & -> & -> & -> & _) & _).
    destruct (Hb _ _ H2) as (t2 & G2 & (_ & -> & -> & -> & _) & _). by apply K1.
  - intros id s' Hs. destruct (Hb _ _ Hs) as (s & Hg & (_ & -> & -> & _ & _ & Hc) & _). rewrite Hc.
    by apply K2 with id.
  - intros id s' Hs. destruct (Hb _ _ Hs) as (s & Hg & (_ & -> & -> & -> & _ & Hc) & _). rewrite Hc.
    by apply K3.
  - intros par proto anc gr Hm. destruct (K4 _ _ _ _ Hm) as [Hco Hgr]. split; [done|].
    intros n Hn. destruct (Hgr n Hn) as (s & Hs & Hcs & Hp).
    destruct (Hf _ _ Hs) as (s' & Hs' & (_ & Hq1 & Hq2 & Hq3 & _ & Hc) & _). exists s'.
    by rewrite Hq1, Hq2, Hq3, Hc.
Qed.

Lemma unique_grows e c g g' id s m :
  grows g g' id s ->
  (forall x t, g x = Some t -> parent t = parent s -> st_protocol t = st_protocol s -> st_key t <> st_key s) ->
  keys_ok e c g m ->
  forall id1 s1 id2 s2, g' id1 = Some s1 -> g' id2 = Some s2 ->
    parent s1 = parent s2 -> st_protocol s1 = st_protocol s2 -> st_key s1 = st_key s2 -> id1 = id2.
Proof.
  intros [Hfresh Hid Hch Hpar Hnew Hb Hf] Huniq [K0 K1 K2 K3 K4] x1 s1 x2 s2 H1 H2 E1 E2 E3.
  unfold same_node in *.
  destruct (decide (x1 = id)) as [->|Hn1], (decide (x2 = id)) as [->|Hn2]; [done|exfalso..|].
  - destruct (Hb _ _ H2 Hn2) as (t & Ht & (_ & Hp1 & Hp2 & Hp3 & _) & _). rewrite Hnew in H1. simplify_eq.
    apply (Huniq _ _ Ht); congruence.
  - destruct (Hb _ _ H1 Hn1) as (t & Ht & (_ & Hp1 & Hp2 & Hp3 & _) & _). rewrite Hnew in H2. simplify_eq.
    apply (Huniq _ _ Ht); congruence.
  - destruct (Hb _ _ H1 Hn1) as (t1 & G1 & (_ & Hp1 & Hp2 & Hp3 & _) & _).
    destruct (Hb _ _ H2 Hn2) as (t2 & G2 & (_ & Hq1 & Hq2 & Hq3 & _) & _).
    eapply K1; [exact G1|exact G2|congruence..].
Qed.

(** What [grows] and [shrinks] keep of the other streams. *)
Lemma keys_ok_grows e c g g' id s m :
  grows g g' id s -> condensed s = None ->
  (condensing e (st_protocol s) -> tag_headed (st_key s)) ->
  (forall x t, g x = Some t -> parent t = parent s -> st_protocol t = st_protocol s -> st_key t <> st_key s) ->
  keys_ok e c g m -> keys_ok e c g' m.
Proof.
  intros Hg Hn Hhead Huniq HK. pose proof (unique_grows _ _ _ _ _ _ _ Hg Huniq HK) as Hu.
  destruct Hg as [Hfresh Hid Hch Hpar Hnew Hb Hf], HK as [K0 K1 K2 K3 K4].
  unfold same_node in *. split; try done.
  - intros x t' Ht. destruct (decide (x = id)) as [->|Hne]; [by rewrite Hnew in Ht; simplify_eq|].
    destruct (Hb _ _ Ht Hne) as (t & Hg & (_ & -> & -> & _ & _ & Hc) & _). rewrite Hc. by apply K2 with x.
  - intros x t' Ht. destruct (decide (x = id)) as [->|Hne]; [by rewrite Hnew in Ht; simplify_eq|].
    destruct (Hb _ _ Ht Hne) as (t & Hg & (_ & -> & -> & -> & _ & Hc) & _). rewrite Hc. by apply K3.
  - intros par proto anc gr Hm. destruct (K4 _ _ _ _ Hm) as [Hco Hgr]. split; [done|].
    intros n Hnode. destruct (Hgr n Hnode) as (t & Ht & Hcs & Hp).
    destruct (Hf _ _ Ht) as (t' & Ht' & (_ & Hq1 & Hq2 & Hq3 & _ & Hc) & _). exists t'.
    by rewrite Hq1, Hq2, Hq3, Hc.
Qed.

(** A condensed node appears together with its group's pointer to it. *)
Lemma keys_ok_grows_node e c g g' id s m anc gr gr' :
  grows g g' id s -> condensed s <> None -> st_key s = CONDENSED_KEY_SENTINEL :: anc ->
  m !! (parent s, st_protocol s, anc) = Some gr -> node gr = None -> node gr' = Some id ->
  keys_ok e c g m -> keys_ok e c g' (<[(parent s, st_protocol s, anc) := gr']> m).
Proof.
  intros Hg Hn Hkey Hgr Hnone Hsome HK. pose proof HK as [K0 K1 K2 K3 K4].
  assert (forall x t, g x = Some t -> parent t = parent s -> st_protocol t = st_protocol s ->
    st_key t <> st_key s) as Huniq.
  { intros x t Ht Ep Epr Ek. destruct (condensed t) as [i|] eqn:Et.
    - destruct (K3 _ _ Ht) as (anc' & g0 & Hk & Hm & Hnode); [by rewrite Et|].
      rewrite Hk, Hkey in Ek. injection Ek as ->. rewrite Ep, Epr in Hm. congruence.
    - destruct (K4 _ _ _ _ Hgr) as [Hco _]. rewrite <- Epr in Hco. pose proof (K2 _ _ Ht Et Hco) as Hh.
      rewrite Ek, Hkey in Hh. pose proof (Hh _ _ eq_refl). unfold CONDENSED_KEY_SENTINEL in *. lia. }
  pose proof (unique_grows _ _ _ _ _ _ _ Hg Huniq HK) as Hu.
  destruct Hg as [Hfresh Hid Hch Hpar Hnew Hb Hf]. unfold same_node in *. split; [|done|..].
  - intros Hz. rewrite K0 in Hgr by done. done.
  - intros x t' Ht. destruct (decide (x = id)) as [->|Hne]; [by rewrite Hnew in Ht; simplify_eq|].
    destruct (Hb _ _ Ht Hne) as (t & Hg & (_ & -> & -> & _ & _ & Hc) & _). rewrite Hc. by apply K2 with x.
  - intros x t' Ht Hct. destruct (decide (x = id)) as [->|Hne].
    { rewrite Hnew in Ht. simplify_eq. exists anc, gr'. by rewrite lookup_insert, decide_True. }
    destruct (Hb _ _ Ht Hne) as (t & Hg & (_ & Hq1 & Hq2 & Hq3 & _ & Hc) & _). rewrite Hc in Hct.
    destruct (K3 _ _ Hg Hct) as (anc' & g0 & Hk & Hm & Hnode). exists anc', g0. rewrite Hq1, Hq2, Hq3.
    split_and!; [done| |done]. rewrite lookup_insert_ne; [done|]. intros Heq. rewrite <- Heq in Hm. congruence.
  - intros par proto anc' g0 Hm. rewrite lookup_insert in Hm. case_decide as Hd.
    + injection Hd as <- <- <-. injection Hm as <-. split; [by eapply K4|]. intros n Hnode.
      rewrite Hsome in Hnode. injection Hnode as <-. by exists s.
    + destruct (K4 _ _ _ _ Hm) as [Hco Hg0]. split; [done|].
      intros n Hnode. destruct (Hg0 n Hnode) as (t & Ht & Hcs & Hp).
      destruct (Hf _ _ Ht) as (t' & Ht' & (_ & Hq1 & Hq2 & Hq3 & _ & Hc) & _). exists t'.
      by rewrite Hq1, Hq2, Hq3, Hc.
Qed.

Lemma keys_ok_shrinks e c g g' id s m :
  shrinks g g' id s -> condensed s = None -> keys_ok e c g m -> keys_ok e c g' m.
Proof.
  intros [Hold Hch Hgone Hb Hf] Hn [K0 K1 K2 K3 K4]. unfold same_node in *. split; try done.
  - intros id1 s1 id2 s2 H1 H2.
    destruct (Hb _ _ H1) as (t1 & _ & G1 & (_ & -> & -> & -> & _) & _).
    destruct (Hb _ _ H2) as (t2 & _ & G2 & (_ & -> & -> & -> & _) & _). by apply K1.
  - intros x t' Ht. destruct (Hb _ _ Ht) as (t & _ & Hg & (_ & -> & -> & _ & _ & Hc) & _). rewrite Hc.
    by apply K2 with x.
  - intros x t' Ht. destruct (Hb _ _ Ht) as (t & _ & Hg & (_ & -> & -> & -> & _ & Hc) & _). rewrite Hc.
    by apply K3.
  - intros par proto anc gr Hm. destruct (K4 _ _ _ _ Hm) as [Hco Hgr]. split; [done|].
    intros n Hnode. destruct (Hgr n Hnode) as (t & Ht & Hcs & Hp).
    destruct (Hf _ _ Ht) as (t' & Ht' & (_ & Hq1 & Hq2 & Hq3 & _ & Hc) & _); [congruence|]. exists t'.
    by rewrite Hq1, Hq2, Hq3, Hc.
Qed.

Lemma keys_ok_shrinks_node e c g g' id s m :
  shrinks g g' id s -> condensed s <> None -> keys_ok e c g m ->
  keys_ok e c g' (delete (parent s, st_protocol s, tail (st_key s)) m).
Proof.
  intros [Hold Hch Hgone Hb Hf] Hn [K0 K1 K2 K3 K4]. unfold same_node in *.
  destruct (K3 _ _ Hold Hn) as (anc & gr & Hk & Hm & Hnode). rewrite Hk. simpl. split.
  - intros Hz. rewrite K0 in Hm; done.
  - intros id1 s1 id2 s2 H1 H2.
    destruct (Hb _ _ H1) as (t1 & _ & G1 & (_ & -> & -> & -> & _) & _).
    destruct (Hb _ _ H2) as (t2 & _ & G2 & (_ & -> & -> & -> & _) & _). by apply K1.
  - intros x t' Ht. destruct (Hb _ _ Ht) as (t & _ & Hg & (_ & -> & -> & _ & _ & Hc) & _). rewrite Hc.
    by apply K2 with x.
  - intros x t' Ht. destruct (Hb _ _ Ht) as (t & Hne & Hg & (_ & -> & -> & -> & _ & Hc) & _). rewrite Hc.
    intros Hct. destruct (K3 _ _ Hg Hct) as (anc' & g0 & Hk' & Hm' & Hnode').
    exists anc', g0. rewrite lookup_delete_ne; [done|]. intros Heq. rewrite <- Heq in Hm'. congruence.
  - intros par proto anc' g0 [Hne Hm']%lookup_delete_Some. destruct (K4 _ _ _ _ Hm') as [Hco Hgr].
    split; [done|]. intros n Hnode'. destruct (Hgr n Hnode') as (t & Ht & Hcs & Hp).
    destruct (Hf _ _ Ht) as (t' & Ht' & (_ & Hq1 & Hq2 & Hq3 & _ & Hc) & _).
    { intros ->. apply Hne. rewrite Hold in Ht. injection Ht as <-. destruct Hp as (<- & <- & Hk').
      rewrite Hk in Hk'. by injection Hk' as <-. }
    exists t'. by rewrite Hq1, Hq2, Hq3, Hc.
Qed.

Lemma same_nodes_untally e par proto cs m : same_nodes e m (untally par proto cs m).
Proof.
  unfold untally. revert m. induction cs as [|c cs IH]; intros m; [apply same_nodes_refl|].
  simpl. eapply same_nodes_trans; [|apply IH].
  destruct (m !! (par, proto, anchor c)) as [g|] eqn:E; [|apply same_nodes_refl].
  destruct ((sat_sub (expanded g) 1 =? 0) && bool_decide (node g = None)) eqn:Eb.
  - apply andb_prop in Eb as [_ Hn%bool_decide_eq_true]. by eapply same_nodes_delete.
  - apply same_nodes_insert. left. eauto.
Qed.

Lemma same_nodes_tally e par proto cs m : condensing e proto -> same_nodes e m (tally par proto cs m).
Proof.
  intros Hco. unfold tally. revert m. induction cs as [|c cs IH]; intros m; [apply same_nodes_refl|].
  simpl. eapply same_nodes_trans; [|apply IH]. apply same_nodes_insert.
  destruct (m !! (par, proto, anchor c)) as [g|] eqn:E; simpl; eauto.
Qed.

Lemma keys_ok_evicted e c g g' id s m :
  shrinks g g' id s -> keys_ok e c g m -> keys_ok e c g' (evict_groups e c s m).
Proof.
  intros Hg HK. unfold evict_groups. destruct (Z.eqb_spec (condense_threshold c) 0) as [Hz|Hnz].
  - eapply keys_ok_shrinks; [done| |done]. destruct (condensed s) as [i|] eqn:Ec; [|done].
    destruct (ko_node _ _ _ _ HK _ _ (sh_old _ _ _ _ Hg)) as (anc & gr & _ & Hm & _); [by rewrite Ec|].
    by rewrite (ko_off _ _ _ _ HK Hz) in Hm.
  - destruct (condensed s) as [i|] eqn:Ec.
    + eapply keys_ok_shrinks_node; [done|by rewrite Ec|done].
    + assert (keys_ok e c g' m) as HK' by by eapply keys_ok_shrinks.
      destruct (_ ≫= _) as [cs|]; [|done]. eapply keys_ok_same_nodes; [done|apply same_nodes_untally|done].
Qed.
End Keys.
