(* ===== verification/StoreHeaps.v ===== *)
(** * The stream aggregator: the lazy heaps

    The expiry and LRU heaps hold stale entries; what is kept ([heaps_ok]) is
    that every live leaf has an entry in both.  When packets come in time order
    ([P]) the entry is also no later than the stream's actual values, which
    makes the eviction picks exact.  With it: [sweep] and [enforce_max_streams]
    end within their bounds, keep the invariant and reach their goals. *)

From S2P Require Import Prelude Values Bytes Types Contract Engine.
From S2P Require Import FlowKeys Rollups Unknowns Arena Store StoreInv.
From S2P Require Import StoreOps StoreCounts StoreKeys.

#[export] Instance expiry_leb_ord : TotalOrd expiry_leb.
Proof. unfold expiry_leb. apply _. Qed.
#[export] Instance lru_leb_ord : TotalOrd lru_leb.
Proof. unfold lru_leb. apply _. Qed.

Section Ok.
Context `{Hasher}.

Record store_ok (a : Aggregator) : Prop := {
  sk_engine : engine_wf (ag_engine a);
  sk_arena : arena_ok (arena a);
  sk_forest : forest_ok (ag_get a) (roots a) (index a) (next_seq a);
  sk_keys : keys_ok (ag_engine a) (config a) (ag_get a) (ag_condense a);
  sk_counts : counters_ok a;
}.

Record lru_ok (P : Prop) (X : option StreamId) (a : Aggregator) : Prop := {
  lo_sorted : Sorted_by lru_leb (lru a);
  lo_cover : forall id s, is_live_policy (config a) = true -> ag_get a id = Some s -> children s = [] ->
    Some id <> X -> exists seen, (P -> seen <= last_seen s) /\
      (seen, created_seq s, sid_index id, generation id) ∈ lru a;
}.

Record expiry_ok (P : Prop) (X : option StreamId) (a : Aggregator) : Prop := {
  eo_sorted : Sorted_by expiry_leb (expiry a);
  eo_cover : forall id s, is_live_policy (config a) = true -> ag_get a id = Some s -> children s = [] ->
    Some id <> X -> exists d dl, deadline_of a id = Some dl /\ (P -> d <= dl) /\
      (d, sid_index id, generation id) ∈ expiry a;
}.

Record heaps_ok (P : Prop) (a : Aggregator) : Prop := {
  ho_lru : lru_ok P None a;
  ho_expiry : expiry_ok P None a;
  ho_seen : P -> forall id s, ag_get a id = Some s -> last_seen s <= clock a;
}.

(** The parts of the state the heaps are read against. *)
Lemma deadline_of_eq a a' id :
  config a' = config a -> ag_get a' id = ag_get a id -> deadline_of a' id = deadline_of a id.
Proof. intros Hc Hg. unfold deadline_of. by rewrite Hc, Hg. Qed.

Lemma deadline_of_Some a id s : is_live_policy (config a) = true -> ag_get a id = Some s ->
  is_Some (deadline_of a id).
Proof.
  unfold is_live_policy, deadline_of. intros Hc ->. destruct (eviction (config a)); [done|].
  simpl. by eauto.
Qed.

Lemma deadline_of_None a id : ag_get a id = None -> deadline_of a id = None.
Proof. unfold deadline_of. intros ->. by destruct (eviction (config a)). Qed.

Lemma deadline_of_children a a' id t h :
  config a' = config a -> ag_get a id = Some t -> ag_get a' id = Some (set_children h t) ->
  deadline_of a' id = deadline_of a id.
Proof. intros Hc Ht Ht'. unfold deadline_of. by rewrite Hc, Ht, Ht'. Qed.

(** A dead or a non-leaf exemption is none. *)
Lemma lru_ok_drop P id a :
  (forall s, ag_get a id = Some s -> children s <> []) -> lru_ok P (Some id) a -> lru_ok P None a.
Proof.
  intros Hd [H1 H2]. split; [done|]. intros x s Hp Hs Hl _. apply H2; try done.
  intros [= ->]. by apply (Hd s).
Qed.

Lemma expiry_ok_drop P id a :
  (forall s, ag_get a id = Some s -> children s <> []) -> expiry_ok P (Some id) a -> expiry_ok P None a.
Proof.
  intros Hd [H1 H2]. split; [done|]. intros x s Hp Hs Hl _. apply (H2 x s); try done.
  intros [= ->]. by apply (Hd s).
Qed.

(** Popping the least entry exempts its stream. *)
Lemma lru_ok_pop P a seen seq i g rest :
  lru a = (seen, seq, i, g) :: rest -> lru_ok P None a -> lru_ok P (Some (mkId i g)) (set_lru rest a).
Proof.
  intros Hl [H1 H2]. rewrite Hl in H1. split; [by apply StronglySorted_inv in H1 as [? _]|].
  intros id s Hp Hs Hleaf Hne. destruct (H2 id s Hp Hs Hleaf ltac:(done)) as (sn & Hle & Hin).
  exists sn. split; [done|]. rewrite Hl in Hin. apply elem_of_cons in Hin as [Heq|Hin]; [|done].
  exfalso. apply Hne. f_equal. injection Heq as _ _ <- <-. by destruct id.
Qed.

Lemma expiry_ok_pop P a d i g rest :
  expiry a = (d, i, g) :: rest -> expiry_ok P None a -> expiry_ok P (Some (mkId i g)) (set_expiry rest a).
Proof.
  intros Hl [H1 H2]. rewrite Hl in H1. split; [by apply StronglySorted_inv in H1 as [? _]|].
  intros id s Hp Hs Hleaf Hne. destruct (H2 id s Hp Hs Hleaf ltac:(done)) as (d' & dl & Hdl & Hle & Hin).
  exists d', dl. split_and!; [done|done|]. rewrite Hl in Hin. apply elem_of_cons in Hin as [Heq|Hin]; [|done].
  exfalso. apply Hne. f_equal. injection Heq as _ <- <-. by destruct id.
Qed.

(** Pushing the actual values covers the exempted stream again. *)
Lemma lru_ok_push P a id s :
  ag_get a id = Some s -> lru_ok P (Some id) a ->
  lru_ok P None (push_lru (last_seen s) (created_seq s) id a).
Proof.
  intros Hs [H1 H2]. split; [by apply insert_by_ord; [apply _|]|].
  intros x t Hp Ht Hleaf _. simpl. destruct (decide (x = id)) as [->|Hne].
  - assert (t = s) as -> by (change (ag_get a id = Some t) in Ht; congruence).
    exists (last_seen s). split; [done|]. apply elem_of_insert_by. by left.
  - destruct (H2 x t Hp Ht Hleaf) as (sn & Hle & Hin); [congruence|]. exists sn. split; [done|].
    apply elem_of_insert_by. by right.
Qed.

Lemma expiry_ok_push P a id dl :
  deadline_of a id = Some dl -> expiry_ok P (Some id) a -> expiry_ok P None (push_expiry dl id a).
Proof.
  intros Hdl [H1 H2]. split; [by apply insert_by_ord; [apply _|]|].
  intros x t Hp Ht Hleaf _. simpl. destruct (decide (x = id)) as [->|Hne].
  - exists dl, dl. split_and!; [done|done|]. apply elem_of_insert_by. by left.
  - destruct (H2 x t Hp Ht Hleaf) as (d & dl' & Hd & Hle & Hin); [congruence|]. exists d, dl'.
    split_and!; [done|done|]. apply elem_of_insert_by. by right.
Qed.

(** ** Eviction keeps everything *)

Lemma evict_ok a id s r :
  store_ok a -> ag_get a id = Some s -> children s = [] ->
  evicted a (evict id r a) id s r /\ store_ok (evict id r a).
Proof.
  intros [He Ha Hf Hk Hc] Hs Hleaf.
  assert (evicted a (evict id r a) id s r) as Hev.
  { apply evict_evicted; try done. intros p Hp.
    destruct (fo_parent _ (fo_links _ _ _ _ Hf) _ _ _ Hs Hp) as (ps & Hps & Hin & Hlt).
    split; [|by eauto]. intros ->. rewrite Hs in Hps. injection Hps as <-. lia. }
  split; [done|]. destruct (ev_frame _ _ _ _ _ Hev) as (Ee & Ecfg & _ & _ & Esq & _).
  split.
  - by rewrite Ee.
  - by destruct (ev_arena _ _ _ _ _ Hev).
  - rewrite (ev_roots _ _ _ _ _ Hev), (ev_index _ _ _ _ _ Hev), Esq.
    eapply forest_ok_shrinks; [done|]. by apply ev_shrinks with r.
  - rewrite Ee, Ecfg, (ev_condense _ _ _ _ _ Hev). eapply keys_ok_evicted; [|done].
    by apply ev_shrinks with r.
  - by eapply counters_ok_evicted.
Qed.

Lemma evicted_leaf a a' id s r x t' :
  evicted a a' id s r -> ag_get a' x = Some t' -> children t' = [] ->
  exists t h, ag_get a x = Some t /\ t' = set_children h t /\
    (parent s <> Some x -> children t = []).
Proof.
  intros Hev Hx Hleaf. destruct (ev_others _ _ _ _ _ Hev _ _ Hx) as (t & h & Ht & ->).
  exists t, h. split_and!; [done|done|]. intros Hne.
  destruct (sh_bwd _ _ _ _ (ev_shrinks _ _ _ _ _ Hev) _ _ Hx) as (t2 & _ & Ht2 & _ & Hch).
  rewrite decide_False in Hch by done. congruence.
Qed.

Lemma lru_ok_evicted P X a a' id s r : evicted a a' id s r -> lru_ok P X a -> lru_ok P X a'.
Proof.
  intros Hev [H1 H2]. destruct (ev_frame _ _ _ _ _ Hev) as (_ & Ecfg & _).
  pose proof (ev_heaps _ _ _ _ _ Hev) as Hh. split.
  - destruct (parent s) as [p|]; [|by destruct Hh as [_ ->]].
    destruct Hh as (ps & _ & _ & ->). by apply insert_by_ord; [apply _|].
  - rewrite Ecfg. intros x t' Hp Hx Hleaf Hne.
    destruct (evicted_leaf _ _ _ _ _ _ _ Hev Hx Hleaf) as (t & h & Ht & -> & Hch). simpl.
    destruct (decide (parent s = Some x)) as [Heq|Hnp].
    + rewrite Heq in Hh. destruct Hh as (ps & Hps & _ & ->). rewrite Ht in Hps. injection Hps as <-.
      exists (last_seen t). split; [done|]. apply elem_of_insert_by. by left.
    + destruct (H2 x t Hp Ht (Hch Hnp) Hne) as (sn & Hle & Hin). exists sn. split; [done|].
      destruct (parent s) as [p|]; [|by destruct Hh as [_ ->]].
      destruct Hh as (ps & _ & _ & ->). apply elem_of_insert_by. by right.
Qed.

Lemma expiry_ok_evicted P X a a' id s r : evicted a a' id s r -> expiry_ok P X a -> expiry_ok P X a'.
Proof.
  intros Hev [H1 H2]. destruct (ev_frame _ _ _ _ _ Hev) as (_ & Ecfg & _).
  pose proof (ev_heaps _ _ _ _ _ Hev) as Hh. split.
  - destruct (parent s) as [p|]; [|by destruct Hh as [-> _]].
    destruct Hh as (ps & _ & -> & _). destruct (deadline_of a p); [by apply insert_by_ord; [apply _|]|done].
  - rewrite Ecfg. intros x t' Hp Hx Hleaf Hne.
    destruct (evicted_leaf _ _ _ _ _ _ _ Hev Hx Hleaf) as (t & h & Ht & -> & Hch).
    rewrite (deadline_of_children a a' x t h Ecfg Ht Hx).
    destruct (decide (parent s = Some x)) as [Heq|Hnp].
    + rewrite Heq in Hh. destruct Hh as (ps & Hps & -> & _).
      destruct (deadline_of_Some a x t Hp Ht) as [dl Hdl]. rewrite Hdl.
      exists dl, dl. split_and!; [done|done|]. apply elem_of_insert_by. by left.
    + destruct (H2 x t Hp Ht (Hch Hnp) Hne) as (d & dl & Hdl & Hle & Hin). exists d, dl.
      split_and!; [done|done|]. destruct (parent s) as [p|]; [|by destruct Hh as [-> _]].
      destruct Hh as (ps & _ & -> & _). destruct (deadline_of a p); [|done].
      apply elem_of_insert_by. by right.
Qed.

Lemma seen_evicted P a a' id s r : evicted a a' id s r ->
  (P -> forall id s, ag_get a id = Some s -> last_seen s <= clock a) ->
  P -> forall id s, ag_get a' id = Some s -> last_seen s <= clock a'.
Proof.
  intros Hev Hs HP x t' Hx. destruct (ev_frame _ _ _ _ _ Hev) as (_ & _ & -> & _).
  destruct (ev_others _ _ _ _ _ Hev _ _ Hx) as (t & h & Ht & ->). simpl. by apply (Hs HP x).
Qed.

(** The invariant of every loop that only pops, pushes and evicts. *)
Record evicting (P : Prop) (a0 a : Aggregator) : Prop := {
  vi_store : store_ok a;
  vi_heaps : heaps_ok P a;
  vi_frame : config a = config a0 /\ ag_engine a = ag_engine a0 /\ clock a = clock a0 /\
    blen (slots (arena a)) = blen (slots (arena a0)) /\ next_seq a = next_seq a0 /\
    totals a = totals a0 /\ stop_classes a = stop_classes a0 /\ unknowns a = unknowns a0;
  vi_steps : exists n, steps keeps_seq n (arena a0) (arena a) /\
    length (emitted a) = (length (emitted a0) + n)%nat;
  vi_live : live_count a <= live_count a0;
}.

Lemma evicting_refl P a : store_ok a -> heaps_ok P a -> evicting P a a.
Proof. intros. split; try done. exists 0%nat. split; [constructor|lia]. Qed.

(** Only the heaps change. *)
Lemma store_ok_heaps a e l : store_ok a -> store_ok (set_lru l (set_expiry e a)).
Proof. intros [H1 H2 H3 H4 H5]. split; try done. by apply (counters_ok_frame a). Qed.

Lemma set_lru_same a : set_lru (lru a) a = a.
Proof. by destruct a. Qed.
Lemma set_expiry_same a : set_expiry (expiry a) a = a.
Proof. by destruct a. Qed.

Lemma store_ok_lru a l : store_ok a -> store_ok (set_lru l a).
Proof. intros Ha. apply (store_ok_heaps a (expiry a) l) in Ha. by rewrite set_expiry_same in Ha. Qed.
Lemma store_ok_expiry a e : store_ok a -> store_ok (set_expiry e a).
Proof. intros Ha. by apply (store_ok_heaps a e (lru a)) in Ha. Qed.

Lemma evicting_heaps P a0 a e l :
  evicting P a0 a -> heaps_ok P (set_lru l (set_expiry e a)) -> evicting P a0 (set_lru l (set_expiry e a)).
Proof. intros [H1 H2 H3 H4 H5] Hh. split; try done. by apply store_ok_heaps. Qed.

Lemma evicting_lru P a0 a l :
  evicting P a0 a -> lru_ok P None (set_lru l a) -> evicting P a0 (set_lru l a).
Proof.
  intros Hv Hl. pose proof (evicting_heaps P a0 a (expiry a) l Hv) as Hw. rewrite set_expiry_same in Hw.
  apply Hw. destruct (vi_heaps _ _ _ Hv) as [_ [E1 E2] H3]. by split.
Qed.

Lemma evicting_expiry P a0 a e :
  evicting P a0 a -> expiry_ok P None (set_expiry e a) -> evicting P a0 (set_expiry e a).
Proof.
  intros Hv Hl. pose proof (evicting_heaps P a0 a e (lru a) Hv) as Hw.
  apply Hw. destruct (vi_heaps _ _ _ Hv) as [[L1 L2] _ H3]. by split.
Qed.

(** Evicting a leaf after its entry was popped. *)
Lemma evicting_evict P a0 a b id s r :
  evicting P a0 a -> store_ok b -> ag_get b id = Some s -> children s = [] ->
  config b = config a -> ag_engine b = ag_engine a -> clock b = clock a -> arena b = arena a ->
  next_seq b = next_seq a -> totals b = totals a -> stop_classes b = stop_classes a ->
  unknowns b = unknowns a -> emitted b = emitted a -> live_count b = live_count a ->
  (exists X, (X = None \/ X = Some id) /\ lru_ok P X b /\ expiry_ok P X b) ->
  evicting P a0 (evict id r b).
Proof.
  intros [V1 V2 (F1 & F2 & F3 & F4 & F5 & F6 & F7 & F8) (n & V4 & V5) V6] Hb Hs Hleaf
    B1 B2 B3 B4 B5 B6 B7 B8 B9 B10 (X & HX & HL & HE).
  destruct (evict_ok b id s r Hb Hs Hleaf) as [Hev Hok].
  destruct (ev_frame _ _ _ _ _ Hev) as (G1 & G2 & G3 & G4 & G5 & G6 & G7 & G8).
  pose proof (sh_gone _ _ _ _ (ev_shrinks _ _ _ _ _ Hev)) as Hgone.
  destruct (ev_arena _ _ _ _ _ Hev) as [_ G9]. destruct (ev_counts _ _ _ _ _ Hev) as (G10 & _).
  apply (lru_ok_evicted _ _ _ _ _ _ _ Hev) in HL. apply (expiry_ok_evicted _ _ _ _ _ _ _ Hev) in HE.
  assert (forall t, ag_get (evict id r b) id = Some t -> children t <> []) as Hdead by congruence.
  split.
  - done.
  - split.
    + destruct HX as [-> | ->]; [done|by eapply lru_ok_drop].
    + destruct HX as [-> | ->]; [done|by eapply expiry_ok_drop].
    + eapply seen_evicted; [done|]. intros HP x t. unfold ag_get. rewrite B4, B3.
      by apply (ho_seen _ _ V2 HP).
  - by rewrite G1, G2, G3, G4, G5, G6, G8, G9, B1, B2, B3, B4, B5, B6, B7, B8.
  - exists (Datatypes.S n). split.
    + rewrite <- Nat.add_1_r. eapply steps_trans; [done|]. rewrite <- B4. apply (ev_steps _ _ _ _ _ Hev).
    + rewrite (ev_emitted _ _ _ _ _ Hev), length_app, B9, V5. simpl. lia.
  - rewrite G10, B10. lia.
Qed.

(** ** The sweep *)

Definition due (now : SystemTime) (e : ExpiryEntry) : bool := e.1.1 <=? now.

Definition due_entries (now : SystemTime) (a : Aggregator) : nat :=
  length (filter (fun e => due now e = true) (expiry a)).

Definition sweep_measure (now : SystemTime) (a : Aggregator) : nat :=
  2 * length (streams a) + due_entries now a.

Lemma sum_of_one l : sum_of one l = Z.of_nat (length l).
Proof. induction l as [|x l IH]; simpl; [done|]. rewrite IH. unfold one. lia. Qed.

Lemma streams_evicted a a' id s r :
  evicted a a' id s r -> length (streams a) = Datatypes.S (length (streams a')).
Proof.
  intros Hev. pose proof (ev_total _ _ _ _ _ Hev one ltac:(done)) as Ht.
  unfold total in Ht. rewrite !sum_of_one in Ht. unfold one in Ht. lia.
Qed.

Lemma due_insert now e l :
  length (filter (fun e => due now e = true) (insert_by expiry_leb e l)) =
  ((if due now e then 1 else 0) + length (filter (fun e => due now e = true) l))%nat.
Proof.
  rewrite insert_by_Permutation. rewrite filter_cons. by destruct (due now e) eqn:E; case_decide.
Qed.

Lemma due_push_le now d id a :
  (due_entries now (push_expiry d id a) <= Datatypes.S (due_entries now a))%nat.
Proof. unfold due_entries. simpl. rewrite due_insert. destruct (due _ _); lia. Qed.

(** Nothing but the runs reads the flag. *)
Lemma store_ok_overflowed a v : store_ok a -> store_ok (set_overflowed v a).
Proof. intros [H1 H2 H3 H4 H5]. split; try done. by apply (counters_ok_frame a). Qed.

Lemma evicting_overflowed P a0 a v : evicting P a0 a -> evicting P a0 (set_overflowed v a).
Proof.
  intros [Hs [[L1 L2] [E1 E2] H6] V3 V4 V5]. split; try done. by apply store_ok_overflowed.
Qed.

(** A round that has an entry due: from the state [a1] that its call of
    [deadline_of] leaves, but for the entry. *)
Lemma sweep_body_due linger now a a' :
  sweep_body linger now a = Again a' ->
  exists v d i g rest, let a1 := set_overflowed v a in let id := mkId i g in
    expiry a1 = (d, i, g) :: rest /\ (now <? d) = false /\
    (deadline_fits a id = true -> v = ag_overflowed a) /\
    let b := set_expiry rest a1 in
    match deadline_of b id with
    | None => Again b
    | Some actual =>
        if now <? actual then Again (push_expiry actual id b)
        else match ag_get b id with
             | None => Again b
             | Some s =>
                 match children s with
                 | _ :: _ => Again b
                 | [] => Again (evict id (close_reason s linger now) b)
                 end
             end
    end = Again a'.
Proof.
  intros Hb. unfold sweep_body in Hb. destruct (expiry a) as [|[[d i] g] rest] eqn:Ex; [discriminate Hb|].
  destruct (now <? d) eqn:Ed; [discriminate Hb|].
  exists (ag_overflowed a || negb (deadline_fits a (mkId i g))), d, i, g, rest. split_and!; [done|done| |exact Hb].
  intros ->. apply orb_false_r.
Qed.

Lemma sweep_body_again P linger a0 a a' :
  evicting P a0 a -> is_live_policy (config a0) = true ->
  sweep_body linger (clock a0) a = Again a' ->
  evicting P a0 a' /\ (sweep_measure (clock a0) a' < sweep_measure (clock a0) a)%nat.
Proof.
  intros Hv Hpol (v & d & i & g & rest & Ex & Ed & _ & Hb)%sweep_body_due. cbv zeta in Hb.
  apply (evicting_overflowed _ _ _ v) in Hv.
  change (sweep_measure (clock a0) a) with (sweep_measure (clock a0) (set_overflowed v a)).
  revert Hb Hv Ex. generalize (set_overflowed v a). clear a v. intros a Hb Hv Ex. revert Hb.
  pose proof (vi_frame _ _ _ Hv) as (Ecfg & _). apply Z.ltb_ge in Ed.
  set (b := set_expiry rest a). set (id := mkId i g).
  pose proof (expiry_ok_pop P a d i g rest Ex (ho_expiry _ _ (vi_heaps _ _ _ Hv))) as Hpop.
  fold b id in Hpop.
  assert (due_entries (clock a0) a = Datatypes.S (due_entries (clock a0) b)) as Hdue.
  { unfold due_entries. rewrite Ex, filter_cons, decide_True; [done|]. by apply Z.leb_le. }
  assert (streams b = streams a) as Hst by done.
  destruct (deadline_of b id) as [actual|] eqn:Edl.
  - destruct (clock a0 <? actual) eqn:Ea.
    + intros [= <-]. split.
      * apply (evicting_expiry P a0 a); [done|]. by apply (expiry_ok_push P b).
      * unfold sweep_measure. change (streams (push_expiry actual id b)) with (streams a).
        unfold due_entries at 1. simpl. rewrite due_insert. unfold due at 1. simpl.
        apply Z.ltb_lt in Ea. rewrite (proj2 (Z.leb_gt _ _)) by lia.
        unfold due_entries in Hdue |- *. simpl in *. lia.
    + destruct (ag_get b id) as [s|] eqn:Es.
      * destruct (children s) as [|c cs] eqn:Ec; intros [= <-].
        -- assert (store_ok b) as Hb by (apply store_ok_expiry, Hv).
           split.
           ++ eapply (evicting_evict P a0 a b); try done. exists (Some id).
              split_and!; [by right| |done]. destruct (ho_lru _ _ (vi_heaps _ _ _ Hv)) as [L1 L2].
              split; [done|]. intros x t Hp Hx Hl _. by apply L2.
           ++ destruct (evict_ok b id s (close_reason s linger (clock a0)) Hb Es Ec) as [Hev _].
              pose proof (streams_evicted _ _ _ _ _ Hev) as Hlen.
              unfold sweep_measure. rewrite Hdue, <- Hst, Hlen.
              assert (due_entries (clock a0) (evict id (close_reason s linger (clock a0)) b)
                      <= Datatypes.S (due_entries (clock a0) b))%nat; [|lia].
              pose proof (ev_heaps _ _ _ _ _ Hev) as Hh. unfold due_entries.
              destruct (parent s) as [p|]; [|by destruct Hh as [-> _]; lia].
              destruct Hh as (ps & _ & -> & _). destruct (deadline_of b p); [|lia].
              rewrite due_insert. destruct (due _ _); lia.
        -- split.
           ++ apply (evicting_expiry P a0 a); [done|]. apply (expiry_ok_drop P id); [|done].
              intros t Ht. fold b in Ht. rewrite Es in Ht. injection Ht as <-. by rewrite Ec.
           ++ unfold sweep_measure. rewrite Hst. lia.
      * by rewrite (deadline_of_None b id Es) in Edl.
  - intros [= <-]. split.
    + apply (evicting_expiry P a0 a); [done|]. apply (expiry_ok_drop P id); [|done].
      intros t Ht. fold b in Ht. destruct (deadline_of_Some b id t) as [dl Hdl]; [|done|congruence].
      change (config b) with (config a). by rewrite Ecfg.
    + unfold sweep_measure. rewrite Hst. lia.
Qed.

(** The loop ends within [sweep_fuel], having only evicted. *)
Lemma sweep_loop P linger a :
  store_ok a -> heaps_ok P a -> is_live_policy (config a) = true ->
  exists a', loop (sweep_body linger (clock a)) (sweep_fuel a) a = Some a' /\ evicting P a a' /\ forall e, e ∈ expiry a' -> clock a < e.1.1.
Proof.
  intros Hs Hh Hp. pose proof (evicting_refl P a Hs Hh) as H0.
  destruct (loop_total_inv (sweep_body linger (clock a)) (evicting P a) (sweep_measure (clock a))
    (sweep_fuel a) a) as [a' Ha']; [|done| |].
  { intros s1 s2 Hv Hb. by eapply sweep_body_again. }
  { unfold sweep_measure, sweep_fuel, due_entries. pose proof (length_filter (fun e => due (clock a) e = true) (expiry a)). lia. }
  exists a'. split; [done|].
  destruct (loop_exit (sweep_body linger (clock a)) (evicting P a) (sweep_fuel a) a a') as (b & Hv & Hd); [|done..|].
  { intros s1 s2 Hv Hb. by eapply sweep_body_again. }
  unfold sweep_body in Hd. destruct (expiry b) as [|[[d i] g] rest] eqn:Ex.
  - injection Hd as <-. split; [done|]. intros e. rewrite Ex. by intros ?%elem_of_nil.
  - destruct (clock a <? d) eqn:Ed; [|repeat case_match; done]. injection Hd as <-. split; [done|].
    pose proof (eo_sorted _ _ _ (ho_expiry _ _ (vi_heaps _ _ _ Hv))) as Hsort. rewrite Ex in Hsort |- *.
    intros e He. apply Z.ltb_lt in Ed. destruct (Sorted_by_head _ _ _ _ Hsort He) as [<-|Hle]; [done|].
    unfold expiry_leb, lex_pair in Hle. simpl in Hle.
    apply andb_prop in Hle as [Hle _]. apply andb_prop in Hle as [Hle%Z.leb_le _]. lia.
Qed.

(** ** The hard cap *)

(** Two rounds for an entry whose values are out of date, one for the others. *)
Definition lru_weight (a : Aggregator) (e : LruEntry) : nat :=
  match ag_get a (mkId e.1.2 e.2) with
  | Some s => if bool_decide ((last_seen s, created_seq s) = e.1.1) then 1 else 2
  | None => 1
  end.

Definition weights (a : Aggregator) (l : list LruEntry) : nat :=
  foldr (fun e n => lru_weight a e + n)%nat 0%nat l.

Definition enforce_measure (a : Aggregator) : nat := 2 * length (streams a) + weights a (lru a).

#[local] Instance weights_Permutation a : Proper ((≡ₚ) ==> (=)) (weights a).
Proof. intros l k Hp. induction Hp; simpl; lia. Qed.

Lemma lru_weight_bounds a e : (1 <= lru_weight a e <= 2)%nat.
Proof. unfold lru_weight. destruct (ag_get _ _); [case_bool_decide|]; lia. Qed.

Lemma weights_le a a' l :
  (forall e, lru_weight a' e <= lru_weight a e)%nat -> (weights a' l <= weights a l)%nat.
Proof. intros Hw. induction l as [|e l IH]; simpl; [done|]. specialize (Hw e). lia. Qed.

Lemma weights_bound a l : (weights a l <= 2 * length l)%nat.
Proof. induction l as [|e l IH]; simpl; [done|]. pose proof (lru_weight_bounds a e). lia. Qed.

Lemma lru_weight_evicted a a' id s r e :
  evicted a a' id s r -> (lru_weight a' e <= lru_weight a e)%nat.
Proof.
  intros Hev. unfold lru_weight. destruct (ag_get a' _) as [t'|] eqn:E.
  - destruct (ev_others _ _ _ _ _ Hev _ _ E) as (t & h & -> & ->). done.
  - apply (lru_weight_bounds a e).
Qed.

(** A live parent's actual values weigh one round. *)
Lemma lru_weight_actual a p ps h b :
  ag_get a p = Some ps -> ag_get b p = Some (set_children h ps) ->
  lru_weight b (last_seen ps, created_seq ps, sid_index p, generation p) = 1%nat.
Proof.
  intros _ Hb. unfold lru_weight. simpl. destruct p as [i g]. simpl. rewrite Hb. simpl.
  by rewrite bool_decide_eq_true_2.
Qed.

Lemma weights_evicted a a' id s r :
  evicted a a' id s r -> (weights a' (lru a') <= Datatypes.S (weights a (lru a)))%nat.
Proof.
  intros Hev. pose proof (weights_le a a' (lru a) (fun e => lru_weight_evicted _ _ _ _ _ e Hev)) as Hle.
  pose proof (ev_heaps _ _ _ _ _ Hev) as Hh. destruct (parent s) as [p|]; [|destruct Hh as [_ ->]; lia].
  destruct Hh as (ps & Hps & _ & ->). rewrite insert_by_Permutation. simpl.
  assert (lru_weight a' (last_seen ps, created_seq ps, sid_index p, generation p) <= 1)%nat; [|lia].
  unfold lru_weight. simpl. destruct (ag_get a' _) as [t'|] eqn:E; [|done].
  destruct (ev_others _ _ _ _ _ Hev _ _ E) as (t & h & Ht & ->).
  assert (mkId (sid_index p) (generation p) = p) as Hp by by destruct p. rewrite Hp in Ht.
  rewrite Hps in Ht. injection Ht as <-. simpl. by rewrite bool_decide_eq_true_2.
Qed.

Lemma enforce_body_again P cap a0 a a' :
  evicting P a0 a -> enforce_streams_body cap a = Again a' ->
  evicting P a0 a' /\ (enforce_measure a' < enforce_measure a)%nat.
Proof.
  intros Hv. unfold enforce_streams_body. destruct (cap <? live_count a); [|done].
  destruct (lru a) as [|[[[seen seq] i] g] rest] eqn:El; [done|].
  set (b := set_lru rest a). set (id := mkId i g).
  pose proof (lru_ok_pop P a seen seq i g rest El (ho_lru _ _ (vi_heaps _ _ _ Hv))) as Hpop.
  fold b id in Hpop.
  assert (enforce_measure a = lru_weight a (seen, seq, i, g) + enforce_measure b)%nat as Hm.
  { unfold enforce_measure. rewrite El. simpl. change (streams b) with (streams a).
    assert (weights b rest = weights a rest) as ->; [done|lia]. }
  pose proof (lru_weight_bounds a (seen, seq, i, g)) as Hw.
  destruct (ag_get b id) as [s|] eqn:Es.
  - destruct (children s) as [|c cs] eqn:Ec.
    + destruct (bool_decide ((last_seen s, created_seq s) = (seen, seq))) eqn:Eb; intros [= <-].
      * assert (store_ok b) as Hb by (apply store_ok_lru, Hv). split.
        -- eapply (evicting_evict P a0 a b); try done. exists (Some id).
           split_and!; [by right|done|]. destruct (ho_expiry _ _ (vi_heaps _ _ _ Hv)) as [E1 E2].
           split; [done|]. intros x t Hp Hx Hl _. by apply E2 with t.
        -- destruct (evict_ok b id s LruEvicted Hb Es Ec) as [Hev _].
           pose proof (streams_evicted _ _ _ _ _ Hev). pose proof (weights_evicted _ _ _ _ _ Hev).
           rewrite Hm. unfold enforce_measure. lia.
      * split.
        -- apply (evicting_lru P a0 a); [done|]. by apply (lru_ok_push P b).
        -- rewrite Hm. unfold enforce_measure. simpl. rewrite insert_by_Permutation. simpl.
           change (streams (push_lru _ _ _ _)) with (streams b).
           assert (forall l, weights (push_lru (last_seen s) (created_seq s) id b) l = weights b l) as -> by done.
           assert (lru_weight a (seen, seq, i, g) = 2%nat) as ->.
           { unfold lru_weight. simpl. change (ag_get a (mkId i g)) with (ag_get b id). rewrite Es.
             simpl in Eb |- *. by rewrite Eb. }
           assert (lru_weight (push_lru (last_seen s) (created_seq s) id b)
                     (last_seen s, created_seq s, i, g) = 1%nat) as ->; [|lia].
           unfold lru_weight. simpl. change (ag_get (push_lru _ _ _ _) (mkId i g)) with (ag_get b id).
           rewrite Es. by rewrite bool_decide_eq_true_2.
    + intros [= <-]. split; [|rewrite Hm; lia].
      apply (evicting_lru P a0 a); [done|]. apply (lru_ok_drop P id); [|done].
      intros t Ht. fold b in Ht. rewrite Es in Ht. injection Ht as <-. by rewrite Ec.
  - intros [= <-]. split; [|rewrite Hm; lia].
    apply (evicting_lru P a0 a); [done|]. apply (lru_ok_drop P id); [|done].
    intros t Ht. fold b in Ht. congruence.
Qed.

(** A nonempty forest has a leaf. *)
Lemma forest_leaf a id s :
  store_ok a -> ag_get a id = Some s -> exists x t, ag_get a x = Some t /\ children t = [].
Proof.
  intros Ha. pose proof (sk_forest _ Ha) as [[F1 F2 F3] [L1 L2 L3] _ _].
  remember (Z.to_nat (next_seq a - created_seq s)) as n eqn:En. revert id s En.
  induction n as [n IH] using lt_wf_ind. intros id s En Hs.
  destruct (children s) as [|c cs] eqn:Ec; [by eauto|].
  destruct (L2 id s c Hs) as (t & Ht & Hp). { rewrite Ec. apply elem_of_cons. by left. }
  destruct (L1 c t id Ht Hp) as (s' & Hs' & _ & Hlt). assert (s' = s) as -> by congruence.
  pose proof (F2 _ _ Ht). eapply (IH (Z.to_nat (next_seq a - created_seq t))); [lia|done|done].
Qed.

Lemma live_count_nonneg a : store_ok a -> live_count a = Z.of_nat (length (streams a)).
Proof. intros Ha. rewrite (co_live _ (sk_counts _ Ha)). apply sum_of_one. Qed.

Lemma no_leaf_empty P a :
  store_ok a -> heaps_ok P a -> is_live_policy (config a) = true -> lru a = [] -> live_count a = 0.
Proof.
  intros Ha Hh Hp Hl. rewrite live_count_nonneg by done.
  destruct (streams a) as [|s l] eqn:E; [done|exfalso].
  assert (s ∈ streams a) as Hin by (rewrite E; apply elem_of_cons; by left).
  apply elem_of_streams in Hin as [id Hs]. destruct (forest_leaf a id s Ha Hs) as (x & t & Ht & Hleaf).
  destruct (lo_cover _ _ _ (ho_lru _ _ Hh) x t Hp Ht Hleaf ltac:(done)) as (sn & _ & Hin).
  rewrite Hl in Hin. by apply elem_of_nil in Hin.
Qed.

Lemma enforce_loop P cap a :
  0 <= cap -> store_ok a -> heaps_ok P a -> is_live_policy (config a) = true ->
  exists a', loop (enforce_streams_body cap) (enforce_fuel a) a = Some a' /\ evicting P a a' /\
    live_count a' <= cap.
Proof.
  intros Hcap Hs Hh Hp. pose proof (evicting_refl P a Hs Hh) as H0.
  destruct (loop_total_inv (enforce_streams_body cap) (evicting P a) enforce_measure
    (enforce_fuel a) a) as [a' Ha']; [|done| |].
  { intros s1 s2 Hv Hb. by eapply enforce_body_again. }
  { unfold enforce_measure, enforce_fuel. pose proof (weights_bound a (lru a)). lia. }
  exists a'. split; [done|].
  destruct (loop_exit (enforce_streams_body cap) (evicting P a) (enforce_fuel a) a a') as (b & Hv & Hd); [|done..|].
  { intros s1 s2 Hv Hb. by eapply enforce_body_again. }
  unfold enforce_streams_body in Hd. destruct (cap <? live_count b) eqn:Ec.
  - destruct (lru b) as [|[[[seen seq] i] g] rest] eqn:El; [|repeat case_match; done].
    injection Hd as <-. split; [done|]. destruct (vi_frame _ _ _ Hv) as (Ecfg & _).
    rewrite (no_leaf_empty P b); [done|apply Hv|apply Hv| |done]. by rewrite Ecfg.
  - injection Hd as <-. split; [done|]. by apply Z.ltb_ge.
Qed.

(** In time order the evicted leaf is the least recently updated one. *)
Lemma enforce_pick_least a seen seq i g rest s x t :
  heaps_ok True a -> is_live_policy (config a) = true ->
  lru a = (seen, seq, i, g) :: rest -> (last_seen s, created_seq s) = (seen, seq) ->
  ag_get a x = Some t -> children t = [] ->
  last_seen s < last_seen t \/ (last_seen s = last_seen t /\ created_seq s <= created_seq t).
Proof.
  intros Hh Hp Hl [= <- <-] Ht Hleaf.
  destruct (lo_cover _ _ _ (ho_lru _ _ Hh) x t Hp Ht Hleaf ltac:(done)) as (sn & Hle & Hin).
  pose proof (lo_sorted _ _ _ (ho_lru _ _ Hh)) as Hsort. rewrite Hl in Hsort, Hin. specialize (Hle I).
  destruct (Sorted_by_head _ _ _ _ Hsort Hin) as [Heq|Hleb].
  - injection Heq as -> -> _ _. lia.
  - unfold lru_leb, lex_pair in Hleb. simpl in Hleb. apply andb_prop in Hleb as [Hleb _].
    apply andb_prop in Hleb as [Hleb _]. apply andb_prop in Hleb as [H1%Z.leb_le H2].
    apply orb_prop in H2 as [H2|H2%Z.leb_le]; [|lia]. apply negb_true_iff, Z.leb_gt in H2. lia.
Qed.

(** ** Rebuilding the LRU heap *)

Lemma compact_lru_eq a : exists l, compact_lru a = set_lru l a.
Proof.
  unfold compact_lru. destruct (_ <=? _); [by exists (lru a); destruct a|by eexists].
Qed.

Lemma compact_lru_ok P a : store_ok a -> heaps_ok P a -> evicting P a (compact_lru a).
Proof.
  intros Hs Hh. pose proof (evicting_refl P a Hs Hh) as Hv. unfold compact_lru.
  destruct (_ <=? _); [done|]. apply evicting_lru; [done|]. split.
  - apply sort_by_ord. apply _.
  - intros id s Hp Hg Hleaf _. exists (last_seen s). split; [done|]. simpl.
    apply elem_of_sort_by, list_elem_of_fmap. exists s.
    rewrite (fo_id _ _ (fo_ids _ _ _ _ (sk_forest _ Hs)) _ _ Hg). split; [done|].
    apply list_elem_of_filter. split; [done|]. apply elem_of_streams. by exists id.
Qed.
End Ok.
