(* ===== verification/Queries.v ===== *)
(** * Queries over the aggregator

    The read side of [crates/pktflow-flows/src/store.rs]: counts, per-protocol
    listings, the merged view of same-key nodes, the summary and the snapshot.
    Everything sorts explicitly, so no result depends on map order. *)

From S2P Require Import Prelude Values Bytes Types Contract Engine.
From S2P Require Import FlowKeys Rollups Unknowns Arena Store StoreInv.
From S2P Require Import StoreOps StoreCounts StoreKeys StoreHeaps.

Definition root_streams (a : Aggregator) : list Stream := omap (ag_get a) (roots a).

Definition child_streams (a : Aggregator) (id : StreamId) : list Stream :=
  omap (ag_get a) (from_option children [] (ag_get a id)).

Definition len (a : Aggregator) : Z := blen (streams a).
Definition is_empty (a : Aggregator) : bool := match streams a with [] => true | _ => false end.

Definition seq_leb : Stream -> Stream -> bool := key_leb created_seq Z.leb.

Definition at_layer (a : Aggregator) (proto : string) : list Stream :=
  sort_by seq_leb (filter (fun s => st_protocol s = proto) (streams a)).

Record MergedStreamView := mkMerged {
  mv_protocol : ProtocolName;
  mv_key : list Z;
  mv_key_fields : FieldMap.t;
  mv_stats : DirStats * DirStats;
  mv_first_seen : SystemTime;
  mv_last_seen : SystemTime;
  mv_nodes : list StreamId;
}.

Definition add_stats (s t : DirStats * DirStats) : DirStats * DirStats :=
  (mkStats (st_packets s.1 + st_packets t.1) (st_bytes s.1 + st_bytes t.1),
   mkStats (st_packets s.2 + st_packets t.2) (st_bytes s.2 + st_bytes t.2)).

Definition new_row (s : Stream) : MergedStreamView :=
  mkMerged (st_protocol s) (st_key s) (key_fields s) (stats s) (first_seen s) (last_seen s) [st_id s].

Definition grow_row (r : MergedStreamView) (s : Stream) : MergedStreamView :=
  mkMerged (mv_protocol r) (mv_key r) (mv_key_fields r) (add_stats (mv_stats r) (stats s))
    (Z.min (mv_first_seen r) (first_seen s)) (Z.max (mv_last_seen r) (last_seen s))
    (mv_nodes r ++ [st_id s]).

(** [rows.iter_mut().find(key)], updated, or a new row at the end. *)
Fixpoint merge_node (rows : list MergedStreamView) (s : Stream) : list MergedStreamView :=
  match rows with
  | [] => [new_row s]
  | r :: rows' =>
      if bool_decide (mv_key r = st_key s) then grow_row r s :: rows' else r :: merge_node rows' s
  end.

Definition at_layer_merged (a : Aggregator) (proto : string) : list MergedStreamView :=
  foldl merge_node [] (at_layer a proto).

Record ProtocolCounts := mkCounts {
  pc_protocol : ProtocolName;
  pc_ever : Z;
  pc_live : Z;
  pc_bytes : Z;
}.

Record AggregateSummary := mkSummary {
  sm_packets : Z;
  sm_bytes : Z;
  sm_streams_created : Z;
  sm_streams_live : Z;
  sm_flows_condensed : Z;
  sm_key_errors : Z;
  sm_per_protocol : list ProtocolCounts;
  sm_stop_classes : list (StopClass * Z);
}.

Definition STOP_CLASSES : list StopClass := [Clean; UnknownPayload; Malformed; Suspicious].

Definition stop_class_count (n : Z * Z * Z * Z) (c : StopClass) : Z :=
  let '(a, b, d, e) := n in
  match c with Clean => a | UnknownPayload => b | Malformed => d | Suspicious => e end.

Definition counts_leb : ProtocolCounts -> ProtocolCounts -> bool := key_leb pc_protocol str_leb.

Definition summary (a : Aggregator) : AggregateSummary := {|
  sm_packets := packets (totals a);
  sm_bytes := tot_bytes (totals a);
  sm_streams_created := streams_created (totals a);
  sm_streams_live := live_count a;
  sm_flows_condensed := flows_condensed (totals a);
  sm_key_errors := key_errors (totals a);
  sm_per_protocol := sort_by counts_leb
    ((fun e => mkCounts e.1 e.2 (default 0 (live_per_protocol a !! e.1))
                 (default 0 (live_bytes_per_protocol a !! e.1)))
       <$> map_to_list (created_per_protocol a));
  sm_stop_classes := (fun c => (c, stop_class_count (stop_classes a) c)) <$> STOP_CLASSES;
|}.

Record AggregatorSnapshot := mkSnapshot {
  sn_streams : list Stream;
  sn_roots : list StreamId;
  sn_summary : AggregateSummary;
  sn_clock : SystemTime;
  sn_unknowns : list UnknownGroup;
}.

Definition snapshot (a : Aggregator) : AggregatorSnapshot :=
  mkSnapshot (sort_by seq_leb (streams a)) (roots a) (summary a) (clock a) (registry_groups (unknowns a)).

#[export] Instance seq_leb_ord : TotalOrd seq_leb.
Proof. unfold seq_leb. apply _. Qed.
#[export] Instance counts_leb_ord : TotalOrd counts_leb.
Proof. unfold counts_leb. apply _. Qed.

(** ** The merged view *)

(** The row a list of same-key nodes should fold to. *)
Fixpoint sum_stats (l : list Stream) : DirStats * DirStats :=
  match l with
  | [] => (DirStats_default, DirStats_default)
  | s :: l' => add_stats (stats s) (sum_stats l')
  end.

(** [r] is exactly the row of the nodes of [l] with its key. *)
Definition row_of (l : list Stream) (r : MergedStreamView) : Prop :=
  let mine := filter (fun s => st_key s = mv_key r) l in
  mv_nodes r = st_id <$> mine /\ mine <> [] /\ mv_stats r = sum_stats mine /\
  mv_key_fields r = from_option key_fields FieldMap.new (head mine) /\
  (forall s, s ∈ mine -> mv_first_seen r <= first_seen s /\ last_seen s <= mv_last_seen r).

Lemma add_stats_default s : add_stats s (DirStats_default, DirStats_default) = s.
Proof. destruct s as [[p1 b1] [p2 b2]]. unfold add_stats. simpl. by rewrite !Z.add_0_r. Qed.

Lemma sum_stats_snoc l s : sum_stats (l ++ [s]) = add_stats (sum_stats l) (stats s).
Proof.
  induction l as [|t l IH]; simpl.
  - rewrite add_stats_default. unfold add_stats. simpl. by destruct (stats s) as [[??][??]].
  - rewrite IH. unfold add_stats. simpl. f_equal; f_equal; lia.
Qed.

Lemma merge_node_keys rows s :
  mv_key <$> merge_node rows s =
  (mv_key <$> rows) ++ (if decide (st_key s ∈ mv_key <$> rows) then [] else [st_key s]).
Proof.
  induction rows as [|r rows IH]; cbn [merge_node].
  - rewrite fmap_nil. destruct (decide (st_key s ∈ [])) as [Hd|]; [by apply elem_of_nil in Hd|done].
  - case_bool_decide as Hk; rewrite !fmap_cons.
    + rewrite decide_True; [by rewrite app_nil_r|]. rewrite <- Hk. apply elem_of_cons. by left.
    + rewrite IH. cbn [app]. f_equal. f_equal. apply decide_ext. rewrite elem_of_cons. split; [by right|].
      intros [Hq|]; [by rewrite Hq in Hk|done].
Qed.

Lemma row_of_other l s r : mv_key r <> st_key s -> row_of l r -> row_of (l ++ [s]) r.
Proof.
  intros Hk. unfold row_of. rewrite filter_app, filter_cons_False, filter_nil, app_nil_r; [done|congruence].
Qed.

Lemma row_of_grow l s r : mv_key r = st_key s -> row_of l r -> row_of (l ++ [s]) (grow_row r s).
Proof.
  intros Hk (H1 & H2 & H3 & H4 & H5). unfold row_of. simpl. rewrite filter_app, filter_cons_True, filter_nil by done.
  set (mine := filter _ l) in *. split_and!.
  - by rewrite H1, fmap_app.
  - by destruct mine.
  - by rewrite H3, sum_stats_snoc.
  - rewrite H4. by destruct mine.
  - intros t Ht. apply elem_of_app in Ht as [Ht|Ht%list_elem_of_singleton]; [apply H5 in Ht; lia|subst; lia].
Qed.

Lemma row_of_new l s : filter (fun t => st_key t = st_key s) l = [] -> row_of (l ++ [s]) (new_row s).
Proof.
  intros Hl. unfold row_of. simpl. rewrite filter_app, Hl, filter_cons_True, filter_nil by done. simpl.
  split_and!; try done; [by rewrite add_stats_default|].
  intros t ->%list_elem_of_singleton. lia.
Qed.

Lemma merge_node_rows l rows s :
  NoDup (mv_key <$> rows) -> Forall (row_of l) rows ->
  (st_key s ∉ mv_key <$> rows -> filter (fun t => st_key t = st_key s) l = []) ->
  Forall (row_of (l ++ [s])) (merge_node rows s).
Proof.
  induction rows as [|r rows IH]; simpl; intros Hnd Hr Hnew.
  - constructor; [|constructor]. apply row_of_new, Hnew. by intros ?%elem_of_nil.
  - apply NoDup_cons in Hnd as [Hn Hnd]. apply Forall_cons in Hr as [Hr Hrs].
    case_bool_decide as Hk; constructor.
    + by apply row_of_grow.
    + apply Forall_forall. intros q Hq. apply row_of_other; [|by eapply Forall_forall in Hrs].
      intros Hqk. apply Hn. rewrite Hk, <- Hqk. by apply list_elem_of_fmap_2.
    + by apply row_of_other.
    + apply IH; [done|done|]. intros Hni. apply Hnew. rewrite not_elem_of_cons. by split; [congruence|].
Qed.

Record merged (l : list Stream) (rows : list MergedStreamView) : Prop := {
  mg_keys : NoDup (mv_key <$> rows);
  mg_rows : Forall (row_of l) rows;
  mg_all : forall s, s ∈ l -> st_key s ∈ mv_key <$> rows;
}.

Lemma merge_node_merged l rows s : merged l rows -> merged (l ++ [s]) (merge_node rows s).
Proof.
  intros [H1 H2 H3]. split.
  - rewrite merge_node_keys. case_decide as Hd; [by rewrite app_nil_r|].
    apply NoDup_app. split_and!; [done| |apply NoDup_singleton].
    by intros k Hk ->%list_elem_of_singleton.
  - apply merge_node_rows; [done|done|]. intros Hni. destruct (filter _ l) as [|t f] eqn:Ef; [done|].
    assert (t ∈ filter (fun t => st_key t = st_key s) l) as Ht by (rewrite Ef; apply elem_of_cons; by left).
    apply list_elem_of_filter in Ht as [Hk Ht]. destruct Hni. rewrite <- Hk. by apply H3.
  - intros t Ht. rewrite merge_node_keys, elem_of_app. apply elem_of_app in Ht as [Ht|Ht%list_elem_of_singleton].
    + left. by apply H3.
    + subst. case_decide; [by left|right]. by apply list_elem_of_singleton.
Qed.

Lemma merge_nodes_merged l : merged l (foldl merge_node [] l).
Proof.
  induction l as [|s l IH] using rev_ind; [by split; [constructor|constructor|intros s ?%elem_of_nil]|].
  rewrite foldl_app. by apply merge_node_merged.
Qed.

(** The merged view of a protocol has one row per key, in which nothing is
    lost or counted twice: a row's nodes are the nodes of its key in creation
    order, its statistics their sums, its display fields those of the oldest, and
    its times span theirs; every node of the protocol is in a row. *)
Theorem at_layer_merged_spec a proto :
  NoDup (mv_key <$> at_layer_merged a proto) /\
  Forall (row_of (at_layer a proto)) (at_layer_merged a proto) /\
  (forall s, s ∈ streams a -> st_protocol s = proto ->
     exists r, r ∈ at_layer_merged a proto /\ mv_key r = st_key s /\ st_id s ∈ mv_nodes r) /\
  Sorted_by seq_leb (at_layer a proto) /\
  at_layer a proto ≡ₚ filter (fun s => st_protocol s = proto) (streams a).
Proof.
  destruct (merge_nodes_merged (at_layer a proto)) as [H1 H2 H3]. split_and!; [done|done| | |].
  - intros s Hs Hp. assert (s ∈ at_layer a proto) as Hin.
    { apply elem_of_sort_by, list_elem_of_filter. by split. }
    pose proof (H3 s Hin) as Hk. apply list_elem_of_fmap in Hk as (r & Hk & Hr). exists r.
    split_and!; [done|done|]. rewrite Forall_forall in H2. destruct (H2 r Hr) as (-> & _).
    apply list_elem_of_fmap_2, list_elem_of_filter. by split.
  - apply sort_by_ord. apply _.
  - apply sort_by_Permutation.
Qed.
