(* ===== verification/StoreIngest.v ===== *)
(** * The stream aggregator: ingest

    Every step of [ingest] keeps the invariants: creating streams and condensed
    nodes, folding into a node, updating the stream a layer resolves to, the
    sweep before and the cap after.  The state of the layer loop carries the
    live parent of the next layer. *)

From S2P Require Import Prelude Values Bytes Types Contract Engine.
From S2P Require Import FlowKeys Rollups Unknowns Arena Store StoreInv.
From S2P Require Import StoreOps StoreCounts StoreKeys StoreHeaps.

Section Ingest.
Context `{Hasher}.

(** ** Creating *)

Lemma created_leaf a a' id s x t' :
  created a a' id s -> ag_get a' x = Some t' -> children t' = [] -> x <> id ->
  exists t h, ag_get a x = Some t /\ t' = set_children h t /\ children t = [].
Proof.
  intros Hcr Hx Hleaf Hne. destruct (cr_others _ _ _ _ Hcr _ _ Hne Hx) as (t & h & Ht & ->).
  exists t, h. split_and!; [done|done|].
  destruct (gr_bwd _ _ _ _ (cr_grows _ _ _ _ Hcr) _ _ Hx Hne) as (t2 & Ht2 & _ & Hch).
  assert (t2 = t) as -> by congruence. case_decide; [|congruence].
  rewrite Hleaf in Hch. by destruct (children t).
Qed.

Lemma heaps_ok_created P a a' id s :
  created a a' id s -> last_seen s = first_seen s -> close_eligible_since s = None ->
  (P -> last_seen s <= clock a) -> heaps_ok P a -> heaps_ok P a'.
Proof.
  intros Hcr Hls Hsince Hle [[L1 L2] [E1 E2] Hs].
  destruct (cr_frame _ _ _ _ Hcr) as (_ & Ecfg & Eclk & _).
  pose proof (cr_expiry _ _ _ _ Hcr) as He. pose proof (cr_lru _ _ _ _ Hcr) as Hl.
  pose proof (gr_new _ _ _ _ (cr_grows _ _ _ _ Hcr)) as Hnew.
  assert (forall y e, y = e \/ y ∈ lru a -> is_live_policy (config a) = true ->
    e = (first_seen s, created_seq s, sid_index id, generation id) -> y ∈ lru a') as Hlin.
  { intros y e Hy Hp ->. rewrite Hl. unfold is_live_policy in Hp.
    destruct (eviction (config a)); [done|]. by apply elem_of_insert_by. }
  assert (forall y, y ∈ expiry a -> y ∈ expiry a') as Hein.
  { intros y Hy. rewrite He. destruct (eviction (config a)); [done|]. apply elem_of_insert_by. by right. }
  split.
  - split.
    + rewrite Hl. destruct (eviction (config a)); [done|]. apply insert_by_ord; [apply _|done].
    + rewrite Ecfg. intros x t' Hp Hx Hleaf Hne. destruct (decide (x = id)) as [->|Hxi].
      * rewrite Hnew in Hx. injection Hx as <-. exists (first_seen s). split; [by rewrite Hls|].
        eapply Hlin; [by left|done|done].
      * destruct (created_leaf _ _ _ _ _ _ Hcr Hx Hleaf Hxi) as (t & h & Ht & -> & Hch).
        destruct (L2 x t Hp Ht Hch Hne) as (sn & ? & ?). exists sn. split; [done|].
        eapply Hlin; [by right|done|done].
  - split.
    + rewrite He. destruct (eviction (config a)); [done|]. apply insert_by_ord; [apply _|done].
    + rewrite Ecfg. intros x t' Hp Hx Hleaf Hne. destruct (decide (x = id)) as [->|Hxi].
      * rewrite Hnew in Hx. injection Hx as <-. unfold deadline_of. rewrite Ecfg, Hnew.
        unfold is_live_policy in Hp. destruct (eviction (config a)) as [|idle linger cap]; [done|].
        simpl. rewrite Hsince, Hls. exists (first_seen s + idle), (first_seen s + idle).
        split_and!; [done|done|]. rewrite He. apply elem_of_insert_by. by left.
      * destruct (created_leaf _ _ _ _ _ _ Hcr Hx Hleaf Hxi) as (t & h & Ht & -> & Hch).
        rewrite (deadline_of_children a a' x t h Ecfg Ht Hx).
        destruct (E2 x t Hp Ht Hch Hne) as (d & dl & ? & ? & ?). exists d, dl. auto.
  - rewrite Eclk. intros HP x t' Hx. destruct (decide (x = id)) as [->|Hxi].
    + rewrite Hnew in Hx. injection Hx as <-. by apply Hle.
    + destruct (cr_others _ _ _ _ Hcr _ _ Hxi Hx) as (t & h & Ht & ->). simpl. by apply (Hs HP x).
Qed.

Lemma forest_ok_created a a' id s :
  created a a' id s -> forest_ok (ag_get a) (roots a) (index a) (next_seq a) ->
  forest_ok (ag_get a') (roots a') (index a') (next_seq a').
Proof.
  intros Hcr Hf. destruct (cr_seq _ _ _ _ Hcr) as [Hs ->].
  rewrite (cr_roots _ _ _ _ Hcr), (cr_index _ _ _ _ Hcr).
  eapply forest_ok_grows; [done|by apply cr_grows|done].
Qed.

(** What an operation inside the layer loop may change. *)
Record grown (P : Prop) (n : Z) (a0 a : Aggregator) : Prop := {
  gw_store : store_ok a;
  gw_heaps : heaps_ok P a;
  gw_frame : config a = config a0 /\ ag_engine a = ag_engine a0 /\ clock a = clock a0 /\
    stop_classes a = stop_classes a0 /\ unknowns a = unknowns a0 /\ emitted a = emitted a0 /\
    packets (totals a) = packets (totals a0) /\ tot_bytes (totals a) = tot_bytes (totals a0);
  gw_errors : key_errors (totals a0) <= key_errors (totals a);
  gw_steps : steps keeps_seq 0 (arena a0) (arena a);
  gw_blen : blen (slots (arena a)) <= blen (slots (arena a0)) + n;
  gw_live : forall x s, ag_get a0 x = Some s -> exists s', ag_get a x = Some s' /\ same_node s s';
}.

Lemma grown_refl P a : store_ok a -> heaps_ok P a -> grown P 0 a a.
Proof. intros. split; try done; [constructor|lia|eauto with store]. Qed.

Lemma grown_trans P n1 n2 a0 a1 a2 : grown P n1 a0 a1 -> grown P n2 a1 a2 -> grown P (n1 + n2) a0 a2.
Proof.
  intros G1 G2. pose proof (gw_frame _ _ _ _ G1) as (?&?&?&?&?&?&?&?).
  pose proof (gw_frame _ _ _ _ G2) as (?&?&?&?&?&?&?&?).
  pose proof (gw_errors _ _ _ _ G1). pose proof (gw_errors _ _ _ _ G2).
  pose proof (gw_blen _ _ _ _ G1). pose proof (gw_blen _ _ _ _ G2).
  split; [apply G2|apply G2|split_and!; congruence|lia| |lia|].
  - apply (steps_trans keeps_seq 0 0 _ (arena a1)); [apply G1|apply G2].
  - intros x s Hx. destruct (gw_live _ _ _ _ G1 _ _ Hx) as (s1 & Hs1 & N1).
    destruct (gw_live _ _ _ _ G2 _ _ Hs1) as (s2 & Hs2 & N2). exists s2. split; [done|]. by eapply same_node_trans.
Qed.

Lemma grown_weaken P n m a0 a : n <= m -> grown P n a0 a -> grown P m a0 a.
Proof. intros Hle [G1 G2 G3 G4 G5 G6 G7]. split; try done. lia. Qed.

Lemma created_live a a' id s x t : created a a' id s -> ag_get a x = Some t ->
  exists t', ag_get a' x = Some t' /\ same_node t t'.
Proof.
  intros Hcr Hx. destruct (gr_fwd _ _ _ _ (cr_grows _ _ _ _ Hcr) _ _ Hx) as (t' & Ht' & ? & _).
  by exists t'.
Qed.

(** An ordinary flow. *)
Lemma create_stream_ok P par k id l dir ts a :
  store_ok a -> heaps_ok P a -> blen (slots (arena a)) <= u32_max ->
  (forall p, par = Some p -> is_Some (ag_get a p)) -> (P -> ts <= clock a) ->
  (condensing (ag_engine a) (protocol l) -> tag_headed k) ->
  bucket_hit a (par, protocol l, key_hash k) k = None ->
  let '(a', n) := create_stream par k id None l dir ts a in
  grown P 1 a a' /\ key_errors (totals a') = key_errors (totals a) /\ ag_condense a' = ag_condense a /\
  exists s, ag_get a' n = Some s /\ parent s = par /\ st_protocol s = protocol l /\ st_key s = k /\
    condensed s = None /\ stats s = (DirStats_default, DirStats_default).
Proof.
  intros Hs Hh Hlen Hpar Hts Hhead Hmiss. unfold create_stream.
  pose proof (create_stream_raw_created par k (display_fields id (fields l)) (initial <$> lifecycle id)
    (new_rollups id (config a)) None dir (protocol l) ts a (sk_arena _ Hs) Hlen Hpar) as Hcr.
  destruct (create_stream_raw _ _ _ _ _ _ _ _ _ a) as [a' n]. cbv zeta in Hcr.
  set (s := mkStream n _ _ _ _ _ _ _ _ _ _ _ _ _ _ _ _ _) in Hcr.
  destruct (cr_frame _ _ _ _ Hcr) as (Ee & Ecfg & Eclk & Esc & Eun & Ecd & Eem).
  pose proof (cr_totals _ _ _ _ Hcr) as Et.
  assert (store_ok a') as Hs'.
  { destruct Hs as [K1 K2 K3 K4 K5]. split.
    - by rewrite Ee.
    - apply (cr_arena _ _ _ _ Hcr).
    - by eapply forest_ok_created.
    - rewrite Ee, Ecfg, Ecd. eapply keys_ok_grows; [apply (cr_grows _ _ _ _ Hcr)|done|done| |done].
      intros x t Ht Hp Hpr Hk. simpl in Hp, Hpr, Hk. unfold bucket_hit in Hmiss.
      assert (x ∈ default [] (index a !! (par, protocol l, key_hash k))) as Hin.
      { apply (fo_index _ _ (fo_idx _ _ _ _ K3)). exists t. by rewrite Hk. }
      pose proof (proj1 (find_first_None _ _) Hmiss x Hin) as Hf. simpl in Hf. rewrite Ht in Hf.
      by apply bool_decide_eq_false in Hf.
    - eapply counters_ok_created_flow; done. }
  split_and!.
  - split.
    + done.
    + by eapply heaps_ok_created.
    + rewrite Et. simpl. split_and!; try done; lia.
    + rewrite Et. simpl. lia.
    + apply (cr_steps _ _ _ _ Hcr).
    + apply (cr_arena _ _ _ _ Hcr).
    + intros x t. by eapply created_live.
  - rewrite Et. simpl. lia.
  - done.
  - exists s. split_and!; try done. apply (gr_new _ _ _ _ (cr_grows _ _ _ _ Hcr)).
Qed.

(** ** Condensation *)

Lemma group_threshold a k g : store_ok a -> ag_condense a !! k = Some g -> condense_threshold (config a) <> 0.
Proof. intros Ha Hk Hz. by rewrite (ko_off _ _ _ _ (sk_keys _ Ha) Hz) in Hk. Qed.

(** The live condensed node [n] of the group [(par, proto, anc)]. *)
Definition group_node (a : Aggregator) (par : option StreamId) (proto : ProtocolName) (anc : list Z)
    (n : StreamId) : Prop :=
  (exists s i, ag_get a n = Some s /\ condensed s = Some i /\ parent s = par /\ st_protocol s = proto /\
     st_key s = CONDENSED_KEY_SENTINEL :: anc) /\
  exists g, ag_condense a !! (par, proto, anc) = Some g /\ node g = Some n.

Lemma condensed_node_ok P par proto id c g ts a :
  store_ok a -> heaps_ok P a -> blen (slots (arena a)) <= u32_max ->
  (forall p, par = Some p -> is_Some (ag_get a p)) -> (P -> ts <= clock a) ->
  ag_condense a !! (par, proto, anchor c) = Some g ->
  let '(a', n) := condensed_node par proto id c g ts a in
  grown P 1 a a' /\ key_errors (totals a') = key_errors (totals a) /\
  group_node a' par proto (anchor c) n.
Proof.
  intros Hs Hh Hlen Hpar Hts Hg. unfold condensed_node.
  destruct (ko_group _ _ _ _ (sk_keys _ Hs) _ _ _ _ Hg) as [Hco Hnode].
  destruct (node g) as [n|] eqn:En; cbn [mbind option_bind].
  { destruct (Hnode n eq_refl) as (s & Hn & Hc & Hp & Hpr & Hk). rewrite Hn. cbn [mbind option_bind]. split_and!.
    - apply (grown_weaken P 0); [lia|by apply grown_refl].
    - done.
    - split; [|by exists g]. destruct (condensed s) as [i|] eqn:Ei; [|done]. by exists s, i. }
  pose proof (create_stream_raw_created par (CONDENSED_KEY_SENTINEL :: anchor c)
    (FieldMap.insert (anchor_field c) (anchor_value c) FieldMap.new) None (new_rollups id (config a))
    (Some (mkCondensed 0 (anchor_field c) false)) (fold_dir c) proto ts a (sk_arena _ Hs) Hlen Hpar) as Hcr.
  destruct (create_stream_raw _ _ _ _ _ _ _ _ _ a) as [a' n]. cbv zeta in Hcr |- *.
  set (s := mkStream n _ _ _ _ _ _ _ _ _ _ _ _ _ _ _ _ _) in Hcr.
  destruct (cr_frame _ _ _ _ Hcr) as (Ee & Ecfg & Eclk & Esc & Eun & Ecd & Eem).
  pose proof (cr_totals _ _ _ _ Hcr) as Et. pose proof (gr_new _ _ _ _ (cr_grows _ _ _ _ Hcr)) as Hnew.
  set (m' := alter _ (par, proto, anchor c) _).
  assert (m' = <[(par, proto, anchor c) := mkCGroup (expanded g) (Some n) (members g)]> (ag_condense a)) as Hm.
  { unfold m'. simpl. rewrite Ecd. apply map_eq. intros k. rewrite lookup_alter, lookup_insert.
    case_decide; subst; [|done]. by rewrite Hg. }
  set (b := set_condense m' _).
  assert (forall x, ag_get b x = ag_get a' x) as Hgb by done.
  assert (heaps_ok P a') as Hh' by by eapply heaps_ok_created.
  assert (store_ok b) as Hb.
  { destruct Hs as [K1 K2 K3 K4 K5]. split.
    - change (engine_wf (ag_engine a')). by rewrite Ee.
    - apply (cr_arena _ _ _ _ Hcr).
    - by apply (forest_ok_created a a' n s).
    - change (keys_ok (ag_engine a') (config a') (ag_get a') m'). rewrite Ee, Ecfg, Hm.
      by eapply (keys_ok_grows_node _ _ _ _ n s); [apply (cr_grows _ _ _ _ Hcr)|..].
    - unfold b. simpl. by eapply (counters_ok_created_node a a' n s). }
  split_and!.
  - split; try done.
    + by destruct Hh' as [[L1 L2] [E1 E2] H3].
    + simpl. rewrite Et. simpl. split_and!; try done; lia.
    + simpl. rewrite Et. simpl. lia.
    + apply (cr_steps _ _ _ _ Hcr).
    + apply (cr_arena _ _ _ _ Hcr).
    + intros x t. rewrite Hgb. by eapply created_live.
  - simpl. rewrite Et. simpl. lia.
  - split; [eexists s, _; by rewrite Hgb|].
    eexists. simpl. rewrite Hm, lookup_insert, decide_True by done. done.
Qed.

(** Shape-preserving updates of one stream. *)
Lemma shape_map_modify a id f :
  (forall s, ag_get a id = Some s -> same_shape s (f s)) -> shape_map (ag_get a) (ag_get (modify id f a)).
Proof.
  intros Hf x. rewrite ag_get_modify. case_decide as Hd; subst.
  - destruct (ag_get a id) as [s|]; simpl; constructor. by apply Hf.
  - destruct (ag_get a x); constructor. apply same_shape_refl.
Qed.

Lemma store_ok_modify a id f :
  (forall s, ag_get a id = Some s -> same_shape s (f s)) -> counters_ok (modify id f a) ->
  store_ok a -> store_ok (modify id f a).
Proof.
  intros Hf Hc [K1 K2 K3 K4 K5]. pose proof (shape_map_modify a id f Hf) as Hx. split; try done.
  - by apply get_mut_ok.
  - by eapply forest_ok_shape.
  - by eapply keys_ok_shape.
Qed.

(** Updates that touch neither the heaps' keys nor the links. *)
Lemma heaps_ok_modify P a id f :
  (forall s, children (f s) = children s /\ created_seq (f s) = created_seq s /\
     last_seen (f s) = last_seen s /\ close_eligible_since (f s) = close_eligible_since s) ->
  heaps_ok P a -> heaps_ok P (modify id f a).
Proof.
  intros Hf [[L1 L2] [E1 E2] H3].
  assert (forall x t', ag_get (modify id f a) x = Some t' -> exists t, ag_get a x = Some t /\
    children t' = children t /\ created_seq t' = created_seq t /\ last_seen t' = last_seen t /\
    close_eligible_since t' = close_eligible_since t) as Hb.
  { intros x t'. rewrite ag_get_modify. case_decide as Hd; subst; [|intros Ht; by exists t'].
    destruct (ag_get a id) as [t|]; [|done]. intros [= <-]. exists t. split; [done|]. apply Hf. }
  split; [split; [done|]|split; [done|]|].
  - intros x t' Hp Hx Hl Hne. destruct (Hb _ _ Hx) as (t & Ht & Hc & -> & -> & _). rewrite Hc in Hl.
    by apply (L2 x t).
  - intros x t' Hp Hx Hl Hne. destruct (Hb _ _ Hx) as (t & Ht & Hc & Hsq & Hls & Hcs). rewrite Hc in Hl.
    destruct (E2 x t Hp Ht Hl Hne) as (d & dl & Hd & Hdl). exists d, dl. split; [|done].
    rewrite <- Hd. unfold deadline_of. change (config (modify id f a)) with (config a).
    destruct (eviction (config a)); [done|]. rewrite Hx, Ht. simpl. by rewrite Hls, Hcs.
  - intros HP x t' Hx. destruct (Hb _ _ Hx) as (t & Ht & _ & _ & -> & _). by apply (H3 HP x).
Qed.

Lemma modify_live a id f x s :
  (forall t, same_node t (f t)) -> ag_get a x = Some s ->
  exists s', ag_get (modify id f a) x = Some s' /\ same_node s s'.
Proof.
  intros Hf Hs. rewrite ag_get_modify. case_decide as Hd; subst; [|by exists s].
  rewrite Hs. simpl. exists (f s). by split; [|apply Hf].
Qed.

Lemma store_ok_groups a m :
  condense_threshold (config a) <> 0 -> same_nodes (ag_engine a) (ag_condense a) m ->
  store_ok a -> store_ok (set_condense m a).
Proof.
  intros Hc Hm [K1 K2 K3 K4 K5]. split; try done.
  - by apply (keys_ok_same_nodes _ _ _ (ag_condense a)).
  - by apply (counters_ok_frame a).
Qed.

Lemma grown_groups P a m :
  condense_threshold (config a) <> 0 -> same_nodes (ag_engine a) (ag_condense a) m ->
  store_ok a -> heaps_ok P a -> grown P 0 a (set_condense m a).
Proof.
  intros Hc Hm Hs Hh. split; try done.
  - by apply store_ok_groups.
  - by destruct Hh as [[L1 L2] [E1 E2] H3].
  - constructor.
  - simpl. lia.
  - intros x s Hx. by exists s.
Qed.

(** Members join a standing node: [created] counters and the node move together. *)
Lemma join_member_ok P a id s i g :
  store_ok a -> heaps_ok P a -> ag_get a id = Some s -> condensed s = Some i ->
  grown P 0 a (modify id (set_condensed (fun i => mkCondensed (member_flows i + 1) (ephemeral_field i) (g i)))
    (set_created_per_protocol (bump (st_protocol s) 1 (created_per_protocol a))
       (set_totals (add_totals 0 0 1 1 0 (totals a)) a))).
Proof.
  intros Hs Hh Hg Hi. set (b := set_created_per_protocol _ _).
  assert (heaps_ok P b) as Hhb by (by destruct Hh as [[L1 L2] [E1 E2] H3]).
  assert (shape_map (ag_get a) (ag_get (modify id (set_condensed (fun i =>
    mkCondensed (member_flows i + 1) (ephemeral_field i) (g i))) b))) as Hx.
  { apply (shape_map_modify b). intros t _. split; [|done]. split_and!; try done. simpl.
    by destruct (condensed t). }
  split.
  - pose proof Hs as [K1 K2 K3 K4 K5]. split.
    + done.
    + by apply get_mut_ok.
    + by eapply forest_ok_shape.
    + by eapply keys_ok_shape.
    + by eapply (counters_ok_member a id s i).
  - by apply heaps_ok_modify.
  - simpl. split_and!; try done; lia.
  - simpl. lia.
  - simpl. apply steps_get_mut; [apply steps_refl|]. done.
  - simpl. rewrite blen_slots_get_mut. lia.
  - intros x t Hxt. apply (modify_live b); [|done]. auto with store.
Qed.

Lemma join_flag_ok P a id f :
  (forall i, member_flows (f i) = member_flows i) ->
  store_ok a -> heaps_ok P a -> grown P 0 a (modify id (set_condensed f) a).
Proof.
  intros Hf Hs Hh. split; try done.
  - apply store_ok_modify; [|apply counters_ok_inert|done]; try done.
    + intros s _. split; [|done]. split_and!; try done. simpl. by destruct (condensed s).
    + intros s. unfold flows_of. simpl. destruct (condensed s); simpl; by rewrite ?Hf.
    + intros s. unfold members_of. simpl. destruct (condensed s); simpl; by rewrite ?Hf.
    + apply (sk_counts _ Hs).
  - by apply heaps_ok_modify.
  - simpl. apply steps_get_mut; [apply steps_refl|]. done.
  - simpl. rewrite blen_slots_get_mut. lia.
  - intros x t. apply modify_live. auto with store.
Qed.

Lemma group_node_modify a b par proto anc n f :
  ag_condense b = ag_condense a -> (forall x, ag_get b x = ag_get a x) ->
  group_node a par proto anc n -> group_node (modify n (set_condensed f) b) par proto anc n.
Proof.
  intros Hc Hg [(s & i & Hs & Hi & Hp & Hpr & Hk) Hgr]. split; [|simpl; by rewrite Hc].
  exists (set_condensed f s), (f i). rewrite ag_get_modify, decide_True, Hg, Hs by done. simpl.
  by rewrite Hi.
Qed.

Lemma join_group_ok P par proto anc digest n a :
  store_ok a -> heaps_ok P a -> group_node a par proto anc n ->
  let a' := join_group proto (par, proto, anc) digest n a in
  grown P 0 a a' /\ key_errors (totals a') = key_errors (totals a) /\ group_node a' par proto anc n.
Proof.
  intros Hs Hh Hn. pose proof Hn as [(s & i & Hgs & Hi & Hp & Hpr & Hk) (g & Hg & Hnode)].
  cbv zeta. unfold join_group. rewrite Hg.
  set (room := _ <? CONDENSE_MEMBER_CAP). set (known := bool_decide (digest ∈ members g)).
  set (m := <[(par, proto, anc) := mkCGroup (expanded g) (node g) ({[digest]} ∪ members g)]> (ag_condense a)).
  assert (grown P 0 a (set_condense m a)) as Hgm.
  { apply grown_groups; [by eapply group_threshold| |done|done]. apply same_nodes_insert. left. by exists g. }
  assert (group_node (set_condense m a) par proto anc n) as Hnm.
  { split; [by exists s, i|]. eexists. simpl. unfold m. by rewrite lookup_insert, decide_True. }
  destruct room, known; simpl.
  - done.
  - split_and!.
    + apply (grown_trans P 0 0 a (set_condense m a)); [done|]. rewrite <- Hpr.
      by apply (join_member_ok P (set_condense m a) n s i (fun i => ci_overflow i || false));
        [apply Hgm|apply Hgm|..].
    + lia.
    + by apply (group_node_modify (set_condense m a)).
  - split_and!; [by apply grown_refl|done|done].
  - split_and!; [|done|by apply (group_node_modify a)]. by apply join_flag_ok.
Qed.

(** What a layer resolves to. *)
Definition resolved (P : Prop) (a a' : Aggregator) (par : option StreamId) (proto : ProtocolName)
    (k : list Z) (dir : PacketDirection) (n : StreamId) (d : PacketDirection) : Prop :=
  grown P 1 a a' /\ key_errors (totals a') = key_errors (totals a) /\
  exists s, ag_get a' n = Some s /\ parent s = par /\ st_protocol s = proto /\
    (condensed s = None -> st_key s = k /\ d = dir).

Lemma condense_fold_ok P par proto id c ts a a' n d k dir :
  store_ok a -> heaps_ok P a -> blen (slots (arena a)) <= u32_max ->
  (forall p, par = Some p -> is_Some (ag_get a p)) -> (P -> ts <= clock a) ->
  condense_fold par proto id c ts a = Some (a', (n, d)) ->
  resolved P a a' par proto k dir n d /\ group_node a' par proto (anchor c) n /\ d = fold_dir c.
Proof.
  intros Hs Hh Hlen Hpar Hts. unfold condense_fold.
  destruct (ag_condense a !! (par, proto, anchor c)) as [g|] eqn:Hg; [|done]. cbn [mbind option_bind].
  destruct (bool_decide _ && _); [done|].
  pose proof (condensed_node_ok P par proto id c g ts a Hs Hh Hlen Hpar Hts Hg) as Hc.
  destruct (condensed_node par proto id c g ts a) as [a1 n1]. destruct Hc as (G1 & E1 & N1).
  intros [= <- <- <-].
  destruct (join_group_ok P par proto (anchor c) (varying_digest c) n1 a1) as (G2 & E2 & N2);
    [apply G1|apply G1|done|].
  split_and!; [|done|done]. split_and!.
  - by apply (grown_trans P 1 0 a a1).
  - congruence.
  - destruct N2 as [(s & i & ? & Hi & ? & ? & _) _]. exists s. by rewrite Hi.
Qed.

Lemma fold_first_ok P par proto id cs ts a a' n d k dir :
  store_ok a -> heaps_ok P a -> blen (slots (arena a)) <= u32_max ->
  (forall p, par = Some p -> is_Some (ag_get a p)) -> (P -> ts <= clock a) ->
  fold_first par proto id cs ts a = Some (a', (n, d)) ->
  resolved P a a' par proto k dir n d.
Proof.
  intros Hs Hh Hlen Hpar Hts. induction cs as [|c cs IH]; [done|]. simpl.
  destruct (condense_fold par proto id c ts a) as [[a1 [n1 d1]]|] eqn:E; [|by apply IH].
  intros [= -> -> ->]. by eapply condense_fold_ok.
Qed.

Lemma get_or_insert_ok P par k id cond l dir ts a a' n d :
  store_ok a -> heaps_ok P a -> blen (slots (arena a)) <= u32_max ->
  (forall p, par = Some p -> is_Some (ag_get a p)) -> (P -> ts <= clock a) ->
  (condensing (ag_engine a) (protocol l) -> tag_headed k) ->
  (cond <> None -> condensing (ag_engine a) (protocol l)) ->
  get_or_insert par k id cond l dir ts a = (a', (n, d)) ->
  resolved P a a' par (protocol l) k dir n d.
Proof.
  intros Hs Hh Hlen Hpar Hts Hhead Hcond. unfold get_or_insert.
  destruct (bucket_hit a (par, protocol l, key_hash k) k) as [n0|] eqn:Hb.
  - intros [= <- <- <-]. apply find_first_Some in Hb as [Hin Hk].
    apply (fo_index _ _ (fo_idx _ _ _ _ (sk_forest _ Hs))) in Hin as (s & Hgs & Hp & Hpr & _).
    rewrite Hgs in Hk. apply bool_decide_eq_true in Hk. split_and!.
    + apply (grown_weaken P 0); [lia|by apply grown_refl].
    + done.
    + by exists s.
  - pose proof (create_stream_ok P par k id l dir ts a Hs Hh Hlen Hpar Hts Hhead Hb) as Hc.
    assert (forall a1 n1, create_stream par k id None l dir ts a = (a1, n1) -> resolved P a a1 par (protocol l) k dir n1 dir)
      as Hplain.
    { intros a1 n1 E. rewrite E in Hc. destruct Hc as (G & Ek & Ec & s & ? & ? & ? & ? & ? & ?).
      split_and!; [done|done|]. by exists s. }
    destruct (spec ← cond; if 0 <? condense_threshold (config a) then _ else None) as [cs|] eqn:Ecs.
    + destruct (fold_first par (protocol l) id cs ts a) as [[a1 [n1 d1]]|] eqn:Ef.
      * intros [= <- <- <-]. by eapply fold_first_ok.
      * destruct (create_stream _ _ _ _ _ _ _ _) as [a1 n1]. intros [= <- <- <-].
        destruct (Hplain a1 n1 eq_refl) as (G & Ek & s & Hgs & Hps).
        assert (condense_threshold (config a) <> 0 /\ condensing (ag_engine a) (protocol l)) as [Hnz Hco].
        { destruct cond as [spec|]; [|done]. cbn [mbind option_bind] in Ecs.
          destruct (Z.ltb_spec 0 (condense_threshold (config a))); [|done]. split; [lia|by apply Hcond]. }
        pose proof (gw_frame _ _ _ _ G) as (Ecfg & Ee & _).
        split_and!; [|done|by exists s].
        apply (grown_trans P 1 0 a a1); [done|]. apply grown_groups; [by rewrite Ecfg| |apply G|apply G].
        apply same_nodes_tally. by rewrite Ee.
    + destruct (create_stream _ _ _ _ _ _ _ _) as [a1 n1]. intros [= <- <- <-]. by apply Hplain.
Qed.

(** ** Updating the resolved stream *)

Lemma touch_spec id m dir ts n s :
  let s' := (touch id m dir ts n s).1 in
  same_shape s s' /\ condensed s' = condensed s /\ last_seen s' = ts /\ first_seen s' = first_seen s /\
  opaque_bytes s' = opaque_bytes s /\
  stats s' = upd_stats dir (fun d => mkStats (st_packets d + 1) (st_bytes d + n)) (stats s) /\
  (close_eligible_since s' = close_eligible_since s \/ close_eligible_since s' = None \/
   (close_eligible_since s' = Some ts /\ (touch id m dir ts n s).2 = true)).
Proof.
  unfold touch. destruct (lifecycle id) as [spec|]; [destruct (state s) as [cur|]|];
    [|split_and!; try done; by left..].
  set (nxt := advance _ _ _ _). destruct (bool_decide (nxt ∈ closed_states spec)); simpl;
    [destruct (close_eligible s)|]; simpl; (split_and!; try done); auto.
Qed.

Lemma stream_bytes_upd dir n s s' :
  stats s' = upd_stats dir (fun d => mkStats (st_packets d + 1) (st_bytes d + n)) (stats s) ->
  stream_bytes s' = stream_bytes s + n.
Proof. unfold stream_bytes. intros ->. destruct dir; simpl; lia. Qed.

(** The expiry entry of a lifecycle that just entered a closed state. *)
Definition push_linger (became : bool) (ts : SystemTime) (id : StreamId) (a : Aggregator) : Aggregator :=
  if became then match eviction (config a) with
                 | EvictLive _ close_linger _ =>
                     push_expiry (ts + close_linger) id (check_time (ts + close_linger) a)
                 | EvictNone => a
                 end
  else a.

Lemma push_linger_eq became ts id a :
  exists e v, push_linger became ts id a = set_expiry e (set_overflowed v a).
Proof.
  assert (a = set_expiry (expiry a) (set_overflowed (ag_overflowed a) a)) as Hsame by by destruct a.
  unfold push_linger. destruct became; [|by eexists _, _].
  destruct (eviction (config a)); [by eexists _, _|]. by exists (expiry (push_expiry (ts + close_linger) id a)),
    (ag_overflowed (check_time (ts + close_linger) a)).
Qed.

Lemma push_linger_keeps became ts id a y : y ∈ expiry a -> y ∈ expiry (push_linger became ts id a).
Proof.
  intros Hy. unfold push_linger. destruct became; [|done]. destruct (eviction (config a)); [done|].
  apply elem_of_insert_by. by right.
Qed.

Lemma heaps_ok_touch P a id s ident m dir ts n :
  heaps_ok P a -> ag_get a id = Some s -> (P -> ts = clock a) ->
  heaps_ok P (push_linger (touch ident m dir ts n s).2 ts id
    (modify id (fun s => (touch ident m dir ts n s).1) a)).
Proof.
  intros [[L1 L2] [E1 E2] H3] Hs Hts. set (b := modify id _ a). set (became := (touch _ _ _ _ _ s).2).
  pose proof (touch_spec ident m dir ts n s) as Ht. cbv zeta in Ht. fold became in Ht.
  set (s' := (touch ident m dir ts n s).1) in Ht.
  destruct Ht as (((Hid & Hpr & Hk & Hpa & Hsq & Hcd) & Hch) & _ & Hls & _ & _ & _ & Hsince).
  assert (forall x, ag_get b x = if decide (x = id) then Some s' else ag_get a x) as Hgb.
  { intros x. unfold b. rewrite ag_get_modify. case_decide; [by rewrite Hs|done]. }
  assert (P -> last_seen s <= ts) as Hmono by (intros HP; rewrite Hts by done; by apply (H3 HP id)).
  destruct (push_linger_eq became ts id b) as (e & v & He).
  assert (config (push_linger became ts id b) = config a /\ clock (push_linger became ts id b) = clock a /\
    lru (push_linger became ts id b) = lru a /\
    forall x, ag_get (push_linger became ts id b) x = ag_get b x) as (Ecfg & Eclk & El & Eg) by by rewrite He.
  split.
  - split; [by rewrite El|]. rewrite Ecfg, El. intros x t Hp Hx Hl Hne. rewrite Eg, Hgb in Hx.
    case_decide as Hd; [|by eapply L2]. subst x. injection Hx as <-. rewrite Hch in Hl.
    destruct (L2 id s Hp Hs Hl Hne) as (sn & Hle & Hin). exists sn. rewrite Hsq, Hls. split; [|done].
    intros HP. specialize (Hle HP). specialize (Hmono HP). lia.
  - split.
    + unfold push_linger. destruct became; [|done]. destruct (eviction (config b)); [done|].
      apply insert_by_ord; [apply _|done].
    + rewrite Ecfg. intros x t Hp Hx Hl Hne.
      rewrite (deadline_of_eq b) by (by rewrite ?Ecfg, ?Eg). rewrite Eg, Hgb in Hx. case_decide as Hd.
      2: { rewrite (deadline_of_eq a b x) by (by rewrite ?Hgb, ?decide_False).
           destruct (E2 x t Hp Hx Hl Hne) as (d & dl & ? & ? & ?). exists d, dl.
           split_and!; [done|done|by apply push_linger_keeps]. }
      subst x. injection Hx as <-. rewrite Hch in Hl.
      destruct (E2 id s Hp Hs Hl Hne) as (d & dl & Hdl & Hle & Hin).
      unfold deadline_of in Hdl |- *. change (config b) with (config a). rewrite Hgb, decide_True by done.
      unfold is_live_policy in Hp. destruct (eviction (config a)) as [|it linger cap] eqn:Ev; [done|].
      rewrite Hs in Hdl. cbn [mbind option_bind] in Hdl |- *. rewrite Hls. injection Hdl as Hdl.
      assert (forall dl', (P -> dl <= dl') -> exists d0 dl0, Some dl' = Some dl0 /\ (P -> d0 <= dl0) /\
        (d0, sid_index id, generation id) ∈ expiry (push_linger became ts id b)) as Hold.
      { intros dl' Hdl'. exists d, dl'. split_and!; [done| |by apply push_linger_keeps].
        intros HP. specialize (Hle HP). specialize (Hdl' HP). lia. }
      destruct Hsince as [-> |[-> |[-> Hbe]]].
      * apply Hold. intros HP. specialize (Hmono HP). destruct (close_eligible_since s); lia.
      * apply Hold. intros HP. specialize (Hmono HP). destruct (close_eligible_since s); lia.
      * destruct (Z.le_gt_cases it linger).
        -- apply Hold. intros HP. specialize (Hmono HP). destruct (close_eligible_since s); lia.
        -- exists (ts + linger), (Z.min (ts + it) (ts + linger)). split_and!; [done|lia|].
           unfold push_linger. rewrite Hbe. change (config b) with (config a). rewrite Ev.
           apply elem_of_insert_by. by left.
  - rewrite Eclk. intros HP x t Hx. rewrite Eg, Hgb in Hx. case_decide; [|by eapply H3].
    injection Hx as <-. rewrite Hls, Hts by done. lia.
Qed.

(** The second half of [ingest_layer]: the packet enters its stream. *)
Definition deliver (ident : StreamIdentity) (m : FieldMap.t) (dir : PacketDirection) (ts : SystemTime)
    (n : Z) (proto : ProtocolName) (id : StreamId) (s : Stream) (a : Aggregator) : Aggregator :=
  push_linger (touch ident m dir ts n s).2 ts id
    (modify id (fun s => (touch ident m dir ts n s).1)
       (set_live_bytes_per_protocol (bump proto n (live_bytes_per_protocol a)) a)).

Lemma deliver_ok P a id s ident m dir ts n :
  store_ok a -> heaps_ok P a -> ag_get a id = Some s -> (P -> ts = clock a) -> 0 <= n ->
  let a' := deliver ident m dir ts n (st_protocol s) id s a in
  grown P 0 a a' /\ key_errors (totals a') = key_errors (totals a) /\
  ag_get a' id = Some (touch ident m dir ts n s).1.
Proof.
  intros Hs Hh Hg Hts Hn. cbv zeta. unfold deliver. set (b := set_live_bytes_per_protocol _ a).
  set (f := fun s => (touch ident m dir ts n s).1). set (c := modify id f b).
  pose proof (fun s => touch_spec ident m dir ts n s) as Hf. cbv zeta in Hf.
  assert (heaps_ok P b) as Hhb by (by destruct Hh as [[L1 L2] [E1 E2] H3]).
  assert (shape_map (ag_get a) (ag_get c)) as Hx.
  { apply (shape_map_modify b). intros t _. by destruct (Hf t) as (? & _). }
  assert (store_ok c) as Hc.
  { pose proof Hs as [K1 K2 K3 K4 K5]. split.
    - done.
    - by apply get_mut_ok.
    - by eapply forest_ok_shape.
    - by eapply keys_ok_shape.
    - unfold c, b. destruct (Hf s) as (((_ & Hpr & _) & _) & Hcd & _ & _ & _ & Hst & _).
      apply (counters_ok_bytes a id s f n); try done. by apply stream_bytes_upd with dir. }
  destruct (push_linger_eq (touch ident m dir ts n s).2 ts id c) as (e & v & He).
  split_and!.
  - split.
    + rewrite He. by apply store_ok_expiry, store_ok_overflowed.
    + by apply heaps_ok_touch.
    + by rewrite He.
    + rewrite He. simpl. lia.
    + rewrite He. simpl. apply steps_get_mut; [apply steps_refl|].
      intros t. by destruct (Hf t) as (((_ & _ & _ & _ & ? & _) & _) & _).
    + rewrite He. simpl. rewrite blen_slots_get_mut. lia.
    + intros x t Hxt. rewrite He. apply (modify_live b); [|done].
      intros t'. by destruct (Hf t') as ((? & _) & _).
  - by rewrite He.
  - rewrite He. change (ag_get c id = Some (f s)). unfold c. rewrite ag_get_modify, decide_True by done.
    change (ag_get b id) with (ag_get a id). by rewrite Hg.
Qed.

(** ** The layer loop *)

Record layer_ok (P : Prop) (n : Z) (a0 : Aggregator) (st : IngestState) : Prop := {
  ly_grown : grown P n a0 (is_agg st);
  ly_parent : forall p, is_parent st = Some p -> is_Some (ag_get (is_agg st) p);
}.

(** The stream identity of a layer, if its plugin has one. *)
Definition layer_identity (e : Engine) (l : LayerRecord) : option (LayerPlugin * StreamIdentity) :=
  p ← plugin_by_name e (protocol l); ident ← stream_identity p; Some (p, ident).

(** The layer's flow key, when it has an identity. *)
Definition layer_key (e : Engine) (l : LayerRecord) : option (result (FlowKey * PacketDirection) KeyError) :=
  '(_, ident) ← layer_identity e l; Some (flow_key ident (fields l)).

Lemma ingest_layer_bridge ts n st l :
  layer_key (ag_engine (is_agg st)) l = None -> ingest_layer ts n st l = st.
Proof.
  unfold layer_key, layer_identity, ingest_layer. cbv zeta. destruct (plugin_by_name _ _) as [p|]; [|done].
  cbn [mbind option_bind]. by destruct (stream_identity p).
Qed.

Lemma ingest_layer_error ts n st l e :
  layer_key (ag_engine (is_agg st)) l = Some (Error e) ->
  ingest_layer ts n st l =
    mkIngest (set_totals (add_totals 0 0 0 0 1 (totals (is_agg st))) (is_agg st)) (is_parent st) (is_endpoint st).
Proof.
  unfold layer_key, layer_identity, ingest_layer. cbv zeta. destruct (plugin_by_name _ _) as [p|]; [|done].
  cbn [mbind option_bind]. destruct (stream_identity p); [|done]. cbn [mbind option_bind]. by intros [= ->].
Qed.

Lemma condensing_headed a p ident l k dir :
  engine_wf (ag_engine a) -> layer_identity (ag_engine a) l = Some (p, ident) ->
  flow_key ident (fields l) = Ok (k, dir) ->
  (condensing (ag_engine a) (protocol l) -> tag_headed k) /\
  (condense p <> None -> condensing (ag_engine a) (protocol l)).
Proof.
  unfold layer_identity. intros Hwf Hid Hk.
  destruct (plugin_by_name (ag_engine a) (protocol l)) as [p0|] eqn:Ep; [|done]. cbn [mbind option_bind] in Hid.
  destruct (stream_identity p0) as [id0|] eqn:Ei; [|done]. injection Hid as -> ->. split.
  - intros (q & Hq & Hc). rewrite Ep in Hq. injection Hq as <-.
    destruct (condense p) as [spec|] eqn:Es; [|done].
    destruct (condense_error_None p spec ident (Hwf _ _ Ep) Es Ei) as (Hca & _).
    by eapply flow_key_headed.
  - intros Hc. by exists p.
Qed.

Lemma ingest_layer_keyed P ts n st l p ident k dir :
  let a := is_agg st in
  store_ok a -> heaps_ok P a -> blen (slots (arena a)) <= u32_max ->
  (forall q, is_parent st = Some q -> is_Some (ag_get a q)) -> (P -> ts = clock a) -> 0 <= n ->
  layer_identity (ag_engine a) l = Some (p, ident) -> flow_key ident (fields l) = Ok (k, dir) ->
  exists a1 id d s,
    get_or_insert (is_parent st) k ident (condense p) l dir ts a = (a1, (id, d)) /\
    resolved P a a1 (is_parent st) (protocol l) k dir id d /\ ag_get a1 id = Some s /\
    let a2 := deliver ident (fields l) d ts n (protocol l) id s a1 in
    ingest_layer ts n st l = mkIngest a2 (Some id) (Some (mkEndpoint (protocol l) k)) /\
    grown P 1 a a2 /\ key_errors (totals a2) = key_errors (totals a) /\
    ag_get a2 id = Some (touch ident (fields l) d ts n s).1.
Proof.
  intros a Hs Hh Hlen Hpar Hts Hn Hid Hk.
  destruct (condensing_headed a p ident l k dir (sk_engine _ Hs) Hid Hk) as [Hhead Hcond].
  destruct (get_or_insert (is_parent st) k ident (condense p) l dir ts a) as [a1 [id d]] eqn:Eg.
  assert (resolved P a a1 (is_parent st) (protocol l) k dir id d) as Hr.
  { assert (P -> ts <= clock a) as Hle by (intros HP; rewrite (Hts HP); lia).
    by apply (get_or_insert_ok P (is_parent st) k ident (condense p) l dir ts a a1 id d). }
  destruct Hr as (G & Ek & s & Hgs & Hp & Hpr & Hkey). pose proof (gw_frame _ _ _ _ G) as (_ & _ & Eclk & _).
  destruct (deliver_ok P a1 id s ident (fields l) d ts n) as (G2 & Ek2 & Hg2);
    [apply G|apply G|done|by rewrite Eclk|done|].
  rewrite Hpr in G2, Ek2, Hg2. exists a1, id, d, s.
  split; [done|]. split; [split; [done|split; [done|by exists s]]|]. split; [done|]. cbv zeta.
  split; [|split; [by apply (grown_trans P 1 0 a a1)|split; [congruence|done]]].
  unfold ingest_layer. cbv zeta. fold a. unfold layer_identity in Hid.
  destruct (plugin_by_name (ag_engine a) (protocol l)) as [p0|]; [|done]. cbn [mbind option_bind] in Hid.
  destruct (stream_identity p0) as [id0|]; [|done]. injection Hid as -> ->. rewrite Hk, Eg.
  change (ag_get (set_live_bytes_per_protocol _ a1) id) with (ag_get a1 id). rewrite Hgs.
  unfold deliver, push_linger. done.
Qed.

Lemma grown_error P a : store_ok a -> heaps_ok P a ->
  grown P 0 a (set_totals (add_totals 0 0 0 0 1 (totals a)) a).
Proof.
  intros Hs Hh. split.
  - pose proof Hs as [K1 K2 K3 K4 K5]. split; try done. by apply (counters_ok_frame a); simpl; rewrite ?Z.add_0_r.
  - by destruct Hh as [[L1 L2] [E1 E2] H3].
  - simpl. split_and!; try done; lia.
  - simpl. lia.
  - constructor.
  - simpl. lia.
  - intros x s Hx. by exists s.
Qed.

Lemma ingest_layer_ok P n m a0 ts st l :
  layer_ok P n a0 st -> blen (slots (arena a0)) + n <= u32_max -> (P -> ts = clock a0) -> 0 <= m ->
  layer_ok P (n + 1) a0 (ingest_layer ts m st l).
Proof.
  intros [G Hpar] Hlen Hts Hm. pose proof (gw_frame _ _ _ _ G) as (_ & _ & Eclk & _).
  pose proof (gw_blen _ _ _ _ G) as Hbl.
  destruct (layer_key (ag_engine (is_agg st)) l) as [[[k dir]|e]|] eqn:Ek.
  - unfold layer_key in Ek. destruct (layer_identity _ l) as [[p ident]|] eqn:Ei; [|done].
    cbn [mbind option_bind] in Ek. injection Ek as Ek.
    destruct (ingest_layer_keyed P ts m st l p ident k dir) as (a1 & id & d & s & _ & _ & _ & Heq & G2 & _ & Hg);
      try done; [apply G|apply G|lia|by rewrite Eclk|].
    rewrite Heq. split; simpl.
    + by eapply grown_trans.
    + intros q [= <-]. by rewrite Hg.
  - rewrite (ingest_layer_error _ _ _ _ _ Ek). split; simpl.
    + apply (grown_trans P n 1 a0 (is_agg st)); [done|]. apply (grown_weaken P 0); [lia|].
      apply grown_error; apply G.
    + done.
  - rewrite (ingest_layer_bridge _ _ _ _ Ek). split; [|done]. apply (grown_weaken P n); [lia|done].
Qed.

Lemma ingest_layers_ok P n m a0 ts st ls :
  layer_ok P n a0 st -> blen (slots (arena a0)) + n + blen ls <= u32_max + 1 ->
  (P -> ts = clock a0) -> 0 <= m ->
  layer_ok P (n + blen ls) a0 (foldl (ingest_layer ts m) st ls).
Proof.
  intros Hst Hlen Hts Hm. revert n st Hst Hlen. induction ls as [|l ls IH]; intros n st Hst Hlen; simpl.
  - rewrite blen_nil, Z.add_0_r. done.
  - rewrite blen_cons in *. pose proof (blen_nonneg ls).
    replace (n + (blen ls + 1)) with ((n + 1) + blen ls) by lia. apply IH; [|lia].
    apply ingest_layer_ok; try done. lia.
Qed.

(** ** One packet *)

(** What [ingest] does before the layers: the clock, the totals and the
    timeouts. *)
Definition ingest_prologue (pkt : DissectedPacket) (a : Aggregator) : Aggregator :=
  let a := set_clock (Z.max (clock a) (timestamp (meta pkt))) a in
  let a := set_totals (add_totals 1 (origlen (meta pkt)) 0 0 0 (totals a)) a in
  let a := set_stop_classes (bump_stop_class (stop_class (stop pkt)) (stop_classes a)) a in
  compact_lru (sweep a).

(** The layer loop's final state. *)
Definition ingest_loop (pkt : DissectedPacket) (a : Aggregator) : IngestState :=
  foldl (ingest_layer (timestamp (meta pkt)) (origlen (meta pkt))) (mkIngest a None None) (layers pkt).

(** And after them: opaque bytes, the unknown registry, the cap. *)
Definition ingest_epilogue (pkt : DissectedPacket) (st : IngestState) : Aggregator :=
  let a := is_agg st in
  let a := match is_parent st with
           | Some innermost => modify innermost (set_opaque (opaque_len pkt)) a
           | None => a
           end in
  match unknown pkt with
  | Some diag =>
      set_unknowns (registry_ingest (unknown_config (config a))
        (mkOccurrence diag (clamp_to u32_max (opaque_len pkt)) (timestamp (meta pkt)) (is_endpoint st))
        (unknowns a)) a
  | None => a
  end.

Lemma ingest_eq pkt a :
  ingest pkt a = enforce_max_streams (ingest_epilogue pkt (ingest_loop pkt (ingest_prologue pkt a))).
Proof. done. Qed.

Lemma sweep_ok P a : store_ok a -> heaps_ok P a -> evicting P a (sweep a).
Proof.
  intros Hs Hh. unfold sweep. destruct (eviction (config a)) as [|it linger cap] eqn:Ev.
  - by apply evicting_refl.
  - destruct (sweep_loop P linger a Hs Hh) as (a' & Hl & Hv & _); [unfold is_live_policy; by rewrite Ev|].
    unfold run_loop. by rewrite Hl.
Qed.

(** The configured cap is a count. *)
Definition config_ok (c : AggregatorConfig) : Prop :=
  match eviction c with EvictNone => True | EvictLive _ _ cap => 0 <= cap end.

Lemma enforce_ok P a : config_ok (config a) -> store_ok a -> heaps_ok P a ->
  evicting P a (enforce_max_streams a) /\
  match eviction (config a) with
  | EvictNone => True
  | EvictLive _ _ cap => live_count (enforce_max_streams a) <= cap
  end.
Proof.
  unfold config_ok, enforce_max_streams. intros Hc Hs Hh. destruct (eviction (config a)) as [|it linger cap] eqn:Ev.
  - split; [by apply evicting_refl|done].
  - destruct (enforce_loop P cap a Hc Hs Hh) as (a' & Hl & Hv & Hle); [unfold is_live_policy; by rewrite Ev|].
    unfold run_loop. by rewrite Hl.
Qed.

Lemma heaps_ok_clock P t a : clock a <= t -> heaps_ok P a -> heaps_ok P (set_clock t a).
Proof.
  intros Hle [[L1 L2] [E1 E2] H3]. split; try done. intros HP x s Hx. simpl. etrans; [|done]. by apply (H3 HP x).
Qed.

Lemma evicting_trans P a0 a1 a2 : evicting P a0 a1 -> evicting P a1 a2 -> evicting P a0 a2.
Proof.
  intros [S1 K1 (?&?&?&?&?&?&?&?) (n1 & St1 & L1) V1] [S2 K2 (?&?&?&?&?&?&?&?) (n2 & St2 & L2) V2].
  split; [done|done|split_and!; congruence| |lia].
  exists (n1 + n2)%nat. split; [by eapply steps_trans|lia].
Qed.

(** The state the sweep starts from. *)
Definition stamped (pkt : DissectedPacket) (a : Aggregator) : Aggregator :=
  let a := set_clock (Z.max (clock a) (timestamp (meta pkt))) a in
  let a := set_totals (add_totals 1 (origlen (meta pkt)) 0 0 0 (totals a)) a in
  set_stop_classes (bump_stop_class (stop_class (stop pkt)) (stop_classes a)) a.

Lemma stamped_ok P pkt a : store_ok a -> heaps_ok P a -> store_ok (stamped pkt a) /\ heaps_ok P (stamped pkt a).
Proof.
  intros [K1 K2 K3 K4 K5] Hh. split.
  - split; try done. by apply (counters_ok_frame a); simpl; rewrite ?Z.add_0_r.
  - apply (heaps_ok_clock P (Z.max (clock a) (timestamp (meta pkt)))) in Hh; [|lia].
    by destruct Hh as [[L1 L2] [E1 E2] H3].
Qed.

Lemma prologue_ok P pkt a : store_ok a -> heaps_ok P a ->
  evicting P (stamped pkt a) (ingest_prologue pkt a).
Proof.
  intros Hs Hh. destruct (stamped_ok P pkt a Hs Hh) as [Hs' Hh'].
  pose proof (sweep_ok P _ Hs' Hh') as Hv. eapply evicting_trans; [exact Hv|].
  apply compact_lru_ok; apply Hv.
Qed.

Lemma epilogue_ok P n a0 pkt st :
  layer_ok P n a0 st ->
  grown P n a0 (set_unknowns (unknowns a0) (ingest_epilogue pkt st)) /\
  store_ok (ingest_epilogue pkt st) /\ heaps_ok P (ingest_epilogue pkt st).
Proof.
  intros [G Hpar]. unfold ingest_epilogue. cbv zeta.
  set (b := match is_parent st with Some i => _ | None => _ end).
  assert (grown P 0 (is_agg st) b) as Gb.
  { unfold b. destruct (is_parent st) as [i|]; [|by apply grown_refl; apply G]. split; try done.
    - apply store_ok_modify; [done|by apply counters_ok_inert; [done..|apply G]|apply G].
    - apply heaps_ok_modify; [done|apply G].
    - simpl. apply steps_get_mut; [apply steps_refl|]. done.
    - simpl. rewrite blen_slots_get_mut. lia.
    - intros x t. by apply modify_live. }
  assert (grown P n a0 b) as Gb0.
  { rewrite <- (Z.add_0_r n). by eapply grown_trans. }
  assert (forall u, store_ok (set_unknowns u b) /\ heaps_ok P (set_unknowns u b)) as Hu.
  { intros u. destruct Gb as [[K1 K2 K3 K4 K5] [[L1 L2] [E1 E2] H3] _ _ _ _ _]. split; [split; try done|done].
    by apply (counters_ok_frame b). }
  pose proof (gw_frame _ _ _ _ Gb0) as (F1 & F2 & F3 & F4 & F5 & F6 & F7 & F8).
  assert (grown P n a0 (set_unknowns (unknowns a0) b)) as Gu.
  { destruct Gb0 as [H1 H2 H3 H4 H5 H6 H7]. destruct (Hu (unknowns a0)). split; try done. }
  destruct (unknown pkt) as [diag|].
  - split; [|apply Hu]. exact Gu.
  - split; [exact Gu|]. split; apply Gb.
Qed.
End Ingest.
