(* ===== verification/StoreProps.v ===== *)
(** * The stream aggregator: properties

    What holds of every state reached by ingesting packets into a fresh
    aggregator ([run]), and of single operations on such states. *)

From S2P Require Import Prelude Values Bytes Types Contract Samples Engine.
From S2P Require Import FlowKeys Rollups Unknowns Arena Store StoreInv.
From S2P Require Import StoreOps StoreCounts StoreKeys StoreHeaps Queries.
From S2P Require Import StoreIngest.

Section Run.
Context `{Hasher}.

Definition run (e : Engine) (c : AggregatorConfig) (pkts : list DissectedPacket) : Aggregator :=
  foldl (fun a pkt => ingest pkt a) (Aggregator_new e c) pkts.

Definition layer_count (pkts : list DissectedPacket) : Z :=
  foldr (fun p n => blen (layers p) + n) 0 pkts.

(** Widths of the packets' fields, and fewer layers than [u32] handles. *)
Record trace_ok (pkts : list DissectedPacket) : Prop := {
  tr_origlen : Forall (fun p => 0 <= origlen (meta p)) pkts;
  tr_layers : layer_count pkts <= 2 ^ 32;
}.

(** Timestamps that never go back, from [now] on. *)
Fixpoint in_order (now : SystemTime) (pkts : list DissectedPacket) : Prop :=
  match pkts with
  | [] => True
  | p :: pkts' => now <= timestamp (meta p) /\ in_order (timestamp (meta p)) pkts'
  end.

(** What one packet does to a well-formed aggregator. *)
Record ingested (P : Prop) (pkt : DissectedPacket) (a a' : Aggregator) : Prop := {
  ig_store : store_ok a';
  ig_heaps : heaps_ok P a';
  ig_frame : config a' = config a /\ ag_engine a' = ag_engine a;
  ig_clock : clock a' = Z.max (clock a) (timestamp (meta pkt));
  ig_totals : packets (totals a') = packets (totals a) + 1 /\
    tot_bytes (totals a') = tot_bytes (totals a) + origlen (meta pkt) /\
    stop_classes a' = bump_stop_class (stop_class (stop pkt)) (stop_classes a);
  ig_blen : blen (slots (arena a')) <= blen (slots (arena a)) + blen (layers pkt);
  ig_steps : exists n, steps keeps_seq n (arena a) (arena a') /\
    length (emitted a') = (length (emitted a) + n)%nat;
  ig_cap : match eviction (config a) with
           | EvictNone => True | EvictLive _ _ cap => live_count a' <= cap end;
}.

Lemma ingest_ok P pkt a :
  store_ok a -> heaps_ok P a -> config_ok (config a) -> 0 <= origlen (meta pkt) ->
  blen (slots (arena a)) + blen (layers pkt) <= 2 ^ 32 -> (P -> clock a <= timestamp (meta pkt)) ->
  ingested P pkt a (ingest pkt a).
Proof.
  intros Hs Hh Hc Ho Hlen Hts. rewrite ingest_eq.
  pose proof (prologue_ok P pkt a Hs Hh) as V. set (b := ingest_prologue pkt a) in *.
  destruct (vi_frame _ _ _ V) as (F1 & F2 & F3 & F4 & _ & F6 & F7 & _). simpl in F1, F2, F3, F4, F6, F7.
  assert (layer_ok P 0 b (mkIngest b None None)) as L0 by (split; [apply grown_refl; apply V|done]).
  pose proof (ingest_layers_ok P 0 (origlen (meta pkt)) b (timestamp (meta pkt)) _ (layers pkt) L0) as L.
  destruct (epilogue_ok P (blen (layers pkt)) b pkt (ingest_loop pkt b)) as (G & Hs1 & Hh1).
  { apply L; [unfold u32_max; lia| |done]. intros HP. rewrite F3. specialize (Hts HP). lia. }
  pose proof (gw_frame _ _ _ _ G) as (G1 & G2 & G3 & G4 & _ & G6 & G7 & G8).
  simpl in G1, G2, G3, G4, G6, G7, G8.
  set (d := ingest_epilogue pkt (ingest_loop pkt b)) in *.
  destruct (enforce_ok P d) as [W Hcap]; [by rewrite G1, F1|done|done|].
  destruct (vi_frame _ _ _ W) as (W1 & W2 & W3 & W4 & _ & W6 & W7 & _).
  destruct (vi_steps _ _ _ V) as (n1 & St1 & Le1). destruct (vi_steps _ _ _ W) as (n2 & St2 & Le2).
  pose proof (gw_blen _ _ _ _ G) as Gb. simpl in Gb, St1, Le1.
  split.
  - apply W.
  - apply W.
  - split; congruence.
  - by rewrite W3, G3, F3.
  - rewrite W6, W7, G4, G7, G8, F6, F7. done.
  - rewrite W4. lia.
  - exists (n1 + n2)%nat. split; [|rewrite Le2, G6, Le1; lia].
    eapply steps_trans; [exact St1|]. replace n2 with (0 + n2)%nat by lia.
    eapply steps_trans; [apply (gw_steps _ _ _ _ G)|exact St2].
  - rewrite G1, F1 in Hcap. done.
Qed.

Lemma aggregator_new_ok P e c : engine_wf e -> store_ok (Aggregator_new e c) /\ heaps_ok P (Aggregator_new e c).
Proof.
  intros He. assert (forall x, ag_get (Aggregator_new e c) x = None) as Hg.
  { intros x. unfold ag_get, get. simpl. unfold slot_at. simpl. by destruct (_ <=? _). }
  split.
  - split; [done|apply arena_new_ok| | |].
    + split; split; try (intros; rewrite Hg in *; done).
      * intros id. split; [by intros ?%elem_of_nil|]. intros (s & Hs & _). by rewrite Hg in Hs.
      * constructor.
      * intros par proto h id. simpl. rewrite lookup_empty. split; [by intros ?%elem_of_nil|].
        intros (s & Hs & _). by rewrite Hg in Hs.
      * done.
    + split; try (intros; rewrite Hg in *; done); [done|].
      intros par proto anc gr Hk. simpl in Hk. by rewrite lookup_empty in Hk.
    + by split.
  - split; [split|split|]; try (intros; rewrite Hg in *; done); constructor.
Qed.

(** The states of a run. *)
Record reached (P : Prop) (e : Engine) (c : AggregatorConfig) (now : SystemTime) (n : Z)
    (a : Aggregator) : Prop := {
  rc_store : store_ok a;
  rc_heaps : heaps_ok P a;
  rc_frame : config a = c /\ ag_engine a = e;
  rc_clock : P -> clock a <= now;
  rc_blen : blen (slots (arena a)) <= n;
}.

Lemma run_from_ok P e c now n a pkts :
  config_ok c -> Forall (fun p => 0 <= origlen (meta p)) pkts -> n + layer_count pkts <= 2 ^ 32 ->
  (P -> in_order now pkts) -> reached P e c now n a ->
  exists now', reached P e c now' (n + layer_count pkts) (foldl (fun a pkt => ingest pkt a) a pkts).
Proof.
  intros Hc. revert now n a. induction pkts as [|p pkts IH]; intros now n a Ho Hn Hord [R1 R2 [R3 R3'] R4 R5]; simpl.
  { exists now. rewrite Z.add_0_r. done. }
  simpl in Hn. apply Forall_cons in Ho as [Ho Hos].
  assert (0 <= layer_count pkts) as Hpos.
  { clear. induction pkts as [|q l IH]; simpl; [done|]. pose proof (blen_nonneg (layers q)). lia. }
  assert (ingested P p a (ingest p a)) as Hi.
  { apply ingest_ok; try done; [by rewrite R3|lia|]. intros HP. destruct (Hord HP) as [Hle _].
    specialize (R4 HP). lia. }
  destruct Hi as [I1 I2 [I3 I3'] I4 _ I6 _ _].
  destruct (IH (timestamp (meta p)) (n + blen (layers p)) (ingest p a)) as [now' Hr]; [done|lia| | |].
  - intros HP. by apply Hord.
  - split; [done|done|split; congruence| |lia]. intros HP. rewrite I4.
    destruct (Hord HP) as [Hle _]. specialize (R4 HP). lia.
  - exists now'. by rewrite Z.add_assoc.
Qed.

Lemma run_ok P e c pkts :
  engine_wf e -> config_ok c -> trace_ok pkts -> (P -> in_order 0 pkts) ->
  exists now, reached P e c now (layer_count pkts) (run e c pkts).
Proof.
  intros He Hc [Ho Hl] Hord. destruct (aggregator_new_ok P e c He) as [Hs Hh].
  apply (run_from_ok P e c 0 0 (Aggregator_new e c) pkts Hc Ho); [lia|done|].
  split; [done|done|done|done|]. done.
Qed.

Lemma run_snoc e c pkts p : run e c (pkts ++ [p]) = ingest p (run e c pkts).
Proof. unfold run. by rewrite foldl_app. Qed.

Lemma layer_count_app l k : layer_count (l ++ k) = layer_count l + layer_count k.
Proof. induction l as [|p l IH]; simpl; [done|]. rewrite IH. lia. Qed.
End Run.

(** [build] never lets an invalid condensation declaration through. *)
Lemma build_engine_wf b e : build b = Ok e -> engine_wf e.
Proof.
  intros Hb n p Hp. rewrite (build_names _ _ _ Hb) in Hp. apply find_first_Some in Hp as [Hin _].
  by apply (rv_condense _ (registry_valid_of_build _ _ Hb)).
Qed.

(** ** A small store to evaluate on

    A two-layer stack whose upper protocol condenses beyond two flows, a cap of
    three streams, and a digest that collides on permuted keys. *)

#[local] Instance sample_hasher : Hasher := {|
  key_hash := foldr Z.add 0;
  encoding_digest := foldr Z.add 0;
|}.

Definition sample_flow : LayerPlugin := {|
  name := "flow";
  parse := parse (fixed_plugin "flow" [] 2 Hint_Terminal (Some pair_identity));
  claims := [];
  expected_predecessors := [];
  has_probe := false;
  probe := fun _ _ => None;
  stream_identity := Some pair_identity;
  condense := Some (mkCondense (mkKeyField "src" (Some "dst"%string))) |}.

Definition store_engine : Engine :=
  match build (plugin sample_flow (plugin sample_link EngineBuilder_new)) with
  | Ok e => e | Error _ => mkEngine [] ∅ ∅ [] end.

Lemma store_engine_wf : engine_wf store_engine.
Proof.
  apply (build_engine_wf (plugin sample_flow (plugin sample_link EngineBuilder_new))).
  reflexivity.
Qed.

Definition store_config (p : EvictionPolicy) : AggregatorConfig :=
  mkConfig p 2 1024 None UnknownRegistryConfig_default.

Definition sample_record (proto : ProtocolName) (off a b : Z) : LayerRecord :=
  mkLayer proto off 2 (insert_all [("src", VU64 a); ("dst", VU64 b)]%string FieldMap.new).

Definition store_packet (ts a b : Z) : DissectedPacket :=
  mkPacket (mkMeta ts 6 6 1) [sample_record "link" 0 1 2; sample_record "flow" 2 a b] Stop_Complete 0 None.

Definition store_trace : list DissectedPacket :=
  [store_packet 10 7 1; store_packet 11 7 2; store_packet 12 7 3; store_packet 13 2 7; store_packet 50 8 9].

Lemma store_trace_ok : trace_ok store_trace.
Proof. split; [by repeat constructor|by vm_compute]. Qed.

Definition live_config : AggregatorConfig := store_config (EvictLive 30 5 3).

(** ** Properties of reachable states *)

Section Props.
Context `{Hasher}.

Lemma reached_run P e c pkts :
  engine_wf e -> config_ok c -> trace_ok pkts -> (P -> in_order 0 pkts) ->
  store_ok (run e c pkts) /\ heaps_ok P (run e c pkts) /\ config (run e c pkts) = c /\
  ag_engine (run e c pkts) = e.
Proof.
  intros He Hc Ht Ho. destruct (run_ok P e c pkts He Hc Ht Ho) as (now & [R1 R2 [R3 R4] _ _]). done.
Qed.

(** C3: After any sequence of packets the live streams form a forest: a handle is
    the stream's own id, parents are live, older and list the child exactly once,
    children point back, the roots are exactly the parentless streams, and every
    index bucket holds exactly the live streams of its parent, protocol and
    digest. *)
Theorem run_forest e c pkts :
  engine_wf e -> config_ok c -> trace_ok pkts ->
  let a := run e c pkts in forest_ok (ag_get a) (roots a) (index a) (next_seq a).
Proof.
  intros He Hc Ht a. destruct (reached_run False e c pkts He Hc Ht) as (Hs & _); [done|]. apply Hs.
Qed.

(** C4: (D10) Parent scope, protocol and flow key name at most one live stream,
    whatever the digests collide on, and the lookup [ingest] makes finds exactly
    that stream. *)
Theorem run_flow_identity e c pkts :
  engine_wf e -> config_ok c -> trace_ok pkts ->
  let a := run e c pkts in
  (forall id1 s1 id2 s2, ag_get a id1 = Some s1 -> ag_get a id2 = Some s2 ->
     parent s1 = parent s2 -> st_protocol s1 = st_protocol s2 -> st_key s1 = st_key s2 -> id1 = id2) /\
  (forall par proto k id, bucket_hit a (par, proto, key_hash k) k = Some id <->
     exists s, ag_get a id = Some s /\ parent s = par /\ st_protocol s = proto /\ st_key s = k).
Proof.
  intros He Hc Ht a. destruct (reached_run False e c pkts He Hc Ht) as (Hs & _); [done|]. fold a in Hs.
  pose proof (ko_unique _ _ _ _ (sk_keys _ Hs)) as Hu. split; [done|].
  intros par proto k id. pose proof (fo_idx _ _ _ _ (sk_forest _ Hs)) as Hx.
  assert (forall x, (bucket_hit a (par, proto, key_hash k) k = Some x ->
    exists s, ag_get a x = Some s /\ parent s = par /\ st_protocol s = proto /\ st_key s = k)) as Hhit.
  { intros x [Hin Hk]%find_first_Some. apply (fo_index _ _ Hx) in Hin as (s & Hg & Hp & Hpr & _).
    rewrite Hg in Hk. apply bool_decide_eq_true in Hk. by exists s. }
  split; [apply Hhit|]. intros (s & Hg & Hp & Hpr & Hk).
  destruct (bucket_hit a (par, proto, key_hash k) k) as [x|] eqn:E.
  - destruct (Hhit x eq_refl) as (t & Hgt & Hpt & Hprt & Hkt). f_equal. eapply Hu; [exact Hgt|exact Hg|congruence..].
  - unfold bucket_hit in E. pose proof (proj1 (find_first_None _ _) E id) as Hf. simpl in Hf.
    rewrite Hg, bool_decide_eq_true_2 in Hf by done. enough (true = false) by done. apply Hf.
    apply (fo_index _ _ Hx). exists s. by rewrite Hk.
Qed.

(** C7: The summary's incrementally kept counters are what a recount gives: live
    streams and bytes in total and per protocol; and across evictions nothing is
    lost: every flow ever counted is a live or emitted expanded stream or a member
    of a live or emitted condensed node. *)
Theorem run_summary_exact e c pkts :
  engine_wf e -> config_ok c -> trace_ok pkts ->
  let a := run e c pkts in
  sm_streams_live (summary a) = len a /\
  sm_streams_created (summary a) = ever flows_of a /\
  sm_flows_condensed (summary a) = ever members_of a /\
  (forall pc, pc ∈ sm_per_protocol (summary a) ->
     pc_live pc = total (of_proto (pc_protocol pc) one) a /\
     pc_bytes pc = total (of_proto (pc_protocol pc) stream_bytes) a /\
     pc_ever pc = ever (of_proto (pc_protocol pc) flows_of) a) /\
  Sorted_by counts_leb (sm_per_protocol (summary a)) /\ NoDup (pc_protocol <$> sm_per_protocol (summary a)).
Proof.
  intros He Hc Ht a. destruct (reached_run False e c pkts He Hc Ht) as (Hs & _); [done|]. fold a in Hs.
  pose proof (live_count_nonneg a Hs) as Hlive. destruct Hs as [_ _ _ _ [K0 K1 K2 K3 K4 K5 K6]].
  split_and!; [done|done|done| | |].
  - intros pc Hpc. unfold summary in Hpc. simpl in Hpc. apply elem_of_sort_by in Hpc.
    apply list_elem_of_fmap in Hpc as ([p n] & -> & Hin). simpl. apply elem_of_map_to_list in Hin.
    rewrite <- K2, <- K3, <- K6, Hin. done.
  - apply sort_by_ord. apply _.
  - simpl. rewrite (sort_by_Permutation counts_leb), <- list_fmap_compose.
    apply (NoDup_fst_map_to_list (created_per_protocol a)).
Qed.

(** Under the live policy no packet leaves more streams than [max_streams]. *)
Theorem run_capped e c pkts idle linger cap :
  engine_wf e -> trace_ok pkts -> eviction c = EvictLive idle linger cap -> 0 <= cap ->
  len (run e c pkts) <= cap.
Proof.
  intros He Ht Ev Hcap. assert (config_ok c) as Hc by (unfold config_ok; by rewrite Ev).
  destruct (reached_run False e c pkts He Hc Ht) as (Hs & _); [done|].
  pose proof (live_count_nonneg _ Hs) as Hlive. unfold len, blen. rewrite <- Hlive.
  destruct pkts as [|p pkts] using rev_ind; [done|]. clear IHpkts Hlive.
  destruct Ht as [Ho Hl]. apply Forall_app in Ho as [Ho Hop]. rewrite Forall_singleton in Hop.
  rewrite layer_count_app in Hl. simpl in Hl. pose proof (blen_nonneg (layers p)).
  assert (trace_ok pkts) as Ht by (split; [done|lia]).
  destruct (run_ok False e c pkts He Hc Ht) as (now & [R1 R2 [R3 _] _ R5]); [done|].
  rewrite run_snoc. pose proof (ingest_ok False p (run e c pkts) R1 R2) as Hi.
  rewrite R3 in Hi. specialize (Hi Hc Hop ltac:(lia) ltac:(done)).
  pose proof (ig_cap _ _ _ _ Hi) as Hle. by rewrite R3, Ev in Hle.
Qed.

Lemma run_steps P e c now n a pkts :
  config_ok c -> Forall (fun p => 0 <= origlen (meta p)) pkts -> n + layer_count pkts <= 2 ^ 32 ->
  (P -> in_order now pkts) -> reached P e c now n a ->
  let a' := foldl (fun a pkt => ingest pkt a) a pkts in
  exists k, steps keeps_seq k (arena a) (arena a') /\ length (emitted a') = (length (emitted a) + k)%nat.
Proof.
  intros Hc. revert now n a. induction pkts as [|p pkts IH]; intros now n a Ho Hn Hord HR; simpl.
  { exists 0%nat. split; [apply steps_refl|lia]. }
  simpl in Hn. pose proof Ho as Ho0. apply Forall_cons in Ho as [Ho Hos].
  assert (0 <= layer_count pkts) as Hpos.
  { clear. induction pkts as [|q l IH]; simpl; [done|]. pose proof (blen_nonneg (layers q)). lia. }
  assert (ingested P p a (ingest p a)) as Hi.
  { destruct HR as [R1 R2 [R3 R3'] R4 R5]. apply ingest_ok; try done; [by rewrite R3|lia|].
    intros HP. destruct (Hord HP) as [Hle _]. specialize (R4 HP). lia. }
  destruct (ig_steps _ _ _ _ Hi) as (k1 & St1 & L1).
  assert (reached P e c (timestamp (meta p)) (n + blen (layers p)) (ingest p a)) as HR2.
  { destruct Hi as [I1 I2 [I3 I3'] I4 _ I6 _ _]. destruct HR as [R1 R2 [R3 R3'] R4 R5].
    split; [done|done|split; congruence| |lia]. intros HP. rewrite I4.
    destruct (Hord HP) as [Hle _]. specialize (R4 HP). lia. }
  destruct (IH (timestamp (meta p)) (n + blen (layers p)) (ingest p a) Hos ltac:(lia) (fun HP => proj2 (Hord HP)) HR2) as (k2 & St2 & L2).
  exists (k1 + k2)%nat. split; [by eapply steps_trans|lia].
Qed.

(** C20: (No ABA) A handle held across further ingestion either fails or still
    resolves to the stream it was taken from, as long as fewer than 2^32 streams
    are evicted in between. *)
Theorem run_handle_stable e c pkts1 pkts2 id s s' :
  engine_wf e -> config_ok c -> trace_ok (pkts1 ++ pkts2) ->
  let a := run e c pkts1 in let a' := run e c (pkts1 ++ pkts2) in
  ag_get a id = Some s -> ag_get a' id = Some s' ->
  blen (emitted a') - blen (emitted a) < 2 ^ 32 ->
  created_seq s' = created_seq s.
Proof.
  intros He Hc [Ho Hl] a a' Hs Hs' Hn. apply Forall_app in Ho as [Ho1 Ho2].
  rewrite layer_count_app in Hl.
  assert (0 <= layer_count pkts2) as Hpos.
  { clear. induction pkts2 as [|q l IH]; simpl; [done|]. pose proof (blen_nonneg (layers q)). lia. }
  destruct (run_ok False e c pkts1 He Hc) as (now & HR); [split; [done|lia]|done|].
  destruct (run_steps False e c now (layer_count pkts1) (run e c pkts1) pkts2 Hc Ho2 Hl) as (k & St & Lk);
    [done|done|].
  assert (a' = foldl (fun a pkt => ingest pkt a) (run e c pkts1) pkts2) as Ha'.
  { unfold a', run. by rewrite foldl_app. }
  rewrite <- Ha' in St, Lk. fold a in St, Lk.
  eapply (steps_same created_seq keeps_seq k (arena a) (arena a')); [by auto| |exact Hs|done| |exact Hs'].
  - destruct (reached_run False e c pkts1 He Hc) as (Hok & _); [split; [done|lia]|done|]. apply Hok.
  - unfold blen in Hn. lia.
Qed.

(** A timeout eviction with the reason it is given. *)
Definition rightly_closed (idle linger now : Z) (ev : EvictedStream) : Prop :=
  let s := ev_stream ev in
  children s = [] /\ closed s = Some (ev_reason ev) /\
  match ev_reason ev with
  | ProtocolClose => exists t, close_eligible_since s = Some t /\ t + linger <= now
  | IdleTimeout => last_seen s + idle <= now /\
      forall t, close_eligible_since s = Some t -> now < t + linger
  | _ => False
  end.

Lemma sweep_body_emits P idle linger cap a0 a a' :
  evicting P a0 a -> eviction (config a0) = EvictLive idle linger cap ->
  sweep_body linger (clock a0) a = Again a' ->
  exists evs, emitted a' = emitted a ++ evs /\ Forall (rightly_closed idle linger (clock a0)) evs.
Proof.
  intros Hv Hpol (v & d & i & g & rest & _ & _ & _ & Hb)%sweep_body_due. cbv zeta in Hb.
  apply (evicting_overflowed _ _ _ v) in Hv.
  change (emitted a) with (emitted (set_overflowed v a)).
  revert Hb Hv. generalize (set_overflowed v a). clear a v. intros a Hb Hv. revert Hb.
  pose proof (vi_frame _ _ _ Hv) as (Ecfg & _). set (b := set_expiry rest a). set (id := mkId i g).
  assert (forall a1, emitted a1 = emitted a -> exists evs, emitted a1 = emitted a ++ evs /\
    Forall (rightly_closed idle linger (clock a0)) evs) as Hsame.
  { intros a1 ->. exists []. rewrite app_nil_r. by split; [|constructor]. }
  destruct (deadline_of b id) as [actual|] eqn:Edl; [|by intros [= <-]; apply Hsame].
  destruct (clock a0 <? actual) eqn:Ea; [by intros [= <-]; apply Hsame|]. apply Z.ltb_ge in Ea.
  destruct (ag_get b id) as [s|] eqn:Es; [|by intros [= <-]; apply Hsame].
  destruct (children s) as [|c cs] eqn:Ec; intros [= <-]; [|by apply Hsame].
  assert (store_ok b) as Hb by (apply store_ok_expiry, Hv).
  destruct (evict_ok b id s (close_reason s linger (clock a0)) Hb Es Ec) as [Hev _].
  rewrite (ev_emitted _ _ _ _ _ Hev). eexists. split; [done|]. constructor; [|constructor].
  unfold deadline_of in Edl. change (config b) with (config a) in Edl. rewrite Ecfg, Hpol, Es in Edl.
  cbn [mbind option_bind] in Edl. injection Edl as Edl.
  split_and!; [done|done|]. simpl. unfold close_reason in *.
  destruct (close_eligible_since s) as [t|]; [|by split; [lia|]].
  destruct (Z.leb_spec (t + linger) (clock a0)); [by exists t|]. split; [lia|]. by intros ? [= <-].
Qed.

Lemma sweep_emits P idle linger cap a :
  store_ok a -> heaps_ok P a -> eviction (config a) = EvictLive idle linger cap ->
  exists evs, emitted (sweep a) = emitted a ++ evs /\ Forall (rightly_closed idle linger (clock a)) evs.
Proof.
  intros Hs Hh Ev. assert (is_live_policy (config a) = true) as Hp by (unfold is_live_policy; by rewrite Ev).
  unfold sweep. rewrite Ev.
  set (I := fun b => evicting P a b /\ exists evs, emitted b = emitted a ++ evs /\
    Forall (rightly_closed idle linger (clock a)) evs).
  assert (I (run_loop (sweep_body linger (clock a)) (sweep_fuel a) a)) as [_ HI]; [|exact HI].
  apply run_loop_inv.
  - intros s1 s2 [Hv (evs & E1 & F1)] Hb.
    destruct (sweep_body_again P linger a s1 s2 Hv Hp Hb) as [Hv2 _]. split; [done|].
    destruct (sweep_body_emits P idle linger cap a s1 s2 Hv Ev Hb) as (evs' & E2 & F2).
    exists (evs ++ evs'). rewrite E2, E1, app_assoc. split; [done|]. by apply Forall_app.
  - intros s1 s2 [Hv HI] Hb. assert (s2 = s1) as ->; [|by split].
    unfold sweep_body in Hb. repeat case_match; simplify_eq; done.
  - split; [by apply evicting_refl|]. exists []. rewrite app_nil_r. by split; [|constructor].
Qed.

(** C21: When the packets come in time order the sweep that precedes a packet ends
    within its bound, evicts only leaves whose deadline has passed and with the
    right reason, and leaves no overdue leaf behind. *)
Theorem sweep_exact e c pkts p idle linger cap :
  engine_wf e -> config_ok c -> trace_ok pkts -> in_order 0 (pkts ++ [p]) ->
  eviction c = EvictLive idle linger cap ->
  let a := stamped p (run e c pkts) in
  loop (sweep_body linger (clock a)) (sweep_fuel a) a = Some (sweep a) /\
  (exists evs, emitted (sweep a) = emitted a ++ evs /\ Forall (rightly_closed idle linger (clock a)) evs) /\
  (forall id s dl, ag_get (sweep a) id = Some s -> children s = [] ->
     deadline_of (sweep a) id = Some dl -> clock a < dl).
Proof.
  intros He Hc Ht Hord Ev a.
  assert (in_order 0 pkts) as Hord'.
  { clear -Hord. revert Hord. generalize 0. induction pkts as [|q l IH]; intros z; simpl; [done|].
    intros [? ?]. split; [done|]. by apply IH. }
  destruct (reached_run True e c pkts He Hc Ht) as (Hs & Hh & Hcfg & _); [done|].
  destruct (stamped_ok True p _ Hs Hh) as [Hs' Hh']. fold a in Hs', Hh'.
  assert (eviction (config a) = EvictLive idle linger cap) as Ev' by (unfold a; simpl; by rewrite Hcfg).
  assert (is_live_policy (config a) = true) as Hp by (unfold is_live_policy; by rewrite Ev').
  destruct (sweep_loop True linger a Hs' Hh' Hp) as (a' & Hl & Hv & Hdue).
  assert (sweep a = a') as Hsw by (unfold sweep; rewrite Ev'; unfold run_loop; by rewrite Hl).
  split_and!; [by rewrite Hsw|by eapply sweep_emits|].
  rewrite Hsw. intros id s dl Hg Hleaf Hdl.
  destruct (vi_frame _ _ _ Hv) as (Ecfg & _).
  destruct (eo_cover _ _ _ (ho_expiry _ _ (vi_heaps _ _ _ Hv)) id s) as (d & dl' & Hd & Hle & Hin);
    [by rewrite Ecfg|done|done|done|]. specialize (Hdue _ Hin). simpl in Hdue. specialize (Hle I).
  assert (dl' = dl) by congruence. change (clock a) with (clock (run e c pkts) `max` timestamp (meta p)). lia.
Qed.

(** The hard cap evicts by LRU: in time order every stream that
    [enforce_max_streams] evicts is, when it goes, a leaf no other leaf is older
    than (creation order breaking ties), and the loop ends within its bound at or
    under the cap. *)
Theorem enforce_evicts_lru a idle linger cap :
  store_ok a -> heaps_ok True a -> eviction (config a) = EvictLive idle linger cap -> 0 <= cap ->
  loop (enforce_streams_body cap) (enforce_fuel a) a = Some (enforce_max_streams a) /\
  live_count (enforce_max_streams a) <= cap /\
  (forall b b', evicting True a b -> enforce_streams_body cap b = Again b' -> emitted b' <> emitted b ->
     exists id s, ag_get b id = Some s /\ children s = [] /\ ag_get b' id = None /\
       emitted b' = emitted b ++ [mkEvicted (set_closed LruEvicted s) LruEvicted] /\
       forall x t, ag_get b x = Some t -> children t = [] ->
         last_seen s < last_seen t \/ (last_seen s = last_seen t /\ created_seq s <= created_seq t)).
Proof.
  intros Hs Hh Ev Hcap. assert (is_live_policy (config a) = true) as Hp by (unfold is_live_policy; by rewrite Ev).
  destruct (enforce_loop True cap a Hcap Hs Hh Hp) as (a' & Hl & Hv & Hle).
  assert (enforce_max_streams a = a') as -> by (unfold enforce_max_streams; rewrite Ev; unfold run_loop; by rewrite Hl).
  split_and!; [done|done|]. intros b b' Hb. unfold enforce_streams_body.
  destruct (cap <? live_count b); [|done].
  destruct (lru b) as [|[[[seen seq] i] g] rest] eqn:El; [done|].
  set (b1 := set_lru rest b). set (id := mkId i g).
  destruct (ag_get b1 id) as [s|] eqn:Es; [|by intros [= <-]].
  destruct (children s) as [|ch cs] eqn:Ec; [|by intros [= <-]].
  destruct (bool_decide _) eqn:Eb; intros [= <-] Hne; [|done]. apply bool_decide_eq_true in Eb.
  assert (store_ok b1) as Hb1 by (apply store_ok_lru, Hb).
  destruct (evict_ok b1 id s LruEvicted Hb1 Es Ec) as [Hev _].
  exists id, s. split_and!; [done|done|apply (ev_shrinks _ _ _ _ _ Hev)|apply (ev_emitted _ _ _ _ _ Hev)|].
  intros x t Hx Hleaf. destruct (vi_frame _ _ _ Hb) as (Ecfg & _).
  eapply (enforce_pick_least b seen seq i g rest s x t); try done; [apply Hb|by rewrite Ecfg].
Qed.
End Props.

(** ** Witnesses *)

#[export] Existing Instance sample_hasher.

Lemma live_config_ok : config_ok live_config.
Proof. by vm_compute. Qed.

Lemma run_forest_witness :
  let a := run store_engine live_config store_trace in
  forest_ok (ag_get a) (roots a) (index a) (next_seq a) /\ roots a = [mkId 0 1].
Proof.
  split; [|by vm_compute].
  exact (run_forest store_engine live_config store_trace store_engine_wf live_config_ok store_trace_ok).
Defined.

(** Two keys with one digest: the lookup tells them apart. *)
Lemma run_flow_identity_witness :
  let a := run store_engine (store_config EvictNone) store_trace in
  exists k id s, bucket_hit a (Some (mkId 0 0), "flow"%string, key_hash k) k = Some id /\
    ag_get a id = Some s /\ st_key s = k.
Proof.
  intros a. exists ([1; 0; 0; 0; 0; 0; 0; 0; 2; 1; 0; 0; 0; 0; 0; 0; 0; 7]), (mkId 2 0).
  assert (config_ok (store_config EvictNone)) as Hc by done.
  destruct (run_flow_identity store_engine (store_config EvictNone) store_trace store_engine_wf Hc
    store_trace_ok) as [_ Hhit].
  assert (bucket_hit a (Some (mkId 0 0), "flow"%string,
    key_hash [1; 0; 0; 0; 0; 0; 0; 0; 2; 1; 0; 0; 0; 0; 0; 0; 0; 7])
    [1; 0; 0; 0; 0; 0; 0; 0; 2; 1; 0; 0; 0; 0; 0; 0; 0; 7] = Some (mkId 2 0)) as Hb by by vm_compute.
  destruct (proj1 (Hhit _ _ _ _) Hb) as (s & Hs & _ & _ & Hk). exists s. split; [exact Hb|by split].
Defined.

Lemma run_summary_exact_witness :
  let a := run store_engine live_config store_trace in
  sm_streams_live (summary a) = len a /\ len a = 2 /\ sm_streams_created (summary a) = 6 /\
  sm_flows_condensed (summary a) = ever members_of a.
Proof.
  destruct (run_summary_exact store_engine live_config store_trace store_engine_wf live_config_ok
    store_trace_ok) as (H1 & _ & H3 & _).
  split_and!; [exact H1|by vm_compute|by vm_compute|exact H3].
Defined.

Lemma run_capped_witness : len (run store_engine live_config (take 4 store_trace)) <= 3.
Proof.
  apply (run_capped store_engine live_config (take 4 store_trace) 30 5 3);
    [exact store_engine_wf|split; [by repeat constructor|by vm_compute]|reflexivity|lia].
Defined.

(** The root of the first packet survives the second: same stream, same handle. *)
Lemma run_handle_stable_witness :
  let a := run store_engine live_config (take 1 store_trace) in
  let a' := run store_engine live_config (take 1 store_trace ++ take 2 (drop 1 store_trace)) in
  exists s s', ag_get a (mkId 0 0) = Some s /\ ag_get a' (mkId 0 0) = Some s' /\
    last_seen s <> last_seen s' /\ created_seq s' = created_seq s.
Proof.
  intros a a'. destruct (ag_get a (mkId 0 0)) as [s|] eqn:Hs; [|by vm_compute in Hs].
  destruct (ag_get a' (mkId 0 0)) as [s'|] eqn:Hs'; [|by vm_compute in Hs'].
  exists s, s'. split_and!; [done|done| |].
  - vm_compute in Hs, Hs'. by injection Hs as <-; injection Hs' as <-.
  - refine (run_handle_stable store_engine live_config (take 1 store_trace) (take 2 (drop 1 store_trace))
      (mkId 0 0) s s' store_engine_wf live_config_ok _ Hs Hs' _).
    + split; [by repeat constructor|by vm_compute].
    + by vm_compute.
Defined.

Lemma sweep_exact_witness :
  let a := stamped (store_packet 50 8 9) (run store_engine live_config (take 4 store_trace)) in
  loop (sweep_body 5 (clock a)) (sweep_fuel a) a = Some (sweep a) /\
  ev_reason <$> drop 1 (emitted (sweep a)) = [IdleTimeout; IdleTimeout; IdleTimeout].
Proof.
  split; [|by vm_compute].
  apply (sweep_exact store_engine live_config (take 4 store_trace) (store_packet 50 8 9) 30 5 3);
    [exact store_engine_wf|exact live_config_ok|split; [by repeat constructor|by vm_compute]|by vm_compute|reflexivity].
Defined.

(** A run under a cap it never reaches. *)
Lemma enforce_evicts_lru_witness :
  let a := run store_engine (store_config (EvictLive 300 5 9)) store_trace in
  loop (enforce_streams_body 9) (enforce_fuel a) a = Some (enforce_max_streams a) /\ len a = 5.
Proof.
  intros a. split; [|by vm_compute].
  assert (config_ok (store_config (EvictLive 300 5 9))) as Hc by by vm_compute.
  destruct (reached_run True store_engine (store_config (EvictLive 300 5 9)) store_trace store_engine_wf
    Hc store_trace_ok) as (Hs & Hh & _ & _); [intros _; by vm_compute|].
  apply (enforce_evicts_lru a 300 5 9 Hs Hh); [by vm_compute|lia].
Defined.

Lemma at_layer_merged_spec_example :
  mv_stats <$> at_layer_merged (run store_engine (store_config EvictNone) store_trace) "link" =
  [(mkStats 5 30, mkStats 0 0)].
Proof. by vm_compute. Qed.
