(* ===== verification/StoreAccounts.v ===== *)
(** * The stream aggregator: where a packet goes

    What the layer loop of [ingest] does with one packet: which streams it
    enters, how they nest, and that nothing is counted twice or dropped.  With
    the parser and conforming plugins no keyed layer is ever skipped. *)

From S2P Require Import Prelude Values Bytes Types Contract Samples Engine.
From S2P Require Import Parser FlowKeys Rollups Unknowns Arena Store.
From S2P Require Import StoreInv StoreOps StoreCounts StoreKeys StoreHeaps.
From S2P Require Import Queries StoreIngest StoreProps.

Section Accounts.
Context `{Hasher}.

(** Measures of the packets a stream has seen. *)
Record quiet (f : Stream -> Z) : Prop := {
  qu_children : ignores_children f;
  qu_condensed : forall g s, f (set_condensed g s) = f s;
  qu_new : forall s, stats s = (DirStats_default, DirStats_default) -> f s = 0;
}.

Definition stream_packets (s : Stream) : Z := st_packets (stats s).1 + st_packets (stats s).2.

Lemma quiet_packets : quiet stream_packets.
Proof. split; try done. intros s Hs. unfold stream_packets. by rewrite Hs. Qed.

Lemma quiet_bytes : quiet stream_bytes.
Proof. split; try done. intros s Hs. unfold stream_bytes. by rewrite Hs. Qed.

(** Resolving a layer moves no packet. *)
Lemma create_raw_total f par k kf st rolls cond dir proto ts a :
  quiet f -> arena_ok (arena a) -> blen (slots (arena a)) <= u32_max ->
  (forall p, par = Some p -> is_Some (ag_get a p)) ->
  total f (create_stream_raw par k kf st rolls cond dir proto ts a).1 = total f a.
Proof.
  intros [Q1 Q2 Q3] Hok Hlen Hpar.
  pose proof (create_stream_raw_created par k kf st rolls cond dir proto ts a Hok Hlen Hpar) as Hcr.
  destruct (create_stream_raw _ _ _ _ _ _ _ _ _ a) as [a' n]. cbv zeta in Hcr.
  simpl. rewrite (cr_total _ _ _ _ Hcr f Q1), Q3 by done. done.
Qed.

Lemma condensed_node_total f par proto id c g ts a :
  quiet f -> arena_ok (arena a) -> blen (slots (arena a)) <= u32_max ->
  (forall p, par = Some p -> is_Some (ag_get a p)) ->
  total f (condensed_node par proto id c g ts a).1 = total f a.
Proof.
  intros Hq Hok Hlen Hpar. unfold condensed_node. destruct (n ← node g; _) as [n|]; [done|].
  pose proof (create_raw_total f par (CONDENSED_KEY_SENTINEL :: anchor c)
    (FieldMap.insert (anchor_field c) (anchor_value c) FieldMap.new) None (new_rollups id (config a))
    (Some (mkCondensed 0 (anchor_field c) false)) (fold_dir c) proto ts a Hq Hok Hlen Hpar) as Ht.
  destruct (create_stream_raw _ _ _ _ _ _ _ _ _ a) as [a' n]. exact Ht.
Qed.

Lemma join_group_total f proto ckey digest n a :
  quiet f -> total f (join_group proto ckey digest n a) = total f a.
Proof.
  intros [Q1 Q2 Q3]. unfold join_group. destruct (ag_condense a !! ckey) as [g|]; [|done].
  destruct (_ <? CONDENSE_MEMBER_CAP), (bool_decide _); simpl; try done; by rewrite total_modify_inert.
Qed.

Lemma fold_first_total f par proto id cs ts a a' r :
  quiet f -> arena_ok (arena a) -> blen (slots (arena a)) <= u32_max ->
  (forall p, par = Some p -> is_Some (ag_get a p)) ->
  fold_first par proto id cs ts a = Some (a', r) -> total f a' = total f a.
Proof.
  intros Hq Hok Hlen Hpar. induction cs as [|c cs IH]; [done|]. simpl.
  destruct (condense_fold par proto id c ts a) as [[a1 r1]|] eqn:E; [|done]. intros [= -> ->].
  unfold condense_fold in E. destruct (ag_condense a !! _) as [g|]; [|done]. cbn [mbind option_bind] in E.
  destruct (bool_decide _ && _); [done|].
  pose proof (condensed_node_total f par proto id c g ts a Hq Hok Hlen Hpar) as Ht.
  destruct (condensed_node par proto id c g ts a) as [a2 n2]. injection E as <- _.
  by rewrite join_group_total.
Qed.

Lemma get_or_insert_total f par k id cond l dir ts a a' r :
  quiet f -> arena_ok (arena a) -> blen (slots (arena a)) <= u32_max ->
  (forall p, par = Some p -> is_Some (ag_get a p)) ->
  get_or_insert par k id cond l dir ts a = (a', r) -> total f a' = total f a.
Proof.
  intros Hq Hok Hlen Hpar. unfold get_or_insert. destruct (bucket_hit _ _ _) as [n|]; [by intros [= <- _]|].
  pose proof (create_raw_total f par k (display_fields id (fields l)) (initial <$> lifecycle id)
    (new_rollups id (config a)) None dir (protocol l) ts a Hq Hok Hlen Hpar) as Ht.
  fold (create_stream par k id None l dir ts a) in Ht.
  destruct (spec ← cond; _) as [cs|].
  - destruct (fold_first par (protocol l) id cs ts a) as [[a1 r1]|] eqn:E.
    + intros [= <- _]. by eapply fold_first_total.
    + destruct (create_stream _ _ _ _ _ _ _ _) as [a1 n1]. intros [= <- _]. exact Ht.
  - destruct (create_stream _ _ _ _ _ _ _ _) as [a1 n1]. intros [= <- _]. exact Ht.
Qed.

Lemma deliver_total f ident m dir ts n proto id s a :
  ag_get a id = Some s ->
  total f (deliver ident m dir ts n proto id s a) = total f a + f (touch ident m dir ts n s).1 - f s.
Proof.
  intros Hs. unfold deliver. set (b := set_live_bytes_per_protocol _ a).
  set (c := modify id _ b). destruct (push_linger_eq (touch ident m dir ts n s).2 ts id c) as (e & v & He).
  rewrite He. change (total f c = total f b + f (touch ident m dir ts n s).1 - f s).
  unfold c. by rewrite (total_modify f b id _ s).
Qed.

(** ** Which stream a layer enters *)

Definition zero_stats : DirStats * DirStats := (DirStats_default, DirStats_default).

(** The statistics of the stream behind a handle. *)
Definition stats_at (a : Aggregator) (id : StreamId) : option (DirStats * DirStats) := stats <$> ag_get a id.

(** One packet of [m] bytes in direction [d]. *)
Definition credit (d : PacketDirection) (m : Z) : DirStats * DirStats -> DirStats * DirStats :=
  upd_stats d (fun x => mkStats (st_packets x + 1) (st_bytes x + m)).

(** [n] is live and new at most; no statistics change. *)
Definition resolves_to (a a' : Aggregator) (n : StreamId) : Prop :=
  forall x, stats_at a' x = if decide (x = n) then Some (default zero_stats (stats_at a n)) else stats_at a x.

Lemma resolves_to_live a n : is_Some (ag_get a n) -> resolves_to a a n.
Proof. intros [s Hs] x. case_decide as Hd; [|done]. subst x. unfold stats_at. by rewrite Hs. Qed.

Lemma resolves_same a a1 a2 n :
  (forall x, stats_at a2 x = stats_at a1 x) -> resolves_to a a1 n -> resolves_to a a2 n.
Proof. intros He Hr x. rewrite He. apply Hr. Qed.

Lemma stats_at_modify a id f x : (forall s, stats (f s) = stats s) -> stats_at (modify id f a) x = stats_at a x.
Proof.
  intros Hf. unfold stats_at. rewrite ag_get_modify. case_decide as Hd; [|done]. subst x.
  destruct (ag_get a id) as [s|]; [|done]. simpl. by rewrite Hf.
Qed.

Lemma created_resolves a a' id s : created a a' id s -> stats s = zero_stats -> resolves_to a a' id.
Proof.
  intros Hcr Hz x. pose proof (cr_grows _ _ _ _ Hcr) as Hg. unfold stats_at. case_decide as Hd.
  - subst x. by rewrite (gr_new _ _ _ _ Hg), (gr_fresh _ _ _ _ Hg), <- Hz.
  - destruct (ag_get a' x) as [t'|] eqn:Ex.
    + by destruct (cr_others _ _ _ _ Hcr _ _ Hd Ex) as (t & h & -> & ->).
    + destruct (ag_get a x) as [t|] eqn:Et; [|done].
      destruct (gr_fwd _ _ _ _ Hg _ _ Et) as (t' & Ht' & _). congruence.
Qed.

Lemma create_raw_resolves par k kf st rolls cond dir proto ts a :
  arena_ok (arena a) -> blen (slots (arena a)) <= u32_max ->
  (forall p, par = Some p -> is_Some (ag_get a p)) ->
  let r := create_stream_raw par k kf st rolls cond dir proto ts a in resolves_to a r.1 r.2.
Proof.
  intros Hok Hlen Hpar. cbv zeta.
  pose proof (create_stream_raw_created par k kf st rolls cond dir proto ts a Hok Hlen Hpar) as Hcr.
  destruct (create_stream_raw _ _ _ _ _ _ _ _ _ a) as [a' n]. cbv zeta in Hcr.
  by apply (created_resolves _ _ _ _ Hcr).
Qed.

Lemma condensed_node_resolves par proto id c g ts a :
  arena_ok (arena a) -> blen (slots (arena a)) <= u32_max ->
  (forall p, par = Some p -> is_Some (ag_get a p)) ->
  let r := condensed_node par proto id c g ts a in resolves_to a r.1 r.2.
Proof.
  intros Hok Hlen Hpar. cbv zeta. unfold condensed_node.
  destruct (n ← node g; _ ← ag_get a n; Some n) as [n|] eqn:En.
  - apply resolves_to_live. apply bind_Some in En as (n0 & _ & (s & Hs & [= ->])%bind_Some). by exists s.
  - pose proof (create_raw_resolves par (CONDENSED_KEY_SENTINEL :: anchor c)
      (FieldMap.insert (anchor_field c) (anchor_value c) FieldMap.new) None (new_rollups id (config a))
      (Some (mkCondensed 0 (anchor_field c) false)) (fold_dir c) proto ts a Hok Hlen Hpar) as Hr.
    destruct (create_stream_raw _ _ _ _ _ _ _ _ _ a) as [a' n]. exact Hr.
Qed.

Lemma join_group_stats proto ckey digest n a x : stats_at (join_group proto ckey digest n a) x = stats_at a x.
Proof.
  unfold join_group. destruct (ag_condense a !! ckey) as [g|]; [|done].
  destruct (_ <? CONDENSE_MEMBER_CAP), (bool_decide _); simpl; try done; by rewrite stats_at_modify.
Qed.

Lemma fold_first_resolves par proto id cs ts a a' n d :
  arena_ok (arena a) -> blen (slots (arena a)) <= u32_max ->
  (forall p, par = Some p -> is_Some (ag_get a p)) ->
  fold_first par proto id cs ts a = Some (a', (n, d)) -> resolves_to a a' n.
Proof.
  intros Hok Hlen Hpar. induction cs as [|c cs IH]; [done|]. simpl.
  destruct (condense_fold par proto id c ts a) as [[a1 [n1 d1]]|] eqn:E; [|done]. intros [= -> -> ->].
  unfold condense_fold in E. destruct (ag_condense a !! _) as [g|]; [|done]. cbn [mbind option_bind] in E.
  destruct (bool_decide _ && _); [done|].
  pose proof (condensed_node_resolves par proto id c g ts a Hok Hlen Hpar) as Hr.
  destruct (condensed_node par proto id c g ts a) as [a2 n2]. injection E as <- <- _.
  eapply resolves_same; [|exact Hr]. intros x. apply join_group_stats.
Qed.

Lemma get_or_insert_resolves par k id cond l dir ts a a' n d :
  store_ok a -> blen (slots (arena a)) <= u32_max -> (forall p, par = Some p -> is_Some (ag_get a p)) ->
  get_or_insert par k id cond l dir ts a = (a', (n, d)) -> resolves_to a a' n.
Proof.
  intros Hs Hlen Hpar. unfold get_or_insert. pose proof (sk_arena _ Hs) as Hok.
  destruct (bucket_hit a _ k) as [n0|] eqn:Hb.
  { intros [= <- <- _]. apply resolves_to_live. apply find_first_Some in Hb as [_ Hk].
    by destruct (ag_get a n0); [eexists|]. }
  pose proof (create_raw_resolves par k (display_fields id (fields l)) (initial <$> lifecycle id)
    (new_rollups id (config a)) None dir (protocol l) ts a Hok Hlen Hpar) as Hr. cbv zeta in Hr.
  fold (create_stream par k id None l dir ts a) in Hr.
  destruct (spec ← cond; _) as [cs|].
  - destruct (fold_first par (protocol l) id cs ts a) as [[a1 [n1 d1]]|] eqn:E.
    + intros [= <- <- _]. by eapply fold_first_resolves.
    + destruct (create_stream _ _ _ _ _ _ _ _) as [a1 n1]. intros [= <- <- _]. exact Hr.
  - destruct (create_stream _ _ _ _ _ _ _ _) as [a1 n1]. intros [= <- <- _]. exact Hr.
Qed.

Lemma deliver_stats ident m dir ts n proto id s a x :
  ag_get a id = Some s ->
  stats_at (deliver ident m dir ts n proto id s a) x =
    if decide (x = id) then Some (credit dir n (stats s)) else stats_at a x.
Proof.
  intros Hs. unfold deliver. set (b := set_live_bytes_per_protocol _ a). set (c := modify id _ b).
  destruct (push_linger_eq (touch ident m dir ts n s).2 ts id c) as (e & v & He). rewrite He.
  change (stats_at c x = if decide (x = id) then Some (credit dir n (stats s)) else stats_at a x).
  unfold stats_at, c. rewrite ag_get_modify. change (ag_get b) with (ag_get a). case_decide; [|done].
  rewrite Hs. simpl. f_equal. pose proof (touch_spec ident m dir ts n s) as Ht. cbv zeta in Ht. apply Ht.
Qed.

(** The stream of a layer: of the layer's own key, or the condensed node of one of
    its anchors, with the direction the packet has there. *)
Definition entered (p : LayerPlugin) (ident : StreamIdentity) (l : LayerRecord) (k : list Z) (dir : PacketDirection)
    (s : Stream) (d : PacketDirection) : Prop :=
  (st_key s = k /\ d = dir) \/
  (exists spec cs c, condense p = Some spec /\ condense_candidates ident spec (fields l) = Some cs /\ c ∈ cs /\
     st_key s = CONDENSED_KEY_SENTINEL :: anchor c /\ d = fold_dir c /\ condensed s <> None).

Lemma fold_first_entered par proto id cs ts a a' n d :
  store_ok a -> heaps_ok False a -> blen (slots (arena a)) <= u32_max ->
  (forall p, par = Some p -> is_Some (ag_get a p)) ->
  fold_first par proto id cs ts a = Some (a', (n, d)) ->
  exists c s, c ∈ cs /\ ag_get a' n = Some s /\ st_key s = CONDENSED_KEY_SENTINEL :: anchor c /\ d = fold_dir c /\
    condensed s <> None.
Proof.
  intros Hs Hh Hlen Hpar. induction cs as [|c cs IH]; [done|]. simpl.
  destruct (condense_fold par proto id c ts a) as [[a1 [n1 d1]]|] eqn:E.
  - intros [= -> -> ->].
    destruct (condense_fold_ok False par proto id c ts a a' n d [] AtoB Hs Hh Hlen Hpar ltac:(done) E)
      as (_ & [(s & i & Hg & Hi & _ & _ & Hk) _] & Hd).
    exists c, s. split_and!; [apply elem_of_cons; by left|done|done|done|by rewrite Hi].
  - intros Hf. destruct (IH Hf) as (c0 & s & Hin & Hrest). exists c0, s.
    split; [apply elem_of_cons; by right|done].
Qed.

Lemma get_or_insert_entered par p k id l dir ts a a' n d :
  store_ok a -> heaps_ok False a -> blen (slots (arena a)) <= u32_max ->
  (forall q, par = Some q -> is_Some (ag_get a q)) ->
  (condensing (ag_engine a) (protocol l) -> tag_headed k) ->
  get_or_insert par k id (condense p) l dir ts a = (a', (n, d)) ->
  exists s, ag_get a' n = Some s /\ entered p id l k dir s d.
Proof.
  intros Hs Hh Hlen Hpar Hhead. unfold get_or_insert.
  destruct (bucket_hit a (par, protocol l, key_hash k) k) as [n0|] eqn:Hb.
  { intros [= <- <- <-]. apply find_first_Some in Hb as [_ Hk].
    destruct (ag_get a n0) as [s|]; [|done]. apply bool_decide_eq_true in Hk. exists s. split; [done|]. by left. }
  pose proof (create_stream_ok False par k id l dir ts a Hs Hh Hlen Hpar ltac:(done) Hhead Hb) as Hc.
  destruct (condense p) as [spec|] eqn:Ep; cbn [mbind option_bind].
  - destruct (if 0 <? condense_threshold (config a) then _ else None) as [cs|] eqn:Ecs.
    + destruct (fold_first par (protocol l) id cs ts a) as [[a1 [n1 d1]]|] eqn:Ef.
      * intros [= <- <- <-].
        destruct (fold_first_entered _ _ _ _ _ _ _ _ _ Hs Hh Hlen Hpar Ef) as (c & s & Hin & Hg & Hrest).
        exists s. split; [done|]. right. exists spec, cs, c. split; [done|]. split; [|done].
        by destruct (0 <? _).
      * destruct (create_stream _ _ _ _ _ _ _ _) as [a1 n1]. destruct Hc as (_ & _ & _ & s & Hg & _ & _ & Hk & _).
        intros [= <- <- <-]. exists s. split; [done|]. by left.
    + destruct (create_stream _ _ _ _ _ _ _ _) as [a1 n1]. destruct Hc as (_ & _ & _ & s & Hg & _ & _ & Hk & _).
      intros [= <- <- <-]. exists s. split; [done|]. by left.
  - destruct (create_stream _ _ _ _ _ _ _ _) as [a1 n1]. destruct Hc as (_ & _ & _ & s & Hg & _ & _ & Hk & _).
    intros [= <- <- <-]. exists s. split; [done|]. by left.
Qed.

(** ** One packet through the layer loop *)

Definition is_keyed (e : Engine) (l : LayerRecord) : bool :=
  match layer_key e l with Some (Ok _) => true | _ => false end.
Definition is_failed (e : Engine) (l : LayerRecord) : bool :=
  match layer_key e l with Some (Error _) => true | _ => false end.

Definition count_if (f : LayerRecord -> bool) (ls : list LayerRecord) : Z :=
  foldr (fun l n => (if f l then 1 else 0) + n) 0 ls.

(** The streams of a packet's keyed layers, one for each, with the direction the
    packet has there: a live stream of the layer's protocol that the layer's packet
    enters, under the stream of the keyed layer before. *)
Fixpoint nested (a : Aggregator) (e : Engine) (par : option StreamId) (ls : list LayerRecord)
    (path : list (StreamId * PacketDirection)) : Prop :=
  match ls with
  | [] => path = []
  | l :: ls' =>
      match layer_key e l, layer_identity e l with
      | Some (Ok (k, dir)), Some (p, ident) => exists id d s path',
          path = (id, d) :: path' /\ ag_get a id = Some s /\ parent s = par /\ st_protocol s = protocol l /\
          entered p ident l k dir s d /\ nested a e (Some id) ls' path'
      | _, _ => nested a e par ls' path
      end
  end.

(** The statistics behind [x] after the packets of [path]. *)
Definition credits (m : Z) (path : list (StreamId * PacketDirection)) (x : StreamId)
    (o : option (DirStats * DirStats)) : option (DirStats * DirStats) :=
  foldl (fun o e => if decide (x = e.1) then Some (credit e.2 m (default zero_stats o)) else o) o path.

Lemma credits_absent m path x o : x ∉ path.*1 -> credits m path x o = o.
Proof.
  revert o. induction path as [|[id d] path IH]; intros o Hx; [done|].
  apply not_elem_of_cons in Hx as [Hne Hx]. simpl in *. rewrite decide_False by done. by apply IH.
Qed.

Lemma credits_once m path x d o :
  NoDup path.*1 -> (x, d) ∈ path -> credits m path x o = Some (credit d m (default zero_stats o)).
Proof.
  revert o. induction path as [|[id d'] path IH]; intros o Hnd Hx; [by apply elem_of_nil in Hx|].
  apply NoDup_cons in Hnd as [Hni Hnd]. apply elem_of_cons in Hx as [[= <- <-]|Hx].
  - simpl. rewrite decide_True by done. by apply credits_absent.
  - simpl. rewrite decide_False; [by apply IH|]. intros ->. apply Hni.
    apply list_elem_of_fmap. by exists (id, d).
Qed.

Lemma layer_step ts m st l :
  store_ok (is_agg st) -> heaps_ok False (is_agg st) -> blen (slots (arena (is_agg st))) <= u32_max ->
  (forall q, is_parent st = Some q -> is_Some (ag_get (is_agg st) q)) -> 0 <= m ->
  let a := is_agg st in let e := ag_engine a in let st' := ingest_layer ts m st l in
  grown False 1 a (is_agg st') /\
  (forall q, is_parent st' = Some q -> is_Some (ag_get (is_agg st') q)) /\
  total stream_packets (is_agg st') = total stream_packets a + (if is_keyed e l then 1 else 0) /\
  total stream_bytes (is_agg st') = total stream_bytes a + (if is_keyed e l then m else 0) /\
  key_errors (totals (is_agg st')) = key_errors (totals a) + (if is_failed e l then 1 else 0) /\
  match layer_key e l, layer_identity e l with
  | Some (Ok (k, dir)), Some (p, ident) => exists id d s, is_parent st' = Some id /\
      ag_get (is_agg st') id = Some s /\ parent s = is_parent st /\ st_protocol s = protocol l /\
      entered p ident l k dir s d /\
      forall x, stats_at (is_agg st') x = credits m [(id, d)] x (stats_at a x)
  | _, _ => is_parent st' = is_parent st /\ forall x, stats_at (is_agg st') x = stats_at a x
  end.
Proof.
  intros Hs Hh Hlen Hpar Hm a e st'. unfold is_keyed, is_failed.
  destruct (layer_key e l) as [[[k dir]|err]|] eqn:Ek.
  - pose proof Ek as Ek'. unfold layer_key in Ek'. destruct (layer_identity e l) as [[p ident]|] eqn:Ei; [|done].
    cbn [mbind option_bind] in Ek'. injection Ek' as Ek'.
    destruct (ingest_layer_keyed False ts m st l p ident k dir) as
      (a1 & id & d & s & Hgi & (_ & _ & s0 & Hs0 & Hp & Hpr & Hk) & Hg & Heq & G & Eke & Hg2); try done.
    assert (s0 = s) as -> by congruence.
    pose proof (touch_spec ident (fields l) d ts m s) as Ht. cbv zeta in Ht.
    destruct Ht as (((_ & Tpr & Tk & Tp & _) & _) & Tc & Tl & _ & _ & Tst & _).
    pose proof (get_or_insert_total stream_packets _ _ _ _ _ _ _ _ _ _ quiet_packets (sk_arena _ Hs) Hlen Hpar Hgi) as T1.
    pose proof (get_or_insert_total stream_bytes _ _ _ _ _ _ _ _ _ _ quiet_bytes (sk_arena _ Hs) Hlen Hpar Hgi) as T2.
    unfold st'. rewrite Heq. simpl. rewrite !deliver_total, T1, T2 by done.
    rewrite (stream_bytes_upd _ _ _ _ Tst).
    assert (stream_packets (touch ident (fields l) d ts m s).1 = stream_packets s + 1) as ->.
    { unfold stream_packets. rewrite Tst. destruct d; simpl; lia. }
    split_and!; [done| |unfold a; lia|unfold a; lia|unfold a; lia|].
    + intros q [= <-]. by rewrite Hg2.
    + destruct (condensing_headed a p ident l k dir (sk_engine _ Hs) Ei Ek') as [Hhead _].
      destruct (get_or_insert_entered (is_parent st) p k ident l dir ts a a1 id d Hs Hh Hlen Hpar Hhead Hgi)
        as (s1 & Hg1 & Hent). assert (s1 = s) as -> by congruence.
      pose proof (get_or_insert_resolves _ _ _ _ _ _ _ _ _ _ _ Hs Hlen Hpar Hgi) as Hres.
      exists id, d, (touch ident (fields l) d ts m s).1. split_and!; try done; try congruence.
      * destruct Hent as [[Hk1 Hd1]|(spec & cs & c & ? & ? & ? & Hk1 & Hd1 & Hc1)].
        -- left. split; congruence.
        -- right. exists spec, cs, c. split_and!; try done; congruence.
      * intros x. rewrite deliver_stats by done. simpl. rewrite Hres. case_decide as Hx; [|done]. subst x.
        specialize (Hres id). rewrite decide_True in Hres by done. unfold stats_at in Hres at 1.
        rewrite Hg1 in Hres. injection Hres as ->. done.
  - unfold st'. rewrite (ingest_layer_error _ _ _ _ _ Ek). simpl.
    split_and!; try done; try (unfold total, streams; simpl; unfold a; lia).
    apply (grown_weaken False 0); [lia|]. by apply grown_error.
  - unfold st'. rewrite (ingest_layer_bridge _ _ _ _ Ek).
    split_and!; try done; try (unfold a; lia). apply (grown_weaken False 0); [lia|]. by apply grown_refl.
Qed.

Lemma entered_same p ident l k dir s s' d :
  same_node s s' -> entered p ident l k dir s d -> entered p ident l k dir s' d.
Proof.
  intros (_ & _ & Ek & _ & _ & Ec) [Hk|(spec & cs & c & ? & ? & ? & ? & ? & ?)]; [left; by rewrite Ek|right].
  exists spec, cs, c. rewrite Ek. split_and!; try done. by rewrite Ec.
Qed.

Lemma nested_grown a a' e par ls path n :
  grown False n a a' -> nested a e par ls path -> nested a' e par ls path.
Proof.
  intros G. revert par path. induction ls as [|l ls IH]; intros par path; simpl; [done|].
  destruct (layer_key e l) as [[[k dir]|err]|]; [|apply IH..].
  destruct (layer_identity e l) as [[p ident]|]; [|apply IH].
  intros (id & d & s & path' & -> & Hg & Hp & Hpr & Hent & Hn).
  destruct (gw_live _ _ _ _ G _ _ Hg) as (s' & Hg' & Hsame). pose proof Hsame as (_ & Epr & _ & Ep & _).
  exists id, d, s', path'. rewrite Epr, Ep. pose proof (entered_same _ _ _ _ _ _ _ _ Hsame Hent). eauto 10.
Qed.

(** Nested streams are ever younger. *)
Lemma nested_younger a e par ls path :
  links_ok (ag_get a) -> nested a e par ls path -> forall id d q qs, (id, d) ∈ path -> par = Some q ->
  ag_get a q = Some qs -> exists s, ag_get a id = Some s /\ created_seq qs < created_seq s.
Proof.
  intros Hl. revert par path. induction ls as [|l ls IH]; intros par path; simpl; [intros ->; by intros ???? ?%elem_of_nil|].
  destruct (layer_key e l) as [[[k dir]|err]|]; [|apply IH..].
  destruct (layer_identity e l) as [[p ident]|]; [|apply IH].
  intros (id & d & s & path' & -> & Hg & Hp & _ & _ & Hn) x dx q qs Hx -> Hq.
  destruct (fo_parent _ Hl _ _ _ Hg Hp) as (qs' & Hq' & _ & Hlt).
  assert (qs' = qs) as -> by congruence. apply elem_of_cons in Hx as [[= -> ->]|Hx]; [by exists s|].
  destruct (IH _ _ Hn _ _ _ _ Hx eq_refl Hg) as (t & Ht & Hlt'). exists t. split; [done|lia].
Qed.

Lemma nested_nodup a e par ls path :
  links_ok (ag_get a) -> nested a e par ls path -> NoDup path.*1.
Proof.
  intros Hl. revert par path. induction ls as [|l ls IH]; intros par path; simpl; [intros ->; constructor|].
  destruct (layer_key e l) as [[[k dir]|err]|]; [|apply IH..].
  destruct (layer_identity e l) as [[p ident]|]; [|apply IH].
  intros (id & d & s & path' & -> & Hg & _ & _ & _ & Hn). simpl. apply NoDup_cons. split; [|by eapply IH].
  intros ([x dx] & Hx & Hin)%list_elem_of_fmap. simpl in Hx. subst x.
  destruct (nested_younger _ _ _ _ _ Hl Hn _ _ _ _ Hin eq_refl Hg) as (t & Ht & Hlt).
  assert (t = s) as -> by congruence. lia.
Qed.

Lemma loop_accounts ts m st ls :
  store_ok (is_agg st) -> heaps_ok False (is_agg st) ->
  blen (slots (arena (is_agg st))) + blen ls <= u32_max + 1 ->
  (forall q, is_parent st = Some q -> is_Some (ag_get (is_agg st) q)) -> 0 <= m ->
  let a := is_agg st in let e := ag_engine a in let st' := foldl (ingest_layer ts m) st ls in
  let a' := is_agg st' in
  grown False (blen ls) a a' /\
  total stream_packets a' = total stream_packets a + count_if (is_keyed e) ls /\
  total stream_bytes a' = total stream_bytes a + m * count_if (is_keyed e) ls /\
  key_errors (totals a') = key_errors (totals a) + count_if (is_failed e) ls /\
  exists path, nested a' e (is_parent st) ls path /\
    is_parent st' = match last path with Some (id, _) => Some id | None => is_parent st end /\
    forall x, stats_at a' x = credits m path x (stats_at a x).
Proof.
  revert st. induction ls as [|l ls IH]; intros st Hs Hh Hlen Hpar Hm; simpl.
  - rewrite Z.mul_0_r, !Z.add_0_r. split_and!; try done; [by apply grown_refl|]. by exists [].
  - rewrite blen_cons in Hlen. pose proof (blen_nonneg ls).
    destruct (layer_step ts m st l Hs Hh ltac:(lia) Hpar Hm) as (G1 & P1 & A1 & B1 & E1 & R1).
    pose proof (gw_frame _ _ _ _ G1) as (_ & Ee & _). pose proof (gw_blen _ _ _ _ G1) as Hb.
    destruct (IH (ingest_layer ts m st l)) as (G2 & A2 & B2 & E2 & path & N2 & P2 & S2);
      [apply G1|apply G1|lia|done|done|]. rewrite Ee in A2, B2, E2, N2.
    split_and!.
    + rewrite blen_cons, Z.add_comm. by eapply grown_trans.
    + rewrite A2, A1. lia.
    + rewrite B2, B1. destruct (is_keyed _ l); lia.
    + rewrite E2, E1. lia.
    + destruct (layer_key (ag_engine (is_agg st)) l) as [[[k dir]|err]|];
        [destruct (layer_identity (ag_engine (is_agg st)) l) as [[p ident]|]|..].
      2-4: destruct R1 as [Hid Hst]; rewrite Hid in N2, P2; exists path; (split_and!; [done|done|]);
        intros x; by rewrite S2, Hst.
      destruct R1 as (id & d & s & Hid & Hg & Hp & Hpr & Hent & Hst). rewrite Hid in N2, P2.
      destruct (gw_live _ _ _ _ G2 _ _ Hg) as (s' & Hg' & Hsame). pose proof Hsame as (_ & Epr & _ & Ep & _).
      pose proof (entered_same _ _ _ _ _ _ _ _ Hsame Hent) as Hent'.
      exists ((id, d) :: path). split_and!.
      * exists id, d, s', path. rewrite Epr, Ep. by split_and!.
      * rewrite P2, last_cons. by destruct (last path).
      * intros x. by rewrite S2, Hst.
Qed.

(** C5: One packet is accounted for exactly.  There is one stream for each layer
    with a flow key, no stream twice: of the layer's protocol, with the layer's key
    (or the condensed node of one of its anchors), the first a root and each the
    parent of the next, bridging the layers between.  Each of these streams gains
    one packet and the packet's wire length, on the side of the packet's direction
    in it - from nothing if the packet created it - and no other stream's counts
    move, nor is one created.  Every layer whose key is incomplete adds one key
    error. *)
Theorem ingest_accounts e c pkts p :
  engine_wf e -> config_ok c -> trace_ok (pkts ++ [p]) ->
  let b := ingest_prologue p (run e c pkts) in let st := ingest_loop p b in let a' := is_agg st in
  (exists path, nested a' e None (layers p) path /\ NoDup path.*1 /\ is_parent st = fst <$> last path /\
     (forall id d, (id, d) ∈ path ->
        stats_at a' id = Some (credit d (origlen (meta p)) (default zero_stats (stats_at b id)))) /\
     (forall id, id ∉ path.*1 -> stats_at a' id = stats_at b id)) /\
  total stream_packets a' = total stream_packets b + count_if (is_keyed e) (layers p) /\
  total stream_bytes a' = total stream_bytes b + origlen (meta p) * count_if (is_keyed e) (layers p) /\
  key_errors (totals a') = key_errors (totals b) + count_if (is_failed e) (layers p).
Proof.
  intros He Hc [Ho Hl] b st a'. apply Forall_app in Ho as [Ho Hop]. rewrite Forall_singleton in Hop.
  rewrite layer_count_app in Hl. simpl in Hl. pose proof (blen_nonneg (layers p)).
  destruct (run_ok False e c pkts He Hc) as (now & [R1 R2 [R3 R4] _ R5]); [split; [done|lia]|done|].
  pose proof (prologue_ok False p _ R1 R2) as V. fold b in V.
  destruct (vi_frame _ _ _ V) as (_ & F2 & _ & F4 & _). simpl in F2, F4.
  destruct (loop_accounts (timestamp (meta p)) (origlen (meta p)) (mkIngest b None None) (layers p))
    as (G & A & B & E & path & N & P & S); simpl; try done; try apply V; [unfold u32_max; lia|].
  simpl in G, A, B, E, N, P, S. rewrite F2, R4 in A, B, E, N.
  change (foldl _ _ _) with st in G, A, B, E, N, P, S. fold a' in G, A, B, E, N, S.
  pose proof (nested_nodup _ _ _ _ _ (fo_links _ _ _ _ (sk_forest _ (gw_store _ _ _ _ G))) N) as Hnd.
  split_and!; [|exact A|exact B|exact E]. exists path. split_and!; [done|done| | |].
  - rewrite P. by destruct (last path) as [[]|].
  - intros id d Hin. rewrite S. by apply credits_once.
  - intros id Hni. rewrite S. by apply credits_absent.
Qed.

Lemma epilogue_totals p st : totals (ingest_epilogue p st) = totals (is_agg st).
Proof. unfold ingest_epilogue. by destruct (is_parent st), (unknown p). Qed.

Lemma count_if_zero f ls : Forall (fun l => f l = false) ls -> count_if f ls = 0.
Proof. induction 1 as [|l ls Hl _ IH]; simpl; [done|]. by rewrite Hl, IH. Qed.

Lemma ingest_key_errors P p a :
  store_ok a -> heaps_ok P a -> config_ok (config a) -> 0 <= origlen (meta p) ->
  blen (slots (arena a)) + blen (layers p) <= 2 ^ 32 ->
  key_errors (totals (ingest p a)) = key_errors (totals a) + count_if (is_failed (ag_engine a)) (layers p).
Proof.
  intros Hs Hh0 Hc Ho Hlen.
  assert (heaps_ok False a) as Hh.
  { destruct Hh0 as [[L1 L2] [E1 E2] _]. split; [split; [done|]|split; [done|]|done].
    - intros id s Hp Hg Hle Hne. destruct (L2 id s Hp Hg Hle Hne) as (sn & _ & ?). by exists sn.
    - intros id s Hp Hg Hle Hne. destruct (E2 id s Hp Hg Hle Hne) as (d & dl & ? & _ & ?). by exists d, dl. }
  rewrite ingest_eq. pose proof (prologue_ok False p _ Hs Hh) as V.
  set (b := ingest_prologue p a) in *.
  destruct (vi_frame _ _ _ V) as (F1 & F2 & _ & F4 & _ & F6 & _). simpl in F1, F2, F4, F6.
  destruct (loop_accounts (timestamp (meta p)) (origlen (meta p)) (mkIngest b None None) (layers p))
    as (G & _ & _ & E & _); simpl; try done; try apply V; [unfold u32_max; lia|].
  simpl in G, E. fold (ingest_loop p b) in G, E.
  assert (layer_ok False (blen (layers p)) b (ingest_loop p b)) as L.
  { pose proof (ingest_layers_ok False 0 (origlen (meta p)) b (timestamp (meta p)) (mkIngest b None None) (layers p)) as Hl.
    apply Hl; [split; [apply grown_refl; apply V|done]|unfold u32_max; lia|done|done]. }
  destruct (epilogue_ok False _ b p _ L) as (Ge & Hs1 & Hh1).
  pose proof (gw_frame _ _ _ _ Ge) as (G1 & _). simpl in G1.
  destruct (enforce_ok False (ingest_epilogue p (ingest_loop p b))) as [W _]; [by rewrite G1, F1|done|done|].
  destruct (vi_frame _ _ _ W) as (_ & _ & _ & _ & _ & W6 & _).
  rewrite W6, epilogue_totals, E, F6, F2. simpl. lia.
Qed.

(** ** Dissected packets *)

(** The plugin a layer came from is the one its name finds. *)
Lemma built_by_name bld e p : build bld = Ok e -> p ∈ plugins e -> plugin_by_name e (name p) = Some p.
Proof.
  intros Hb Hp. rewrite (build_names _ _ _ Hb). pose proof (registry_valid_of_build _ _ Hb) as [Hnd _ _ _ _].
  assert (p ∈ b_plugins bld) as Hin by (by apply build_inv in Hb as (? & ? & _ & _ & _ & _ & ->)).
  apply find_first_unique; [done|by apply String.eqb_refl|].
  intros q Hq Hn%String.eqb_eq. by eapply NoDup_names_inj.
Qed.

(** A packet the engine produced for aggregation. *)
Definition dissected (e : Engine) (p : DissectedPacket) : Prop :=
  exists bytes m o, aggregation o = true /\ dissect e bytes m o = Some p.

Lemma effective_depth_keys o : aggregation o = true -> depth_geb (effective_depth o) DKeys = true.
Proof.
  unfold effective_depth, depth_max. intros ->. destruct (depth_geb (opt_depth o) DKeys) eqn:E; done.
Qed.

Lemma dissected_not_failed bld e p :
  build bld = Ok e -> (forall q, q ∈ plugins e -> Keyed q) -> dissected e p ->
  Forall (fun l => is_failed e l = false) (layers p).
Proof.
  intros Hb Hconf (bytes & m & o & Ho & Hd). apply Forall_lookup_2. intros i l Hl.
  destruct (dissect_layer_source e bytes m o p i l Hd Hl) as (q & parsed & Hq & Hn & Hp & _ & Hf & _).
  unfold is_failed, layer_key, layer_identity. rewrite <- Hn, (built_by_name bld e q Hb Hq).
  cbn [mbind option_bind]. destruct (stream_identity q) as [id|] eqn:Ei; [|done]. cbn [mbind option_bind].
  pose proof (@conf_keys q (Hconf q Hq) _ _ _ id Hp) as Hk. simpl in Hk.
  rewrite Hf. destruct (proj1 (flow_key_ready id (pl_fields parsed)) (Hk (effective_depth_keys o Ho) Ei)) as [kd ->].
  by destruct kd.
Qed.
(** End to end: packets dissected with aggregation by an engine of plugins
    that give their key fields never lack one, so no layer is dropped from
    aggregation, whatever the bytes. *)
Theorem run_no_key_errors bld e c pkts :
  build bld = Ok e -> (forall q, q ∈ plugins e -> Keyed q) -> config_ok c -> trace_ok pkts ->
  Forall (dissected e) pkts -> key_errors (totals (run e c pkts)) = 0.
Proof.
  intros Hb Hconf Hc. pose proof (build_engine_wf _ _ Hb) as He.
  induction pkts as [|p pkts IH] using rev_ind; intros [Ho Hl] Hd; [done|].
  apply Forall_app in Ho as [Ho Hop]. rewrite Forall_singleton in Hop.
  apply Forall_app in Hd as [Hd Hdp]. rewrite Forall_singleton in Hdp.
  rewrite layer_count_app in Hl. simpl in Hl. pose proof (blen_nonneg (layers p)).
  assert (trace_ok pkts) as Ht by (split; [done|lia]).
  destruct (run_ok False e c pkts He Hc Ht) as (now & [R1 R2 [R3 R4] _ R5]); [done|].
  rewrite run_snoc, (ingest_key_errors False p _ R1 R2), IH, R4; [|done|done|by rewrite R3|done|lia].
  by rewrite (count_if_zero _ _ (dissected_not_failed bld e p Hb Hconf Hdp)).
Qed.
End Accounts.

(** ** Witnesses *)

Lemma ingest_accounts_witness :
  let b := ingest_prologue (store_packet 50 8 9) (run store_engine live_config (take 4 store_trace)) in
  let a' := is_agg (ingest_loop (store_packet 50 8 9) b) in
  total stream_packets a' = total stream_packets b + 2 /\
  exists path, nested a' store_engine None (layers (store_packet 50 8 9)) path /\ NoDup path.*1.
Proof.
  assert (config_ok live_config) as Hc by by vm_compute.
  destruct (ingest_accounts store_engine live_config (take 4 store_trace) (store_packet 50 8 9)
    store_engine_wf Hc store_trace_ok) as ((path & N & Hnd & _) & A & _).
  split; [exact A|]. exists path. split; [exact N|exact Hnd].
Defined.

(** The fixed-length plugins give their key fields. *)
Lemma fixed_keyed n ids len h : Keyed (fixed_plugin n ids len h (Some pair_identity)).
Proof.
  intros bytes c r id. simpl. destruct (Z.leb_spec len (blen bytes)); intros [= <-] _ [= <-].
  by repeat constructor.
Qed.

Definition pair_builder : EngineBuilder := plugin sample_net (plugin sample_link EngineBuilder_new).
Definition pair_engine : Engine :=
  match build pair_builder with Ok e => e | Error _ => mkEngine [] ∅ ∅ [] end.
Definition dissected_packet : DissectedPacket :=
  default (store_packet 0 0 0) (dissect pair_engine [1; 2; 3; 4; 9; 9] sample_meta ParseOpts_default).

Lemma run_no_key_errors_witness :
  length (layers dissected_packet) = 2%nat /\
  key_errors (totals (run pair_engine live_config [dissected_packet; dissected_packet])) = 0.
Proof.
  split; [by vm_compute|].
  apply (run_no_key_errors pair_builder); [by vm_compute| |by vm_compute|split; [by repeat constructor|by vm_compute]|].
  - intros q Hq. change (plugins pair_engine) with [sample_link; sample_net] in Hq.
    rewrite !elem_of_cons, elem_of_nil in Hq. destruct Hq as [->|[->|[]]]; by apply fixed_keyed.
  - assert (dissected pair_engine dissected_packet) as Hd; [|by repeat constructor].
    exists [1; 2; 3; 4; 9; 9], sample_meta, ParseOpts_default. split; [done|by vm_compute].
Defined.
