(* ===== verification/Condense.v ===== *)
(** * Condensation anchors (D16)

    What [condense_candidates] of [crates/pktflow-flows/src/store.rs] promises:
    the anchors of a flow do not depend on the direction of the packet they are
    computed from, and the display fields a stream keeps are enough to compute
    them again when it is evicted, so the tallies balance. *)

From S2P Require Import Prelude Values Bytes Types Contract Samples Engine.
From S2P Require Import FlowKeys Rollups Unknowns Arena Store StoreInv.
From S2P Require Import StoreOps StoreCounts StoreKeys.

(** ** The fields a stream keeps *)

Lemma display_step_get n names acc m :
  FieldMap.get n (foldl (fun acc x => match FieldMap.get x m with
                                      | Some v => FieldMap.insert x v acc
                                      | None => acc
                                      end) acc names) =
  if decide (n ∈ names) then match FieldMap.get n m with Some v => Some v | None => FieldMap.get n acc end
  else FieldMap.get n acc.
Proof.
  revert acc. induction names as [|x names IH]; intros acc; simpl.
  - destruct (decide (n ∈ [])) as [Hd|]; [by apply elem_of_nil in Hd|done].
  - rewrite IH. destruct (decide (n = x)) as [->|Hne].
    + rewrite (decide_True (P := x ∈ x :: names)) by (apply elem_of_cons; by left).
      destruct (FieldMap.get x m) as [v|] eqn:E; [|by destruct (decide _)].
      rewrite FieldMap.get_insert_eq. by destruct (decide _).
    + assert (FieldMap.get n (match FieldMap.get x m with Some v => FieldMap.insert x v acc | None => acc end) =
              FieldMap.get n acc) as ->.
      { destruct (FieldMap.get x m); [|done]. by apply FieldMap.get_insert_ne. }
      apply decide_ext. rewrite elem_of_cons. split; [by right|]. by intros [|].
Qed.

Lemma display_fields_get id m n :
  n ∈ key_names (key id) -> FieldMap.get n (display_fields id m) = FieldMap.get n m.
Proof.
  intros Hn. unfold display_fields. rewrite display_step_get, decide_True by done.
  by destruct (FieldMap.get n m).
Qed.

Lemma elem_of_key_names kf ks n :
  kf ∈ ks -> n = kf_a kf \/ kf_b kf = Some n -> n ∈ key_names ks.
Proof.
  intros Hk Hn. unfold key_names. apply list_elem_of_bind. exists kf. split; [|done].
  destruct Hn as [-> | ->]; [apply elem_of_cons; by left|]. apply elem_of_cons. right.
  simpl. by apply list_elem_of_singleton.
Qed.

Lemma condense_prefix_agree ks eph m1 m2 :
  (forall n, n ∈ key_names ks -> FieldMap.get n m1 = FieldMap.get n m2) ->
  condense_prefix ks eph m1 = condense_prefix ks eph m2.
Proof.
  induction ks as [|kf ks IH]; intros Hm; [done|]. cbn [condense_prefix].
  assert (forall n, n ∈ key_names ks -> FieldMap.get n m1 = FieldMap.get n m2) as Hks.
  { intros n Hn. apply Hm. rewrite key_names_cons. apply elem_of_cons. right. apply elem_of_app. by right. }
  rewrite (IH Hks), (Hm (kf_a kf)) by (apply (elem_of_key_names kf); [apply elem_of_cons; by left|by left]).
  destruct (kf_b kf) as [b|] eqn:Eb; [|done].
  by rewrite (Hm b) by (apply (elem_of_key_names kf); [apply elem_of_cons; by left|by right]).
Qed.

Section Anchors.
Context `{Hasher}.

Lemma condense_candidates_agree id spec m1 m2 :
  ephemeral spec ∈ key id ->
  (forall n, n ∈ key_names (key id) -> FieldMap.get n m1 = FieldMap.get n m2) ->
  condense_candidates id spec m1 = condense_candidates id spec m2.
Proof.
  intros He Hm. unfold condense_candidates. rewrite (condense_prefix_agree _ _ _ _ Hm).
  destruct (kf_b (ephemeral spec)) as [b|] eqn:Eb; [|done]. cbn [mbind option_bind].
  rewrite (Hm (kf_a (ephemeral spec))) by (apply (elem_of_key_names (ephemeral spec)); [done|by left]).
  by rewrite (Hm b) by (apply (elem_of_key_names (ephemeral spec)); [done|by right]).
Qed.

(** The display fields kept by a stream give back, at eviction, exactly the
    anchors it was tallied under when its layer's fields created it. *)
Theorem condense_reconstructs p spec id m :
  condense_error p = None -> condense p = Some spec -> stream_identity p = Some id ->
  condense_candidates id spec (display_fields id m) = condense_candidates id spec m.
Proof.
  intros Hp Hs Hi. destruct (condense_error_None p spec id Hp Hs Hi) as (_ & He & _).
  apply condense_candidates_agree; [done|]. intros n. apply display_fields_get.
Qed.

(** [m2] is [m1] seen from the other side: the pairs swapped, the rest kept. *)
Definition swapped (ks : list KeyField) (m1 m2 : FieldMap.t) : Prop :=
  forall kf, kf ∈ ks ->
    match kf_b kf with
    | None => FieldMap.get (kf_a kf) m2 = FieldMap.get (kf_a kf) m1
    | Some b => FieldMap.get (kf_a kf) m2 = FieldMap.get b m1 /\ FieldMap.get b m2 = FieldMap.get (kf_a kf) m1
    end.

Lemma sorted_pair_comm (x y : list Z) :
  (if lex_leb x y then x ++ y else y ++ x) = (if lex_leb y x then y ++ x else x ++ y).
Proof.
  destruct (lex_leb x y) eqn:E1, (lex_leb y x) eqn:E2; try done.
  - by rewrite (lex_leb_antisym x y).
  - by rewrite (lex_leb_total x y) in E2.
Qed.

Lemma condense_prefix_swapped ks eph m1 m2 :
  swapped ks m1 m2 -> condense_prefix ks eph m2 = condense_prefix ks eph m1.
Proof.
  induction ks as [|kf ks IH]; intros Hm; [done|]. cbn [condense_prefix].
  assert (swapped ks m1 m2) as Hks by (intros k Hk; apply Hm, elem_of_cons; by right).
  rewrite (IH Hks). pose proof (Hm kf ltac:(apply elem_of_cons; by left)) as Hk.
  destruct (bool_decide (kf = eph)); [done|]. destruct (kf_b kf) as [b|]; [|by rewrite Hk].
  destruct Hk as [-> ->].
  destruct (FieldMap.get b m1) as [vb|], (FieldMap.get (kf_a kf) m1) as [va|]; try done.
  cbn [mbind option_bind]. destruct (condense_prefix ks eph m1) as [rest|]; [|done]. cbn [mbind option_bind].
  by rewrite sorted_pair_comm.
Qed.

Definition flip (d : PacketDirection) : PacketDirection := match d with AtoB => BtoA | BtoA => AtoB end.

(** The anchors of a flow do not depend on which way the packet went: the
    reverse packet has the same candidates with the sides exchanged, each with
    the same group, the same member digest and the opposite direction. *)
Theorem condense_direction_agnostic p spec id m1 m2 cs :
  condense_error p = None -> condense p = Some spec -> stream_identity p = Some id ->
  swapped (key id) m1 m2 -> condense_candidates id spec m1 = Some cs ->
  exists cs', condense_candidates id spec m2 = Some cs' /\
    (anchor <$> cs') = rev (anchor <$> cs) /\
    (varying_digest <$> cs') = rev (varying_digest <$> cs) /\
    ((1 < length cs)%nat -> (fold_dir <$> cs') = flip <$> rev (fold_dir <$> cs)).
Proof.
  intros Hp Hs Hi Hm Hc. destruct (condense_error_None p spec id Hp Hs Hi) as (_ & He & b & Hb).
  pose proof (Hm _ He) as Hk. rewrite Hb in Hk. destruct Hk as [Ha2 Hb2].
  unfold condense_candidates in *. rewrite (condense_prefix_swapped _ _ _ _ Hm). rewrite Hb in *.
  cbn [mbind option_bind] in *. rewrite Ha2, Hb2.
  destruct (FieldMap.get (kf_a (ephemeral spec)) m1) as [va|]; [|done].
  destruct (FieldMap.get b m1) as [vb|]; [|done]. cbn [mbind option_bind] in *.
  destruct (condense_prefix (key id) (ephemeral spec) m1) as [prefix|]; [|done]. cbn [mbind option_bind] in *.
  eexists. split; [done|]. injection Hc as <-.
  destruct (decide (encode_value va = encode_value vb)) as [Heq|Hne].
  - rewrite !bool_decide_eq_true_2 by done. simpl. rewrite Heq. split_and!; try done. lia.
  - rewrite !bool_decide_eq_false_2 by congruence. done.
Qed.
End Anchors.

Definition condense_sample : LayerPlugin :=
  mkPlugin "flow" (parse sample_link) [] [] false (fun _ _ => None) (Some pair_identity)
    (Some (mkCondense (mkKeyField "src" (Some "dst"%string)))).

#[local] Instance condense_hasher : Hasher := {| key_hash := foldr Z.add 0; encoding_digest := foldr Z.add 0 |}.

Definition sample_sides (a b : Z) : FieldMap.t :=
  insert_all [("src", VU64 a); ("ttl", VU64 64); ("dst", VU64 b)]%string FieldMap.new.

Lemma condense_reconstructs_witness :
  FieldMap.names (display_fields pair_identity (sample_sides 7 9)) = ["src"; "dst"]%string /\
  condense_candidates pair_identity (mkCondense (mkKeyField "src" (Some "dst"%string)))
    (display_fields pair_identity (sample_sides 7 9)) =
  condense_candidates pair_identity (mkCondense (mkKeyField "src" (Some "dst"%string))) (sample_sides 7 9).
Proof.
  split; [by vm_compute|].
  apply (condense_reconstructs condense_sample); by vm_compute.
Defined.

Lemma condense_direction_agnostic_witness :
  exists cs', condense_candidates pair_identity (mkCondense (mkKeyField "src" (Some "dst"%string))) (sample_sides 9 7)
    = Some cs' /\ (varying_digest <$> cs') = [8; 10].
Proof.
  destruct (condense_candidates pair_identity (mkCondense (mkKeyField "src" (Some "dst"%string))) (sample_sides 7 9))
    as [cs|] eqn:Hc; [|by vm_compute in Hc].
  destruct (condense_direction_agnostic condense_sample _ pair_identity (sample_sides 7 9) (sample_sides 9 7) cs
    eq_refl eq_refl eq_refl) as (cs' & Hc' & _ & Hd & _); [|exact Hc|].
  - intros kf Hkf. apply list_elem_of_singleton in Hkf as ->. by vm_compute.
  - exists cs'. split; [exact Hc'|]. rewrite Hd. vm_compute in Hc. by injection Hc as <-.
Defined.
