(* ===== verification/StoreFinish.v ===== *)
(** * The stream aggregator: end of capture

    [finish] of [crates/pktflow-flows/src/store.rs]: every live stream is closed
    once, children before parents; the live policy empties the store, the
    offline one keeps the closed streams for the report. *)

From S2P Require Import Prelude Values Bytes Types Contract Samples Engine.
From S2P Require Import FlowKeys Rollups Unknowns Arena Store StoreInv.
From S2P Require Import StoreOps StoreCounts StoreKeys StoreHeaps Queries.
From S2P Require Import StoreIngest StoreProps.

Section Finish.
Context `{Hasher}.

(** ** Depths *)

(** Live streams created before [k]. *)
Definition older (k : Z) (s : Stream) : Z := if created_seq s <? k then 1 else 0.

Lemma total_le f g a : (forall s, f s <= g s) -> total f a <= total g a.
Proof. intros Hf. unfold total. induction (streams a) as [|s l IH]; simpl; [lia|]. specialize (Hf s). lia. Qed.

Lemma total_lt f g a id s :
  (forall t, f t <= g t) -> ag_get a id = Some s -> f s < g s -> total f a < total g a.
Proof.
  intros Hf Hs Hlt. assert (s ∈ streams a) as Hin by (apply elem_of_streams; by exists id).
  unfold total. apply list_elem_of_split in Hin as (l1 & l2 & ->). rewrite !sum_of_app. simpl.
  assert (forall l, sum_of f l <= sum_of g l) as Hl.
  { intros l. induction l as [|t l IH]; simpl; [lia|]. specialize (Hf t). lia. }
  pose proof (Hl l1). pose proof (Hl l2). lia.
Qed.

Lemma older_bound k a : total (older k) a <= Z.of_nat (length (streams a)).
Proof.
  rewrite <- sum_of_one. apply (total_le (older k) one). intros s. unfold older, one. by destruct (_ <? _).
Qed.

Lemma older_lt a id s k1 k2 :
  ag_get a id = Some s -> k1 <= created_seq s < k2 -> total (older k1) a < total (older k2) a.
Proof.
  intros Hs Hk. eapply total_lt; [|exact Hs|].
  - intros t. unfold older. destruct (Z.ltb_spec (created_seq t) k1), (Z.ltb_spec (created_seq t) k2); lia.
  - unfold older. rewrite (proj2 (Z.ltb_ge _ _)), (proj2 (Z.ltb_lt _ _)) by lia. lia.
Qed.

Lemma depth_of_None f a : depth_of f a None = 0%nat.
Proof. by destruct f. Qed.

(** Fuel beyond the older streams changes nothing. *)
Lemma depth_of_fuel a f1 f2 p s :
  store_ok a -> ag_get a p = Some s ->
  total (older (created_seq s + 1)) a <= Z.of_nat f1 -> total (older (created_seq s + 1)) a <= Z.of_nat f2 ->
  depth_of f1 a (Some p) = depth_of f2 a (Some p).
Proof.
  intros Ha. pose proof (sk_forest _ Ha) as [_ [L1 _ _] _ _].
  revert f2 p s. induction f1 as [|f1 IH]; intros f2 p s Hs H1 H2.
  all: assert (0 <= total (older (created_seq s)) a) as H0
    by (apply sum_of_nonneg; intros t _; unfold older; by destruct (_ <? _)).
  all: pose proof (older_lt a p s (created_seq s) (created_seq s + 1) Hs ltac:(lia)) as Hlt.
  - lia.
  - destruct f2 as [|f2]; [lia|]. cbn [depth_of]. rewrite Hs. cbn [mbind option_bind]. f_equal.
    destruct (parent s) as [q|] eqn:Eq; [|by rewrite !depth_of_None].
    destruct (L1 _ _ _ Hs Eq) as (qs & Hqs & _ & Hsq).
    assert (total (older (created_seq qs + 1)) a <= total (older (created_seq s)) a).
    { apply total_le. intros t. unfold older.
      destruct (Z.ltb_spec (created_seq t) (created_seq qs + 1)), (Z.ltb_spec (created_seq t) (created_seq s)); lia. }
    eapply IH; [exact Hqs|lia|lia].
Qed.

Definition depth (a : Aggregator) (s : Stream) : nat := depth_of (length (streams a)) a (parent s).

Lemma depth_child a id s p ps :
  store_ok a -> ag_get a id = Some s -> parent s = Some p -> ag_get a p = Some ps ->
  depth a s = Datatypes.S (depth a ps).
Proof.
  intros Ha Hs Hp Hps. unfold depth. rewrite Hp.
  pose proof (sk_forest _ Ha) as [_ [L1 _ _] _ _].
  pose proof (older_bound (created_seq ps + 1) a) as Hb.
  pose proof (older_lt a p ps (created_seq ps) (created_seq ps + 1) Hps ltac:(lia)) as Hlt.
  assert (0 <= total (older (created_seq ps)) a) as H0
    by (apply sum_of_nonneg; intros t _; unfold older; by destruct (_ <? _)).
  destruct (length (streams a)) as [|n] eqn:En; [lia|]. cbn [depth_of]. rewrite Hps. cbn [mbind option_bind].
  f_equal. destruct (parent ps) as [q|] eqn:Eq; [|by rewrite !depth_of_None].
  destruct (L1 _ _ _ Hps Eq) as (qs & Hqs & _ & Hsq).
  assert (total (older (created_seq qs + 1)) a <= total (older (created_seq ps)) a).
  { apply total_le. intros t. unfold older.
    destruct (Z.ltb_spec (created_seq t) (created_seq qs + 1)), (Z.ltb_spec (created_seq t) (created_seq ps)); lia. }
  apply (depth_of_fuel a n (Datatypes.S n) q qs Ha Hqs); lia.
Qed.

(** ** The order *)

#[export] Instance finish_leb_ord : TotalOrd finish_leb.
Proof. unfold finish_leb. apply _. Qed.

Lemma finish_order_sorted a : Sorted_by finish_leb (finish_order a).
Proof. apply sort_by_ord. apply _. Qed.

Lemma finish_order_ids a : store_ok a -> (finish_order a).*2 ≡ₚ st_id <$> streams a.
Proof.
  intros Ha. unfold finish_order. rewrite (sort_by_Permutation finish_leb), <- list_fmap_compose. done.
Qed.

Lemma elem_of_finish_order a e : store_ok a ->
  e ∈ finish_order a <-> exists s, ag_get a e.2 = Some s /\ e = (depth a s, created_seq s, e.2).
Proof.
  intros Ha. pose proof (sk_forest _ Ha) as [[F1 _ _] _ _ _].
  unfold finish_order. rewrite elem_of_sort_by, list_elem_of_fmap. split.
  - intros (s & -> & [id Hs]%elem_of_streams). simpl. exists s. by rewrite (F1 _ _ Hs).
  - intros (s & Hs & ->). simpl in *. exists s. rewrite (F1 _ _ Hs). split; [done|].
    apply elem_of_streams. eauto.
Qed.

Lemma finish_leb_depth e1 e2 : finish_leb e1 e2 = true -> (e2.1.1 <= e1.1.1)%nat.
Proof.
  unfold finish_leb, key_leb, lex_pair, reverse_leb. simpl. intros [Hle%Z.leb_le _]%andb_prop. lia.
Qed.

(** One entry per handle. *)
Lemma finish_order_nodup a : store_ok a -> NoDup (finish_order a).*2.
Proof.
  intros Ha. rewrite (finish_order_ids a Ha). pose proof (sk_forest _ Ha) as [[F1 _ _] _ _ _].
  by apply NoDup_live.
Qed.

(** ** The loop *)

(** [rest] is what is left of the order. *)
Record finishing (a : Aggregator) (rest : list (nat * Z * StreamId)) (b : Aggregator) : Prop := {
  fi_store : store_ok b;
  fi_heaps : heaps_ok False b;
  fi_config : config b = config a;
  fi_live : forall id, is_Some (ag_get b id) <-> id ∈ rest.*2;
  fi_same : forall id s, ag_get b id = Some s -> exists t, ag_get a id = Some t /\ same_node t s;
}.

Lemma finishing_leaf a e rest b s :
  store_ok a -> (forall x, x ∈ e :: rest -> x ∈ finish_order a) -> Sorted_by finish_leb (e :: rest) ->
  finishing a (e :: rest) b -> ag_get b e.2 = Some s -> children s = [].
Proof.
  intros Ha Hsub Hsort [B1 _ _ Blive Bsame] Hs.
  destruct (children s) as [|c cs] eqn:Ec; [done|exfalso].
  pose proof (sk_forest _ B1) as [_ [_ L2 _] _ _].
  destruct (L2 _ _ c Hs) as (ct & Hct & Hp). { rewrite Ec. apply elem_of_cons. by left. }
  assert (c ∈ (e :: rest).*2) as Hin by (apply Blive; eauto).
  apply list_elem_of_fmap in Hin as (x & -> & Hx).
  destruct (Bsame _ _ Hct) as (ca & Hca & (_ & _ & _ & Epc & _)).
  destruct (Bsame _ _ Hs) as (sa & Hsa & _).
  pose proof (depth_child a x.2 ca e.2 sa Ha Hca ltac:(congruence) Hsa) as Hd.
  pose proof (Hsub x Hx) as Hxo. apply (elem_of_finish_order a x Ha) in Hxo as (s1 & Hs1 & Hx1).
  pose proof (Hsub e ltac:(apply elem_of_cons; by left)) as Heo.
  apply (elem_of_finish_order a e Ha) in Heo as (s2 & Hs2 & He2).
  assert (s1 = ca) as -> by congruence. assert (s2 = sa) as -> by congruence.
  rewrite Hx1, He2 in *. simpl in *.
  destruct (Sorted_by_head _ _ _ _ Hsort Hx) as [Heq|Hle].
  - injection Heq as Heq _ _. lia.
  - apply finish_leb_depth in Hle. simpl in Hle. lia.
Qed.

(** A record of the end of capture. *)
Definition capture_end (a : Aggregator) (e : nat * Z * StreamId) (ev : EvictedStream) : Prop :=
  exists s, ag_get a e.2 = Some s /\ ev_reason ev = CaptureEnd /\
    closed (ev_stream ev) = Some CaptureEnd /\ same_node s (ev_stream ev).

Lemma finish_live_loop a rest b :
  store_ok a -> is_live_policy (config a) = true ->
  (forall x, x ∈ rest -> x ∈ finish_order a) -> Sorted_by finish_leb rest -> NoDup rest.*2 ->
  finishing a rest b ->
  let b' := foldl finish_one b rest in
  finishing a [] b' /\ exists evs, emitted b' = emitted b ++ evs /\ Forall2 (capture_end a) rest evs.
Proof.
  intros Ha Hp. revert b. induction rest as [|e rest IH]; intros b Hsub Hsort Hnd Hb.
  { split; [done|]. exists []. rewrite app_nil_r. by split; [|constructor]. }
  cbn [foldl]. pose proof Hb as [B1 B2 B3 B4 B5].
  destruct (proj2 (B4 e.2)) as [s Hs]. { rewrite fmap_cons. apply elem_of_cons. by left. }
  pose proof (finishing_leaf a e rest b s Ha Hsub Hsort Hb Hs) as Hleaf.
  assert (finish_one b e = evict e.2 CaptureEnd b) as -> by (unfold finish_one; by rewrite B3, Hp).
  destruct (evict_ok b e.2 s CaptureEnd B1 Hs Hleaf) as [Hev Hok].
  destruct (ev_frame _ _ _ _ _ Hev) as (_ & Ecfg & _).
  apply NoDup_cons in Hnd as [Hni Hnd].
  destruct (IH (evict e.2 CaptureEnd b)) as [Hfin (evs & Eem & Hevs)].
  - intros x Hx. apply Hsub, elem_of_cons. by right.
  - by apply StronglySorted_inv in Hsort as [? _].
  - done.
  - split.
    + done.
    + destruct B2 as [L E S]. split; [by eapply lru_ok_evicted|by eapply expiry_ok_evicted|done].
    + congruence.
    + intros id. pose proof (ev_shrinks _ _ _ _ _ Hev) as Hsh. split.
      * intros [t' Ht']. destruct (sh_bwd _ _ _ _ Hsh _ _ Ht') as (t & Hne & Ht & _).
        assert (id ∈ (e :: rest).*2) as Hin by (apply B4; eauto).
        rewrite fmap_cons in Hin. apply elem_of_cons in Hin as [|]; done.
      * intros Hin. destruct (proj2 (B4 id)) as [t Ht]. { rewrite fmap_cons. apply elem_of_cons. by right. }
        destruct (sh_fwd _ _ _ _ Hsh _ _ Ht) as (t' & Ht' & _); [|by eauto]. intros ->. done.
    + intros id t' Ht'. destruct (sh_bwd _ _ _ _ (ev_shrinks _ _ _ _ _ Hev) _ _ Ht') as (t & _ & Ht & Hsn & _).
      destruct (B5 _ _ Ht) as (u & Hu & Hun). exists u. split; [done|]. by eapply same_node_trans.
  - split; [done|]. exists (mkEvicted (set_closed CaptureEnd s) CaptureEnd :: evs).
    rewrite Eem, (ev_emitted _ _ _ _ _ Hev), <- app_assoc. split; [done|]. constructor; [|done].
    destruct (B5 _ _ Hs) as (u & Hu & Hun). by exists u.
Qed.

(** Offline, streams are marked in place. *)
Lemma finish_none_loop a rest b :
  is_live_policy (config b) = false -> NoDup rest.*2 ->
  (forall e, e ∈ rest -> ag_get b e.2 = ag_get a e.2 /\ is_Some (ag_get a e.2)) ->
  let b' := foldl finish_one b rest in
  (forall id, ag_get b' id = if decide (id ∈ rest.*2) then set_closed CaptureEnd <$> ag_get b id else ag_get b id) /\
  exists evs, emitted b' = emitted b ++ evs /\ Forall2 (capture_end a) rest evs.
Proof.
  revert b. induction rest as [|e rest IH]; intros b Hp Hnd Hg.
  { split; [intros id; rewrite decide_False; [done|by intros ?%elem_of_nil]|].
    exists []. rewrite app_nil_r. by split; [|constructor]. }
  cbn [foldl]. apply NoDup_cons in Hnd as [Hni Hnd].
  destruct (Hg e) as [Hge [s Hs]]; [apply elem_of_cons; by left|]. rewrite Hs in Hge.
  set (c := set_emitted (emitted (modify e.2 (set_closed CaptureEnd) b) ++
    [mkEvicted (set_closed CaptureEnd s) CaptureEnd]) (modify e.2 (set_closed CaptureEnd) b)).
  assert (finish_one b e = c) as -> by (unfold finish_one; by rewrite Hp, Hge).
  assert (forall id, ag_get c id = if decide (id = e.2) then Some (set_closed CaptureEnd s) else ag_get b id) as Hgc.
  { intros id. change (ag_get c id) with (ag_get (modify e.2 (set_closed CaptureEnd) b) id).
    rewrite ag_get_modify. case_decide; [by rewrite Hge|done]. }
  destruct (IH c) as [H1 (evs & H2 & H3)]; [done|done| |].
  - intros x Hx. destruct (Hg x) as [Hgx Hsx]; [apply elem_of_cons; by right|]. split; [|done].
    rewrite Hgc, decide_False; [done|]. intros Heq. apply Hni. rewrite <- Heq. by apply list_elem_of_fmap_2.
  - split.
    + intros id. rewrite H1, Hgc, fmap_cons. destruct (decide (id = e.2)) as [->|Hne].
      * rewrite decide_False by done. rewrite decide_True by (apply elem_of_cons; by left). by rewrite Hge.
      * apply decide_ext. rewrite elem_of_cons. split; [by right|by intros [|]].
    + exists (mkEvicted (set_closed CaptureEnd s) CaptureEnd :: evs).
      rewrite H2. simpl. rewrite <- app_assoc. split; [done|]. constructor; [by exists s|done].
Qed.

(** Marking leaves what readers need as it was. *)
Record marked (a b : Aggregator) : Prop := {
  mk_shape : shape_map (ag_get a) (ag_get b);
  mk_frame : config b = config a /\ roots b = roots a /\ index b = index a /\ next_seq b = next_seq a;
  mk_blen : blen (slots (arena b)) = blen (slots (arena a));
}.

Lemma marked_finish_one a b e : is_live_policy (config b) = false -> marked a b -> marked a (finish_one b e).
Proof.
  intros Hp [M1 (M2 & M3 & M4 & M5) M6]. unfold finish_one. rewrite Hp.
  destruct (ag_get b e.2) as [s|] eqn:Es; [|by split].
  split; [|done|simpl; by rewrite blen_slots_get_mut].
  eapply shape_map_trans; [exact M1|]. intros x.
  change (ag_get (set_emitted _ ?b) x) with (ag_get b x). rewrite ag_get_modify.
  case_decide; [subst; rewrite Es; constructor; by split|]. destruct (ag_get b x); constructor. apply same_shape_refl.
Qed.

Lemma marked_fold a b es : is_live_policy (config a) = false -> marked a b -> marked a (foldl finish_one b es).
Proof.
  intros Hp. revert b. induction es as [|e es IH]; intros b Hb; [done|]. simpl. apply IH.
  apply marked_finish_one; [|done]. destruct (mk_frame _ _ Hb) as [-> _]. done.
Qed.

Lemma marked_readable a b : marked a b -> readable a -> readable b.
Proof.
  intros [M1 (M2 & M3 & M4 & M5) M6] [Hf Hs]. split; [|by rewrite M6].
  rewrite M3, M4, M5. by eapply forest_ok_shape.
Qed.

(** The store can be read after [finish], whatever the policy. *)
Lemma finish_readable e c pkts :
  engine_wf e -> config_ok c -> trace_ok pkts -> readable (finish (run e c pkts)).
Proof.
  intros He Hc Ht. destruct (reached_run False e c pkts He Hc Ht) as (Ha & Hh & Hcfg & _); [done|].
  set (a := run e c pkts) in *. unfold finish. destruct (is_live_policy (config a)) eqn:Hp.
  - destruct (finish_live_loop a (finish_order a) a) as [Hfin _]; try done.
    { apply finish_order_sorted. }
    { by apply finish_order_nodup. }
    { split; try done; [|intros id s Hs; exists s; split; [done|apply same_node_refl]].
      intros id. rewrite (finish_order_ids a Ha), list_elem_of_fmap. pose proof (sk_forest _ Ha) as [[F1 _ _] _ _ _].
      split.
      - intros [s Hs]. exists s. split; [symmetry; by apply F1|apply elem_of_streams; by exists id].
      - intros (s & -> & [i Hs]%elem_of_streams). exists s. by rewrite (F1 _ _ Hs). }
    pose proof (fi_store _ _ _ Hfin) as Hb. split; [apply Hb|apply (ao_size _ (sk_arena _ Hb))].
  - eapply marked_readable; [apply marked_fold; [done|]|].
    + split; [apply shape_map_refl|done|done].
    + split; [apply Ha|apply (ao_size _ (sk_arena _ Ha))].
Qed.

(** What the records of a pass over the whole order say. *)
Lemma capture_end_order a evs i j x y :
  store_ok a -> Forall2 (capture_end a) (finish_order a) evs ->
  evs !! i = Some x -> evs !! j = Some y -> parent (ev_stream x) = Some (st_id (ev_stream y)) -> (i < j)%nat.
Proof.
  intros Ha Hf Hx Hy Hp. pose proof (sk_forest _ Ha) as [[F1 _ _] _ _ _].
  destruct (Forall2_lookup_r _ _ _ _ _ Hf Hx) as (ex & Hex & (s & Hs & _ & _ & (_ & _ & _ & Eps & _))).
  destruct (Forall2_lookup_r _ _ _ _ _ Hf Hy) as (ey & Hey & (t & Ht & _ & _ & (Eid & _))).
  assert (st_id (ev_stream y) = ey.2) as Hid by (rewrite Eid; by apply F1).
  rewrite Hid, Eps in Hp. pose proof (depth_child a _ _ _ _ Ha Hs Hp Ht) as Hd.
  assert (ex ∈ finish_order a) as Hexo by by eapply list_elem_of_lookup_2.
  assert (ey ∈ finish_order a) as Heyo by by eapply list_elem_of_lookup_2.
  apply (elem_of_finish_order a ex Ha) in Hexo as (s1 & Hs1 & Ex).
  apply (elem_of_finish_order a ey Ha) in Heyo as (t1 & Ht1 & Ey).
  assert (s1 = s) as -> by congruence. assert (t1 = t) as -> by congruence.
  destruct (decide (i < j)%nat) as [|Hge]; [done|exfalso].
  assert (ey.1.1 = depth a t /\ ex.1.1 = depth a s) as [Dy Dx] by (by rewrite Ey, Ex).
  destruct (decide (i = j)) as [->|Hne].
  - assert (ex = ey) as -> by congruence. lia.
  - pose proof (Sorted_by_lookup _ _ j i ey ex (finish_order_sorted a) ltac:(lia) Hey Hex) as Hle.
    apply finish_leb_depth in Hle. lia.
Qed.

Lemma capture_end_ids a evs :
  store_ok a -> Forall2 (capture_end a) (finish_order a) evs ->
  (fun ev => st_id (ev_stream ev)) <$> evs ≡ₚ st_id <$> streams a.
Proof.
  intros Ha Hf. pose proof (sk_forest _ Ha) as [[F1 _ _] _ _ _].
  rewrite <- (finish_order_ids a Ha).
  assert ((fun ev => st_id (ev_stream ev)) <$> evs = (finish_order a).*2) as ->; [|done].
  induction Hf as [|e ev os evs (s & Hs & _ & _ & (Eid & _)) _ IH]; [done|].
  rewrite !fmap_cons, IH. f_equal. rewrite Eid. by apply F1.
Qed.

(** C22: At the end of capture every live stream is handed to the sink exactly once,
    closed as [CaptureEnd], children before their parents; the live policy then
    has an empty store, the offline policy keeps every stream, marked closed. *)
Theorem finish_closes_all e c pkts :
  engine_wf e -> config_ok c -> trace_ok pkts ->
  let a := run e c pkts in
  exists evs, emitted (finish a) = emitted a ++ evs /\
    (fun ev => st_id (ev_stream ev)) <$> evs ≡ₚ st_id <$> streams a /\
    Forall (fun ev => ev_reason ev = CaptureEnd /\ closed (ev_stream ev) = Some CaptureEnd) evs /\
    (forall i j x y, evs !! i = Some x -> evs !! j = Some y ->
       parent (ev_stream x) = Some (st_id (ev_stream y)) -> (i < j)%nat) /\
    match eviction c with
    | EvictNone => forall id, ag_get (finish a) id = set_closed CaptureEnd <$> ag_get a id
    | EvictLive _ _ _ => streams (finish a) = [] /\ roots (finish a) = [] /\ live_count (finish a) = 0
    end.
Proof.
  intros He Hc Ht a. destruct (reached_run False e c pkts He Hc Ht) as (Ha & Hh & Hcfg & _); [done|].
  fold a in Ha, Hh, Hcfg.
  assert (forall evs, Forall2 (capture_end a) (finish_order a) evs ->
    Forall (fun ev => ev_reason ev = CaptureEnd /\ closed (ev_stream ev) = Some CaptureEnd) evs) as Hcl.
  { intros evs Hf. apply Forall_lookup_2. intros i ev Hev.
    by destruct (Forall2_lookup_r _ _ _ _ _ Hf Hev) as (x & _ & (s & _ & ? & ? & _)). }
  pose proof (finish_order_nodup a Ha) as Hnd.
  assert (forall id, is_Some (ag_get a id) <-> id ∈ (finish_order a).*2) as Hids.
  { intros id. split.
    - intros [s Hs]. apply list_elem_of_fmap. exists (depth a s, created_seq s, id). split; [done|].
      apply (elem_of_finish_order a _ Ha). by exists s.
    - intros (x & -> & Hx)%list_elem_of_fmap. apply (elem_of_finish_order a x Ha) in Hx as (s & Hs & _). eauto. }
  unfold finish. destruct (eviction c) as [|it linger cap] eqn:Ev.
  - destruct (finish_none_loop a (finish_order a) a) as [Hg (evs & Hem & Hf)]; [|done| |].
    { unfold is_live_policy. by rewrite Hcfg, Ev. }
    { intros x Hx. split; [done|]. apply Hids. by apply list_elem_of_fmap_2. }
    exists evs. split_and!; [done|by apply capture_end_ids|by apply Hcl| |].
    + intros i j x y. by apply (capture_end_order a evs).
    + intros id. rewrite Hg. case_decide as Hd; [done|]. destruct (ag_get a id) as [s|] eqn:Es; [|done].
      destruct Hd. apply Hids. eauto.
  - destruct (finish_live_loop a (finish_order a) a) as [Hfin (evs & Hem & Hf)]; try done.
    { unfold is_live_policy. by rewrite Hcfg, Ev. }
    { apply finish_order_sorted. }
    { split; try done. intros id s Hs. exists s. split; [done|apply same_node_refl]. }
    set (b := foldl finish_one a (finish_order a)) in *.
    assert (forall id, ag_get b id = None) as Hnone.
    { intros id. apply eq_None_not_Some. rewrite (fi_live _ _ _ Hfin). by intros ?%elem_of_nil. }
    assert (streams b = []) as Hst.
    { destruct (streams b) as [|s l] eqn:E; [done|]. assert (s ∈ streams b) as Hin by (rewrite E; apply elem_of_cons; by left).
      apply elem_of_streams in Hin as [id Hs]. by rewrite Hnone in Hs. }
    exists evs. split_and!; [done|by apply capture_end_ids|by apply Hcl| |done| |].
    + intros i j x y. by apply (capture_end_order a evs).
    + destruct (roots b) as [|r l] eqn:E; [done|].
      assert (r ∈ roots b) as Hin by (rewrite E; apply elem_of_cons; by left).
      apply (fo_roots _ _ (fo_rts _ _ _ _ (sk_forest _ (fi_store _ _ _ Hfin)))) in Hin as (s & Hs & _).
      by rewrite Hnone in Hs.
    + rewrite (live_count_nonneg b (fi_store _ _ _ Hfin)), Hst. done.
Qed.
End Finish.

(** ** Timeouts that fit

    No sum of a time and a timeout overflows while the latest packet's do: a
    stream's times are times of packets. *)

Section Running.
Context `{Hasher}.

Definition times_within (b : SystemTime) (s : Stream) : Prop :=
  last_seen s <= b /\ forall t, close_eligible_since s = Some t -> t <= b.

(** What a timeout is added to, up to [b]. *)
Definition sums_fit (c : AggregatorConfig) (b : SystemTime) : Prop :=
  match eviction c with
  | EvictNone => True
  | EvictLive idle linger _ => time_fits (b + idle) = true /\ time_fits (b + linger) = true
  end.

Record running_within (c : AggregatorConfig) (b : SystemTime) (a : Aggregator) : Prop := {
  rw_config : config a = c;
  rw_clear : ag_overflowed a = false;
  rw_times : forall id s, ag_get a id = Some s -> times_within b s;
}.

Lemma time_fits_le t t' : t <= t' -> time_fits t' = true -> time_fits t = true.
Proof.
  unfold time_fits. intros Hle Ht%Z.leb_le. apply Z.leb_le.
  pose proof (Z.div_le_mono t t' 1000000000 ltac:(lia) Hle). lia.
Qed.

Context (c : AggregatorConfig) (b : SystemTime) (Hfit : sums_fit c b).

Lemma running_frame a a' :
  config a' = config a -> ag_overflowed a' = ag_overflowed a -> (forall id, ag_get a' id = ag_get a id) ->
  running_within c b a -> running_within c b a'.
Proof. intros Hc Ho Hg [R1 R2 R3]. split; [congruence|congruence|]. intros id s. rewrite Hg. apply R3. Qed.

Lemma running_modify a id f :
  (forall s, times_within b s -> times_within b (f s)) -> running_within c b a -> running_within c b (modify id f a).
Proof.
  intros Hf [R1 R2 R3]. split; [done|done|]. intros x s. rewrite ag_get_modify. case_decide as Hd; [|apply R3].
  subst x. destruct (ag_get a id) as [t|] eqn:Et; [|done]. intros [= <-]. apply Hf. by apply (R3 id).
Qed.

Lemma running_check a t idle linger cap :
  eviction c = EvictLive idle linger cap -> t <= b + idle \/ t <= b + linger ->
  running_within c b a -> running_within c b (check_time t a).
Proof.
  intros Ev Ht [R1 R2 R3]. split; [done| |done]. unfold sums_fit in Hfit. rewrite Ev in Hfit.
  destruct Hfit as [H1 H2]. simpl. rewrite R2.
  destruct Ht as [Ht|Ht]; [by rewrite (time_fits_le _ _ Ht H1)|by rewrite (time_fits_le _ _ Ht H2)].
Qed.

Lemma running_deadline_fits a id : running_within c b a -> deadline_fits a id = true.
Proof.
  intros [R1 R2 R3]. unfold deadline_fits. rewrite R1. unfold sums_fit in Hfit.
  destruct (eviction c) as [|idle linger cap]; [done|]. destruct (ag_get a id) as [s|] eqn:Es; [|done].
  destruct (R3 _ _ Es) as [Hl Hc]. destruct Hfit as [H1 H2].
  rewrite (time_fits_le (last_seen s + idle) (b + idle)); [simpl|lia|done].
  destruct (close_eligible_since s) as [t|]; [|done].
  specialize (Hc t eq_refl). apply (time_fits_le _ (b + linger)); [lia|done].
Qed.

Lemma running_call a id : running_within c b a -> running_within c b (call_deadline_of a id).1.
Proof.
  intros Hr. apply (running_frame a); try done. simpl. rewrite (running_deadline_fits a id Hr). apply orb_false_r.
Qed.

(** ** Creating and folding *)

Lemma running_create par k kf st rolls cond dir proto ts a :
  ts <= b -> running_within c b a -> running_within c b (create_stream_raw par k kf st rolls cond dir proto ts a).1.
Proof.
  intros Hts Hr. unfold create_stream_raw. cbv zeta. cbn [fst].
  set (id := next_id (arena a)). set (s := mkStream id _ _ _ _ _ _ _ _ _ _ _ _ _ _ _ _ _).
  set (a1 := set_index _ _). assert (running_within c b a1) as R1.
  { destruct Hr as [R1 R2 R3]. split; [done|done|]. intros x t Hx.
    destruct (get_place_inv (arena a) id s x t Hx) as [->|Hold]; [|by apply (R3 x)]. by split. }
  clearbody a1. set (a2 := match par with Some p => _ | None => _ end).
  assert (running_within c b a2) as R2.
  { unfold a2. destruct par as [p|]; [|by apply (running_frame a1)].
    destruct (ag_get a1 p); [|by apply (running_frame a1)]. by apply running_modify. }
  clearbody a2. destruct (eviction (config a2)) as [|idle linger cap] eqn:Ev; [done|].
  rewrite (rw_config _ _ _ R2) in Ev. apply (running_frame (check_time (ts + idle) a2)); try done.
  apply (running_check a2 _ _ _ _ Ev); [lia|done].
Qed.

Lemma running_condensed_node par proto id cd g ts a :
  ts <= b -> running_within c b a -> running_within c b (condensed_node par proto id cd g ts a).1.
Proof.
  intros Hts Hr. unfold condensed_node. destruct (n ← node g; _) as [n|]; [done|].
  pose proof (running_create par (CONDENSED_KEY_SENTINEL :: anchor cd)
    (FieldMap.insert (anchor_field cd) (anchor_value cd) FieldMap.new) None (new_rollups id (config a))
    (Some (mkCondensed 0 (anchor_field cd) false)) (fold_dir cd) proto ts a Hts Hr) as Hc.
  destruct (create_stream_raw _ _ _ _ _ _ _ _ _ a) as [a' n]. by apply (running_frame a').
Qed.

Lemma running_join proto ckey digest n a :
  running_within c b a -> running_within c b (join_group proto ckey digest n a).
Proof.
  intros Hr. unfold join_group. destruct (ag_condense a !! ckey) as [g|]; [|done].
  destruct (_ <? CONDENSE_MEMBER_CAP), (bool_decide _); simpl; try apply running_modify; try done;
    by apply (running_frame a).
Qed.

Lemma running_fold_first par proto id cs ts a r :
  ts <= b -> running_within c b a -> fold_first par proto id cs ts a = Some r -> running_within c b r.1.
Proof.
  intros Hts Hr. induction cs as [|cd cs IH]; [done|]. simpl.
  destruct (condense_fold par proto id cd ts a) as [r1|] eqn:E; [|done]. intros [= ->].
  unfold condense_fold in E. destruct (ag_condense a !! _) as [g|]; [|done]. cbn [mbind option_bind] in E.
  destruct (bool_decide _ && _); [done|].
  pose proof (running_condensed_node par proto id cd g ts a Hts Hr) as Hc.
  destruct (condensed_node par proto id cd g ts a) as [a2 n2]. injection E as <-. by apply running_join.
Qed.

Lemma running_get_or_insert par k id cond l dir ts a :
  ts <= b -> running_within c b a -> running_within c b (get_or_insert par k id cond l dir ts a).1.
Proof.
  intros Hts Hr. unfold get_or_insert. destruct (bucket_hit _ _ _) as [n|]; [done|].
  pose proof (running_create par k (display_fields id (fields l)) (initial <$> lifecycle id)
    (new_rollups id (config a)) None dir (protocol l) ts a Hts Hr) as Hc.
  fold (create_stream par k id None l dir ts a) in Hc.
  destruct (spec ← cond; _) as [cs|].
  - destruct (fold_first par (protocol l) id cs ts a) as [r|] eqn:E; [exact (running_fold_first _ _ _ _ _ _ _ Hts Hr E)|].
    destruct (create_stream _ _ _ _ _ _ _ _) as [a1 n1]. cbn [fst] in *. by apply (running_frame a1).
  - destruct (create_stream _ _ _ _ _ _ _ _) as [a1 n1]. exact Hc.
Qed.

(** ** Evicting *)

Lemma running_unlink id par a : running_within c b a -> running_within c b (unlink id par a).
Proof.
  intros Hr. unfold unlink. destruct par as [p|]; [|by apply (running_frame a)].
  set (a1 := modify p _ a). assert (running_within c b a1) as R1 by by apply running_modify.
  pose proof (running_call a1 p R1) as R2. clearbody a1. destruct (call_deadline_of a1 p) as [a2 deadline].
  cbn [fst] in R2. set (a3 := match deadline with Some d => _ | None => _ end).
  assert (running_within c b a3) as R3 by (unfold a3; destruct deadline; [by apply (running_frame a2)|done]).
  clearbody a3. destruct (ag_get a3 p); [by apply (running_frame a3)|done].
Qed.

Lemma running_evict id r a : running_within c b a -> running_within c b (evict id r a).
Proof.
  intros Hr. unfold evict. destruct (remove (arena a) id) as [[s ar]|] eqn:Er; [|done]. cbv zeta.
  rewrite condense_evict_eq, unindex_eq. set (a1 := set_index _ _).
  assert (running_within c b a1) as R1.
  { destruct Hr as [R1 R2 R3]. split; [done|done|]. intros x t.
    change (get ar x = Some t -> times_within b t). rewrite (get_remove _ _ _ _ x Er). case_decide; [done|apply R3]. }
  clearbody a1. apply (running_frame (unlink id (parent s) a1)); try done. by apply running_unlink.
Qed.

Lemma running_sweep a : running_within c b a -> running_within c b (sweep a).
Proof.
  intros Hr. unfold sweep. destruct (eviction (config a)) as [|idle linger cap]; [done|].
  apply run_loop_inv; [| |done].
  - intros a1 a2 R1 (v & d & i & g & rest & _ & _ & Hv & Hb)%sweep_body_due. cbv zeta in Hb.
    specialize (Hv (running_deadline_fits a1 _ R1)). subst v.
    set (a3 := set_expiry rest _) in Hb. assert (running_within c b a3) as R3 by by apply (running_frame a1).
    clearbody a3. destruct (deadline_of a3 _) as [dl|]; [|by simplify_eq].
    destruct (_ <? dl); [injection Hb as <-; by apply (running_frame a3)|].
    destruct (ag_get a3 _) as [s|]; [|by simplify_eq].
    destruct (children s); injection Hb as <-; [by apply running_evict|done].
  - intros a1 a2 R1 Hb. assert (a2 = a1) as ->; [|done].
    unfold sweep_body, call_deadline_of in Hb. repeat case_match; simplify_eq; done.
Qed.

Lemma running_enforce a : running_within c b a -> running_within c b (enforce_max_streams a).
Proof.
  intros Hr. unfold enforce_max_streams. destruct (eviction (config a)) as [|idle linger cap]; [done|].
  assert (forall a1 a2 o, running_within c b a1 -> enforce_streams_body cap a1 = o ->
    o = Again a2 \/ o = Done a2 -> running_within c b a2) as Hbody.
  { intros a1 a2 o R1 <- Ho. unfold enforce_streams_body in Ho.
    repeat case_match; destruct Ho as [Ho|Ho]; simplify_eq; try done;
      try (by apply (running_frame a1)); apply running_evict; by apply (running_frame a1). }
  apply run_loop_inv; [| |done]; intros a1 a2 R1 Hb; apply (Hbody a1 a2 _ R1 Hb); auto.
Qed.

(** ** Whole runs *)

Lemma touch_times id m dir ts n s : ts <= b -> times_within b s -> times_within b (touch id m dir ts n s).1.
Proof.
  intros Hts [_ Hc]. pose proof (touch_spec id m dir ts n s) as Ht. cbv zeta in Ht.
  destruct Ht as (_ & _ & Hl & _ & _ & _ & Hs). split; [by rewrite Hl|]. intros t Ht.
  destruct Hs as [Hs|[Hs|[Hs _]]]; rewrite Hs in Ht; [by apply Hc|done|by injection Ht as <-].
Qed.

Lemma running_layer ts n st l :
  ts <= b -> running_within c b (is_agg st) -> running_within c b (is_agg (ingest_layer ts n st l)).
Proof.
  intros Hts Hr. unfold ingest_layer. cbv zeta. destruct (plugin_by_name _ _) as [p|]; [|done].
  destruct (stream_identity p) as [ident|]; [|done]. destruct (flow_key ident (fields l)) as [[k dir]|err];
    [|by apply (running_frame (is_agg st))].
  pose proof (running_get_or_insert (is_parent st) k ident (condense p) l dir ts (is_agg st) Hts Hr) as Hg.
  destruct (get_or_insert _ _ _ _ _ _ _ _) as [a1 [id d]]. cbn [fst is_agg] in Hg |- *.
  set (a2 := modify id _ _). assert (running_within c b a2) as R2.
  { apply running_modify; [|by apply (running_frame a1)]. intros s. by apply touch_times. }
  clearbody a2. destruct (match ag_get _ _ with Some s => _ | None => _ end); [|done].
  destruct (eviction (config a2)) as [|idle linger cap] eqn:Ev; [done|]. rewrite (rw_config _ _ _ R2) in Ev.
  apply (running_frame (check_time (ts + linger) a2)); try done.
  apply (running_check a2 _ _ _ _ Ev); [lia|done].
Qed.

Lemma running_ingest p a : timestamp (meta p) <= b -> running_within c b a -> running_within c b (ingest p a).
Proof.
  intros Hts Hr. rewrite ingest_eq. apply running_enforce.
  assert (running_within c b (ingest_prologue p a)) as R1.
  { unfold ingest_prologue. set (a1 := set_stop_classes _ _).
    assert (running_within c b (sweep a1)) as Rs by (apply running_sweep; by apply (running_frame a)).
    destruct (compact_lru_eq (sweep a1)) as [l ->]. by apply (running_frame (sweep a1)). }
  revert R1. generalize (ingest_prologue p a). intros a1 R1.
  assert (running_within c b (is_agg (ingest_loop p a1))) as R2.
  { unfold ingest_loop. change a1 with (is_agg (mkIngest a1 None None)) in R1. revert R1.
    generalize (mkIngest a1 None None). induction (layers p) as [|l ls IH]; intros st Rst; [done|].
    simpl. apply IH. by apply running_layer. }
  unfold ingest_epilogue. cbv zeta. set (a2 := match is_parent _ with Some i => _ | None => _ end).
  assert (running_within c b a2) as R3 by (unfold a2; destruct (is_parent _); [by apply running_modify|done]).
  clearbody a2. destruct (unknown p); [by apply (running_frame a2)|done].
Qed.

Lemma running_finish a : running_within c b a -> running_within c b (finish a).
Proof.
  unfold finish. generalize (finish_order a). intros es. revert a. induction es as [|x es IH]; intros a Hr; [done|].
  simpl. apply IH. unfold finish_one. destruct (is_live_policy (config a)); [by apply running_evict|].
  destruct (ag_get a x.2); [|done]. set (a1 := modify _ _ a).
  assert (running_within c b a1) as R1 by by apply running_modify. by apply (running_frame a1).
Qed.
End Running.

(** Every packet's own sums fit. *)
Definition packets_fit (c : AggregatorConfig) (pkts : list DissectedPacket) : Prop :=
  Forall (fun p => sums_fit c (timestamp (meta p))) pkts.

Lemma packets_latest c pkts : packets_fit c pkts ->
  exists b, sums_fit c b /\ Forall (fun p => timestamp (meta p) <= b) pkts.
Proof.
  intros Hp. induction pkts as [|p pkts IH].
  - exists (match eviction c with EvictNone => 0 | EvictLive idle linger _ => Z.min (- idle) (- linger) end).
    split; [|constructor]. unfold sums_fit. destruct (eviction c) as [|idle linger cap]; [done|].
    split; (eapply (time_fits_le _ 0); [lia|reflexivity]).
  - apply Forall_cons in Hp as [Hp Hps]. destruct (IH Hps) as (b & Hb & Hle).
    destruct (Z.le_ge_cases b (timestamp (meta p))) as [Hc|Hc].
    + exists (timestamp (meta p)). split; [done|]. constructor; [done|].
      eapply Forall_impl; [exact Hle|]. intros q Hq. simpl in *. lia.
    + exists b. split; [done|]. by constructor.
Qed.

(** A run whose timeouts fit never overflows, nor does the end of its capture. *)
Theorem run_running `{Hasher} e c pkts : packets_fit c pkts ->
  ag_overflowed (run e c pkts) = false /\ ag_overflowed (finish (run e c pkts)) = false.
Proof.
  intros (b & Hb & Hle)%packets_latest.
  assert (running_within c b (run e c pkts)) as Hr.
  { induction pkts as [|p pkts IH] using rev_ind.
    - split; [done|done|]. intros id s. unfold ag_get, get. simpl. unfold slot_at. simpl. by destruct (_ <=? _).
    - apply Forall_app in Hle as [Hle Hp]. rewrite Forall_singleton in Hp. rewrite run_snoc.
      apply running_ingest; [done..|by apply IH]. }
  split; [by apply (rw_clear c b)|]. apply (rw_clear c b). by apply running_finish.
Qed.

Lemma finish_closes_all_witness :
  let a := run store_engine live_config store_trace in
  streams (finish a) = [] /\ (fun ev => st_id (ev_stream ev)) <$> drop 4 (emitted (finish a)) = [mkId 3 1; mkId 0 1].
Proof.
  split; [|by vm_compute].
  destruct (finish_closes_all store_engine live_config store_trace store_engine_wf live_config_ok store_trace_ok)
    as (evs & _ & _ & _ & _ & Hs & _). exact Hs.
Defined.
