(* ===== verification/Fmt.v ===== *)
(** * Rendering field values

    Models [crates/pktflow-view/src/fmt.rs]: the shape- and name-directed
    rendering of values shared by every lens, the RFC 5952 text of an IPv6
    address, TCP flags and the table formats.  The RFC 3339 format of the
    [time] crate ([rfc3339]) is a parameter of [Json.v].

    [FmtRead] reads the rendering of an IPv6 address back. *)

From S2P Require Import Prelude.
From S2P Require Import Values.
From S2P Require Import Types.
From S2P Require Import Text.

(** What the view layer takes from outside its sources: the route resolver an
    embedder may register, the Unicode case tables of the standard library and
    the [regex] crate ([RegexBuilder::case_insensitive(true).build]). *)
Class ViewEnv := {
  resolver : option (RouteId -> option string);
  to_uppercase : string -> string;
  to_lowercase : string -> string;
  Regex : Type;
  regex_build : string -> Regex + string;
  is_match : Regex -> string -> bool;
}.

Section Fmt.
Context `{Env : ViewEnv}.

Definition resolve_route_name (route_id : RouteId) : option string :=
  match resolver with Some resolve => resolve route_id | None => None end.

Definition get_u64 (value : Value) : option Z :=
  match value with
  | VU64 v => Some v
  | VI64 v => if 0 <=? v then Some v else None
  | _ => None
  end.

Local Open Scope string_scope.

Definition format_protocol_display_name (name : string) : string :=
  if String.eqb name "ipv4" then "IPv4"
  else if String.eqb name "ipv6" then "IPv6"
  else if String.eqb name "icmpv4" then "ICMPv4"
  else if String.eqb name "icmpv6" then "ICMPv6"
  else if String.eqb name "dhcpv6" then "DHCPv6"
  else if String.eqb name "bacnet_ip" then "BACnet/IP"
  else if String.eqb name "pvst_plus" then "PVST+"
  else if String.eqb name "netflow9" then "NetFlow 9"
  else to_uppercase name.

(** [if cond { if let Ok(v) = uN::try_from(val) { return Some(..) } }], then the rest. *)
Definition try_route (cond : bool) (max val : Z) (route : Z -> RouteId) (rest : option RouteId)
    : option RouteId :=
  if cond && (val <=? max)%Z then Some (route val) else rest.

Definition is_port_name (name : string) : bool :=
  String.eqb name "src_port" || String.eqb name "dst_port" || String.eqb name "port".

Definition resolve_field_route_id (protocol name : string) (val : Z) : option RouteId :=
  try_route (String.eqb name "ethertype"
             || (String.eqb protocol "gre" && String.eqb name "protocol")
             || (String.eqb protocol "llc" && String.eqb name "pid")) u16_max val EtherType
  (try_route (String.eqb name "next_header"
              || (String.eqb protocol "ipv4" && String.eqb name "protocol")) u8_max val IpProtocol
  (try_route (String.eqb protocol "udp" && is_port_name name) u16_max val UdpPort
  (try_route (String.eqb protocol "tcp" && is_port_name name) u16_max val TcpPort
  (if String.eqb protocol "llc" && (String.eqb name "dsap" || String.eqb name "ssap")
   then Some (Custom "llc_dsap" val)
   else if String.eqb protocol "icmpv6" && String.eqb name "type"
   then Some (Custom "icmpv6_type" val)
   else None)))).

(** The number of a route as [format_resolved_value] puts it in parentheses. *)
Definition format_resolved_value (route_id : RouteId) (name : string) : string :=
  let display_name := format_protocol_display_name name in
  let paren s := String.append display_name (String.append " (" (String.append s ")")) in
  match route_id with
  | EtherType val => paren (String.append "0x" (hex_padded 4 val))
  | Custom space id =>
      if String.eqb space "snap_pid" then paren (String.append "0x" (hex_padded 4 id))
      else if String.eqb space "llc_dsap" then paren (String.append "0x" (hex_padded 2 id))
      else paren (show_Z id)
  | IpProtocol val | UdpPort val | TcpPort val | LinkType val => paren (show_Z val)
  end.

Definition format_unresolved_value (route_id : RouteId) : string :=
  match route_id with
  | EtherType val => String.append "0x" (hex_padded 4 val)
  | Custom space id =>
      if String.eqb space "snap_pid" then String.append "0x" (hex_padded 4 id)
      else if String.eqb space "llc_dsap" then String.append "0x" (hex_padded 2 id)
      else show_Z id
  | IpProtocol val | UdpPort val | TcpPort val | LinkType val => show_Z val
  end.

(** [NAMES] of [tcp_flags_str]: ACK last, so that it renders after SYN, FIN, PSH. *)
Definition TCP_FLAG_NAMES : list (Z * string) :=
  [(0x02, "SYN"); (0x01, "FIN"); (0x04, "RST"); (0x08, "PSH");
   (0x20, "URG"); (0x40, "ECE"); (0x80, "CWR"); (0x10, "ACK")]%Z.

Definition tcp_flags_str (bits : Z) : string :=
  match snd <$> filter (fun e => negb (Z.land bits e.1 =? 0)%Z = true) TCP_FLAG_NAMES with
  | [] => "none"
  | parts => join "+" parts
  end.

(** *** Addresses *)

(** The big-endian [u16] groups of an address. *)
Fixpoint groups_of (b : list Z) : list Z :=
  match b with
  | hi :: lo :: rest => be_value [hi; lo] :: groups_of rest
  | _ => []
  end.

Definition dotted_quad (b : list Z) : string := join "." (show_Z <$> b).

(** The length of the run of zero groups at the head. *)
Fixpoint zero_run (gs : list Z) : nat :=
  match gs with
  | [] => O
  | g :: rest => if (g =? 0)%Z then S (zero_run rest) else O
  end.

(** The scan of the groups from position [i] with the best run so far:
    the longest run of at least two zeros, the leftmost of them. *)
Fixpoint best_run (fuel i : nat) (gs : list Z) (best : option (nat * nat)) : option (nat * nat) :=
  match fuel, gs with
  | S fuel', g :: rest =>
      if (g =? 0)%Z then
        let len := zero_run gs in
        let best := if (2 <=? len)%nat
                       && match best with None => true | Some (_, best_len) => (best_len <? len)%nat end
                    then Some (i, len) else best in
        best_run fuel' (i + len) (drop len gs) best
      else best_run fuel' (S i) rest best
  | _, _ => best
  end.

Definition ipv6_compressed_str (b : list Z) : string :=
  let groups := groups_of b in
  if bool_decide (take 6 groups = [0; 0; 0; 0; 0; 0xffff])%Z
  then String.append "::ffff:" (dotted_quad (drop 12 b))
  else match best_run 8 0 groups None with
       | Some (start, len) =>
           String.append (join ":" (hex_min <$> take start groups))
             (String.append "::" (join ":" (hex_min <$> drop (start + len) groups)))
       | None => join ":" (hex_min <$> groups)
       end.

Definition bytes_str (name : string) (b : list Z) : string :=
  let mac_like := ends_with "_mac" name || (length b =? 6)%nat in
  let addr_like := ends_with "_addr" name || ends_with "_ip" name in
  if (length b =? 4)%nat && addr_like then dotted_quad b
  else if (length b =? 16)%nat && addr_like then ipv6_compressed_str b
  else if (length b =? 6)%nat && mac_like then join ":" ((fun x => hex_lower [x]) <$> b)
  else String.append (hex_lower (take 32 b))
         (if (32 <? length b)%nat then text_of [226; 128; 166]%Z else "").

Fixpoint value_str (name : string) (value : Value) : string :=
  match value with
  | VBytes b => bytes_str name b
  | VU64 v | VI64 v => show_Z v
  | VBool v => if v then "true" else "false"
  | VStr s => s
  | VList items => join "," (map (value_str name) items)
  end.

Definition field_value_str (protocol name : string) (value : Value) : string :=
  let by_route :=
    match get_u64 value with
    | Some val =>
        match resolve_field_route_id protocol name val with
        | Some route_id =>
            match resolve_route_name route_id with
            | Some resolved_name => format_resolved_value route_id resolved_name
            | None => format_unresolved_value route_id
            end
        | None => value_str name value
        end
    | None => value_str name value
    end in
  if String.eqb protocol "tcp" && String.eqb name "flags"
  then match value with VU64 bits => tcp_flags_str bits | _ => by_route end
  else by_route.

(** [name=value]. *)
Definition named_value (e : FieldName * Value) : string :=
  String.append e.1 (String.append "=" (value_str e.1 e.2)).

Definition fields_str (fields : FieldMap.t) : string := join " " (named_value <$> FieldMap.iter fields).

(** *** Table formats *)

Definition two (n : Z) : string := pad_left 2 (show_Z n).

(** Nanoseconds, as [Duration] and the time since the epoch. *)
Definition human_duration (d : Z) : string :=
  let s := (d / 1000000000)%Z in
  join ":" [two (s / 3600); two (s / 60 mod 60); two (s mod 60)]%Z.

Definition time_of_day (t : Z) : string :=
  let since := Z.max 0 t in
  let s := (since / 1000000000 mod 86400)%Z in
  String.append (join ":" [two (s / 3600); two (s / 60 mod 60); two (s mod 60)]%Z)
    (String.append "." (pad_left 3 (show_Z (since / 1000000 mod 1000)))).

Fixpoint chunks (fuel n : nat) (l : list Z) : list (list Z) :=
  match fuel, l with
  | S fuel', _ :: _ => take n l :: chunks fuel' n (drop n l)
  | _, _ => []
  end.

Definition hex_dump_lines (bytes : list Z) : list string :=
  imap (fun i chunk =>
    String.append (hex_padded 4 (Z.of_nat i * 16))
      (String.append "  " (join " " ((fun b => hex_lower [b]) <$> chunk))))
    (chunks (length bytes) 16 bytes).

(** The separator goes before digit [i] when the digits left are a multiple of three. *)
Fixpoint group_digits (first : bool) (s : string) : string :=
  match s with
  | EmptyString => EmptyString
  | String c rest =>
      let sep := negb first && (String.length s mod 3 =? 0)%nat in
      if sep then String (char_of 44) (String c (group_digits false rest))
      else String c (group_digits false rest)
  end.

Definition thousands (n : Z) : string := group_digits true (show_Z n).

(** [format!("{x:.k}")] of an [f64]: the exact value rounded at the [k]-th
    decimal, ties to even. *)
Definition round_half_even (n d : Z) : Z :=
  let q := (n / d)%Z in
  let r := (2 * (n mod d))%Z in
  if (r <? d)%Z then q else if (d <? r)%Z then (q + 1)%Z else if Z.even q then q else (q + 1)%Z.

Definition show_decimals (k : nat) (x : spec_float) : string :=
  let digits neg n d :=
    let v := round_half_even (n * 10 ^ Z.of_nat k) d in
    (if neg : bool then "-" else "") +:+ show_Z (v / 10 ^ Z.of_nat k) +:+
    (if (k =? 0)%nat then "" else "." +:+ pad_left k (show_Z (v mod 10 ^ Z.of_nat k))) in
  match x with
  | S754_zero neg => digits neg 0%Z 1%Z
  | S754_infinity neg => if neg then "-inf" else "inf"
  | S754_nan => "NaN"
  | S754_finite neg m e => let '(n, d) := ratio_of m e in digits neg n (Zpos d)
  end.

Definition UNITS : list string := ["B"; "kB"; "MB"; "GB"; "TB"].

(** The loop of [human_bytes] with [more] units left to move to. *)
Fixpoint scale (more unit : nat) (v : spec_float) : spec_float * nat :=
  match more with
  | O => (v, unit)
  | S more' =>
      if f64_leb (f64_of_Z 1000) v then scale more' (S unit) (f64_div v (f64_of_Z 1000)) else (v, unit)
  end.

Definition human_bytes (n : Z) : string :=
  let '(v, unit) := scale (length UNITS - 1) 0 (f64_of_Z n) in
  if (unit =? 0)%nat then show_Z n +:+ " B"
  else show_decimals 1 v +:+ " " +:+ default "" (UNITS !! unit).

Example human_bytes_examples :
  human_bytes <$> [0; 987; 1000; 12300; 1250; 999950; 1200000; 18446744073709551615]%Z
  = ["0 B"; "987 B"; "1.0 kB"; "12.3 kB"; "1.2 kB"; "1000.0 kB"; "1.2 MB"; "18446744.1 TB"].
Proof. vm_compute. reflexivity. Qed.

Example thousands_examples :
  thousands <$> [0; 999; 1000; 1234567]%Z = ["0"; "999"; "1,000"; "1,234,567"].
Proof. vm_compute. reflexivity. Qed.

Example hex_dump_example :
  hex_dump_lines (Z.of_nat <$> seq 0 20)
  = ["0000  00 01 02 03 04 05 06 07 08 09 0a 0b 0c 0d 0e 0f"; "0010  10 11 12 13"].
Proof. vm_compute. reflexivity. Qed.

Example ipv6_examples :
  ipv6_compressed_str <$>
    [[0;0;0;0;0;0;0;0;0;0;0;0;0;0;0;1]; [0x20;1;0xd;0xb8;0;0;0;0;0;1;0;0;0;0;0;1];
     [0;0;0;0;0;0;0;0;0;0;0xff;0xff;192;0;2;1]; replicate 16 1]%Z
  = ["::1"; "2001:db8::1:0:0:1"; "::ffff:192.0.2.1"; "101:101:101:101:101:101:101:101"].
Proof. vm_compute. reflexivity. Qed.
End Fmt.
