(* ===== verification/FmtRead.v ===== *)
(** * Reading rendered addresses back

    The text [bytes_str] gives an IPv6 address ([ipv6_compressed_str], RFC 5952)
    determines it.  [read_ipv6] is a reader of RFC 4291 text written from the
    RFC, independent of the printer: pieces between colons, one elision of zero
    groups, an optional dotted quad at the end.  [ipv6_text_roundtrip] says the
    reader recovers the sixteen octets, and that the elision is the one RFC 5952
    asks for: of the longest run of at least two zero groups, the leftmost on a
    tie. *)

From S2P Require Import Prelude.
From S2P Require Import Values.
From S2P Require Import Types.
From S2P Require Import Text.
From S2P Require Import Fmt.

(** ** The reader *)

Definition hex_digit_value (c : Z) : option Z :=
  if in_range 48 57 c then Some (c - 48)
  else if in_range 97 102 c then Some (c - 87) else None.

Definition dec_digit_value (c : Z) : option Z := if in_range 48 57 c then Some (c - 48) else None.

(** The number written in base [base], read from the most significant digit on. *)
Fixpoint read_digits (digit : Z -> option Z) (base acc : Z) (l : list Z) : option Z :=
  match l with
  | [] => Some acc
  | c :: l' => d ← digit c; read_digits digit base (acc * base + d) l'
  end.

Definition read_number (digit : Z -> option Z) (base : Z) (p : list Z) : option Z :=
  match p with [] => None | _ => read_digits digit base 0 p end.

Definition read_hex : list Z -> option Z := read_number hex_digit_value 16.
Definition read_dec : list Z -> option Z := read_number dec_digit_value 10.

(** A dotted quad is two groups. *)
Definition read_quad (p : list Z) : option (list Z) :=
  match split_on 46 p with
  | [a; b; c; d] =>
      a ← read_dec a; b ← read_dec b; c ← read_dec c; d ← read_dec d;
      Some [a * 256 + b; c * 256 + d]
  | _ => None
  end.

Fixpoint read_groups (ps : list (list Z)) : option (list Z) :=
  match ps with
  | [] => Some []
  | [p] => match read_quad p with Some gs => Some gs | None => g ← read_hex p; Some [g] end
  | p :: ps' => g ← read_hex p; gs ← read_groups ps'; Some (g :: gs)
  end.

Definition nonempty (p : list Z) : bool := negb (length p =? 0)%nat.

(** The pieces after the elision; at the end of the text there is one empty piece. *)
Definition after_elision (ps : list (list Z)) : list (list Z) :=
  match ps with [[]] => [] | _ => ps end.

Definition fill (hs ts : list Z) : option (list Z) :=
  if (length hs + length ts <=? 7)%nat
  then Some (hs ++ replicate (8 - (length hs + length ts)) 0 ++ ts) else None.

Definition read_pieces (ps : list (list Z)) : option (list Z) :=
  match span nonempty ps with
  | (l, []) => gs ← read_groups l; if (length gs =? 8)%nat then Some gs else None
  | ([], _ :: [] :: r) => ts ← read_groups (after_elision r); fill [] ts
  | ([], _) => None
  | (l, _ :: r) => hs ← read_groups l; ts ← read_groups (after_elision r); fill hs ts
  end.

Definition read_ipv6 (s : string) : option (list Z) :=
  gs ← read_pieces (split_on 58 (str_bytes s)); Some (concat (be_bytes 2 <$> gs)).

(** ** Numbers *)

Definition is_hex (c : Z) : Prop := 48 <= c <= 57 \/ 97 <= c <= 102.

Lemma hex_digit_spec n : 0 <= n < 16 ->
  let c := ascii_code (hex_digit n) in is_hex c /\ hex_digit_value c = Some n.
Proof.
  intros Hn. assert (n ∈ seqZ 0 16) as Hin by (apply elem_of_seqZ; lia).
  assert (Forall (fun n => let c := ascii_code (hex_digit n) in is_hex c /\ hex_digit_value c = Some n) (seqZ 0 16)) as H.
  { unfold is_hex. repeat constructor; try reflexivity; vm_compute; intuition congruence. }
  rewrite Forall_forall in H. by apply H.
Qed.

Lemma str_bytes_cons c s : str_bytes (String c s) = ascii_code c :: str_bytes s.
Proof. done. Qed.

Lemma hex_acc_read fuel n s : 0 <= n < 16 ^ Z.of_nat fuel -> fuel <> O ->
  read_digits hex_digit_value 16 0 (str_bytes (hex_acc fuel n s)) = read_digits hex_digit_value 16 n (str_bytes s).
Proof.
  revert n s. induction fuel as [|fuel IH]; intros n s Hn Hf; [done|]. simpl.
  pose proof (Z.mod_pos_bound n 16 ltac:(lia)) as Hm. pose proof (Z.div_mod n 16 ltac:(lia)) as Hd.
  destruct (hex_digit_spec (n mod 16) Hm) as [_ Hv].
  rewrite Nat2Z.inj_succ, Z.pow_succ_r in Hn by lia.
  destruct (Z.eqb_spec (n / 16) 0) as [H0|H0].
  - rewrite str_bytes_cons. cbn [read_digits]. rewrite Hv. simpl. f_equal. lia.
  - assert (0 <= n / 16) by (apply Z.div_pos; lia).
    rewrite IH; [|split; [done|apply Z.div_lt_upper_bound; lia]|].
    + rewrite str_bytes_cons. cbn [read_digits]. rewrite Hv. simpl. f_equal. lia.
    + intros ->. simpl in Hn. assert (n / 16 = 0) by (apply Z.div_small; lia). lia.
Qed.

Lemma hex_acc_digits fuel n s : fuel <> O -> 0 <= n -> Forall is_hex (str_bytes s) ->
  Forall is_hex (str_bytes (hex_acc fuel n s)) /\ str_bytes (hex_acc fuel n s) <> [].
Proof.
  revert n s. induction fuel as [|fuel IH]; intros n s Hf Hn Hs; [done|]. simpl.
  pose proof (Z.mod_pos_bound n 16 ltac:(lia)) as Hm. destruct (hex_digit_spec (n mod 16) Hm) as [Hc _].
  assert (Forall is_hex (str_bytes (String (hex_digit (n mod 16)) s))) by (rewrite str_bytes_cons; by constructor).
  destruct (n / 16 =? 0); [done|]. destruct fuel as [|fuel]; [done|].
  apply IH; [done|by apply Z.div_pos|done].
Qed.

Lemma hex_min_spec n : 0 <= n < 65536 ->
  Forall is_hex (str_bytes (hex_min n)) /\ str_bytes (hex_min n) <> [] /\ read_hex (str_bytes (hex_min n)) = Some n.
Proof.
  intros Hn. destruct (hex_acc_digits 16 n "" ltac:(done) ltac:(lia) ltac:(by constructor)) as [? Hne].
  split; [done|]. split; [done|]. unfold read_hex, read_number, hex_min in *.
  pose proof (hex_acc_read 16 n "" ltac:(lia) ltac:(done)) as Hr.
  destruct (str_bytes (hex_acc 16 n "")); [done|by rewrite Hr].
Qed.

Lemma dec_byte_spec n : 0 <= n < 256 ->
  Forall (fun c => 48 <= c <= 57) (str_bytes (show_Z n)) /\ read_dec (str_bytes (show_Z n)) = Some n.
Proof.
  intros Hn.
  assert (forallb (fun n => forallb (in_range 48 57) (str_bytes (show_Z n))
                         && bool_decide (read_dec (str_bytes (show_Z n)) = Some n)) (seqZ 0 256) = true) as H
    by (vm_compute; reflexivity).
  rewrite forallb_forall in H. specialize (H n).
  rewrite andb_true_iff, bool_decide_eq_true in H. destruct H as [Hd ?].
  { apply list_elem_of_In, elem_of_seqZ. lia. }
  split; [|done]. rewrite forallb_forall in Hd. apply Forall_forall. intros c Hc.
  apply list_elem_of_In, Hd in Hc. unfold in_range in Hc. lia.
Qed.

Lemma not_elem_of_Forall {A} (P : A -> Prop) x l : Forall P l -> ~ P x -> x ∉ l.
Proof. intros Hl Hx Hin. rewrite Forall_forall in Hl. by apply Hx, Hl. Qed.

Lemma hex_clean n : 0 <= n < 65536 -> clean 58 (hex_min n).
Proof.
  intros Hn. destruct (hex_min_spec n Hn) as (H & _). eapply not_elem_of_Forall; [exact H|]. unfold is_hex. lia.
Qed.

Lemma hex_not_quad n : 0 <= n < 65536 -> read_quad (str_bytes (hex_min n)) = None.
Proof.
  intros Hn. destruct (hex_min_spec n Hn) as (H & _). unfold read_quad.
  rewrite split_on_none; [done|]. eapply not_elem_of_Forall; [exact H|]. unfold is_hex. lia.
Qed.

(** A group as the printer writes it. *)
Definition group_ok (g : Z) : Prop := 0 <= g < 65536.

Lemma read_groups_hex gs : Forall group_ok gs -> read_groups (str_bytes <$> (hex_min <$> gs)) = Some gs.
Proof.
  intros Hgs. induction Hgs as [|g [|g' gs] Hg Hgs IH]; [done| |].
  - simpl. rewrite hex_not_quad by done. destruct (hex_min_spec g Hg) as (_ & _ & ->). done.
  - change (read_groups (str_bytes <$> (hex_min <$> g :: g' :: gs))) with
      (x ← read_hex (str_bytes (hex_min g)); xs ← read_groups (str_bytes <$> (hex_min <$> g' :: gs)); Some (x :: xs)).
    destruct (hex_min_spec g Hg) as (_ & _ & ->). cbn [mbind option_bind]. by rewrite IH.
Qed.

Lemma span_nonempty gs v : Forall group_ok gs -> head v = Some [] \/ v = [] ->
  span nonempty ((str_bytes <$> (hex_min <$> gs)) ++ v) = (str_bytes <$> (hex_min <$> gs), v).
Proof.
  intros Hgs Hv. induction Hgs as [|g gs Hg Hgs IH].
  - destruct v as [|[|]]; [done|done|]. destruct Hv; done.
  - change ((str_bytes <$> (hex_min <$> g :: gs)) ++ v) with
      (str_bytes (hex_min g) :: ((str_bytes <$> (hex_min <$> gs)) ++ v)).
    cbn [span]. rewrite IH. destruct (hex_min_spec g Hg) as (_ & Hne & _).
    unfold nonempty at 1. destruct (str_bytes (hex_min g)) eqn:E; [done|]. simpl. by rewrite E.
Qed.

(** ** The elided run *)

(** [l] zero groups from position [s] on. *)
Definition zeros_at (gs : list Z) (s l : nat) : Prop :=
  (s + l <= length gs)%nat /\ take l (drop s gs) = replicate l 0.

(** A run that comes first: longer, or as long and not further right. *)
Definition first_run (best : option (nat * nat)) (s l : nat) : Prop :=
  exists s' l', best = Some (s', l') /\ ((l < l')%nat \/ l = l' /\ (s' <= s)%nat).

Definition best_ok (gs : list Z) (i : nat) (best : option (nat * nat)) : Prop :=
  (forall s l, best = Some (s, l) -> (2 <= l)%nat /\ (s + l <= i)%nat /\ zeros_at gs s l) /\
  (forall s l, (s < i)%nat -> (2 <= l)%nat -> zeros_at gs s l -> first_run best s l).

Lemma zero_run_spec gs : zeros_at gs 0 (zero_run gs) /\ gs !! zero_run gs <> Some 0.
Proof.
  unfold zeros_at. rewrite drop_0.
  induction gs as [|g gs [[IHl IHt] IHn]]; [by repeat split|]. cbn [zero_run].
  destruct (Z.eqb_spec g 0) as [->|Hg]; cbn [length take replicate].
  - split; [split; [lia|by f_equal]|done].
  - split; [split; [lia|done]|]. intros H. by injection H.
Qed.

(** A run starting inside the zeros at [i] ends with them. *)
Lemma run_inside gs i s l : (i <= s)%nat -> (s < i + zero_run (drop i gs))%nat -> zeros_at gs s l ->
  (s + l <= i + zero_run (drop i gs))%nat.
Proof.
  intros His Hs [Hlen Hz]. destruct (zero_run_spec (drop i gs)) as [_ Hn].
  destruct (decide (s + l <= i + zero_run (drop i gs))%nat) as [?|Hgt]; [done|]. exfalso. apply Hn.
  set (n := zero_run (drop i gs)) in *.
  rewrite lookup_drop.
  assert ((take l (drop s gs)) !! (i + n - s)%nat = Some 0) as Hk.
  { rewrite Hz. apply lookup_replicate_2. lia. }
  rewrite lookup_take_lt, lookup_drop in Hk by lia. rewrite <-Hk. f_equal. lia.
Qed.

(** The best run after the zeros at [i]. *)
Lemma best_ok_zeros gs i best : let n := zero_run (drop i gs) in
  gs !! i = Some 0 -> best_ok gs i best ->
  (1 <= n)%nat /\ (i + n <= length gs)%nat /\
  best_ok gs (i + n)
    (if (2 <=? n)%nat && match best with None => true | Some (_, k) => (k <? n)%nat end then Some (i, n) else best).
Proof.
  intros n Hg [Hb1 Hb2]. pose proof (zero_run_spec (drop i gs)) as [[Hl Ht] _]. fold n in Hl, Ht. rewrite drop_0 in Ht.
  pose proof (lookup_lt_Some _ _ _ Hg) as Hlt. rewrite length_drop in Hl.
  assert (1 <= n)%nat by (unfold n; rewrite (drop_S _ _ _ Hg); simpl; lia).
  assert (zeros_at gs i n) as Hzn by (split; [lia|done]).
  split; [done|]. split; [lia|]. split; intros s l.
  - destruct ((2 <=? n)%nat && _) eqn:Hc; intros Hsl.
    + injection Hsl as <- <-. apply andb_true_iff in Hc as [?%Nat.leb_le _]. done.
    + destruct (Hb1 _ _ Hsl) as (? & ? & ?). split; [done|]. split; [lia|done].
  - intros Hs H2 Hz. destruct (decide (s < i)%nat) as [Hsi|Hsi].
    + destruct (Hb2 s l Hsi H2 Hz) as (s' & l' & -> & Ho).
      destruct ((2 <=? n)%nat && (l' <? n)%nat) eqn:Hc; [|by exists s', l'].
      apply andb_true_iff in Hc as [_ ?%Nat.ltb_lt]. exists i, n. split; [done|]. left. lia.
    + pose proof (run_inside gs i s l ltac:(lia) ltac:(fold n; lia) Hz) as Hin. fold n in Hin.
      rewrite (proj2 (Nat.leb_le 2 n)) by lia. cbn [andb]. destruct best as [[s' l']|].
      * destruct (Nat.ltb_spec l' n); [exists i, n; split; [done|]; lia|].
        destruct (Hb1 _ _ eq_refl) as (? & ? & _). exists s', l'. split; [done|]. lia.
      * exists i, n. split; [done|]. lia.
Qed.

Lemma best_run_ok fuel gs i best : (length gs <= i + fuel)%nat -> (i <= length gs)%nat ->
  best_ok gs i best -> best_ok gs (length gs) (best_run fuel i (drop i gs) best).
Proof.
  revert i best. induction fuel as [|fuel IH]; intros i best Hf Hi Hb; cbn [best_run].
  { replace (length gs) with i by lia. destruct (drop i gs); done. }
  destruct (drop i gs) as [|g rest] eqn:E.
  { assert (length (drop i gs) = 0%nat) as Hl by (by rewrite E). rewrite length_drop in Hl.
    by replace (length gs) with i by lia. }
  assert (gs !! i = Some g) as Hg by (rewrite <-(Nat.add_0_r i), <-lookup_drop, E; done).
  destruct (Z.eqb_spec g 0) as [->|Hnz].
  - destruct (best_ok_zeros gs i best Hg Hb) as (? & ? & ?). rewrite E in *.
    rewrite <-E, drop_drop. replace (zero_run (drop i gs) + i)%nat with (i + zero_run (drop i gs))%nat by lia.
    rewrite E. apply IH; [lia|lia|done].
  - assert (drop (S i) gs = rest) as <- by (rewrite (drop_S _ _ _ Hg) in E; congruence).
    pose proof (lookup_lt_Some _ _ _ Hg). apply IH; [lia|lia|]. destruct Hb as [Hb1 Hb2]. split.
    + intros s l Hsl. destruct (Hb1 _ _ Hsl) as (? & ? & ?). split; [done|]. split; [lia|done].
    + intros s l Hs H2 Hz. destruct (decide (s = i)) as [->|]; [|apply Hb2; [lia|done|done]].
      destruct Hz as [_ Hz]. exfalso. apply Hnz.
      assert ((take l (drop i gs)) !! 0%nat = Some 0) as Hk by (rewrite Hz; apply lookup_replicate_2; lia).
      rewrite lookup_take_lt, lookup_drop, Nat.add_0_r, Hg in Hk by lia. congruence.
Qed.

(** [best_run] picks the run RFC 5952 elides. *)
Definition elided (gs : list Z) (best : option (nat * nat)) : Prop :=
  (forall s l, best = Some (s, l) -> (2 <= l)%nat /\ zeros_at gs s l) /\
  (forall s l, (2 <= l)%nat -> zeros_at gs s l -> first_run best s l).

Lemma best_run_elided gs : (length gs <= 8)%nat -> elided gs (best_run 8 0 gs None).
Proof.
  intros Hl. pose proof (best_run_ok 8 gs 0 None ltac:(lia) ltac:(lia)) as H.
  rewrite drop_0 in H. destruct H as [H1 H2]; [by split; intros; [|lia]|].
  split; [intros s l Hb; by destruct (H1 s l Hb) as (? & _ & ?)|].
  intros s l H2l Hz. apply H2; [destruct Hz; lia|done|done].
Qed.

(** ** The round trip *)

Lemma octet_pair hi lo : is_byte hi -> is_byte lo -> be_bytes 2 (hi * 256 + lo) = [hi; lo].
Proof.
  intros Hhi Hlo. assert (bytes_ok [hi; lo]) as Hok by (constructor; [done|]; constructor; [done|constructor]).
  exact (be_bytes_be_value [hi; lo] Hok).
Qed.

Lemma groups_of_spec b n : bytes_ok b -> length b = (2 * n)%nat ->
  length (groups_of b) = n /\ Forall group_ok (groups_of b) /\ concat (be_bytes 2 <$> groups_of b) = b.
Proof.
  revert b. induction n as [|n IH]; intros b Hb Hl.
  { destruct b; [repeat split; constructor|simpl in Hl; lia]. }
  destruct b as [|hi [|lo b]]; [simpl in Hl; lia..|].
  inversion Hb as [|? ? Hhi Hb']; subst. inversion Hb' as [|? ? Hlo Hb'']; subst.
  destruct (IH b Hb'') as (H1 & H2 & H3); [simpl in Hl; lia|].
  cbn [groups_of length]. split; [by f_equal|].
  change (be_value [hi; lo]) with (hi * 256 + lo). unfold is_byte in *.
  split; [constructor; [unfold group_ok; lia|done]|].
  change (be_bytes 2 <$> hi * 256 + lo :: groups_of b) with (be_bytes 2 (hi * 256 + lo) :: (be_bytes 2 <$> groups_of b)).
  cbn [concat]. rewrite H3. by rewrite octet_pair.
Qed.

Lemma cleans gs : Forall group_ok gs -> Forall (clean 58) (hex_min <$> gs).
Proof. intros H. apply Forall_fmap. eapply Forall_impl; [exact H|]. intros g Hg. by apply hex_clean. Qed.

(** Text without an elision. *)
Lemma read_full gs : length gs = 8%nat -> Forall group_ok gs ->
  read_pieces (split_on 58 (str_bytes (join ":" (hex_min <$> gs)))) = Some gs.
Proof.
  intros Hl Hg. rewrite (split_on_join 58 ":" eq_refl) by first [by destruct gs | by apply cleans].
  unfold read_pieces. pose proof (span_nonempty gs [] Hg (or_intror eq_refl)) as Hs. rewrite app_nil_r in Hs.
  rewrite Hs. destruct (str_bytes <$> (hex_min <$> gs)) eqn:E; rewrite <-?E, read_groups_hex by done;
    cbn [mbind option_bind]; by rewrite Hl.
Qed.

(** Text with one. *)
Lemma read_elided hs ts : Forall group_ok hs -> Forall group_ok ts -> (length hs + length ts <= 7)%nat ->
  read_pieces (split_on 58 (str_bytes (String.append (join ":" (hex_min <$> hs))
    (String.append "::" (join ":" (hex_min <$> ts))))))
  = Some (hs ++ replicate (8 - (length hs + length ts)) 0 ++ ts).
Proof.
  intros Hh Ht Hl.
  assert (after_elision (split_on 58 (str_bytes (join ":" (hex_min <$> ts)))) = str_bytes <$> (hex_min <$> ts)) as Hts.
  { destruct ts as [|t ts']; [done|]. rewrite (split_on_join 58 ":" eq_refl) by first [done | by apply cleans].
    destruct (hex_min_spec t) as (_ & Hne & _); [by inversion Ht|].
    cbn [fmap list_fmap]. unfold after_elision. by destruct (str_bytes (hex_min t)). }
  rewrite !str_bytes_append. change (str_bytes "::") with [58; 58].
  change ([58; 58] ++ ?v) with (58 :: 58 :: v). set (v := str_bytes (join ":" (hex_min <$> ts))) in *.
  assert (split_on 58 (58 :: v) = [] :: split_on 58 v) as Hv by done.
  destruct hs as [|h hs'].
  - change (str_bytes (join ":" (hex_min <$> [])) ++ 58 :: 58 :: v) with (58 :: 58 :: v).
    change (split_on 58 (58 :: 58 :: v)) with ([] :: [] :: split_on 58 v).
    unfold read_pieces. cbn [span nonempty length Nat.eqb negb]. rewrite Hts, read_groups_hex by done.
    cbn [mbind option_bind]. unfold fill. by rewrite (proj2 (Nat.leb_le _ _) Hl).
  - rewrite (split_on_join_app 58 ":" eq_refl) by first [done | by apply cleans]. rewrite Hv.
    unfold read_pieces. rewrite span_nonempty by first [done | by left].
    rewrite Hts, !read_groups_hex by done. cbn [mbind option_bind].
    unfold fill. by rewrite (proj2 (Nat.leb_le _ _) Hl).
Qed.

(** ** The dotted tail *)

Lemma dec_clean sep n : 0 <= n < 256 -> ~ 48 <= sep <= 57 -> clean sep (show_Z n).
Proof. intros Hn Hs. destruct (dec_byte_spec n Hn) as [H _]. by eapply not_elem_of_Forall. Qed.

Lemma quad_read a b c d : bytes_ok [a; b; c; d] ->
  clean 58 (dotted_quad [a; b; c; d]) /\ read_quad (str_bytes (dotted_quad [a; b; c; d])) = Some [a * 256 + b; c * 256 + d].
Proof.
  intros Hok. assert (forall sep, ~ 48 <= sep <= 57 -> Forall (clean sep) (show_Z <$> [a; b; c; d])) as Hc.
  { intros sep Hs. apply Forall_fmap. eapply Forall_impl; [exact Hok|]. intros n Hn. by apply dec_clean. }
  unfold dotted_quad. split.
  - specialize (Hc 58 ltac:(lia)). cbn [fmap list_fmap] in *. unfold clean in *.
    rewrite !(join_cons 46 "." eq_refl). change (join "." [show_Z d]) with (show_Z d).
    inversion_clear Hc as [|? ? H1 Hc']. inversion_clear Hc' as [|? ? H2 Hc'']. inversion_clear Hc'' as [|? ? H3 Hc].
    inversion_clear Hc as [|? ? H4 _].
    rewrite !elem_of_app, !elem_of_cons, !elem_of_app, !elem_of_cons, !elem_of_app, !elem_of_cons.
    intuition discriminate.
  - unfold read_quad. rewrite (split_on_join 46 "." eq_refl) by first [done | by apply Hc; lia].
    cbn [fmap list_fmap].
    repeat match goal with H : bytes_ok (_ :: _) |- _ => inversion_clear H end.
    repeat match goal with H : Forall is_byte (_ :: _) |- _ => inversion_clear H end.
    repeat match goal with H : is_byte ?n |- _ => destruct (dec_byte_spec n H) as [_ ->]; clear H; cbn [mbind option_bind] end.
    done.
Qed.

Lemma mapped_octets b : bytes_ok b -> length b = 16%nat -> take 6 (groups_of b) = [0; 0; 0; 0; 0; 65535] ->
  exists p q r s, b = [0;0;0;0;0;0;0;0;0;0;255;255;p;q;r;s] /\ bytes_ok [p; q; r; s].
Proof.
  intros Hb Hl Hg. do 16 (destruct b as [|? b]; [discriminate|]). destruct b; [|discriminate].
  cbn [groups_of take] in Hg. injection Hg as E1 E2 E3 E4 E5 E6.
  repeat match goal with H : bytes_ok (_ :: _) |- _ => inversion_clear H end.
  repeat match goal with H : Forall is_byte (_ :: _) |- _ => inversion_clear H end.
  unfold be_value in *. cbn [be_value_acc] in *. unfold is_byte in *.
  match goal with H : length [_;_;_;_;_;_;_;_;_;_;_;_;?p;?q;?r;?s] = _ |- _ => exists p, q, r, s end.
  split; [repeat f_equal; lia|]. repeat (apply Forall_cons; split; [assumption|]). apply Forall_nil, I.
Qed.

Lemma read_mapped b : bytes_ok b -> length b = 16%nat -> take 6 (groups_of b) = [0; 0; 0; 0; 0; 65535] ->
  read_ipv6 (String.append "::ffff:" (dotted_quad (drop 12 b))) = Some b.
Proof.
  intros Hb Hl Hg. destruct (mapped_octets b Hb Hl Hg) as (p & q & r & s & -> & Hq). cbn [drop].
  destruct (quad_read p q r s Hq) as [Hc Hr]. unfold read_ipv6. rewrite str_bytes_append.
  change (split_on 58 (str_bytes "::ffff:" ++ ?v)) with ([] :: [] :: [102; 102; 102; 102] :: split_on 58 v).
  rewrite split_on_none by done. unfold read_pieces. cbn [span nonempty length Nat.eqb negb after_elision].
  cbn [read_groups]. rewrite Hr. change (read_hex [102; 102; 102; 102]) with (Some 65535).
  cbn [mbind option_bind]. unfold fill. cbn [length Nat.add Nat.leb Nat.sub replicate app].
  inversion_clear Hq as [|? ? ? Hq1]. inversion_clear Hq1 as [|? ? ? Hq2]. inversion_clear Hq2 as [|? ? ? Hq3].
  inversion_clear Hq3. cbn [mbind option_bind fmap list_fmap concat]. by rewrite !octet_pair.
Qed.

(** C39: Reading the text of an IPv6 address gives its sixteen octets back, and the
    run of zero groups the text elides is the longest one of at least two groups,
    the leftmost on a tie; addresses other than the IPv4-mapped ones have no
    such run left. *)
Theorem ipv6_text_roundtrip b :
  bytes_ok b -> length b = 16%nat ->
  read_ipv6 (ipv6_compressed_str b) = Some b /\ elided (groups_of b) (best_run 8 0 (groups_of b) None).
Proof.
  intros Hb Hl. destruct (groups_of_spec b 8 Hb Hl) as (Hlen & Hgs & Hback).
  pose proof (best_run_elided (groups_of b) ltac:(lia)) as Hel. split; [|done].
  unfold ipv6_compressed_str. destruct (bool_decide_reflect (take 6 (groups_of b) = [0; 0; 0; 0; 0; 0xffff])) as [Hm|_].
  { by apply read_mapped. }
  destruct (best_run 8 0 (groups_of b) None) as [[s l]|]; unfold read_ipv6.
  - destruct Hel as [Hel _]. destruct (Hel s l eq_refl) as (H2 & Hz & Ht).
    assert (length (take s (groups_of b)) + length (drop (s + l) (groups_of b)) = 8 - l)%nat as Hsum
      by (rewrite length_take, length_drop; lia).
    rewrite read_elided; [|by apply Forall_take|by apply Forall_drop|lia]. cbn [mbind option_bind].
    rewrite Hsum. replace (8 - (8 - l))%nat with l by lia. rewrite <-Ht at 1.
    rewrite <-drop_drop, take_drop, take_drop. by rewrite Hback.
  - rewrite read_full by done. cbn [mbind option_bind]. by rewrite Hback.
Qed.

Lemma ipv6_text_roundtrip_witness :
  let b := [0x20;1;0xd;0xb8;0;0;0;0;0;1;0;0;0;0;0;1] in
  read_ipv6 (ipv6_compressed_str b) = Some b /\ elided (groups_of b) (Some (2%nat, 2%nat)).
Proof.
  intros b. assert (bytes_ok b) as Hb by (repeat (apply Forall_cons; split; [unfold is_byte; lia|]); apply Forall_nil, I).
  exact (ipv6_text_roundtrip b Hb eq_refl).
Defined.
