(* ===== verification/StreamView.v ===== *)
(** * What every lens shows of one stream

    Models [crates/pktflow-view/src/stream_view.rs]: the id map of a snapshot,
    the canonical A / B endpoint rendering, ancestry walks, and the observed
    time span.

    The two walks ([lineage_str], [child_chain_str]) and [query.rs]'s
    [ancestors] have no bound in the code: they follow parent (or only-child)
    links until one is missing.  Here they carry fuel, the number of streams in
    the map.  [Lineage] is the walk without fuel; on maps whose parents were
    created before their children — every snapshot's, see [Snapshots.v] — the
    fuel is enough, so the walk ends and is the lineage. *)

From S2P Require Import Prelude.
From S2P Require Import Values.
From S2P Require Import Types.
From S2P Require Import Rollups.
From S2P Require Import Arena.
From S2P Require Import Store.
From S2P Require Import Queries.
From S2P Require Import Text.
From S2P Require Import Fmt.

Abbreviation IdMap := (gmap StreamId Stream) (only parsing).

(** [.map(|s| (s.id, s)).collect::<HashMap<_, _>>()]. *)
Definition id_map_of (l : list Stream) : gmap StreamId Stream :=
  foldl (fun m s => <[st_id s := s]> m) ∅ l.

Definition by_id (snap : AggregatorSnapshot) : gmap StreamId Stream := id_map_of (sn_streams snap).

Definition total_packets (s : Stream) : Z := st_packets (stats s).1 + st_packets (stats s).2.
Definition total_bytes (s : Stream) : Z := st_bytes (stats s).1 + st_bytes (stats s).2.

(** [successors(s.parent.and_then(|p| ids.get(&p)), |cur| cur.parent ...)]. *)
Fixpoint parent_chain (fuel : nat) (ids : gmap StreamId Stream) (p : option StreamId) : list Stream :=
  match fuel, pid ← p; ids !! pid with
  | S fuel', Some s => s :: parent_chain fuel' ids (parent s)
  | _, _ => []
  end.

Definition ancestors (s : Stream) (ids : gmap StreamId Stream) : list Stream :=
  parent_chain (size ids) ids (parent s).

Section StreamView.
Context `{Env : ViewEnv}.
Local Open Scope string_scope.

Definition port_text (name text : string) : string :=
  if ends_with "port" name then String.append ":" text else text.

(** [Vec]s of rendered sides: A, B and the unpaired key fields. *)
Definition Sides : Type := list string * list string * list string.

(** One round of the loop over [s.key_fields]. *)
Definition side_round (s : Stream) (acc : Sides) (entry : FieldName * Value) : Sides :=
  let '(a_side, b_side, extras) := acc in
  let '(name, value) := entry in
  let unpaired :=
    if starts_with "dst_" name
       && bool_decide (is_Some (FieldMap.get
            (String.append "src_" (default "" (strip_prefix "dst_" name))) (key_fields s)))
    then acc
    else if String.eqb name "app" then acc
    else (a_side, b_side, (extras ++ [named_value (name, value)])%list) in
  match strip_prefix "src_" name with
  | Some suffix =>
      let dst_name := String.append "dst_" suffix in
      match FieldMap.get dst_name (key_fields s) with
      | Some dst_value =>
          let src_str := port_text suffix (value_str name value) in
          let dst_str := port_text suffix (value_str dst_name dst_value) in
          match initiator s with
          | AtoB => ((a_side ++ [src_str])%list, (b_side ++ [dst_str])%list, extras)
          | BtoA => ((a_side ++ [dst_str])%list, (b_side ++ [src_str])%list, extras)
          end
      | None => unpaired
      end
  | None => unpaired
  end.

Definition endpoint_sides (s : Stream) : string * string * list string :=
  match condensed s with
  | Some info =>
      let eph := ephemeral_field info in
      (from_option (fun v => port_text eph (value_str eph v)) "" (FieldMap.get eph (key_fields s)),
       port_text eph "*", [])
  | None =>
      let '(a_side, b_side, extras) := foldl (side_round s) ([], [], []) (FieldMap.iter (key_fields s)) in
      (join "," a_side, join "," b_side, extras)
  end.

Definition endpoints_str (s : Stream) : string :=
  let '(a_side, b_side, extras) := endpoint_sides s in
  let out := if String.eqb a_side "" then ""
             else String.append a_side (String.append " ↔ " b_side) in
  match extras with
  | [] => out
  | _ => String.append (if String.eqb out "" then out else String.append out " ") (join " " extras)
  end.

Definition condensed_marker (s : Stream) : option string :=
  info ← condensed s;
  Some (String.append "× " (String.append (if ci_overflow info then "≥" else "")
    (String.append (thousands (member_flows info)) " flows"))).

(** [proto #id] or [proto #id (endpoints)]. *)
Definition stream_label (s : Stream) : string :=
  let endpoints := endpoints_str s in
  let base := String.append (st_protocol s) (String.append " #" (show_Z (created_seq s))) in
  if String.eqb endpoints "" then base
  else String.append base (String.append " (" (String.append endpoints ")")).

Definition lineage_str (s : Stream) (ids : gmap StreamId Stream) : string :=
  join " ▸ " (rev (stream_label <$> ancestors s ids)).

(** The single-child descendants, [child] first. *)
Fixpoint child_chain (fuel : nat) (ids : gmap StreamId Stream) (s : Stream) : list Stream :=
  s :: match fuel, children s with
       | S fuel', [only] =>
           match ids !! only with Some c => child_chain fuel' ids c | None => [] end
       | _, _ => []
       end.

Definition child_chain_str (child : Stream) (ids : gmap StreamId Stream) : string :=
  join " ▸ " (stream_label <$> child_chain (size ids) ids child).

Definition close_reason_str (reason : CloseReason) : string :=
  match reason with
  | ProtocolClose => "protocol-close"
  | IdleTimeout => "idle-timeout"
  | LruEvicted => "lru-evicted"
  | CaptureEnd => "capture-end"
  end.
End StreamView.

(** [iter().map(f).min()] and [max()]. *)
Definition fold_best (pick : Z -> Z -> Z) (l : list Z) : option Z :=
  match l with [] => None | x :: l' => Some (foldl pick x l') end.

Definition capture_span (snap : AggregatorSnapshot) : option (SystemTime * SystemTime) :=
  start ← fold_best Z.min (first_seen <$> sn_streams snap);
  end_ ← fold_best Z.max (last_seen <$> sn_streams snap);
  Some (start, end_).

(** ** The walk without fuel *)

(** [Lineage ids p l]: following parents from [p] visits exactly [l] and then
    stops, at a root or at a parent that is not in the map. *)
Inductive Lineage (ids : gmap StreamId Stream) : option StreamId -> list Stream -> Prop :=
  | Lineage_end p : p ≫= (fun pid => ids !! pid) = None -> Lineage ids p []
  | Lineage_step pid s l :
      ids !! pid = Some s -> Lineage ids (parent s) l -> Lineage ids (Some pid) (s :: l).

Lemma Lineage_det ids p l1 l2 : Lineage ids p l1 -> Lineage ids p l2 -> l1 = l2.
Proof.
  intros H1. revert l2. induction H1 as [p Hp|pid s l Hs Hl IH]; intros l2 H2.
  - inversion H2 as [|pid s l Hs]; subst; [done|]. simpl in Hp. congruence.
  - inversion H2 as [q Hq|pid' s' l' Hs' Hl']; subst.
    + simpl in Hq. congruence.
    + simplify_eq. f_equal. by apply IH.
Qed.

(** Maps where a stream sits under its own id and parents are older. *)
Record aged (ids : gmap StreamId Stream) : Prop := mkAged {
  aged_key i s : ids !! i = Some s -> st_id s = i;
  aged_parent i s pid p :
    ids !! i = Some s -> parent s = Some pid -> ids !! pid = Some p -> created_seq p < created_seq s;
}.

Section Aged.
Context (ids : gmap StreamId Stream) (Haged : aged ids).

(** The streams of the map created before [n]. *)
Definition older (n : Z) : gmap StreamId Stream := filter (fun e => created_seq e.2 < n) ids.

Lemma older_size m n i s :
  m ⊆ ids -> (forall j t, m !! j = Some t -> created_seq t < created_seq s) ->
  ids !! i = Some s -> created_seq s < n -> (size m < size (older n))%nat.
Proof.
  intros Hm Hlt Hi Hn. apply map_subset_size, map_subset_alt. split.
  - apply map_subseteq_spec. intros j t Hj. apply map_lookup_filter_Some.
    split; [by eapply map_subseteq_spec|]. simpl. specialize (Hlt _ _ Hj). lia.
  - exists i. split; [|exists s; by apply map_lookup_filter_Some].
    destruct (m !! i) as [t|] eqn:Ht; [|done]. specialize (Hlt _ _ Ht).
    eapply map_subseteq_spec in Ht; [|exact Hm]. simplify_eq. lia.
Qed.

Lemma older_step i s n :
  ids !! i = Some s -> created_seq s < n -> (size (older (created_seq s)) < size (older n))%nat.
Proof.
  intros. apply older_size with i s; [apply map_filter_subseteq| |done|done].
  intros j t Ht. by apply map_lookup_filter_Some in Ht as [_ ?].
Qed.

Lemma older_shrinks n : (size (older n) <= size ids)%nat.
Proof. apply map_subseteq_size, map_filter_subseteq. Qed.

Lemma parent_chain_lineage_bound n p fuel :
  (forall pid s, p = Some pid -> ids !! pid = Some s -> created_seq s < n) ->
  (size (older n) <= fuel)%nat -> Lineage ids p (parent_chain fuel ids p).
Proof.
  revert n p. induction fuel as [|fuel IH]; intros n p Hp Hsize;
    (destruct p as [pid|]; [|by apply Lineage_end]); simpl;
    destruct (ids !! pid) as [s|] eqn:Hs; try by apply Lineage_end; simpl; rewrite Hs.
  - exfalso. pose proof (older_step pid s n Hs (Hp _ _ eq_refl Hs)). lia.
  - apply Lineage_step; [done|]. apply IH with (created_seq s).
    + intros qid q Hq Hqs. by eapply aged_parent.
    + pose proof (older_step pid s n Hs (Hp _ _ eq_refl Hs)). lia.
Qed.

(** The fuel of [ancestors] is enough. *)
Lemma ancestors_lineage i s : ids !! i = Some s -> Lineage ids (parent s) (ancestors s ids).
Proof.
  intros Hi. apply parent_chain_lineage_bound with (created_seq s).
  - intros pid p Hp Hps. by eapply aged_parent.
  - apply older_shrinks.
Qed.
End Aged.
