(* ===== verification/Query.v ===== *)
(** * The stream query language: lexer, parser, evaluation

    Models [crates/pktflow-view/src/query.rs].  The input is a UTF-8 string;
    the lexer walks its bytes and cuts tokens out with [&input[i..j]], which
    panics when [i] or [j] falls inside a character ([str_slice]).  A parse
    ends in one of three ways: [Parsed] with the code's [Result], [Panicked], or
    [OutOfFuel], which [QueryGrammar.v] shows never happens.  Positions are
    byte offsets.  The regex engine and the Unicode case tables come from
    [ViewEnv]. *)

From S2P Require Import Prelude.
From S2P Require Import Values.
From S2P Require Import Types.
From S2P Require Import Rollups.
From S2P Require Import Arena.
From S2P Require Import Store.
From S2P Require Import Queries.
From S2P Require Import Text.
From S2P Require Import Fmt.
From S2P Require Import StreamView.

Record QueryError := mkQueryError { message : string; position : Z }.

Inductive Flag := Flag_Closed | Flag_Live | Flag_Root | Flag_Leaf | Flag_Condensed.

Inductive Field :=
  | F_Proto | F_Id | F_Packets | F_Bytes | F_Opaque | F_Duration | F_Depth | F_Children
  | F_State | F_Reason | F_Endpoint | F_Port | F_Parent | F_Under
  | F_Custom (name : string).

#[export] Instance Field_eq_dec : EqDecision Field.
Proof. solve_decision. Defined.

Inductive CmpOp := Op_Eq | Op_Ne | Op_Re | Op_NotRe | Op_Gt | Op_Ge | Op_Lt | Op_Le | Op_Contains.

#[export] Instance CmpOp_eq_dec : EqDecision CmpOp.
Proof. solve_decision. Defined.

Inductive Tok :=
  | T_LParen | T_RParen | T_And | T_Or | T_Not
  | T_Op (op : CmpOp)
  | T_Word (w : string)
  | T_Str (s : string)
  | T_Regex (pattern : string).

(** A token and its byte offset. *)
Definition Token : Type := Tok * Z.

Definition one_of (names : list string) (s : string) : bool := existsb (String.eqb s) names.

(** [Field::resolve]. *)
Definition Field_resolve (name : string) : Field :=
  let s := to_ascii_lowercase name in
  if one_of ["proto"; "protocol"]%string s then F_Proto
  else if one_of ["id"]%string s then F_Id
  else if one_of ["packets"; "pkts"]%string s then F_Packets
  else if one_of ["bytes"]%string s then F_Bytes
  else if one_of ["opaque"]%string s then F_Opaque
  else if one_of ["duration"; "dur"]%string s then F_Duration
  else if one_of ["depth"]%string s then F_Depth
  else if one_of ["children"]%string s then F_Children
  else if one_of ["state"]%string s then F_State
  else if one_of ["reason"; "close_reason"]%string s then F_Reason
  else if one_of ["endpoint"; "ep"; "host"; "addr"]%string s then F_Endpoint
  else if one_of ["port"]%string s then F_Port
  else if one_of ["parent"]%string s then F_Parent
  else if one_of ["under"; "ancestor"; "in"]%string s then F_Under
  else F_Custom name.

(** [Field::suffix_scale]: [0.001] is the binary64 nearest to 1/1000. *)
Definition suffix_scale (field : Field) (suffix : string) : option spec_float :=
  let s := to_ascii_lowercase suffix in
  if String.eqb s "" then Some (f64_of_Z 1)
  else if bool_decide (field = F_Duration) then
    if String.eqb s "ms" then Some (f64_of_ratio false 1 1000)
    else if String.eqb s "s" then Some (f64_of_Z 1)
    else if String.eqb s "m" then Some (f64_of_Z 60)
    else if String.eqb s "h" then Some (f64_of_Z 3600)
    else None
  else if one_of ["k"; "kb"]%string s then Some (f64_of_Z 1000)
  else if one_of ["m"; "mb"]%string s then Some (f64_of_Z 1000000)
  else if one_of ["g"; "gb"]%string s then Some (f64_of_Z 1000000000)
  else if one_of ["t"; "tb"]%string s then Some (f64_of_Z 1000000000000)
  else None.

(** ** Lexer *)

(** [(byte as char).is_whitespace()] on the Latin-1 reading of a byte. *)
Definition is_whitespace (b : Z) : bool :=
  in_range 9 13 b || (b =? 32) || (b =? 0x85) || (b =? 0xA0).

Definition is_quote (b : Z) : bool := (b =? 34) || (b =? 39).
Definition is_paren (b : Z) : bool := (b =? 40) || (b =? 41).

(** [str::is_char_boundary]: not before a UTF-8 continuation byte. *)
Definition is_char_boundary (bytes : list Z) (i : Z) : bool :=
  match byte_at bytes i with
  | Some b => negb (in_range 128 191 b)
  | None => i =? blen bytes
  end.

(** [&input[i..j]]; [None] is the panic. *)
Definition str_slice (bytes : list Z) (i j : Z) : option string :=
  if is_char_boundary bytes i && is_char_boundary bytes j
  then text_of <$> slice bytes i j else None.

(** [while j < bytes.len() && !stop(bytes[j]) { j += 1 }]. *)
Definition scan_to (stop : Z -> bool) (bytes : list Z) (j : Z) : Z :=
  j + blen (span (fun b => negb (stop b)) (slice_from bytes j)).1.

(** [pattern.push(b as char)]: the UTF-8 encoding of U+00b. *)
Definition push_latin1 (b : Z) : list Z :=
  if b <? 128 then [b] else [192 + b / 64; 128 + b mod 64].

(** The body of a [/…/] literal, [\/] unescaped: the pattern's bytes and the
    number of input bytes up to the closing slash, [None] if there is none. *)
Fixpoint regex_body (rest : list Z) : option (list Z * Z) :=
  match rest with
  | [] => None
  | b :: rest1 =>
      if b =? 47 then Some ([], 0)
      else match rest1 with
           | c :: rest2 =>
               if (b =? 92) && (c =? 47)
               then '(p, n) ← regex_body rest2; Some (47 :: p, n + 2)
               else '(p, n) ← regex_body rest1; Some (push_latin1 b ++ p, n + 1)
           | [] => None
           end
  end.

Definition WORD_OPS : list (string * CmpOp) :=
  [("==", Op_Eq); ("!=", Op_Ne); ("=~", Op_Re); ("!~", Op_NotRe);
   (">=", Op_Ge); ("<=", Op_Le); (">", Op_Gt); ("<", Op_Lt)]%string.

(** A split of a word: the operator's offset, the operator and its length. *)
Definition Split : Type := Z * CmpOp * Z.

Definition better_split (word : string) (split : option Split) (e : string * CmpOp) : option Split :=
  let len := Z.of_nat (String.length e.1) in
  match str_find e.1 word with
  | Some p =>
      let better := match split with
                    | Some (q, _, existing_len) => (p <? q) || ((p =? q) && (existing_len <? len))
                    | None => true
                    end in
      if better then Some (p, e.2, len) else split
  | None => split
  end.

Definition find_split (word : string) : option Split := foldl (better_split word) None WORD_OPS.

(** The token [push_word] pushes, none for the ignored [where]. *)
Definition word_tok (word : string) : option Tok :=
  let w := to_ascii_lowercase word in
  if one_of ["and"; "&&"]%string w then Some T_And
  else if one_of ["or"; "||"]%string w then Some T_Or
  else if one_of ["not"; "!"]%string w then Some T_Not
  else if one_of ["where"]%string w then None
  else if one_of ["="; "=="; "is"]%string w then Some (T_Op Op_Eq)
  else if one_of ["contains"; "has"]%string w then Some (T_Op Op_Contains)
  else Some (T_Word word).

Definition push_word (word : string) (pos : Z) : list Token :=
  match word_tok word with Some t => [(t, pos)] | None => [] end.

Definition str_prefix (n : Z) (s : string) : string := String.substring 0 (Z.to_nat n) s.
Definition str_suffix (n : Z) (s : string) : string :=
  String.substring (Z.to_nat n) (String.length s - Z.to_nat n) s.

(** The tokens of one whitespace-delimited word at [start]; the operators are
    ASCII, so these slices never split a character. *)
Definition word_tokens (word : string) (start : Z) : list Token :=
  match find_split word with
  | Some (p, op, sym_len) =>
      let rest := str_suffix (p + sym_len) word in
      (if 0 <? p then push_word (str_prefix p word) start else [])
        ++ [(T_Op op, start + p)]
        ++ (if String.eqb rest "" then [] else [(T_Str rest, start + p + sym_len)])
  | None => push_word word start
  end.

(** One round of the lexer's loop at offset [i]. *)
Inductive LexRound :=
  | Lex_More (i : Z) (pushed : list Token)
  | Lex_Fail (e : QueryError)
  | Lex_Panic.

Definition ends_word (b : Z) : bool := is_whitespace b || is_paren b || is_quote b.

Definition quote_char (c : Z) : string := String (char_of c) EmptyString.

Definition lex_round (bytes : list Z) (i c : Z) : LexRound :=
  if is_whitespace c then Lex_More (i + 1) []
  else if c =? 40 then Lex_More (i + 1) [(T_LParen, i)]
  else if c =? 41 then Lex_More (i + 1) [(T_RParen, i)]
  else if is_quote c then
    let j := scan_to (fun b => b =? c) bytes (i + 1) in
    if blen bytes <=? j
    then Lex_Fail (mkQueryError (String.append "unclosed " (String.append (quote_char c) " quote")) i)
    else match str_slice bytes (i + 1) j with
         | Some s => Lex_More (j + 1) [(T_Str s, i)]
         | None => Lex_Panic
         end
  else if c =? 47 then
    match regex_body (slice_from bytes (i + 1)) with
    | Some (pattern, n) => Lex_More (i + 1 + n + 1) [(T_Regex (text_of pattern), i)]
    | None => Lex_Fail (mkQueryError "unclosed /regex/ literal" i)
    end
  else
    let j := scan_to ends_word bytes i in
    match str_slice bytes i j with
    | Some word => Lex_More j (word_tokens word i)
    | None => Lex_Panic
    end.

(** How lexing or parsing ends. *)
Inductive outcome (A : Type) :=
  | Parsed (r : result A QueryError)
  | Panicked
  | OutOfFuel.
Arguments Parsed {A} _.
Arguments Panicked {A}.
Arguments OutOfFuel {A}.

Fixpoint lex_loop (fuel : nat) (bytes : list Z) (i : Z) (toks : list Token) : outcome (list Token) :=
  match byte_at bytes i with
  | None => Parsed (Ok toks)
  | Some c =>
      match fuel with
      | O => OutOfFuel
      | S fuel' =>
          match lex_round bytes i c with
          | Lex_More j pushed => lex_loop fuel' bytes j (toks ++ pushed)
          | Lex_Fail e => Parsed (Error e)
          | Lex_Panic => Panicked
          end
      end
  end.

Definition lex (input : string) : outcome (list Token) :=
  let bytes := str_bytes input in lex_loop (length bytes) bytes 0 [].

(** [parse_number]: the magnitude and its alphabetic suffix. *)
Definition is_mag_byte (b : Z) : bool := is_digit b || (b =? 46) || (b =? 45) || (b =? 43).
Definition is_ascii_alphabetic (b : Z) : bool := in_range 65 90 b || in_range 97 122 b.

Definition parse_number (raw : string) : option (spec_float * string) :=
  let '(mag, suffix) := span is_mag_byte (str_bytes raw) in
  match mag with
  | [] => None
  | _ =>
      m ← parse_f64 mag;
      if forallb is_ascii_alphabetic suffix then Some (m, text_of suffix) else None
  end.

(** ** Parser *)

Section Query.
Context `{Env : ViewEnv}.

Record Literal := mkLiteral {
  raw : string;
  number : option (spec_float * string);
  regex : option Regex;
}.

Inductive Expr :=
  | Or (l r : Expr)
  | And (l r : Expr)
  | Not (e : Expr)
  | FreeText (needle : string)
  | FreeRegex (re : Regex)
  | FlagTerm (flag : Flag)
  | Cmp (field : Field) (op : CmpOp) (value : Literal).

Section Parser.
Context (toks : list Token) (input_len : Z).

(** [Parser] is the cursor [at]; [bump] moves it even past the end. *)
Definition peek (at_ : nat) : option Tok := fst <$> toks !! at_.

Definition pos_at (at_ : nat) : Z := from_option snd input_len (toks !! at_).

Definition err {A} (at_ : nat) (msg : string) : result A QueryError :=
  Error (mkQueryError msg (pos_at at_)).

(** [compile], called with the cursor already past the pattern's token. *)
Definition compile (at_ : nat) (pattern : string) : result Regex QueryError :=
  match regex_build pattern with
  | inl re => Ok re
  | inr msg => Error (mkQueryError (String.append "bad regex: " msg)
                        (from_option snd 0 (toks !! (at_ - 1)%nat)))
  end.

Definition is_order (op : CmpOp) : bool :=
  match op with Op_Gt | Op_Ge | Op_Lt | Op_Le => true | _ => false end.

Definition is_match_op (op : CmpOp) : bool :=
  match op with Op_Re | Op_NotRe => true | _ => false end.

(** [field == /re/] reads as a match. *)
Definition regex_op (op : CmpOp) : CmpOp :=
  match op with Op_Ne | Op_NotRe => Op_NotRe | _ => Op_Re end.

(** The right-hand side [raw] of a comparison, its token already consumed. *)
Definition comparison_value (field : Field) (op : CmpOp) (raw : string) (value_pos : Z) (at_ : nat)
    : result Expr QueryError :=
  let number := parse_number raw in
  if is_order op && bool_decide (number = None) then
    Error (mkQueryError (String.append "'" (String.append raw
      "' is not a number (>, >=, <, <= compare numbers)")) value_pos)
  else if is_match_op op then
    match compile at_ raw with
    | Ok re => Ok (Cmp field op (mkLiteral raw number (Some re)))
    | Error e => Error e
    end
  else Ok (Cmp field op (mkLiteral raw number None)).

(** [parse_comparison] with the cursor on the field [name], [op] after it. *)
Definition parse_comparison (at_ : nat) (name : string) (op : CmpOp)
    : result Expr QueryError * nat :=
  let field := Field_resolve name in
  let value_at := (at_ + 2)%nat in
  match peek value_at with
  | Some (T_Word w | T_Str w) =>
      (comparison_value field op w (pos_at value_at) (value_at + 1), (value_at + 1)%nat)
  | Some (T_Regex pattern) =>
      (match compile (value_at + 1) pattern with
       | Ok re => Ok (Cmp field (regex_op op) (mkLiteral pattern None (Some re)))
       | Error e => Error e
       end, (value_at + 1)%nat)
  | _ => (Error (mkQueryError (String.append "'" (String.append name
             "' comparison is missing its value")) (pos_at value_at)), (value_at + 1)%nat)
  end.

(** The flag or free text a bare word stands for. *)
Definition bare_word (w : string) : Expr :=
  let l := to_ascii_lowercase w in
  if one_of ["closed"]%string l then FlagTerm Flag_Closed
  else if one_of ["live"; "open"]%string l then FlagTerm Flag_Live
  else if one_of ["root"]%string l then FlagTerm Flag_Root
  else if one_of ["leaf"]%string l then FlagTerm Flag_Leaf
  else if one_of ["condensed"]%string l then FlagTerm Flag_Condensed
  else FreeText (to_lowercase w).

(** What juxtaposition continues with. *)
Definition starts_unary (t : option Tok) : bool :=
  match t with
  | Some (T_Word _ | T_Str _ | T_Regex _ | T_LParen | T_Not) => true
  | _ => false
  end.

(** A parser run: the result and the cursor; [None] is out of fuel. *)
Definition parse_run : Type := option (result Expr QueryError * nat).

Definition and_then (m : parse_run) (k : Expr -> nat -> parse_run) : parse_run :=
  match m with
  | Some (Ok e, at_) => k e at_
  | other => other
  end.

Fixpoint parse_or (fuel at_ : nat) : parse_run :=
  match fuel with
  | O => None
  | S fuel' => and_then (parse_and fuel' at_) (or_loop fuel')
  end
with or_loop (fuel : nat) (acc : Expr) (at_ : nat) : parse_run :=
  match fuel with
  | O => None
  | S fuel' =>
      match peek at_ with
      | Some T_Or =>
          and_then (parse_and fuel' (at_ + 1)) (fun rhs at_ => or_loop fuel' (Or acc rhs) at_)
      | _ => Some (Ok acc, at_)
      end
  end
with parse_and (fuel at_ : nat) : parse_run :=
  match fuel with
  | O => None
  | S fuel' => and_then (parse_unary fuel' at_) (and_loop fuel')
  end
with and_loop (fuel : nat) (acc : Expr) (at_ : nat) : parse_run :=
  match fuel with
  | O => None
  | S fuel' =>
      match peek at_ with
      | Some T_And =>
          and_then (parse_unary fuel' (at_ + 1)) (fun rhs at_ => and_loop fuel' (And acc rhs) at_)
      | next =>
          if starts_unary next
          then and_then (parse_unary fuel' at_) (fun rhs at_ => and_loop fuel' (And acc rhs) at_)
          else Some (Ok acc, at_)
      end
  end
with parse_unary (fuel at_ : nat) : parse_run :=
  match fuel with
  | O => None
  | S fuel' =>
      match peek at_ with
      | Some T_Not => and_then (parse_unary fuel' (at_ + 1)) (fun e at_ => Some (Ok (Not e), at_))
      | _ => parse_primary fuel' at_
      end
  end
with parse_primary (fuel at_ : nat) : parse_run :=
  match fuel with
  | O => None
  | S fuel' =>
      match peek at_ with
      | Some T_LParen =>
          and_then (parse_or fuel' (at_ + 1)) (fun inner at_ =>
            match peek at_ with
            | Some T_RParen => Some (Ok inner, (at_ + 1)%nat)
            | _ => Some (err (at_ + 1) "expected ')'", (at_ + 1)%nat)
            end)
      | Some (T_Regex pattern) =>
          Some (match compile (at_ + 1) pattern with
                | Ok re => Ok (FreeRegex re)
                | Error e => Error e
                end, (at_ + 1)%nat)
      | Some (T_Str s) => Some (Ok (FreeText (to_lowercase s)), (at_ + 1)%nat)
      | Some (T_Word w) =>
          match peek (at_ + 1) with
          | Some (T_Op op) => Some (parse_comparison at_ w op)
          | _ => Some (Ok (bare_word w), (at_ + 1)%nat)
          end
      | Some (T_Op _) => Some (err at_ "comparison operator needs a field on its left", at_)
      | Some T_RParen => Some (err at_ "unexpected ')'", at_)
      | Some (T_And | T_Or) => Some (err at_ "AND/OR needs a term on both sides", at_)
      | Some T_Not => Some (err at_ "internal: NOT handled in parse_unary", at_)
      | None => Some (err at_ "expected a search term", at_)
      end
  end.

(** At most six calls per token. *)
Definition parse_fuel : nat := 6 * (length toks + 1).

(** [StreamQuery::parse] after lexing. *)
Definition parse_tokens : outcome Expr :=
  match toks with
  | [] => Parsed (Error (mkQueryError "empty query" 0))
  | _ =>
      match parse_or parse_fuel 0 with
      | None => OutOfFuel
      | Some (Error e, _) => Parsed (Error e)
      | Some (Ok root, at_) =>
          match peek at_ with
          | Some _ => Parsed (err at_ "unexpected trailing input")
          | None => Parsed (Ok root)
          end
      end
  end.
End Parser.

Definition StreamQuery_parse (input : string) : outcome Expr :=
  match lex input with
  | Parsed (Ok toks) => parse_tokens toks (Z.of_nat (String.length input))
  | Parsed (Error e) => Parsed (Error e)
  | Panicked => Panicked
  | OutOfFuel => OutOfFuel
  end.

(** ** Evaluation *)

Record Candidate := mkCandidate { cand_text : string; cand_number : option spec_float }.

Definition Candidate_text (t : string) : Candidate := mkCandidate t None.
Definition Candidate_num (n : spec_float) : Candidate := mkCandidate (show_f64 n) (Some n).

(** [Duration::as_secs_f64] of nanoseconds. *)
Definition as_secs_f64 (nanos : Z) : spec_float :=
  f64_add (f64_of_Z (nanos / 1000000000))
    (f64_div (f64_of_Z (nanos mod 1000000000)) (f64_of_Z 1000000000)).

Definition searchable_text (s : Stream) : string :=
  let t := String.append (st_protocol s) (String.append " #" (String.append (show_Z (created_seq s))
             (String.append " " (endpoints_str s)))) in
  match state s with
  | Some st => String.append t (String.append " " st)
  | None => t
  end.

Definition value_as_number (value : Value) : option spec_float :=
  match value with VU64 v | VI64 v => Some (f64_of_Z v) | _ => None end.

Definition candidate_of (protocol name : string) (value : Value) : Candidate :=
  mkCandidate (field_value_str protocol name value) (value_as_number value).

Definition custom_candidates (name : string) (s : Stream) : list Candidate :=
  let cand := candidate_of (st_protocol s) name in
  (match FieldMap.get name (key_fields s) with Some value => [cand value] | None => [] end) ++
  match RollupSet_get name (st_rollups s) with
  | Some (Accumulate values _ _) => cand <$> values
  | Some (Sample first last) => cand <$> (option_list first ++ option_list last)
  | Some (Series ring _ _) => (fun p => cand (point_value p)) <$> ring
  | None => []
  end.

(** The numeric key fields named [...port] of one stream. *)
Definition ports_of (s : Stream) : list Candidate :=
  omap (fun e => if ends_with "port" e.1 then Candidate_num <$> value_as_number e.2 else None)
    (FieldMap.iter (key_fields s)).

Definition field_candidates (field : Field) (s : Stream) (ids : gmap StreamId Stream)
    : list Candidate :=
  match field with
  | F_Proto => [Candidate_text (st_protocol s)]
  | F_Id => [Candidate_num (f64_of_Z (created_seq s))]
  | F_Packets => [Candidate_num (f64_of_Z (total_packets s))]
  | F_Bytes => [Candidate_num (f64_of_Z (total_bytes s))]
  | F_Opaque => [Candidate_num (f64_of_Z (opaque_bytes s))]
  | F_Duration => [Candidate_num (as_secs_f64 (sat_sub (last_seen s) (first_seen s)))]
  | F_Depth => [Candidate_num (f64_of_Z (blen (ancestors s ids)))]
  | F_Children => [Candidate_num (f64_of_Z (blen (children s)))]
  | F_State => [Candidate_text (default ""%string (state s))]
  | F_Reason => [Candidate_text (from_option close_reason_str ""%string (closed s))]
  | F_Endpoint =>
      let '(a, b, extras) := endpoint_sides s in Candidate_text <$> (a :: b :: extras)
  | F_Port => (s :: ancestors s ids) ≫= ports_of
  | F_Parent =>
      [Candidate_text (from_option st_protocol ""%string (p ← parent s; ids !! p))]
  | F_Under => (fun a => Candidate_text (st_protocol a)) <$> ancestors s ids
  | F_Custom name => custom_candidates name s
  end.

Definition compare_order (op : CmpOp) (lhs rhs : spec_float) : bool :=
  match op with
  | Op_Gt => f64_ltb rhs lhs
  | Op_Ge => f64_leb rhs lhs
  | Op_Lt => f64_ltb lhs rhs
  | Op_Le => f64_leb lhs rhs
  | _ => false
  end.

Definition compare (c : Candidate) (op : CmpOp) (value : Literal) (field : Field) : bool :=
  let rhs_num := '(mag, suffix) ← number value;
                 scale ← suffix_scale field suffix; Some (f64_mul mag scale) in
  match op with
  | Op_Gt | Op_Ge | Op_Lt | Op_Le =>
      match cand_number c, rhs_num with
      | Some lhs, Some rhs => compare_order op lhs rhs
      | _, _ => false
      end
  | Op_Eq | Op_Ne =>
      let hit := match cand_number c, rhs_num with
                 | Some lhs, Some rhs => f64_eqb lhs rhs
                 | _, _ => eq_ignore_ascii_case (cand_text c) (raw value)
                 end in
      Bool.eqb hit (bool_decide (op = Op_Eq))
  | Op_Contains => str_contains (to_lowercase (raw value)) (to_lowercase (cand_text c))
  | Op_Re | Op_NotRe =>
      let hit := match regex value with Some re => is_match re (cand_text c) | None => false end in
      Bool.eqb hit (bool_decide (op = Op_Re))
  end.

Definition eval_flag (flag : Flag) (s : Stream) : bool :=
  match flag with
  | Flag_Closed => bool_decide (is_Some (closed s))
  | Flag_Live => bool_decide (closed s = None)
  | Flag_Root => bool_decide (parent s = None)
  | Flag_Leaf => bool_decide (children s = [])
  | Flag_Condensed => bool_decide (is_Some (condensed s))
  end.

Fixpoint eval (e : Expr) (s : Stream) (ids : gmap StreamId Stream) : bool :=
  match e with
  | Or l r => eval l s ids || eval r s ids
  | And l r => eval l s ids && eval r s ids
  | Not inner => negb (eval inner s ids)
  | FreeText needle => str_contains needle (to_lowercase (searchable_text s))
  | FreeRegex re => is_match re (searchable_text s)
  | FlagTerm flag => eval_flag flag s
  | Cmp field op value => existsb (fun c => compare c op value field) (field_candidates field s ids)
  end.

(** [StreamQuery::matches]. *)
Definition matches (query : Expr) (s : Stream) (ids : gmap StreamId Stream) : bool := eval query s ids.

(** The inner loop of [matching_with_ancestors]: climb until a parent is
    missing or already kept. *)
Fixpoint keep_ancestors (fuel : nat) (ids : gmap StreamId Stream) (cursor : option StreamId)
    (keep : gset Z) : gset Z :=
  match fuel, pid ← cursor; ids !! pid with
  | S fuel', Some p =>
      if bool_decide (created_seq p ∈ keep) then keep
      else keep_ancestors fuel' ids (parent p) ({[created_seq p]} ∪ keep)
  | _, _ => keep
  end.

Definition keep_match (ids : gmap StreamId Stream) (query : Expr) (keep : gset Z) (s : Stream)
    : gset Z :=
  if matches query s ids
  then keep_ancestors (size ids) ids (parent s) ({[created_seq s]} ∪ keep)
  else keep.

Definition matching_with_ancestors (l : list Stream) (ids : gmap StreamId Stream) (query : Expr)
    : gset Z := foldl (keep_match ids query) ∅ l.
End Query.
