(* ===== verification/QueryGrammar.v ===== *)
(** * The query grammar, and the parser as its decision procedure

    The grammar of [query.rs]'s module comment as an inductive relation between
    token sequences and expressions, with left-associative [OR] and [AND] and
    juxtaposition as [AND].  The recursive-descent parser of [Query.v] is sound
    and complete for it, and its fuel is enough for every input: parsing always
    ends. *)

From S2P Require Import Prelude.
From S2P Require Import Arena.
From S2P Require Import Store.
From S2P Require Import Text.
From S2P Require Import Fmt.
From S2P Require Import Query.

Section Grammar.
Context `{Env : ViewEnv}.

(** What a right-hand side must satisfy: a number after an order operator, a
    regex after a match operator. *)
Definition rhs_regex (op : CmpOp) (w : string) (re : option Regex) : Prop :=
  if is_match_op op then exists r, re = Some r /\ regex_build w = inl r else re = None.

Definition rhs_number (op : CmpOp) (w : string) : Prop :=
  is_order op = true -> parse_number w <> None.

Inductive G_or : list Tok -> Expr -> Prop :=
  | G_or_and ts e : G_and ts e -> G_or ts e
  | G_or_or ts1 ts2 e1 e2 : G_or ts1 e1 -> G_and ts2 e2 -> G_or (ts1 ++ T_Or :: ts2) (Or e1 e2)
with G_and : list Tok -> Expr -> Prop :=
  | G_and_unary ts e : G_unary ts e -> G_and ts e
  | G_and_and ts1 ts2 e1 e2 :
      G_and ts1 e1 -> G_unary ts2 e2 -> G_and (ts1 ++ T_And :: ts2) (And e1 e2)
  | G_and_juxtaposed ts1 ts2 e1 e2 :
      G_and ts1 e1 -> G_unary ts2 e2 -> G_and (ts1 ++ ts2) (And e1 e2)
with G_unary : list Tok -> Expr -> Prop :=
  | G_unary_primary ts e : G_primary ts e -> G_unary ts e
  | G_unary_not ts e : G_unary ts e -> G_unary (T_Not :: ts) (Not e)
with G_primary : list Tok -> Expr -> Prop :=
  | G_paren ts e : G_or ts e -> G_primary (T_LParen :: ts ++ [T_RParen]) e
  | G_regex p re : regex_build p = inl re -> G_primary [T_Regex p] (FreeRegex re)
  | G_str s : G_primary [T_Str s] (FreeText (to_lowercase s))
  | G_word w : G_primary [T_Word w] (bare_word w)
  | G_comparison name op t w re :
      t = T_Word w \/ t = T_Str w -> rhs_number op w -> rhs_regex op w re ->
      G_primary [T_Word name; T_Op op; t]
        (Cmp (Field_resolve name) op (mkLiteral w (parse_number w) re))
  | G_comparison_regex name op p re :
      regex_build p = inl re ->
      G_primary [T_Word name; T_Op op; T_Regex p]
        (Cmp (Field_resolve name) (regex_op op) (mkLiteral p None (Some re))).

Scheme G_or_mut := Minimality for G_or Sort Prop
  with G_and_mut := Minimality for G_and Sort Prop
  with G_unary_mut := Minimality for G_unary Sort Prop
  with G_primary_mut := Minimality for G_primary Sort Prop.
Combined Scheme grammar_ind from G_or_mut, G_and_mut, G_unary_mut, G_primary_mut.

#[local] Hint Constructors G_or G_and G_unary G_primary : core.

(** Every phrase starts the way juxtaposition looks for. *)
Lemma phrase_starts :
  (forall ts e, G_or ts e -> starts_unary (head ts) = true) /\
  (forall ts e, G_and ts e -> starts_unary (head ts) = true) /\
  (forall ts e, G_unary ts e -> starts_unary (head ts) = true) /\
  (forall ts e, G_primary ts e -> starts_unary (head ts) = true).
Proof.
  apply grammar_ind; try done; intros;
    repeat match goal with
    | H : starts_unary (head ?l) = true |- context [head (?l ++ _)] => destruct l; [done|by simpl in *]
    end.
Qed.

Lemma unary_starts ts e : G_unary ts e -> starts_unary (head ts) = true.
Proof. apply phrase_starts. Qed.

Lemma starts_nonempty ts : starts_unary (head ts) = true -> ts <> [].
Proof. by intros H ->. Qed.

(** ** The parser on a fixed token list *)

Section Parser.
Context (toks : list Token) (input_len : Z).

Abbreviation kinds := (toks.*1) (only parsing).

(** What the cursor still has in front of it. *)
Definition rest_at (at_ : nat) : list Tok := drop at_ kinds.

Lemma peek_rest at_ : peek toks at_ = head (rest_at at_).
Proof.
  unfold peek, rest_at. rewrite <- list_lookup_fmap. by rewrite head_lookup, lookup_drop, Nat.add_0_r.
Qed.

Lemma drop_succ {A} n (l : list A) : drop (S n) l = tail (drop n l).
Proof. revert l. induction n as [|n IH]; intros [|x l]; [done|done|done|]. apply IH. Qed.

Lemma rest_next at_ : rest_at (at_ + 1) = tail (rest_at at_).
Proof. unfold rest_at. rewrite Nat.add_1_r. apply drop_succ. Qed.

Lemma rest_next2 at_ : rest_at (at_ + 2) = tail (tail (rest_at at_)).
Proof. replace (at_ + 2)%nat with ((at_ + 1) + 1)%nat by lia. by rewrite !rest_next. Qed.

(** [reads at_ ts at']: the tokens between the cursors are [ts]. *)
Definition reads (at_ : nat) (ts : list Tok) (at' : nat) : Prop :=
  rest_at at_ = ts ++ rest_at at' /\ at' = (at_ + length ts)%nat.

Lemma reads_one at_ t : peek toks at_ = Some t -> reads at_ [t] (at_ + 1).
Proof.
  rewrite peek_rest. unfold reads. rewrite rest_next.
  destruct (rest_at at_) as [|t' r]; intros H; simplify_eq/=. done.
Qed.

Lemma reads_app a ts1 b ts2 c : reads a ts1 b -> reads b ts2 c -> reads a (ts1 ++ ts2) c.
Proof.
  unfold reads. intros [H1 ->] [H2 ->]. rewrite H1, H2, length_app, app_assoc. split; [done|lia].
Qed.

Lemma reads_nil a : reads a [] a.
Proof. split; [done|]. simpl. lia. Qed.

#[local] Hint Resolve reads_one reads_app reads_nil : core.

(** *** Soundness *)

(** A run that succeeds has read a phrase [G]. *)
Definition sound (G : list Tok -> Expr -> Prop) (m : parse_run) (at_ : nat) : Prop :=
  forall e at', m = Some (Ok e, at') -> exists ts, reads at_ ts at' /\ G ts e.

Lemma sound_and_then G1 G2 G m k at_ :
  sound G1 m at_ ->
  (forall ts e at', reads at_ ts at' -> G1 ts e -> sound (G2 ts e) (k e at') at') ->
  (forall ts1 e1 ts2 e, G1 ts1 e1 -> G2 ts1 e1 ts2 e -> G (ts1 ++ ts2) e) ->
  sound G (and_then m k) at_.
Proof.
  intros Hm Hk HG e at' H. destruct m as [[[e1|?] at1]|]; simplify_eq/=.
  destruct (Hm _ _ eq_refl) as (ts1 & Hr1 & H1).
  destruct (Hk _ _ _ Hr1 H1 _ _ H) as (ts2 & Hr2 & H2). eauto.
Qed.

(** A token and then a phrase. *)
Lemma sound_step G G' m at_ t :
  peek toks at_ = Some t -> sound G' m (at_ + 1) ->
  (forall ts e, G' ts e -> G (t :: ts) e) -> sound G m at_.
Proof.
  intros Ht Hm HG e at' H. destruct (Hm _ _ H) as (ts & Hr & HG').
  exists (t :: ts). split; [|by apply HG]. by apply (reads_app at_ [t] (at_ + 1)%nat); [apply reads_one|].
Qed.

Lemma sound_done (G : list Tok -> Expr -> Prop) e at_ : G [] e -> sound G (Some (Ok e, at_)) at_.
Proof. intros ? e' at' ?. simplify_eq. eauto. Qed.

Lemma sound_error G er at_ at' : sound G (Some (Error er, at')) at_.
Proof. by intros e at2 ?. Qed.

Lemma compile_Ok at_ p re : compile toks at_ p = Ok re -> regex_build p = inl re.
Proof. unfold compile. by destruct (regex_build p); intros; simplify_eq. Qed.

Lemma comparison_value_Ok field op w vp at_ e :
  comparison_value toks field op w vp at_ = Ok e <->
  exists re, e = Cmp field op (mkLiteral w (parse_number w) re) /\ rhs_number op w /\ rhs_regex op w re.
Proof.
  unfold comparison_value, rhs_number, rhs_regex, compile.
  destruct (is_order op) eqn:Ho; simpl.
  - assert (is_match_op op = false) as -> by (by destruct op).
    case_bool_decide as Hn; split; [done| |intros; simplify_eq; eauto|].
    + intros (re & _ & H & _). by destruct H.
    + by intros (re & -> & _ & ->).
  - destruct (is_match_op op); [destruct (regex_build w) as [r|]|].
    + split; [intros; simplify_eq; by eauto 7|]. intros (re & -> & _ & ? & -> & ?). by simplify_eq.
    + split; [done|]. by intros (re & -> & _ & ? & ? & ?).
    + split; [intros; simplify_eq; by eauto 7|]. by intros (re & -> & _ & ->).
Qed.

Lemma parse_comparison_sound at_ name op :
  peek toks at_ = Some (T_Word name) -> peek toks (at_ + 1) = Some (T_Op op) ->
  sound G_primary (Some (parse_comparison toks input_len at_ name op)) at_.
Proof.
  intros H1 H2. pose proof (reads_one _ _ H1) as R1. pose proof (reads_one _ _ H2) as R2.
  replace (at_ + 1 + 1)%nat with (at_ + 2)%nat in R2 by lia.
  unfold parse_comparison. intros e at' H. injection H as H.
  destruct (peek toks (at_ + 2)) as [t|] eqn:Ht; [|done].
  pose proof (reads_app _ _ _ _ _ R1 (reads_app _ _ _ _ _ R2 (reads_one _ _ Ht))) as R.
  destruct t; try done; injection H as H <-; (eexists; split; [exact R|]).
  1, 2: apply comparison_value_Ok in H as (re & -> & ? & ?); simpl; eauto.
  case_match eqn:Hc; simplify_eq. apply compile_Ok in Hc. simpl. eauto.
Qed.

(** What each parser reads when it succeeds. *)
Record parsers_sound (fuel : nat) : Prop := mkSound {
  so_or at_ : sound G_or (parse_or toks input_len fuel at_) at_;
  so_or_loop pre acc at_ : G_or pre acc ->
    sound (fun ts => G_or (pre ++ ts)) (or_loop toks input_len fuel acc at_) at_;
  so_and at_ : sound G_and (parse_and toks input_len fuel at_) at_;
  so_and_loop pre acc at_ : G_and pre acc ->
    sound (fun ts => G_and (pre ++ ts)) (and_loop toks input_len fuel acc at_) at_;
  so_unary at_ : sound G_unary (parse_unary toks input_len fuel at_) at_;
  so_primary at_ : sound G_primary (parse_primary toks input_len fuel at_) at_;
}.

(** A loop that appends phrases [G1] to what it has accumulated. *)
Lemma sound_round (G G1 : list Tok -> Expr -> Prop) pre f m k at_ :
  (forall ts e, G1 ts e -> G (pre ++ ts) (f e)) -> sound G1 m at_ ->
  (forall pre acc at', G pre acc -> sound (fun ts => G (pre ++ ts)) (k acc at') at') ->
  sound (fun ts => G (pre ++ ts)) (and_then m (fun e at' => k (f e) at')) at_.
Proof.
  intros HG Hm Hk.
  eapply sound_and_then with (G2 := fun ts _ ts2 e => G ((pre ++ ts) ++ ts2) e); [exact Hm| |].
  - intros ts e at' _ Hts. by apply Hk, HG.
  - intros. by rewrite app_assoc.
Qed.

Lemma all_sound fuel : parsers_sound fuel.
Proof.
  induction fuel as [|fuel [IHo IHol IHa IHal IHu IHp]]; [by split; intros; intros ???|].
  split; intros; simpl.
  - eapply sound_and_then with (G2 := fun ts _ ts2 e => G_or (ts ++ ts2) e); [apply IHa| |done].
    intros. apply IHol. auto.
  - destruct (peek toks at_) as [[]|] eqn:Ht; try (by apply sound_done; rewrite app_nil_r).
    eapply (sound_step _ (fun ts => G_or (pre ++ T_Or :: ts))); [exact Ht| |done].
    intros e at' Hrun. destruct (sound_round G_or G_and (pre ++ [T_Or]) (Or acc) _ (or_loop toks input_len fuel) (at_ + 1)
      ltac:(intros ts e1 ?; rewrite <- app_assoc; simpl; auto) (IHa _) ltac:(auto) e at' Hrun) as (ts & ? & HG).
    exists ts. by rewrite <- app_assoc in HG.
  - eapply sound_and_then with (G2 := fun ts _ ts2 e => G_and (ts ++ ts2) e); [apply IHu| |done].
    intros. apply IHal. auto.
  - assert (sound (fun ts => G_and (pre ++ ts))
      (and_then (parse_unary toks input_len fuel at_)
         (fun rhs at' => and_loop toks input_len fuel (And acc rhs) at')) at_) as Hjux.
    { apply (sound_round G_and G_unary pre (And acc) _ (and_loop toks input_len fuel)); auto. }
    destruct (peek toks at_) as [[]|] eqn:Ht; try done; try (by apply sound_done; rewrite app_nil_r).
    eapply (sound_step _ (fun ts => G_and (pre ++ T_And :: ts))); [exact Ht| |done].
    intros e at' Hrun. destruct (sound_round G_and G_unary (pre ++ [T_And]) (And acc) _ (and_loop toks input_len fuel) (at_ + 1)
      ltac:(intros ts e1 ?; rewrite <- app_assoc; simpl; auto) (IHu _) ltac:(auto) e at' Hrun) as (ts & ? & HG).
    exists ts. by rewrite <- app_assoc in HG.
  - destruct (peek toks at_) as [[]|] eqn:Ht;
      try (intros e at' Hrun; destruct (IHp at_ e at' Hrun) as (ts & ? & ?); by eauto).
    eapply (sound_step _ (fun ts e => G_unary (T_Not :: ts) e)); [exact Ht| |done].
    eapply (sound_and_then G_unary (fun ts _ ts2 e => G_unary (T_Not :: ts ++ ts2) e)); [apply IHu| |done].
    intros ts e at' _ ?. apply sound_done. rewrite app_nil_r. auto.
  - destruct (peek toks at_) as [[]|] eqn:Ht; try (by apply sound_error).
    + eapply (sound_step _ (fun ts e => G_primary (T_LParen :: ts) e)); [exact Ht| |done].
      eapply (sound_and_then G_or (fun ts _ ts2 e => G_primary (T_LParen :: ts ++ ts2) e)); [apply IHo| |done].
      intros ts e at' _ ?. destruct (peek toks at') as [[]|] eqn:Hc; try by apply sound_error.
      intros e2 at2 ?. simplify_eq. exists [T_RParen]. auto.
    + destruct (peek toks (at_ + 1)) as [[]|] eqn:Hop;
        try (by apply parse_comparison_sound);
        intros e at' ?; simplify_eq; eauto.
    + intros e at' ?. simplify_eq. eauto.
    + intros e at' ?. simplify_eq. case_match eqn:Hc; simplify_eq. apply compile_Ok in Hc. eauto.
Qed.

(** *** Termination *)

Lemma and_then_ends m k :
  is_Some m -> (forall e at', m = Some (Ok e, at') -> is_Some (k e at')) -> is_Some (and_then m k).
Proof. intros [[[e|er] at'] ->] Hk; simpl; eauto. Qed.

Definition left_at (at_ : nat) : nat := length (rest_at at_).

Lemma left_next at_ t : peek toks at_ = Some t -> left_at at_ = S (left_at (at_ + 1)).
Proof.
  rewrite peek_rest. unfold left_at. rewrite rest_next. by destruct (rest_at at_).
Qed.

(** A phrase that was read leaves fewer tokens. *)
Lemma sound_shrinks G m at_ e at' :
  (forall ts e, G ts e -> starts_unary (head ts) = true) -> sound G m at_ ->
  m = Some (Ok e, at') -> (left_at at' < left_at at_)%nat.
Proof.
  intros HG Hm H. destruct (Hm _ _ H) as (ts & [Hr _] & Hts). unfold left_at. rewrite Hr, length_app.
  apply HG, starts_nonempty in Hts. destruct ts; [done|]. simpl. lia.
Qed.

(** How much fuel each parser needs in front of [left_at at_] tokens. *)
Record parsers_end (fuel : nat) : Prop := mkEnds {
  en_or at_ : (6 * left_at at_ + 4 <= fuel)%nat -> is_Some (parse_or toks input_len fuel at_);
  en_or_loop acc at_ : (6 * left_at at_ + 3 <= fuel)%nat ->
    is_Some (or_loop toks input_len fuel acc at_);
  en_and at_ : (6 * left_at at_ + 3 <= fuel)%nat -> is_Some (parse_and toks input_len fuel at_);
  en_and_loop acc at_ : (6 * left_at at_ + 3 <= fuel)%nat ->
    is_Some (and_loop toks input_len fuel acc at_);
  en_unary at_ : (6 * left_at at_ + 2 <= fuel)%nat -> is_Some (parse_unary toks input_len fuel at_);
  en_primary at_ : (6 * left_at at_ + 1 <= fuel)%nat ->
    is_Some (parse_primary toks input_len fuel at_);
}.

Lemma and_shrinks fuel at_ e at' :
  parse_and toks input_len fuel at_ = Some (Ok e, at') -> (left_at at' < left_at at_)%nat.
Proof. apply (sound_shrinks G_and); [apply phrase_starts|apply all_sound]. Qed.

Lemma unary_shrinks fuel at_ e at' :
  parse_unary toks input_len fuel at_ = Some (Ok e, at') -> (left_at at' < left_at at_)%nat.
Proof. apply (sound_shrinks G_unary); [apply phrase_starts|apply all_sound]. Qed.

(** Side conditions on fuel: use what the token just peeked and the phrases just
    read say about [left_at]. *)
Ltac fuel_left :=
  repeat match goal with
  | H : peek toks _ = Some _ |- _ => apply left_next in H
  | H : parse_and _ _ _ _ = Some (Ok _, _) |- _ => apply and_shrinks in H
  | H : parse_unary _ _ _ _ = Some (Ok _, _) |- _ => apply unary_shrinks in H
  end; lia.

Lemma all_end fuel : parsers_end fuel.
Proof.
  induction fuel as [|fuel [IHo IHol IHa IHal IHu IHp]]; [split; intros; lia|].
  split; intros; simpl.
  - apply and_then_ends; intros; [apply IHa|apply IHol]; fuel_left.
  - destruct (peek toks at_) as [[]|] eqn:Ht; try done.
    apply and_then_ends; intros; [apply IHa|apply IHol]; fuel_left.
  - apply and_then_ends; intros; [apply IHu|apply IHal]; fuel_left.
  - destruct (peek toks at_) as [[]|] eqn:Ht; try done;
      (apply and_then_ends; intros; [apply IHu|apply IHal]; fuel_left).
  - destruct (peek toks at_) as [[]|] eqn:Ht; try (apply IHp; lia).
    apply and_then_ends; intros; [apply IHu; fuel_left|done].
  - destruct (peek toks at_) as [[]|] eqn:Ht; try done.
    + apply and_then_ends; intros; [apply IHo; fuel_left|]. by repeat case_match.
    + by repeat case_match.
Qed.

Lemma parse_or_ends : is_Some (parse_or toks input_len (parse_fuel toks) 0).
Proof.
  apply all_end. unfold parse_fuel, left_at, rest_at, Token. rewrite drop_0, length_fmap. lia.
Qed.

(** *** Completeness *)

Definition converges (m : nat -> parse_run) (r : result Expr QueryError * nat) : Prop :=
  exists n, forall fuel, (n <= fuel)%nat -> m fuel = Some r.

Lemma converges_and_then m k e at' r :
  converges m (Ok e, at') -> converges (fun fuel => k fuel e at') r ->
  converges (fun fuel => and_then (m fuel) (k fuel)) r.
Proof.
  intros [n1 H1] [n2 H2]. exists (n1 + n2)%nat. intros fuel ?.
  rewrite H1 by lia. apply H2. lia.
Qed.

(** A call one level down. *)
Lemma converges_succ m m' r :
  (forall fuel, m (S fuel) = m' fuel) -> converges m' r -> converges m r.
Proof.
  intros Hm [n H]. exists (S n). intros [|fuel] ?; [lia|]. rewrite Hm. apply H. lia.
Qed.

Lemma converges_now m r : (forall fuel, m (S fuel) = Some r) -> converges m r.
Proof. intros H. exists 1%nat. intros [|fuel] ?; [lia|]. apply H. Qed.

Lemma reads_split at_ ts1 ts2 at2 :
  reads at_ (ts1 ++ ts2) at2 -> exists at1, reads at_ ts1 at1 /\ reads at1 ts2 at2.
Proof.
  unfold reads, rest_at. rewrite length_app. intros [H ->]. exists (at_ + length ts1)%nat.
  assert (drop (at_ + length ts1) kinds = ts2 ++ drop (at_ + (length ts1 + length ts2)) kinds) as H2.
  { rewrite <- drop_drop, H, <- app_assoc. apply drop_app_length. }
  rewrite H2, H. repeat split; [by rewrite app_assoc|lia].
Qed.

Lemma reads_cons at_ t ts at' :
  reads at_ (t :: ts) at' -> peek toks at_ = Some t /\ reads (at_ + 1) ts at'.
Proof.
  unfold reads. rewrite peek_rest, rest_next. intros [-> ->]. simpl. split; [done|]. split; [done|lia].
Qed.

Lemma reads_none at_ at' : reads at_ [] at' -> at' = at_.
Proof. intros [_ ->]. simpl. lia. Qed.

(** What may follow a term, and what ends a conjunction. *)
Definition follows_term (t : option Tok) : bool :=
  match t with Some (T_Op _) => false | _ => true end.

Definition ends_and (t : option Tok) : bool :=
  match t with None | Some (T_RParen | T_Or) => true | _ => false end.

Lemma starts_follows t : starts_unary t = true -> follows_term t = true.
Proof. by destruct t as [[]|]. Qed.

Lemma ends_follows t : ends_and t = true -> follows_term t = true.
Proof. by destruct t as [[]|]. Qed.

Lemma reads_starts at_ ts at' :
  reads at_ ts at' -> starts_unary (head ts) = true -> starts_unary (peek toks at_) = true.
Proof. intros [Hr _] Hs. rewrite peek_rest, Hr. by destruct ts. Qed.

Definition complete (follow : option Tok -> bool) (m : nat -> nat -> parse_run) (ts : list Tok) (e : Expr)
    : Prop :=
  forall at_ at', reads at_ ts at' -> follow (peek toks at') = true ->
    converges (fun fuel => m fuel at_) (Ok e, at').

(** The loops: reading the phrase [ts] of [e] leaves the loop at [e]. *)
Definition complete_loop (follow : option Tok -> bool) (m : nat -> nat -> parse_run)
    (lp : nat -> Expr -> nat -> parse_run) (ts : list Tok) (e : Expr) : Prop :=
  forall at_ at' r, reads at_ ts at' -> follow (peek toks at') = true ->
    converges (fun fuel => lp fuel e at') r -> converges (fun fuel => m fuel at_) r.

Lemma and_loop_stops e at_ :
  ends_and (peek toks at_) = true -> converges (fun fuel => and_loop toks input_len fuel e at_) (Ok e, at_).
Proof. intros H. apply converges_now. intros fuel. simpl. by destruct (peek toks at_) as [[]|]. Qed.

Lemma or_loop_stops e at_ :
  peek toks at_ <> Some T_Or -> converges (fun fuel => or_loop toks input_len fuel e at_) (Ok e, at_).
Proof. intros H. apply converges_now. intros fuel. simpl. by destruct (peek toks at_) as [[]|]. Qed.

Lemma all_complete :
  (forall ts e, G_or ts e ->
     complete_loop ends_and (parse_or toks input_len) (or_loop toks input_len) ts e) /\
  (forall ts e, G_and ts e ->
     complete_loop follows_term (parse_and toks input_len) (and_loop toks input_len) ts e) /\
  (forall ts e, G_unary ts e -> complete follows_term (parse_unary toks input_len) ts e) /\
  (forall ts e, G_primary ts e -> complete follows_term (parse_primary toks input_len) ts e).
Proof.
  apply grammar_ind.
  - intros ts e Hts IH at_ at' r Hr Hf Hl. eapply converges_succ; [done|]. simpl.
    eapply (converges_and_then _ (fun fuel => or_loop toks input_len fuel) e at'); [|done].
    eapply IH; [exact Hr|by apply ends_follows|by apply and_loop_stops].
  - intros ts1 ts2 e1 e2 _ IH1 _ IH2 at_ at' r Hr Hf Hl.
    apply reads_split in Hr as (at1 & Hr1 & Hr2). apply reads_cons in Hr2 as [Hor Hr2].
    eapply IH1; [exact Hr1|by rewrite Hor|].
    eapply converges_succ; [intros fuel; simpl; rewrite Hor; reflexivity|].
    eapply (converges_and_then _ (fun fuel rhs at_ => or_loop toks input_len fuel (Or e1 rhs) at_)); [|done].
    eapply IH2; [exact Hr2|by apply ends_follows|by apply and_loop_stops].
  - intros ts e _ IH at_ at' r Hr Hf Hl. eapply converges_succ; [done|]. simpl.
    eapply (converges_and_then _ (fun fuel => and_loop toks input_len fuel) e at'); [|done].
    by apply IH.
  - intros ts1 ts2 e1 e2 _ IH1 _ IH2 at_ at' r Hr Hf Hl.
    apply reads_split in Hr as (at1 & Hr1 & Hr2). apply reads_cons in Hr2 as [Hand Hr2].
    eapply IH1; [exact Hr1|by rewrite Hand|].
    eapply converges_succ; [intros fuel; simpl; rewrite Hand; reflexivity|].
    eapply (converges_and_then _ (fun fuel rhs at_ => and_loop toks input_len fuel (And e1 rhs) at_)); [|done].
    by apply IH2.
  - intros ts1 ts2 e1 e2 _ IH1 Hts2 IH2 at_ at' r Hr Hf Hl.
    apply reads_split in Hr as (at1 & Hr1 & Hr2).
    pose proof (reads_starts _ _ _ Hr2 (unary_starts _ _ Hts2)) as Hs.
    eapply IH1; [exact Hr1|by apply starts_follows|].
    eapply converges_succ.
    { intros fuel. simpl. instantiate (1 := fun fuel => and_then (parse_unary toks input_len fuel at1)
        (fun rhs at_ => and_loop toks input_len fuel (And e1 rhs) at_)).
      by destruct (peek toks at1) as [[]|]. }
    eapply (converges_and_then _ (fun fuel rhs at_ => and_loop toks input_len fuel (And e1 rhs) at_)); [|done].
    by apply IH2.
  - intros ts e Hts IH at_ at' Hr Hf. eapply converges_succ; [|by apply IH].
    intros fuel. simpl. destruct Hr as [Hr _]. rewrite peek_rest, Hr. by inversion Hts.
  - intros ts e _ IH at_ at' Hr Hf. apply reads_cons in Hr as [Hnot Hr].
    eapply converges_succ; [intros fuel; simpl; rewrite Hnot; reflexivity|].
    eapply (converges_and_then _ (fun _ e at_ => Some (Ok (Not e), at_))); [by apply IH|by exists O].
  - intros ts e _ IH at_ at' Hr Hf. apply reads_cons in Hr as [Hpar Hr].
    apply reads_split in Hr as (at1 & Hr1 & Hr2). apply reads_cons in Hr2 as [Hclose ->%reads_none].
    eapply converges_succ; [intros fuel; simpl; rewrite Hpar; reflexivity|].
    eapply (converges_and_then _ (fun _ inner at_ => match peek toks at_ with
      | Some T_RParen => Some (Ok inner, (at_ + 1)%nat)
      | _ => Some (err toks input_len (at_ + 1) "expected ')'", (at_ + 1)%nat) end)).
    + apply (IH (at_ + 1)%nat at1 _ Hr1); [by rewrite Hclose|]. apply or_loop_stops. by rewrite Hclose.
    + exists O. intros. by rewrite Hclose.
  - intros p re Hp at_ at' Hr Hf. apply reads_cons in Hr as [H ->%reads_none].
    apply converges_now. intros fuel. simpl. rewrite H. unfold compile. by rewrite Hp.
  - intros s at_ at' Hr Hf. apply reads_cons in Hr as [H ->%reads_none].
    apply converges_now. intros fuel. simpl. by rewrite H.
  - intros w at_ at' Hr Hf. apply reads_cons in Hr as [H ->%reads_none].
    apply converges_now. intros fuel. simpl. rewrite H. by destruct (peek toks (at_ + 1)) as [[]|].
  - intros name op t w re Ht Hn Hre at_ at' Hr Hf.
    apply reads_cons in Hr as [H1 [H2 [H3 ->%reads_none]%reads_cons]%reads_cons].
    apply converges_now. intros fuel. simpl. rewrite H1, H2. unfold parse_comparison.
    replace (at_ + 1 + 1)%nat with (at_ + 2)%nat in * by lia. rewrite H3.
    assert (comparison_value toks (Field_resolve name) op w (pos_at toks input_len (at_ + 2)) (at_ + 2 + 1)
      = Ok (Cmp (Field_resolve name) op (mkLiteral w (parse_number w) re))) as Hv
      by (apply comparison_value_Ok; eauto).
    by destruct Ht as [-> | ->]; rewrite Hv.
  - intros name op p re Hp at_ at' Hr Hf.
    apply reads_cons in Hr as [H1 [H2 [H3 ->%reads_none]%reads_cons]%reads_cons].
    apply converges_now. intros fuel. simpl. rewrite H1, H2. unfold parse_comparison.
    replace (at_ + 1 + 1)%nat with (at_ + 2)%nat in * by lia. rewrite H3. unfold compile. by rewrite Hp.
Qed.

(** *** More fuel changes nothing *)

(** [m'] answers whatever [m] answers. *)
Definition extends (m m' : parse_run) : Prop := forall r, m = Some r -> m' = Some r.

Lemma extends_and_then m m' k k' :
  extends m m' -> (forall e at', extends (k e at') (k' e at')) -> extends (and_then m k) (and_then m' k').
Proof.
  intros Hm Hk r H. destruct m as [[[e|er] at']|]; simplify_eq/=;
    rewrite (Hm _ eq_refl); simpl; [by apply Hk|done].
Qed.

Lemma extends_refl m : extends m m.
Proof. by intros r. Qed.

Record parsers_extend (f f' : nat) : Prop := mkExtend {
  ex_or at_ : extends (parse_or toks input_len f at_) (parse_or toks input_len f' at_);
  ex_or_loop acc at_ : extends (or_loop toks input_len f acc at_) (or_loop toks input_len f' acc at_);
  ex_and at_ : extends (parse_and toks input_len f at_) (parse_and toks input_len f' at_);
  ex_and_loop acc at_ :
    extends (and_loop toks input_len f acc at_) (and_loop toks input_len f' acc at_);
  ex_unary at_ : extends (parse_unary toks input_len f at_) (parse_unary toks input_len f' at_);
  ex_primary at_ : extends (parse_primary toks input_len f at_) (parse_primary toks input_len f' at_);
}.

#[local] Hint Resolve extends_and_then extends_refl : core.

Lemma all_extend f f' : (f <= f')%nat -> parsers_extend f f'.
Proof.
  revert f'. induction f as [|f IH]; [split; by intros|]. intros [|f'] Hle; [lia|].
  destruct (IH f' ltac:(lia)) as [IHo IHol IHa IHal IHu IHp]. split; intros; simpl; auto.
  - destruct (peek toks at_) as [[]|]; auto.
  - destruct (peek toks at_) as [[]|]; simpl; auto.
  - destruct (peek toks at_) as [[]|]; auto.
  - destruct (peek toks at_) as [[]|]; auto.
Qed.

(** The run [StreamQuery::parse] makes is the one any larger fuel makes. *)
Lemma parse_or_converges r :
  converges (fun fuel => parse_or toks input_len fuel 0) r ->
  parse_or toks input_len (parse_fuel toks) 0 = Some r.
Proof.
  intros [n Hn]. destruct parse_or_ends as [r' Hr']. rewrite Hr'.
  apply (ex_or _ (n + parse_fuel toks)) in Hr'; [|apply all_extend; lia].
  by rewrite Hn in Hr' by lia.
Qed.

Lemma rest_at_0 : rest_at 0 = kinds.
Proof. done. Qed.

Lemma parse_tokens_step :
  parse_tokens toks input_len =
  if bool_decide (toks = []) then Parsed (Error (mkQueryError "empty query" 0)) else
  match parse_or toks input_len (parse_fuel toks) 0 with
  | None => OutOfFuel
  | Some (Error e, _) => Parsed (Error e)
  | Some (Ok root, at_) =>
      match peek toks at_ with
      | Some _ => Parsed (err toks input_len at_ "unexpected trailing input")
      | None => Parsed (Ok root)
      end
  end.
Proof. unfold parse_tokens. by destruct toks. Qed.

(** Parsing a token list succeeds with [e] exactly when [e] derives it. *)
Lemma parse_tokens_Ok e : parse_tokens toks input_len = Parsed (Ok e) <-> G_or kinds e.
Proof.
  rewrite parse_tokens_step. case_bool_decide as Hne.
  { split; [done|]. rewrite Hne. intros HG. by apply (proj1 phrase_starts) in HG. }
  split.
  - intros H. destruct (parse_or toks input_len (parse_fuel toks) 0) as [[[e'|er] at']|] eqn:Hrun; try done.
    destruct (peek toks at') as [k|] eqn:Hk; [done|]. injection H as ->.
    destruct (so_or _ (all_sound _) _ _ _ Hrun) as (ps & [Hr _] & Hps).
    rewrite peek_rest in Hk. rewrite rest_at_0 in Hr. rewrite Hr.
    destruct (rest_at at'); [by rewrite app_nil_r|done].
  - intros HG.
    assert (reads 0 kinds (length kinds)) as Hr.
    { unfold reads, rest_at. by rewrite drop_0, drop_all, app_nil_r. }
    assert (peek toks (length kinds) = None) as Hend.
    { rewrite peek_rest. unfold rest_at. by rewrite drop_all. }
    rewrite (parse_or_converges (Ok e, length kinds)).
    + by rewrite Hend.
    + apply (proj1 all_complete _ _ HG _ _ _ Hr); [by rewrite Hend|].
      apply or_loop_stops. by rewrite Hend.
Qed.

Lemma parse_tokens_ends : parse_tokens toks input_len <> OutOfFuel /\ parse_tokens toks input_len <> Panicked.
Proof.
  rewrite parse_tokens_step. case_bool_decide; [done|].
  destruct parse_or_ends as [[[e|er] at'] ->]; [|done]. by destruct (peek toks at').
Qed.

(** *** Where errors point *)

Section Positions.
Context (Hlen : 0 <= input_len) (Htoks : Forall (fun t : Token => 0 <= t.2 <= input_len) toks).

Definition points_inside (r : result Expr QueryError) : Prop :=
  forall e, r = Error e -> 0 <= position e <= input_len.

Definition run_inside (m : parse_run) : Prop := forall r at', m = Some (r, at') -> points_inside r.

Lemma tok_inside (d : Z) i : 0 <= d <= input_len -> 0 <= from_option snd d (toks !! i) <= input_len.
Proof.
  intros Hd. destruct (toks !! i) as [t|] eqn:Ht; [|done].
  by eapply Forall_lookup in Htoks; [|exact Ht].
Qed.

Lemma err_inside at_ msg : points_inside (err toks input_len at_ msg).
Proof. intros e He. injection He as <-. simpl. apply tok_inside. lia. Qed.

Lemma compile_inside at_ p e : compile toks at_ p = Error e -> 0 <= position e <= input_len.
Proof. unfold compile. destruct (regex_build p); intros He; [done|]. injection He as <-. apply tok_inside. lia. Qed.

Lemma Ok_inside e : points_inside (Ok e).
Proof. done. Qed.

Lemma run_inside_some r at_ : points_inside r -> run_inside (Some (r, at_)).
Proof. intros Hr r' at' ?. by simplify_eq. Qed.

Lemma run_inside_and_then m k :
  run_inside m -> (forall e at', run_inside (k e at')) -> run_inside (and_then m k).
Proof.
  intros Hm Hk. destruct m as [[[e|er] at']|]; simpl; [apply Hk| |by intros ??]. exact Hm.
Qed.

#[local] Hint Resolve err_inside Ok_inside run_inside_some run_inside_and_then : core.

Lemma parse_comparison_inside at_ name op : points_inside (parse_comparison toks input_len at_ name op).1.
Proof.
  assert (0 <= pos_at toks input_len (at_ + 2) <= input_len) as Hpos by (apply tok_inside; lia).
  assert (forall f w vat, points_inside
    (comparison_value toks f op w (pos_at toks input_len (at_ + 2)) vat)) as Hvalue.
  { intros f w vat e. unfold comparison_value. case_match; [intros; by simplify_eq|].
    case_match; [|done]. destruct (compile _ _ _) eqn:Hc; [done|]. intros. simplify_eq.
    by eapply compile_inside. }
  unfold parse_comparison. destruct (peek toks (at_ + 2)) as [[]|]; simpl; auto;
    try (intros e ?; by simplify_eq/=).
  intros e. destruct (compile _ _ _) eqn:Hc; [done|]. intros. simplify_eq. by eapply compile_inside.
Qed.

Record parsers_inside (fuel : nat) : Prop := mkInside {
  in_or at_ : run_inside (parse_or toks input_len fuel at_);
  in_or_loop acc at_ : run_inside (or_loop toks input_len fuel acc at_);
  in_and at_ : run_inside (parse_and toks input_len fuel at_);
  in_and_loop acc at_ : run_inside (and_loop toks input_len fuel acc at_);
  in_unary at_ : run_inside (parse_unary toks input_len fuel at_);
  in_primary at_ : run_inside (parse_primary toks input_len fuel at_);
}.

Lemma all_inside fuel : parsers_inside fuel.
Proof.
  induction fuel as [|fuel [IHo IHol IHa IHal IHu IHp]]; [split; by intros; intros ??|].
  split; intros; simpl; auto;
    destruct (peek toks at_) as [[]|]; simpl; auto 6.
  - apply run_inside_and_then; [auto|]. intros. destruct (peek toks at') as [[]|]; auto.
  - destruct (peek toks (at_ + 1)) as [[]|]; auto.
    intros r at' Hr. injection Hr as Hr. pose proof (parse_comparison_inside at_ w op) as H.
    by rewrite Hr in H.
  - apply run_inside_some. intros e. destruct (compile _ _ _) eqn:Hc; [done|]. intros. simplify_eq.
    by eapply compile_inside.
Qed.

Lemma parse_tokens_inside e :
  parse_tokens toks input_len = Parsed (Error e) -> 0 <= position e <= input_len.
Proof.
  rewrite parse_tokens_step. case_bool_decide; [intros; simplify_eq/=; lia|].
  destruct (parse_or _ _ _ _) as [[[r|er] at']|] eqn:Hrun; [| |done]; intros H1; simplify_eq/=.
  - destruct (peek toks at'); simplify_eq/=. apply tok_inside. lia.
  - by eapply in_or; [apply all_inside|exact Hrun|].
Qed.
End Positions.
End Parser.
End Grammar.
