(* ===== verification/QueryLex.v ===== *)
(** * The query lexer

    Every round of the lexer's loop moves forward, so lexing ends; every offset
    it reports lies inside the input; it panics only when a character of the
    input contains one of the bytes [0x85] or [0xA0], which the code takes for
    white space; and it reads back whatever token sequence is written out. *)

From S2P Require Import Prelude.
From S2P Require Import Arena.
From S2P Require Import Store.
From S2P Require Import Text.
From S2P Require Import Fmt.
From S2P Require Import Query.
From S2P Require Import QueryGrammar.

(** ** Byte positions *)

Lemma byte_at_from bytes i : 0 <= i -> byte_at bytes i = head (slice_from bytes i).
Proof.
  intros Hi. unfold byte_at, slice_from. rewrite (proj2 (Z.leb_le 0 i)) by done.
  by rewrite head_lookup, lookup_drop, Nat.add_0_r.
Qed.

Lemma slice_from_add {A} (l : list A) i j : 0 <= i -> 0 <= j ->
  slice_from l (i + j) = slice_from (slice_from l i) j.
Proof. intros. unfold slice_from. rewrite drop_drop. f_equal. lia. Qed.

Lemma slice_from_app_r {A} (u v : list A) : slice_from (u ++ v) (blen u) = v.
Proof. unfold slice_from, blen. by rewrite Nat2Z.id, drop_app_length. Qed.

Lemma byte_at_range bytes i b : byte_at bytes i = Some b -> 0 <= i < blen bytes.
Proof.
  unfold byte_at, blen. case_match eqn:E; [|done]. reflect_bools.
  intros H%lookup_lt_Some. lia.
Qed.

Lemma byte_at_end bytes i : 0 <= i -> byte_at bytes i = None <-> blen bytes <= i.
Proof.
  intros Hi. unfold byte_at, blen. rewrite (proj2 (Z.leb_le 0 i)) by done.
  rewrite lookup_ge_None. lia.
Qed.

Lemma span_app {A} (f : A -> bool) l : (span f l).1 ++ (span f l).2 = l.
Proof. induction l as [|x l IH]; [done|]. simpl. case_match; [|done]. by destruct (span f l); simpl in *; f_equal. Qed.

Lemma span_stops {A} (f : A -> bool) l x : head (span f l).2 = Some x -> f x = false.
Proof.
  induction l as [|y l IH]; [done|]. simpl. destruct (f y) eqn:E; [|by intros; simplify_eq/=].
  by destruct (span f l).
Qed.

Lemma span_prefix {A} (f : A -> bool) l x rest :
  Forall (fun y => f y = true) l -> f x = false -> span f (l ++ x :: rest) = (l, x :: rest).
Proof. induction 1 as [|y l Hy Hl IH]; intros Hx; simpl; [by rewrite Hx|]. by rewrite Hy, IH. Qed.

Lemma span_rest {A} (f : A -> bool) l : slice_from l (blen (span f l).1) = (span f l).2.
Proof. rewrite <- (span_app f l) at 1. apply slice_from_app_r. Qed.

(** Where [scan_to] ends: inside the buffer, on a byte that stops it. *)
Lemma scan_to_spec stop bytes i : 0 <= i <= blen bytes ->
  i <= scan_to stop bytes i <= blen bytes /\
  (forall b, byte_at bytes (scan_to stop bytes i) = Some b -> stop b = true).
Proof.
  intros Hi. unfold scan_to. set (f := fun b => negb (stop b)).
  pose proof (span_app f (slice_from bytes i)) as Happ.
  pose proof (blen_slice_from bytes i ltac:(lia)) as Hlen. rewrite <- Happ, blen_app in Hlen.
  pose proof (blen_nonneg (span f (slice_from bytes i)).1).
  pose proof (blen_nonneg (span f (slice_from bytes i)).2).
  split; [lia|]. intros b Hb. rewrite byte_at_from, slice_from_add in Hb by lia.
  rewrite span_rest in Hb. apply span_stops in Hb. by apply negb_false_iff.
Qed.

Lemma scan_to_moves stop bytes i b :
  byte_at bytes i = Some b -> stop b = false -> i < scan_to stop bytes i.
Proof.
  intros Hb Hs. pose proof (byte_at_range _ _ _ Hb). unfold scan_to.
  rewrite byte_at_from in Hb by lia. destruct (slice_from bytes i) as [|c l]; simplify_eq/=.
  rewrite Hs. simpl. destruct (span _ l) as [u v]. simpl. rewrite blen_cons.
  pose proof (blen_nonneg u). lia.
Qed.

Lemma byte_at_cons b l n : 0 <= n -> byte_at (b :: l) (n + 1) = byte_at l n.
Proof.
  intros. unfold byte_at. rewrite !(proj2 (Z.leb_le _ _)) by lia.
  by replace (Z.to_nat (n + 1)) with (S (Z.to_nat n)) by lia.
Qed.

Lemma regex_body_step b c rest :
  regex_body (b :: c :: rest) =
  if b =? 47 then Some ([], 0)
  else if (b =? 92) && (c =? 47)
  then '(p, n) ← regex_body rest; Some (47 :: p, n + 2)
  else '(p, n) ← regex_body (c :: rest); Some (push_latin1 b ++ p, n + 1).
Proof. done. Qed.

Lemma regex_body_spec rest p n :
  regex_body rest = Some (p, n) -> 0 <= n < blen rest /\ byte_at rest n = Some 47.
Proof.
  revert p n. induction rest as [rest IH] using (induction_ltof1 _ (@length Z)). unfold ltof in IH.
  intros p n. destruct rest as [|b rest]; [done|].
  destruct (b =? 47) eqn:Hb.
  { simpl. rewrite Hb. intros. simplify_eq. reflect_bools. subst. rewrite blen_cons.
    pose proof (blen_nonneg rest). split; [lia|done]. }
  destruct rest as [|c rest]; [simpl; by rewrite Hb|].
  rewrite regex_body_step, Hb. destruct ((b =? 92) && (c =? 47)).
  - destruct (regex_body rest) as [[p' n']|] eqn:E; [|done]; simpl; intros Hp; injection Hp as <- <-.
    apply IH in E; [|simpl; lia]. rewrite !blen_cons. split; [lia|].
    replace (n' + 2) with (n' + 1 + 1) by lia. rewrite !byte_at_cons by lia. apply E.
  - destruct (regex_body (c :: rest)) as [[p' n']|] eqn:E; [|done]; simpl; intros Hp; injection Hp as <- <-.
    apply IH in E; [|simpl; lia]. rewrite blen_cons. split; [lia|]. rewrite byte_at_cons by lia. apply E.
Qed.

(** ** Words *)

Lemma prefix_length pat s : String.prefix pat s = true -> (String.length pat <= String.length s)%nat.
Proof.
  revert s. induction pat as [|c pat IH]; intros [|d s]; simpl; try (done || lia).
  destruct (Ascii.ascii_dec c d); [|done]. intros H%IH. lia.
Qed.

Lemma index_bound pat s n :
  String.index 0 pat s = Some n -> (n + String.length pat <= String.length s)%nat.
Proof.
  revert n. induction s as [|c s IH]; intros n; simpl.
  - destruct pat; [|done]. intros. simplify_eq/=. lia.
  - destruct pat as [|d pat]; [intros; simplify_eq/=; lia|].
    destruct (Ascii.ascii_dec d c).
    + destruct (String.prefix pat s) eqn:Hp.
      * intros. simplify_eq/=. apply prefix_length in Hp. lia.
      * destruct (String.index 0 _ s) as [m|] eqn:Hm; [|done]. intros. simplify_eq.
        specialize (IH m eq_refl). simpl in *. lia.
    + destruct (String.index 0 _ s) as [m|] eqn:Hm; [|done]. intros. simplify_eq.
      specialize (IH m eq_refl). simpl in *. lia.
Qed.

Lemma str_find_bound pat s p :
  str_find pat s = Some p -> 0 <= p /\ p + Z.of_nat (String.length pat) <= Z.of_nat (String.length s).
Proof.
  unfold str_find. destruct (String.index 0 pat s) as [n|] eqn:E; [|done]; simpl; intros Hp; injection Hp as <-.
  apply index_bound in E. lia.
Qed.

(** A split lies inside its word and is not empty. *)
Definition split_inside (word : string) (sp : Split) : Prop :=
  let '(p, _, len) := sp in 0 <= p /\ 0 < len /\ p + len <= Z.of_nat (String.length word).

Lemma find_split_inside word sp : find_split word = Some sp -> split_inside word sp.
Proof.
  unfold find_split.
  assert (forall l acc, Forall (fun e : string * CmpOp => (0 < String.length e.1)%nat) l ->
    (forall x, acc = Some x -> split_inside word x) ->
    forall x, foldl (better_split word) acc l = Some x -> split_inside word x) as Hfold.
  { induction l as [|e l IH]; intros acc Hl Hacc; [done|]. apply Forall_cons in Hl as [He Hl].
    apply IH; [done|]. intros x. unfold better_split.
    destruct (str_find e.1 word) as [p|] eqn:Hf; [|apply Hacc].
    apply str_find_bound in Hf. case_match; [|apply Hacc].
    intros. simplify_eq. simpl. lia. }
  apply Hfold; [repeat constructor|done].
Qed.

Lemma push_word_pos w pos : Forall (fun t : Token => t.2 = pos) (push_word w pos).
Proof. unfold push_word. case_match; repeat constructor. Qed.

Lemma length_substring n m s :
  String.length (String.substring n m s) = Nat.min m (String.length s - n).
Proof.
  revert n m. induction s as [|c s IH]; intros [|n] [|m];
    cbn [String.substring String.length]; rewrite ?IH; lia.
Qed.

Lemma str_suffix_length n s : 0 <= n <= Z.of_nat (String.length s) ->
  Z.of_nat (String.length (str_suffix n s)) = Z.of_nat (String.length s) - n.
Proof. intros. unfold str_suffix. rewrite length_substring. lia. Qed.

Lemma word_tokens_pos word start : word <> EmptyString ->
  Forall (fun t : Token => start <= t.2 < start + Z.of_nat (String.length word)) (word_tokens word start).
Proof.
  intros Hne. assert (0 < Z.of_nat (String.length word)) by (destruct word; [done|simpl; lia]).
  unfold word_tokens. destruct (find_split word) as [[[p op] len]|] eqn:Hsp.
  - apply find_split_inside in Hsp as (? & ? & ?). rewrite !Forall_app. split; [|split].
    + case_match; [|done]. eapply Forall_impl; [apply push_word_pos|]. simpl. lia.
    + repeat constructor; simpl; lia.
    + case_match eqn:Hrest; [done|]. repeat constructor; simpl; [lia|].
      assert (p + len <> Z.of_nat (String.length word)) as Hlt; [|lia].
      intros Heq. pose proof (str_suffix_length (p + len) word ltac:(lia)) as Hl.
      destruct (str_suffix (p + len) word); [done|]. simpl in Hl. lia.
  - eapply Forall_impl; [apply push_word_pos|]. simpl. lia.
Qed.

Lemma length_text_of l : String.length (text_of l) = length l.
Proof. unfold text_of. induction l as [|b l IH]; [done|]. simpl. by f_equal. Qed.

(** ** Progress *)

(** A round goes forward, stays inside the buffer, and its tokens and errors
    point inside it. *)
Lemma lex_round_forward bytes i c :
  byte_at bytes i = Some c ->
  match lex_round bytes i c with
  | Lex_More j pushed => i < j <= blen bytes /\ Forall (fun t => i <= t.2 < j) pushed
  | Lex_Fail e => position e = i
  | Lex_Panic => True
  end.
Proof.
  intros Hc. pose proof (byte_at_range _ _ _ Hc). unfold lex_round.
  destruct (is_whitespace c) eqn:Hws; [split; [lia|done]|].
  destruct (c =? 40) eqn:Hl; [split; [lia|repeat constructor; simpl; lia]|].
  destruct (c =? 41) eqn:Hr; [split; [lia|repeat constructor; simpl; lia]|].
  destruct (is_quote c) eqn:Hq.
  { pose proof (scan_to_spec (fun b => b =? c) bytes (i + 1) ltac:(lia)) as [Hj _].
    destruct (blen bytes <=? _) eqn:Hend; [done|]. reflect_bools.
    destruct (str_slice _ _ _); [|done].
    split; [lia|repeat constructor; simpl; lia]. }
  destruct (c =? 47) eqn:Hs.
  { destruct (regex_body _) as [[p n]|] eqn:Hb; [|done].
    apply regex_body_spec in Hb as [Hn _]. rewrite blen_slice_from in Hn by lia.
    split; [lia|repeat constructor; simpl; lia]. }
  assert (ends_word c = false) as Hnot by (unfold ends_word, is_paren; by rewrite Hws, Hl, Hr, Hq).
  pose proof (scan_to_spec ends_word bytes i ltac:(lia)) as [Hj _].
  pose proof (scan_to_moves ends_word bytes i c Hc Hnot).
  destruct (str_slice _ _ _) as [word|] eqn:Hword; [|done]. split; [lia|].
  unfold str_slice in Hword. destruct (_ && _); [|done].
  destruct (slice bytes i _) as [w|] eqn:Hw; simplify_eq/=. apply slice_length in Hw.
  eapply Forall_impl; [apply word_tokens_pos|].
  - intros Hempty%(f_equal String.length). rewrite length_text_of in Hempty. unfold blen in Hw. simpl in Hempty. lia.
  - intros t. rewrite length_text_of. unfold blen in Hw. lia.
Qed.

(** What a run of the lexer from offset [i] on may answer. *)
Definition lexed_inside (bytes : list Z) (r : outcome (list Token)) : Prop :=
  match r with
  | Parsed (Ok toks) => Forall (fun t : Token => 0 <= t.2 <= blen bytes) toks
  | Parsed (Error e) => 0 <= position e <= blen bytes
  | Panicked => True
  | OutOfFuel => False
  end.

Lemma lex_loop_inside fuel bytes i toks :
  0 <= i <= blen bytes -> blen bytes - i <= Z.of_nat fuel ->
  Forall (fun t : Token => 0 <= t.2 <= blen bytes) toks -> lexed_inside bytes (lex_loop fuel bytes i toks).
Proof.
  revert i toks. induction fuel as [|fuel IH]; intros i toks Hi Hfuel Htoks; simpl;
    (destruct (byte_at bytes i) as [c|] eqn:Hc; [|done]).
  { apply byte_at_range in Hc. lia. }
  pose proof (byte_at_range _ _ _ Hc). pose proof (lex_round_forward _ _ _ Hc) as Hr.
  destruct (lex_round bytes i c) as [j pushed|e|]; [|simpl in *; lia|done].
  destruct Hr as [Hj Hpushed]. apply IH; [lia|lia|]. apply Forall_app. split; [done|].
  eapply Forall_impl; [exact Hpushed|]. simpl. lia.
Qed.

Lemma lex_inside input : lexed_inside (str_bytes input) (lex input).
Proof. apply lex_loop_inside; [|unfold blen; lia|done]. pose proof (blen_nonneg (str_bytes input)). lia. Qed.

(** ** Panics *)

(** A byte that continues a UTF-8 character. *)
Definition continues (b : Z) : bool := in_range 128 191 b.

(** Valid UTF-8, as far as the lexer depends on it: no character continues at
    the start of the string or after an ASCII byte. *)
Fixpoint cut_ok (prev : Z) (bytes : list Z) : bool :=
  match bytes with
  | [] => true
  | b :: rest => (negb (continues b) || (128 <=? prev)) && cut_ok b rest
  end.

Definition well_formed (bytes : list Z) : Prop := cut_ok 0 bytes = true.

Lemma cut_ok_at prev bytes (i : nat) b :
  cut_ok prev bytes = true -> bytes !! i = Some b -> continues b = true ->
  exists a, (prev :: bytes) !! i = Some a /\ 128 <= a.
Proof.
  revert prev i. induction bytes as [|c bytes IH]; intros prev i H Hb Hc; [done|].
  simpl in H. apply andb_true_iff in H as [Hhd Htl]. destruct i as [|i]; simplify_eq/=.
  - rewrite Hc in Hhd. exists prev. split; [done|]. by apply Z.leb_le.
  - by apply IH.
Qed.

Lemma well_formed_at bytes i b :
  well_formed bytes -> byte_at bytes i = Some b -> continues b = true ->
  exists a, byte_at bytes (i - 1) = Some a /\ 128 <= a.
Proof.
  unfold byte_at. intros Hwf Hb Hc. case_match eqn:Hi; [|done]. reflect_bools.
  destruct (cut_ok_at 0 bytes (Z.to_nat i) b Hwf Hb Hc) as (a & Ha & ?).
  destruct (Z.to_nat i) as [|k] eqn:Hk; simplify_eq/=; [lia|].
  exists a. rewrite (proj2 (Z.leb_le 0 (i - 1))) by lia.
  by replace (Z.to_nat (i - 1)) with k by lia.
Qed.

(** No character contains a byte the lexer takes for white space. *)
Definition no_false_space (bytes : list Z) : Prop := Forall (fun b => b <> 0x85 /\ b <> 0xA0) bytes.

Section NoPanic.
Context (bytes : list Z) (Hwf : well_formed bytes) (Hspace : no_false_space bytes).

Lemma byte_at_elem i b : byte_at bytes i = Some b -> b ∈ bytes.
Proof. unfold byte_at. case_match; [|done]. apply list_elem_of_lookup_2. Qed.

Lemma boundary_next i b : byte_at bytes i = Some b -> b < 128 -> is_char_boundary bytes (i + 1) = true.
Proof.
  intros Hb Hlt. unfold is_char_boundary. pose proof (byte_at_range _ _ _ Hb).
  destruct (byte_at bytes (i + 1)) as [c|] eqn:Hc.
  - destruct (in_range 128 191 c) eqn:Hcont; [|done].
    destruct (well_formed_at bytes _ _ Hwf Hc Hcont) as (a & Ha & ?). replace (i + 1 - 1) with i in Ha by lia.
    simplify_eq. lia.
  - apply byte_at_end in Hc; [|lia]. apply Z.eqb_eq. lia.
Qed.

Lemma boundary_at i : 0 <= i <= blen bytes ->
  (forall b, byte_at bytes i = Some b -> b < 128) -> is_char_boundary bytes i = true.
Proof.
  intros Hi Hb. unfold is_char_boundary. destruct (byte_at bytes i) as [b|] eqn:E.
  - specialize (Hb _ eq_refl). unfold in_range. by rewrite (proj2 (Z.leb_gt 128 b)).
  - apply byte_at_end in E; [|lia]. apply Z.eqb_eq. lia.
Qed.

Lemma stop_ascii b : b ∈ bytes -> ends_word b = true -> b < 128.
Proof.
  intros Hb. apply (proj1 (Forall_forall _ _) Hspace) in Hb as [? ?].
  unfold ends_word, is_whitespace, is_paren, is_quote, in_range. rewrite !orb_true_iff, !andb_true_iff, !Z.eqb_eq, !Z.leb_le. lia.
Qed.

(** A round started on a boundary does not panic and ends on one. *)
Lemma lex_round_no_panic i c :
  byte_at bytes i = Some c -> is_char_boundary bytes i = true ->
  match lex_round bytes i c with
  | Lex_More j _ => is_char_boundary bytes j = true
  | Lex_Fail _ => True
  | Lex_Panic => False
  end.
Proof.
  intros Hc Hi. pose proof (byte_at_range _ _ _ Hc) as Hrange. pose proof (lex_round_forward _ _ _ Hc) as Hfwd.
  pose proof (boundary_next i c Hc) as Hnext. pose proof (stop_ascii c (byte_at_elem _ _ Hc)) as Hascii.
  unfold lex_round in *.
  destruct (is_whitespace c) eqn:Hws.
  { apply Hnext, Hascii. unfold ends_word. by rewrite Hws. }
  destruct (c =? 40) eqn:Hl; [apply Hnext; reflect_bools; lia|].
  destruct (c =? 41) eqn:Hr; [apply Hnext; reflect_bools; lia|].
  destruct (is_quote c) eqn:Hq.
  { assert (c < 128) as Hc128 by (unfold is_quote in Hq; destruct (c =? 34) eqn:?; reflect_bools; lia).
    pose proof (scan_to_spec (fun b => b =? c) bytes (i + 1) ltac:(lia)) as [Hj Hstop].
    destruct (blen bytes <=? _) eqn:Hend; [done|]. reflect_bools.
    assert (byte_at bytes (scan_to (fun b => b =? c) bytes (i + 1)) = Some c) as Hclose.
    { destruct (byte_at bytes (scan_to _ _ _)) as [d|] eqn:Hd.
      - f_equal. by apply Z.eqb_eq, Hstop.
      - apply byte_at_end in Hd; lia. }
    assert (str_slice bytes (i + 1) (scan_to (fun b => b =? c) bytes (i + 1)) <> None) as Hslice.
    { unfold str_slice. rewrite Hnext, boundary_at; [|lia|intros d Hd; congruence|done]. simpl.
      destruct (slice _ _ _) eqn:Hs; [done|]. apply slice_None in Hs; lia. }
    destruct (str_slice _ _ _); [|done]. by apply boundary_next with c. }
  destruct (c =? 47) eqn:Hs.
  { destruct (regex_body _) as [[p n]|] eqn:Hb; [|done].
    apply regex_body_spec in Hb as [Hn Hclose].
    apply boundary_next with 47; [|lia].
    rewrite byte_at_from in * by lia. by rewrite <- slice_from_add in Hclose by lia. }
  pose proof (scan_to_spec ends_word bytes i ltac:(lia)) as [Hj Hstop].
  assert (is_char_boundary bytes (scan_to ends_word bytes i) = true) as Hbj.
  { apply boundary_at; [lia|]. intros b Hb. apply stop_ascii; [by eapply byte_at_elem|by apply Hstop]. }
  destruct (str_slice _ _ _) eqn:Hslice; [done|]. unfold str_slice in Hslice.
  rewrite Hi, Hbj in Hslice. simpl in Hslice.
  destruct (slice _ _ _) eqn:Hw; [done|]. apply slice_None in Hw; lia.
Qed.

Lemma lex_loop_no_panic fuel i toks :
  (0 <= i <= blen bytes) -> is_char_boundary bytes i = true -> lex_loop fuel bytes i toks <> Panicked.
Proof.
  revert i toks. induction fuel as [|fuel IH]; intros i toks Hi Hb; simpl;
    (destruct (byte_at bytes i) as [c|] eqn:Hc; [|done]); [done|].
  pose proof (lex_round_no_panic _ _ Hc Hb) as Hr. pose proof (lex_round_forward _ _ _ Hc) as Hf.
  destruct (lex_round bytes i c) as [j pushed|e|]; [|done|done]. apply IH; [lia|done].
Qed.
End NoPanic.

(** ** Writing tokens down *)

Lemma text_of_cons b l : text_of (b :: l) = String (char_of b) (text_of l).
Proof. done. Qed.

Lemma text_of_str_bytes s : text_of (str_bytes s) = s.
Proof.
  induction s as [|c s IH]; [done|]. simpl. rewrite text_of_cons, IH. f_equal.
  unfold char_of. rewrite N2Z.id. apply Ascii.ascii_N_embedding.
Qed.

Lemma str_bytes_text_of l : bytes_ok l -> str_bytes (text_of l) = l.
Proof.
  induction 1 as [|b l Hb Hl IH]; [done|]. rewrite text_of_cons. simpl. rewrite IH. f_equal.
  unfold is_byte in Hb. unfold char_of. rewrite Ascii.N_ascii_embedding by lia. lia.
Qed.

Definition op_text (op : CmpOp) : string :=
  match op with
  | Op_Eq => "==" | Op_Ne => "!=" | Op_Re => "=~" | Op_NotRe => "!~" | Op_Gt => ">"
  | Op_Ge => ">=" | Op_Lt => "<" | Op_Le => "<=" | Op_Contains => "contains"
  end.

(** [\/] for every slash of a pattern. *)
Definition escape (p : list Z) : list Z := p ≫= (fun b => if b =? 47 then [92; 47] else [b]).

Definition piece (t : Tok) : list Z :=
  match t with
  | T_LParen => [40]
  | T_RParen => [41]
  | T_And => str_bytes "and"
  | T_Or => str_bytes "or"
  | T_Not => str_bytes "not"
  | T_Op op => str_bytes (op_text op)
  | T_Word w => str_bytes w
  | T_Str s => 34 :: str_bytes s ++ [34]
  | T_Regex p => 47 :: escape (str_bytes p) ++ [47]
  end.

(** Every token followed by a space. *)
Definition write (ts : list Tok) : list Z := ts ≫= (fun t => piece t ++ [32]).

(** Does not start inside a character. *)
Definition starts_whole (l : list Z) : bool :=
  match l with b :: _ => negb (continues b) | [] => true end.

(** Tokens that can be written: words free of separators and operators that are
    not keywords, strings without a double quote, ASCII patterns that do not
    end with a backslash. *)
Definition writable (t : Tok) : Prop :=
  match t with
  | T_Word w =>
      w <> ""%string /\ Forall (fun b => ends_word b = false) (str_bytes w) /\
      starts_whole (str_bytes w) = true /\ head (str_bytes w) <> Some 47 /\
      find_split w = None /\ word_tok w = Some (T_Word w)
  | T_Str s => Forall (fun b => b <> 34) (str_bytes s) /\ starts_whole (str_bytes s) = true
  | T_Regex p => Forall (fun b => b < 128) (str_bytes p) /\ last (str_bytes p) <> Some 92
  | _ => True
  end.

Lemma regex_body_escape p rest :
  Forall (fun b => b < 128) p -> last p <> Some 92 ->
  regex_body (escape p ++ 47 :: rest) = Some (p, blen (escape p)).
Proof.
  induction p as [|b p IH]; intros Hp Hlast; [done|]. apply Forall_cons in Hp as [Hb Hp].
  assert (last p <> Some 92) as Hlast' by (destruct p; [done|by rewrite last_cons_cons in Hlast]).
  specialize (IH Hp Hlast'). unfold escape in *. cbn [mbind list_bind].
  fold (escape p) in *. destruct (b =? 47) eqn:E.
  - reflect_bools. subst. change (([92; 47] ++ escape p) ++ 47 :: rest) with (92 :: 47 :: escape p ++ 47 :: rest).
    rewrite regex_body_step, IH. simpl. rewrite !blen_cons. do 2 f_equal. lia.
  - change (([b] ++ escape p) ++ 47 :: rest) with (b :: (escape p ++ 47 :: rest)).
    destruct (escape p ++ 47 :: rest) as [|c tl] eqn:Htl; [by destruct (escape p)|].
    rewrite regex_body_step, E, IH. simpl.
    assert ((b =? 92) && (c =? 47) = false) as ->.
    { destruct p as [|d p]; [destruct (b =? 92) eqn:?; [reflect_bools; by subst|done]|].
      unfold escape in Htl. simpl in Htl. destruct (d =? 47) eqn:Hd; simplify_eq/=; rewrite ?Hd;
        by rewrite andb_false_r. }
    unfold push_latin1. rewrite (proj2 (Z.ltb_lt b 128)) by done. simpl. rewrite blen_cons.
    do 2 f_equal.
Qed.

Section Rounds.
Context (bytes : list Z) (i : Z) (Hi : 0 <= i <= blen bytes).

Lemma slice_here k w l : 0 <= k <= blen bytes ->
  slice_from bytes k = w ++ l -> slice bytes k (k + blen w) = Some w.
Proof.
  intros Hk H. pose proof (blen_nonneg w). pose proof (blen_nonneg l).
  pose proof (blen_slice_from bytes k Hk) as Hlen. rewrite H, blen_app in Hlen.
  apply slice_Some. repeat split; [lia|lia|lia|]. fold (slice_from bytes k). rewrite H.
  replace (k + blen w - k) with (blen w) by lia. unfold blen. by rewrite Nat2Z.id, take_app_length.
Qed.

Lemma boundary_here k l : 0 <= k <= blen bytes ->
  slice_from bytes k = l -> starts_whole l = true -> is_char_boundary bytes k = true.
Proof.
  intros Hk H Hl. unfold is_char_boundary. rewrite byte_at_from, H by lia.
  destruct l as [|b l]; [|done]. simpl. pose proof (blen_slice_from bytes k Hk) as Hlen.
  rewrite H in Hlen. change (blen []) with 0 in Hlen. apply Z.eqb_eq. lia.
Qed.

Lemma scan_here stop k w c l :
  slice_from bytes k = w ++ c :: l -> Forall (fun b => stop b = false) w -> stop c = true ->
  scan_to stop bytes k = k + blen w.
Proof.
  intros H Hw Hc. unfold scan_to. rewrite H, span_prefix; [done| |by rewrite Hc].
  eapply Forall_impl; [exact Hw|]. by intros b ->.
Qed.

Lemma next_here w l : slice_from bytes i = w ++ l -> slice_from bytes (i + blen w) = l.
Proof.
  intros H. pose proof (blen_nonneg w). rewrite slice_from_add by lia. by rewrite H, slice_from_app_r.
Qed.

Lemma in_bounds w l : slice_from bytes i = w ++ l -> i + blen w <= blen bytes.
Proof.
  intros H. pose proof (blen_slice_from bytes i Hi) as Hlen. rewrite H, blen_app in Hlen.
  pose proof (blen_nonneg l). lia.
Qed.

(** A word, up to the space after it. *)
Lemma round_word w rest c :
  slice_from bytes i = w ++ 32 :: rest -> head w = Some c ->
  Forall (fun b => ends_word b = false) w -> starts_whole w = true -> c <> 47 ->
  lex_round bytes i c = Lex_More (i + blen w) (word_tokens (text_of w) i).
Proof.
  intros H Hc Hw Hs Hslash. pose proof (in_bounds _ _ H).
  assert (ends_word c = false) as Hends by (destruct w; simplify_eq/=; by apply Forall_cons in Hw as [? _]).
  unfold ends_word, is_paren in Hends. apply orb_false_iff in Hends as [Hends Hq].
  apply orb_false_iff in Hends as [Hws Hp]. apply orb_false_iff in Hp as [Hl Hr].
  unfold lex_round. rewrite Hws, Hl, Hr, Hq, (proj2 (Z.eqb_neq c 47)) by done.
  rewrite (scan_here ends_word i w 32 rest) by done.
  unfold str_slice. rewrite (boundary_here i _ Hi H) by (destruct w; [done|exact Hs]).
  rewrite (boundary_here (i + blen w) (32 :: rest)); [|pose proof (blen_nonneg w); lia|by apply next_here|done].
  simpl. by rewrite (slice_here i w _ Hi H).
Qed.

Lemma round_string w rest :
  slice_from bytes i = 34 :: w ++ 34 :: rest -> Forall (fun b => b <> 34) w -> starts_whole w = true ->
  lex_round bytes i 34 = Lex_More (i + blen (34 :: w ++ [34])) [(T_Str (text_of w), i)].
Proof.
  intros H Hw Hs. pose proof (in_bounds [34] _ H) as Hb. change (blen [34]) with 1 in Hb.
  pose proof (in_bounds (34 :: w) (34 :: rest) H) as Hb2. rewrite blen_cons in Hb2. pose proof (blen_nonneg w).
  assert (slice_from bytes (i + 1) = w ++ 34 :: rest) as H1 by exact (next_here [34] _ H).
  assert (slice_from bytes (i + 1 + blen w) = 34 :: rest) as H2.
  { replace (i + 1 + blen w) with (i + blen (34 :: w)) by (rewrite blen_cons; lia).
    by apply (next_here (34 :: w)). }
  pose proof (in_bounds (34 :: w ++ [34]) rest) as Hb3. simpl in Hb3. rewrite <- app_assoc in Hb3.
  specialize (Hb3 H). rewrite blen_cons, blen_app in *. change (blen [34]) with 1 in *.
  unfold lex_round. simpl. rewrite (scan_here (fun b => b =? 34) (i + 1) w 34 rest); [|done| |done].
  2: { eapply Forall_impl; [exact Hw|]. intros b ?. by apply Z.eqb_neq. }
  rewrite (proj2 (Z.leb_gt _ _)) by lia. unfold str_slice.
  rewrite (boundary_here (i + 1) _ ltac:(lia) H1) by (destruct w; [done|exact Hs]).
  rewrite (boundary_here (i + 1 + blen w) _ ltac:(lia) H2) by done. simpl.
  rewrite (slice_here (i + 1) w _ ltac:(lia) H1). simpl. f_equal. lia.
Qed.

Lemma round_regex p rest :
  slice_from bytes i = 47 :: escape p ++ 47 :: rest -> Forall (fun b => b < 128) p -> last p <> Some 92 ->
  lex_round bytes i 47 = Lex_More (i + blen (47 :: escape p ++ [47])) [(T_Regex (text_of p), i)].
Proof.
  intros H Hp Hl. assert (slice_from bytes (i + 1) = escape p ++ 47 :: rest) as H1 by exact (next_here [47] _ H).
  unfold lex_round. simpl. rewrite H1, regex_body_escape by done. f_equal.
  rewrite blen_cons, blen_app. change (blen [47]) with 1. lia.
Qed.

Lemma word_tokens_plain w start :
  find_split w = None -> word_tok w = Some (T_Word w) -> word_tokens w start = [(T_Word w, start)].
Proof. intros Hs Ht. unfold word_tokens, push_word. by rewrite Hs, Ht. Qed.

(** A keyword or an operator: [w] is read as the word it is. *)
Lemma round_keyword t (w : string) rest :
  (exists c, head (str_bytes w) = Some c /\ c <> 47) ->
  forallb (fun b => negb (ends_word b)) (str_bytes w) = true -> starts_whole (str_bytes w) = true ->
  (exists p, word_tokens w i = [(t, p)]) -> slice_from bytes i = str_bytes w ++ 32 :: rest ->
  exists c p, byte_at bytes i = Some c /\ lex_round bytes i c = Lex_More (i + blen (str_bytes w)) [(t, p)].
Proof.
  intros (c & Hc & Hslash) Hends Hs (p & Hp) H. exists c, p. split.
  - rewrite byte_at_from, H by lia. by destruct (str_bytes w).
  - rewrite (round_word (str_bytes w) rest c H Hc); [by rewrite text_of_str_bytes, Hp| |done|done].
    apply Forall_forall. intros b Hb. apply forallb_forall with (x := b) in Hends.
    + by apply negb_true_iff.
    + by apply list_elem_of_In.
Qed.

Lemma round_piece t rest :
  writable t -> slice_from bytes i = piece t ++ 32 :: rest ->
  exists c p, byte_at bytes i = Some c /\ lex_round bytes i c = Lex_More (i + blen (piece t)) [(t, p)].
Proof.
  intros Hw H.
  assert (head (slice_from bytes i) = head (piece t ++ 32 :: rest)) as Hhead by by rewrite H.
  rewrite <- byte_at_from in Hhead by lia.
  destruct t as [| | | | |op|w|s|p]; [by exists 40, i|by exists 41, i| | | | | | |].
  - by apply (round_keyword T_And "and" rest); [eexists; split; [vm_compute; reflexivity|done]| | |eexists; reflexivity|].
  - by apply (round_keyword T_Or "or" rest); [eexists; split; [vm_compute; reflexivity|done]| | |eexists; reflexivity|].
  - by apply (round_keyword T_Not "not" rest); [eexists; split; [vm_compute; reflexivity|done]| | |eexists; reflexivity|].
  - apply (round_keyword (T_Op op) (op_text op) rest); [| | | |done].
    + by destruct op; (eexists; split; [vm_compute; reflexivity|done]).
    + by destruct op.
    + by destruct op.
    + by destruct op; eexists; reflexivity.
  - destruct Hw as (Hne & Hends & Hs & Hslash & Hsp & Ht).
    apply (round_keyword (T_Word w) w rest); [| |done| |done].
    + destruct (head (str_bytes w)) as [c|] eqn:Hc; [exists c; split; [done|congruence]|].
      by destruct w.
    + apply forallb_forall. intros b Hb%list_elem_of_In. apply negb_true_iff.
      by apply (proj1 (Forall_forall _ _) Hends).
    + eexists. by apply word_tokens_plain.
  - destruct Hw as [Hq Hs]. exists 34, i. split; [done|]. unfold piece in *.
    rewrite (round_string (str_bytes s) (32 :: rest)), text_of_str_bytes; [done| |done|done].
    rewrite H. simpl. by rewrite <- app_assoc.
  - destruct Hw as [Hp Hl]. exists 47, i. split; [done|]. unfold piece in *.
    rewrite (round_regex (str_bytes p) (32 :: rest)), text_of_str_bytes; [done| |done|done].
    rewrite H. simpl. by rewrite <- app_assoc.
Qed.

Lemma round_space rest :
  slice_from bytes i = 32 :: rest ->
  byte_at bytes i = Some 32 /\ lex_round bytes i 32 = Lex_More (i + 1) [].
Proof. intros H. rewrite byte_at_from, H by lia. done. Qed.
End Rounds.

Lemma write_cons t ts : write (t :: ts) = piece t ++ 32 :: write ts.
Proof. unfold write. cbn [mbind list_bind]. by rewrite <- app_assoc. Qed.

(** The lexer's loop from the start of written tokens to the end of the input. *)
Lemma lex_loop_write ts bytes fuel i acc :
  Forall writable ts -> 0 <= i <= blen bytes -> slice_from bytes i = write ts ->
  (length (write ts) <= fuel)%nat ->
  exists toks, lex_loop fuel bytes i acc = Parsed (Ok (acc ++ toks)) /\ toks.*1 = ts.
Proof.
  revert fuel i acc. induction ts as [|t ts IH]; intros fuel i acc Hts Hi H Hfuel.
  { exists []. rewrite app_nil_r. split; [|done].
    assert (byte_at bytes i = None) as Hend by (rewrite byte_at_from, H by lia; done).
    by destruct fuel; simpl; rewrite Hend. }
  apply Forall_cons in Hts as [Ht Hts]. rewrite write_cons in H, Hfuel.
  destruct (round_piece bytes i Hi t (write ts) Ht H) as (c & p & Hc & Hround).
  pose proof (next_here bytes i Hi _ _ H) as H1. pose proof (in_bounds bytes i Hi _ _ H) as Hb1.
  pose proof (blen_nonneg (piece t)) as Hp.
  destruct (round_space bytes (i + blen (piece t)) ltac:(lia) (write ts) H1) as [Hsp Hround2].
  pose proof (next_here bytes (i + blen (piece t)) ltac:(lia) [32] (write ts) H1) as H2.
  pose proof (in_bounds bytes (i + blen (piece t)) ltac:(lia) [32] (write ts) H1) as Hb2.
  change (blen [32]) with 1 in H2, Hb2.
  assert (piece t <> []) as Hne.
  { intros Hnil. rewrite Hnil in Hround. pose proof (lex_round_forward _ _ _ Hc) as Hf.
    rewrite Hround in Hf. change (blen []) with 0 in Hf. lia. }
  rewrite length_app in Hfuel. simpl in Hfuel.
  destruct fuel as [|[|fuel]]; [lia|destruct (piece t); [done|simpl in Hfuel; lia]|].
  destruct (IH fuel (i + blen (piece t) + 1) (acc ++ [(t, p)]) Hts ltac:(lia) H2) as (toks & Hrun & Htoks).
  { destruct (piece t); [done|simpl in Hfuel; lia]. }
  exists ((t, p) :: toks). split; [|by rewrite fmap_cons, Htoks].
  simpl. rewrite Hc, Hround. simpl. rewrite Hsp, Hround2, app_nil_r, Hrun. by rewrite <- app_assoc.
Qed.

Lemma escape_bytes_ok p : bytes_ok p -> bytes_ok (escape p).
Proof.
  induction 1 as [|b p Hb Hp IH]; [constructor|]. unfold escape in *. cbn [mbind list_bind].
  apply Forall_app. split; [|exact IH]. case_match; repeat constructor; unfold is_byte in *; lia.
Qed.

Lemma piece_bytes_ok t : bytes_ok (piece t).
Proof.
  assert (forall s, bytes_ok (34 :: str_bytes s ++ [34])) as Hstr.
  { intros s. constructor; [unfold is_byte; lia|]. apply Forall_app. split; [apply str_bytes_ok|].
    repeat constructor; unfold is_byte; lia. }
  destruct t; try apply str_bytes_ok; try apply Hstr; try (repeat constructor; unfold is_byte; lia).
  unfold piece. constructor; [unfold is_byte; lia|]. apply Forall_app.
  split; [apply escape_bytes_ok, str_bytes_ok|]. repeat constructor; unfold is_byte; lia.
Qed.

Lemma write_bytes_ok ts : bytes_ok (write ts).
Proof.
  induction ts as [|t ts IH]; [constructor|]. rewrite write_cons. apply Forall_app.
  split; [apply piece_bytes_ok|]. constructor; [unfold is_byte; lia|done].
Qed.

Lemma lex_write ts :
  Forall writable ts -> exists toks, lex (text_of (write ts)) = Parsed (Ok toks) /\ toks.*1 = ts.
Proof.
  intros Hts. unfold lex. rewrite str_bytes_text_of by apply write_bytes_ok.
  pose proof (blen_nonneg (write ts)).
  destruct (lex_loop_write ts (write ts) (length (write ts)) 0 []) as (toks & Hrun & Htoks);
    [done|lia|done|lia|]. by exists toks.
Qed.

(** ** What parsing does *)

Section Parsing.
Context `{Env : ViewEnv}.

Lemma length_input input : Z.of_nat (String.length input) = blen (str_bytes input).
Proof. unfold blen. f_equal. induction input as [|c s IH]; [done|]. simpl. by f_equal. Qed.

(** Text with no false white space parses or is in error. *)
Lemma parse_returns input :
  well_formed (str_bytes input) -> no_false_space (str_bytes input) -> exists r, StreamQuery_parse input = Parsed r.
Proof.
  intros Hwf Hspace. unfold StreamQuery_parse. pose proof (lex_inside input) as Hin.
  destruct (lex input) as [[toks|er]| |] eqn:Hlex; simpl in Hin; [|by eexists| |done].
  - destruct (parse_tokens_ends toks (Z.of_nat (String.length input))) as [Hfuel Hpanic].
    destruct (parse_tokens toks _); [by eexists|done|done].
  - exfalso. revert Hlex. pose proof (blen_nonneg (str_bytes input)) as Hlen.
    apply lex_loop_no_panic; [done|done|lia|]. unfold is_char_boundary.
    destruct (byte_at (str_bytes input) 0) as [b|] eqn:Hb.
    + apply negb_true_iff, not_true_is_false. intros Hc. destruct (well_formed_at _ 0 b Hwf Hb Hc) as (a & Ha & _). done.
    + apply byte_at_end in Hb; [|lia]. apply Z.eqb_eq. lia.
Qed.

(** C35: Parsing a query always ends: with an expression, with an error that points
    into the input, or - only if some character of a well-formed input contains
    a byte [0x85] or [0xA0] - with a panic of the lexer. *)
Theorem query_parse_total input :
  StreamQuery_parse input <> OutOfFuel /\
  (forall e, StreamQuery_parse input = Parsed (Error e) ->
     0 <= position e <= Z.of_nat (String.length input)) /\
  (well_formed (str_bytes input) -> no_false_space (str_bytes input) ->
     StreamQuery_parse input <> Panicked).
Proof.
  split; [|split].
  - unfold StreamQuery_parse. pose proof (lex_inside input) as Hin.
    destruct (lex input) as [[toks|er]| |]; simpl in Hin; [|done..]. apply parse_tokens_ends.
  - rewrite length_input. unfold StreamQuery_parse. pose proof (lex_inside input) as Hin.
    destruct (lex input) as [[toks|er]| |]; simpl in Hin; [|intros e He; by simplify_eq|done..].
    rewrite length_input. intros e. pose proof (blen_nonneg (str_bytes input)). by apply parse_tokens_inside.
  - intros Hwf Hspace. destruct (parse_returns input Hwf Hspace) as [r ->]. done.
Qed.

(** C10: The parser is a decision procedure for the documented grammar: parsing
    succeeds with [e] exactly when the input lexes to a token sequence that
    derives [e]. *)
Theorem query_parse_grammar input e :
  StreamQuery_parse input = Parsed (Ok e) <->
  exists toks, lex input = Parsed (Ok toks) /\ G_or (toks.*1) e.
Proof.
  unfold StreamQuery_parse. split.
  - destruct (lex input) as [[toks|er]| |]; intros H; try done.
    exists toks. split; [done|]. by apply parse_tokens_Ok in H.
  - intros (toks & -> & H). by apply parse_tokens_Ok.
Qed.

(** Writing a token sequence down, each token followed by a space, and parsing
    the text gives exactly the expression the sequence derives: quoting,
    escaping, keywords and operators are read back as written. *)
Theorem query_written_back ts e :
  Forall writable ts -> (StreamQuery_parse (text_of (write ts)) = Parsed (Ok e) <-> G_or ts e).
Proof.
  intros Hts. destruct (lex_write ts Hts) as (toks & Hlex & <-).
  unfold StreamQuery_parse. rewrite Hlex. apply parse_tokens_Ok.
Qed.
End Parsing.

(** ** Examples and witnesses

    An environment with the ASCII case tables and substring search for regexes. *)

Definition plain_env : ViewEnv := {|
  resolver := None;
  to_uppercase := fun s => s;
  to_lowercase := to_ascii_lowercase;
  Regex := string;
  regex_build := fun p => if String.eqb p "((" then inr "unclosed group"%string else inl p;
  is_match := fun re s => str_contains re s;
|}.

(** The bytes of a two-byte character, [U+00E0]: the second is [0xA0]. *)
Definition a_grave : string := text_of [0xC3; 0xA0].

(** A query that is one letter panics the lexer. *)
Example lex_panics_on_a_grave : lex a_grave = Panicked.
Proof. vm_compute. reflexivity. Qed.

(** A non-ASCII regex pattern is not the text between the slashes: [é] is read
    as the two characters of its UTF-8 bytes. *)
Example regex_literal_mangled :
  lex (text_of [47; 0xC3; 0xA9; 47]) = Parsed (Ok [(T_Regex (text_of [0xC3; 0x83; 0xC2; 0xA9]), 0)]).
Proof. vm_compute. reflexivity. Qed.

Lemma query_parse_total_witness :
  let _ := plain_env in
  let input := "bytes > lots"%string in
  StreamQuery_parse input <> Panicked /\
  exists e, StreamQuery_parse input = Parsed (Error e) /\ position e = 8 /\
    0 <= position e <= Z.of_nat (String.length input).
Proof.
  intros env input. pose proof (query_parse_total (Env := env) input) as (_ & Herr & Hpanic). split.
  - apply Hpanic; [vm_compute; reflexivity|]. repeat constructor; vm_compute; discriminate.
  - eexists. split; [vm_compute; reflexivity|]. split; [reflexivity|]. apply Herr. vm_compute. reflexivity.
Defined.

Definition written_example : list Tok :=
  [T_Word "bytes"; T_Op Op_Ge; T_Str "10k"; T_And; T_LParen; T_Str "a b"; T_Or; T_Not; T_Regex "x/y"; T_RParen]%string.

Lemma query_written_back_witness :
  let _ := plain_env in
  exists e, StreamQuery_parse (text_of (write written_example)) = Parsed (Ok e) /\
    e = And (Cmp F_Bytes Op_Ge (mkLiteral "10k" (parse_number "10k") None))
            (Or (FreeText "a b") (Not (FreeRegex ("x/y"%string : @Regex plain_env)))).
Proof.
  intros env. eexists. split; [|reflexivity]. apply (query_written_back (Env := env)).
  - repeat constructor; vm_compute; discriminate.
  - change written_example with (((fun t => (t, 0)) <$> written_example).*1).
    apply (parse_tokens_Ok (Env := env) ((fun t => (t, 0)) <$> written_example) 0).
    vm_compute. reflexivity.
Defined.
