(* ===== verification/Snapshots.v ===== *)
(** * Snapshots and query results

    What a published snapshot guarantees its readers: ids and display ids are
    unique and every parent is there and older than its children ([snapshot_ok],
    discharged by the aggregator for every reachable state).  On such snapshots
    the ancestry walks end, and [matching_with_ancestors], which stops climbing
    at the first parent already kept, still returns every match with all its
    ancestors. *)

From S2P Require Import Prelude.
From S2P Require Import Values.
From S2P Require Import Types.
From S2P Require Import Contract.
From S2P Require Import Samples.
From S2P Require Import Engine.
From S2P Require Import FlowKeys.
From S2P Require Import Arena.
From S2P Require Import Store.
From S2P Require Import StoreInv.
From S2P Require Import StoreKeys.
From S2P Require Import StoreHeaps.
From S2P Require Import StoreIngest.
From S2P Require Import Queries.
From S2P Require Import StoreProps.
From S2P Require Import Text.
From S2P Require Import Fmt.
From S2P Require Import StreamView.
From S2P Require Import Query.
From S2P Require Import QueryLex.

Record snapshot_ok (snap : AggregatorSnapshot) : Prop := mkSnapshotOk {
  so_ids : NoDup (st_id <$> sn_streams snap);
  so_seqs : NoDup (created_seq <$> sn_streams snap);
  so_parents s p : s ∈ sn_streams snap -> parent s = Some p ->
    exists ps, ps ∈ sn_streams snap /\ st_id ps = p /\ created_seq ps < created_seq s;
  so_size : blen (sn_streams snap) <= 2 ^ 32;
}.

Lemma length_omap_le {A B} (f : A -> option B) l : (length (omap f l) <= length l)%nat.
Proof. induction l as [|x l IH]; [done|]. cbn [omap list_omap]. case_match; simpl; lia. Qed.

Section Snapshots.
Context `{Hasher}.

Lemma store_readable a : store_ok a -> readable a.
Proof. intros Ha. split; [apply Ha|]. apply (ao_size _ (sk_arena _ Ha)). Qed.

Lemma readable_snapshot_ok a : readable a -> snapshot_ok (snapshot a).
Proof.
  intros [[[F1 F2 F3] [L1 L2 L3] _ _] Hsize].
  assert (NoDup (st_id <$> streams a)) as Hids by (apply NoDup_live; exact F1).
  split; simpl.
  - by rewrite sort_by_Permutation.
  - rewrite sort_by_Permutation. apply NoDup_fmap_2_strong; [|by eapply NoDup_fmap_1].
    intros x y [i Hx]%elem_of_streams [j Hy]%elem_of_streams Heq.
    assert (i = j) as -> by (by eapply F3). congruence.
  - intros s p [id Hs]%elem_of_sort_by%elem_of_streams Hp.
    destruct (L1 _ _ _ Hs Hp) as (ps & Hps & _ & Hlt). exists ps. split; [|split; [by eapply F1|done]].
    apply elem_of_sort_by, elem_of_streams. by exists p.
  - unfold blen. rewrite length_sort_by.
    unfold streams, live. pose proof (length_omap_le slot_stream (slots (arena a))). unfold blen in Hsize. lia.
Qed.

Lemma store_snapshot_ok a : store_ok a -> snapshot_ok (snapshot a).
Proof. intros Ha. by apply readable_snapshot_ok, store_readable. Qed.
End Snapshots.

(** ** The id map *)

(** A map collected from a list with distinct keys. *)
Lemma fold_insert_lookup {K E V} `{Countable K} (kf : E -> K) (vf : E -> V) (l : list E) k v :
  NoDup (kf <$> l) ->
  foldl (fun (m : gmap K V) e => <[kf e := vf e]> m) ∅ l !! k = Some v <->
  exists e, e ∈ l /\ kf e = k /\ vf e = v.
Proof.
  intros Hnd.
  assert (forall m : gmap K V, (forall e, e ∈ l -> m !! kf e = None) ->
    foldl (fun m e => <[kf e := vf e]> m) m l !! k = Some v <->
    (exists e, e ∈ l /\ kf e = k /\ vf e = v) \/ m !! k = Some v) as Hgen.
  { induction l as [|e l IH]; intros m Hm; simpl.
    - split; [by right|]. by intros [(? & ?%elem_of_nil & _)|?].
    - rewrite fmap_cons in Hnd. apply NoDup_cons in Hnd as [Hni Hnd]. rewrite IH; [|done|].
      + setoid_rewrite elem_of_cons. rewrite lookup_insert_Some. specialize (Hm e ltac:(by left)).
        split; [intros [(x & ? & ? & ?)|[[??]|[??]]]; eauto 6|].
        intros [(x & [->|?] & ? & ?)|Hk]; eauto 6. right. right. split; [congruence|done].
      + intros x Hx. rewrite lookup_insert_ne; [apply Hm; by right|].
        intros Heq. apply Hni. rewrite Heq. by apply list_elem_of_fmap_2. }
  rewrite Hgen by (intros; apply lookup_empty). rewrite lookup_empty. naive_solver.
Qed.

Lemma id_map_of_lookup l i s : NoDup (st_id <$> l) -> id_map_of l !! i = Some s <-> s ∈ l /\ st_id s = i.
Proof.
  intros Hnd. unfold id_map_of. rewrite (fold_insert_lookup st_id (fun s => s)) by done.
  split; [by intros (e & ? & ? & <-)|by intros [??]; exists s].
Qed.

Section Matching.
Context `{Env : ViewEnv} (snap : AggregatorSnapshot) (Hsnap : snapshot_ok snap) (query : Expr).

Abbreviation ids := (by_id snap) (only parsing).

Lemma by_id_lookup i s : ids !! i = Some s <-> s ∈ sn_streams snap /\ st_id s = i.
Proof. apply id_map_of_lookup, Hsnap. Qed.

Lemma by_id_aged : aged ids.
Proof.
  split.
  - by intros i s [_ ?]%by_id_lookup.
  - intros i s pid p [Hs _]%by_id_lookup Hp [Hps Hpid]%by_id_lookup.
    destruct (so_parents _ Hsnap s pid Hs Hp) as (q & Hq & Hqid & Hlt).
    assert (p = q) as ->; [|done].
    assert (ids !! pid = Some p) as H1 by by apply by_id_lookup.
    assert (ids !! pid = Some q) as H2 by by apply by_id_lookup. congruence.
Qed.

Lemma seq_inj s t : s ∈ sn_streams snap -> t ∈ sn_streams snap -> created_seq s = created_seq t -> s = t.
Proof.
  intros Hs Ht Heq. apply list_elem_of_lookup in Hs as [i Hi], Ht as [j Hj].
  assert (i = j) as ->; [|congruence].
  eapply (NoDup_lookup (created_seq <$> sn_streams snap)); [apply Hsnap| |];
    rewrite list_lookup_fmap_Some; [by exists s|by exists t].
Qed.

Lemma id_inj s t : s ∈ sn_streams snap -> t ∈ sn_streams snap -> st_id s = st_id t -> s = t.
Proof.
  intros Hs Ht Heq. assert (ids !! st_id t = Some s) as H1 by by apply by_id_lookup.
  assert (ids !! st_id t = Some t) as H2 by by apply by_id_lookup. congruence.
Qed.

(** The walk of a stream of the snapshot ends at a root. *)
Lemma ancestors_of s : s ∈ sn_streams snap -> Lineage ids (parent s) (ancestors s ids).
Proof.
  intros Hs. apply ancestors_lineage with (st_id s); [apply by_id_aged|]. by apply by_id_lookup.
Qed.

Lemma lineage_in_snapshot p l s : Lineage ids p l -> s ∈ l -> s ∈ sn_streams snap.
Proof.
  induction 1 as [|pid t l Ht Hl IH]; [by intros ?%elem_of_nil|].
  intros [->|?]%elem_of_cons; [by apply by_id_lookup in Ht as [? _]|by apply IH].
Qed.

(** What climbing from [cursor] adds. *)
Definition seqs_of (l : list Stream) : gset Z := list_to_set (created_seq <$> l).

(** Everything kept has its ancestors kept. *)
Definition closed_up (keep : gset Z) : Prop :=
  forall s l, s ∈ sn_streams snap -> created_seq s ∈ keep -> Lineage ids (parent s) l -> seqs_of l ⊆ keep.

Lemma elem_of_seqs n l : n ∈ seqs_of l <-> exists s, s ∈ l /\ created_seq s = n.
Proof.
  unfold seqs_of. rewrite elem_of_list_to_set, list_elem_of_fmap. naive_solver.
Qed.

(** Ancestors are older. *)
Lemma lineage_older p l n : Lineage ids p l ->
  (forall pid s, p = Some pid -> ids !! pid = Some s -> created_seq s < n) ->
  forall x, x ∈ l -> created_seq x < n.
Proof.
  intros Hl. revert n. induction Hl as [|pid t l Ht Hl IH]; intros n Hn x Hx; [by apply elem_of_nil in Hx|].
  specialize (Hn _ _ eq_refl Ht). apply elem_of_cons in Hx as [->|Hx]; [done|].
  apply (IH (created_seq t)) in Hx; [lia|]. intros qid q Hq Hqs. by eapply (aged_parent _ by_id_aged).
Qed.

Lemma parent_lineage_older s l x : s ∈ sn_streams snap -> Lineage ids (parent s) l -> x ∈ l ->
  created_seq x < created_seq s.
Proof.
  intros Hs Hl. apply (lineage_older _ _ _ Hl). intros pid q Hp Hq.
  eapply (aged_parent _ by_id_aged (st_id s)); [|exact Hp|exact Hq]. by apply by_id_lookup.
Qed.

Lemma lineage_suffix p l x l' : Lineage ids p l -> x ∈ l -> Lineage ids (parent x) l' -> seqs_of l' ⊆ seqs_of l.
Proof.
  intros Hl Hx Hl'. induction Hl as [|pid t l Ht Hl IH]; [by apply elem_of_nil in Hx|].
  intros n. rewrite !elem_of_seqs. intros (y & Hy & <-). exists y. split; [|done]. apply elem_of_cons. right.
  apply elem_of_cons in Hx as [->|Hx].
  - by rewrite (Lineage_det _ _ _ _ Hl Hl').
  - specialize (IH Hx (created_seq y)). rewrite !elem_of_seqs in IH. destruct IH as (z & Hz & Heq); [eauto|].
    assert (z = y) as <-; [|done]. apply seq_inj; [exact (lineage_in_snapshot _ _ _ Hl Hz)| |done].
    exact (lineage_in_snapshot _ _ _ Hl' Hy).
Qed.

(** Climbing over a set that was closed before the younger [D] were added. *)
Lemma keep_ancestors_spec fuel p l D K :
  Lineage ids p l -> (length l <= fuel)%nat -> closed_up K ->
  (forall d x, d ∈ D -> x ∈ l -> created_seq x < d) ->
  keep_ancestors fuel ids p (D ∪ K) = D ∪ K ∪ seqs_of l.
Proof.
  intros Hl. revert fuel D. induction Hl as [p Hp|pid t l Ht Hl IH]; intros fuel D Hfuel HK HD.
  - replace (seqs_of []) with (∅ : gset Z) by done. rewrite union_empty_r_L.
    destruct fuel; simpl; [by repeat case_match|by rewrite Hp].
  - destruct fuel as [|fuel]; [simpl in Hfuel; lia|]. simpl. rewrite Ht.
    assert (t ∈ sn_streams snap) as Hin by (by apply by_id_lookup in Ht as [? _]).
    case_bool_decide as Hkept.
    + apply elem_of_union in Hkept as [Hd|Hk].
      { specialize (HD _ t Hd ltac:(by left)). lia. }
      assert (seqs_of (t :: l) ⊆ K); [|set_solver].
      intros n (x & [->|Hx]%elem_of_cons & <-)%elem_of_seqs; [done|].
      apply (HK t l Hin Hk Hl). apply elem_of_seqs. eauto.
    + replace ({[created_seq t]} ∪ (D ∪ K)) with (({[created_seq t]} ∪ D) ∪ K) by set_solver.
      rewrite IH; [| |done|].
      * unfold seqs_of. simpl. set_solver.
      * simpl in Hfuel. lia.
      * intros d x [->%elem_of_singleton|Hd]%elem_of_union Hx; [by apply parent_lineage_older with l|].
        apply HD; [done|by right].
Qed.

Lemma parent_chain_length fuel m p : (length (parent_chain fuel m p) <= fuel)%nat.
Proof.
  revert p. induction fuel as [|fuel IH]; intros p; simpl; [by repeat case_match|].
  case_match; simpl; [|lia]. match goal with s : Stream |- _ => specialize (IH (parent s)) end. lia.
Qed.

(** One match and its lineage. *)
Definition with_ancestors (s : Stream) : gset Z := {[created_seq s]} ∪ seqs_of (ancestors s ids).

Lemma keep_match_spec K s : s ∈ sn_streams snap -> closed_up K ->
  keep_match ids query K s = (if matches query s ids then with_ancestors s ∪ K else K) /\
  closed_up (keep_match ids query K s).
Proof.
  intros Hs HK. unfold keep_match. destruct (matches query s ids); [|done].
  pose proof (ancestors_of s Hs) as Hl.
  assert (keep_ancestors (size ids) ids (parent s) ({[created_seq s]} ∪ K) = with_ancestors s ∪ K) as ->.
  { rewrite (keep_ancestors_spec _ _ (ancestors s ids)); [unfold with_ancestors; set_solver|done| |done|].
    - apply parent_chain_length.
    - intros d x ->%elem_of_singleton Hx. by apply parent_lineage_older with (ancestors s ids). }
  split; [done|]. intros x l Hx Hkept Hlx. unfold with_ancestors in *.
  apply elem_of_union in Hkept as [[Heq%elem_of_singleton|Hanc]%elem_of_union|Hk].
  - apply seq_inj in Heq as ->; [|done|done]. rewrite (Lineage_det _ _ _ _ Hlx Hl). set_solver.
  - apply elem_of_seqs in Hanc as (y & Hy & Heq).
    apply seq_inj in Heq as ->; [|exact (lineage_in_snapshot _ _ _ Hl Hy)|done].
    pose proof (lineage_suffix _ _ _ _ Hl Hy Hlx). set_solver.
  - specialize (HK x l Hx Hk Hlx). set_solver.
Qed.

(** The visible set is exactly the matches and their ancestors. *)
Lemma matching_with_ancestors_spec n :
  n ∈ matching_with_ancestors (sn_streams snap) ids query <->
  exists s, s ∈ sn_streams snap /\ matches query s ids = true /\
    (n = created_seq s \/ exists x, x ∈ ancestors s ids /\ n = created_seq x).
Proof.
  unfold matching_with_ancestors.
  assert (forall l K, (forall s, s ∈ l -> s ∈ sn_streams snap) -> closed_up K ->
    n ∈ foldl (keep_match ids query) K l <->
    n ∈ K \/ exists s, s ∈ l /\ matches query s ids = true /\ n ∈ with_ancestors s) as Hfold.
  { induction l as [|s l IH]; intros K Hl HK; simpl.
    - split; [by left|]. by intros [?|(s & ?%elem_of_nil & _)].
    - destruct (keep_match_spec K s (Hl s ltac:(by left)) HK) as [Heq Hcl].
      rewrite IH; [|by intros; apply Hl; right|done]. rewrite Heq. setoid_rewrite elem_of_cons.
      destruct (matches query s ids) eqn:Hm; [rewrite elem_of_union|]; split.
      + intros [[?|?]|(x & ? & ? & ?)]; [|by left|]; right; [exists s|exists x]; auto.
      + intros [?|(x & [->|?] & ? & ?)]; auto. right. exists x. auto.
      + intros [?|(x & ? & ? & ?)]; [by left|]. right. exists x. auto.
      + intros [?|(x & [->|?] & ? & ?)]; [by left|congruence|]. right. exists x. auto. }
  rewrite Hfold; [|done|by intros s l _ ?%elem_of_empty].
  unfold with_ancestors. split.
  - intros [?%elem_of_empty|(s & Hs & Hm & Hn)]; [done|]. exists s. split; [done|]. split; [done|].
    apply elem_of_union in Hn as [->%elem_of_singleton|(x & Hx & <-)%elem_of_seqs]; [by left|]. right. by exists x.
  - intros (s & Hs & Hm & Hn). right. exists s. split; [done|]. split; [done|]. apply elem_of_union.
    destruct Hn as [->|(x & Hx & ->)]; [left; by apply elem_of_singleton|].
    right. apply elem_of_seqs. by exists x.
Qed.
End Matching.

Section QueryRun.
Context `{Hasher} `{Env : ViewEnv}.

(** Over the snapshot of any reachable aggregator, the set a query keeps visible
    is exactly the matching streams with all their ancestors, although climbing
    stops at the first stream already kept; and every ancestry walk the query
    language makes ends. *)
Theorem query_matching_exact e c pkts query :
  engine_wf e -> config_ok c -> trace_ok pkts ->
  let snap := snapshot (run e c pkts) in
  (forall n, n ∈ matching_with_ancestors (sn_streams snap) (by_id snap) query <->
     exists s, s ∈ sn_streams snap /\ matches query s (by_id snap) = true /\
       (n = created_seq s \/ exists x, x ∈ ancestors s (by_id snap) /\ n = created_seq x)) /\
  (forall s, s ∈ sn_streams snap -> Lineage (by_id snap) (parent s) (ancestors s (by_id snap))).
Proof.
  intros He Hc Ht snap. destruct (reached_run False e c pkts He Hc Ht) as (Hs & _); [done|].
  apply store_snapshot_ok in Hs. split; [intros n|]; [by apply matching_with_ancestors_spec|].
  intros s. by apply ancestors_of.
Qed.
End QueryRun.

(** A leaf conversation is shown together with its parent. *)
Lemma query_matching_exact_witness :
  let _ := plain_env in
  let snap := snapshot (run store_engine (store_config EvictNone) store_trace) in
  let query := FlagTerm Flag_Leaf in
  exists s n, s ∈ sn_streams snap /\ matches query s (by_id snap) = true /\
    n ∈ matching_with_ancestors (sn_streams snap) (by_id snap) query /\ n <> created_seq s.
Proof.
  intros env snap query.
  assert (config_ok (store_config EvictNone)) as Hc by done.
  destruct (query_matching_exact store_engine (store_config EvictNone) store_trace query
    store_engine_wf Hc store_trace_ok) as [Hkeep _].
  destruct (last (sn_streams snap)) as [s|] eqn:Hlast; [|by vm_compute in Hlast].
  assert (s ∈ sn_streams snap) as Hs by (apply last_Some in Hlast as [l ->]; apply elem_of_app; right; by left).
  destruct (ancestors s (by_id snap)) as [|x l] eqn:Hanc.
  - exfalso. revert Hanc. vm_compute in Hlast. injection Hlast as <-. vm_compute. discriminate.
  - exists s, (created_seq x). split; [done|].
    assert (matches query s (by_id snap) = true) as Hm
      by (vm_compute in Hlast; injection Hlast as <-; vm_compute; reflexivity).
    split; [done|]. split.
    + apply Hkeep. exists s. split; [done|]. split; [done|]. right. exists x.
      split; [|done]. change (x ∈ ancestors s (by_id snap)). rewrite Hanc. by left.
    + vm_compute in Hlast. injection Hlast as <-. vm_compute in Hanc. injection Hanc as <- _. vm_compute. discriminate.
Defined.
