(* ===== verification/ViewIndex.v ===== *)
(** * The per-snapshot view index

    Models [crates/pktflow-view/src/index.rs]: lazily built facets of one
    immutable snapshot (id and display-id positions, four sorted orders, the
    most recent query's result sets), and the two requests answered from them,
    [window] and [timeline].  The [OnceLock] cells and the query slot are state
    of the index; a request is a function from the index to its answer and the
    index it leaves, [None] being a panic.  Requests are taken one at a time:
    the locks of the code make each cell's update atomic. *)

From S2P Require Import Prelude.
From S2P Require Import Values.
From S2P Require Import Types.
From S2P Require Import Arena.
From S2P Require Import Store.
From S2P Require Import Queries.
From S2P Require Import Text.
From S2P Require Import Fmt.
From S2P Require Import StreamView.
From S2P Require Import Query.

Inductive SortKey := SK_Bytes | SK_Packets | SK_FirstSeen | SK_Duration.

#[export] Instance SortKey_eq_dec : EqDecision SortKey.
Proof. solve_decision. Defined.

Definition SortKey_parse (name : string) : option SortKey :=
  if one_of ["bytes"]%string name then Some SK_Bytes
  else if one_of ["packets"]%string name then Some SK_Packets
  else if one_of ["first"; "first-seen"; "first_seen"]%string name then Some SK_FirstSeen
  else if one_of ["duration"]%string name then Some SK_Duration
  else None.

Definition sort_slot (k : SortKey) : nat :=
  match k with SK_Bytes => 0 | SK_Packets => 1 | SK_FirstSeen => 2 | SK_Duration => 3 end.

Inductive Scope := Scope_Roots | Scope_ChildrenOf (seq : Z) | Scope_Flat.

Record WindowSpec := mkWindowSpec {
  w_scope : Scope;
  w_query : option string;
  w_sort : SortKey;
  w_descending : bool;
  w_offset : Z;
  w_limit : Z;
}.

Record WindowResult := mkWindowResult {
  w_total : Z;
  w_match_total : option Z;
  w_rows : list Stream;
}.

Record TimelineSpec := mkTimelineSpec { tl_bins : Z; tl_lanes : Z; tl_query : option string }.

Record TimelineLane := mkLane { lane_seq : option Z; lane_active : list Z }.

Record TimelineBins := mkBins {
  tb_start : SystemTime;
  tb_end : SystemTime;
  tb_lanes : list TimelineLane;
}.

(** Matches, and matches with their ancestors. *)
Definition QuerySets : Type := gset Z * gset Z.

Record QueryCache := mkCache { qc_raw : string; qc_sets : option QuerySets }.

Record SnapshotIndex := mkIndex {
  ix_snap : AggregatorSnapshot;
  ix_by_id : option (gmap StreamId Z);
  ix_by_seq : option (gmap Z Z);
  ix_orders : list (option (list Z));
  ix_query : option QueryCache;
}.

Definition SnapshotIndex_new (snap : AggregatorSnapshot) : SnapshotIndex :=
  mkIndex snap None None [None; None; None; None] None.

(** Requests on the index; [None] is a panic. *)
Definition request (A : Type) : Type := SnapshotIndex -> option (A * SnapshotIndex).

Definition reply {A} (a : A) : request A := fun ix => Some (a, ix).
Definition and_request {A B} (m : request A) (k : A -> request B) : request B :=
  fun ix => match m ix with Some (a, ix') => k a ix' | None => None end.

Notation "'let!' x ':=' m 'in' k" := (and_request m (fun x => k))
  (at level 10, x pattern, k at level 200).

Definition snap_streams : request (list Stream) := fun ix => Some (sn_streams (ix_snap ix), ix).

(** [streams[pos]] and [streams.get(pos)]. *)
Definition stream_at (l : list Stream) (pos : Z) : option Stream := l !! Z.to_nat pos.

(** [iter().enumerate().map(|(i, s)| (f(s), i as u32)).collect()]. *)
Definition positions {K} `{Countable K} (f : Stream -> K) (l : list Stream) : gmap K Z :=
  foldl (fun m e => <[f e.2 := e.1 mod 2 ^ 32]> m) ∅ (imap (fun i s => (Z.of_nat i, s)) l).

(** [get_or_init] of the two position cells. *)
Definition positions_by_id : request (gmap StreamId Z) := fun ix =>
  match ix_by_id ix with
  | Some m => Some (m, ix)
  | None =>
      let m := positions st_id (sn_streams (ix_snap ix)) in
      Some (m, mkIndex (ix_snap ix) (Some m) (ix_by_seq ix) (ix_orders ix) (ix_query ix))
  end.

Definition positions_by_seq : request (gmap Z Z) := fun ix =>
  match ix_by_seq ix with
  | Some m => Some (m, ix)
  | None =>
      let m := positions created_seq (sn_streams (ix_snap ix)) in
      Some (m, mkIndex (ix_snap ix) (ix_by_id ix) (Some m) (ix_orders ix) (ix_query ix))
  end.

(** [by_id] and [by_seq]. *)
Definition index_by_id (id : StreamId) : request (option Stream) :=
  let! m := positions_by_id in
  let! l := snap_streams in
  reply (pos ← m !! id; stream_at l pos).

Definition index_by_seq (seq : Z) : request (option Stream) :=
  let! m := positions_by_seq in
  let! l := snap_streams in
  reply (pos ← m !! seq; stream_at l pos).

(** [id_map]: every entry indexes [streams[pos]], which panics out of range. *)
Definition id_map : request (gmap StreamId Stream) := fun ix =>
  match positions_by_id ix with
  | None => None
  | Some (m, ix') =>
      let l := sn_streams (ix_snap ix') in
      if bool_decide (map_Forall (fun _ pos => is_Some (stream_at l pos)) m)
      then Some (omap (stream_at l) m, ix') else None
  end.

(** The [u128] a stream sorts by. *)
Definition order_value (k : SortKey) (s : Stream) : Z :=
  match k with
  | SK_Bytes => total_bytes s
  | SK_Packets => total_packets s
  | SK_FirstSeen => 2 ^ 128 - 1 - Z.max 0 (first_seen s)
  | SK_Duration => sat_sub (last_seen s) (first_seen s)
  end.

(** [sort_by_key(|pos| (Reverse(value(pos)), created_seq))]. *)
Definition order_key (k : SortKey) (s : Stream) : Z * Z := (order_value k s, created_seq s).
Definition order_leb (k : SortKey) : Z * Stream -> Z * Stream -> bool :=
  key_leb (fun e => order_key k e.2) (lex_pair (reverse_leb Z.leb) Z.leb).

Definition sorted_positions (k : SortKey) (l : list Stream) : list Z :=
  fst <$> sort_by (order_leb k) (imap (fun i s => (Z.of_nat i, s)) l).

Definition order (k : SortKey) : request (list Z) := fun ix =>
  match default None (ix_orders ix !! sort_slot k) with
  | Some o => Some (o, ix)
  | None =>
      let o := sorted_positions k (sn_streams (ix_snap ix)) in
      Some (o, mkIndex (ix_snap ix) (ix_by_id ix) (ix_by_seq ix)
                 (<[sort_slot k := Some o]> (ix_orders ix)) (ix_query ix))
  end.

(** ** Queries *)

(** [!q.trim().is_empty()]: some character is not Unicode white space. *)
Definition ascii_space (b : Z) : bool := in_range 9 13 b || (b =? 32).

Fixpoint all_whitespace (bytes : list Z) : bool :=
  match bytes with
  | [] => true
  | b :: rest =>
      if ascii_space b then all_whitespace rest
      else match rest with
           | c :: rest2 =>
               if (b =? 0xC2) && ((c =? 0x85) || (c =? 0xA0)) then all_whitespace rest2
               else match rest2 with
                    | d :: rest3 =>
                        if ((b =? 0xE1) && (c =? 0x9A) && (d =? 0x80))
                           || ((b =? 0xE2) && (c =? 0x80)
                               && (in_range 0x80 0x8A d || (d =? 0xA8) || (d =? 0xA9) || (d =? 0xAF)))
                           || ((b =? 0xE2) && (c =? 0x81) && (d =? 0x9F))
                           || ((b =? 0xE3) && (c =? 0x80) && (d =? 0x80))
                        then all_whitespace rest3 else false
                    | [] => false
                    end
           | [] => false
           end
  end.

Definition blank (q : string) : bool := all_whitespace (str_bytes q).

Section Index.
Context `{Env : ViewEnv}.

(** What one evaluation of a query over a snapshot computes. *)
Definition evaluate_sets (l : list Stream) (ids : gmap StreamId Stream) (query : Expr) : QuerySets :=
  (list_to_set (created_seq <$> filter (fun s => matches query s ids = true) l),
   matching_with_ancestors l ids query).

Definition store_query (raw : string) (sets : option QuerySets) : request (option QuerySets) := fun ix =>
  Some (sets, mkIndex (ix_snap ix) (ix_by_id ix) (ix_by_seq ix) (ix_orders ix) (Some (mkCache raw sets))).

Definition query_sets (raw : string) : request (option QuerySets) := fun ix =>
  let fresh :=
    match StreamQuery_parse raw with
    | Parsed (Ok query) =>
        (let! ids := id_map in
         let! l := snap_streams in
         store_query raw (Some (evaluate_sets l ids query))) ix
    | Parsed (Error _) => store_query raw None ix
    | Panicked | OutOfFuel => None
    end in
  match ix_query ix with
  | Some cache => if String.eqb (qc_raw cache) raw then Some (qc_sets cache, ix) else fresh
  | None => fresh
  end.

(** [spec.query.filter(non-blank).and_then(|q| self.query_sets(q))]. *)
Definition spec_sets (query : option string) : request (option QuerySets) :=
  match query with
  | Some q => if blank q then reply None else query_sets q
  | None => reply None
  end.

(** ** Windows *)

Definition in_scope (scope : Scope) : request (Stream -> bool) :=
  match scope with
  | Scope_Roots => reply (fun s => bool_decide (parent s = None))
  | Scope_ChildrenOf seq =>
      let! p := index_by_seq seq in
      let parent_id := st_id <$> p in
      reply (fun s => bool_decide (parent s = parent_id) && bool_decide (is_Some parent_id))
  | Scope_Flat => reply (fun _ => true)
  end.

Definition keep_set (scope : Scope) (sets : QuerySets) : gset Z :=
  match scope with Scope_Flat => sets.1 | _ => sets.2 end.

(** The counters and rows of the window's loop. *)
Record WindowLoop := mkLoop { wl_total : Z; wl_matched : Z; wl_rows : list Stream }.

Definition window_round (spec : WindowSpec) (keep : option (gset Z)) (inside : Stream -> bool)
    (acc : WindowLoop) (s : Stream) : WindowLoop :=
  if negb (inside s) then acc
  else
    let total := wl_total acc + 1 in
    let kept := match keep with Some k => bool_decide (created_seq s ∈ k) | None => true end in
    if negb kept then mkLoop total (wl_matched acc) (wl_rows acc)
    else
      let matched := wl_matched acc + 1 in
      mkLoop total matched
        (if (w_offset spec <? matched) && (blen (wl_rows acc) <? w_limit spec)
         then wl_rows acc ++ [s] else wl_rows acc).

Definition window (spec : WindowSpec) : request WindowResult :=
  let! sets := spec_sets (w_query spec) in
  let! inside := in_scope (w_scope spec) in
  let! order := order (w_sort spec) in
  let! l := snap_streams in
  fun ix =>
    visited ← mapM (stream_at l) (if w_descending spec then order else reverse order);
    let res := foldl (window_round spec (keep_set (w_scope spec) <$> sets) inside)
                 (mkLoop 0 0 []) visited in
    Some (mkWindowResult (wl_total res)
            (match sets with Some _ => Some (wl_matched res) | None => None end) (wl_rows res), ix).

(** ** Timelines *)

Definition clamp (lo hi n : Z) : Z := Z.min hi (Z.max lo n).

(** [(((offset * bins) / span) as usize).min(bins - 1)]. *)
Definition bin_of (start span bins : Z) (ts : SystemTime) : Z :=
  Z.min ((sat_sub ts start * bins / span) mod 2 ^ 64) (bins - 1).

(** [iter_mut().take(to + 1).skip(from)], updated. *)
Definition touch_bins (f : Z -> Z) (from to : Z) (active : list Z) : list Z :=
  imap (fun i n => if (from <=? Z.of_nat i) && (Z.of_nat i <=? to) then f n else n) active.

Record TimelineLoop := mkTimelineLoop { tl_out : list TimelineLane; tl_rest : list Z; tl_rest_used : bool }.

Definition timeline_round (start span bins lanes : Z) (keep : option (gset Z)) (acc : TimelineLoop)
    (s : Stream) : TimelineLoop :=
  if negb (match keep with Some k => bool_decide (created_seq s ∈ k) | None => true end) then acc
  else
    let from := bin_of start span bins (first_seen s) in
    let to := bin_of start span bins (last_seen s) in
    if blen (tl_out acc) + 1 <? lanes
    then mkTimelineLoop
           (tl_out acc ++ [mkLane (Some (created_seq s))
                             (touch_bins (fun _ => 1) from to (replicate (Z.to_nat bins) 0))])
           (tl_rest acc) (tl_rest_used acc)
    else mkTimelineLoop (tl_out acc) (touch_bins (fun n => n + 1) from to (tl_rest acc)) true.

Definition timeline (spec : TimelineSpec) : request (option TimelineBins) := fun ix =>
  let bins := clamp 1 2048 (tl_bins spec) in
  let lanes := clamp 1 512 (tl_lanes spec) in
  match capture_span (ix_snap ix) with
  | None => Some (None, ix)
  | Some (start, end_) =>
      if end_ <? start then Some (None, ix)
      else
        let span := Z.max 1 (end_ - start) in
        (let! sets := spec_sets (tl_query spec) in
         let! order := order SK_Bytes in
         let! l := snap_streams in
         fun ix =>
           visited ← mapM (stream_at l) order;
           let res := foldl (timeline_round start span bins lanes (snd <$> sets))
                        (mkTimelineLoop [] (replicate (Z.to_nat bins) 0) false) visited in
           Some (Some (mkBins start end_
                         (tl_out res ++ (if tl_rest_used res then [mkLane None (tl_rest res)] else []))),
                 ix)) ix
  end.
End Index.
