(* ===== verification/ViewIndexProps.v ===== *)
(** * The view index answers as if nothing were cached

    Every cell of a [SnapshotIndex] that is filled holds what computing it afresh
    would give ([coherent]); so each request answers a function of the snapshot
    alone, whatever was asked before, and leaves the index coherent.  A window is
    then a page of one sorted listing, and a timeline counts every visible stream
    exactly once in every bin it was active in. *)

From S2P Require Import Prelude.
From S2P Require Import Values.
From S2P Require Import Types.
From S2P Require Import Contract.
From S2P Require Import Samples.
From S2P Require Import Engine.
From S2P Require Import Arena.
From S2P Require Import Store.
From S2P Require Import StoreInv.
From S2P Require Import StoreKeys.
From S2P Require Import StoreHeaps.
From S2P Require Import StoreIngest.
From S2P Require Import Queries.
From S2P Require Import StoreProps.
From S2P Require Import Text.
From S2P Require Import Fmt.
From S2P Require Import StreamView.
From S2P Require Import Query.
From S2P Require Import QueryLex.
From S2P Require Import Snapshots.
From S2P Require Import ViewIndex.

(** ** Positions *)

Lemma mapM_Some_fmap {A B} (f : A -> option B) (g : A -> B) l :
  Forall (fun x => f x = Some (g x)) l -> mapM f l = Some (g <$> l).
Proof. induction 1 as [|x l Hx Hl IH]; [done|]. simpl. by rewrite Hx, IH. Qed.

(** Sorting by what [snd] shows commutes with [snd]. *)
Lemma sort_by_snd {A B} (leb : B -> B -> bool) (l : list (A * B)) :
  @snd A B <$> sort_by (key_leb (@snd A B) leb) l = sort_by leb (snd <$> l).
Proof.
  assert (forall x (k : list (A * B)),
    (insert_by (key_leb snd leb) x k).*2 = insert_by leb x.2 (k.*2)) as Hins.
  { intros x k. induction k as [|y k IH]; [done|]. rewrite fmap_cons. simpl insert_by.
    change (key_leb snd leb x y) with (leb x.2 y.2). case_match; [done|]. by rewrite fmap_cons, IH. }
  induction l as [|x l IH]; [done|]. rewrite fmap_cons. unfold sort_by in *. simpl foldr.
  by rewrite Hins, IH.
Qed.

(** Filtering by a boolean, one element at a time. *)
Definition keep_if {A} (f : A -> bool) (l : list A) : list A := filter (fun x => f x = true) l.

Lemma keep_if_snoc {A} (f : A -> bool) l x : keep_if f (l ++ [x]) = keep_if f l ++ (if f x then [x] else []).
Proof.
  unfold keep_if. induction l as [|y l IH]; simpl; rewrite ?filter_cons.
  - by destruct (f x).
  - case_decide; by rewrite IH.
Qed.

Lemma keep_if_ext {A} (f g : A -> bool) l : (forall x, f x = g x) -> keep_if f l = keep_if g l.
Proof. intros Hfg. unfold keep_if. apply list_filter_iff. intros x. by rewrite Hfg. Qed.

Section Positions.
Context (snap : AggregatorSnapshot) (Hsnap : snapshot_ok snap).

Abbreviation ss := (sn_streams snap) (only parsing).

Definition numbered : list (Z * Stream) := imap (fun i s => (Z.of_nat i, s)) ss.

Lemma numbered_at e : e ∈ numbered -> 0 <= e.1 < 2 ^ 32 /\ stream_at ss e.1 = Some e.2.
Proof.
  unfold numbered. intros [i Hi]%list_elem_of_lookup. rewrite list_lookup_imap in Hi.
  destruct (ss !! i) as [s|] eqn:Hs; simplify_eq/=.
  pose proof (so_size _ Hsnap) as Hsize. apply lookup_lt_Some in Hs as Hlt. unfold blen in Hsize.
  split; [lia|]. unfold stream_at. by rewrite Nat2Z.id.
Qed.

Lemma numbered_snd : snd <$> numbered = ss.
Proof.
  unfold numbered. rewrite fmap_imap. apply list_eq. intros i. rewrite list_lookup_imap. simpl.
  by destruct (ss !! i).
Qed.

Lemma elem_of_numbered s : s ∈ ss <-> exists i, (i, s) ∈ numbered.
Proof.
  rewrite <- numbered_snd at 1. rewrite list_elem_of_fmap. split.
  - intros ([i t] & -> & ?). eauto.
  - intros [i ?]. by exists (i, s).
Qed.

Lemma numbered_keys {K} (f : Stream -> K) : (fun e => f e.2) <$> numbered = f <$> ss.
Proof. rewrite <- numbered_snd. by rewrite <- list_fmap_compose. Qed.

(** Looking a key up and then its position is looking the stream up. *)
Lemma positions_at {K} `{Countable K} (f : Stream -> K) k s :
  NoDup (f <$> ss) -> (pos ← positions f ss !! k; stream_at ss pos) = Some s <-> s ∈ ss /\ f s = k.
Proof.
  intros Hnd. rewrite bind_Some.
  assert (forall pos, positions f ss !! k = Some pos <-> exists e, e ∈ numbered /\ f e.2 = k /\ e.1 = pos) as Hpos.
  { intros pos. unfold positions. fold numbered.
    rewrite (fold_insert_lookup (fun e => f e.2) (fun e => e.1 mod 2 ^ 32)) by (by rewrite numbered_keys).
    split; intros (e & He & Hk & Hv); exists e; (split; [done|]); (split; [done|]);
      destruct (numbered_at e He) as [? _]; by rewrite Z.mod_small in * by lia. }
  setoid_rewrite Hpos. split.
  - intros (pos & (e & He & Hk & <-) & Hs). destruct (numbered_at e He) as [_ Hat]. rewrite Hat in Hs.
    simplify_eq. split; [|done]. apply elem_of_numbered. exists e.1. by destruct e.
  - intros [(i & Hi)%elem_of_numbered Hk]. exists i. split; [by exists (i, s)|]. apply (numbered_at _ Hi).
Qed.

(** *** The id map *)

Lemma positions_in_range :
  map_Forall (fun _ pos => is_Some (stream_at ss pos)) (positions st_id ss).
Proof.
  intros i pos Hi. unfold positions in Hi. fold numbered in Hi.
  apply (fold_insert_lookup (fun e => st_id e.2) (fun e => e.1 mod 2 ^ 32)) in Hi as (e & He & Hid & <-);
    [|rewrite numbered_keys; apply Hsnap].
  destruct (numbered_at e He) as [Hb Hat]. rewrite Z.mod_small by lia. by exists e.2.
Qed.

Lemma id_map_is_by_id : omap (stream_at ss) (positions st_id ss) = by_id snap.
Proof.
  apply map_eq. intros i. apply option_eq. intros s. rewrite lookup_omap.
  rewrite (positions_at st_id i s) by apply Hsnap. by rewrite by_id_lookup.
Qed.

(** *** The sorted orders *)

Definition sorted_streams (k : SortKey) : list Stream :=
  sort_by (key_leb (order_key k) (lex_pair (reverse_leb Z.leb) Z.leb)) ss.

Lemma sorted_numbered k : (sort_by (order_leb k) numbered).*2 = sorted_streams k.
Proof.
  unfold sorted_streams. rewrite <- numbered_snd.
  exact (sort_by_snd (key_leb (order_key k) (lex_pair (reverse_leb Z.leb) Z.leb)) numbered).
Qed.

Lemma sorted_positions_at k : mapM (stream_at ss) (sorted_positions k ss) = Some (sorted_streams k).
Proof.
  apply mapM_Some. rewrite <- sorted_numbered. unfold sorted_positions. fold numbered.
  apply Forall2_fmap_2, Forall_Forall2_diag, Forall_forall.
  intros e He%elem_of_sort_by. apply (numbered_at _ He).
Qed.

Lemma rev_positions_at k : mapM (stream_at ss) (reverse (sorted_positions k ss)) = Some (reverse (sorted_streams k)).
Proof.
  pose proof (sorted_positions_at k) as H. rewrite mapM_Some in *.
  by apply Forall2_reverse.
Qed.

#[export] Instance order_key_ord k : TotalOrd (key_leb (order_key k) (lex_pair (reverse_leb Z.leb) Z.leb)).
Proof. apply _. Qed.

Lemma sorted_streams_perm k : sorted_streams k ≡ₚ ss.
Proof. apply sort_by_Permutation. Qed.
End Positions.

(** ** Coherence *)

Section Coherent.
Context `{Env : ViewEnv} (snap : AggregatorSnapshot) (Hsnap : snapshot_ok snap).

Abbreviation ss := (sn_streams snap) (only parsing).

(** What [query_sets] computes when nothing is cached; [None] is a panic. *)
Definition fresh_sets (raw : string) : option (option QuerySets) :=
  match StreamQuery_parse raw with
  | Parsed (Ok query) => Some (Some (evaluate_sets ss (by_id snap) query))
  | Parsed (Error _) => Some None
  | Panicked | OutOfFuel => None
  end.

Record coherent (ix : SnapshotIndex) : Prop := mkCoherent {
  co_snap : ix_snap ix = snap;
  co_id m : ix_by_id ix = Some m -> m = positions st_id ss;
  co_seq m : ix_by_seq ix = Some m -> m = positions created_seq ss;
  co_orders k o : ix_orders ix !! sort_slot k = Some (Some o) -> o = sorted_positions k ss;
  co_query c : ix_query ix = Some c -> fresh_sets (qc_raw c) = Some (qc_sets c);
}.

Lemma coherent_new : coherent (SnapshotIndex_new snap).
Proof. split; try done. by intros []. Qed.

(** A request that answers [r], panics included, from any coherent index and
    leaves it coherent. *)
Definition answers {A} (m : request A) (r : option A) : Prop :=
  forall ix, coherent ix ->
    match r with
    | Some a => exists ix', m ix = Some (a, ix') /\ coherent ix'
    | None => m ix = None
    end.

Lemma answers_bind {A B} (m : request A) (k : A -> request B) r q :
  answers m r -> (forall a, r = Some a -> answers (k a) (q a)) -> answers (and_request m k) (r ≫= q).
Proof.
  intros Hm Hk ix Hix. specialize (Hm ix Hix). unfold and_request. destruct r as [a|]; simpl.
  - destruct Hm as (ix' & -> & Hix'). by apply (Hk a eq_refl).
  - by rewrite Hm.
Qed.

Lemma answers_pure {A} (f : SnapshotIndex -> A) a :
  (forall ix, coherent ix -> f ix = a) -> answers (fun ix => Some (f ix, ix)) (Some a).
Proof. intros Hf ix Hix. exists ix. by rewrite Hf. Qed.

Lemma answers_reply {A} (a : A) : answers (reply a) (Some a).
Proof. by apply answers_pure. Qed.

Lemma answers_streams : answers snap_streams (Some ss).
Proof. apply answers_pure. by intros ix [<-]. Qed.

Lemma answers_by_id : answers positions_by_id (Some (positions st_id ss)).
Proof.
  intros ix Hix. unfold positions_by_id. destruct (ix_by_id ix) as [m|] eqn:Hm.
  - exists ix. by rewrite (co_id _ Hix m Hm).
  - rewrite (co_snap _ Hix). eexists. split; [done|]. destruct Hix. split; simpl; try done. by intros m [= <-].
Qed.

Lemma answers_by_seq : answers positions_by_seq (Some (positions created_seq ss)).
Proof.
  intros ix Hix. unfold positions_by_seq. destruct (ix_by_seq ix) as [m|] eqn:Hm.
  - exists ix. by rewrite (co_seq _ Hix m Hm).
  - rewrite (co_snap _ Hix). eexists. split; [done|]. destruct Hix. split; simpl; try done. by intros m [= <-].
Qed.

#[local] Instance sort_slot_inj : Inj eq eq sort_slot.
Proof. by intros [] []. Qed.

Lemma answers_order k : answers (order k) (Some (sorted_positions k ss)).
Proof.
  intros ix Hix. unfold order. destruct (default None (ix_orders ix !! sort_slot k)) as [o|] eqn:Ho.
  - exists ix. split; [|done]. rewrite (co_orders _ Hix k o); [done|].
    by destruct (ix_orders ix !! sort_slot k) as [[]|]; simplify_eq/=.
  - rewrite (co_snap _ Hix). eexists. split; [done|]. destruct Hix as [H1 H2 H3 Hord H4].
    split; simpl; [done|done|done| |done].
    intros k' o' Hk. apply list_lookup_insert_Some in Hk as [(Hs & Hv & _)|(_ & Hk)]; [|by apply Hord].
    apply sort_slot_inj in Hs as <-. congruence.
Qed.

Lemma answers_id_map : answers id_map (Some (by_id snap)).
Proof.
  intros ix Hix. destruct (answers_by_id ix Hix) as (ix' & Hrun & Hix'). exists ix'. split; [|done].
  unfold id_map. rewrite Hrun, (co_snap _ Hix'), bool_decide_eq_true_2 by by apply positions_in_range.
  by rewrite id_map_is_by_id.
Qed.

Lemma answers_index_by_seq seq :
  exists p, answers (index_by_seq seq) (Some p) /\ forall s, p = Some s <-> s ∈ ss /\ created_seq s = seq.
Proof.
  exists (pos ← positions created_seq ss !! seq; stream_at ss pos). split.
  - apply (answers_bind _ _ (Some (positions created_seq ss))
      (fun m => Some (pos ← m !! seq; stream_at ss pos))); [apply answers_by_seq|].
    intros m [= <-]. apply (answers_bind _ _ (Some ss) (fun l => Some (pos ← _; stream_at l pos)));
      [apply answers_streams|]. intros l [= <-]. apply answers_reply.
  - intros s. apply positions_at; [done|apply Hsnap].
Qed.

Lemma answers_index_by_id id :
  exists p, answers (index_by_id id) (Some p) /\ forall s, p = Some s <-> s ∈ ss /\ st_id s = id.
Proof.
  exists (pos ← positions st_id ss !! id; stream_at ss pos). split.
  - apply (answers_bind _ _ (Some (positions st_id ss))
      (fun m => Some (pos ← m !! id; stream_at ss pos))); [apply answers_by_id|].
    intros m [= <-]. apply (answers_bind _ _ (Some ss) (fun l => Some (pos ← _; stream_at l pos)));
      [apply answers_streams|]. intros l [= <-]. apply answers_reply.
  - intros s. apply positions_at; [done|apply Hsnap].
Qed.

Lemma answers_store raw sets : fresh_sets raw = Some sets -> answers (store_query raw sets) (Some sets).
Proof.
  intros Hf ix Hix. eexists. split; [done|]. destruct Hix. split; simpl; try done. by intros c [= <-].
Qed.

Lemma answers_query_sets raw : answers (query_sets raw) (fresh_sets raw).
Proof.
  intros ix Hix.
  assert (match fresh_sets raw with
    | Some a => exists ix', match StreamQuery_parse raw with
      | Parsed (Ok query) =>
          (let! ids := id_map in let! l := snap_streams in
           store_query raw (Some (evaluate_sets l ids query))) ix
      | Parsed (Error _) => store_query raw None ix
      | Panicked | OutOfFuel => None
      end = Some (a, ix') /\ coherent ix'
    | None => match StreamQuery_parse raw with
      | Parsed (Ok query) =>
          (let! ids := id_map in let! l := snap_streams in
           store_query raw (Some (evaluate_sets l ids query))) ix
      | Parsed (Error _) => store_query raw None ix
      | Panicked | OutOfFuel => None
      end = None
    end) as Hfresh.
  { pose proof (answers_store raw) as Hstore. unfold fresh_sets in *.
    destruct (StreamQuery_parse raw) as [[query|e]| |]; try done; [|by apply Hstore].
    apply (answers_bind _ _ (Some (by_id snap)) (fun ids => Some (Some (evaluate_sets ss ids query))));
      [apply answers_id_map| |done].
    intros ids [= <-].
    apply (answers_bind _ _ (Some ss) (fun l => Some (Some (evaluate_sets l (by_id snap) query))));
      [apply answers_streams|].
    intros l [= <-]. by apply Hstore. }
  unfold query_sets. destruct (ix_query ix) as [c|] eqn:Hc; [|exact Hfresh].
  destruct (String.eqb_spec (qc_raw c) raw) as [<-|]; [|exact Hfresh].
  rewrite (co_query _ Hix c Hc). by exists ix.
Qed.

(** ** Windows *)

Definition spec_sets_of (query : option string) : option (option QuerySets) :=
  match query with
  | Some q => if blank q then Some None else fresh_sets q
  | None => Some None
  end.

Lemma answers_spec_sets query : answers (spec_sets query) (spec_sets_of query).
Proof.
  destruct query as [q|]; simpl; [|apply answers_reply].
  destruct (blank q); [apply answers_reply|apply answers_query_sets].
Qed.

(** The streams a scope draws from. *)
Definition belongs (scope : Scope) (s : Stream) : bool :=
  match scope with
  | Scope_Roots => bool_decide (parent s = None)
  | Scope_ChildrenOf seq =>
      existsb (fun p => (created_seq p =? seq) && bool_decide (parent s = Some (st_id p))) ss
  | Scope_Flat => true
  end.

Lemma answers_in_scope scope :
  exists f, answers (in_scope scope) (Some f) /\ forall s, f s = belongs scope s.
Proof.
  destruct scope as [|seq|]; [by eexists; split; [apply answers_reply|]| |by eexists; split; [apply answers_reply|]].
  destruct (answers_index_by_seq seq) as (p & Hp & Hspec).
  eexists. split.
  - apply (answers_bind _ _ (Some p) (fun p => Some (fun s =>
      bool_decide (parent s = st_id <$> p) && bool_decide (is_Some (st_id <$> p))))); [done|].
    intros q [= <-]. apply answers_reply.
  - intros s. simpl. apply eq_true_iff_eq.
    rewrite andb_true_iff, !bool_decide_eq_true, existsb_exists. split.
    + intros [Hpar [i Hi]]. destruct p as [t|]; simplify_eq/=. exists t.
      destruct (proj1 (Hspec t) eq_refl) as [Hin Hseq]. split; [by apply list_elem_of_In|].
      by rewrite andb_true_iff, Z.eqb_eq, bool_decide_eq_true.
    + intros (t & Hin%list_elem_of_In & Ht). rewrite andb_true_iff, Z.eqb_eq, bool_decide_eq_true in Ht.
      destruct Ht as [Hseq Hpar]. rewrite (proj2 (Hspec t) (conj Hin Hseq)). simpl. split; [done|by eexists].
Qed.

Definition kept (keep : option (gset Z)) (s : Stream) : bool :=
  match keep with Some k => bool_decide (created_seq s ∈ k) | None => true end.

(** Everything a window could show, in its order. *)
Definition ordered (spec : WindowSpec) : list Stream :=
  if w_descending spec then sorted_streams snap (w_sort spec) else reverse (sorted_streams snap (w_sort spec)).

Definition scope_rows (spec : WindowSpec) : list Stream :=
  keep_if (belongs (w_scope spec)) (ordered spec).

Definition listing (spec : WindowSpec) (sets : option QuerySets) : list Stream :=
  keep_if (kept (keep_set (w_scope spec) <$> sets)) (scope_rows spec).

(** One page of a list. *)
Definition page (offset limit : Z) (l : list Stream) : list Stream :=
  take (Z.to_nat limit) (drop (Z.to_nat offset) l).

Lemma page_snoc offset limit l s : 0 <= offset -> 0 <= limit ->
  page offset limit (l ++ [s]) =
  if (offset <? blen l + 1) && (blen (page offset limit l) <? limit)
  then page offset limit l ++ [s] else page offset limit l.
Proof.
  intros Ho Hl. unfold page, blen. rewrite length_take, length_drop.
  destruct (offset <? _) eqn:E1; simpl; reflect_bools.
  - rewrite drop_app_le by lia. destruct (_ <? limit) eqn:E2; reflect_bools.
    + rewrite !take_ge; [done|rewrite length_drop; lia|rewrite length_app, length_drop; simpl; lia].
    + by rewrite take_app_le by (rewrite length_drop; lia).
  - rewrite drop_app_ge, (drop_ge l) by lia.
    rewrite drop_ge by (simpl; lia). done.
Qed.

(** The window's loop counts and pages the rows it lists. *)
Lemma window_loop spec keep inside l :
  0 <= w_offset spec -> 0 <= w_limit spec ->
  foldl (window_round spec keep inside) (mkLoop 0 0 []) l =
  mkLoop (blen (keep_if inside l)) (blen (keep_if (kept keep) (keep_if inside l)))
    (page (w_offset spec) (w_limit spec) (keep_if (kept keep) (keep_if inside l))).
Proof.
  intros Ho Hl. induction l as [|s l IH] using rev_ind.
  - unfold page. by destruct (Z.to_nat (w_offset spec)), (Z.to_nat (w_limit spec)).
  - rewrite foldl_app, IH, keep_if_snoc. simpl. unfold window_round.
    destruct (inside s); simpl; [|by rewrite app_nil_r].
    rewrite keep_if_snoc. fold (kept keep s). destruct (kept keep s); simpl.
    + rewrite page_snoc, !blen_app by done. done.
    + by rewrite app_nil_r, blen_app.
Qed.

(** A window is a page of the listing of its scope and query, in the order of
    its sort key, with the totals of the listing; nothing asked before matters. *)
Lemma answers_window spec :
  0 <= w_offset spec -> 0 <= w_limit spec ->
  answers (window spec)
    (sets ← spec_sets_of (w_query spec);
     Some (mkWindowResult (blen (scope_rows spec))
             (match sets with Some _ => Some (blen (listing spec sets)) | None => None end)
             (page (w_offset spec) (w_limit spec) (listing spec sets)))).
Proof.
  intros Ho Hl. apply answers_bind; [apply answers_spec_sets|]. intros sets Hsets.
  destruct (answers_in_scope (w_scope spec)) as (inside & Hin & Hinside).
  set (res := mkWindowResult _ _ _). apply (answers_bind _ _ (Some inside) (fun _ => Some res)); [done|].
  intros f [= <-]. apply (answers_bind _ _ (Some (sorted_positions (w_sort spec) ss)) (fun _ => Some res));
    [apply answers_order|].
  intros o [= <-]. apply (answers_bind _ _ (Some ss) (fun _ => Some res)); [apply answers_streams|].
  intros l [= <-] ix Hix. exists ix. split; [|done].
  assert (mapM (stream_at ss) (if w_descending spec then sorted_positions (w_sort spec) ss
    else reverse (sorted_positions (w_sort spec) ss)) = Some (ordered spec)) as ->.
  { unfold ordered. destruct (w_descending spec); [by apply sorted_positions_at|by apply rev_positions_at]. }
  simpl. rewrite window_loop by done. rewrite (keep_if_ext inside (belongs (w_scope spec))) by done. done.
Qed.

Lemma ordered_perm spec : ordered spec ≡ₚ ss.
Proof.
  unfold ordered. destruct (w_descending spec); [apply sorted_streams_perm|].
  rewrite reverse_Permutation. apply sorted_streams_perm.
Qed.

(** ** Timelines *)

Section Timeline.
Context (start span bins lanes : Z) (keep : option (gset Z)) (Hbins : 1 <= bins) (Hlanes : 1 <= lanes).

(** The stream is active in bin [b]. *)
Definition active_in (b : Z) (s : Stream) : bool :=
  (bin_of start span bins (first_seen s) <=? b) && (b <=? bin_of start span bins (last_seen s)).

Definition own_lane (s : Stream) : TimelineLane :=
  mkLane (Some (created_seq s))
    (touch_bins (fun _ => 1) (bin_of start span bins (first_seen s)) (bin_of start span bins (last_seen s))
       (replicate (Z.to_nat bins) 0)).

Definition rest_lane (l : list Stream) : list Z :=
  foldl (fun rest s => touch_bins (fun n => n + 1) (bin_of start span bins (first_seen s))
                         (bin_of start span bins (last_seen s)) rest) (replicate (Z.to_nat bins) 0) l.

(** The loop gives the first [lanes - 1] visible streams a lane each and the
    others the last lane. *)
Lemma timeline_loop l :
  let visible := keep_if (kept keep) l in
  let n := Z.to_nat (lanes - 1) in
  foldl (timeline_round start span bins lanes keep) (mkTimelineLoop [] (replicate (Z.to_nat bins) 0) false) l =
  mkTimelineLoop (own_lane <$> take n visible) (rest_lane (drop n visible)) (n <? length visible)%nat.
Proof.
  cbv zeta. set (n := Z.to_nat (lanes - 1)). induction l as [|s l IH] using rev_ind.
  { by destruct n. }
  rewrite foldl_app, IH, keep_if_snoc. simpl. unfold timeline_round. fold (kept keep s).
  destruct (kept keep s); simpl; [|by rewrite app_nil_r].
  set (v := keep_if (kept keep) l). unfold blen. rewrite length_fmap, length_take, length_app. simpl.
  destruct (decide (length v < n)%nat) as [Hlt|Hge].
  - rewrite (proj2 (Z.ltb_lt _ _)) by lia.
    rewrite !take_ge, !drop_ge by (rewrite ?length_app; simpl; lia). rewrite fmap_app. f_equal.
    by rewrite !(proj2 (Nat.ltb_ge _ _)) by lia.
  - rewrite (proj2 (Z.ltb_ge _ _)) by lia.
    rewrite take_app_le, drop_app_le by lia. unfold rest_lane. rewrite foldl_app. simpl.
    by rewrite (proj2 (Nat.ltb_lt _ _)) by lia.
Qed.

Definition lane_at (b : Z) (active : list Z) : Z := default 0 (active !! Z.to_nat b).

Lemma touch_bins_at f from to active b :
  0 <= b < blen active ->
  lane_at b (touch_bins f from to active) =
  if (from <=? b) && (b <=? to) then f (lane_at b active) else lane_at b active.
Proof.
  intros Hb. unfold lane_at, touch_bins. rewrite list_lookup_imap.
  destruct (lookup_lt_is_Some_2 active (Z.to_nat b)) as [n Hn]; [unfold blen in Hb; lia|].
  rewrite Hn. simpl. by rewrite Z2Nat.id by lia.
Qed.

Lemma length_touch_bins f from to active : length (touch_bins f from to active) = length active.
Proof. apply length_imap. Qed.

Lemma blen_bins : blen (replicate (Z.to_nat bins) 0) = bins.
Proof. unfold blen. rewrite length_replicate. lia. Qed.

Lemma lane_at_zeros b : 0 <= b < bins -> lane_at b (replicate (Z.to_nat bins) 0) = 0.
Proof. intros. unfold lane_at. by rewrite lookup_replicate_2 by lia. Qed.

Lemma own_lane_at s b : 0 <= b < bins -> lane_at b (lane_active (own_lane s)) = if active_in b s then 1 else 0.
Proof. intros Hb. simpl. rewrite touch_bins_at by (by rewrite blen_bins). by rewrite lane_at_zeros. Qed.

Lemma rest_lane_at l b : 0 <= b < bins ->
  length (rest_lane l) = Z.to_nat bins /\ lane_at b (rest_lane l) = blen (keep_if (active_in b) l).
Proof.
  intros Hb. induction l as [|s l [IHlen IH]] using rev_ind.
  { split; [apply length_replicate|by apply lane_at_zeros]. }
  unfold rest_lane in *. rewrite foldl_app. simpl. rewrite length_touch_bins. split; [done|].
  rewrite touch_bins_at by (unfold blen; rewrite IHlen; lia). fold (active_in b s).
  rewrite keep_if_snoc, IH. destruct (active_in b s); [by rewrite blen_app|by rewrite app_nil_r].
Qed.

Definition lanes_at (b : Z) (out : list TimelineLane) : Z :=
  foldr (fun lane n => lane_at b (lane_active lane) + n) 0 out.

Lemma keep_if_app {A} (f : A -> bool) l1 l2 : keep_if f (l1 ++ l2) = keep_if f l1 ++ keep_if f l2.
Proof.
  induction l2 as [|x l2 IH] using rev_ind; [by rewrite !app_nil_r|].
  by rewrite app_assoc, !keep_if_snoc, IH, app_assoc.
Qed.

Lemma own_lanes_at l b : 0 <= b < bins -> lanes_at b (own_lane <$> l) = blen (keep_if (active_in b) l).
Proof.
  intros Hb. induction l as [|s l IH]; [done|].
  change (lanes_at b (own_lane <$> (s :: l)))
    with (lane_at b (lane_active (own_lane s)) + lanes_at b (own_lane <$> l)).
  rewrite own_lane_at, IH by done. unfold keep_if. rewrite filter_cons.
  destruct (active_in b s); simpl; [rewrite blen_cons|]; lia.
Qed.

(** The lanes the loop leaves, over the visible streams [v]. *)
Definition final_lanes (v : list Stream) : list TimelineLane :=
  let n := Z.to_nat (lanes - 1) in
  (own_lane <$> take n v) ++ (if (n <? length v)%nat then [mkLane None (rest_lane (drop n v))] else []).

Lemma lanes_at_app b out1 out2 : lanes_at b (out1 ++ out2) = lanes_at b out1 + lanes_at b out2.
Proof. induction out1 as [|x out1 IH]; [done|]. simpl. rewrite IH. lia. Qed.

Lemma final_lanes_spec v :
  blen (final_lanes v) <= lanes /\
  Forall (fun lane => blen (lane_active lane) = bins) (final_lanes v) /\
  (forall b, 0 <= b < bins -> lanes_at b (final_lanes v) = blen (keep_if (active_in b) v)).
Proof.
  unfold final_lanes. set (n := Z.to_nat (lanes - 1)). split; [|split].
  - unfold blen. rewrite length_app, length_fmap, length_take. destruct (n <? length v)%nat; simpl; lia.
  - apply Forall_app. split.
    + apply Forall_fmap, Forall_forall. intros s _. simpl. unfold blen. rewrite length_touch_bins, length_replicate. lia.
    + destruct (n <? length v)%nat; repeat constructor. simpl. unfold blen.
      destruct (rest_lane_at (drop n v) 0) as [-> _]; lia.
  - intros b Hb. rewrite lanes_at_app, own_lanes_at by done.
    replace (keep_if (active_in b) v) with (keep_if (active_in b) (take n v ++ drop n v)) by (by rewrite take_drop).
    rewrite keep_if_app, blen_app. f_equal.
    destruct (Nat.ltb_spec n (length v)); simpl.
    + destruct (rest_lane_at (drop n v) b Hb) as [_ ->]. lia.
    + by rewrite drop_ge by lia.
Qed.
End Timeline.

Definition visible (sets : option QuerySets) : list Stream :=
  keep_if (kept (snd <$> sets)) (sorted_streams snap SK_Bytes).

Lemma answers_timeline spec :
  answers (timeline spec)
    (let bins := clamp 1 2048 (tl_bins spec) in
     let lanes := clamp 1 512 (tl_lanes spec) in
     match capture_span snap with
     | None => Some None
     | Some (start, end_) =>
         if end_ <? start then Some None
         else
           sets ← spec_sets_of (tl_query spec);
           Some (Some (mkBins start end_
             (final_lanes start (Z.max 1 (end_ - start)) bins lanes (visible sets))))
     end).
Proof.
  intros ix Hix. cbv zeta. unfold timeline. rewrite (co_snap _ Hix).
  destruct (capture_span snap) as [[start end_]|]; [|by exists ix].
  destruct (end_ <? start); [by exists ix|]. revert ix Hix.
  apply answers_bind; [apply answers_spec_sets|]. intros sets Hsets.
  set (res := mkBins _ _ _).
  apply (answers_bind _ _ (Some (sorted_positions SK_Bytes ss)) (fun _ => Some (Some res))); [apply answers_order|].
  intros o [= <-]. apply (answers_bind _ _ (Some ss) (fun _ => Some (Some res))); [apply answers_streams|].
  intros l [= <-] ix Hix. exists ix. split; [|done]. rewrite (sorted_positions_at snap Hsnap). simpl.
  rewrite timeline_loop by (unfold clamp; lia). simpl. done.
Qed.
End Coherent.

(** ** What a client of the index sees *)

(** The requests of the lenses, and their answers. *)
Inductive Request :=
  | Ask_Window (spec : WindowSpec)
  | Ask_Timeline (spec : TimelineSpec)
  | Ask_ById (id : StreamId)
  | Ask_BySeq (seq : Z).

Inductive Answer :=
  | Ans_Window (r : WindowResult)
  | Ans_Timeline (r : option TimelineBins)
  | Ans_Stream (s : option Stream).

(** Offsets and limits are [usize]. *)
Definition request_ok (r : Request) : Prop :=
  match r with Ask_Window spec => 0 <= w_offset spec /\ 0 <= w_limit spec | _ => True end.

Section Client.
Context `{Env : ViewEnv}.

Definition serve (r : Request) : request Answer :=
  match r with
  | Ask_Window spec => let! w := window spec in reply (Ans_Window w)
  | Ask_Timeline spec => let! t := timeline spec in reply (Ans_Timeline t)
  | Ask_ById id => let! s := index_by_id id in reply (Ans_Stream s)
  | Ask_BySeq seq => let! s := index_by_seq seq in reply (Ans_Stream s)
  end.

(** Requests one after another on the same index. *)
Fixpoint serve_all (reqs : list Request) : request (list Answer) :=
  match reqs with
  | [] => reply []
  | r :: reqs' => let! a := serve r in let! rest := serve_all reqs' in reply (a :: rest)
  end.

Section Snapshot.
Context (snap : AggregatorSnapshot) (Hsnap : snapshot_ok snap).

(** An answer from any coherent index is the answer from a fresh one. *)
Lemma answers_fresh {A} (m : request A) r :
  answers snap m r -> fst <$> m (SnapshotIndex_new snap) = r.
Proof.
  intros Hm. specialize (Hm _ (coherent_new snap)). destruct r as [a|]; [|by rewrite Hm].
  destruct Hm as (ix' & -> & _). done.
Qed.

Lemma answers_then {A B} (m : request A) (f : A -> B) r :
  answers snap m r -> answers snap (let! a := m in reply (f a)) (a ← r; Some (f a)).
Proof. intros Hm. apply answers_bind; [done|]. intros a _. apply answers_reply. Qed.

Lemma answers_serve r : request_ok r -> answers snap (serve r) (fst <$> serve r (SnapshotIndex_new snap)).
Proof.
  intros Hok.
  assert (exists o, answers snap (serve r) o) as [o Ho].
  { destruct r as [spec|spec|id|seq]; simpl in *.
    - destruct Hok. eexists. by apply answers_then, answers_window.
    - eexists. by apply answers_then, answers_timeline.
    - destruct (answers_index_by_id snap Hsnap id) as (p & Hp & _). eexists. by apply answers_then.
    - destruct (answers_index_by_seq snap Hsnap seq) as (p & Hp & _). eexists. by apply answers_then. }
  by rewrite (answers_fresh _ _ Ho).
Qed.

Lemma answers_serve_all reqs : Forall request_ok reqs ->
  answers snap (serve_all reqs) (mapM (fun r => fst <$> serve r (SnapshotIndex_new snap)) reqs).
Proof.
  induction 1 as [|r reqs Hr Hreqs IH]; [apply answers_reply|].
  apply answers_bind; [by apply answers_serve|]. intros a _.
  apply answers_bind; [exact IH|]. intros rest _. apply answers_reply.
Qed.
End Snapshot.

Context `{Hasher}.

(** C14: Caching is invisible: over the snapshot of any reachable aggregator, a
    sequence of requests on one index gets, request by request, the answers a
    fresh index would give. *)
Theorem index_transparent e c pkts reqs :
  engine_wf e -> config_ok c -> trace_ok pkts -> Forall request_ok reqs ->
  let snap := snapshot (run e c pkts) in
  fst <$> serve_all reqs (SnapshotIndex_new snap) =
  mapM (fun r => fst <$> serve r (SnapshotIndex_new snap)) reqs.
Proof.
  intros He Hc Ht Hreqs snap. destruct (reached_run False e c pkts He Hc Ht) as (Hs & _); [done|].
  apply store_snapshot_ok in Hs. by apply (answers_fresh snap), answers_serve_all.
Qed.

(** C24: A window is the requested page of one listing: the snapshot's streams in the
    order of the sort key, restricted to the scope and then to the query's
    matches (with their ancestors in tree scopes); its totals are the lengths
    of the two restrictions. *)
Theorem window_exact e c pkts spec :
  engine_wf e -> config_ok c -> trace_ok pkts -> 0 <= w_offset spec -> 0 <= w_limit spec ->
  let snap := snapshot (run e c pkts) in
  fst <$> window spec (SnapshotIndex_new snap) =
    (sets ← spec_sets_of snap (w_query spec);
     Some (mkWindowResult (blen (scope_rows snap spec))
             (match sets with Some _ => Some (blen (listing snap spec sets)) | None => None end)
             (page (w_offset spec) (w_limit spec) (listing snap spec sets)))) /\
  ordered snap spec ≡ₚ sn_streams snap /\
  Sorted_by (key_leb (order_key (w_sort spec)) (lex_pair (reverse_leb Z.leb) Z.leb))
    (if w_descending spec then ordered snap spec else reverse (ordered snap spec)).
Proof.
  intros He Hc Ht Ho Hl snap. destruct (reached_run False e c pkts He Hc Ht) as (Hs & _); [done|].
  apply store_snapshot_ok in Hs. split; [by apply (answers_fresh snap), answers_window|].
  split; [apply ordered_perm|]. unfold ordered.
  destruct (w_descending spec); rewrite ?reverse_involutive; apply sort_by_ord, _.
Qed.

(** C27: A timeline of at most [lanes] lanes of [bins] bins accounts for every
    visible stream exactly once in every bin it was active in, whether in a lane
    of its own or in the last one. *)
Theorem timeline_exact e c pkts spec tb :
  engine_wf e -> config_ok c -> trace_ok pkts ->
  let snap := snapshot (run e c pkts) in
  let bins := clamp 1 2048 (tl_bins spec) in
  fst <$> timeline spec (SnapshotIndex_new snap) = Some (Some tb) ->
  exists sets, spec_sets_of snap (tl_query spec) = Some sets /\
    blen (tb_lanes tb) <= clamp 1 512 (tl_lanes spec) /\
    Forall (fun lane => blen (lane_active lane) = bins) (tb_lanes tb) /\
    forall b, 0 <= b < bins ->
      lanes_at b (tb_lanes tb) =
      blen (keep_if (active_in (tb_start tb) (Z.max 1 (tb_end tb - tb_start tb)) bins b) (visible snap sets)).
Proof.
  intros He Hc Ht snap bins. destruct (reached_run False e c pkts He Hc Ht) as (Hs & _); [done|].
  apply store_snapshot_ok in Hs. rewrite (answers_fresh snap _ _ (answers_timeline snap Hs spec)). cbv zeta.
  destruct (capture_span snap) as [[start end_]|]; [|done]. destruct (end_ <? start); [done|].
  destruct (spec_sets_of snap (tl_query spec)) as [sets|]; [|done]. simpl. intros [= <-].
  exists sets. split; [done|]. simpl. apply final_lanes_spec; unfold bins, clamp; lia.
Qed.
End Client.

(** ** Witnesses *)

Definition sample_window : WindowSpec := mkWindowSpec Scope_Flat (Some "leaf"%string) SK_Bytes true 1 2.

Lemma window_exact_witness :
  let _ := plain_env in
  let snap := snapshot (run store_engine (store_config EvictNone) store_trace) in
  exists r, fst <$> window sample_window (SnapshotIndex_new snap) = Some r /\
    w_total r = 5 /\ w_match_total r = Some 4 /\ length (w_rows r) = 2%nat.
Proof.
  intros env snap. assert (config_ok (store_config EvictNone)) as Hc by done.
  destruct (window_exact (Env := env) store_engine (store_config EvictNone) store_trace sample_window
    store_engine_wf Hc store_trace_ok) as [Hw _]; [vm_compute; discriminate|vm_compute; discriminate|].
  eexists. split; [etransitivity; [exact Hw|vm_compute; reflexivity]|]. vm_compute. repeat split.
Defined.

Lemma timeline_exact_witness :
  let _ := plain_env in
  let snap := snapshot (run store_engine (store_config EvictNone) store_trace) in
  exists tb, fst <$> timeline (mkTimelineSpec 4 3 None) (SnapshotIndex_new snap) = Some (Some tb) /\
    blen (tb_lanes tb) <= 3 /\ lanes_at 0 (tb_lanes tb) = 4.
Proof.
  intros env snap. assert (config_ok (store_config EvictNone)) as Hc by done.
  destruct (timeline (Env := env) (mkTimelineSpec 4 3 None) (SnapshotIndex_new snap)) as [[[tb|] ix]|] eqn:E;
    [|by vm_compute in E|by vm_compute in E].
  exists tb. split; [done|].
  destruct (timeline_exact (Env := env) store_engine (store_config EvictNone) store_trace (mkTimelineSpec 4 3 None) tb
    store_engine_wf Hc store_trace_ok) as (sets & _ & Hlanes & _); [exact (f_equal (fmap fst) E)|].
  split; [exact Hlanes|]. vm_compute in E. injection E as <- _. vm_compute. reflexivity.
Defined.

Definition sample_requests : list Request :=
  [Ask_Window sample_window; Ask_BySeq 0; Ask_Window sample_window].

Lemma index_transparent_witness :
  let _ := plain_env in
  let ix := SnapshotIndex_new (snapshot (run store_engine (store_config EvictNone) store_trace)) in
  fst <$> serve_all sample_requests ix = mapM (fun r => fst <$> serve r ix) sample_requests /\
  length <$> mapM (fun r => fst <$> serve r ix) sample_requests = Some 3%nat.
Proof.
  intros env ix. split; [|vm_compute; reflexivity].
  exact (index_transparent (Env := env) store_engine (store_config EvictNone) store_trace sample_requests
    store_engine_wf (I : config_ok (store_config EvictNone)) store_trace_ok
    ltac:(repeat constructor; vm_compute; discriminate)).
Defined.
