(* ===== verification/Tree.v ===== *)
(** * The browsable tree

    Models [crates/pktflow-tui/src/tree.rs]: the stream hierarchy of a snapshot
    flattened to the rows of the tree pane, under a sibling order, a set of
    collapsed streams and a query, never more than [MAX_ROWS] of them.  Streams
    are resolved through the view index, so a flatten is a request on it. *)

From S2P Require Import Prelude.
From S2P Require Import Values.
From S2P Require Import Types.
From S2P Require Import Arena.
From S2P Require Import Store.
From S2P Require Import Queries.
From S2P Require Import Text.
From S2P Require Import Fmt.
From S2P Require Import StreamView.
From S2P Require Import Query.
From S2P Require Import ViewIndex.

Inductive Sort := Sort_Bytes | Sort_Packets | Sort_FirstSeen | Sort_Duration.

#[export] Instance Sort_eq_dec : EqDecision Sort.
Proof. solve_decision. Defined.

Definition Sort_next (o : Sort) : Sort :=
  match o with
  | Sort_Bytes => Sort_Packets
  | Sort_Packets => Sort_FirstSeen
  | Sort_FirstSeen => Sort_Duration
  | Sort_Duration => Sort_Bytes
  end.

Definition Sort_label (o : Sort) : string :=
  match o with
  | Sort_Bytes => "bytes"
  | Sort_Packets => "packets"
  | Sort_FirstSeen => "first-seen"
  | Sort_Duration => "duration"
  end.

Record TreeRow := mkTreeRow {
  tr_stream : Stream;
  tr_prefix : string;
  tr_has_children : bool;
  tr_expanded : bool;
}.

(** The four stable sorts. *)
Definition sibling_leb (o : Sort) : Stream -> Stream -> bool :=
  match o with
  | Sort_Bytes => key_leb total_bytes (reverse_leb Z.leb)
  | Sort_Packets => key_leb total_packets (reverse_leb Z.leb)
  | Sort_FirstSeen => key_leb created_seq Z.leb
  | Sort_Duration => key_leb (fun s => sat_sub (last_seen s) (first_seen s)) (reverse_leb Z.leb)
  end.

Definition sort_siblings (o : Sort) (streams : list Stream) : list Stream :=
  sort_by (sibling_leb o) streams.

Definition MAX_ROWS : Z := 10000.

(** [s.replace(pat, to)] for a non-empty pattern; [skip] characters of a match
    are still to be dropped. *)
Fixpoint replace_from (pat to : string) (skip : nat) (s : string) : string :=
  match s with
  | EmptyString => EmptyString
  | String c s' =>
      match skip with
      | S k => replace_from pat to k s'
      | O =>
          match strip_prefix pat s with
          | Some _ => to +:+ replace_from pat to (String.length pat - 1) s'
          | None => String c (replace_from pat to 0 s')
          end
      end
  end.
Definition replace (pat to s : string) : string := replace_from pat to 0 s.

Definition TEE : string := "├─ ".
Definition ELBOW : string := "└─ ".
Definition BAR : string := "│  ".
Definition GAP : string := "   ".

(** [prefix.replace("├─ ", "│  ").replace("└─ ", "   ")]. *)
Definition bare_prefix (prefix : string) : string := replace ELBOW GAP (replace TEE BAR prefix).

(** [visible.is_none_or(|v| v.contains(&s.created_seq))]. *)
Definition shown (visible : option (gset Z)) (s : Stream) : bool :=
  match visible with Some v => bool_decide (created_seq s ∈ v) | None => true end.

(** [visible.is_some() || !collapsed.contains(&s.created_seq)]. *)
Definition is_expanded (collapsed : gset Z) (visible : option (gset Z)) (s : Stream) : bool :=
  bool_decide (is_Some visible) || negb (bool_decide (created_seq s ∈ collapsed)).

(** [ids.iter().filter_map(|&id| index.by_id(id))]. *)
Fixpoint resolve_ids (ids : list StreamId) : request (list Stream) :=
  match ids with
  | [] => reply []
  | id :: ids' =>
      let! s := index_by_id id in
      let! rest := resolve_ids ids' in
      reply (match s with Some s => s :: rest | None => rest end)
  end.

(** The visible streams of [ids], sorted: the roots' and the children's pipeline. *)
Definition visible_siblings (o : Sort) (visible : option (gset Z)) (ids : list StreamId) : request (list Stream) :=
  let! found := resolve_ids ids in
  reply (sort_siblings o (filter (fun s => shown visible s = true) found)).

Section Tree.
Context (o : Sort) (collapsed : gset Z) (visible : option (gset Z)).

(** The loop over the children; [push] is the recursive call. *)
Fixpoint push_children (push : Stream -> string -> list TreeRow -> request (list TreeRow)) (bare : string)
    (kids : list Stream) (rows : list TreeRow) : request (list TreeRow) :=
  match kids with
  | [] => reply rows
  | child :: rest =>
      if MAX_ROWS <=? blen rows then reply rows
      else
        let branch := match rest with [] => ELBOW | _ => TEE end in
        let! rows := push child (bare +:+ branch) rows in
        push_children push bare rest rows
  end.

(** [push_subtree], appending to [rows]; fuel bounds the depth. *)
Fixpoint push_subtree (fuel : nat) (s : Stream) (prefix : string) (rows : list TreeRow)
    : request (list TreeRow) :=
  match fuel with
  | O => fun _ => None
  | S fuel' =>
      if MAX_ROWS <=? blen rows then reply rows
      else
        let! kids := visible_siblings o visible (children s) in
        let expanded := is_expanded collapsed visible s in
        let rows := rows ++ [mkTreeRow s prefix (bool_decide (kids <> [])) expanded] in
        if negb expanded then reply rows
        else push_children (push_subtree fuel') (bare_prefix prefix) kids rows
  end.

(** The loop over the roots. *)
Fixpoint push_roots (fuel : nat) (roots : list Stream) (rows : list TreeRow) : request (list TreeRow) :=
  match roots with
  | [] => reply rows
  | root :: rest =>
      if MAX_ROWS <=? blen rows then reply rows
      else
        let! rows := push_subtree fuel root "" rows in
        push_roots fuel rest rows
  end.
End Tree.

Section Flatten.
Context `{Env : ViewEnv}.

(** Every level down is a younger stream: one more than the streams is enough
    fuel. *)
Definition flatten (o : Sort) (collapsed : gset Z) (query : option string) : request (list TreeRow) :=
  let! sets := spec_sets query in
  let visible := snd <$> sets in
  fun ix =>
    let snapshot := ix_snap ix in
    (let! roots := visible_siblings o visible (sn_roots snapshot) in
     push_roots o collapsed visible (S (length (sn_streams snapshot))) roots []) ix.
End Flatten.
