(* ===== verification/TreeProps.v ===== *)
(** * What the tree pane shows

    A flatten is the first [MAX_ROWS] rows of an uncapped preorder walk
    ([browse]), and that walk lists every browsable stream - shown itself, and
    below ancestors that are all shown and expanded - exactly once, under its
    parent, with one glyph of prefix per ancestor.  With a query the rows are the
    visible set. *)

From stdpp Require Import relations.
From S2P Require Import Prelude.
From S2P Require Import Values.
From S2P Require Import Types.
From S2P Require Import Contract.
From S2P Require Import Samples.
From S2P Require Import Engine.
From S2P Require Import Arena.
From S2P Require Import Store.
From S2P Require Import StoreInv.
From S2P Require Import StoreKeys.
From S2P Require Import StoreHeaps.
From S2P Require Import StoreIngest.
From S2P Require Import Queries.
From S2P Require Import StoreProps.
From S2P Require Import Text.
From S2P Require Import Fmt.
From S2P Require Import StreamView.
From S2P Require Import Query.
From S2P Require Import QueryLex.
From S2P Require Import Snapshots.
From S2P Require Import ViewIndex.
From S2P Require Import ViewIndexProps.
From S2P Require Import Tree.

(** ** Prefixes *)

(** The pieces a prefix is made of. *)
Inductive Glyph := G_Tee | G_Elbow | G_Bar | G_Gap.

Definition glyph_text (g : Glyph) : string :=
  match g with G_Tee => TEE | G_Elbow => ELBOW | G_Bar => BAR | G_Gap => GAP end.

Definition render (gs : list Glyph) : string := foldr (fun g s => glyph_text g +:+ s) ""%string gs.

(** What stands under a branch. *)
Definition continue (g : Glyph) : Glyph :=
  match g with G_Tee => G_Bar | G_Elbow => G_Gap | g => g end.

Lemma render_snoc gs g : render (gs ++ [g]) = render gs +:+ glyph_text g.
Proof.
  induction gs as [|h gs IH]; simpl; [by destruct g|].
  rewrite IH. by destruct h.
Qed.

#[local] Ltac push_empty := repeat change (""%string +:+ ?s) with s.

Lemma replace_tee gs :
  replace TEE BAR (render gs) = render ((fun g => match g with G_Tee => G_Bar | g => g end) <$> gs).
Proof. unfold replace. induction gs as [|[] gs IH]; [done|..]; simpl; push_empty; by rewrite IH. Qed.

Lemma replace_elbow gs :
  replace ELBOW GAP (render gs) = render ((fun g => match g with G_Elbow => G_Gap | g => g end) <$> gs).
Proof. unfold replace. induction gs as [|[] gs IH]; [done|..]; simpl; push_empty; by rewrite IH. Qed.

Lemma bare_render gs : bare_prefix (render gs) = render (continue <$> gs).
Proof.
  unfold bare_prefix. rewrite replace_tee, replace_elbow, <- list_fmap_compose.
  f_equal. apply list_fmap_ext. intros i g _. by destruct g.
Qed.

(** ** The forest of a snapshot *)

Record snapshot_forest (snap : AggregatorSnapshot) : Prop := mkForest {
  sf_ok : snapshot_ok snap;
  sf_child s c : s ∈ sn_streams snap -> c ∈ children s ->
    exists cs, cs ∈ sn_streams snap /\ st_id cs = c /\ parent cs = Some (st_id s);
  sf_listed s p : s ∈ sn_streams snap -> p ∈ sn_streams snap -> parent s = Some (st_id p) ->
    st_id s ∈ children p;
  sf_once s : s ∈ sn_streams snap -> NoDup (children s);
  sf_roots id : id ∈ sn_roots snap <-> exists s, s ∈ sn_streams snap /\ st_id s = id /\ parent s = None;
  sf_roots_once : NoDup (sn_roots snap);
}.

Lemma readable_snapshot_forest `{Hasher} a : readable a -> snapshot_forest (snapshot a).
Proof.
  intros Ha. pose proof Ha as [[[F1 _ _] [L1 L2 L3] [R1 R2] _] _].
  split; [by apply readable_snapshot_ok|..]; simpl; try done.
  - intros s c [id Hs]%elem_of_sort_by%elem_of_streams Hc.
    destruct (L2 _ _ _ Hs Hc) as (cs & Hcs & Hp). exists cs. rewrite (F1 _ _ Hs).
    split; [|split; [by eapply F1|done]]. apply elem_of_sort_by, elem_of_streams. by exists c.
  - intros s p [i Hs]%elem_of_sort_by%elem_of_streams [j Hp]%elem_of_sort_by%elem_of_streams Hpar.
    rewrite (F1 _ _ Hp) in Hpar. destruct (L1 _ _ _ Hs Hpar) as (ps & Hps & Hin & _).
    rewrite (F1 _ _ Hs). by replace p with ps by congruence.
  - intros s [i Hs]%elem_of_sort_by%elem_of_streams. by eapply L3.
  - intros id. rewrite R1. split.
    + intros (s & Hs & Hp). exists s. split; [|split; [by eapply F1|done]].
      apply elem_of_sort_by, elem_of_streams. by exists id.
    + intros (s & [i Hs]%elem_of_sort_by%elem_of_streams & <- & Hp). exists s. by rewrite (F1 _ _ Hs).
Qed.

Lemma store_snapshot_forest `{Hasher} a : store_ok a -> snapshot_forest (snapshot a).
Proof. intros Ha. by apply readable_snapshot_forest, store_readable. Qed.

(** ** The uncapped walk *)

#[local] Opaque MAX_ROWS.

Definition capped {A} (l : list A) : list A := take (Z.to_nat MAX_ROWS) l.

Lemma MAX_ROWS_nonneg : 0 <= MAX_ROWS.
Proof. by vm_compute. Qed.

Lemma capped_full {A} (l k : list A) : blen l <= MAX_ROWS -> MAX_ROWS <= blen l -> capped (l ++ k) = l.
Proof.
  unfold capped, blen. intros. replace (Z.to_nat MAX_ROWS) with (length l) by lia. by rewrite take_app_length.
Qed.

Lemma capped_app {A} (l k : list A) : capped (capped l ++ k) = capped (l ++ k).
Proof.
  unfold capped. set (n := Z.to_nat MAX_ROWS). destruct (decide (n <= length l)%nat).
  - rewrite !take_app_le by (rewrite ?length_take; lia). by rewrite take_take, Nat.min_id.
  - by rewrite (take_ge l) by lia.
Qed.

Lemma capped_le {A} (l : list A) : blen (capped l) <= MAX_ROWS.
Proof. unfold capped, blen. rewrite length_take. pose proof MAX_ROWS_nonneg. lia. Qed.

Lemma capped_short {A} (l : list A) : blen l <= MAX_ROWS -> capped l = l.
Proof. unfold capped, blen. intros. rewrite take_ge by lia. done. Qed.

Section Walk.
Context (snap : AggregatorSnapshot) (Hsnap : snapshot_forest snap).
Context (o : Sort) (collapsed : gset Z) (visible : option (gset Z)).

Abbreviation ss := (sn_streams snap) (only parsing).
Abbreviation opened := (is_expanded collapsed visible) (only parsing).

Let Hok : snapshot_ok snap := sf_ok _ Hsnap.

(** The visible streams of [ids] in sibling order. *)
Definition siblings (ids : list StreamId) : list Stream :=
  sort_siblings o (filter (fun s => shown visible s = true) (omap (fun id => by_id snap !! id) ids)).

Fixpoint branches (sub : list Glyph -> Stream -> list TreeRow) (gs : list Glyph) (kids : list Stream)
    : list TreeRow :=
  match kids with
  | [] => []
  | child :: rest =>
      sub (gs ++ [match rest with [] => G_Elbow | _ => G_Tee end]) child ++ branches sub gs rest
  end.

Fixpoint subtree (fuel : nat) (gs : list Glyph) (s : Stream) : list TreeRow :=
  match fuel with
  | O => []
  | S fuel' =>
      let kids := siblings (children s) in
      mkTreeRow s (render gs) (bool_decide (kids <> [])) (opened s) ::
      (if opened s then branches (subtree fuel') (continue <$> gs) kids else [])
  end.

Definition browse : list TreeRow :=
  siblings (sn_roots snap) ≫= subtree (S (length ss)) [].

(** *** The capped walk is a prefix of it *)

Context `{Env : ViewEnv}.

Lemma answers_seq {A B} (m : request A) (k : A -> request B) a r :
  answers snap m (Some a) -> answers snap (k a) r -> answers snap (and_request m k) r.
Proof.
  intros Hm Hk. apply (answers_bind snap m k (Some a) (fun _ => r)); [done|]. by intros b [= <-].
Qed.

Lemma answers_at_id id : answers snap (index_by_id id) (Some (by_id snap !! id)).
Proof.
  destruct (answers_index_by_id snap Hok id) as (p & Hp & Hspec).
  replace (by_id snap !! id) with p; [done|]. apply option_eq. intros s.
  by rewrite Hspec, by_id_lookup.
Qed.

Lemma answers_resolve ids :
  answers snap (resolve_ids ids) (Some (omap (fun id => by_id snap !! id) ids)).
Proof.
  induction ids as [|id ids IH]; [apply answers_reply|]. cbn [resolve_ids].
  eapply answers_seq; [apply answers_at_id|]. eapply answers_seq; [exact IH|].
  cbn [omap list_omap]. destruct (by_id snap !! id); apply answers_reply.
Qed.

Lemma answers_siblings ids : answers snap (visible_siblings o visible ids) (Some (siblings ids)).
Proof. eapply answers_seq; [apply answers_resolve|]. apply answers_reply. Qed.

(** Pushing rows appends them and keeps the first [MAX_ROWS]. *)
Definition pushes (m : list TreeRow -> request (list TreeRow)) (new : list TreeRow) : Prop :=
  forall rows, blen rows <= MAX_ROWS -> answers snap (m rows) (Some (capped (rows ++ new))).

Lemma pushes_full m new :
  (forall rows, blen rows < MAX_ROWS -> answers snap (m rows) (Some (capped (rows ++ new)))) ->
  pushes (fun rows => if MAX_ROWS <=? blen rows then reply rows else m rows) new.
Proof.
  intros Hm rows Hrows. destruct (Z.leb_spec MAX_ROWS (blen rows)) as [Hfull|]; [|by apply Hm].
  rewrite capped_full by done. apply answers_reply.
Qed.

Lemma pushes_seq m k new rest :
  pushes m new -> pushes k rest -> pushes (fun rows => and_request (m rows) k) (new ++ rest).
Proof.
  intros Hm Hk rows Hrows. eapply answers_seq; [by apply Hm|].
  rewrite app_assoc, <- (capped_app (rows ++ new) rest). apply Hk, capped_le.
Qed.

Lemma pushes_nil : pushes reply [].
Proof. intros rows Hrows. rewrite app_nil_r, capped_short by done. apply answers_reply. Qed.

Lemma pushes_children push sub gs kids :
  (forall gs' child, child ∈ kids -> pushes (push child (render gs')) (sub gs' child)) ->
  pushes (push_children push (render gs) kids) (branches sub gs kids).
Proof.
  induction kids as [|child rest IH]; intros Hpush; [apply pushes_nil|].
  cbn [push_children branches]. apply pushes_full. intros rows Hrows.
  apply (pushes_seq (push child _) (push_children push (render gs) rest)); [| |lia].
  - replace (match rest with [] => ELBOW | _ => TEE end)
      with (glyph_text (match rest with [] => G_Elbow | _ => G_Tee end)) by by destruct rest.
    rewrite <- render_snoc. apply Hpush. by left.
  - apply IH. intros. apply Hpush. by right.
Qed.

(** The younger streams: what is left below [s]. *)
Definition younger (s : Stream) : nat := length (filter (fun t => created_seq s < created_seq t) ss).

Lemma younger_lt s c : c ∈ ss -> created_seq s < created_seq c -> (younger c < younger s)%nat.
Proof.
  intros Hc Hlt. unfold younger. induction ss as [|t l IH]; [by apply elem_of_nil in Hc|].
  assert (length (filter (fun t => (created_seq c < created_seq t)%Z) l)
          <= length (filter (fun t => (created_seq s < created_seq t)%Z) l))%nat as Hle.
  { clear -Hlt. induction l as [|x l IH]; [done|]. rewrite !filter_cons. repeat case_decide; simpl; lia. }
  rewrite !filter_cons. apply elem_of_cons in Hc as [->|Hc].
  - rewrite decide_False, decide_True by lia. simpl. lia.
  - specialize (IH Hc). repeat case_decide; simpl; lia.
Qed.

Lemma elem_of_siblings ids s :
  s ∈ siblings ids <-> s ∈ ss /\ st_id s ∈ ids /\ shown visible s = true.
Proof.
  unfold siblings, sort_siblings. rewrite elem_of_sort_by, list_elem_of_filter, list_elem_of_omap. split.
  - intros (Hs & id & Hid & [Hin <-]%by_id_lookup); [done|apply Hok].
  - intros (Hs & Hid & Hshown). split; [done|]. exists (st_id s). split; [done|].
    by apply by_id_lookup; [apply Hok|].
Qed.

Lemma elem_of_kids s c : s ∈ ss ->
  c ∈ siblings (children s) <-> c ∈ ss /\ parent c = Some (st_id s) /\ shown visible c = true.
Proof.
  intros Hs. rewrite elem_of_siblings. split; intros (Hc & Hpar & Hv); (split; [done|]); (split; [|done]).
  - destruct (sf_child _ Hsnap s _ Hs Hpar) as (cs & Hcs & Hid & Hp).
    by rewrite (id_inj snap Hok c cs).
  - by apply (sf_listed _ Hsnap).
Qed.

Lemma parent_older s c p : c ∈ ss -> s ∈ ss -> parent c = Some p -> st_id s = p -> created_seq s < created_seq c.
Proof.
  intros Hc Hs Hp <-. apply (aged_parent _ (by_id_aged snap Hok) (st_id c) c (st_id s) s); [|done|].
  all: by apply by_id_lookup; [apply Hok|].
Qed.

Lemma pushes_subtree fuel gs s :
  s ∈ ss -> (younger s < fuel)%nat ->
  pushes (push_subtree o collapsed visible fuel s (render gs)) (subtree fuel gs s).
Proof.
  revert gs s. induction fuel as [|fuel IH]; intros gs s Hs Hfuel; [lia|].
  cbn [push_subtree subtree]. cbv zeta. apply pushes_full. intros rows Hrows.
  eapply answers_seq; [apply answers_siblings|]. cbn beta.
  set (row := mkTreeRow s (render gs) (bool_decide (siblings (children s) <> [])) (opened s)).
  assert (blen (rows ++ [row]) <= MAX_ROWS) as Hrow by (rewrite blen_app; change (blen [row]) with 1; lia).
  destruct (opened s); cbn [negb].
  - rewrite bare_render, (cons_middle row rows (branches _ _ _)), app_assoc.
    refine (pushes_children _ (subtree fuel) (continue <$> gs) _ _ _ Hrow).
    intros gs' c Hc%elem_of_kids; [|done].
    destruct Hc as (Hc & Hp & _). apply IH; [done|].
    pose proof (younger_lt s c Hc (parent_older s c _ Hc Hs Hp eq_refl)). lia.
  - rewrite capped_short by done. apply answers_reply.
Qed.

Lemma younger_le s : (younger s <= length ss)%nat.
Proof. unfold younger. apply length_filter. Qed.

Lemma pushes_roots roots :
  (forall s, s ∈ roots -> s ∈ ss) ->
  pushes (push_roots o collapsed visible (S (length ss)) roots) (roots ≫= subtree (S (length ss)) []).
Proof.
  induction roots as [|r rest IH]; intros Hin; [apply pushes_nil|].
  cbn [push_roots mbind list_bind]. apply pushes_full. intros rows Hrows.
  apply (pushes_seq (push_subtree o collapsed visible (S (length ss)) r (render []))
    (push_roots o collapsed visible (S (length ss)) rest)); [| |lia].
  - apply pushes_subtree; [apply Hin; by left|]. pose proof (younger_le r). lia.
  - apply IH. intros. apply Hin. by right.
Qed.

(** *** Which streams it lists *)

(** [c] is listed directly under [p]. *)
Definition hangs (p c : Stream) : Prop := opened p = true /\ c ∈ siblings (children p).

Lemma hangs_older p c : p ∈ ss -> hangs p c -> c ∈ ss /\ parent c = Some (st_id p) /\ created_seq p < created_seq c.
Proof.
  intros Hp [_ Hc]. apply elem_of_kids in Hc as (Hc & Hpar & _); [|done].
  split; [done|]. split; [done|]. by eapply parent_older.
Qed.

Lemma hangs_in p c : p ∈ ss -> rtc hangs p c -> c ∈ ss /\ created_seq p <= created_seq c.
Proof.
  intros Hp Hr. induction Hr as [|p q c Hpq Hr IH]; [done|].
  destruct (hangs_older p q Hp Hpq) as (Hq & _ & Hlt). destruct (IH Hq). split; [done|lia].
Qed.

Lemma same_parent p q c : p ∈ ss -> q ∈ ss -> parent c = Some (st_id p) -> parent c = Some (st_id q) -> p = q.
Proof.
  intros Hp Hq H1 H2. rewrite H1 in H2. injection H2 as Hid. by apply (id_inj snap Hok).
Qed.

(** Two streams above one are one above the other. *)
Lemma hangs_linear p q c : p ∈ ss -> q ∈ ss -> rtc hangs p c -> rtc hangs q c -> rtc hangs p q \/ rtc hangs q p.
Proof.
  intros Hp Hq Hpc. revert c Hpc. refine (rtc_ind_r (fun c => rtc hangs q c -> _) p _ _); [by right|].
  intros x c Hpx Hxc IH Hqc. apply rtc_inv_r in Hqc as [<-|(y & Hqy & Hyc)].
  - left. by apply rtc_r with x.
  - destruct (hangs_in p x Hp Hpx) as [Hx _], (hangs_in q y Hq Hqy) as [Hy _].
    destruct (hangs_older x c Hx Hxc) as (_ & H1 & _), (hangs_older y c Hy Hyc) as (_ & H2 & _).
    apply IH. by rewrite (same_parent x y c Hx Hy H1 H2).
Qed.

Lemma siblings_apart p q : p ∈ ss -> q ∈ ss -> parent p = parent q -> rtc hangs p q -> p = q.
Proof.
  intros Hp Hq Hpar Hr. apply rtc_inv_r in Hr as [->|(x & Hpx & Hxq)]; [done|].
  destruct (hangs_in p x Hp Hpx) as [Hx Hle]. destruct (hangs_older x q Hx Hxq) as (_ & Hqx & Hlt).
  rewrite <- Hpar in Hqx. pose proof (parent_older x p _ Hp Hx Hqx eq_refl). lia.
Qed.

Abbreviation listed rows := (tr_stream <$> rows) (only parsing).

Lemma elem_of_branches sub gs kids t (P : Stream -> Prop) :
  (forall gs' child, child ∈ kids -> t ∈ listed (sub gs' child) <-> P child) ->
  t ∈ listed (branches sub gs kids) <-> exists child, child ∈ kids /\ P child.
Proof.
  induction kids as [|child rest IH]; intros Hsub; simpl.
  - split; [by intros ?%elem_of_nil|]. by intros (? & ?%elem_of_nil & _).
  - rewrite fmap_app, elem_of_app, Hsub, IH by (intros; apply Hsub; by right) || by left.
    setoid_rewrite elem_of_cons. split.
    + intros [?|(c & ? & ?)]; [exists child|exists c]; auto.
    + intros (c & [->|?] & ?); [by left|right; eauto].
Qed.

Lemma elem_of_subtree fuel gs s t :
  s ∈ ss -> (younger s < fuel)%nat -> t ∈ listed (subtree fuel gs s) <-> rtc hangs s t.
Proof.
  revert gs s. induction fuel as [|fuel IH]; intros gs s Hs Hfuel; [lia|].
  cbn [subtree fmap list_fmap]. cbv zeta. rewrite elem_of_cons. cbn [tr_stream].
  assert (forall c, hangs s c -> forall gs', t ∈ listed (subtree fuel gs' c) <-> rtc hangs c t) as Hkid.
  { intros c Hc gs'. destruct (hangs_older s c Hs Hc) as (Hcs & _ & Hlt). apply IH; [done|].
    pose proof (younger_lt s c Hcs Hlt). lia. }
  destruct (opened s) eqn:Hopen.
  - rewrite (elem_of_branches _ _ _ _ (fun c => rtc hangs c t)) by (intros; by apply Hkid).
    split.
    + intros [->|(c & Hc & Hr)]; [done|]. by apply rtc_l with c.
    + intros [->|(c & [_ Hc] & Hr)]%rtc_inv; [by left|]. right. by exists c.
  - split; [intros [->|?%elem_of_nil]; done|].
    intros [->|(c & [Hop _] & _)]%rtc_inv; [by left|congruence].
Qed.

Lemma NoDup_branches sub gs kids :
  NoDup kids -> (forall gs' child, child ∈ kids -> NoDup (listed (sub gs' child))) ->
  (forall t c1 c2 gs1 gs2, c1 ∈ kids -> c2 ∈ kids ->
    t ∈ listed (sub gs1 c1) -> t ∈ listed (sub gs2 c2) -> c1 = c2) ->
  NoDup (listed (branches sub gs kids)).
Proof.
  induction kids as [|c rest IH]; intros Hnd Hsub Hapart; [constructor|].
  apply NoDup_cons in Hnd as [Hc Hnd]. simpl. rewrite fmap_app. apply NoDup_app.
  split; [apply Hsub; by left|]. split.
  - intros t Ht Hrest.
    assert (exists c', c' ∈ rest /\ exists gs', t ∈ listed (sub gs' c')) as (c' & Hc' & gs' & Ht').
    { clear -Hrest. induction rest as [|d rest IH]; simpl in Hrest; [by apply elem_of_nil in Hrest|].
      rewrite fmap_app, elem_of_app in Hrest. setoid_rewrite elem_of_cons.
      destruct Hrest as [?|Hr]; [eauto|]. destruct (IH Hr) as (? & ? & ?). eauto. }
    assert (c = c') as <-; [|done]. eapply Hapart; [by left|by right|done|done].
  - apply IH; [done|intros; apply Hsub; by right|]. intros. eapply Hapart; [by right|by right|done|done].
Qed.

Lemma resolved_once ids : NoDup ids -> NoDup (omap (fun id => by_id snap !! id) ids).
Proof.
  induction 1 as [|id ids Hid Hnd IH]; [constructor|]. cbn [omap list_omap].
  destruct (by_id snap !! id) as [s|] eqn:Hs; [|done]. apply NoDup_cons. split; [|done].
  intros (j & Hj & Hs')%list_elem_of_omap.
  apply by_id_lookup in Hs as [_ <-]; [|apply Hok]. apply by_id_lookup in Hs' as [_ <-]; [done|apply Hok].
Qed.

Lemma NoDup_siblings ids : NoDup ids -> NoDup (siblings ids).
Proof.
  intros Hnd. unfold siblings, sort_siblings. rewrite sort_by_Permutation. apply NoDup_filter.
  by apply resolved_once.
Qed.

Lemma NoDup_subtree fuel gs s : s ∈ ss -> (younger s < fuel)%nat -> NoDup (listed (subtree fuel gs s)).
Proof.
  revert gs s. induction fuel as [|fuel IH]; intros gs s Hs Hfuel; [lia|].
  assert (forall c, c ∈ siblings (children s) ->
    c ∈ ss /\ parent c = Some (st_id s) /\ created_seq s < created_seq c /\ (younger c < fuel)%nat) as Hkid.
  { intros c Hc%elem_of_kids; [|done]. destruct Hc as (Hc & Hpar & _).
    pose proof (parent_older s c _ Hc Hs Hpar eq_refl) as Hlt. pose proof (younger_lt s c Hc Hlt). lia || auto with lia. }
  cbn [subtree fmap list_fmap]. cbv zeta. cbn [tr_stream].
  destruct (opened s); [|apply NoDup_singleton]. apply NoDup_cons. split.
  - rewrite (elem_of_branches _ _ _ _ (fun c => rtc hangs c s)).
    + intros (c & (Hc & _ & Hlt & _)%Hkid & Hr). destruct (hangs_in c s Hc Hr). lia.
    + intros gs' c (Hc & _ & _ & Hf)%Hkid. by apply elem_of_subtree.
  - apply NoDup_branches.
    + by apply NoDup_siblings, (sf_once _ Hsnap).
    + intros gs' c (Hc & _ & _ & Hf)%Hkid. by apply IH.
    + intros t c1 c2 gs1 gs2 (Hc1 & Hp1 & _ & Hf1)%Hkid (Hc2 & Hp2 & _ & Hf2)%Hkid.
      rewrite !elem_of_subtree by done. intros H1 H2.
      destruct (hangs_linear c1 c2 t Hc1 Hc2 H1 H2); [|symmetry]; apply siblings_apart; congruence.
Qed.
(** *** Where it lists them *)

(** Every row of [rows] is a root or hangs from a stream listed before it. *)
Fixpoint placed (above : list Stream) (rows : list TreeRow) : Prop :=
  match rows with
  | [] => True
  | r :: rest =>
      (parent (tr_stream r) = None \/ exists p, p ∈ above /\ hangs p (tr_stream r)) /\
      placed (tr_stream r :: above) rest
  end.

Lemma placed_mono above above' rows : above ⊆ above' -> placed above rows -> placed above' rows.
Proof.
  revert above above'. induction rows as [|r rest IH]; intros above above' Hsub; [done|].
  intros [Hr Hrest]. split.
  - destruct Hr as [?|(p & Hp & Hr)]; [by left|]. right. exists p. auto.
  - eapply IH; [|exact Hrest]. intros x. rewrite !elem_of_cons. intros [?|?]; auto.
Qed.

Lemma placed_app above r1 r2 : placed above r1 -> placed above r2 -> placed above (r1 ++ r2).
Proof.
  revert above. induction r1 as [|r r1 IH]; intros above H1 H2; [done|].
  destruct H1 as [Hr H1]. split; [done|]. apply IH; [done|].
  eapply placed_mono; [|exact H2]. intros x ?. by right.
Qed.

Lemma placed_branches above sub gs kids :
  (forall gs' child, child ∈ kids -> placed above (sub gs' child)) -> placed above (branches sub gs kids).
Proof.
  induction kids as [|c rest IH]; intros Hsub; [done|].
  simpl. apply placed_app; [apply Hsub; by left|]. apply IH. intros. apply Hsub. by right.
Qed.

Lemma placed_subtree fuel above gs s :
  parent s = None \/ (exists p, p ∈ above /\ hangs p s) -> placed above (subtree fuel gs s).
Proof.
  revert above gs s. induction fuel as [|fuel IH]; intros above gs s Hs; [done|].
  cbn [subtree placed]. cbv zeta. cbn [tr_stream]. split; [done|].
  destruct (opened s) eqn:Hopen; [|done]. apply placed_branches. intros gs' c Hc. apply IH.
  right. exists s. split; [by left|done].
Qed.

(** One glyph of prefix per ancestor. *)
Definition indented (r : TreeRow) : Prop :=
  exists gs, tr_prefix r = render gs /\ length gs = length (ancestors (tr_stream r) (by_id snap)).

Lemma ancestors_root s : parent s = None -> ancestors s (by_id snap) = [].
Proof. intros Hp. unfold ancestors. rewrite Hp. by destruct (size _). Qed.

Lemma ancestors_kid s c : s ∈ ss -> c ∈ ss -> parent c = Some (st_id s) ->
  ancestors c (by_id snap) = s :: ancestors s (by_id snap).
Proof.
  intros Hs Hc Hp. eapply Lineage_det; [by apply (ancestors_of snap Hok)|]. rewrite Hp.
  apply Lineage_step; [by apply by_id_lookup; [apply Hok|]|by apply (ancestors_of snap Hok)].
Qed.

Lemma Forall_branches (P : TreeRow -> Prop) sub gs kids n :
  length gs = n -> (forall gs' child, length gs' = S n -> child ∈ kids -> Forall P (sub gs' child)) ->
  Forall P (branches sub gs kids).
Proof.
  intros Hgs. induction kids as [|c rest IH]; intros Hsub; [constructor|].
  simpl. apply Forall_app. split.
  - apply Hsub; [rewrite length_app; simpl; lia|by left].
  - apply IH. intros. apply Hsub; [done|by right].
Qed.

Lemma indented_subtree fuel gs s :
  s ∈ ss -> length gs = length (ancestors s (by_id snap)) -> Forall indented (subtree fuel gs s).
Proof.
  revert gs s. induction fuel as [|fuel IH]; intros gs s Hs Hgs; [constructor|].
  cbn [subtree]. cbv zeta. constructor; [by exists gs|]. destruct (opened s); [|constructor].
  apply (Forall_branches _ _ _ _ (length gs)); [by rewrite length_fmap|].
  intros gs' c Hlen Hc%elem_of_kids; [|done]. destruct Hc as (Hc & Hp & _).
  apply IH; [done|]. rewrite (ancestors_kid s c) by done. simpl. lia.
Qed.

(** *** What a stream needs to be listed *)

(** It is shown, and its ancestors are shown and expanded. *)
Definition browsable (t : Stream) : Prop :=
  shown visible t = true /\
  Forall (fun a => shown visible a = true /\ opened a = true) (ancestors t (by_id snap)).

Lemma elem_of_tops s : s ∈ siblings (sn_roots snap) <-> s ∈ ss /\ parent s = None /\ shown visible s = true.
Proof.
  rewrite elem_of_siblings, (sf_roots _ Hsnap). split.
  - intros (Hs & (t & Ht & Hid & Hp) & Hv). split; [done|]. split; [|done].
    by rewrite <- (id_inj snap Hok t s).
  - intros (Hs & Hp & Hv). split; [done|]. split; [|done]. by exists s.
Qed.

Lemma browsable_hangs t :
  t ∈ ss -> (exists r, r ∈ siblings (sn_roots snap) /\ rtc hangs r t) <-> browsable t.
Proof.
  intros Ht. split.
  - intros (r & (Hr & Hp & Hv)%elem_of_tops & Hrt). clear Ht.
    refine (rtc_ind_r browsable r _ _ t Hrt).
    + split; [done|]. by rewrite ancestors_root.
    + intros p c Hrp Hpc [Hpv Hpa]. destruct (hangs_in r p Hr Hrp) as [Hps _].
      destruct (hangs_older p c Hps Hpc) as (Hcs & Hcp & _). destruct Hpc as [Hop Hc].
      split; [apply elem_of_kids in Hc as (_ & _ & ?); done|].
      rewrite (ancestors_kid p c) by done. by constructor.
  - intros [Hv Ha]. pose proof (ancestors_of snap Hok t Ht) as Hl.
    remember (ancestors t (by_id snap)) as l eqn:E. clear E. revert t Ht Hv Hl.
    induction Ha as [|p l [Hpv Hop] Ha IH]; intros t Ht Hv Hl; inversion Hl as [p' Hend|pid s l' Hs Hl']; subst.
    + exists t. split; [|done]. apply elem_of_tops. split; [done|]. split; [|done].
      destruct (parent t) as [pid|] eqn:Hp; [|done].
      destruct (so_parents _ Hok t pid Ht Hp) as (ps & Hps & <- & _). exfalso.
      assert (by_id snap !! st_id ps = Some ps) as Hb by (by apply by_id_lookup; [apply Hok|]).
      simpl in Hend. congruence.
    + apply by_id_lookup in Hs as [Hps Hid]; [|apply Hok].
      destruct (IH p Hps Hpv Hl') as (r & Hr & Hrp). exists r. split; [done|].
      apply rtc_r with p; [done|]. split; [done|]. apply elem_of_kids; [done|]. by rewrite Hid.
Qed.
(** *** The whole walk *)

Lemma listed_browse : listed browse = siblings (sn_roots snap) ≫= (fun r => listed (subtree (S (length ss)) [] r)).
Proof. unfold browse. induction (siblings (sn_roots snap)) as [|r l IH]; [done|].
  rewrite !bind_cons, fmap_app. f_equal. exact IH.
Qed.

Lemma tops_in r : r ∈ siblings (sn_roots snap) -> r ∈ ss /\ parent r = None /\ (younger r < S (length ss))%nat.
Proof. intros (Hr & Hp & _)%elem_of_tops. pose proof (younger_le r). auto with lia. Qed.

Lemma elem_of_browse t : t ∈ listed browse <-> t ∈ ss /\ browsable t.
Proof.
  rewrite listed_browse, list_elem_of_bind.
  assert (forall r, r ∈ siblings (sn_roots snap) -> t ∈ listed (subtree (S (length ss)) [] r) <-> rtc hangs r t) as Hsub.
  { intros r (Hr & _ & Hf)%tops_in. by apply elem_of_subtree. }
  split.
  - intros (r & Ht & Hr). apply Hsub in Ht; [|done]. destruct (tops_in r Hr) as (Hrs & _).
    destruct (hangs_in r t Hrs Ht). split; [done|]. apply browsable_hangs; eauto.
  - intros [Ht (r & Hr & Hrt)%browsable_hangs]; [|done]. exists r. split; [by apply Hsub|done].
Qed.

Lemma NoDup_browse : NoDup (listed browse).
Proof.
  rewrite listed_browse. apply NoDup_bind.
  - intros r1 r2 t Hr1 Hr2. destruct (tops_in r1 Hr1) as (H1 & P1 & F1), (tops_in r2 Hr2) as (H2 & P2 & F2).
    rewrite !elem_of_subtree by done. intros T1 T2.
    destruct (hangs_linear r1 r2 t H1 H2 T1 T2); [|symmetry]; apply siblings_apart; congruence.
  - intros r (Hr & _ & Hf)%tops_in. by apply NoDup_subtree.
  - by apply NoDup_siblings, sf_roots_once.
Qed.

Lemma browse_placed : placed [] browse.
Proof.
  unfold browse. pose proof tops_in as Htops. induction (siblings (sn_roots snap)) as [|r l IH]; [done|].
  cbn [mbind list_bind]. apply placed_app; [|apply IH; intros; apply Htops; by right].
  apply placed_subtree. left. by apply Htops; left.
Qed.

Lemma browse_indented : Forall indented browse.
Proof.
  unfold browse. pose proof tops_in as Htops. induction (siblings (sn_roots snap)) as [|r l IH]; [constructor|].
  cbn [mbind list_bind]. apply Forall_app. split; [|apply IH; intros; apply Htops; by right].
  destruct (Htops r ltac:(by left)) as (Hr & Hp & _). apply indented_subtree; [done|].
  by rewrite ancestors_root.
Qed.
End Walk.

(** ** The theorem *)

Section Browse.
Context `{Env : ViewEnv} (snap : AggregatorSnapshot) (Hsnap : snapshot_forest snap).

Lemma answers_flatten o collapsed query :
  answers snap (flatten o collapsed query)
    (sets ← spec_sets_of snap query; Some (capped (browse snap o collapsed (snd <$> sets)))).
Proof.
  pose proof (sf_ok _ Hsnap) as Hok.
  apply answers_bind; [by apply answers_spec_sets|]. intros sets _ ix Hix.
  cbv beta zeta. rewrite (co_snap _ _ Hix). revert ix Hix.
  change (answers snap (let! roots := visible_siblings o (snd <$> sets) (sn_roots snap) in
    push_roots o collapsed (snd <$> sets) (S (length (sn_streams snap))) roots [])
    (Some (capped (browse snap o collapsed (snd <$> sets))))).
  eapply answers_seq; [by apply answers_siblings|].
  refine (pushes_roots snap Hsnap o collapsed (snd <$> sets) _ _ [] MAX_ROWS_nonneg).
  by intros s (Hs & _)%elem_of_siblings.
Qed.

(** With a query, everything visible is browsable. *)
Lemma visible_browsable o collapsed query sets n :
  spec_sets_of snap query = Some (Some sets) ->
  n ∈ sets.2 <-> exists s, s ∈ tr_stream <$> browse snap o collapsed (Some sets.2) /\ created_seq s = n.
Proof.
  intros Hsets. pose proof (sf_ok _ Hsnap) as Hok.
  assert (exists q, sets.2 = matching_with_ancestors (sn_streams snap) (by_id snap) q) as [q Hq].
  { destruct query as [raw|]; [|done]. simpl in Hsets. destruct (blank raw); [done|]. unfold fresh_sets in Hsets.
    destruct (StreamQuery_parse raw) as [[q|]| |]; simplify_eq. by exists q. }
  setoid_rewrite (elem_of_browse snap Hsnap). split.
  - rewrite Hq at 1. intros (s & Hs & Hm & Hn)%matching_with_ancestors_spec; [|done].
    pose proof (ancestors_of snap Hok s Hs) as Hl.
    assert (forall x, x = s \/ x ∈ ancestors s (by_id snap) -> created_seq x ∈ sets.2) as Hin.
    { intros x Hx. rewrite Hq. apply matching_with_ancestors_spec; [done|]. exists s.
      split; [done|]. split; [done|]. destruct Hx as [->|?]; [by left|right; eauto]. }
    assert (exists t, (t = s \/ t ∈ ancestors s (by_id snap)) /\ created_seq t = n) as (t & Ht & <-)
      by (destruct Hn as [->|(x & Hx & ->)]; eauto).
    exists t. split; [|done].
    assert (t ∈ sn_streams snap) as Hts by (destruct Ht as [->|Ht]; [done|by eapply lineage_in_snapshot]).
    split; [done|]. split; [by apply bool_decide_eq_true, Hin|].
    apply Forall_forall. intros a Ha. split; [|done]. apply bool_decide_eq_true.
    destruct Ht as [->|Ht]; [apply Hin; by right|].
    assert (created_seq a ∈ seqs_of (ancestors s (by_id snap))) as (x & Hx & <-)%elem_of_seqs.
    { eapply (lineage_suffix snap Hok); [exact Hl|exact Ht|by apply (ancestors_of snap Hok)|].
      apply elem_of_seqs. eauto. }
    apply Hin. by right.
  - intros (s & (Hs & Hv & _) & <-). by apply bool_decide_eq_true in Hv.
Qed.
End Browse.

Section Client.
Context `{Env : ViewEnv} `{Hasher}.

(** C28: The tree pane over the snapshot of any reachable aggregator: unless evaluating
    the query panics, the rows are the first [MAX_ROWS] of a walk that lists every
    browsable stream exactly once, as a root or below its parent, indented by one
    glyph per ancestor; and with a query the walk lists exactly the visible set. *)
Theorem flatten_exact e c pkts o collapsed query :
  engine_wf e -> config_ok c -> trace_ok pkts ->
  let snap := snapshot (run e c pkts) in
  fst <$> flatten o collapsed query (SnapshotIndex_new snap) =
    (sets ← spec_sets_of snap query; Some (take (Z.to_nat MAX_ROWS) (browse snap o collapsed (snd <$> sets)))) /\
  forall sets, spec_sets_of snap query = Some sets ->
    let visible := snd <$> sets in
    let all := browse snap o collapsed visible in
    NoDup (tr_stream <$> all) /\
    (forall s, s ∈ tr_stream <$> all <-> s ∈ sn_streams snap /\ browsable snap collapsed visible s) /\
    placed snap o collapsed visible [] all /\ Forall (indented snap) all /\
    (forall v n, visible = Some v -> n ∈ v <-> exists s, s ∈ tr_stream <$> all /\ created_seq s = n).
Proof.
  intros He Hc Ht snap. destruct (reached_run False e c pkts He Hc Ht) as (Hs & _); [done|].
  apply store_snapshot_forest in Hs. split; [by apply (answers_fresh snap), answers_flatten|].
  intros sets Hsets visible all. split; [by apply NoDup_browse|]. split; [by apply elem_of_browse|].
  split; [by apply browse_placed|]. split; [by apply browse_indented|].
  intros v n Hv. destruct sets as [sets|]; [|done]. injection Hv as <-. by eapply visible_browsable.
Qed.
End Client.

Lemma flatten_exact_witness :
  let _ := plain_env in
  let snap := snapshot (run store_engine (store_config EvictNone) store_trace) in
  exists rows, fst <$> flatten Sort_Bytes ∅ (Some "leaf"%string) (SnapshotIndex_new snap) = Some rows /\
    tr_prefix <$> rows = [""; TEE; TEE; TEE; ELBOW]%string.
Proof.
  intros env snap. assert (config_ok (store_config EvictNone)) as Hc by done.
  destruct (flatten_exact (Env := env) store_engine (store_config EvictNone) store_trace Sort_Bytes ∅
    (Some "leaf"%string) store_engine_wf Hc store_trace_ok) as [Hw _].
  eexists. split; [etransitivity; [exact Hw|vm_compute; reflexivity]|]. vm_compute. reflexivity.
Defined.
