(* ===== verification/App.v ===== *)
(** * The terminal application

    Models [crates/pktflow-tui/src/app.rs], the state of the full-screen session
    and its transitions on key presses and animation ticks, with what drawing a
    frame does to that state ([ui.rs]) and the event loop that alternates them
    ([lib.rs]).  A key press reads the snapshot through the view index on screen,
    so it is a request on it; [None] is a panic. *)

From Stdlib Require Import SpecFloat.
From S2P Require Import Prelude.
From S2P Require Import Values.
From S2P Require Import Types.
From S2P Require Import Arena.
From S2P Require Import Store.
From S2P Require Import Queries.
From S2P Require Import Text.
From S2P Require Import Fmt.
From S2P Require Import StreamView.
From S2P Require Import Query.
From S2P Require Import ViewIndex.
From S2P Require Import Tree.

(** ** Characters

    The filter box is a [String]: a sequence of [char]s, each a code point. *)

(** [char::encode_utf8]. *)
Definition encode_utf8 (c : Z) : list Z :=
  if c <? 0x80 then [c]
  else if c <? 0x800 then [0xC0 + c / 64; 0x80 + c mod 64]
  else if c <? 0x10000 then [0xE0 + c / 4096; 0x80 + c / 64 mod 64; 0x80 + c mod 64]
  else [0xF0 + c / 262144; 0x80 + c / 4096 mod 64; 0x80 + c / 64 mod 64; 0x80 + c mod 64].

Definition as_str (chars : list Z) : string := text_of (chars ≫= encode_utf8).

(** [char::is_whitespace]. *)
Definition char_is_whitespace (c : Z) : bool :=
  in_range 9 13 c || (c =? 32) || (c =? 0x85) || (c =? 0xA0) || (c =? 0x1680) || in_range 0x2000 0x200A c
  || (c =? 0x2028) || (c =? 0x2029) || (c =? 0x202F) || (c =? 0x205F) || (c =? 0x3000).

Fixpoint trim_start (chars : list Z) : list Z :=
  match chars with
  | [] => []
  | c :: rest => if char_is_whitespace c then trim_start rest else chars
  end.

(** [str::trim]. *)
Definition trim (chars : list Z) : list Z := reverse (trim_start (reverse (trim_start chars))).

(** [String::pop] and [String::push]. *)
Definition pop_char (chars : list Z) : list Z := take (length chars - 1) chars.
Definition push_char (chars : list Z) (c : Z) : list Z := chars ++ [c].

(** ** Keys: the codes the handlers name, and the others. *)

Inductive KeyCode :=
  | KC_Char (c : Z)
  | KC_Esc | KC_Enter | KC_Backspace | KC_Tab
  | KC_Up | KC_Down | KC_Left | KC_Right
  | KC_PageUp | KC_PageDown | KC_Home | KC_End
  | KC_Other (code : Z).

#[export] Instance KeyCode_eq_dec : EqDecision KeyCode.
Proof. solve_decision. Defined.

Record KeyEvent := mkKey { ke_code : KeyCode; ke_control : bool; ke_release : bool }.

(** [KeyCode::Char(c)] of a literal. *)
Definition ch (c : string) : KeyCode := KC_Char (default 0 (head (str_bytes c))).

(** A match arm [a | b | ...]. *)
Definition hit (codes : list KeyCode) (code : KeyCode) : bool := existsb (fun c => bool_decide (c = code)) codes.

(** ** State *)

Inductive Tab := Tab_Streams | Tab_Timeline | Tab_Unknown | Tab_Summary.

#[export] Instance Tab_eq_dec : EqDecision Tab.
Proof. solve_decision. Defined.

Definition Tab_next (t : Tab) : Tab :=
  match t with
  | Tab_Streams => Tab_Timeline
  | Tab_Timeline => Tab_Unknown
  | Tab_Unknown => Tab_Summary
  | Tab_Summary => Tab_Streams
  end.

(** The literals of the timeline. *)
Definition f64_one : spec_float := f64_of_Z 1.
Definition f64_hundredths (neg : bool) (n : Z) : spec_float := f64_of_ratio neg n 100.
Definition f64_neg_infinity : spec_float := S754_infinity true.
Definition f64_infinity : spec_float := S754_infinity false.

(** [x.clamp(lo, hi)]. *)
Definition f64_clamp (lo hi x : spec_float) : spec_float :=
  let x := if f64_ltb x lo then lo else x in
  if f64_ltb hi x then hi else x.

(** [write!(f, (message) (at column (position + 1)))]. *)
Definition QueryError_to_string (e : QueryError) : string :=
  message e +:+ " (at column " +:+ show_Z (position e + 1) +:+ ")".

Section App.
Context `{Env : ViewEnv}.

Record App := mkApp {
  app_tab : Tab;
  app_sort : Sort;
  app_collapsed : gset Z;
  app_selected : option Z;
  app_filter_text : list Z;
  app_filter_editing : bool;
  app_query : option Expr;
  app_query_error : option string;
  app_detail_scroll : Z;
  app_unknown_index : Z;
  app_unknown_open : bool;
  app_popup_scroll : Z;
  app_help : bool;
  app_paused : bool;
  app_timeline_t : spec_float;
  app_timeline_playing : bool;
  app_quit : bool;
}.

Definition set_tab (v : Tab) (a : App) : App :=
  mkApp v (app_sort a) (app_collapsed a) (app_selected a) (app_filter_text a) (app_filter_editing a)
    (app_query a) (app_query_error a) (app_detail_scroll a) (app_unknown_index a) (app_unknown_open a)
    (app_popup_scroll a) (app_help a) (app_paused a) (app_timeline_t a) (app_timeline_playing a) (app_quit a).
Definition set_sort (v : Sort) (a : App) : App :=
  mkApp (app_tab a) v (app_collapsed a) (app_selected a) (app_filter_text a) (app_filter_editing a)
    (app_query a) (app_query_error a) (app_detail_scroll a) (app_unknown_index a) (app_unknown_open a)
    (app_popup_scroll a) (app_help a) (app_paused a) (app_timeline_t a) (app_timeline_playing a) (app_quit a).
Definition set_collapsed (v : gset Z) (a : App) : App :=
  mkApp (app_tab a) (app_sort a) v (app_selected a) (app_filter_text a) (app_filter_editing a) (app_query a)
    (app_query_error a) (app_detail_scroll a) (app_unknown_index a) (app_unknown_open a) (app_popup_scroll a)
    (app_help a) (app_paused a) (app_timeline_t a) (app_timeline_playing a) (app_quit a).
Definition set_selected (v : option Z) (a : App) : App :=
  mkApp (app_tab a) (app_sort a) (app_collapsed a) v (app_filter_text a) (app_filter_editing a) (app_query a)
    (app_query_error a) (app_detail_scroll a) (app_unknown_index a) (app_unknown_open a) (app_popup_scroll a)
    (app_help a) (app_paused a) (app_timeline_t a) (app_timeline_playing a) (app_quit a).
Definition set_filter_text (v : list Z) (a : App) : App :=
  mkApp (app_tab a) (app_sort a) (app_collapsed a) (app_selected a) v (app_filter_editing a) (app_query a)
    (app_query_error a) (app_detail_scroll a) (app_unknown_index a) (app_unknown_open a) (app_popup_scroll a)
    (app_help a) (app_paused a) (app_timeline_t a) (app_timeline_playing a) (app_quit a).
Definition set_filter_editing (v : bool) (a : App) : App :=
  mkApp (app_tab a) (app_sort a) (app_collapsed a) (app_selected a) (app_filter_text a) v (app_query a)
    (app_query_error a) (app_detail_scroll a) (app_unknown_index a) (app_unknown_open a) (app_popup_scroll a)
    (app_help a) (app_paused a) (app_timeline_t a) (app_timeline_playing a) (app_quit a).
Definition set_query (v : option Expr) (a : App) : App :=
  mkApp (app_tab a) (app_sort a) (app_collapsed a) (app_selected a) (app_filter_text a) (app_filter_editing a)
    v (app_query_error a) (app_detail_scroll a) (app_unknown_index a) (app_unknown_open a)
    (app_popup_scroll a) (app_help a) (app_paused a) (app_timeline_t a) (app_timeline_playing a) (app_quit a).
Definition set_query_error (v : option string) (a : App) : App :=
  mkApp (app_tab a) (app_sort a) (app_collapsed a) (app_selected a) (app_filter_text a) (app_filter_editing a)
    (app_query a) v (app_detail_scroll a) (app_unknown_index a) (app_unknown_open a) (app_popup_scroll a)
    (app_help a) (app_paused a) (app_timeline_t a) (app_timeline_playing a) (app_quit a).
Definition set_detail_scroll (v : Z) (a : App) : App :=
  mkApp (app_tab a) (app_sort a) (app_collapsed a) (app_selected a) (app_filter_text a) (app_filter_editing a)
    (app_query a) (app_query_error a) v (app_unknown_index a) (app_unknown_open a) (app_popup_scroll a)
    (app_help a) (app_paused a) (app_timeline_t a) (app_timeline_playing a) (app_quit a).
Definition set_unknown_index (v : Z) (a : App) : App :=
  mkApp (app_tab a) (app_sort a) (app_collapsed a) (app_selected a) (app_filter_text a) (app_filter_editing a)
    (app_query a) (app_query_error a) (app_detail_scroll a) v (app_unknown_open a) (app_popup_scroll a)
    (app_help a) (app_paused a) (app_timeline_t a) (app_timeline_playing a) (app_quit a).
Definition set_unknown_open (v : bool) (a : App) : App :=
  mkApp (app_tab a) (app_sort a) (app_collapsed a) (app_selected a) (app_filter_text a) (app_filter_editing a)
    (app_query a) (app_query_error a) (app_detail_scroll a) (app_unknown_index a) v (app_popup_scroll a)
    (app_help a) (app_paused a) (app_timeline_t a) (app_timeline_playing a) (app_quit a).
Definition set_popup_scroll (v : Z) (a : App) : App :=
  mkApp (app_tab a) (app_sort a) (app_collapsed a) (app_selected a) (app_filter_text a) (app_filter_editing a)
    (app_query a) (app_query_error a) (app_detail_scroll a) (app_unknown_index a) (app_unknown_open a) v
    (app_help a) (app_paused a) (app_timeline_t a) (app_timeline_playing a) (app_quit a).
Definition set_help (v : bool) (a : App) : App :=
  mkApp (app_tab a) (app_sort a) (app_collapsed a) (app_selected a) (app_filter_text a) (app_filter_editing a)
    (app_query a) (app_query_error a) (app_detail_scroll a) (app_unknown_index a) (app_unknown_open a)
    (app_popup_scroll a) v (app_paused a) (app_timeline_t a) (app_timeline_playing a) (app_quit a).
Definition set_paused (v : bool) (a : App) : App :=
  mkApp (app_tab a) (app_sort a) (app_collapsed a) (app_selected a) (app_filter_text a) (app_filter_editing a)
    (app_query a) (app_query_error a) (app_detail_scroll a) (app_unknown_index a) (app_unknown_open a)
    (app_popup_scroll a) (app_help a) v (app_timeline_t a) (app_timeline_playing a) (app_quit a).
Definition set_timeline_t (v : spec_float) (a : App) : App :=
  mkApp (app_tab a) (app_sort a) (app_collapsed a) (app_selected a) (app_filter_text a) (app_filter_editing a)
    (app_query a) (app_query_error a) (app_detail_scroll a) (app_unknown_index a) (app_unknown_open a)
    (app_popup_scroll a) (app_help a) (app_paused a) v (app_timeline_playing a) (app_quit a).
Definition set_timeline_playing (v : bool) (a : App) : App :=
  mkApp (app_tab a) (app_sort a) (app_collapsed a) (app_selected a) (app_filter_text a) (app_filter_editing a)
    (app_query a) (app_query_error a) (app_detail_scroll a) (app_unknown_index a) (app_unknown_open a)
    (app_popup_scroll a) (app_help a) (app_paused a) (app_timeline_t a) v (app_quit a).
Definition set_quit (v : bool) (a : App) : App :=
  mkApp (app_tab a) (app_sort a) (app_collapsed a) (app_selected a) (app_filter_text a) (app_filter_editing a)
    (app_query a) (app_query_error a) (app_detail_scroll a) (app_unknown_index a) (app_unknown_open a)
    (app_popup_scroll a) (app_help a) (app_paused a) (app_timeline_t a) (app_timeline_playing a) v.

Definition App_default : App :=
  mkApp Tab_Streams Sort_Bytes ∅ None [] false None None 0 0 false 0 false false f64_one false false.

Definition active_query (a : App) : option string :=
  match app_query a with Some _ => Some (as_str (app_filter_text a)) | None => None end.

(** [refresh_query]; [None] is a panic of the parser. *)
Definition refresh_query (a : App) : option App :=
  match trim (app_filter_text a) with
  | [] => Some (set_query None (set_query_error None a))
  | trimmed =>
      match StreamQuery_parse (as_str trimmed) with
      | Parsed (Ok q) => Some (set_query (Some q) (set_query_error None a))
      | Parsed (Error e) => Some (set_query None (set_query_error (Some (QueryError_to_string e)) a))
      | Panicked | OutOfFuel => None
      end
  end.

(** [rows.iter().position(|r| f(r.stream))]. *)
Definition row_position (f : Stream -> bool) (rows : list TreeRow) : option Z :=
  (fun e => Z.of_nat e.1) <$> list_find (fun r => f (tr_stream r) = true) rows.

Definition selected_index (a : App) (rows : list TreeRow) : Z :=
  default 0 (seq ← app_selected a; row_position (fun s => created_seq s =? seq) rows).

(** [rows.get(index)]. *)
Definition row_at (rows : list TreeRow) (index : Z) : option TreeRow := rows !! Z.to_nat index.

Definition select_row (rows : list TreeRow) (index : Z) (a : App) : App :=
  match rows with
  | [] => set_selected None a
  | _ =>
      match row_at rows (Z.min index (blen rows - 1)) with
      | Some row =>
          let seq := created_seq (tr_stream row) in
          let a := if bool_decide (app_selected a <> Some seq) then set_detail_scroll 0 a else a in
          set_selected (Some seq) a
      | None => a
      end
  end.

(** ** Keys of the Streams tab *)

(** [if !collapsed.remove(&seq) { collapsed.insert(seq) }]. *)
Definition toggle (seq : Z) (collapsed : gset Z) : gset Z :=
  if bool_decide (seq ∈ collapsed) then collapsed ∖ {[seq]} else collapsed ∪ {[seq]}.

Definition toggle_row (a : App) (row : option TreeRow) : App :=
  match row with
  | Some r =>
      if tr_has_children r then set_collapsed (toggle (created_seq (tr_stream r)) (app_collapsed a)) a else a
  | None => a
  end.

Definition expand_row (a : App) (row : option TreeRow) : App :=
  match row with
  | Some r => set_collapsed (app_collapsed a ∖ {[created_seq (tr_stream r)]}) a
  | None => a
  end.

(** Left: fold the row, or go to its parent's. *)
Definition fold_row (a : App) (rows : list TreeRow) (row : option TreeRow) : App :=
  match row with
  | Some r =>
      if tr_has_children r && tr_expanded r && bool_decide (trim (app_filter_text a) = [])
      then set_collapsed (app_collapsed a ∪ {[created_seq (tr_stream r)]}) a
      else match parent (tr_stream r) with
           | Some parent_id =>
               match row_position (fun s => bool_decide (st_id s = parent_id)) rows with
               | Some pi => select_row rows pi a
               | None => a
               end
           | None => a
           end
  | None => a
  end.

(** Every stream with children. *)
Definition all_parents (snap : AggregatorSnapshot) : gset Z :=
  list_to_set (created_seq <$> filter (fun s => children s <> []) (sn_streams snap)).

Definition streams_key (a : App) (code : KeyCode) (rows : list TreeRow) (snap : AggregatorSnapshot) : App :=
  let index := selected_index a rows in
  if hit [KC_Up; ch "k"] code then select_row rows (sat_sub index 1) a
  else if hit [KC_Down; ch "j"] code then select_row rows (sat_add usize_max index 1) a
  else if hit [KC_PageUp] code then select_row rows (sat_sub index 10) a
  else if hit [KC_PageDown] code then select_row rows (sat_add usize_max index 10) a
  else if hit [KC_Home; ch "g"] code then select_row rows 0 a
  else if hit [KC_End; ch "G"] code then select_row rows (blen rows) a
  else if hit [KC_Enter; ch " "] code then toggle_row a (row_at rows index)
  else if hit [KC_Right; ch "l"] code then expand_row a (row_at rows index)
  else if hit [KC_Left; ch "h"] code then fold_row a rows (row_at rows index)
  else if hit [ch "e"] code then set_collapsed ∅ a
  else if hit [ch "c"] code then set_collapsed (all_parents snap) a
  else if hit [ch "s"] code then set_sort (Sort_next (app_sort a)) a
  else if hit [ch "J"] code then set_detail_scroll (sat_add u16_max (app_detail_scroll a) 1) a
  else if hit [ch "K"] code then set_detail_scroll (sat_sub (app_detail_scroll a) 1) a
  else a.

(** [flatten(view, self.sort, &self.collapsed, self.active_query())]. *)
Definition app_rows (a : App) : request (list TreeRow) :=
  flatten (app_sort a) (app_collapsed a) (active_query a).

Definition on_streams_key (a : App) (code : KeyCode) : request App :=
  let! rows := app_rows a in
  fun ix => Some (streams_key a code rows (ix_snap ix), ix).

(** ** Keys of the Timeline tab *)

Definition scrub (delta : spec_float) (a : App) : App :=
  set_timeline_t (f64_clamp f64_zero f64_one (f64_add (app_timeline_t a) delta)) (set_timeline_playing false a).

Definition play (a : App) : App :=
  let a := if negb (app_timeline_playing a) && f64_leb f64_one (app_timeline_t a)
           then set_timeline_t f64_zero a else a in
  set_timeline_playing (negb (app_timeline_playing a)) a.

Definition timeline_key (a : App) (code : KeyCode) (rows : list TreeRow) : App :=
  let index := selected_index a rows in
  if hit [KC_Left; ch "h"] code then scrub (f64_hundredths true 2) a
  else if hit [KC_Right; ch "l"] code then scrub (f64_hundredths false 2) a
  else if hit [ch "["; KC_PageUp] code then scrub (f64_hundredths true 10) a
  else if hit [ch "]"; KC_PageDown] code then scrub (f64_hundredths false 10) a
  else if hit [KC_Home; ch "g"] code then scrub f64_neg_infinity a
  else if hit [KC_End; ch "G"] code then scrub f64_infinity a
  else if hit [ch " "] code then play a
  else if hit [KC_Up; ch "k"] code then select_row rows (sat_sub index 1) a
  else if hit [KC_Down; ch "j"] code then select_row rows (sat_add usize_max index 1) a
  else if hit [KC_Enter] code then set_tab Tab_Streams a
  else a.

Definition on_timeline_key (a : App) (code : KeyCode) : request App :=
  let! rows := app_rows a in reply (timeline_key a code rows).

(** ** Keys of the Unknown tab

    [unknown_index + 1] overflows only at [usize::MAX], a panic. *)
Definition on_unknown_key (a : App) (code : KeyCode) : request App := fun ix =>
  let count := blen (sn_unknowns (ix_snap ix)) in
  let last := sat_sub count 1 in
  if hit [KC_Up; ch "k"] code then Some (set_unknown_index (sat_sub (app_unknown_index a) 1) a, ix)
  else if hit [KC_Down; ch "j"] code then
    if app_unknown_index a <? usize_max
    then Some (set_unknown_index (Z.min (app_unknown_index a + 1) last) a, ix) else None
  else if hit [KC_Home; ch "g"] code then Some (set_unknown_index 0 a, ix)
  else if hit [KC_End; ch "G"] code then Some (set_unknown_index last a, ix)
  else if hit [KC_Enter] code && (0 <? count) then Some (set_popup_scroll 0 (set_unknown_open true a), ix)
  else Some (a, ix).

(** ** Key presses *)

Definition edit_key (a : App) (code : KeyCode) : App :=
  match code with
  | KC_Esc => set_filter_editing false (set_filter_text [] a)
  | KC_Enter => set_filter_editing false a
  | KC_Backspace => set_filter_text (pop_char (app_filter_text a)) a
  | KC_Char c => set_filter_text (push_char (app_filter_text a) c) a
  | _ => a
  end.

Definition popup_key (a : App) (code : KeyCode) : App :=
  if hit [KC_Esc; KC_Enter; ch "q"] code then set_popup_scroll 0 (set_unknown_open false a)
  else if hit [KC_Up; ch "k"] code then set_popup_scroll (sat_sub (app_popup_scroll a) 1) a
  else if hit [KC_Down; ch "j"] code then set_popup_scroll (sat_add u16_max (app_popup_scroll a) 1) a
  else if hit [KC_PageUp] code then set_popup_scroll (sat_sub (app_popup_scroll a) 16) a
  else if hit [KC_PageDown] code then set_popup_scroll (sat_add u16_max (app_popup_scroll a) 16) a
  else a.

Definition browse_key (a : App) (code : KeyCode) : request App :=
  if hit [ch "q"] code then reply (set_quit true a)
  else if hit [ch "?"] code then reply (set_help true a)
  else if hit [ch "1"] code then reply (set_tab Tab_Streams a)
  else if hit [ch "2"] code then reply (set_tab Tab_Timeline a)
  else if hit [ch "3"] code then reply (set_tab Tab_Unknown a)
  else if hit [ch "4"] code then reply (set_tab Tab_Summary a)
  else if hit [KC_Tab] code then reply (set_tab (Tab_next (app_tab a)) a)
  else if hit [ch "p"] code then reply (set_paused (negb (app_paused a)) a)
  else if hit [ch "/"] code && bool_decide (app_tab a = Tab_Streams \/ app_tab a = Tab_Timeline)
  then reply (set_filter_editing true a)
  else match app_tab a with
       | Tab_Streams => on_streams_key a code
       | Tab_Timeline => on_timeline_key a code
       | Tab_Unknown => on_unknown_key a code
       | Tab_Summary => reply a
       end.

Definition on_key (a : App) (key : KeyEvent) : request App :=
  if ke_control key && bool_decide (ke_code key = ch "c") then reply (set_quit true a)
  else if app_filter_editing a then
    fun ix => match refresh_query (edit_key a (ke_code key)) with Some a' => Some (a', ix) | None => None end
  else if app_help a then reply (set_help false a)
  else if app_unknown_open a then reply (popup_key a (ke_code key))
  else browse_key a (ke_code key).

(** One animation tick. *)
Definition tick (a : App) : App :=
  if bool_decide (app_tab a = Tab_Timeline) && app_timeline_playing a then
    let t := f64_add (app_timeline_t a) (f64_hundredths false 1) in
    if f64_leb f64_one t then set_timeline_playing false (set_timeline_t f64_one a)
    else set_timeline_t t a
  else a.

(** ** What drawing a frame assigns *)

(** [app.selected = Some(rows.get(index).stream.created_seq)]. *)
Definition anchor (a : App) (rows : list TreeRow) : App :=
  match row_at rows (selected_index a rows) with
  | Some row => set_selected (Some (created_seq (tr_stream row))) a
  | None => a
  end.

Definition redraw (a : App) : request App :=
  match app_tab a with
  | Tab_Streams => let! rows := app_rows a in reply (anchor a rows)
  | Tab_Timeline =>
      let! rows := app_rows a in
      fun ix => Some (match capture_span (ix_snap ix) with Some _ => anchor a rows | None => a end, ix)
  | Tab_Unknown => fun ix =>
      let count := blen (sn_unknowns (ix_snap ix)) in
      Some (if count =? 0 then a else set_unknown_index (Z.min (app_unknown_index a) (count - 1)) a, ix)
  | Tab_Summary => reply a
  end.

(** ** The event loop *)

Record Session := mkSession { ss_app : App; ss_view : SnapshotIndex; ss_seen : Z }.

(** What the hub shows in one turn, and the event polled at its end. *)
Record Turn := mkTurn { tn_generation : Z; tn_latest : AggregatorSnapshot; tn_key : option KeyEvent }.

Definition session_start (latest : AggregatorSnapshot) : Session :=
  mkSession App_default (SnapshotIndex_new latest) u64_max.

Definition refresh_view (t : Turn) (s : Session) : Session :=
  if app_paused (ss_app s) then s
  else if tn_generation t =? ss_seen s then s
  else mkSession (ss_app s) (SnapshotIndex_new (tn_latest t)) (tn_generation t).

Definition deliver_key (key : option KeyEvent) (a : App) : request App :=
  match key with
  | Some k => if ke_release k then reply a else on_key a k
  | None => reply a
  end.

(** One turn of the loop. *)
Definition event_turn (t : Turn) (s : Session) : option Session :=
  let s := refresh_view t s in
  '(a, view) ← (let! a := redraw (ss_app s) in deliver_key (tn_key t) (tick a)) (ss_view s);
  Some (mkSession a view (ss_seen s)).

(** [while !app.quit]. *)
Fixpoint event_loop (turns : list Turn) (s : Session) : option Session :=
  match turns with
  | [] => Some s
  | t :: rest =>
      if app_quit (ss_app s) then Some s
      else match event_turn t s with Some s' => event_loop rest s' | None => None end
  end.
End App.
