(* ===== verification/AppProps.v ===== *)
(** * Sessions of the terminal application

    Whatever keys are pressed and whatever snapshots are published meanwhile, a
    session goes on: no transition panics (unless the text typed trips the query
    lexer), the query is always the reading of the filter box, at most one mode
    is open, and the scroll positions and the playhead stay in their ranges.  A
    movement key moves the selection to the row it names. *)

From Stdlib Require Import SpecFloat.
From S2P Require Import Prelude.
From S2P Require Import Values.
From S2P Require Import Types.
From S2P Require Import Contract.
From S2P Require Import Samples.
From S2P Require Import Engine.
From S2P Require Import Arena.
From S2P Require Import Store.
From S2P Require Import StoreInv.
From S2P Require Import StoreKeys.
From S2P Require Import StoreHeaps.
From S2P Require Import StoreIngest.
From S2P Require Import Queries.
From S2P Require Import StoreProps.
From S2P Require Import Text.
From S2P Require Import Fmt.
From S2P Require Import StreamView.
From S2P Require Import Query.
From S2P Require Import QueryLex.
From S2P Require Import Snapshots.
From S2P Require Import ViewIndex.
From S2P Require Import ViewIndexProps.
From S2P Require Import Tree.
From S2P Require Import TreeProps.
From S2P Require Import App.

(** ** Binary64 sums stay numbers

    What the timeline's playhead needs of [SpecFloat]: adding finite numbers
    never gives a NaN, adding non-negative ones gives a non-negative one, and
    clamping anything that is a number lands inside the bounds. *)

(** Not a NaN; its sign bit. *)
Definition signed_by (s : bool) (x : spec_float) : Prop :=
  match x with
  | S754_zero t | S754_infinity t | S754_finite t _ _ => t = s
  | S754_nan => False
  end.

Definition is_number (x : spec_float) : Prop := x <> S754_nan.
Definition is_finite (x : spec_float) : Prop :=
  match x with S754_zero _ | S754_finite _ _ _ => True | _ => False end.

Lemma signed_number s x : signed_by s x -> is_number x.
Proof. by destruct x. Qed.

(** ** Rounding keeps the sign *)

Lemma shr_1_nonneg r : 0 <= shr_m r -> 0 <= shr_m (shr_1 r).
Proof. destruct r as [[|[p|p|]|p] r s]; simpl; lia. Qed.

Lemma shr_nonneg r e n : 0 <= shr_m r -> 0 <= shr_m (shr r e n).1.
Proof.
  intros Hr. destruct n as [|p|p]; simpl; [done| |done].
  revert r Hr. induction p as [p IH|p IH|]; intros r Hr; simpl; auto using shr_1_nonneg.
Qed.

Lemma shr_fexp_nonneg prec emax m e l : 0 <= m -> 0 <= shr_m (shr_fexp prec emax m e l).1.
Proof. intros Hm. apply shr_nonneg. by destruct l as [|[]]. Qed.

Lemma round_nearest_nonneg m l : 0 <= m -> 0 <= round_nearest_even m l.
Proof. intros. destruct l as [|[]]; simpl; [lia| |lia|lia]. destruct (Z.even m); lia. Qed.

Lemma binary_round_aux_signed prec emax s m e l : 0 <= m -> signed_by s (binary_round_aux prec emax s m e l).
Proof.
  intros Hm. unfold binary_round_aux.
  pose proof (shr_fexp_nonneg prec emax m e l Hm) as H1.
  destruct (shr_fexp prec emax m e l) as [r1 e1]. simpl in H1.
  pose proof (shr_fexp_nonneg prec emax _ e1 loc_Exact
    (round_nearest_nonneg (shr_m r1) (loc_of_shr_record r1) H1)) as H2.
  destruct (shr_fexp prec emax (round_nearest_even _ _) e1 loc_Exact) as [r2 e2]. simpl in H2.
  destruct (shr_m r2); [done| |lia]. by destruct (e2 <=? emax - prec).
Qed.

Lemma binary_normalize_signed prec emax m e :
  signed_by (m <? 0) (binary_normalize prec emax m e false).
Proof.
  destruct m as [|m|m]; [done|..]; simpl; unfold binary_round; destruct (shl_align _ _ _);
    by apply binary_round_aux_signed.
Qed.

(** ** Sums *)

Lemma f64_add_number x y : is_number x -> is_number y -> is_finite x \/ is_finite y -> is_number (f64_add x y).
Proof.
  unfold f64_add, is_number. destruct x as [[]|[]| |s m e], y as [[]|[]| |s' m' e']; simpl; try done; intros ?? [[]|[]]; try done.
  all: eapply signed_number, binary_normalize_signed.
Qed.

Lemma f64_add_finite_number x y : is_finite x -> is_number y -> is_number (f64_add x y).
Proof. intros Hx Hy. apply f64_add_number; [by destruct x|done|by left]. Qed.

(** Zero is at most [x]. *)
Lemma f64_nonneg x : signed_by false x -> f64_leb f64_zero x = true.
Proof. by destruct x as [[]|[]| |[]]. Qed.

Lemma f64_add_nonneg x y : f64_leb f64_zero x = true -> signed_by false y -> is_finite y -> f64_leb f64_zero (f64_add x y) = true.
Proof.
  intros Hx Hy Hfin. destruct x as [[]|[]| |[] m e], y as [[]|[]| |[] m' e']; try done.
  - apply f64_nonneg. unfold f64_add, SFadd. cbv zeta.
    match goal with |- signed_by _ (binary_normalize ?p ?emax ?n ?ez false) =>
      pose proof (binary_normalize_signed p emax n ez) as H;
      destruct (Z.ltb_spec n 0) as [Hlt|]; [exfalso; simpl in Hlt; lia|exact H] end.
Qed.

(** ** Clamping *)

Lemma SFcompare_antisym x y : SFcompare y x = CompOpp <$> SFcompare x y.
Proof.
  destruct x as [[]|[]| |[] m e], y as [[]|[]| |[] m' e']; try done; simpl;
    pose proof (Pos.compare_cont_antisym m m' Eq) as Hm; simpl in Hm; rewrite <- Hm, (Z.compare_antisym e e');
    destruct (e ?= e'); try done; by destruct (Pos.compare_cont Eq m m').
Qed.

Lemma f64_not_ltb x y : is_number x -> is_number y -> f64_ltb x y = false -> f64_leb y x = true.
Proof.
  unfold f64_ltb, f64_leb, SFltb, SFleb, is_number. intros Hx Hy. rewrite (SFcompare_antisym x y).
  destruct (SFcompare x y) as [[]|] eqn:E; simpl; try done.
  destruct x as [[]|[]| |[]], y as [[]|[]| |[]]; done.
Qed.

(** A playhead: a number of the unit interval. *)
Definition unit_f64 (x : spec_float) : Prop := f64_leb f64_zero x = true /\ f64_leb x f64_one = true.

Lemma f64_ltb_leb x y : f64_ltb x y = true -> f64_leb x y = true.
Proof. unfold f64_ltb, f64_leb, SFltb, SFleb. by destruct (SFcompare x y) as [[]|]. Qed.

Lemma unit_number x : unit_f64 x -> is_finite x.
Proof. intros [H0 H1]. by destruct x as [| [] | |]. Qed.

Lemma clamp_unit x : is_number x -> unit_f64 (f64_clamp f64_zero f64_one x).
Proof.
  intros Hx. unfold f64_clamp.
  destruct (f64_ltb x f64_zero) eqn:H0; [by vm_compute|].
  apply f64_not_ltb in H0; [|done|done].
  destruct (f64_ltb f64_one x) eqn:H1; [by vm_compute|].
  apply f64_not_ltb in H1; [|by vm_compute|done]. done.
Qed.

(** ** Text that can be typed *)

(** A code point whose encoding has no byte the lexer takes for white space. *)
Definition typeable (c : Z) : Prop :=
  0 <= c < 0x110000 /\ Forall (fun b => b <> 0x85 /\ b <> 0xA0) (encode_utf8 c).

#[export] Instance typeable_dec c : Decision (typeable c).
Proof. unfold typeable. apply _. Defined.

Lemma encode_cut c prev rest :
  0 <= c < 0x110000 -> (forall p, cut_ok p rest = true) -> cut_ok prev (encode_utf8 c ++ rest) = true.
Proof.
  intros Hc Hrest. pose proof (Z.div_mod c 64 ltac:(lia)). pose proof (Z.mod_pos_bound c 64 ltac:(lia)).
  unfold encode_utf8. pose proof (Z.div_le_lower_bound c 64 0 ltac:(lia) ltac:(lia)).
  pose proof (Z.mod_pos_bound (c / 64) 64 ltac:(lia)). pose proof (Z.mod_pos_bound (c / 4096) 64 ltac:(lia)).
  pose proof (Z.div_le_lower_bound c 4096 0 ltac:(lia) ltac:(lia)).
  pose proof (Z.div_le_lower_bound c 262144 0 ltac:(lia) ltac:(lia)).
  repeat case_match; reflect_bools; cbn [app cut_ok]; rewrite ?Hrest; unfold continues, in_range;
    repeat match goal with |- context [?a <=? ?b] =>
      first [rewrite (proj2 (Z.leb_le a b)) by lia | rewrite (proj2 (Z.leb_gt a b)) by lia] end; try reflexivity.
  all: rewrite ?andb_true_r, ?orb_true_r; try done; apply orb_true_iff; left; apply negb_true_iff, andb_false_iff.
  all: rewrite Z.leb_gt, ?Z.leb_gt; lia.
Qed.

Lemma encode_bytes c : 0 <= c < 0x110000 -> bytes_ok (encode_utf8 c).
Proof.
  intros Hc. unfold encode_utf8. pose proof (Z.mod_pos_bound c 64 ltac:(lia)).
  pose proof (Z.mod_pos_bound (c / 64) 64 ltac:(lia)). pose proof (Z.mod_pos_bound (c / 4096) 64 ltac:(lia)).
  pose proof (Z.div_le_lower_bound c 64 0 ltac:(lia) ltac:(lia)).
  pose proof (Z.div_le_lower_bound c 4096 0 ltac:(lia) ltac:(lia)).
  pose proof (Z.div_le_lower_bound c 262144 0 ltac:(lia) ltac:(lia)).
  repeat case_match; reflect_bools; repeat constructor; try lia.
  - pose proof (Z.div_lt_upper_bound c 64 32 ltac:(lia) ltac:(lia)). lia.
  - pose proof (Z.div_lt_upper_bound c 4096 16 ltac:(lia) ltac:(lia)). lia.
  - pose proof (Z.div_lt_upper_bound c 262144 5 ltac:(lia) ltac:(lia)). lia.
Qed.

Lemma as_str_bytes chars : Forall typeable chars -> str_bytes (as_str chars) = chars ≫= encode_utf8.
Proof.
  intros Hc. apply str_bytes_text_of. induction Hc as [|c l [Hc _] Hl IH]; [constructor|].
  rewrite bind_cons. apply Forall_app. split; [by apply encode_bytes|done].
Qed.

Lemma as_str_clean chars :
  Forall typeable chars -> well_formed (str_bytes (as_str chars)) /\ no_false_space (str_bytes (as_str chars)).
Proof.
  intros Hc. rewrite as_str_bytes by done. split.
  - unfold well_formed. generalize 0. induction Hc as [|c l [Hc _] Hl IH]; intros prev; [done|].
    rewrite bind_cons. by apply encode_cut.
  - induction Hc as [|c l [_ Hc] Hl IH]; [constructor|]. rewrite bind_cons. by apply Forall_app.
Qed.

Lemma trim_start_suffix l : trim_start l `suffix_of` l.
Proof.
  induction l as [|c l IH]; [done|]. simpl. destruct (char_is_whitespace c); [|done].
  by apply suffix_cons_r.
Qed.

Lemma Forall_trim (P : Z -> Prop) l : Forall P l -> Forall P (trim l).
Proof.
  assert (forall k, Forall P k -> Forall P (trim_start k)) as Hs.
  { intros k Hk. destruct (trim_start_suffix k) as [pre Heq]. rewrite Heq in Hk. by apply Forall_app in Hk as [_ ?]. }
  intros Hl. unfold trim. by apply Forall_reverse, Hs, Forall_reverse, Hs.
Qed.

(** ** The invariant *)

Section App.
Context `{Env : ViewEnv}.

(** [query] and its error are the reading of the filter box. *)
Definition reads_as (chars : list Z) (q : option Expr) (err : option string) : Prop :=
  match trim chars with
  | [] => q = None /\ err = None
  | trimmed =>
      match StreamQuery_parse (as_str trimmed) with
      | Parsed (Ok e) => q = Some e /\ err = None
      | Parsed (Error er) => q = None /\ err = Some (QueryError_to_string er)
      | Panicked | OutOfFuel => False
      end
  end.

Record app_ok (a : App) : Prop := mkAppOk {
  ao_text : Forall typeable (app_filter_text a);
  ao_reads : reads_as (app_filter_text a) (app_query a) (app_query_error a);
  ao_detail : 0 <= app_detail_scroll a <= u16_max;
  ao_popup : 0 <= app_popup_scroll a <= u16_max;
  ao_unknown : 0 <= app_unknown_index a < usize_max;
  ao_editing : app_filter_editing a = true ->
    (app_tab a = Tab_Streams \/ app_tab a = Tab_Timeline) /\ app_help a = false /\ app_unknown_open a = false;
  ao_help : app_help a = true -> app_unknown_open a = false;
  ao_open : app_unknown_open a = true -> app_tab a = Tab_Unknown;
  ao_time : unit_f64 (app_timeline_t a);
  ao_playing : app_timeline_playing a = true -> f64_ltb (app_timeline_t a) f64_one = true;
}.

Lemma App_default_ok : app_ok App_default.
Proof. by split. Qed.

(** *** Assignments that keep it *)

Definition in_u16 (n : Z) : Prop := 0 <= n <= u16_max.

Lemma ok_selected v a : app_ok a -> app_ok (set_selected v a).
Proof. by intros []. Qed.
Lemma ok_collapsed v a : app_ok a -> app_ok (set_collapsed v a).
Proof. by intros []. Qed.
Lemma ok_sort v a : app_ok a -> app_ok (set_sort v a).
Proof. by intros []. Qed.
Lemma ok_quit v a : app_ok a -> app_ok (set_quit v a).
Proof. by intros []. Qed.
Lemma ok_paused v a : app_ok a -> app_ok (set_paused v a).
Proof. by intros []. Qed.
Lemma ok_detail v a : in_u16 v -> app_ok a -> app_ok (set_detail_scroll v a).
Proof. by intros Hv []. Qed.
Lemma ok_popup v a : in_u16 v -> app_ok a -> app_ok (set_popup_scroll v a).
Proof. by intros Hv []. Qed.
Lemma ok_unknown v a : 0 <= v < usize_max -> app_ok a -> app_ok (set_unknown_index v a).
Proof. by intros Hv []. Qed.
Lemma ok_close a : app_ok a -> app_ok (set_unknown_open false a).
Proof. intros []. split; simpl; try done. intros He. by destruct (ao_editing0 He) as (? & ? & _). Qed.
Lemma ok_help_off a : app_ok a -> app_ok (set_help false a).
Proof. intros []. split; simpl; try done. intros He. by destruct (ao_editing0 He) as (? & _ & ?). Qed.
Lemma ok_editing_off a : app_ok a -> app_ok (set_filter_editing false a).
Proof. by intros []. Qed.
Lemma ok_time x a : unit_f64 x -> app_ok a -> app_timeline_playing a = false -> app_ok (set_timeline_t x a).
Proof. intros Hx [] Hp. split; simpl; try done. by rewrite Hp. Qed.
Lemma ok_still a : app_ok a -> app_ok (set_timeline_playing false a).
Proof. by intros []. Qed.

(** No mode is open. *)
Definition quiet (a : App) : Prop :=
  app_filter_editing a = false /\ app_help a = false /\ app_unknown_open a = false.

Lemma ok_tab v a : quiet a -> app_ok a -> app_ok (set_tab v a).
Proof. intros (He & Hh & Ho) []. split; simpl; try done; congruence. Qed.

Lemma u16_down n k : in_u16 n -> 0 <= k -> in_u16 (sat_sub n k).
Proof. unfold in_u16, sat_sub. lia. Qed.
Lemma u16_up n k : in_u16 n -> 0 <= k -> in_u16 (sat_add u16_max n k).
Proof. unfold in_u16, sat_add. lia. Qed.
Lemma u16_detail a : app_ok a -> in_u16 (app_detail_scroll a).
Proof. apply ao_detail. Qed.
Lemma u16_popup a : app_ok a -> in_u16 (app_popup_scroll a).
Proof. apply ao_popup. Qed.
Lemma u16_zero : in_u16 0.
Proof. done. Qed.
End App.

Create HintDb app.
#[export] Hint Resolve ok_selected ok_collapsed ok_sort ok_quit ok_paused ok_detail ok_popup ok_close
  ok_help_off ok_editing_off ok_still ok_tab u16_down u16_up u16_detail u16_popup u16_zero : app.
#[export] Hint Extern 1 (0 <= _) => lia : app.

Section Keys.
Context `{Env : ViewEnv}.

(** *** The pure transitions *)

Lemma ok_select_row rows i a : app_ok a -> app_ok (select_row rows i a).
Proof.
  intros Ha. unfold select_row. destruct rows; [auto with app|].
  destruct (row_at _ _); [|done]. case_bool_decide; auto with app.
Qed.

Lemma ok_fold_row a rows r : app_ok a -> app_ok (fold_row a rows r).
Proof.
  intros Ha. unfold fold_row. repeat case_match; auto with app. all: by apply ok_select_row.
Qed.

#[local] Hint Resolve ok_select_row ok_fold_row : app.

Lemma ok_streams_key a code rows snap : app_ok a -> app_ok (streams_key a code rows snap).
Proof.
  intros Ha. unfold streams_key, toggle_row, expand_row. cbv zeta. repeat case_match; auto with app.
Qed.

Lemma ok_scrub delta a : is_number delta -> app_ok a -> app_ok (scrub delta a).
Proof.
  intros Hd Ha. apply ok_time; [|by apply ok_still|done].
  apply clamp_unit, f64_add_finite_number; [apply unit_number, ao_time|]; done.
Qed.

Lemma ok_play a : app_ok a -> app_ok (play a).
Proof.
  intros Ha. unfold play. destruct (app_timeline_playing a) eqn:Hp; cbn [negb andb].
  - rewrite Hp. by apply ok_still.
  - destruct (f64_leb f64_one (app_timeline_t a)) eqn:H1; cbn [set_timeline_t app_timeline_playing]; rewrite Hp;
      destruct Ha; split; try done; intros _; simpl.
    destruct ao_time0 as [_ Hle]. apply not_false_is_true. intros Hlt%f64_not_ltb; [congruence| |done].
    by destruct (app_timeline_t a).
Qed.

Lemma ok_timeline_key a code rows : quiet a -> app_ok a -> app_ok (timeline_key a code rows).
Proof.
  intros Hq Ha. unfold timeline_key. repeat case_match; auto with app; try by apply ok_scrub.
  by apply ok_play.
Qed.

Lemma ok_popup_key a code : app_ok a -> app_ok (popup_key a code).
Proof. intros Ha. unfold popup_key. repeat case_match; auto with app. Qed.

Lemma ok_tick a : app_ok a -> app_ok (tick a).
Proof.
  intros Ha. unfold tick. destruct (_ && app_timeline_playing a) eqn:Hp; [|done].
  set (t := f64_add (app_timeline_t a) (f64_hundredths false 1)). cbv zeta.
  pose proof (ao_time a Ha) as Hunit.
  assert (is_number t) as Ht by (apply f64_add_finite_number; [by apply unit_number|done]).
  assert (f64_leb f64_zero t = true) as H0 by (apply f64_add_nonneg; [apply Hunit|by vm_compute|by vm_compute]).
  destruct (f64_leb f64_one t) eqn:H1.
  - destruct Ha. split; try done.
  - assert (f64_ltb t f64_one = true) as Hlt.
    { apply not_false_is_true. intros Hlt%f64_not_ltb; [congruence|done|done]. }
    destruct Ha. split; try done. simpl. split; [done|by apply f64_ltb_leb].
Qed.

Lemma ok_anchor a rows : app_ok a -> app_ok (anchor a rows).
Proof. intros Ha. unfold anchor. case_match; auto with app. Qed.

(** Editing the filter re-reads it. *)
Lemma refresh_ok a :
  Forall typeable (app_filter_text a) -> (forall q err, reads_as (app_filter_text a) q err ->
    app_ok (set_query q (set_query_error err a))) ->
  exists a', refresh_query a = Some a' /\ app_ok a'.
Proof.
  intros Htext Hok. unfold refresh_query, reads_as in *.
  pose proof (Forall_trim _ _ Htext) as Htrim.
  destruct (trim (app_filter_text a)) as [|c l]; [eexists; split; [done|by apply Hok]|].
  destruct (as_str_clean _ Htrim) as [Hwf Hsp]. destruct (parse_returns _ Hwf Hsp) as [r Hr].
  rewrite Hr in *. destruct r as [q|er]; (eexists; split; [done|by apply Hok]).
Qed.

Definition typed_ok (code : KeyCode) : Prop := match code with KC_Char c => typeable c | _ => True end.

Lemma edit_ok a code :
  app_filter_editing a = true -> app_ok a -> typed_ok code ->
  exists a', refresh_query (edit_key a code) = Some a' /\ app_ok a'.
Proof.
  intros He Ha Hc.
  assert (Forall typeable (app_filter_text (edit_key a code))) as Htext.
  { destruct code; simpl; try apply Ha; try constructor; [apply Forall_app; split; [apply Ha|by constructor]|].
    apply Forall_take, Ha. }
  apply refresh_ok; [done|]. intros q err Hr. destruct Ha. destruct code; split; try done; simpl in *; try done.
Qed.
End Keys.

(** ** Transitions over a snapshot *)

Section Screen.
Context `{Env : ViewEnv} (snap : AggregatorSnapshot) (Hsnap : snapshot_forest snap).
Context (Hcount : blen (sn_unknowns snap) <= usize_max).

Lemma app_rows_answer a : app_ok a -> exists rows, answers snap (app_rows a) (Some rows).
Proof.
  intros Ha. pose proof (answers_flatten snap Hsnap (app_sort a) (app_collapsed a) (active_query a)) as Hrows.
  assert (exists sets, spec_sets_of snap (active_query a) = Some sets) as [sets Hsets].
  { unfold active_query. destruct (app_query a); [|by eexists]. simpl. destruct (blank _); [by eexists|].
    destruct (as_str_clean _ (ao_text _ Ha)) as [Hwf Hsp]. destruct (parse_returns _ Hwf Hsp) as [r Hr].
    unfold fresh_sets. rewrite Hr. destruct r; by eexists. }
  rewrite Hsets in Hrows. eexists. exact Hrows.
Qed.

(** The request goes through and leaves the invariant. *)
Definition keeps (m : request App) : Prop := exists a, answers snap m (Some a) /\ app_ok a.

Lemma keeps_reply a : app_ok a -> keeps (reply a).
Proof. intros Ha. exists a. split; [apply answers_reply|done]. Qed.

Lemma keeps_rows a (k : list TreeRow -> request App) :
  app_ok a -> (forall rows, keeps (k rows)) -> keeps (and_request (app_rows a) k).
Proof.
  intros Ha Hk. destruct (app_rows_answer a Ha) as [rows Hrows]. destruct (Hk rows) as (a' & Hans & Ha').
  exists a'. split; [|done]. by eapply answers_seq.
Qed.

Lemma keeps_read (f : AggregatorSnapshot -> App) :
  app_ok (f snap) -> keeps (fun ix => Some (f (ix_snap ix), ix)).
Proof. intros Hf. exists (f snap). split; [|done]. apply answers_pure. by intros ix [<-]. Qed.

Lemma keeps_bind m (k : App -> request App) :
  keeps m -> (forall a, app_ok a -> keeps (k a)) -> keeps (and_request m k).
Proof.
  intros (a & Hm & Ha) Hk. destruct (Hk a Ha) as (a' & Hans & Ha'). exists a'. split; [|done].
  by eapply answers_seq.
Qed.

Lemma keeps_unknown_key a code : quiet a -> app_tab a = Tab_Unknown -> app_ok a -> keeps (on_unknown_key a code).
Proof.
  intros (He & Hh & Ho) Htab Ha. pose proof (ao_unknown a Ha) as Hidx.
  pose proof (blen_nonneg (sn_unknowns snap)) as Hlen. unfold u16_max, usize_max in *.
  assert (forall n, 0 <= n <= Z.max (app_unknown_index a) (blen (sn_unknowns snap) - 1) ->
    app_ok (set_unknown_index n a)) as Hset by (intros n Hn; apply ok_unknown; [unfold usize_max; lia|done]).
  exists (let count := blen (sn_unknowns snap) in
    if hit [KC_Up; ch "k"] code then set_unknown_index (sat_sub (app_unknown_index a) 1) a
    else if hit [KC_Down; ch "j"] code then set_unknown_index (Z.min (app_unknown_index a + 1) (sat_sub count 1)) a
    else if hit [KC_Home; ch "g"] code then set_unknown_index 0 a
    else if hit [KC_End; ch "G"] code then set_unknown_index (sat_sub count 1) a
    else if hit [KC_Enter] code && (0 <? count) then set_popup_scroll 0 (set_unknown_open true a)
    else a). split.
  - intros ix Hix. exists ix. split; [|done]. unfold on_unknown_key. rewrite (co_snap _ _ Hix). cbv zeta.
    rewrite (proj2 (Z.ltb_lt (app_unknown_index a) usize_max)) by (unfold usize_max; lia).
    repeat case_match; done.
  - cbv zeta. unfold sat_sub. repeat case_match; try (apply Hset; lia); [|done].
    destruct Ha. split; try done; simpl; try congruence.
Qed.

Lemma keeps_browse_key a code : quiet a -> app_ok a -> keeps (browse_key a code).
Proof.
  intros Hq Ha. pose proof Hq as (He & Hh & Ho). unfold browse_key.
  repeat (case_match; [apply keeps_reply; auto with app|]); try (apply keeps_reply; by auto with app).
  - destruct Ha. split; try done; simpl; congruence.
  - destruct Ha. split; try done. intros _. split; [|done]. by reflect_bools.
  - destruct (app_tab a) eqn:Htab.
    + apply keeps_rows; [done|]. intros rows. apply (keeps_read (streams_key a code rows)). by apply ok_streams_key.
    + apply keeps_rows; [done|]. intros rows. by apply keeps_reply, ok_timeline_key.
    + by apply keeps_unknown_key.
    + by apply keeps_reply.
Qed.

Lemma keeps_on_key a key : app_ok a -> typed_ok (ke_code key) -> keeps (on_key a key).
Proof.
  intros Ha Hc. unfold on_key. case_match; [apply keeps_reply; auto with app|].
  destruct (app_filter_editing a) eqn:He.
  - destruct (edit_ok a (ke_code key) He Ha Hc) as (a' & Hr & Ha'). rewrite Hr. by apply keeps_reply.
  - destruct (app_help a) eqn:Hh; [apply keeps_reply; auto with app|].
    destruct (app_unknown_open a) eqn:Ho; [by apply keeps_reply, ok_popup_key|].
    by apply keeps_browse_key.
Qed.

Lemma keeps_redraw a : app_ok a -> keeps (redraw a).
Proof.
  intros Ha. unfold redraw. destruct (app_tab a).
  - apply keeps_rows; [done|]. intros rows. by apply keeps_reply, ok_anchor.
  - apply keeps_rows; [done|]. intros rows.
    apply (keeps_read (fun s => match capture_span s with Some _ => anchor a rows | None => a end)).
    destruct (capture_span snap); [by apply ok_anchor|done].
  - apply (keeps_read (fun s => if blen (sn_unknowns s) =? 0 then a
      else set_unknown_index (Z.min (app_unknown_index a) (blen (sn_unknowns s) - 1)) a)).
    pose proof (ao_unknown a Ha). pose proof (blen_nonneg (sn_unknowns snap)).
    destruct (Z.eqb_spec (blen (sn_unknowns snap)) 0); [done|]. apply ok_unknown; [lia|done].
  - by apply keeps_reply.
Qed.

Lemma keeps_turn a key :
  app_ok a -> (forall k, key = Some k -> typed_ok (ke_code k)) ->
  keeps (let! a := redraw a in deliver_key key (tick a)).
Proof.
  intros Ha Hk. apply keeps_bind; [by apply keeps_redraw|]. intros b Hb. apply ok_tick in Hb.
  destruct key as [k|]; simpl; [|by apply keeps_reply].
  destruct (ke_release k); [by apply keeps_reply|]. apply keeps_on_key; auto.
Qed.
End Screen.

(** ** Sessions *)

Section Session.
Context `{Env : ViewEnv} `{Hasher} (e : Engine) (c : AggregatorConfig).

(** A snapshot some reachable aggregator publishes; what is counted fits a
    [usize]. *)
Definition published (snap : AggregatorSnapshot) : Prop :=
  (exists pkts, trace_ok pkts /\ snap = snapshot (run e c pkts)) /\ blen (sn_unknowns snap) <= usize_max.

Definition turn_ok (t : Turn) : Prop :=
  published (tn_latest t) /\ forall k, tn_key t = Some k -> typed_ok (ke_code k).

Record session_ok (s : Session) : Prop := mkSessionOk {
  se_app : app_ok (ss_app s);
  se_view : exists snap, snapshot_forest snap /\ blen (sn_unknowns snap) <= usize_max /\ coherent snap (ss_view s);
}.

Context (He : engine_wf e) (Hc : config_ok c).

Lemma published_forest snap : published snap -> snapshot_forest snap.
Proof.
  intros [(pkts & Ht & ->) _]. destruct (reached_run False e c pkts He Hc Ht) as (Hs & _); [done|].
  by apply store_snapshot_forest.
Qed.

Lemma fresh_view snap : published snap ->
  exists s, snapshot_forest s /\ blen (sn_unknowns s) <= usize_max /\ coherent s (SnapshotIndex_new snap).
Proof. intros Hp. exists snap. split; [by apply published_forest|]. split; [apply Hp|apply coherent_new]. Qed.

Lemma session_start_ok latest : published latest -> session_ok (session_start latest).
Proof. intros Hp. split; [apply App_default_ok|by apply fresh_view]. Qed.

Lemma event_turn_ok t s : turn_ok t -> session_ok s -> exists s', event_turn t s = Some s' /\ session_ok s'.
Proof.
  intros [Hp Hk] [Ha Hv].
  assert (session_ok (refresh_view t s)) as [Ha' (snap & Hsnap & Hcount & Hix)].
  { unfold refresh_view. repeat case_match; split; try done. by apply fresh_view. }
  unfold event_turn. destruct (keeps_turn snap Hsnap Hcount _ _ Ha' Hk) as (a & Hans & Hok).
  destruct (Hans _ Hix) as (ix & Hrun & Hix'). rewrite Hrun. eexists. split; [done|].
  split; [done|]. by exists snap.
Qed.

Lemma event_loop_ok turns s : Forall turn_ok turns -> session_ok s ->
  exists s', event_loop turns s = Some s' /\ session_ok s'.
Proof.
  intros Ht. revert s. induction Ht as [|t turns Ht Hts IH]; intros s Hs; simpl; [by exists s|].
  destruct (app_quit (ss_app s)); [by exists s|].
  destruct (event_turn_ok t s Ht Hs) as (s' & -> & Hs'). by apply IH.
Qed.

(** A session of the terminal application never panics: however snapshots are
    published and whatever keys arrive, as long as the characters typed are ones
    the query lexer takes, every turn of the event loop completes; and after it
    the query is the reading of the filter box, at most one mode is open, and the
    scroll positions, the unknown index and the playhead are in range. *)
Theorem session_safe latest turns :
  published latest -> Forall turn_ok turns ->
  exists s, event_loop turns (session_start latest) = Some s /\ app_ok (ss_app s).
Proof.
  intros Hp Ht. destruct (event_loop_ok turns (session_start latest) Ht) as (s & Hs & [Ha _]).
  - by apply session_start_ok.
  - by exists s.
Qed.
End Session.

(** ** Moving the selection *)

Section Moves.
Context `{Env : ViewEnv}.

(** Where a movement key goes from [index] among [len] rows. *)
Definition target (code : KeyCode) (index len : Z) : option Z :=
  if hit [KC_Up; ch "k"] code then Some (index - 1)
  else if hit [KC_Down; ch "j"] code then Some (index + 1)
  else if hit [KC_PageUp] code then Some (index - 10)
  else if hit [KC_PageDown] code then Some (index + 10)
  else if hit [KC_Home; ch "g"] code then Some 0
  else if hit [KC_End; ch "G"] code then Some (len - 1)
  else None.

Lemma row_position_at f rows i r :
  rows !! i = Some r -> f (tr_stream r) = true ->
  (forall j r', rows !! j = Some r' -> f (tr_stream r') = true -> j = i) ->
  row_position f rows = Some (Z.of_nat i).
Proof.
  intros Hr Hf Huniq. unfold row_position.
  rewrite (proj2 (list_find_Some (fun r => f (tr_stream r) = true) rows i r)); [done|].
  split; [done|]. split; [done|]. intros j r' Hj Hlt Hf'. specialize (Huniq j r' Hj Hf'). lia.
Qed.

Lemma selected_bounds a rows : rows <> [] -> 0 <= selected_index a rows < blen rows.
Proof.
  intros Hne. assert (0 < blen rows) by (destruct rows; [done|unfold blen; simpl; lia]).
  unfold selected_index. destruct (app_selected a) as [seq|]; simpl; [|lia].
  unfold row_position. destruct (list_find _ rows) as [[i r]|] eqn:Hfind; simpl; [|lia].
  apply list_find_Some in Hfind as (Hi & _). apply lookup_lt_Some in Hi. unfold blen. lia.
Qed.

(** After choosing a row, it is the selected one. *)
Lemma selected_select rows i a :
  NoDup (created_seq <$> (tr_stream <$> rows)) -> rows <> [] -> 0 <= i ->
  selected_index (select_row rows i a) rows = Z.min i (blen rows - 1).
Proof.
  intros Hnd Hne Hi. set (n := Z.min i (blen rows - 1)).
  assert (0 <= n < blen rows) as Hn by (unfold n; destruct rows; [done|unfold blen; simpl length; lia]).
  destruct (lookup_lt_is_Some_2 rows (Z.to_nat n)) as [r Hr]; [unfold blen in Hn; lia|].
  assert (select_row rows i a = set_selected (Some (created_seq (tr_stream r)))
    (if bool_decide (app_selected a <> Some (created_seq (tr_stream r))) then set_detail_scroll 0 a else a)) as ->.
  { unfold select_row. fold n. unfold row_at. rewrite Hr. by destruct rows. }
  unfold selected_index. cbn [set_selected app_selected mbind option_bind].
  rewrite (row_position_at _ _ _ _ Hr); [simpl; lia|apply Z.eqb_refl|].
  intros j r' Hj Heq%Z.eqb_eq. eapply (NoDup_lookup _ _ _ (created_seq (tr_stream r)) Hnd);
    rewrite !list_lookup_fmap, ?Hj, ?Hr; simpl; congruence.
Qed.

Lemma select_row_same rows i a :
  app_sort (select_row rows i a) = app_sort a /\ app_collapsed (select_row rows i a) = app_collapsed a /\
  active_query (select_row rows i a) = active_query a.
Proof. unfold select_row. repeat case_match; done. Qed.

(** A movement key reaches [select_row], on the row it is the target of. *)
Definition step_to (code : KeyCode) (i : Z) (index len : Z) : Prop :=
  forall a rows snap, selected_index a rows = index -> blen rows = len -> app_tab a = Tab_Streams ->
    browse_key a code = on_streams_key a code /\
    exists j, streams_key a code rows snap = select_row rows j a /\ 0 <= j /\ Z.min j (len - 1) = clamp 0 (len - 1) i.

#[local] Ltac run_hits :=
  repeat match goal with |- context [hit ?l ?k] => let v := eval vm_compute in (hit l k) in change (hit l k) with v end;
  cbn iota; cbn [andb].

Lemma hit_inv l code : hit l code = true -> code ∈ l.
Proof.
  unfold hit. rewrite existsb_exists. intros (k & Hk & ->%bool_decide_eq_true). by apply list_elem_of_In.
Qed.

Lemma target_step code i index len :
  0 <= index < len -> len <= MAX_ROWS -> target code index len = Some i -> step_to code i index len.
Proof.
  intros Hidx Hlen Ht a rows snap <- <- Htab. change MAX_ROWS with 10000 in Hlen. unfold target in Ht.
  set (n := selected_index a rows) in *. unfold clamp.
  repeat case_match; simplify_eq; match goal with H : hit _ code = true |- _ => apply hit_inv in H end;
    repeat match goal with H : code ∈ _ :: _ |- _ => apply elem_of_cons in H as [->|H] | H : code ∈ [] |- _ => by apply elem_of_nil in H end;
    (split; [unfold browse_key; run_hits; by rewrite Htab|]);
    (eexists; split; [unfold streams_key; cbv zeta; run_hits; reflexivity|]);
    fold n; unfold sat_sub, sat_add, usize_max; lia.
Qed.

Lemma rows_seqs_nodup snap (Hsnap : snapshot_forest snap) o collapsed visible :
  NoDup (created_seq <$> (tr_stream <$> capped (browse snap o collapsed visible))).
Proof.
  unfold capped. rewrite !fmap_take. eapply sublist_NoDup; [|apply sublist_take].
  apply NoDup_fmap_2_strong; [|by apply NoDup_browse].
  intros x y [Hx _]%elem_of_browse [Hy _]%elem_of_browse; [|done..]. by apply (seq_inj snap (sf_ok _ Hsnap)).
Qed.
End Moves.

Section Movement.
Context `{Env : ViewEnv} `{Hasher}.

(** In the Streams tab a movement key selects exactly the row it names, clamped to
    the rows shown, and leaves those rows as they are. *)
Theorem movement_exact e c pkts a code rows i :
  engine_wf e -> config_ok c -> trace_ok pkts -> quiet a -> app_tab a = Tab_Streams ->
  let ix := SnapshotIndex_new (snapshot (run e c pkts)) in
  fst <$> app_rows a ix = Some rows -> rows <> [] ->
  target code (selected_index a rows) (blen rows) = Some i ->
  exists a', fst <$> on_key a (mkKey code false false) ix = Some a' /\
    fst <$> app_rows a' ix = Some rows /\
    selected_index a' rows = clamp 0 (blen rows - 1) i.
Proof.
  intros He Hc Ht (Hq1 & Hq2 & Hq3) Htab ix Hrows Hne Htarget.
  destruct (reached_run False e c pkts He Hc Ht) as (Hs & _); [done|].
  apply store_snapshot_forest in Hs. subst ix. set (snap := snapshot (run e c pkts)) in *.
  pose proof (answers_flatten snap Hs (app_sort a) (app_collapsed a) (active_query a)) as Hans.
  fold (app_rows a) in Hans. rewrite (answers_fresh snap _ _ Hans) in Hrows. rewrite Hrows in Hans.
  destruct (spec_sets_of snap (active_query a)) as [sets|]; simplify_eq/=.
  set (rows := capped (browse snap (app_sort a) (app_collapsed a) (snd <$> sets))) in *.
  destruct (target_step _ _ _ _ (selected_bounds a rows Hne) (capped_le _) Htarget a rows snap eq_refl eq_refl Htab)
    as (Hkey & j & Hsel & Hj & Hmin).
  assert (answers snap (on_key a (mkKey code false false)) (Some (select_row rows j a))) as Hon.
  { unfold on_key. cbn [ke_control ke_code andb]. rewrite Hq1, Hq2, Hq3, Hkey.
    eapply answers_seq; [exact Hans|]. rewrite <- Hsel.
    apply answers_pure. by intros ix' [<-]. }
  exists (select_row rows j a). split; [by apply (answers_fresh snap)|].
  destruct (select_row_same rows j a) as (E1 & E2 & E3). unfold app_rows at 1. rewrite E1, E2, E3. split.
  - by apply (answers_fresh snap).
  - rewrite <- Hmin. apply selected_select; [by apply rows_seqs_nodup|done|done].
Qed.
End Movement.

(** ** Witnesses *)

Definition press (code : KeyCode) : Turn :=
  mkTurn 1 (snapshot (run store_engine (store_config EvictNone) store_trace)) (Some (mkKey code false false)).

(** A filter is typed, kept, the tree browsed and the timeline played. *)
Definition sample_session : list Turn :=
  press <$> [ch "/"; ch "d"; ch "n"; KC_Enter; ch "j"; KC_PageDown; ch "k"; ch "2"; ch " "; KC_Other 0; ch "h"; ch "q"].

Lemma session_safe_witness :
  let _ := plain_env in
  let latest := snapshot (run store_engine (store_config EvictNone) store_trace) in
  exists s, event_loop sample_session (session_start latest) = Some s /\ app_ok (ss_app s) /\
    app_quit (ss_app s) = true.
Proof.
  intros env latest.
  assert (published store_engine (store_config EvictNone) latest) as Hp.
  { split; [|by vm_compute]. exists store_trace. split; [exact store_trace_ok|done]. }
  destruct (session_safe (Env := env) store_engine (store_config EvictNone) store_engine_wf
    (I : config_ok (store_config EvictNone)) latest sample_session Hp) as (s & Hs & Hok).
  { apply Forall_fmap, Forall_forall. intros code Hcode. split; [exact Hp|]. intros k [= <-].
    repeat (apply elem_of_cons in Hcode as [->|Hcode]; [vm_compute; repeat constructor; discriminate|]).
    by apply elem_of_nil in Hcode. }
  exists s. split; [exact Hs|]. split; [exact Hok|].
  assert (app_quit ∘ ss_app <$> event_loop (Env := env) sample_session (session_start latest) = Some true) as Hq
    by (vm_compute; reflexivity).
  rewrite Hs in Hq. by injection Hq.
Defined.

Lemma movement_exact_witness :
  let _ := plain_env in
  let ix := SnapshotIndex_new (snapshot (run store_engine (store_config EvictNone) store_trace)) in
  exists rows a', fst <$> app_rows App_default ix = Some rows /\
    fst <$> on_key App_default (mkKey KC_PageDown false false) ix = Some a' /\
    selected_index a' rows = 4.
Proof.
  intros env ix.
  assert (exists rows, fst <$> app_rows App_default ix = Some rows /\ blen rows = 5) as (rows & Hrows & Hlen)
    by (eexists; split; vm_compute; reflexivity).
  destruct (movement_exact (Env := env) store_engine (store_config EvictNone) store_trace App_default KC_PageDown
    rows 10 store_engine_wf (I : config_ok (store_config EvictNone)) store_trace_ok ltac:(by split_and!) eq_refl)
    as (a' & Hkey & _ & Hsel); [exact Hrows|intros ->; discriminate Hlen|reflexivity|].
  exists rows, a'. split; [exact Hrows|]. split; [exact Hkey|]. rewrite Hsel, Hlen. reflexivity.
Defined.

(** ** What is read and what is shown

    [refresh_query] parses the trimmed text and the tree is filtered by the text
    as typed.  The two differ when the filter starts with white space beyond
    ASCII: U+2003 becomes part of the first term, and a no-break space panics the
    lexer although the box shows a valid query. *)
Example filter_trim_diverges :
  let _ := plain_env in
  let typed := [0x2003; 100] in
  let a := set_filter_text typed App_default in
  (app_query <$> refresh_query a) = Some (Some (FreeText "d")) /\
  (active_query <$> refresh_query a) = Some (Some (as_str typed)) /\
  StreamQuery_parse (as_str typed) = Parsed (Ok (FreeText (as_str typed))) /\
  StreamQuery_parse (as_str (trim [0xA0; 100])) = Parsed (Ok (FreeText "d")) /\
  StreamQuery_parse (as_str [0xA0; 100]) = Panicked.
Proof. vm_compute. repeat split. Qed.
