(* ===== verification/Hub.v ===== *)
(** * The snapshot hub and the web server's index memo

    Models [crates/pktflow-view/src/hub.rs] and the part of
    [crates/pktflow-web/src/lib.rs] that serves requests from it: [WebState]'s
    current hub and [WebState::index], which memoizes one view index under the
    hub's generation.

    Every method of the hub is one atomic action on it (a lock or an atomic),
    except [publish], which is two: the snapshot is replaced, then the generation
    is bumped.  Writer, request handlers and uploads interleave at those actions;
    [serve_step] is one action of the writer or of a handler, [step] adds uploads.
    A client's [pc] is where it is in [WebState::index].

    With one hub a request never sees a snapshot older than the publishes that
    were complete when it began, and the snapshot it sees was published.  With an
    upload the memo mixes hubs up: [memo_confuses_hubs]. *)

From stdpp Require Import relations.
From S2P Require Import Prelude.
From S2P Require Import Values.
From S2P Require Import Types.
From S2P Require Import Store.
From S2P Require Import Queries.

Inductive HubMode := Mode_Offline | Mode_Live.

(** [h_history] is ghost: every snapshot the hub ever held, oldest first; the
    current one is its last. *)
Record SnapshotHub := mkHub {
  h_snapshot : AggregatorSnapshot;
  h_generation : Z;
  h_finished : bool;
  h_error : option string;
  h_source : string;
  h_mode : HubMode;
  h_progress_read : Z;
  h_progress_total : Z;
  h_history : list AggregatorSnapshot;
}.

Definition empty_snapshot : AggregatorSnapshot :=
  mkSnapshot [] [] (mkSummary 0 0 0 0 0 0 [] ((fun c => (c, 0)) <$> STOP_CLASSES)) 0 [].

Definition SnapshotHub_new (source : string) (mode : HubMode) : SnapshotHub :=
  mkHub empty_snapshot 0 false None source mode 0 0 [empty_snapshot].

Definition set_progress (read total : Z) (h : SnapshotHub) : SnapshotHub :=
  mkHub (h_snapshot h) (h_generation h) (h_finished h) (h_error h) (h_source h) (h_mode h) read total
    (h_history h).

Definition progress (h : SnapshotHub) : option (Z * Z) :=
  let total := h_progress_total h in
  if 0 <? total then Some (Z.min (h_progress_read h) total, total) else None.

(** The two actions of [publish]. *)
Definition store_snapshot (s : AggregatorSnapshot) (h : SnapshotHub) : SnapshotHub :=
  mkHub s (h_generation h) (h_finished h) (h_error h) (h_source h) (h_mode h) (h_progress_read h)
    (h_progress_total h) (h_history h ++ [s]).

Definition bump_generation (h : SnapshotHub) : SnapshotHub :=
  mkHub (h_snapshot h) ((h_generation h + 1) mod 2 ^ 64) (h_finished h) (h_error h) (h_source h) (h_mode h)
    (h_progress_read h) (h_progress_total h) (h_history h).

Definition publish (s : AggregatorSnapshot) (h : SnapshotHub) : SnapshotHub :=
  bump_generation (store_snapshot s h).

Definition latest (h : SnapshotHub) : AggregatorSnapshot := h_snapshot h.
Definition hub_generation (h : SnapshotHub) : Z := h_generation h.

Definition mark_finished (h : SnapshotHub) : SnapshotHub :=
  mkHub (h_snapshot h) (h_generation h) true (h_error h) (h_source h) (h_mode h) (h_progress_read h)
    (h_progress_total h) (h_history h).

Definition is_finished (h : SnapshotHub) : bool := h_finished h.

Definition set_error (message : string) (h : SnapshotHub) : SnapshotHub :=
  mark_finished (mkHub (h_snapshot h) (h_generation h) (h_finished h) (Some message) (h_source h) (h_mode h)
    (h_progress_read h) (h_progress_total h) (h_history h)).

Definition hub_error (h : SnapshotHub) : option string := h_error h.

(** ** The web state *)

(** A view index by what it was built from: the hub and the snapshot. *)
Record BuiltIndex := mkBuilt { built_hub : nat; built_from : AggregatorSnapshot }.

(** Where a handler is in [WebState::index]; [floor] is ghost: the publishes of
    its hub that were complete when it read the hub. *)
Inductive pc :=
  | At_generation (hub : nat) (floor : Z)
  | At_memo (hub : nat) (floor generation : Z)
  | At_latest (hub : nat) (floor generation : Z)
  | At_store (hub : nat) (floor generation : Z) (index : BuiltIndex)
  | At_return (hub : nat) (floor : Z) (index : BuiltIndex).

Record World := mkWorld {
  hubs : list SnapshotHub;
  current : nat;
  index_memo : option (Z * BuiltIndex);
  clients : gmap nat pc;
}.

Definition World_new (h : SnapshotHub) : World := mkWorld [h] 0 None ∅.

Definition set_hub (i : nat) (h : SnapshotHub) (w : World) : World :=
  mkWorld (<[i := h]> (hubs w)) (current w) (index_memo w) (clients w).
Definition set_client (c : nat) (p : pc) (w : World) : World :=
  mkWorld (hubs w) (current w) (index_memo w) (<[c := p]> (clients w)).
Definition set_memo (m : Z * BuiltIndex) (w : World) : World :=
  mkWorld (hubs w) (current w) (Some m) (clients w).

(** The single writer of a hub is between the two actions of [publish]. *)
Definition mid_publish (h : SnapshotHub) : Prop := Z.of_nat (length (h_history h)) = h_generation h + 2.

(** What a handler does next, from the hub it holds and the memo. *)
Definition memo_hit (generation : Z) (memo : option (Z * BuiltIndex)) : option BuiltIndex :=
  '(cached_gen, index) ← memo; if cached_gen =? generation then Some index else None.

Inductive serve_step : World -> World -> Prop :=
  | Writer_store w i h s :
      hubs w !! i = Some h -> ~ mid_publish h -> serve_step w (set_hub i (store_snapshot s h) w)
  | Writer_bump w i h :
      hubs w !! i = Some h -> mid_publish h -> serve_step w (set_hub i (bump_generation h) w)
  | Writer_finish w i h :
      hubs w !! i = Some h -> serve_step w (set_hub i (mark_finished h) w)
  | Writer_progress w i h read total :
      hubs w !! i = Some h -> serve_step w (set_hub i (set_progress read total h) w)
  | Writer_error w i h msg :
      hubs w !! i = Some h -> serve_step w (set_hub i (set_error msg h) w)
  | Client_hub w c h :
      hubs w !! current w = Some h ->
      serve_step w (set_client c (At_generation (current w) (h_generation h)) w)
  | Client_generation w c i h floor :
      clients w !! c = Some (At_generation i floor) -> hubs w !! i = Some h ->
      serve_step w (set_client c (At_memo i floor (hub_generation h)) w)
  | Client_memo w c i floor g :
      clients w !! c = Some (At_memo i floor g) ->
      serve_step w (set_client c (match memo_hit g (index_memo w) with
                                  | Some index => At_return i floor index
                                  | None => At_latest i floor g
                                  end) w)
  | Client_latest w c i h floor g :
      clients w !! c = Some (At_latest i floor g) -> hubs w !! i = Some h ->
      serve_step w (set_client c (At_store i floor g (mkBuilt i (latest h))) w)
  | Client_store w c i floor g index :
      clients w !! c = Some (At_store i floor g index) ->
      serve_step w (set_memo (g, index) (set_client c (At_return i floor index) w)).

(** An upload starts a pipeline on a fresh hub and swaps it in. *)
Inductive step : World -> World -> Prop :=
  | Step_serve w w' : serve_step w w' -> step w w'
  | Step_upload w name :
      step w (mkWorld (hubs w ++ [SnapshotHub_new name Mode_Offline]) (length (hubs w)) (index_memo w) (clients w)).

(** ** One hub *)

(** A snapshot of [h] at least as new as its [n]-th publish. *)
Definition at_least (n : Z) (h : SnapshotHub) (s : AggregatorSnapshot) : Prop :=
  exists k, h_history h !! k = Some s /\ n <= Z.of_nat k.

Record hub_ok (h : SnapshotHub) : Prop := mkHubOk {
  ho_latest : last (h_history h) = Some (h_snapshot h);
  ho_generation : 0 <= h_generation h;
  ho_history : Z.of_nat (length (h_history h)) = h_generation h + 1 \/ mid_publish h;
}.

Definition client_ok (h : SnapshotHub) (p : pc) : Prop :=
  match p with
  | At_generation i floor => i = 0%nat /\ floor <= h_generation h
  | At_memo i floor g | At_latest i floor g => i = 0%nat /\ floor <= g <= h_generation h
  | At_store i floor g index =>
      i = 0%nat /\ floor <= g <= h_generation h /\ at_least g h (built_from index)
  | At_return i floor index => i = 0%nat /\ at_least floor h (built_from index)
  end.

Record world_ok (w : World) : Prop := mkWorldOk {
  wo_hub : exists h, hubs w = [h] /\ hub_ok h /\
    (forall c p, clients w !! c = Some p -> client_ok h p) /\
    (forall g index, index_memo w = Some (g, index) -> at_least g h (built_from index));
  wo_current : current w = 0%nat;
}.

(** What later hubs keep of earlier ones. *)
Record hub_grows (h h' : SnapshotHub) : Prop := mkGrows {
  hg_history : h_history h `prefix_of` h_history h';
  hg_generation : h_generation h <= h_generation h';
}.

Lemma at_least_grows n h h' s : h_history h `prefix_of` h_history h' -> at_least n h s -> at_least n h' s.
Proof.
  intros [l Hl] (k & Hk & Hn). exists k. split; [|done]. rewrite Hl. by apply lookup_app_l_Some.
Qed.

Lemma client_ok_grows h h' p : hub_grows h h' -> client_ok h p -> client_ok h' p.
Proof.
  intros [Hh Hg]. destruct p; simpl; intuition (try lia); by eapply at_least_grows.
Qed.

Lemma latest_at_least h : hub_ok h -> at_least (h_generation h) h (latest h).
Proof.
  intros [Hlast Hgen Hlen]. pose proof Hlast as Hl. rewrite last_lookup in Hl.
  eexists. split; [exact Hl|]. unfold mid_publish in Hlen. lia.
Qed.

(** The writer's actions keep the hub and never go back. *)
Lemma hub_store h s : hub_ok h -> ~ mid_publish h -> hub_ok (store_snapshot s h) /\ hub_grows h (store_snapshot s h).
Proof.
  intros [H1 H2 H3] Hmid. split; split; simpl; [by rewrite last_snoc|done| |by eexists|lia].
  right. unfold mid_publish in *. simpl. rewrite length_app. simpl. lia.
Qed.

Lemma hub_bump h : hub_ok h -> mid_publish h -> Z.of_nat (length (h_history h)) < 2 ^ 64 ->
  hub_ok (bump_generation h) /\ hub_grows h (bump_generation h).
Proof.
  intros [H1 H2 H3] Hmid Hlen. unfold mid_publish in *.
  split; split; simpl; rewrite ?Z.mod_small by lia; [done|lia|left; lia|done|lia].
Qed.

Lemma hub_same h h' : h_history h' = h_history h -> h_generation h' = h_generation h ->
  h_snapshot h' = h_snapshot h -> hub_ok h -> hub_ok h' /\ hub_grows h h'.
Proof.
  intros E1 E2 E3 [H1 H2 H3]. unfold mid_publish in *.
  split; split; unfold mid_publish; rewrite ?E1, ?E2, ?E3; (done || lia).
Qed.

(** A world whose only hub moves on. *)
Lemma world_set_hub w h h' :
  hubs w = [h] -> hub_ok h' -> hub_grows h h' -> world_ok w -> world_ok (set_hub 0 h' w).
Proof.
  intros Hw Hh' Hg [(k & Hk & Hok & Hcl & Hmemo) Hcur]. rewrite Hw in Hk. simplify_eq.
  split; [|done]. exists h'. simpl. rewrite Hw. split; [done|]. split; [done|]. split.
  - intros c p Hp. eapply client_ok_grows; [done|by eapply Hcl].
  - intros g index Hi. eapply at_least_grows; [apply Hg|by eapply Hmemo].
Qed.

Lemma world_set_client w c p h :
  hubs w = [h] -> client_ok h p -> world_ok w -> world_ok (set_client c p w).
Proof.
  intros Hw Hp [(k & Hk & Hok & Hcl & Hmemo) Hcur]. rewrite Hw in Hk. simplify_eq.
  split; [|done]. exists k. simpl. split; [done|]. split; [done|]. split; [|done].
  intros c' p'. rewrite lookup_insert_Some. intros [[<- <-]|[_ ?]]; [done|by eapply Hcl].
Qed.

Lemma memo_hit_at_least h memo g index : (forall g index, memo = Some (g, index) -> at_least g h (built_from index)) ->
  memo_hit g memo = Some index -> at_least g h (built_from index).
Proof.
  unfold memo_hit. intros Hmemo. destruct memo as [[g' b]|]; simpl; [|done].
  destruct (Z.eqb_spec g' g); intros; simplify_eq. by apply Hmemo.
Qed.

Lemma at_least_weaken n m h s : n <= m -> at_least m h s -> at_least n h s.
Proof. intros ? (k & ? & ?). exists k. split; [done|lia]. Qed.

Definition history_of (w : World) : list AggregatorSnapshot := from_option h_history [] (hubs w !! 0%nat).

Lemma serve_step_ok w w' :
  serve_step w w' -> world_ok w -> Z.of_nat (length (history_of w)) < 2 ^ 64 -> world_ok w'.
Proof.
  intros Hstep Hok Hlen. pose proof Hok as [(h & Hw & Hh & Hcl & Hmemo) Hcur].
  unfold history_of in Hlen. rewrite Hw in Hlen. simpl in Hlen.
  assert (forall i k, hubs w !! i = Some k -> i = 0%nat /\ k = h) as Hone.
  { intros i k. rewrite Hw. destruct i as [|[]]; simpl; intros; by simplify_eq. }
  inversion Hstep; subst;
    repeat match goal with H : hubs w !! _ = Some _ |- _ => apply Hone in H as [? ->]; subst end;
    repeat match goal with H : clients w !! _ = Some _ |- _ => apply Hcl in H; simpl in H end.
  - destruct (hub_store h s) as [? ?]; [done|done|]. by apply world_set_hub with h.
  - destruct (hub_bump h) as [? ?]; [done|done|done|]. by apply world_set_hub with h.
  - destruct (hub_same h (mark_finished h)) as [? ?]; [done..|]. by apply world_set_hub with h.
  - destruct (hub_same h (set_progress read total h)) as [? ?]; [done..|]. by apply world_set_hub with h.
  - destruct (hub_same h (set_error msg h)) as [? ?]; [done..|]. by apply world_set_hub with h.
  - apply world_set_client with h; [done| |done]. simpl. rewrite Hcur. split; [done|lia].
  - apply world_set_client with h; [done| |done]. simpl. unfold hub_generation. intuition lia.
  - apply world_set_client with h; [done| |done]. destruct (memo_hit g (index_memo w)) as [index|] eqn:Hhit; simpl.
    + destruct H as [? ?]. split; [done|]. apply at_least_weaken with g; [lia|]. by eapply memo_hit_at_least.
    + done.
  - apply world_set_client with h; [done| |done]. simpl. destruct H as [? ?]. split; [done|]. split; [done|].
    apply at_least_weaken with (h_generation h); [lia|by apply latest_at_least].
  - destruct H as (? & ? & Hat).
    assert (world_ok (set_client c (At_return i floor index) w)) as [(k & Hk & Hok' & Hcl' & _) Hcur'].
    { apply world_set_client with h; [done| |done]. simpl. split; [done|]. apply at_least_weaken with g; [lia|done]. }
    simpl in Hk. rewrite Hw in Hk. simplify_eq. split; [|done]. exists k. simpl.
    split; [done|]. split; [done|]. split; [done|]. intros g' b ?. by simplify_eq.
Qed.

Lemma history_grows w w' : serve_step w w' -> (length (history_of w) <= length (history_of w'))%nat.
Proof.
  intros Hstep. unfold history_of. inversion Hstep; subst; simpl; try done;
    (destruct i as [|i]; [|by rewrite list_lookup_insert_ne]);
    rewrite list_lookup_insert_eq by (by eapply lookup_lt_Some);
    match goal with H : hubs w !! _ = Some _ |- _ => rewrite H end; simpl; rewrite ?length_app; lia.
Qed.

Lemma world_new_ok source mode : world_ok (World_new (SnapshotHub_new source mode)).
Proof.
  split; [|done]. eexists. split; [done|]. split; [split; simpl; [done|lia|by left]|].
  split; [|done]. intros c p Hp. simpl in Hp. by rewrite lookup_empty in Hp.
Qed.

(** A snapshot told apart by its clock. *)
Definition snapshot_at (t : Z) : AggregatorSnapshot :=
  mkSnapshot [] [] (sn_summary empty_snapshot) t [].

(** One action of a concrete run. *)
Tactic Notation "serve" uconstr(rule) := eapply rule; first [reflexivity|unfold mid_publish; simpl; lia].
Tactic Notation "served" uconstr(rule) := eapply rtc_l; [first [apply Step_serve|idtac]; serve rule|].

(** C16: Serving one hub, a request that returns hands out an index of a snapshot that
    was published, at least as new as every publish complete when the request
    read its hub - whatever publishes, other requests and memo updates came in
    between. *)
Theorem index_fresh source mode w c i floor index :
  rtc serve_step (World_new (SnapshotHub_new source mode)) w ->
  Z.of_nat (length (history_of w)) < 2 ^ 64 ->
  clients w !! c = Some (At_return i floor index) ->
  exists h, hubs w = [h] /\ at_least floor h (built_from index) /\ built_from index ∈ h_history h.
Proof.
  intros Hrun Hlen Hc.
  assert (Z.of_nat (length (history_of w)) < 2 ^ 64 -> world_ok w) as Hok.
  { clear -Hrun. revert Hrun. generalize w. clear w.
    apply (rtc_ind_r (fun w => Z.of_nat (length (history_of w)) < 2 ^ 64 -> world_ok w)
      (World_new (SnapshotHub_new source mode))).
    - intros _. apply world_new_ok.
    - intros w1 w2 _ Hstep IH Hlen. pose proof (history_grows _ _ Hstep). eapply serve_step_ok; [done|apply IH; lia|lia]. }
  destruct (Hok Hlen) as [(h & Hw & Hh & Hcl & _) _]. exists h. split; [done|].
  destruct (Hcl _ _ Hc) as [_ Hat]. split; [done|]. destruct Hat as (k & Hk & _). by eapply list_elem_of_lookup_2.
Qed.

Lemma index_fresh_witness :
  exists w, clients w !! 7%nat = Some (At_return 0 1 (mkBuilt 0 (snapshot_at 1))) /\
    exists h, hubs w = [h] /\ at_least 1 h (snapshot_at 1) /\ snapshot_at 1 ∈ h_history h.
Proof.
  assert (exists w, rtc serve_step (World_new (SnapshotHub_new "a.pcap" Mode_Offline)) w /\
    Z.of_nat (length (history_of w)) < 2 ^ 64 /\
    clients w !! 7%nat = Some (At_return 0 1 (mkBuilt 0 (snapshot_at 1)))) as (w & Hrun & Hlen & Hc).
  { eexists. split; [|split].
    - served (Writer_store _ 0 _ (snapshot_at 1)). served (Writer_bump _ 0).
      served (Client_hub _ 7). served (Client_generation _ 7). served (Client_memo _ 7).
      served (Client_latest _ 7). served (Client_store _ 7). apply rtc_refl.
    - reflexivity.
    - reflexivity. }
  exists w. split; [exact Hc|]. exact (index_fresh _ _ _ _ _ _ _ Hrun Hlen Hc).
Defined.

(** ** Two hubs *)

(** The second hub's pipeline is done, and a request for it is served an index
    of the first hub's capture: after an upload the memo still answers for the
    old hub whenever the two generations agree. *)
Definition confused (w : World) : Prop :=
  exists c floor index h,
    current w = 1%nat /\ hubs w !! 1%nat = Some h /\ is_finished h = true /\
    clients w !! c = Some (At_return 1 floor index) /\
    built_hub index = 0%nat /\ built_from index ∉ h_history h.

Theorem memo_confuses_hubs :
  exists w, rtc step (World_new (SnapshotHub_new "a.pcap" Mode_Offline)) w /\ confused w.
Proof.
  eexists. split.
  - (* The first capture is published and looked at. *)
    served (Writer_store _ 0 _ (snapshot_at 1)). served (Writer_bump _ 0).
    served (Client_hub _ 0). served (Client_generation _ 0). served (Client_memo _ 0).
    served (Client_latest _ 0). served (Client_store _ 0).
    (* The upload, published as often, and a second request. *)
    eapply rtc_l; [apply (Step_upload _ "b.pcap")|].
    served (Writer_store _ 1 _ (snapshot_at 2)). served (Writer_bump _ 1). served (Writer_finish _ 1).
    served (Client_hub _ 1). served (Client_generation _ 1). served (Client_memo _ 1).
    apply rtc_refl.
  - exists 1%nat. do 3 eexists. split; [reflexivity|]. split; [reflexivity|]. split; [reflexivity|].
    split; [reflexivity|]. split; [reflexivity|]. simpl.
    rewrite !elem_of_cons, elem_of_nil. intros [H|[H|[]]]; apply (f_equal sn_clock) in H; simpl in H; lia.
Qed.
