(* ===== verification/Json.v ===== *)
(** * JSON projections of streams

    Models [crates/pktflow-view/src/json.rs]: the record of a stream that the
    command line and the web server emit, as a [serde_json::Value].  Writing such
    a value as text is the crate's; so is [time]'s RFC 3339 format, a parameter
    with the fallback of [fmt.rs]. *)

From S2P Require Import Prelude.
From S2P Require Import Values.
From S2P Require Import Types.
From S2P Require Import Arena.
From S2P Require Import Rollups.
From S2P Require Import Store.
From S2P Require Import Queries.
From S2P Require Import Text.
From S2P Require Import Fmt.
From S2P Require Import StreamView.

(** ** Values

    [serde_json::Map] without [preserve_order] is a [BTreeMap]: members are kept
    sorted by name and inserting replaces. *)
Inductive Json :=
  | J_Null
  | J_Bool (b : bool)
  | J_Num (n : Z)
  | J_Str (s : string)
  | J_Arr (items : list Json)
  | J_Obj (members : list (string * Json)).

Definition JsonMap : Type := list (string * Json).

Fixpoint map_insert (name : string) (v : Json) (m : JsonMap) : JsonMap :=
  match m with
  | [] => [(name, v)]
  | (n, w) :: m' =>
      if String.eqb n name then (name, v) :: m'
      else if str_leb name n then (name, v) :: m
      else (n, w) :: map_insert name v m'
  end.

Fixpoint map_get (name : string) (m : JsonMap) : option Json :=
  match m with
  | [] => None
  | (n, w) :: m' => if String.eqb n name then Some w else map_get name m'
  end.

(** [json!({ ... })], and collecting pairs into a map. *)
Definition map_of (l : list (string * Json)) : JsonMap := foldl (fun m e => map_insert e.1 e.2 m) [] l.
Definition json_obj (l : list (string * Json)) : Json := J_Obj (map_of l).

(** [json!(option)]. *)
Definition json_opt {A} (f : A -> Json) (o : option A) : Json :=
  match o with Some a => f a | None => J_Null end.

(** [value\[name\]] of an object, null otherwise. *)
Definition member (name : string) (j : Json) : Json :=
  match j with J_Obj m => default J_Null (map_get name m) | _ => J_Null end.

Local Open Scope string_scope.

Definition direction_json (dir : PacketDirection) : string :=
  match dir with AtoB => "a_to_b" | BtoA => "b_to_a" end.

Definition close_reason_json (reason : CloseReason) : string :=
  match reason with
  | ProtocolClose => "protocol_close"
  | IdleTimeout => "idle_timeout"
  | LruEvicted => "lru_evicted"
  | CaptureEnd => "capture_end"
  end.

Section Json.
Context `{Env : ViewEnv}.
(** [time::OffsetDateTime::from(t).format(&Rfc3339)], as an [Option]. *)
Context (format_rfc3339 : SystemTime -> option string).

Definition rfc3339 (t : SystemTime) : string := default "1970-01-01T00:00:00Z" (format_rfc3339 t).

Fixpoint field_value_json (protocol name : string) (value : Value) : Json :=
  match value with
  | VU64 v => J_Num v
  | VI64 v => J_Num v
  | VBool v => J_Bool v
  | VStr s => J_Str s
  | VBytes _ => J_Str (field_value_str protocol name value)
  | VList items => J_Arr ((fix values vs := match vs with
                                            | [] => []
                                            | v :: vs' => field_value_json protocol name v :: values vs'
                                            end) items)
  end.

(** ** Endpoints *)

Record Endpoints := mkEndpoints { side_a : JsonMap; side_b : JsonMap; side_key : JsonMap }.

(** [name.starts_with("dst_") && fields.get("src_" + name\[4..\]).is_some()]. *)
Definition has_source (fields : FieldMap.t) (name : string) : bool :=
  match strip_prefix "dst_" name with
  | Some suffix => bool_decide (is_Some (FieldMap.get ("src_" +:+ suffix) fields))
  | None => false
  end.

(** The destination a [src_] field is paired with. *)
Definition destination (fields : FieldMap.t) (name : string) : option (string * Value) :=
  suffix ← strip_prefix "src_" name;
  v ← FieldMap.get ("dst_" +:+ suffix) fields;
  Some ("dst_" +:+ suffix, v).

(** One round of the loop over the key fields. *)
Definition place_field (protocol : string) (initiator : PacketDirection) (fields : FieldMap.t)
    (acc : Endpoints) (e : FieldName * Value) : Endpoints :=
  let json := fun (f : string * Value) => field_value_json protocol f.1 f.2 in
  match destination fields e.1 with
  | Some dst =>
      let '(a, b) := match initiator with AtoB => (e, dst) | BtoA => (dst, e) end in
      mkEndpoints (map_insert a.1 (json a) (side_a acc)) (map_insert b.1 (json b) (side_b acc)) (side_key acc)
  | None =>
      if has_source fields e.1 then acc
      else if String.eqb e.1 "app" then acc
      else mkEndpoints (side_a acc) (side_b acc) (map_insert e.1 (json e) (side_key acc))
  end.

Definition endpoint_json (s : Stream) : Json * Json * Json :=
  match condensed s with
  | Some info =>
      let name := ephemeral_field info in
      match FieldMap.get name (key_fields s) with
      | Some value =>
          (J_Obj [(name, field_value_json (st_protocol s) name value)], J_Obj [(name, J_Str "*")], J_Obj [])
      | None => (J_Obj [], J_Obj [], J_Obj [])
      end
  | None =>
      let sides := foldl (place_field (st_protocol s) (initiator s) (key_fields s)) (mkEndpoints [] [] [])
                     (FieldMap.iter (key_fields s)) in
      (J_Obj (side_a sides), J_Obj (side_b sides), J_Obj (side_key sides))
  end.

(** ** Rollups *)

Definition point_json (base : SystemTime) (protocol field : string) (p : SeriesPoint) : Json :=
  json_obj [("ts", J_Str (rfc3339 (point_ts p base))); ("dir", J_Str (direction_json (point_dir p)));
            ("value", J_Str (field_value_str protocol field (point_value p)))].

Definition rollup_json (base : SystemTime) (protocol field : string) (rollup : Rollup) : Json :=
  let render := fun v => J_Str (field_value_str protocol field v) in
  match rollup with
  | Accumulate values count overflow =>
      json_obj [("kind", J_Str "accumulate"); ("values", J_Arr (render <$> values));
                ("distinct", J_Num (blen values)); ("observations", J_Num count);
                ("overflow", J_Bool overflow)]
  | Sample first last =>
      json_obj [("kind", J_Str "sample"); ("first", json_opt render first); ("last", json_opt render last)]
  | Series ring _ truncated =>
      json_obj [("kind", J_Str "series"); ("points", J_Arr (point_json base protocol field <$> ring));
                ("truncated", J_Bool truncated)]
  end.

(** ** Stream records *)

Definition both_ways (f : DirStats -> Z) (s : Stream) : Json :=
  json_obj [("a_to_b", J_Num (f (stats s).1)); ("b_to_a", J_Num (f (stats s).2))].

Definition condensed_json (info : CondensedInfo) : Json :=
  json_obj [("member_flows", J_Num (member_flows info)); ("ephemeral_field", J_Str (ephemeral_field info));
            ("overflow", J_Bool (ci_overflow info))].

Definition stream_record (s : Stream) (seq_of : StreamId -> option Z) : JsonMap :=
  let '(endpoint_a, endpoint_b, key) := endpoint_json s in
  let rollups := map_of ((fun e => (e.1, rollup_json (first_seen s) (st_protocol s) e.1 e.2)) <$> st_rollups s) in
  let m := map_of
    [("id", J_Num (created_seq s));
     ("protocol", J_Str (st_protocol s));
     ("parent", json_opt J_Num (p ← parent s; seq_of p));
     ("children", J_Arr (J_Num <$> omap seq_of (children s)));
     ("endpoint_a", endpoint_a);
     ("endpoint_b", endpoint_b);
     ("key", key);
     ("initiator", J_Str (direction_json (initiator s)));
     ("state", json_opt J_Str (state s));
     ("closed", json_opt (fun r => J_Str (close_reason_json r)) (closed s));
     ("first_seen", J_Str (rfc3339 (first_seen s)));
     ("last_seen", J_Str (rfc3339 (last_seen s)));
     ("packets", both_ways st_packets s);
     ("bytes", both_ways st_bytes s);
     ("opaque_bytes", J_Num (opaque_bytes s));
     ("rollups", J_Obj rollups)] in
  match condensed s with
  | Some info => map_insert "condensed" (condensed_json info) m
  | None => m
  end.
End Json.
