(* ===== verification/JsonProps.v ===== *)
(** * What a stream record says

    The members of a map are what was last inserted under their names; the two
    endpoint objects and the key object of a record split the key fields exactly:
    each paired field is in the slot its side and the initiator name, every other
    field but [app] is in the key, and nothing else is. *)

From S2P Require Import Prelude.
From S2P Require Import Values.
From S2P Require Import Types.
From S2P Require Import Arena.
From S2P Require Import Store.
From S2P Require Import Text.
From S2P Require Import Fmt.
From S2P Require Import QueryLex.
From S2P Require Import Json.

(** ** Maps *)

Lemma map_get_insert name k v m :
  map_get name (map_insert k v m) = if String.eqb k name then Some v else map_get name m.
Proof.
  induction m as [|[n w] m IH]; [done|]. simpl.
  destruct (String.eqb_spec n k) as [->|Hnk]; simpl; [by destruct (String.eqb k name)|].
  destruct (str_leb k n); simpl; [done|]. rewrite IH.
  destruct (String.eqb_spec n name) as [->|]; [|done].
  destruct (String.eqb_spec k name); congruence.
Qed.

(** Looking a name up in a literal is finding its last occurrence. *)
Lemma map_get_of l name :
  map_get name (map_of l) = foldl (fun o e => if String.eqb e.1 name then Some e.2 else o) None l.
Proof.
  unfold map_of. induction l as [|e l IH] using rev_ind; [done|].
  rewrite !foldl_app. simpl. by rewrite map_get_insert, IH.
Qed.

(** ** Names *)

Lemma strip_prefix_Some pre s rest : strip_prefix pre s = Some rest <-> s = pre +:+ rest.
Proof.
  revert s. induction pre as [|c pre IH]; intros s; simpl; [split; [by intros [= ->]|by intros ->]|].
  destruct s as [|d s]; [done|]. destruct (Ascii.eqb_spec c d) as [->|Hne].
  - rewrite IH. split; [by intros ->|]. by intros [= ->].
  - split; [done|]. intros [= ? ?]. congruence.
Qed.

Section Endpoints.
Context `{Env : ViewEnv} (protocol : string) (initiator : PacketDirection) (fields : FieldMap.t).
Context (Hfields : FieldMap.ok fields).

Local Open Scope string_scope.

(** The field is a [src_] with its [dst_], or a [dst_] with its [src_]. *)
Definition is_source (name : string) : bool := bool_decide (is_Some (destination fields name)).

Lemma destination_Some name d v :
  destination fields name = Some (d, v) <->
  exists x, name = "src_" +:+ x /\ d = "dst_" +:+ x /\ FieldMap.get d fields = Some v.
Proof.
  unfold destination. rewrite bind_Some. split.
  - intros (x & Hx%strip_prefix_Some & Hv). apply bind_Some in Hv as (w & Hw & ?). simplify_eq. by exists x.
  - intros (x & -> & -> & Hv). exists x. split; [by apply strip_prefix_Some|]. by rewrite Hv.
Qed.

Lemma has_source_iff name :
  has_source fields name = true <-> exists x, name = "dst_" +:+ x /\ is_Some (FieldMap.get ("src_" +:+ x) fields).
Proof.
  unfold has_source. destruct (strip_prefix "dst_" name) as [x|] eqn:Hx.
  - apply strip_prefix_Some in Hx as ->. rewrite bool_decide_eq_true. split; [by exists x|].
    intros (y & Heq%(inj (String.append "dst_")) & Hy). by subst y.
  - split; [done|]. intros (x & Hname & _). apply strip_prefix_Some in Hname. congruence.
Qed.

Lemma source_not_destination name : is_source name = true -> has_source fields name = false.
Proof.
  unfold is_source. rewrite bool_decide_eq_true. intros [[d v] (x & -> & _)%destination_Some]. done.
Qed.

(** Where the fields of [l] have been put. *)
Record placed (l : FieldMap.t) (acc : Endpoints) : Prop := mkPlaced {
  pl_near name j : map_get name (match initiator with AtoB => side_a acc | BtoA => side_b acc end) = Some j <->
    exists v, (name, v) ∈ l /\ is_source name = true /\ j = field_value_json protocol name v;
  pl_far name j : map_get name (match initiator with AtoB => side_b acc | BtoA => side_a acc end) = Some j <->
    exists src v w, (src, v) ∈ l /\ destination fields src = Some (name, w) /\ j = field_value_json protocol name w;
  pl_key name j : map_get name (side_key acc) = Some j <->
    exists v, (name, v) ∈ l /\ is_source name = false /\ has_source fields name = false /\ name <> "app" /\
      j = field_value_json protocol name v;
}.

Lemma placed_nil : placed [] (mkEndpoints [] [] []).
Proof.
  split; intros name j; (split; [destruct initiator; done|]).
  - by intros (v & ?%elem_of_nil & _).
  - by intros (s & v & w & ?%elem_of_nil & _).
  - by intros (v & ?%elem_of_nil & _).
Qed.

(** The source of a destination field. *)
Lemma destination_inj s1 s2 d w1 w2 :
  destination fields s1 = Some (d, w1) -> destination fields s2 = Some (d, w2) -> s1 = s2 /\ w1 = w2.
Proof.
  intros (x & -> & Hd & Hw)%destination_Some (y & -> & Hd' & Hw')%destination_Some.
  assert (x = y) as <- by (apply (inj (String.append "dst_")); congruence). split; congruence.
Qed.

(** *** One more field *)

Section Snoc.
Context (l : FieldMap.t) (acc : Endpoints) (n : string) (v : Value).
Context (Hnew : forall w, (n, w) ∈ l -> False) (Hacc : placed l acc).

Lemma elem_of_more x w : (x, w) ∈ (l ++ [(n, v)])%list <-> (x, w) ∈ l \/ (x = n /\ w = v).
Proof.
  rewrite elem_of_app, list_elem_of_singleton. split; [intros [?|[= -> ->]]; auto|].
  intros [?|[-> ->]]; auto.
Qed.

(** A field that is not of the kind [P] adds nothing to what is said of that kind. *)
Lemma more_other (P : string -> Prop) (Q : string -> Value -> Prop) name :
  ~ P n -> (exists w, (name, w) ∈ (l ++ [(n, v)])%list /\ P name /\ Q name w) <-> (exists w, (name, w) ∈ l /\ P name /\ Q name w).
Proof.
  intros Hn. setoid_rewrite elem_of_more. split; intros (w & Hw & Hp & Hq); exists w; [|auto].
  destruct Hw as [?|[-> ->]]; done.
Qed.

(** A field of the kind is said under its name. *)
Lemma more_own (P : string -> Prop) (Q : string -> Value -> Json -> Prop) m name j :
  P n -> (forall w k, Q n w k <-> k = field_value_json protocol n w) ->
  (map_get name m = Some j <-> exists w, (name, w) ∈ l /\ P name /\ Q name w j) ->
  map_get name (map_insert n (field_value_json protocol n v) m) = Some j <->
  exists w, (name, w) ∈ (l ++ [(n, v)])%list /\ P name /\ Q name w j.
Proof.
  intros Hn HQ Hm. setoid_rewrite elem_of_more. rewrite map_get_insert.
  destruct (String.eqb_spec n name) as [<-|Hne].
  - setoid_rewrite HQ. split; [intros [= <-]; exists v; auto|].
    intros (w & [?|[_ ->]] & _ & ->); [exfalso; by eapply Hnew|done].
  - rewrite Hm. split; intros (w & Hw & ?); exists w; [by auto|]. destruct Hw as [?|[-> _]]; done.
Qed.

Lemma placed_pair d w :
  destination fields n = Some (d, w) ->
  placed (l ++ [(n, v)])%list (place_field protocol initiator fields acc (n, v)).
Proof.
  intros Hd. destruct Hacc as [Hnear Hfar Hkey].
  assert (is_source n = true) as Hsrc by (apply bool_decide_eq_true; rewrite Hd; by eexists).
  assert (forall name j, map_get name (map_insert d (field_value_json protocol d w)
    (match initiator with AtoB => side_b acc | BtoA => side_a acc end)) = Some j <->
    exists src v0 w0, (src, v0) ∈ (l ++ [(n, v)])%list /\ destination fields src = Some (name, w0) /\
      j = field_value_json protocol name w0) as Hgoal.
  { intros name j. setoid_rewrite elem_of_more. rewrite map_get_insert.
    destruct (String.eqb_spec d name) as [<-|Hne].
    - split; [intros [= <-]; exists n, v, w; auto|]. intros (src & v0 & w0 & _ & Hs & ->).
      by destruct (destination_inj _ _ _ _ _ Hd Hs) as [_ ->].
    - rewrite Hfar. split; intros (src & v0 & w0 & Hv0 & Hs & ?); exists src, v0, w0; [by auto|].
      destruct Hv0 as [?|[-> ->]]; [done|]. rewrite Hd in Hs. by simplify_eq. }
  pose proof (fun name j => more_own (fun x => is_source x = true) (fun x w k => k = field_value_json protocol x w)
    _ name j Hsrc (fun _ _ => iff_refl _) (Hnear name j)) as Hown.
  unfold place_field. cbn [fst snd]. rewrite Hd.
  split; [by destruct initiator|by destruct initiator|].
  intros name j. rewrite (more_other (fun x => is_source x = false)
    (fun x w => has_source fields x = false /\ x <> "app" /\ j = field_value_json protocol x w)) by congruence.
  by destruct initiator.
Qed.

(** A field that is no source leaves the sides as they are. *)
Lemma placed_single acc' :
  destination fields n = None -> side_a acc' = side_a acc -> side_b acc' = side_b acc ->
  (forall name j, map_get name (side_key acc') = Some j <->
    exists w, (name, w) ∈ (l ++ [(n, v)])%list /\ is_source name = false /\ has_source fields name = false /\ name <> "app" /\
      j = field_value_json protocol name w) ->
  placed (l ++ [(n, v)])%list acc'.
Proof.
  intros Hd Ha Hb Hkey'. destruct Hacc as [Hnear Hfar _]. split; [| |done]; intros name j; rewrite Ha, Hb.
  - rewrite (more_other (fun x => is_source x = true) (fun x w => j = field_value_json protocol x w)); [done|].
    unfold is_source. rewrite Hd. by intros [? ?]%bool_decide_eq_true.
  - rewrite Hfar. setoid_rewrite elem_of_more. split; intros (src & v0 & w0 & Hv0 & Hs & ?); exists src, v0, w0; [by auto|].
    destruct Hv0 as [?|[-> ->]]; [done|congruence].
Qed.

Lemma placed_snoc : placed (l ++ [(n, v)])%list (place_field protocol initiator fields acc (n, v)).
Proof.
  destruct (destination fields n) as [[d w]|] eqn:Hd; [by apply placed_pair with d w|].
  assert (is_source n = false) as Hsrc by (apply bool_decide_eq_false; rewrite Hd; by intros []).
  unfold place_field. cbn [fst snd]. rewrite ?Hd. pose proof (pl_key _ _ Hacc) as Hkey.
  set (P := fun x => is_source x = false /\ has_source fields x = false /\ x <> "app").
  assert (forall name j, (exists w, (name, w) ∈ (l ++ [(n, v)])%list /\ is_source name = false /\
      has_source fields name = false /\ name <> "app" /\ j = field_value_json protocol name w) <->
      exists w, (name, w) ∈ (l ++ [(n, v)])%list /\ P name /\ j = field_value_json protocol name w) as HP.
  { intros name j. unfold P. split; [intros (x & ? & ? & ? & ? & ?)|intros (x & ? & (? & ? & ?) & ?)]; exists x; auto. }
  assert (forall name j, map_get name (side_key acc) = Some j <->
      exists w, (name, w) ∈ l /\ P name /\ j = field_value_json protocol name w) as HkeyP.
  { intros name j. rewrite Hkey. unfold P. split; [intros (x & ? & ? & ? & ? & ?)|intros (x & ? & (? & ? & ?) & ?)]; exists x; auto. }
  destruct (has_source fields n) eqn:Hhas; [|destruct (String.eqb_spec n "app") as [Happ|Happ]];
    apply placed_single; try done; intros name j; rewrite HP.
  1, 2: rewrite (more_other P (fun x w => j = field_value_json protocol x w)); [by apply HkeyP|]; intros (? & ? & ?); congruence.
  apply (more_own P (fun x w k => k = field_value_json protocol x w)); [by split_and!|done|by apply HkeyP].
Qed.
End Snoc.

Lemma placed_all l : FieldMap.ok l ->
  placed l (foldl (place_field protocol initiator fields) (mkEndpoints [] [] []) l).
Proof.
  induction l as [|[n v] l IH] using rev_ind; [intros _; apply placed_nil|].
  unfold FieldMap.ok, FieldMap.names. rewrite fmap_app, NoDup_app. intros (Hl & Hn & _).
  rewrite foldl_app. apply placed_snoc; [|by apply IH].
  intros w Hw. apply (Hn n); [by apply (list_elem_of_fmap_2 fst) in Hw|by left].
Qed.

(** An entry is what looking its name up finds. *)
Lemma elem_of_get n v : (n, v) ∈ fields <-> FieldMap.get n fields = Some v.
Proof.
  clear protocol initiator. revert Hfields. unfold FieldMap.ok, FieldMap.names.
  induction fields as [|[k w] m IH]; simpl; intros Hnd; [split; [by intros ?%elem_of_nil|done]|].
  apply NoDup_cons in Hnd as [Hk Hnd]. rewrite elem_of_cons. destruct (String.eqb_spec k n) as [->|Hne].
  - split; [|intros [= ->]; by left]. intros [[= ->]|Hin]; [done|]. destruct Hk. by apply (list_elem_of_fmap_2 fst) in Hin.
  - rewrite <- IH by done. split; [|by right]. intros [[= -> ->]|?]; done.
Qed.

(** A destination's name is one that has a source. *)
Lemma destination_iff name w :
  (exists src v, FieldMap.get src fields = Some v /\ destination fields src = Some (name, w)) <->
  FieldMap.get name fields = Some w /\ has_source fields name = true.
Proof.
  rewrite has_source_iff. split.
  - intros (src & v & Hv & (x & -> & -> & Hw)%destination_Some). split; [done|]. exists x. split; [done|by exists v].
  - intros (Hw & x & -> & [v Hv]). exists ("src_" +:+ x), v. split; [done|]. apply destination_Some. by exists x.
Qed.
End Endpoints.

(** The two endpoint objects and the key object of a record split the key fields of
    the stream: a [src_] field whose [dst_] is there is in the slot of the side
    that sent the first packet, its [dst_] in the other, every remaining field but
    [app] is in the key, and each object has nothing else. *)
Theorem endpoint_sides `{Env : ViewEnv} s :
  condensed s = None -> FieldMap.ok (key_fields s) ->
  exists a b key, endpoint_json s = (J_Obj a, J_Obj b, J_Obj key) /\
    let fields := key_fields s in
    let shows := fun (m : JsonMap) (is_in : string -> Prop) => forall name j,
      map_get name m = Some j <->
      exists v, FieldMap.get name fields = Some v /\ is_in name /\ j = field_value_json (st_protocol s) name v in
    shows (match initiator s with AtoB => a | BtoA => b end) (fun name => is_source fields name = true) /\
    shows (match initiator s with AtoB => b | BtoA => a end) (fun name => has_source fields name = true) /\
    shows key (fun name => is_source fields name = false /\ has_source fields name = false /\ name <> "app"%string).
Proof.
  intros Hc Hok. unfold endpoint_json. rewrite Hc.
  destruct (placed_all (st_protocol s) (initiator s) (key_fields s) (key_fields s) Hok) as [Hnear Hfar Hkey].
  eexists _, _, _. split; [done|]. cbv zeta. split; [|split]; intros name j.
  - rewrite Hnear. by setoid_rewrite (elem_of_get _ Hok).
  - rewrite Hfar. setoid_rewrite (elem_of_get _ Hok). split.
    + intros (src & v & w & Hv & Hd & ->). exists w.
      destruct (proj1 (destination_iff (key_fields s) name w)) as [? ?]; [by exists src, v|done].
    + intros (w & Hw & Hs & ->). destruct (proj2 (destination_iff (key_fields s) name w)) as (src & v & ? & ?); [done|].
      by exists src, v, w.
  - rewrite Hkey. setoid_rewrite (elem_of_get _ Hok). split.
    + intros (v & ? & ? & ? & ? & ?). exists v. auto.
    + intros (v & ? & (? & ? & ?) & ?). exists v. auto.
Qed.

(** A reply travelled first: the [src_] side is B. *)
Definition sample_stream : Stream :=
  mkStream (mkId 0 0) "udp" [] [("src_port", VU64 53); ("dst_port", VU64 40000); ("app", VStr "dns"); ("vni", VU64 7)]%string
    None [] BtoA 0 0 (DirStats_default, DirStats_default) 0 None [] None false None 3 None.

Lemma endpoint_sides_witness :
  let _ := plain_env in
  exists a b key, endpoint_json sample_stream = (J_Obj a, J_Obj b, J_Obj key) /\
    map_get "dst_port" a = Some (J_Num 40000) /\ map_get "src_port" b = Some (J_Num 53) /\
    map_get "vni" key = Some (J_Num 7) /\ map_get "app" key = None.
Proof.
  intros env.
  assert (FieldMap.ok (key_fields sample_stream)) as Hok by (apply (bool_decide_unpack _); vm_compute; exact I).
  destruct (endpoint_sides (Env := env) sample_stream eq_refl Hok) as (a & b & key & Hj & Hb & Ha & Hk).
  exists a, b, key. split; [exact Hj|]. split; [|split; [|split]].
  - apply Ha. exists (VU64 40000). split_and!; reflexivity.
  - apply Hb. exists (VU64 53). split_and!; reflexivity.
  - apply Hk. exists (VU64 7). split_and!; [reflexivity|reflexivity|reflexivity|discriminate|reflexivity].
  - apply eq_None_not_Some. intros [j (v & _ & (_ & _ & Happ) & _)%Hk]. by apply Happ.
Defined.
