(* ===== verification/WebApi.v ===== *)
(** * The web API's payloads

    Models [crates/pktflow-web/src/api.rs]: the documents the server answers with,
    computed from the hub and the view index.  A payload built from the index is
    a request on it.  The query parameters are the decoded map the router hands
    over. *)

From S2P Require Import Prelude.
From S2P Require Import Values.
From S2P Require Import Types.
From S2P Require Import Unknowns.
From S2P Require Import Arena.
From S2P Require Import Store.
From S2P Require Import Queries.
From S2P Require Import Text.
From S2P Require Import Fmt.
From S2P Require Import StreamView.
From S2P Require Import Query.
From S2P Require Import ViewIndex.
From S2P Require Import Hub.
From S2P Require Import App.
From S2P Require Import Json.

Definition FULL_SNAPSHOT_MAX_STREAMS : Z := 20000.
Definition WINDOW_LIMIT_MAX : Z := 500.

(** [str::parse::<u64>] and [::<usize>]: an optional plus sign and digits. *)
Definition parse_u64 (s : string) : option Z :=
  let digits := match str_bytes s with 43 :: rest => rest | bytes => bytes end in
  match digits with
  | [] => None
  | _ =>
      let n := digits_value digits in
      if forallb is_digit digits && (n <=? u64_max) then Some n else None
  end.

Local Open Scope string_scope.

Definition stop_class_key (class : StopClass) : string :=
  match class with
  | Clean => "clean"
  | UnknownPayload => "unknown_payload"
  | Malformed => "malformed"
  | Suspicious => "suspicious"
  end.

(** [RouteId]'s [Display]. *)
Definition RouteId_to_string (r : RouteId) : string :=
  match r with
  | LinkType id => "link_type:" +:+ show_Z id
  | EtherType id => "ethertype:0x" +:+ hex_padded 4 id
  | IpProtocol id => "ip_protocol:" +:+ show_Z id
  | UdpPort id => "udp_port:" +:+ show_Z id
  | TcpPort id => "tcp_port:" +:+ show_Z id
  | Custom space id => "custom:" +:+ space +:+ ":" +:+ show_Z id
  end.

Definition mode_str (m : HubMode) : string :=
  match m with Mode_Offline => "offline" | Mode_Live => "live" end.

Definition meta_json (hub : SnapshotHub) : Json :=
  json_obj [("pktflow", J_Num 1); ("source", J_Str (h_source hub)); ("mode", J_Str (mode_str (h_mode hub)));
            ("finished", J_Bool (is_finished hub)); ("generation", J_Num (hub_generation hub));
            ("error", json_opt J_Str (hub_error hub))].

Definition tick_json (hub : SnapshotHub) : Json :=
  let summary := sn_summary (latest hub) in
  json_obj [("generation", J_Num (hub_generation hub)); ("finished", J_Bool (is_finished hub));
            ("error", json_opt J_Str (hub_error hub));
            ("packets", J_Num (sm_packets summary)); ("bytes", J_Num (sm_bytes summary));
            ("streams_live", J_Num (sm_streams_live summary));
            ("progress", json_opt (fun p => json_obj [("read", J_Num p.1); ("total", J_Num p.2)]) (progress hub))].

Definition protocol_json (p : ProtocolCounts) : Json :=
  json_obj [("protocol", J_Str (pc_protocol p)); ("ever", J_Num (pc_ever p)); ("live", J_Num (pc_live p));
            ("bytes", J_Num (pc_bytes p))].

Definition summary_json (summary : AggregateSummary) : Json :=
  json_obj [("packets", J_Num (sm_packets summary)); ("bytes", J_Num (sm_bytes summary));
            ("streams_created", J_Num (sm_streams_created summary));
            ("streams_live", J_Num (sm_streams_live summary));
            ("flows_condensed", J_Num (sm_flows_condensed summary));
            ("key_errors", J_Num (sm_key_errors summary));
            ("per_protocol", J_Arr (protocol_json <$> sm_per_protocol summary));
            ("stop_classes", json_obj ((fun e => (stop_class_key e.1, J_Num e.2)) <$> sm_stop_classes summary))].

Section Api.
Context `{Env : ViewEnv}.
Context (format_rfc3339 : SystemTime -> option string).

Definition unknown_json (index : Z) (g : UnknownGroup) : Json :=
  json_obj
    [("selector", J_Num (index + 1));
     ("predecessor", J_Str (predecessor (ug_key g)));
     ("route", json_opt (fun r => J_Str (RouteId_to_string r)) (uk_route (ug_key g)));
     ("kind", J_Str (match uk_route (ug_key g) with
                     | Some _ => "unclaimed_route" | None => "no_heuristic_winner" end));
     ("count", J_Num (ug_count g));
     ("bytes_total", J_Num (bytes_total g));
     ("bytes_min", J_Num (bytes_min g));
     ("bytes_max", J_Num (bytes_max g));
     ("first_seen", J_Str (rfc3339 format_rfc3339 (ug_first_seen g)));
     ("last_seen", J_Str (rfc3339 format_rfc3339 (ug_last_seen g)));
     ("near_misses", J_Arr ((fun e => json_obj [("protocol", J_Str e.1); ("score", J_Num e.2)]) <$> ug_near_misses g));
     ("endpoints", J_Arr ((fun e => json_obj [("protocol", J_Str (ep_protocol e));
                                              ("key", J_Str (hex_lower (ep_key e)))]) <$> endpoints g));
     ("endpoints_overflow", J_Bool (endpoints_overflow g));
     ("samples", J_Arr ((fun s => J_Str (hex_lower s)) <$> samples g))].

(** [|id| index.by_id(id).map(|s| s.created_seq)], the id cell filled first. *)
Definition seq_lookup : request (StreamId -> option Z) :=
  let! m := positions_by_id in
  let! l := snap_streams in
  reply (fun id => created_seq <$> (pos ← m !! id; stream_at l pos)).

Definition record_json (seq_of : StreamId -> option Z) (s : Stream) : Json :=
  J_Obj (stream_record format_rfc3339 s seq_of).

Definition snapshot_json (hub : SnapshotHub) : request Json := fun ix =>
  let snap := ix_snap ix in
  let windowed := (FULL_SNAPSHOT_MAX_STREAMS <? blen (sn_streams snap))%Z in
  let doc :=
    [("pktflow", J_Num 1); ("meta", meta_json hub); ("summary", summary_json (sn_summary snap));
     ("windowed", J_Bool windowed);
     ("unknowns", J_Arr (imap (fun i g => unknown_json (Z.of_nat i) g) (sn_unknowns snap)))] in
  if windowed then Some (json_obj doc, ix)
  else
    (let! seq_of := seq_lookup in
     reply (json_obj (doc ++
       [("streams", J_Arr (record_json seq_of <$> sn_streams snap));
        ("roots", J_Arr (J_Num <$> omap seq_of (sn_roots snap)))]))) ix.

(** ** Windows of streams *)

Definition api_error (message : string) : Json := json_obj [("error", J_Str message)].

(** The requested scope, or the error document. *)
Definition scope_of (params : gmap string string) : result Scope Json :=
  match default "roots" (params !! "scope"), params !! "of" with
  | scope, of_ =>
      if String.eqb scope "flat" then Ok Scope_Flat
      else if String.eqb scope "children" then
        match of_ with
        | Some n =>
            match parse_u64 n with
            | Some seq => Ok (Scope_ChildrenOf seq)
            | None => Error (api_error "children scope needs a numeric ?of=")
            end
        | None => Error (api_error "children scope needs ?of=SEQ")
        end
      else Ok Scope_Roots
  end.

Definition number_param (params : gmap string string) (name : string) (fallback : Z) : Z :=
  default fallback (params !! name ≫= parse_u64).

Definition window_spec (scope : Scope) (params : gmap string string) : WindowSpec :=
  mkWindowSpec scope (params !! "q")
    (default SK_Bytes (params !! "sort" ≫= SortKey_parse))
    (bool_decide (params !! "order" <> Some "asc"))
    (number_param params "offset" 0)
    (Z.min (number_param params "limit" 200) WINDOW_LIMIT_MAX).

Definition streams_json (hub : SnapshotHub) (params : gmap string string) : request Json :=
  match scope_of params with
  | Error doc => reply doc
  | Ok scope =>
      let! w := window (window_spec scope params) in
      let! seq_of := seq_lookup in
      reply (json_obj
        [("pktflow", J_Num 1); ("generation", J_Num (hub_generation hub)); ("total", J_Num (w_total w));
         ("match_total", json_opt J_Num (w_match_total w)); ("rows", J_Arr (record_json seq_of <$> w_rows w))])
  end.

(** ** Timelines *)

Definition lane_json (l : TimelineLane) : Json :=
  json_obj [("seq", json_opt J_Num (lane_seq l)); ("active", J_Arr (J_Num <$> lane_active l))].

Definition timeline_json (hub : SnapshotHub) (params : gmap string string) : request Json :=
  let! t := timeline (mkTimelineSpec (number_param params "bins" 800) (number_param params "lanes" 64)
                        (params !! "q")) in
  reply (match t with
         | None => json_obj [("pktflow", J_Num 1); ("generation", J_Num (hub_generation hub)); ("lanes", J_Null)]
         | Some bins =>
             json_obj [("pktflow", J_Num 1); ("generation", J_Num (hub_generation hub));
                       ("start", J_Str (rfc3339 format_rfc3339 (tb_start bins)));
                       ("end", J_Str (rfc3339 format_rfc3339 (tb_end bins)));
                       ("lanes", J_Arr (lane_json <$> tb_lanes bins))]
         end).

(** ** Search *)

Definition search_doc (hub : SnapshotHub) (q : string) (matched visible total err : Json) : Json :=
  json_obj [("pktflow", J_Num 1); ("query", J_Str q); ("generation", J_Num (hub_generation hub));
            ("matches", matched); ("visible", visible); ("match_total", total); ("error", err)].

(** [iter().copied().collect()], then [sort_unstable()]. *)
Definition sorted_seqs (s : gset Z) : list Z := sort_by Z.leb (elements s).

(** Why a query that has no result sets failed to parse; [None] is a panic. *)
Definition parse_message (q : string) : option string :=
  match StreamQuery_parse q with
  | Parsed (Error e) => Some (QueryError_to_string e)
  | Parsed (Ok _) => Some "query error"
  | Panicked | OutOfFuel => None
  end.

Definition search_json (hub : SnapshotHub) (q : string) : request Json :=
  if blank q then reply (search_doc hub q J_Null J_Null J_Null J_Null)
  else
    let! sets := query_sets q in
    fun ix =>
      match sets with
      | None => message ← parse_message q; Some (search_doc hub q J_Null J_Null J_Null (J_Str message), ix)
      | Some (matched, visible) =>
          if (FULL_SNAPSHOT_MAX_STREAMS <? blen (sn_streams (ix_snap ix)))%Z
          then Some (search_doc hub q J_Null J_Null (J_Num (Z.of_nat (size matched))) J_Null, ix)
          else
            let matches := sorted_seqs matched in
            Some (search_doc hub q (J_Arr (J_Num <$> matches)) (J_Arr (J_Num <$> sorted_seqs visible))
                    (J_Num (blen matches)) J_Null, ix)
      end.

Definition stream_json (seq : Z) : request (option Json) :=
  let! s := index_by_seq seq in
  let! seq_of := seq_lookup in
  reply (record_json seq_of <$> s).
End Api.
