(* ===== verification/WebApiProps.v ===== *)
(** * What the web API's documents say

    The snapshot document is the forest: display ids are unique, parents and
    children name each other's records and the roots are the records without a
    parent.  A search document lists, in order, exactly the streams the query
    matches and, beside them, those shown with their ancestors. *)

From S2P Require Import Prelude.
From S2P Require Import Values.
From S2P Require Import Types.
From S2P Require Import Contract.
From S2P Require Import Samples.
From S2P Require Import Engine.
From S2P Require Import Arena.
From S2P Require Import Store.
From S2P Require Import StoreInv.
From S2P Require Import StoreKeys.
From S2P Require Import StoreHeaps.
From S2P Require Import StoreIngest.
From S2P Require Import Queries.
From S2P Require Import StoreProps.
From S2P Require Import Text.
From S2P Require Import Fmt.
From S2P Require Import StreamView.
From S2P Require Import Query.
From S2P Require Import QueryLex.
From S2P Require Import Snapshots.
From S2P Require Import ViewIndex.
From S2P Require Import ViewIndexProps.
From S2P Require Import TreeProps.
From S2P Require Import App.
From S2P Require Import Hub.
From S2P Require Import Json.
From S2P Require Import JsonProps.
From S2P Require Import WebApi.

(** The items of an array. *)
Definition items (j : Json) : list Json := match j with J_Arr l => l | _ => [] end.

Lemma member_obj name l :
  member name (json_obj l) =
  default J_Null (foldl (fun o e => if String.eqb e.1 name then Some e.2 else o) None l).
Proof. unfold member, json_obj. by rewrite map_get_of. Qed.

Section Records.
Context `{Env : ViewEnv} (format_rfc3339 : SystemTime -> option string) (seq_of : StreamId -> option Z) (s : Stream).

Abbreviation record := (record_json format_rfc3339 seq_of s) (only parsing).

#[local] Ltac read_member :=
  unfold record_json, member, stream_record; destruct (endpoint_json s) as [[? ?] ?]; cbv zeta;
  destruct (condensed s); rewrite ?map_get_insert, map_get_of; reflexivity.

Lemma record_id : member "id" record = J_Num (created_seq s).
Proof. read_member. Qed.
Lemma record_parent : member "parent" record = json_opt J_Num (p ← parent s; seq_of p).
Proof. read_member. Qed.
Lemma record_children : member "children" record = J_Arr (J_Num <$> omap seq_of (children s)).
Proof. read_member. Qed.
End Records.

(** What a hub holds before anything is published. *)
Lemma empty_forest : snapshot_forest empty_snapshot.
Proof.
  split; [split|..]; simpl; try by constructor.
  all: intros *; try by intros ?%elem_of_nil.
  { rewrite blen_nil. lia. }
  split; [by intros ?%elem_of_nil|by intros (s & ?%elem_of_nil & _)].
Qed.

Section Documents.
Context `{Env : ViewEnv} (format_rfc3339 : SystemTime -> option string).
Context (snap : AggregatorSnapshot) (Hsnap : snapshot_forest snap).

Let Hok : snapshot_ok snap := sf_ok _ Hsnap.

Abbreviation ss := (sn_streams snap) (only parsing).
Abbreviation rows f := (record_json format_rfc3339 f <$> ss) (only parsing).

(** Resolving an id to a display id. *)
Definition resolves (f : StreamId -> option Z) : Prop := forall id, f id = created_seq <$> by_id snap !! id.

Lemma answers_seq_lookup : exists f, answers snap seq_lookup (Some f) /\ resolves f.
Proof.
  eexists. split.
  - eapply answers_seq; [by apply answers_by_id|]. eapply answers_seq; [by apply answers_streams|]. apply answers_reply.
  - intros id. simpl. f_equal. rewrite <- (id_map_is_by_id snap Hok), lookup_omap. done.
Qed.

Lemma resolves_live f id n : resolves f -> f id = Some n <-> exists s, s ∈ ss /\ st_id s = id /\ created_seq s = n.
Proof.
  intros ->. rewrite fmap_Some. split.
  - intros (s & [Hs Hid]%by_id_lookup & ->); [by exists s|done].
  - intros (s & Hs & Hid & <-). exists s. split; [|done]. by apply by_id_lookup.
Qed.

Context (f : StreamId -> option Z) (Hf : resolves f).

Lemma elem_of_rows r : r ∈ rows f <-> exists s, s ∈ ss /\ r = record_json format_rfc3339 f s.
Proof. rewrite list_elem_of_fmap. split; intros (s & ? & ?); by exists s. Qed.

Lemma row_ids : member "id" <$> rows f = J_Num ∘ created_seq <$> ss.
Proof. rewrite <- list_fmap_compose. apply list_fmap_ext. intros i s _. apply record_id. Qed.

Lemma rows_once : NoDup (member "id" <$> rows f).
Proof.
  rewrite row_ids. apply NoDup_fmap_2_strong; [|by eapply NoDup_fmap_1, so_ids].
  intros s t Hs Ht [= Heq]. by apply (seq_inj snap Hok).
Qed.

(** The ids an array of ids lists. *)
Lemma elem_of_listed (ids : list StreamId) (j : Json) :
  j ∈ J_Num <$> omap f ids <-> exists s, s ∈ ss /\ st_id s ∈ ids /\ j = J_Num (created_seq s).
Proof.
  rewrite list_elem_of_fmap. split.
  - intros (n & -> & (id & Hid & (s & Hs & <- & <-)%resolves_live)%list_elem_of_omap); [|done]. by exists s.
  - intros (s & Hs & Hid & ->). exists (created_seq s). split; [done|]. apply list_elem_of_omap.
    exists (st_id s). split; [done|]. apply resolves_live; [done|]. by exists s.
Qed.

Lemma parent_null s : s ∈ ss -> member "parent" (record_json format_rfc3339 f s) = J_Null <-> parent s = None.
Proof.
  intros Hs. rewrite record_parent. destruct (parent s) as [p|] eqn:Hp; [|done]. split; [|done].
  destruct (so_parents _ Hok s p Hs Hp) as (ps & Hps & Hid & _). simpl.
  by rewrite (proj2 (resolves_live f p (created_seq ps) Hf)) by by exists ps.
Qed.

(** A record's parent, when it has one. *)
Lemma parent_row s p : s ∈ ss -> p ∈ ss -> parent s = Some (st_id p) ->
  member "parent" (record_json format_rfc3339 f s) = member "id" (record_json format_rfc3339 f p).
Proof.
  intros Hs Hp Hpar. rewrite record_parent, record_id, Hpar. simpl.
  by rewrite (proj2 (resolves_live f (st_id p) (created_seq p) Hf)) by by exists p.
Qed.

Lemma child_row p j : p ∈ ss ->
  j ∈ items (member "children" (record_json format_rfc3339 f p)) <->
  exists s, s ∈ ss /\ parent s = Some (st_id p) /\ j = member "id" (record_json format_rfc3339 f s).
Proof.
  intros Hp. rewrite record_children. cbn [items]. rewrite elem_of_listed. split.
  - intros (s & Hs & Hid & ->). exists s. split; [done|]. rewrite record_id. split; [|done].
    destruct (sf_child _ Hsnap p _ Hp Hid) as (cs & Hcs & Hcid & Hpar). by rewrite (id_inj snap Hok s cs).
  - intros (s & Hs & Hpar & ->). exists s. rewrite record_id. split; [done|]. split; [|done].
    by apply (sf_listed _ Hsnap).
Qed.
End Documents.

(** The two arrays of a document that is not windowed. *)
Lemma document_arrays `{Env : ViewEnv} format_rfc3339 snap (Hsnap : snapshot_forest snap) hub doc :
  fst <$> snapshot_json format_rfc3339 hub (SnapshotIndex_new snap) = Some doc ->
  member "windowed" doc = J_Bool false ->
  exists f, resolves snap f /\
    items (member "streams" doc) = record_json format_rfc3339 f <$> sn_streams snap /\
    items (member "roots" doc) = J_Num <$> omap f (sn_roots snap).
Proof.
  intros Hdoc Hwin. destruct (answers_seq_lookup snap Hsnap) as (f & Hf & Hres). exists f. split; [done|].
  unfold snapshot_json in Hdoc. cbv zeta in Hdoc. cbn [ix_snap SnapshotIndex_new] in Hdoc.
  destruct (FULL_SNAPSHOT_MAX_STREAMS <? blen (sn_streams snap)).
  - simpl in Hdoc. injection Hdoc as <-. exfalso. revert Hwin. rewrite member_obj. done.
  - destruct (Hf _ (coherent_new snap)) as (ix & Hrun & _). unfold and_request in Hdoc. rewrite Hrun in Hdoc.
    simpl in Hdoc. injection Hdoc as <-. rewrite !member_obj. done.
Qed.

(** ** The theorems *)

Section Theorems.
Context `{Env : ViewEnv} `{Hasher} (format_rfc3339 : SystemTime -> option string).

(** C25: The snapshot document of any reachable aggregator, when it is not windowed, is
    the forest: its records are the streams in display order with unique ids; a
    record without a parent is a root, and a root has none; every other record
    is among the children its parent's record lists; and every child listed is a
    record that names that parent. *)
Theorem snapshot_document_forest e c pkts hub doc :
  engine_wf e -> config_ok c -> trace_ok pkts ->
  let snap := snapshot (run e c pkts) in
  fst <$> snapshot_json format_rfc3339 hub (SnapshotIndex_new snap) = Some doc ->
  member "windowed" doc = J_Bool false ->
  let rs := items (member "streams" doc) in
  let child_of := fun p => items (member "children" p) in
  member "id" <$> rs = J_Num ∘ created_seq <$> sn_streams snap /\ NoDup (member "id" <$> rs) /\
  (forall j, j ∈ items (member "roots" doc) <-> exists r, r ∈ rs /\ j = member "id" r /\ member "parent" r = J_Null) /\
  (forall r, r ∈ rs -> member "parent" r <> J_Null ->
     exists p, p ∈ rs /\ member "parent" r = member "id" p /\ member "id" r ∈ child_of p) /\
  (forall p j, p ∈ rs -> j ∈ child_of p -> exists r, r ∈ rs /\ j = member "id" r /\ member "parent" r = member "id" p).
Proof.
  intros He Hc Ht snap Hdoc Hwin rs child_of.
  destruct (reached_run False e c pkts He Hc Ht) as (Hs & _); [done|].
  apply store_snapshot_forest in Hs. fold snap in Hs.
  destruct (document_arrays format_rfc3339 snap Hs hub doc Hdoc Hwin) as (f & Hres & Hrows & Hroots).
  rewrite Hroots. unfold rs. rewrite Hrows.
  split; [apply row_ids|]. split; [by apply rows_once|]. split; [|split].
  - intros j. rewrite (elem_of_listed snap Hs f Hres). setoid_rewrite elem_of_rows. split.
    + intros (s & Hss & Hroot & ->). exists (record_json format_rfc3339 f s). split; [by exists s|].
      rewrite record_id. split; [done|]. apply (parent_null format_rfc3339 snap Hs f Hres); [done|].
      apply (sf_roots _ Hs) in Hroot as (t & Htt & Hid & Hp). by rewrite <- (id_inj snap (sf_ok _ Hs) t s).
    + intros (r & (s & Hss & ->) & -> & Hp). exists s. rewrite record_id. split; [done|]. split; [|done].
      apply (parent_null format_rfc3339 snap Hs f Hres) in Hp; [|done]. apply (sf_roots _ Hs). by exists s.
  - intros r (s & Hss & ->)%elem_of_rows Hp. rewrite (parent_null format_rfc3339 snap Hs f Hres) in Hp by done.
    destruct (parent s) as [pid|] eqn:Hpar; [|done].
    destruct (so_parents _ (sf_ok _ Hs) s pid Hss Hpar) as (p & Hps & <- & _).
    exists (record_json format_rfc3339 f p). split; [apply elem_of_rows; by exists p|].
    split; [by apply (parent_row format_rfc3339 snap Hs)|]. apply (child_row format_rfc3339 snap Hs f Hres); [done|].
    by exists s.
  - intros r j (p & Hp & ->)%elem_of_rows (s & Hss & Hpar & ->)%(child_row format_rfc3339 snap Hs f Hres); [|done].
    exists (record_json format_rfc3339 f s). split; [apply elem_of_rows; by exists s|].
    split; [done|]. by apply (parent_row format_rfc3339 snap Hs).
Qed.

(** The sorted display ids of a set. *)
Lemma sorted_seqs_spec (x : gset Z) :
  Sorted_by Z.leb (sorted_seqs x) /\ NoDup (sorted_seqs x) /\ blen (sorted_seqs x) = Z.of_nat (size x) /\
  forall n, n ∈ sorted_seqs x <-> n ∈ x.
Proof.
  unfold sorted_seqs. split; [apply sort_by_ord, _|]. split; [rewrite sort_by_Permutation; apply NoDup_elements|].
  split; [unfold blen; by rewrite length_sort_by|]. intros n. by rewrite elem_of_sort_by, elem_of_elements.
Qed.

Lemma search_members hub q matched visible total err :
  let doc := search_doc hub q matched visible total err in
  member "matches" doc = matched /\ member "visible" doc = visible /\ member "match_total" doc = total /\
  member "error" doc = err.
Proof. unfold search_doc. rewrite !member_obj. done. Qed.

(** What a search answers, whatever was asked of the index before. *)
Definition search_answer (hub : SnapshotHub) (q : string) (snap : AggregatorSnapshot) : option Json :=
  match StreamQuery_parse q with
  | Parsed (Ok query) =>
      let '(matched, visible) := evaluate_sets (sn_streams snap) (by_id snap) query in
      Some (if FULL_SNAPSHOT_MAX_STREAMS <? blen (sn_streams snap)
            then search_doc hub q J_Null J_Null (J_Num (Z.of_nat (size matched))) J_Null
            else search_doc hub q (J_Arr (J_Num <$> sorted_seqs matched)) (J_Arr (J_Num <$> sorted_seqs visible))
                   (J_Num (blen (sorted_seqs matched))) J_Null)
  | Parsed (Error er) => Some (search_doc hub q J_Null J_Null J_Null (J_Str (QueryError_to_string er)))
  | Panicked | OutOfFuel => None
  end.

Lemma answers_search hub q snap : snapshot_ok snap -> blank q = false ->
  answers snap (search_json hub q) (search_answer hub q snap).
Proof.
  intros Hs Hq. unfold search_json, search_answer. rewrite Hq.
  pose proof (answers_query_sets snap Hs q) as Hsets. unfold fresh_sets in Hsets.
  destruct (StreamQuery_parse q) as [[query|er]| |] eqn:Hparse.
  - eapply answers_seq; [exact Hsets|]. unfold evaluate_sets.
    intros ix Hix. exists ix. rewrite (co_snap _ _ Hix). by case_match.
  - eapply answers_seq; [exact Hsets|]. intros ix Hix. exists ix. unfold parse_message. by rewrite Hparse.
  - intros ix Hix. unfold and_request. by rewrite (Hsets ix Hix).
  - intros ix Hix. unfold and_request. by rewrite (Hsets ix Hix).
Qed.

(** C26: Searching the snapshot of any reachable aggregator: a query that parses answers
    with the sorted display ids of exactly the streams it matches, and of those
    with all their ancestors, up to the size gate and with the total beyond it; a
    query in error answers with the parser's message and no lists. *)
Theorem search_exact e c pkts hub q :
  engine_wf e -> config_ok c -> trace_ok pkts -> blank q = false ->
  let snap := snapshot (run e c pkts) in
  let answer := fst <$> search_json hub q (SnapshotIndex_new snap) in
  (forall query, StreamQuery_parse q = Parsed (Ok query) ->
     exists doc ms vs, answer = Some doc /\ member "error" doc = J_Null /\
       member "match_total" doc = J_Num (blen ms) /\
       (let listed := blen (sn_streams snap) <=? FULL_SNAPSHOT_MAX_STREAMS in
        member "matches" doc = (if listed then J_Arr (J_Num <$> ms) else J_Null) /\
        member "visible" doc = (if listed then J_Arr (J_Num <$> vs) else J_Null)) /\
       Sorted_by Z.leb ms /\ NoDup ms /\ Sorted_by Z.leb vs /\ NoDup vs /\
       (forall n, n ∈ ms <-> exists s, s ∈ sn_streams snap /\ matches query s (by_id snap) = true /\ n = created_seq s) /\
       (forall n, n ∈ vs <-> exists s, s ∈ sn_streams snap /\ matches query s (by_id snap) = true /\
          (n = created_seq s \/ exists x, x ∈ ancestors s (by_id snap) /\ n = created_seq x))) /\
  (forall er, StreamQuery_parse q = Parsed (Error er) ->
     exists doc, answer = Some doc /\ member "error" doc = J_Str (QueryError_to_string er) /\
       member "matches" doc = J_Null /\ member "visible" doc = J_Null).
Proof.
  intros He Hc Ht Hq snap answer. destruct (reached_run False e c pkts He Hc Ht) as (Hs & _); [done|].
  apply store_snapshot_ok in Hs. fold snap in Hs.
  unfold answer. rewrite (answers_fresh snap _ _ (answers_search hub q snap Hs Hq)). unfold search_answer.
  split; [intros query ->|intros er ->].
  - unfold evaluate_sets. set (m := list_to_set _ : gset Z). set (v := matching_with_ancestors _ _ _).
    destruct (sorted_seqs_spec m) as (M1 & M2 & M3 & M4), (sorted_seqs_spec v) as (V1 & V2 & _ & V4).
    assert (forall n, n ∈ m <-> exists s, s ∈ sn_streams snap /\ matches query s (by_id snap) = true /\ n = created_seq s) as Hm.
    { intros n. unfold m. rewrite elem_of_list_to_set, list_elem_of_fmap. setoid_rewrite list_elem_of_filter.
      split; [intros (s & ? & ? & ?)|intros (s & ? & ? & ?)]; by exists s. }
    eexists _, (sorted_seqs m), (sorted_seqs v). split; [reflexivity|]. rewrite Z.leb_antisym, <- M3.
    assert (forall n, n ∈ sorted_seqs v <-> exists s, s ∈ sn_streams snap /\ matches query s (by_id snap) = true /\
      (n = created_seq s \/ exists x, x ∈ ancestors s (by_id snap) /\ n = created_seq x)) as Hv.
    { intros n. rewrite V4. by apply matching_with_ancestors_spec. }
    assert (forall n, n ∈ sorted_seqs m <-> exists s, s ∈ sn_streams snap /\ matches query s (by_id snap) = true /\
      n = created_seq s) as Hm' by (intros n; by rewrite M4).
    destruct (FULL_SNAPSHOT_MAX_STREAMS <? blen (sn_streams snap)); cbn [negb];
      match goal with |- context [search_doc ?h ?q ?a ?b ?c ?d] =>
        destruct (search_members h q a b c d) as (R1 & R2 & R3 & R4) end;
      rewrite R1, R2, R3, R4; auto 12.
  - eexists. split; [done|]. destruct (search_members hub q J_Null J_Null J_Null (J_Str (QueryError_to_string er)))
      as (? & ? & _ & ?). done.
Qed.
End Theorems.

(** ** Witnesses *)

Definition sample_hub : SnapshotHub := SnapshotHub_new "capture.pcap" Mode_Offline.
Definition no_format (_ : SystemTime) : option string := None.

Lemma snapshot_document_forest_witness :
  let _ := plain_env in
  let snap := snapshot (run store_engine (store_config EvictNone) store_trace) in
  exists doc, fst <$> snapshot_json no_format sample_hub (SnapshotIndex_new snap) = Some doc /\
    member "windowed" doc = J_Bool false /\
    member "id" <$> items (member "streams" doc) = J_Num ∘ created_seq <$> sn_streams snap /\
    length (items (member "roots" doc)) = 1%nat.
Proof.
  intros env snap.
  assert (exists doc, fst <$> snapshot_json no_format sample_hub (SnapshotIndex_new snap) = Some doc /\
    member "windowed" doc = J_Bool false /\ length (items (member "roots" doc)) = 1%nat) as (doc & Hdoc & Hwin & Hroots)
    by (eexists; split; [vm_compute; reflexivity|split; vm_compute; reflexivity]).
  destruct (snapshot_document_forest (Env := env) no_format store_engine (store_config EvictNone) store_trace sample_hub doc
    store_engine_wf (I : config_ok (store_config EvictNone)) store_trace_ok Hdoc Hwin) as (Hids & _).
  exists doc. split; [exact Hdoc|]. split; [exact Hwin|]. split; [exact Hids|exact Hroots].
Defined.

Lemma search_exact_witness :
  let _ := plain_env in
  let snap := snapshot (run store_engine (store_config EvictNone) store_trace) in
  exists doc ms, fst <$> search_json sample_hub "leaf" (SnapshotIndex_new snap) = Some doc /\
    member "matches" doc = J_Arr (J_Num <$> ms) /\ Sorted_by Z.leb ms /\ NoDup ms.
Proof.
  intros env snap.
  destruct (search_exact (Env := env) store_engine (store_config EvictNone) store_trace sample_hub "leaf"
    store_engine_wf (I : config_ok (store_config EvictNone)) store_trace_ok eq_refl) as [Hok _].
  destruct (Hok (FlagTerm Flag_Leaf) ltac:(vm_compute; reflexivity)) as (doc & ms & vs & Hdoc & _ & _ & (Hm & _) & H1 & H2 & _).
  exists doc, ms. split; [exact Hdoc|]. split; [|split; [exact H1|exact H2]]. rewrite Hm.
  assert ((blen (sn_streams snap) <=? FULL_SNAPSHOT_MAX_STREAMS) = true) as Hgate by (vm_compute; reflexivity).
  fold snap. rewrite Hgate. reflexivity.
Defined.
