(* ===== verification/Upload.v ===== *)
(** * Uploads and the web server's handlers

    Models [crates/pktflow-web/src/lib.rs].  The upload handler: the magic check
    on the first bytes, the spill of the body to a temporary file under a size
    cap, and the swap of the served hub, with the display name shown for it.  Then
    every route of the server over the state the handlers share, requests handled
    one at a time ([Hub] has the interleavings of the index memo).

    The body is the sequence of what its stream yields.  The file system is the
    map of the files this handler makes; whether each create, write and flush
    succeeds is read from a list of outcomes (true once it is exhausted), and
    removing a file succeeds.  The spawner is the embedder's.

    A failed upload leaves the served hub and the files as they were; a
    successful one leaves one file, the whole body.  Until the first upload that
    replaces the hub the server answers as if it built a fresh index for every
    request; after one it may not ([upload_shows_the_old_index]). *)

From S2P Require Import Prelude.
From S2P Require Import Values.
From S2P Require Import Types.
From S2P Require Import Contract.
From S2P Require Import Samples.
From S2P Require Import Engine.
From S2P Require Import Arena.
From S2P Require Import Store.
From S2P Require Import StoreInv.
From S2P Require Import StoreKeys.
From S2P Require Import StoreHeaps.
From S2P Require Import StoreIngest.
From S2P Require Import Queries.
From S2P Require Import StoreProps.
From S2P Require Import Text.
From S2P Require Import Fmt.
From S2P Require Import Query.
From S2P Require Import QueryLex.
From S2P Require Import Snapshots.
From S2P Require Import ViewIndex.
From S2P Require Import ViewIndexProps.
From S2P Require Import TreeProps.
From S2P Require Import App.
From S2P Require Import Hub.
From S2P Require Import Json.
From S2P Require Import WebApi.
From S2P Require Import WebApiProps.
From S2P Require Import FmtRead.

(** ** The display name *)

Definition is_separator (c : Z) : bool := (c =? 47) || (c =? 92).

(** [raw.rsplit(['/', '\\']).next()]. *)
Definition base_name (raw : list Z) : list Z :=
  reverse (span (fun c => negb (is_separator c)) (reverse raw)).1.

(** [char::is_control]: the category Cc. *)
Definition is_control (c : Z) : bool := in_range 0 31 c || in_range 127 159 c.

Definition uploaded_capture : list Z := str_bytes "uploaded capture".

Definition sanitize_name (raw : list Z) : list Z :=
  let clean := take 120 (filter (fun c => is_control c = false) (trim (base_name raw))) in
  match clean with [] => uploaded_capture | _ => clean end.

(** ** The magic numbers *)

Definition capture_extension (bytes : list Z) : option string :=
  match bytes with
  | a :: b :: c :: d :: _ =>
      let magic := [a; b; c; d] in
      if bool_decide (magic = [0xa1; 0xb2; 0xc3; 0xd4] \/ magic = [0xd4; 0xc3; 0xb2; 0xa1]) then Some "pcap"%string
      else if bool_decide (magic = [0xa1; 0xb2; 0x3c; 0x4d] \/ magic = [0x4d; 0x3c; 0xb2; 0xa1]) then Some "pcap"%string
      else if bool_decide (magic = [0x0a; 0x0d; 0x0d; 0x0a]) then Some "pcapng"%string
      else None
  | _ => None
  end.

(** ** State and requests *)

Inductive Chunk := C_Data (bytes : list Z) | C_Error.

Record Uploads := mkUploads {
  up_files : gmap string (list Z);
  up_seq : Z;
  up_last : option string;
  up_hub : SnapshotHub;
}.

(** A status code and message, or the name of the capture now served. *)
Definition Response : Type := result (list Z) (Z * string).

Definition FORBIDDEN : Z := 403.
Definition BAD_REQUEST : Z := 400.
Definition PAYLOAD_TOO_LARGE : Z := 413.
Definition INTERNAL_SERVER_ERROR : Z := 500.

Local Open Scope string_scope.

Definition not_a_capture : Z * string := (BAD_REQUEST, "not a capture file — expected pcap or pcapng").
Definition interrupted : Z * string := (BAD_REQUEST, "upload interrupted").
Definition STORE_FAILED : Z * string := (INTERNAL_SERVER_ERROR, "could not store upload").
Definition over_cap : Z * string := (PAYLOAD_TOO_LARGE, "upload exceeds the configured size cap").

(** The loop that reads enough to see the magic. *)
Fixpoint read_head (head : list Z) (body : list Chunk) : result (string * list Z * list Chunk) (Z * string) :=
  match body with
  | [] => Error (match head with [] => (BAD_REQUEST, "empty upload") | _ => not_a_capture end)
  | C_Error :: _ => Error interrupted
  | C_Data chunk :: rest =>
      let head := (head ++ chunk)%list in
      if (4 <=? blen head)%Z then
        match capture_extension head with
        | Some ext => Ok (ext, head, rest)
        | None => Error not_a_capture
        end
      else read_head head rest
  end.

(** The next outcome of the file system. *)
Definition next_io (io : list bool) : bool * list bool :=
  match io with [] => (true, []) | b :: io' => (b, io') end.

Definition exceeds (cap written : Z) : bool := ((0 <? cap) && (cap <? written))%Z.

(** The loop of [spill_upload] and its flush; [data] is what the file holds so far. *)
Fixpoint spill_chunks (cap written : Z) (body : list Chunk) (io : list bool) (data : list Z)
    : list Z * result unit (Z * string) :=
  match body with
  | [] => (data, if fst (next_io io) then Ok tt else Error STORE_FAILED)
  | C_Error :: _ => (data, Error interrupted)
  | C_Data chunk :: rest =>
      let written := (written + blen chunk)%Z in
      if exceeds cap written then (data, Error over_cap)
      else
        let '(ok, io) := next_io io in
        if ok then spill_chunks cap written rest io (data ++ chunk)%list else (data, Error STORE_FAILED)
  end.

(** [spill_upload]: the file it leaves, if it could create one, and its outcome.
    A failed write leaves what was there before it. *)
Definition spill_upload (cap : Z) (head : list Z) (body : list Chunk) (io : list bool)
    : option (list Z) * result unit (Z * string) :=
  let '(created, io) := next_io io in
  if negb created then (None, Error STORE_FAILED)
  else
    let '(ok, io) := next_io io in
    if negb ok then (Some [], Error STORE_FAILED)
    else if exceeds cap (blen head) then (Some head, Error over_cap)
    else
      let '(data, outcome) := spill_chunks cap (blen head) body io head in
      (Some data, outcome).

Section Upload.
(** The embedder's pipeline spawner, [std::env::temp_dir()], the process id, the
    state's namespace and its cap. *)
Context (spawner : option (list Z -> string -> result SnapshotHub string)).
Context (temp_dir : string) (pid ns cap : Z).

Definition temp_path (seq : Z) (ext : string) : string :=
  temp_dir +:+ "/pktflow-upload-" +:+ show_Z pid +:+ "-" +:+ show_Z ns +:+ "-" +:+ show_Z seq +:+ "." +:+ ext.

Definition store_file (path : string) (data : option (list Z)) (files : gmap string (list Z)) : gmap string (list Z) :=
  match data with Some d => <[path := d]> files | None => files end.
Definition remove_file (path : string) (files : gmap string (list Z)) : gmap string (list Z) := delete path files.

(** [upload]; [name] is the request's [name] parameter. *)
Definition upload (name : option (list Z)) (body : list Chunk) (io : list bool) (st : Uploads) : Response * Uploads :=
  match spawner with
  | None => (Error (FORBIDDEN, "uploads are not enabled"), st)
  | Some spawn =>
      let name := sanitize_name (default [] name) in
      match read_head [] body with
      | Error err => (Error err, st)
      | Ok (ext, head, rest) =>
          let path := temp_path (up_seq st) ext in
          let seq := ((up_seq st + 1) mod 2 ^ 64)%Z in
          let '(data, outcome) := spill_upload cap head rest io in
          let files := store_file path data (up_files st) in
          match outcome with
          | Error err => (Error err, mkUploads (remove_file path files) seq (up_last st) (up_hub st))
          | Ok _ =>
              match spawn name path with
              | Ok hub =>
                  let files := match up_last st with Some old => remove_file old files | None => files end in
                  (Ok name, mkUploads files seq (Some path) hub)
              | Error e =>
                  (Error (INTERNAL_SERVER_ERROR, e), mkUploads (remove_file path files) seq (up_last st) (up_hub st))
              end
          end
      end
  end.

(** Requests handled one after another. *)
Definition uploads (reqs : list (option (list Z) * list Chunk * list bool)) (st : Uploads) : Uploads :=
  foldl (fun st r => snd (upload r.1.1 r.1.2 r.2 st)) st reqs.
End Upload.

(** ** The name is fit to show *)

Lemma span_all {A} (f : A -> bool) l : Forall (fun x => f x = true) (span f l).1.
Proof.
  induction l as [|x l IH]; simpl; [constructor|]. destruct (f x) eqn:Hx; [|constructor].
  destruct (span f l). by constructor.
Qed.

Lemma Forall_trim_start (P : Z -> Prop) l : Forall P l -> Forall P (trim_start l).
Proof. induction 1; simpl; [constructor|]. case_match; [done|by constructor]. Qed.

(** At most 120 characters, at least one, no separator and no control character. *)
Lemma sanitize_name_safe raw :
  let name := sanitize_name raw in
  name <> [] /\ (length name <= 120)%nat /\
  Forall (fun c => is_control c = false /\ is_separator c = false) name.
Proof.
  set (clean := take 120 (filter (fun c => is_control c = false) (trim (base_name raw)))).
  assert ((length clean <= 120)%nat /\ Forall (fun c => is_control c = false /\ is_separator c = false) clean) as [Hlen Hclean].
  { split; [unfold clean; rewrite length_take; lia|]. apply Forall_take, Forall_forall.
    intros c [Hc Hin]%list_elem_of_filter. split; [done|].
    assert (Forall (fun c => negb (is_separator c) = true) (trim (base_name raw))) as Hsep.
    { unfold trim, base_name. by apply Forall_reverse, Forall_trim_start, Forall_reverse, Forall_trim_start, Forall_reverse, span_all. }
    rewrite Forall_forall in Hsep. apply negb_true_iff. by apply Hsep. }
  unfold sanitize_name. fold clean. cbv zeta. destruct clean as [|c l]; [|done].
  split; [done|]. split; [vm_compute; lia|]. by vm_compute; repeat constructor.
Qed.

(** ** Paths *)

Lemma pretty_N_no_dot n s : 46 ∉ str_bytes s -> 46 ∉ str_bytes (pretty.pretty_N_go n s).
Proof.
  revert s. induction (N.lt_wf_0 n) as [n _ IH]; intros s Hs.
  destruct (decide (n = 0)%N) as [->|Hn]; [by rewrite pretty.pretty_N_go_0|].
  rewrite pretty.pretty_N_go_step by lia. apply IH; [apply N.div_lt; lia|].
  rewrite str_bytes_cons. apply not_elem_of_cons. split; [|done].
  unfold pretty.pretty_N_char. by repeat case_match.
Qed.

Lemma show_Z_no_dot n : 0 <= n -> 46 ∉ str_bytes (show_Z n).
Proof.
  intros Hn. unfold show_Z, pretty, pretty.pretty_Z. destruct n as [|p|p]; [|..|lia].
  - by apply (bool_decide_unpack _).
  - change (46 ∉ str_bytes (pretty.pretty_N (N.pos p))). unfold pretty.pretty_N. rewrite decide_False by done. apply pretty_N_no_dot. by intros ?%elem_of_nil.
Qed.

Section Paths.
Context (spawner : option (list Z -> string -> result SnapshotHub string)).
Context (temp_dir : string) (pid ns cap : Z).

Abbreviation path := (temp_path temp_dir pid ns) (only parsing).

(** Files of different requests have different names. *)
Lemma temp_path_inj k1 k2 e1 e2 : 0 <= k1 -> 0 <= k2 -> path k1 e1 = path k2 e2 -> k1 = k2.
Proof.
  intros H1 H2. unfold temp_path. intros Heq. do 6 apply (inj (String.append _)) in Heq.
  apply (f_equal (fun s => split_on 46 (str_bytes s))) in Heq. revert Heq.
  rewrite !(str_bytes_append (show_Z _)).
  change (str_bytes ("." +:+ ?e)) with (46 :: str_bytes e).
  rewrite !split_on_here by by apply show_Z_no_dot.
  intros [= Heq%str_bytes_inj _]. by apply (inj pretty) in Heq.
Qed.

(** *** What is read *)

Lemma capture_extension_more h k ext : capture_extension h = Some ext -> capture_extension (h ++ k) = Some ext.
Proof. by destruct h as [|a [|b [|c [|d h]]]]. Qed.

Lemma read_head_spec head body ext h rest :
  read_head head body = Ok (ext, h, rest) ->
  exists taken, body = ((C_Data <$> taken) ++ rest)%list /\ h = (head ++ concat taken)%list /\
    capture_extension h = Some ext.
Proof.
  revert head. induction body as [|[chunk|] body IH]; intros head; simpl; [done| |done].
  case_match.
  - destruct (capture_extension (head ++ chunk)) as [x|] eqn:Hx; [|done]. intros [= <- <- <-].
    exists [chunk]. simpl. rewrite app_nil_r. done.
  - intros (taken & -> & -> & He)%IH. exists (chunk :: taken). simpl. by rewrite app_assoc.
Qed.

(** The size is within the cap, when there is one. *)
Definition within (data : list Z) : Prop := 0 < cap -> blen data <= cap.

Lemma exceeds_false n : exceeds cap n = false <-> (0 < cap -> n <= cap).
Proof. unfold exceeds. rewrite andb_false_iff, !Z.ltb_ge. lia. Qed.

Lemma spill_chunks_spec body io data d :
  spill_chunks cap (blen data) body io data = (d, Ok tt) -> within data ->
  exists taken, body = C_Data <$> taken /\ d = (data ++ concat taken)%list /\ within d.
Proof.
  revert io data. induction body as [|[chunk|] body IH]; intros io data; simpl; [| |done].
  - destruct (fst (next_io io)); [|done]. intros [= <-] Hw. exists []. by rewrite app_nil_r.
  - destruct (exceeds cap (blen data + blen chunk)) eqn:Hx; [done|]. destruct (next_io io) as [[] io']; [|done].
    rewrite <- blen_app. intros Hrun Hw. apply IH in Hrun as (taken & -> & -> & Hd).
    + exists (chunk :: taken). simpl. by rewrite app_assoc.
    + unfold within. rewrite blen_app. exact (proj1 (exceeds_false _) Hx).
Qed.

Lemma spill_upload_spec head body io data :
  spill_upload cap head body io = (data, Ok tt) ->
  exists taken, body = C_Data <$> taken /\ data = Some (head ++ concat taken)%list /\
    within (head ++ concat taken)%list.
Proof.
  unfold spill_upload. destruct (next_io io) as [[] io1]; [|done]. simpl.
  destruct (next_io io1) as [[] io2]; [|done]. simpl.
  destruct (exceeds cap (blen head)) eqn:Hx; [done|].
  destruct (spill_chunks cap (blen head) body io2 head) as [d outcome] eqn:Hrun. intros [= <- ->].
  apply spill_chunks_spec in Hrun as (taken & -> & -> & Hw); [by exists taken|exact (proj1 (exceeds_false _) Hx)].
Qed.

(** A stored file removed again. *)
Lemma remove_stored p data (files : gmap string (list Z)) :
  files !! p = None -> remove_file p (store_file p data files) = files.
Proof. intros Hp. unfold remove_file, store_file. destruct data; [by apply delete_insert_id|by apply delete_id]. Qed.

(** *** The state between requests *)

(** The only file is the capture being served. *)
Record uploads_ok (st : Uploads) : Prop := mkUploadsOk {
  uk_seq : 0 <= up_seq st;
  uk_files : match up_last st with
             | None => up_files st = ∅
             | Some p => exists k ext data, p = path k ext /\ 0 <= k < up_seq st /\ up_files st = {[p := data]}
             end;
}.

(** What one request does. *)
Definition settled (body : list Chunk) (st : Uploads) (out : Response * Uploads) : Prop :=
  match out.1 with
  | Error _ => up_files out.2 = up_files st /\ up_last out.2 = up_last st /\ up_hub out.2 = up_hub st
  | Ok shown =>
      exists spawn chunks p, spawner = Some spawn /\ body = C_Data <$> chunks /\
        is_Some (capture_extension (concat chunks)) /\ within (concat chunks) /\
        up_files out.2 = {[p := concat chunks]} /\ up_last out.2 = Some p /\ spawn shown p = Ok (up_hub out.2)
  end.

Lemma fresh_path st ext : uploads_ok st -> up_files st !! path (up_seq st) ext = None.
Proof.
  intros [Hseq Hfiles]. destruct (up_last st) as [p|]; [|by rewrite Hfiles].
  destruct Hfiles as (k & e & data & -> & Hk & ->). apply lookup_singleton_ne.
  intros Heq%temp_path_inj; lia.
Qed.

Abbreviation run := (upload spawner temp_dir pid ns cap) (only parsing).

Lemma upload_step name body io st :
  uploads_ok st -> up_seq st + 1 < 2 ^ 64 ->
  let out := run name body io st in
  settled body st out /\ uploads_ok out.2 /\ up_seq out.2 <= up_seq st + 1.
Proof.
  intros Hok Hmax. pose proof Hok as [Hseq Hfiles].
  cbv zeta. unfold upload. destruct spawner as [spawn|] eqn:Hspawn; [|split_and!; simpl; by (done || lia)].
  destruct (read_head [] body) as [[[ext head] rest]|err] eqn:Hhead; [|split_and!; simpl; by (done || lia)].
  pose proof (fresh_path st ext Hok) as Hfresh. rewrite Z.mod_small by lia. cbv zeta.
  assert (forall st', up_files st' = up_files st -> up_last st' = up_last st -> up_seq st' = up_seq st + 1 ->
    uploads_ok st') as Hkeep.
  { intros st' H1 H2 H3. split; [lia|]. rewrite H1, H2, H3. destruct (up_last st) as [p|]; [|done].
    destruct Hfiles as (k & e & data & ? & ? & ?). exists k, e, data. split_and!; by (done || lia). }
  destruct (spill_upload cap head rest io) as [data outcome] eqn:Hspill.
  destruct outcome as [[]|err].
  - destruct (spawn _ _) as [hub|err] eqn:Hsp; cbn [fst snd].
    + apply read_head_spec in Hhead as (t1 & -> & -> & Hext). simpl in Hext.
      apply spill_upload_spec in Hspill as (t2 & -> & -> & Hw). simpl in Hw |- *.
      rewrite <- concat_app in *.
      assert (match up_last st with
              | Some old => remove_file old (<[path (up_seq st) ext := concat (t1 ++ t2)]> (up_files st))
              | None => <[path (up_seq st) ext := concat (t1 ++ t2)]> (up_files st)
              end = {[path (up_seq st) ext := concat (t1 ++ t2)]}) as Hnew.
      { destruct (up_last st) as [p|]; [|by rewrite Hfiles].
        destruct Hfiles as (k & e & d & -> & Hk & ->). unfold remove_file.
        rewrite delete_insert_ne by (intros Heq%temp_path_inj; lia). by rewrite delete_singleton_eq. }
      split; [|split; [split; simpl; [lia|]|simpl; lia]].
      * exists spawn, (t1 ++ t2)%list, (path (up_seq st) ext). simpl. rewrite fmap_app.
        split_and!; try done. rewrite concat_app. eexists. by apply capture_extension_more.
      * exists (up_seq st), ext, (concat (t1 ++ t2)). split_and!; by (done || lia).
    + rewrite remove_stored by done. split; [done|]. split; [by apply Hkeep|simpl; lia].
  - cbn [fst snd]. rewrite remove_stored by done. split; [done|]. split; [by apply Hkeep|simpl; lia].
Qed.

Lemma uploads_keep reqs st :
  uploads_ok st -> up_seq st + Z.of_nat (length reqs) < 2 ^ 64 ->
  let st' := uploads spawner temp_dir pid ns cap reqs st in
  uploads_ok st' /\ up_seq st' <= up_seq st + Z.of_nat (length reqs).
Proof.
  revert st. induction reqs as [|r reqs IH]; intros st Hok Hmax; [split; [done|simpl; lia]|].
  simpl in *. destruct (upload_step r.1.1 r.1.2 r.2 st Hok) as (_ & Hok' & Hle); [lia|].
  destruct (IH _ Hok') as [? ?]; [lia|]. split; [done|lia].
Qed.
End Paths.

(** C18: Uploads are atomic: after any requests, one more either fails and leaves the
    served hub and the temporary files as they were, or succeeds, and then the
    hub is the spawner's for the name shown and the only file left is the whole
    body, which starts with a capture magic and is within the cap. *)
Theorem upload_atomic spawner temp_dir pid ns cap hub reqs name body io :
  Z.of_nat (length reqs) + 1 < 2 ^ 64 ->
  let st := uploads spawner temp_dir pid ns cap reqs (mkUploads ∅ 0 None hub) in
  let out := upload spawner temp_dir pid ns cap name body io st in
  settled spawner cap body st out /\ uploads_ok temp_dir pid ns out.2.
Proof.
  intros Hmax st out.
  destruct (uploads_keep spawner temp_dir pid ns cap reqs (mkUploads ∅ 0 None hub)) as [Hok Hle];
    [by split|simpl; lia|]. simpl in Hle.
  destruct (upload_step spawner temp_dir pid ns cap name body io st Hok) as (? & ? & _); [fold st in Hle; lia|done].
Qed.

(** One capture replaces another; the first arrives in two chunks. *)
Lemma upload_atomic_witness :
  let spawn := Some (fun (shown : list Z) (p : string) =>
    Ok (SnapshotHub_new p Mode_Offline) : result SnapshotHub string) in
  let first := (None, [C_Data [0xa1; 0xb2]; C_Data [0xc3; 0xd4; 1]], []) in
  let body := [C_Data [0x0a; 0x0d; 0x0d; 0x0a]] in
  let st := uploads spawn "/tmp" 7 0 4096 [first] (mkUploads ∅ 0 None (SnapshotHub_new "live" Mode_Live)) in
  let out := upload spawn "/tmp" 7 0 4096 None body [] st in
  settled spawn 4096 body st out /\ size (up_files st) = 1%nat /\ size (up_files out.2) = 1%nat /\
  up_files st <> up_files out.2 /\ out.1 = Ok uploaded_capture.
Proof.
  intros spawn first body st out.
  destruct (upload_atomic spawn "/tmp" 7 0 4096 (SnapshotHub_new "live" Mode_Live) [first] None body []
    ltac:(vm_compute; reflexivity)) as [Hs _].
  split; [exact Hs|]. split; [vm_compute; reflexivity|]. split; [vm_compute; reflexivity|].
  split; [|vm_compute; reflexivity]. apply (bool_decide_unpack _). vm_compute. exact I.
Defined.

(** ** The server *)

(** [doc\[name\] = v]: null becomes an object, and anything else that is not one is
    a panic. *)
Definition set_member (name : string) (v : Json) (doc : Json) : option Json :=
  match doc with
  | J_Obj m => Some (J_Obj (map_insert name v m))
  | J_Null => Some (J_Obj [(name, v)])
  | _ => None
  end.

(** The routes, with what their extractors found in the request. *)
Inductive Endpoint :=
  | E_Index
  | E_Meta
  | E_Snapshot
  | E_Streams (params : gmap string string)
  | E_Timeline (params : gmap string string)
  | E_Stream (id : Z)
  | E_Search (params : gmap string string)
  | E_Tick
  | E_Upload (name : option (list Z)) (body : list Chunk) (io : list bool).

(** The page, a document, or one event of the stream. *)
Inductive HttpBody := B_Html | B_Json (doc : Json) | B_Event (name : string) (data : Json).
Record HttpReply := mkHttpReply { rp_status : Z; rp_body : HttpBody }.

Definition OK_STATUS : Z := 200.
Definition NOT_FOUND : Z := 404.

Definition ok_json (doc : Json) : HttpReply := mkHttpReply OK_STATUS (B_Json doc).
Definition error_json (status : Z) (message : string) : HttpReply :=
  mkHttpReply status (B_Json (json_obj [("error", J_Str message)])).

(** The current hub with the uploads' state, and the index of one generation. *)
Record WebState := mkWebState { ws_uploads : Uploads; ws_memo : option (Z * SnapshotIndex) }.

Definition WebState_new (hub : SnapshotHub) : WebState := mkWebState (mkUploads ∅ 0 None hub) None.
Definition ws_hub (st : WebState) : SnapshotHub := up_hub (ws_uploads st).

(** [WebState::index]. *)
Definition web_index (st : WebState) : SnapshotIndex :=
  match ws_memo st with
  | Some (cached_gen, index) =>
      if (cached_gen =? hub_generation (ws_hub st))%Z then index else SnapshotIndex_new (latest (ws_hub st))
  | None => SnapshotIndex_new (latest (ws_hub st))
  end.

(** A handler that asks the index: what it fills in stays with the memo. *)
Definition with_index {A} (m : request A) (st : WebState) : option (A * WebState) :=
  '(a, ix) ← m (web_index st);
  Some (a, mkWebState (ws_uploads st) (Some (hub_generation (ws_hub st), ix))).

Section Server.
Context `{Env : ViewEnv} (format_rfc3339 : SystemTime -> option string).
Context (spawner : option (list Z -> string -> result SnapshotHub string)).
Context (temp_dir : string) (pid ns cap : Z).

Definition uploads_flag : Json := J_Bool (bool_decide (is_Some spawner)).

Definition meta_with_uploads (hub : SnapshotHub) : option Json := set_member "uploads" uploads_flag (meta_json hub).

(** [doc\["meta"\]\["uploads"\] = ...]. *)
Definition snapshot_with_uploads (doc : Json) : option Json :=
  meta ← set_member "uploads" uploads_flag (member "meta" doc); set_member "meta" meta doc.

(** A handler that renders what the index answers. *)
Definition answering {A} (m : request A) (render : A -> option HttpReply) (st : WebState)
    : option (HttpReply * WebState) :=
  '(a, st) ← with_index m st; r ← render a; Some (r, st).

Definition some_json (doc : Json) : option HttpReply := Some (ok_json doc).

Definition handle (e : Endpoint) (st : WebState) : option (HttpReply * WebState) :=
  let hub := ws_hub st in
  match e with
  | E_Index => Some (mkHttpReply OK_STATUS B_Html, st)
  | E_Meta => doc ← meta_with_uploads hub; Some (ok_json doc, st)
  | E_Snapshot => answering (snapshot_json format_rfc3339 hub) (fun doc => ok_json <$> snapshot_with_uploads doc) st
  | E_Streams params => answering (streams_json format_rfc3339 hub params) some_json st
  | E_Timeline params => answering (timeline_json format_rfc3339 hub params) some_json st
  | E_Stream id =>
      answering (stream_json format_rfc3339 id)
        (fun doc => Some (match doc with
                          | Some doc => ok_json doc
                          | None => error_json NOT_FOUND ("no stream #" +:+ show_Z id)
                          end)) st
  | E_Search params => answering (search_json hub (default "" (params !! "q"))) some_json st
  | E_Tick => Some (mkHttpReply OK_STATUS (B_Event "tick" (tick_json hub)), st)
  | E_Upload name body io =>
      let '(outcome, uploads) := upload spawner temp_dir pid ns cap name body io (ws_uploads st) in
      Some (match outcome with
            | Ok shown => ok_json (json_obj [("ok", J_Bool true); ("source", J_Str (as_str shown))])
            | Error (status, message) => error_json status message
            end, mkWebState uploads (ws_memo st))
  end.

(** What the server lives through: requests, and what the pipeline does to the hub. *)
Inductive WebAction :=
  | A_Request (e : Endpoint)
  | A_Publish (s : AggregatorSnapshot)
  | A_Progress (read total : Z)
  | A_Finished
  | A_Failed (message : string).

Definition hub_after (a : WebAction) (h : SnapshotHub) : SnapshotHub :=
  match a with
  | A_Publish s => publish s h
  | A_Progress read total => set_progress read total h
  | A_Finished => mark_finished h
  | A_Failed message => set_error message h
  | A_Request _ => h
  end.

Definition uploads_after (a : WebAction) (u : Uploads) : Uploads :=
  mkUploads (up_files u) (up_seq u) (up_last u) (hub_after a (up_hub u)).

(** The replies, in order. *)
Fixpoint serve_actions (actions : list WebAction) (st : WebState) : option (list HttpReply * WebState) :=
  match actions with
  | [] => Some ([], st)
  | A_Request e :: rest =>
      '(r, st) ← handle e st; '(rs, st) ← serve_actions rest st; Some (r :: rs, st)
  | a :: rest => serve_actions rest (mkWebState (uploads_after a (ws_uploads st)) (ws_memo st))
  end.

(** The server that keeps no index. *)
Fixpoint serve_afresh (actions : list WebAction) (u : Uploads) : option (list HttpReply) :=
  match actions with
  | [] => Some []
  | A_Request e :: rest =>
      '(r, st) ← handle e (mkWebState u None); rs ← serve_afresh rest (ws_uploads st); Some (r :: rs)
  | a :: rest => serve_afresh rest (uploads_after a u)
  end.
End Server.

(** ** No request sees the memo *)

Section Transparent.
Context `{Env : ViewEnv} (format_rfc3339 : SystemTime -> option string).

(** A request answers the same from every index of the snapshot, and fills it in
    truly. *)
Definition determined (snap : AggregatorSnapshot) {A} (m : request A) : Prop := exists r, answers snap m r.

Lemma determined_bind snap {A B} (m : request A) (k : A -> request B) :
  determined snap m -> (forall a, determined snap (k a)) -> determined snap (and_request m k).
Proof.
  intros [[a|] Hm] Hk; [destruct (Hk a) as [r Hr]; exists r; by eapply answers_seq|].
  exists None. intros ix Hix. unfold and_request. by rewrite (Hm ix Hix).
Qed.

Lemma determined_reply snap {A} (a : A) : determined snap (reply a).
Proof. eexists. apply answers_reply. Qed.

Lemma digits_nonneg l n : Forall (fun d => is_digit d = true) l -> 0 <= n ->
  0 <= foldl (fun n d => n * 10 + (d - 48)) n l.
Proof.
  intros Hl. revert n. induction Hl as [|d l Hd Hl IH]; intros n Hn; simpl; [done|]. apply IH.
  unfold is_digit, in_range in Hd. reflect_bools. lia.
Qed.

Lemma number_param_nonneg params name fallback : 0 <= fallback -> 0 <= number_param params name fallback.
Proof.
  intros Hf. unfold number_param. destruct (params !! name) as [s|]; simpl; [|done].
  unfold parse_u64. cbv zeta. set (digits := match str_bytes s with 43 :: rest => rest | bytes => bytes end).
  clearbody digits. destruct digits as [|d ds]; [done|]. destruct (forallb is_digit (d :: ds)) eqn:Hall; [|done].
  case_match; [|done]. cbn [default]. apply digits_nonneg; [|lia].
  apply Forall_forall. intros x Hx%list_elem_of_In. by eapply forallb_forall in Hall.
Qed.

Context (snap : AggregatorSnapshot) (Hsnap : snapshot_forest snap).

Let Hok : snapshot_ok snap := sf_ok _ Hsnap.

Lemma determined_seq_lookup : determined snap seq_lookup.
Proof. destruct (answers_seq_lookup snap Hsnap) as (f & Hf & _). by eexists. Qed.

Lemma determined_snapshot hub : determined snap (snapshot_json format_rfc3339 hub).
Proof.
  destruct (answers_seq_lookup snap Hsnap) as (f & Hf & _).
  destruct (FULL_SNAPSHOT_MAX_STREAMS <? blen (sn_streams snap))%Z eqn:Hsize; eexists (Some _); intros ix Hix;
    unfold snapshot_json; rewrite (co_snap _ _ Hix), Hsize; cbv zeta iota; [by exists ix|].
  destruct (Hf ix Hix) as (ix' & Hrun & Hix'). exists ix'. unfold and_request. rewrite Hrun.
  split; [reflexivity|done].
Qed.

Lemma determined_streams hub params : determined snap (streams_json format_rfc3339 hub params).
Proof.
  unfold streams_json. destruct (scope_of params) as [scope|doc]; [|apply determined_reply].
  apply determined_bind.
  - eexists. apply answers_window; [done|..]; unfold window_spec; simpl; [by apply number_param_nonneg|].
    unfold WINDOW_LIMIT_MAX. pose proof (number_param_nonneg params "limit" 200 ltac:(lia)). lia.
  - intros w. apply determined_bind; [apply determined_seq_lookup|]. intros f. apply determined_reply.
Qed.

Lemma determined_timeline hub params : determined snap (timeline_json format_rfc3339 hub params).
Proof.
  apply determined_bind; [eexists; by apply answers_timeline|]. intros t. apply determined_reply.
Qed.

Lemma determined_stream id : determined snap (stream_json format_rfc3339 id).
Proof.
  apply determined_bind.
  - destruct (answers_index_by_seq snap Hok id) as (p & Hp & _). by eexists.
  - intros s. apply determined_bind; [apply determined_seq_lookup|]. intros f. apply determined_reply.
Qed.

Lemma determined_search hub q : determined snap (search_json hub q).
Proof.
  destruct (blank q) eqn:Hq; [|eexists; by apply answers_search].
  unfold search_json. rewrite Hq. apply determined_reply.
Qed.
End Transparent.

Section Memo.
Context `{Env : ViewEnv} (format_rfc3339 : SystemTime -> option string).
Context (spawner : option (list Z -> string -> result SnapshotHub string)).
Context (temp_dir : string) (pid ns cap : Z).

(** The memo is of an earlier generation, or true of the snapshot served. *)
Definition memo_ok (st : WebState) : Prop :=
  forall g ix, ws_memo st = Some (g, ix) ->
    (g <= hub_generation (ws_hub st))%Z /\
    (g = hub_generation (ws_hub st) -> coherent (latest (ws_hub st)) ix).

Lemma web_index_coherent st : memo_ok st -> coherent (latest (ws_hub st)) (web_index st).
Proof.
  intros Hmemo. unfold web_index. destruct (ws_memo st) as [[g ix]|] eqn:Hm; [|apply coherent_new].
  destruct (Z.eqb_spec g (hub_generation (ws_hub st))); [by apply (Hmemo g ix)|apply coherent_new].
Qed.

(** The same reply, and a state that agrees but for the memo. *)
Definition agrees {A} (u : Uploads) (o o' : option (A * WebState)) : Prop :=
  match o with
  | Some (a, st) => memo_ok st /\ ws_uploads st = u /\ exists st', o' = Some (a, st') /\ ws_uploads st' = u
  | None => o' = None
  end.

Lemma with_index_agrees {A} (m : request A) st :
  memo_ok st -> determined (latest (ws_hub st)) m ->
  agrees (ws_uploads st) (with_index m st) (with_index m (mkWebState (ws_uploads st) None)).
Proof.
  intros Hmemo [r Hr]. pose proof (Hr _ (web_index_coherent st Hmemo)) as H1.
  pose proof (Hr _ (coherent_new _)) as H2. unfold with_index, agrees.
  change (web_index (mkWebState (ws_uploads st) None)) with (SnapshotIndex_new (latest (ws_hub st))).
  destruct r as [a|]; [|by rewrite H1, H2].
  destruct H1 as (ix & -> & Hix), H2 as (ix' & -> & _). simpl. split; [|split; [done|by eexists]].
  intros g ix2 [= <- <-]. split; [|done]. unfold ws_hub. simpl. lia.
Qed.

Lemma answering_agrees {A} (m : request A) render st :
  memo_ok st -> determined (latest (ws_hub st)) m ->
  agrees (ws_uploads st) (answering m render st) (answering m render (mkWebState (ws_uploads st) None)).
Proof.
  intros Hmemo Hm. pose proof (with_index_agrees m st Hmemo Hm) as Hag. unfold answering, agrees in *.
  destruct (with_index m st) as [[a st1]|]; simpl; [|by rewrite Hag].
  destruct Hag as (Hmemo' & Hu & st' & -> & Hu'). simpl. destruct (render a); simpl; [|done].
  split; [done|]. split; [done|]. by eexists.
Qed.

(** A request that never replaces the hub: a read, or an upload that is refused. *)
Definition keeps_hub (e : Endpoint) : Prop :=
  match e with
  | E_Upload name body io => forall u, up_hub (upload spawner temp_dir pid ns cap name body io u).2 = up_hub u
  | _ => True
  end.

Lemma handle_agrees e st :
  keeps_hub e -> memo_ok st -> snapshot_forest (latest (ws_hub st)) ->
  let run := handle format_rfc3339 spawner temp_dir pid ns cap e in
  exists u, up_hub u = ws_hub st /\ agrees u (run st) (run (mkWebState (ws_uploads st) None)).
Proof.
  intros Hread Hmemo Hf run. subst run.
  destruct e as [| | |params|params|id|params| |name body io].
  9: { specialize (Hread (ws_uploads st)). unfold handle. simpl.
    destruct (upload spawner temp_dir pid ns cap name body io (ws_uploads st)) as [outcome u]. simpl in Hread.
    exists u. split; [done|]. split; [|split; [done|by eexists]].
    intros g ix Hg. destruct (Hmemo g ix Hg) as [H1 H2]. unfold ws_hub in *. simpl. by rewrite Hread. }
  all: exists (ws_uploads st); split; [done|].
  all: assert (forall A (a : A), agrees (ws_uploads st) (Some (a, st)) (Some (a, mkWebState (ws_uploads st) None)))
    as Hpure by (intros; split; [done|split; [done|by eexists]]).
  all: unfold handle; try apply Hpure;
    try (apply answering_agrees; [done|]); change (ws_hub (mkWebState (ws_uploads st) None)) with (ws_hub st).
  - by apply determined_snapshot.
  - by apply determined_streams.
  - by apply determined_timeline.
  - by apply determined_stream.
  - by apply determined_search.
Qed.

Definition is_request (a : WebAction) : bool := match a with A_Request _ => true | _ => false end.

(** The bound on the generation, which each publish raises by one. *)
Definition action_ok (a : WebAction) : Prop :=
  match a with A_Request e => keeps_hub e | A_Publish s => snapshot_forest s | _ => True end.

Lemma uploads_after_ok a st : 0 <= hub_generation (ws_hub st) -> hub_generation (ws_hub st) + 1 < 2 ^ 64 ->
  action_ok a -> memo_ok st -> snapshot_forest (latest (ws_hub st)) ->
  let st' := mkWebState (uploads_after a (ws_uploads st)) (ws_memo st) in
  memo_ok st' /\ snapshot_forest (latest (ws_hub st')) /\
  hub_generation (ws_hub st) <= hub_generation (ws_hub st') <= hub_generation (ws_hub st) + 1.
Proof.
  intros H0 Hmax Ha Hmemo Hf. unfold ws_hub, hub_generation in *.
  destruct a; simpl in *; try (split; [exact Hmemo|split; [exact Hf|lia]]).
  rewrite Z.mod_small by lia. split; [|split; [done|lia]].
  intros g ix Hg. destruct (Hmemo g ix Hg) as [Hle _]. unfold hub_generation, ws_hub in *. simpl.
  rewrite Z.mod_small by lia. split; [lia|intros ->; lia].
Qed.

Lemma serve_actions_agrees actions st :
  0 <= hub_generation (ws_hub st) -> hub_generation (ws_hub st) + Z.of_nat (length actions) < 2 ^ 64 ->
  Forall action_ok actions -> memo_ok st -> snapshot_forest (latest (ws_hub st)) ->
  fst <$> serve_actions format_rfc3339 spawner temp_dir pid ns cap actions st =
  serve_afresh format_rfc3339 spawner temp_dir pid ns cap actions (ws_uploads st).
Proof.
  intros H0 Hmax Hall. revert st H0 Hmax.
  induction Hall as [|a actions Ha Hall IH]; intros st H0 Hmax Hmemo Hf; [done|].
  simpl length in Hmax.
  assert (is_request a = false -> fst <$> serve_actions format_rfc3339 spawner temp_dir pid ns cap actions
      (mkWebState (uploads_after a (ws_uploads st)) (ws_memo st)) =
    serve_afresh format_rfc3339 spawner temp_dir pid ns cap actions (uploads_after a (ws_uploads st))) as Hhub.
  { intros _. destruct (uploads_after_ok a st) as (? & ? & ?); [lia|lia|done..|]. apply IH; (done || lia). }
  destruct a as [e|s|r t| |msg]; try exact (Hhub eq_refl).
  destruct (handle_agrees e st Ha Hmemo Hf) as (u & Hu & Hag). simpl in Hag. unfold agrees in Hag. simpl.
  destruct (handle _ _ _ _ _ _ e st) as [[r st1]|]; [|by rewrite Hag].
  destruct Hag as (Hmemo1 & Hu1 & st2 & -> & Hu2). simpl. rewrite Hu2, <- Hu1.
  assert (ws_hub st1 = ws_hub st) as Hh by (unfold ws_hub at 1; by rewrite Hu1).
  rewrite <- (IH st1); [|by rewrite Hh|rewrite Hh; lia|done|by rewrite Hh].
  by destruct (serve_actions _ _ _ _ _ _ actions st1) as [[rs st3]|].
Qed.
End Memo.

Section Requests.
Context `{Env : ViewEnv} `{Hasher}.

(** C19: Until an upload replaces the served hub no request sees what was asked
    before it: whatever requests arrive at a fresh server - refused uploads among
    them - and however the pipeline publishes, reports progress and ends in between,
    the server with its memoized, lazily filled index sends reply by reply what a
    server sends that builds a fresh index of the latest snapshot for every request,
    and neither or both panic. *)
Theorem server_transparent e c format_rfc3339 spawner temp_dir pid ns cap source mode actions :
  engine_wf e -> config_ok c -> Z.of_nat (length actions) < 2 ^ 64 ->
  Forall (fun a => match a with
                   | A_Request r => keeps_hub spawner temp_dir pid ns cap r
                   | A_Publish s => exists pkts, trace_ok pkts /\ s = snapshot (run e c pkts)
                   | _ => True
                   end) actions ->
  let st := WebState_new (SnapshotHub_new source mode) in
  fst <$> serve_actions format_rfc3339 spawner temp_dir pid ns cap actions st =
  serve_afresh format_rfc3339 spawner temp_dir pid ns cap actions (ws_uploads st).
Proof.
  intros He Hc Hlen Hall st. apply serve_actions_agrees; [done|simpl; unfold hub_generation; simpl; lia| |done|].
  - eapply Forall_impl; [exact Hall|]. intros [r|s|read total| |msg]; try done. intros (pkts & Ht & ->).
    destruct (reached_run False e c pkts He Hc Ht) as (Hs & _); [done|]. by apply store_snapshot_forest.
  - apply empty_forest.
Qed.
End Requests.

(** Two captures published, the requests of one page after each; without a spawner
    the upload is refused. *)
Definition web_day : list WebAction :=
  let page := A_Request <$>
    [E_Meta; E_Snapshot; E_Search {["q" := "dns"]}; E_Streams {["q" := "dns"; "scope" := "flat"]}; E_Stream 0; E_Stream 99;
     E_Timeline ∅; E_Upload None [C_Data [0x0a; 0x0d; 0x0d; 0x0a]] []; E_Tick] in
  (page ++ [A_Publish (snapshot (run store_engine (store_config EvictNone) (take 2 store_trace)))] ++ page ++
   [A_Publish (snapshot (run store_engine (store_config EvictNone) store_trace)); A_Finished] ++ page)%list.

Lemma server_transparent_witness :
  let _ := plain_env in
  let st := WebState_new (SnapshotHub_new "a.pcap" Mode_Offline) in
  let rfc t := Some (show_Z t) in
  fst <$> serve_actions rfc None "/tmp" 7 0 4096 web_day st = serve_afresh rfc None "/tmp" 7 0 4096 web_day (ws_uploads st) /\
  length ∘ fst <$> serve_actions rfc None "/tmp" 7 0 4096 web_day st = Some 27%nat.
Proof.
  intros env st rfc. split; [|vm_compute; reflexivity].
  apply (server_transparent (Env := env) store_engine (store_config EvictNone) rfc None "/tmp" 7 0 4096 "a.pcap" Mode_Offline
    web_day store_engine_wf (I : config_ok (store_config EvictNone))); [vm_compute; reflexivity|].
  unfold web_day. repeat (constructor; [first [exact I|intros ?; reflexivity|idtac]|]); [..|constructor].
  - exists (take 2 store_trace). split; [|reflexivity]. split; [by repeat constructor|by vm_compute].
  - exists store_trace. split; [exact store_trace_ok|reflexivity].
Defined.

(** Across an upload the memo shows through ([Hub.memo_confuses_hubs]): the new hub
    has published as often as the old one, and the index of the old capture answers
    for it, one request after the other. *)
Example upload_shows_the_old_index :
  let _ := plain_env in
  let rfc t := Some (show_Z t) in
  let spawn := Some (fun (_ : list Z) (p : string) =>
    Ok (publish empty_snapshot (SnapshotHub_new p Mode_Offline)) : result SnapshotHub string) in
  let actions :=
    [A_Publish (snapshot (run store_engine (store_config EvictNone) store_trace)); A_Request (E_Streams ∅);
     A_Request (E_Upload None [C_Data [0x0a; 0x0d; 0x0d; 0x0a]] []); A_Request (E_Streams ∅)] in
  let total (r : HttpReply) := match rp_body r with B_Json doc => member "total" doc | _ => J_Null end in
  let st := WebState_new (SnapshotHub_new "a.pcap" Mode_Offline) in
  (fun out : list HttpReply * WebState => total <$> out.1) <$> serve_actions rfc spawn "/tmp" 7 0 4096 actions st = Some [J_Num 1; J_Null; J_Num 1] /\
  (fun rs : list HttpReply => total <$> rs) <$> serve_afresh rfc spawn "/tmp" 7 0 4096 actions (ws_uploads st) = Some [J_Num 1; J_Null; J_Num 0].
Proof. vm_compute. split; reflexivity. Qed.
