(* ===== verification/DefaultEngine.v ===== *)
(** * The engine that ships

    Models [default_engine] of [crates/pktflow-plugins/src/lib.rs]: the
    registration list built into an engine.  The list builds, every claim,
    name and probe of it reaches its plugin, and what the parser and the
    aggregator promise of conforming plugins holds of this engine, with the
    three protocols that may lack their key accounted for. *)

From S2P Require Import Prelude Values Bytes Types Contract PlugKit Plugins PlugEdge Samples Engine.
From S2P Require Import Parser FlowKeys Rollups Unknowns Arena Store.
From S2P Require Import StoreInv StoreOps StoreCounts StoreKeys StoreHeaps.
From S2P Require Import Queries StoreIngest StoreProps StoreAccounts.

Definition default_builder : EngineBuilder :=
  foldl (fun b p => Engine.plugin p b) EngineBuilder_new reference_plugins.

(** [None] is the panic of [expect]. *)
Definition default_engine : option Engine :=
  match build default_builder with Ok e => Some e | Error _ => None end.

(** The plugins with a probe, in registration order. *)
Definition probing_names : list ProtocolName := name <$> filter (fun p => has_probe p = true) reference_plugins.

Lemma register_all b ps :
  let b' := foldl (fun b p => Engine.plugin p b) b ps in
  b_plugins b' = b_plugins b ++ ps /\ overrides b' = overrides b /\ unroutes b' = unroutes b.
Proof.
  revert b. induction ps as [|p ps IH]; intros b; cbn [foldl]; [by rewrite app_nil_r|].
  destruct (IH (Engine.plugin p b)) as (H1 & H2 & H3). cbv zeta in *. rewrite H1, H2, H3. simpl.
  by rewrite <- app_assoc.
Qed.

Lemma default_builder_plugins :
  b_plugins default_builder = reference_plugins /\ overrides default_builder = [] /\ unroutes default_builder = [].
Proof. exact (register_all EngineBuilder_new reference_plugins). Qed.

Lemma default_engine_some : is_Some default_engine.
Proof. apply (bool_decide_unpack _). vm_compute. exact I. Qed.

Lemma default_engine_build e : default_engine = Some e -> build default_builder = Ok e.
Proof. unfold default_engine. destruct (build default_builder); [by intros [= ->]|done]. Qed.

Lemma default_engine_plugins e : default_engine = Some e -> plugins e = reference_plugins.
Proof.
  intros He%default_engine_build. apply build_inv in He as (? & ? & _ & _ & _ & _ & ->).
  apply default_builder_plugins.
Qed.

(** Without overrides a route goes to its claimant, and claims do not collide. *)
Lemma default_route e id :
  default_engine = Some e -> plugin_for_route e id = claimant reference_plugins id.
Proof.
  intros He%default_engine_build. destruct default_builder_plugins as (Hp & Ho & Hu).
  rewrite (build_routes _ _ id He). unfold route_spec, last_override. rewrite Hp, Ho, Hu. done.
Qed.

Lemma default_claims_once p q id :
  p ∈ reference_plugins -> q ∈ reference_plugins -> id ∈ claims p -> id ∈ claims q -> p = q.
Proof.
  destruct default_engine_some as [e He]. apply default_engine_build, registry_valid_of_build in He as [_ _ Hc _ _].
  destruct default_builder_plugins as (Hp & Ho & Hu). rewrite Hp, Ho, Hu in Hc.
  apply occurrences_claims_inj. apply Hc; apply not_elem_of_nil.
Qed.

Lemma claimant_Some ps id p : claimant ps id = Some p -> p ∈ ps /\ id ∈ claims p.
Proof. intros [Hp Hc%bool_decide_eq_true]%find_first_Some. done. Qed.

(** C12: The shipped registration list builds, so [default_engine] does not
    panic, and registration is effective: the engine has exactly the 82
    plugins, every route a plugin claims goes to that plugin and every route
    that goes anywhere goes to a plugin that claims it, every name is found,
    and the fallback pool is the probing plugins in registration order. *)
Theorem default_engine_complete :
  exists e, default_engine = Some e /\ plugins e = reference_plugins /\ length (plugins e) = 82%nat /\
    (forall p id, p ∈ plugins e -> (id ∈ claims p <-> plugin_for_route e id = Some p)) /\
    (forall p, p ∈ plugins e -> plugin_by_name e (name p) = Some p) /\
    name <$> fallback_pool e = probing_names.
Proof.
  destruct default_engine_some as [e He]. exists e. pose proof (default_engine_build e He) as Hb.
  pose proof (default_engine_plugins e He) as Hp. rewrite !Hp. split_and!; [done|done|done| | |].
  - intros p id Hin. rewrite (default_route e id He). split.
    + intros Hc. apply find_first_unique; [done|by apply bool_decide_eq_true|].
      intros q Hq Hcq%bool_decide_eq_true. by apply (default_claims_once q p id).
    + by intros [_ Hc]%claimant_Some.
  - intros p Hin. apply (built_by_name default_builder); [done|by rewrite Hp].
  - rewrite (build_pool _ _ Hb). destruct default_builder_plugins as (-> & _). done.
Qed.

(** ** Dissection *)

Lemma default_typed e : default_engine = Some e -> typed_engine e.
Proof.
  intros He p b c r Hp Hr. rewrite (default_engine_plugins e He) in Hp.
  pose proof (reference_plugins_framed p Hp) as Hf. apply (conf_header_len _ _ _ Hr).
Qed.

Section Aggregated.
Context `{Hasher}.

Definition unkeyed_layer (l : LayerRecord) : bool := bool_decide (protocol l ∈ unkeyed_messages).

(** The layers of the trace whose protocol may come without its key. *)
Definition unkeyed_layers (pkts : list DissectedPacket) : Z :=
  foldr (fun p n => count_if unkeyed_layer (layers p) + n) 0 pkts.

Lemma default_failed e p :
  default_engine = Some e -> dissected e p ->
  Forall (fun l => is_failed e l = true -> unkeyed_layer l = true) (layers p).
Proof.
  intros He (bytes & m & o & Ho & Hd). pose proof (default_engine_build e He) as Hb.
  apply Forall_lookup_2. intros i l Hl Hfail. apply bool_decide_eq_true.
  destruct (decide (protocol l ∈ unkeyed_messages)) as [|Hnk]; [done|exfalso].
  destruct (dissect_layer_source e bytes m o p i l Hd Hl) as (q & parsed & Hq & Hn & Hp & _ & Hf & _).
  pose proof Hq as Hq'. rewrite (default_engine_plugins e He) in Hq'. rewrite <- Hn in Hnk.
  pose proof (reference_plugins_keyed q Hq' Hnk) as Hk. revert Hfail.
  unfold is_failed, layer_key, layer_identity. rewrite <- Hn, (built_by_name _ e q Hb Hq).
  cbn [mbind option_bind]. destruct (stream_identity q) as [id|] eqn:Ei; [|done]. cbn [mbind option_bind].
  specialize (Hk _ _ _ id Hp). simpl in Hk. rewrite Hf.
  destruct (proj1 (flow_key_ready id (pl_fields parsed)) (Hk (effective_depth_keys o Ho) Ei)) as [[] ->]. done.
Qed.

Lemma count_if_nonneg f ls : 0 <= count_if f ls.
Proof. induction ls as [|l ls IH]; simpl; [lia|]. destruct (f l); lia. Qed.

Lemma count_if_le f g ls : Forall (fun l => f l = true -> g l = true) ls -> count_if f ls <= count_if g ls.
Proof.
  induction 1 as [|l ls Hl _ IH]; simpl; [lia|]. destruct (f l); [rewrite Hl by done; lia|]. destruct (g l); lia.
Qed.

Lemma unkeyed_layers_app ps qs : unkeyed_layers (ps ++ qs) = unkeyed_layers ps + unkeyed_layers qs.
Proof. induction ps as [|p ps IH]; [done|]. cbn [app unkeyed_layers foldr]. fold (unkeyed_layers (ps ++ qs)). fold (unkeyed_layers ps). lia. Qed.

(** C13: End to end for the engine that ships: whatever the bytes of the
    packets, only QUIC, L2TPv3 and IEEE 802.11 layers can lack their key, so a
    run has at most as many key errors as the packets have such layers, and
    none where they have none. *)
Theorem default_run_key_errors e c pkts :
  default_engine = Some e -> config_ok c -> trace_ok pkts -> Forall (dissected e) pkts ->
  0 <= key_errors (totals (run e c pkts)) <= unkeyed_layers pkts.
Proof.
  intros He Hc. pose proof (build_engine_wf _ _ (default_engine_build e He)) as Hwf.
  pose proof (fun p => default_failed e p He) as Hf. clear He.
  induction pkts as [|p pkts IH] using rev_ind; intros [Ho Hl] Hd; [done|].
  apply Forall_app in Ho as [Ho Hop]. rewrite Forall_singleton in Hop.
  apply Forall_app in Hd as [Hd Hdp]. rewrite Forall_singleton in Hdp.
  rewrite layer_count_app in Hl. simpl in Hl. pose proof (blen_nonneg (layers p)).
  assert (trace_ok pkts) as Ht by (split; [done|lia]).
  destruct (run_ok False e c pkts Hwf Hc Ht) as (now & [R1 R2 [R3 R4] _ R5]); [done|].
  rewrite run_snoc, (ingest_key_errors False p _ R1 R2), R4; [|by rewrite R3|done|lia].
  specialize (IH Ht Hd). rewrite unkeyed_layers_app. cbn [unkeyed_layers foldr].
  pose proof (count_if_le _ _ _ (Hf p Hdp)).
  assert (0 <= count_if (is_failed e) (layers p)) by (apply count_if_nonneg). lia.
Qed.
End Aggregated.

(** ** Witnesses *)

#[local] Instance default_hasher : Hasher := {| key_hash := foldr Z.add 0; encoding_digest := foldr Z.add 0 |}.

Definition shipped : Engine := default (mkEngine [] ∅ ∅ []) default_engine.

Lemma default_engine_shipped : default_engine = Some shipped.
Proof. unfold shipped. by destruct default_engine_some as [e ->]. Qed.

(** Ethernet, IPv4 and UDP to port 443, then a QUIC short header. *)
Definition short_header_frame : list Z :=
  [0; 1; 2; 3; 4; 5;  0; 1; 2; 3; 4; 6;  8; 0;
   0x45; 0; 0; 31;  0; 0; 0; 0;  64; 17; 0; 0;  10; 0; 0; 1;  10; 0; 0; 2;
   200; 0; 1; 187;  0; 11; 0; 0;
   0x40; 7; 7].

Definition short_header_packet : DissectedPacket :=
  default (store_packet 0 0 0)
    (dissect shipped short_header_frame (mkMeta 0 45 45 1) (mkParseOpts DFull true 32 None false false)).

Lemma short_header_dissected :
  dissect shipped short_header_frame (mkMeta 0 45 45 1) (mkParseOpts DFull true 32 None false false)
  = Some short_header_packet.
Proof.
  unfold short_header_packet.
  assert (is_Some (dissect shipped short_header_frame (mkMeta 0 45 45 1) (mkParseOpts DFull true 32 None false false)))
    as [p ->]; [|done].
  apply (bool_decide_unpack _). vm_compute. exact I.
Qed.

(** The layers are read as they were written, and the QUIC layer, which has no
    connection id, is a key error of the aggregator: the short header does
    reach key extraction. *)
Example quic_short_header_key_error :
  protocol <$> layers short_header_packet = ["ethernet"; "ipv4"; "udp"; "quic"]%string /\
  key_errors (totals (run shipped live_config [short_header_packet])) = 1.
Proof. split; by vm_compute. Qed.

Lemma default_run_key_errors_witness :
  0 <= key_errors (totals (run shipped live_config [short_header_packet])) <= 1.
Proof.
  apply (default_run_key_errors shipped live_config [short_header_packet] default_engine_shipped).
  - by vm_compute.
  - split; [by repeat constructor|by vm_compute].
  - repeat constructor. exists short_header_frame, (mkMeta 0 45 45 1), (mkParseOpts DFull true 32 None false false).
    split; [done|exact short_header_dissected].
Defined.
