(* ===== verification/Capture.v ===== *)
(** * Packet sources and the pump

    Models [crates/pktflow-capture]: the errors of a capture, the [PacketSource]
    interface with its file, live and in-memory sources, and [pump], the loop that
    dissects what a source delivers and sends it on.  The capture library is the
    class [Pkttap].

    Another thread sets the stop flag of a live source.  What the source sees of
    it is how many more reads find it clear. *)

From S2P Require Import Prelude Values Bytes Types Engine Parser.
From S2P Require Import Text Fmt.

(** ** error.rs *)

Inductive CaptureError :=
  | DeviceNotFound (device : string)
  | PermissionDenied (device : string)
  | FileFormat (message : string)
  | CE_Io (message : string)
  | Backend (message : string).

(** The errors of the capture library; those that wrap another carry its text. *)
Inductive PkError :=
  | Pk_PermissionDenied
  | Pk_Filter (e : string)
  | Pk_Pcap (e : string)
  | Pk_Io (e : string)
  | Pk_Platform (msg : string)
  | Pk_WouldBlock.

Section Errors.
Context `{Env : ViewEnv}.
Local Open Scope string_scope.

Definition map_pkttap_error (subject : string) (err : PkError) : CaptureError :=
  match err with
  | Pk_PermissionDenied => PermissionDenied subject
  | Pk_Filter e => Backend ("BPF filter error on " +:+ subject +:+ ": " +:+ e)
  | Pk_Pcap e => FileFormat (subject +:+ ": " +:+ e)
  | Pk_Io e => CE_Io e
  | Pk_Platform msg =>
      let lower := to_lowercase msg in
      if str_contains "no such device" lower || str_contains "doesn't exist" lower || str_contains "not found" lower
      then DeviceNotFound subject
      else Backend (subject +:+ ": " +:+ msg)
  | Pk_WouldBlock => Backend (subject +:+ ": would block")
  end.
End Errors.

(** ** source.rs *)

Record RawPacket := mkRaw { raw_bytes : list Z; raw_meta : PacketMeta }.

Record CaptureStats := mkCaptureStats { received : Z; dropped_kernel : Z; dropped_iface : Z }.
Definition CaptureStats_default : CaptureStats := mkCaptureStats 0 0 0.

Class PacketSource (S : Type) := {
  next_packet : S -> result (option RawPacket) CaptureError * S;
  source_link_type : S -> Z;
  source_stats : S -> CaptureStats;
}.

Record PumpReport := mkReport {
  report_packets : Z;
  report_bytes : Z;
  timestamps_regressed : Z;
  report_stats : CaptureStats;
}.
Definition PumpReport_default : PumpReport := mkReport 0 0 0 CaptureStats_default.

Definition with_stats (r : PumpReport) (s : CaptureStats) : PumpReport :=
  mkReport (report_packets r) (report_bytes r) (timestamps_regressed r) s.

(** The loop variables of [pump]. *)
Record Pumping (S : Type) := mkPumping {
  pm_src : S;
  pm_report : PumpReport;
  last_ts : option SystemTime;
}.
Arguments mkPumping {S}.
Arguments pm_src {S}.
Arguments pm_report {S}.
Arguments last_ts {S}.

Definition pump_start {S} (src : S) : Pumping S := mkPumping src PumpReport_default None.

(** What a round counts: the packet, its bytes, and its timestamp when it is
    earlier than the latest so far. *)
Definition count_packet (m : PacketMeta) (last : option SystemTime) (r : PumpReport) : PumpReport :=
  mkReport (report_packets r + 1) (report_bytes r + origlen m)
    (match last with
     | Some t => if timestamp m <? t then timestamps_regressed r + 1 else timestamps_regressed r
     | None => timestamps_regressed r
     end) (report_stats r).

Definition latest_ts (m : PacketMeta) (last : option SystemTime) : SystemTime :=
  match last with Some t => Z.max t (timestamp m) | None => timestamp m end.

Definition under (limit : option Z) (r : PumpReport) : bool :=
  match limit with Some l => report_packets r <? l | None => true end.

(** One round of a pump, up to the send: a message for the channel, the end of
    the loop, or a panic of what makes the message. *)
Inductive Turn (S M : Type) :=
  | Turn_send (m : M) (p : Pumping S)
  | Turn_end (r : result PumpReport CaptureError) (src : S)
  | Turn_panic.
Arguments Turn_send {S M}.
Arguments Turn_end {S M}.
Arguments Turn_panic {S M}.

Section Pump.
Context {S M : Type} `{PacketSource S}.
(** What the loop makes of a packet; [pump] makes [engine.dissect]. *)
Context (make : RawPacket -> option M) (limit : option Z).

Definition pump_turn (p : Pumping S) : Turn S M :=
  if under limit (pm_report p) then
    match next_packet (pm_src p) with
    | (Error e, src) => Turn_end (Error e) src
    | (Ok None, src) => Turn_end (Ok (with_stats (pm_report p) (source_stats src))) src
    | (Ok (Some raw), src) =>
        match make raw with
        | None => Turn_panic
        | Some m =>
            Turn_send m (mkPumping src (count_packet (raw_meta raw) (last_ts p) (pm_report p))
                           (Some (latest_ts (raw_meta raw) (last_ts p))))
        end
    end
  else Turn_end (Ok (with_stats (pm_report p) (source_stats (pm_src p)))) (pm_src p).
End Pump.

Definition make_dissected (e : Engine) (o : ParseOpts) (raw : RawPacket) : option DissectedPacket :=
  dissect e (raw_bytes raw) (raw_meta raw) o.

(** [map_err] on a failed send. *)
Definition send_failed : CaptureError := Backend "aggregation channel closed".

(** The in-memory source. *)
Record MockSource := mkMock { mk_packets : list (SystemTime * list Z); mk_link : Z; mk_cursor : Z }.

Definition MockSource_new (packets : list (SystemTime * list Z)) (link : Z) : MockSource :=
  mkMock packets link 0.

Definition mock_next (s : MockSource) : result (option RawPacket) CaptureError * MockSource :=
  match mk_packets s !! Z.to_nat (mk_cursor s) with
  | None => (Ok None, s)
  | Some (ts, bytes) =>
      (Ok (Some (mkRaw bytes (mkMeta ts (blen bytes) (blen bytes) (mk_link s)))),
       mkMock (mk_packets s) (mk_link s) (mk_cursor s + 1))
  end.

#[export] Instance MockSource_source : PacketSource MockSource := {|
  next_packet := mock_next;
  source_link_type := mk_link;
  source_stats s := mkCaptureStats (mk_cursor s) 0 0;
|}.

(** ** The capture library *)

Inductive PkLinkType := Pk_Ethernet | Pk_RawIp | Pk_LinuxSll.
Record PkPacket := mkPk { pk_data : list Z; pk_timestamp : SystemTime; pk_orig_len : Z }.

(** An open capture, as much of it as the sources use. *)
Class Pkttap (C : Type) := {
  pk_next : C -> result (option PkPacket) PkError * C;
  pk_link_type : C -> PkLinkType;
  (** Packets dropped by the kernel and by the interface. *)
  pk_stats : C -> result (Z * Z) PkError;
}.

(** ** offline.rs *)

Definition to_core_link_type (lt : PkLinkType) : Z :=
  match lt with Pk_Ethernet => 1 | Pk_RawIp => 101 | Pk_LinuxSll => 113 end.

Definition core_meta (p : PkPacket) (link : Z) : PacketMeta :=
  mkMeta (pk_timestamp p) (blen (pk_data p)) (pk_orig_len p) link.

Section Sources.
Context `{Env : ViewEnv} {C : Type} `{Pkttap C}.

Record FileSource := mkFile { fs_capture : C; fs_link_type : Z; fs_delivered : Z }.

(** [open_with_filter] on what the builder's [open] returned for [path]. *)
Definition FileSource_open (path : string) (opened : result C PkError) : result FileSource CaptureError :=
  match opened with
  | Ok c => Ok (mkFile c (to_core_link_type (pk_link_type c)) 0)
  | Error (Pk_Io e) => Error (FileFormat (path +:+ ": " +:+ e))
  | Error e => Error (map_pkttap_error path e)
  end.

Definition file_next (s : FileSource) : result (option RawPacket) CaptureError * FileSource :=
  match pk_next (fs_capture s) with
  | (Ok (Some p), c) =>
      (Ok (Some (mkRaw (pk_data p) (core_meta p (fs_link_type s)))),
       mkFile c (fs_link_type s) (fs_delivered s + 1))
  | (Ok None, c) => (Ok None, mkFile c (fs_link_type s) (fs_delivered s))
  | (Error e, c) => (Error (map_pkttap_error "file capture" e), mkFile c (fs_link_type s) (fs_delivered s))
  end.

#[global] Instance FileSource_source : PacketSource FileSource := {|
  next_packet := file_next;
  source_link_type := fs_link_type;
  source_stats s := mkCaptureStats (fs_delivered s) 0 0;
|}.

(** ** live.rs *)

Record LiveSource := mkLive {
  lv_capture : C;
  lv_link_type : Z;
  lv_clear : nat;
  lv_delivered : Z;
  kernel_stats : CaptureStats;
}.

(** [open] on what the builder's [open] returned; [clear] is the fate of its
    flag. *)
Definition LiveSource_open (device : string) (bpf : option string) (clear : nat) (opened : result C PkError)
    : result LiveSource CaptureError :=
  match opened with
  | Ok c => Ok (mkLive c (to_core_link_type (pk_link_type c)) clear 0 CaptureStats_default)
  | Error e =>
      match bpf, e with
      | Some filter, Pk_Filter _ => Error (map_pkttap_error (device +:+ " (" +:+ filter +:+ ")") e)
      | _, _ => Error (map_pkttap_error device e)
      end
  end.

Definition refresh_stats (s : LiveSource) : LiveSource :=
  mkLive (lv_capture s) (lv_link_type s) (lv_clear s) (lv_delivered s)
    match pk_stats (lv_capture s) with
    | Ok (dropped, if_dropped) => mkCaptureStats (lv_delivered s) dropped if_dropped
    | Error _ => mkCaptureStats (lv_delivered s) (dropped_kernel (kernel_stats s)) (dropped_iface (kernel_stats s))
    end.

(** The read loop, one round per read of the flag that finds it clear. *)
Fixpoint live_next (clear : nat) (s : LiveSource) : result (option RawPacket) CaptureError * LiveSource :=
  let at_ c := mkLive c (lv_link_type s) (pred clear) (lv_delivered s) (kernel_stats s) in
  match clear with
  | O => (Ok None, refresh_stats (mkLive (lv_capture s) (lv_link_type s) 0 (lv_delivered s) (kernel_stats s)))
  | S clear' =>
      match pk_next (lv_capture s) with
      | (Ok (Some p), c) =>
          (Ok (Some (mkRaw (pk_data p) (core_meta p (lv_link_type s)))),
           mkLive c (lv_link_type s) clear' (lv_delivered s + 1) (kernel_stats s))
      | (Ok None, c) | (Error Pk_WouldBlock, c) => live_next clear' (refresh_stats (at_ c))
      | (Error e, c) => (Error (map_pkttap_error "live capture" e), at_ c)
      end
  end.

#[global] Instance LiveSource_source : PacketSource LiveSource := {|
  next_packet s := live_next (lv_clear s) s;
  source_link_type := lv_link_type;
  source_stats s := mkCaptureStats (lv_delivered s) (dropped_kernel (kernel_stats s)) (dropped_iface (kernel_stats s));
|}.

Record InterfaceInfo := mkInterface {
  if_name : string;
  description : option string;
  addrs : list string;
  up : bool;
  loopback : bool;
}.

(** On what the library's [interfaces] returned. *)
Definition list_interfaces (names : result (list string) PkError) : result (list InterfaceInfo) CaptureError :=
  match names with
  | Error e => Error (map_pkttap_error "device list" e)
  | Ok names =>
      Ok ((fun name =>
             let lower := to_lowercase name in
             let loopback := String.eqb lower "lo" || String.eqb lower "lo0" || str_contains "loopback" lower in
             mkInterface name None [] true loopback) <$> names)
  end.
End Sources.
Arguments FileSource : clear implicits.
Arguments LiveSource : clear implicits.
