(* ===== verification/Pipeline.v ===== *)
(** * The run pipeline

    Models [crates/pktflow-cli/src/run.rs]: what the command line's options
    configure, the two threads of a run - a producer that reads and dissects, a
    consumer that aggregates - and the bounded channel between them, and the
    pipeline that publishes snapshots into a hub.

    A thread's step is a round of its loop up to the channel operation, and that
    operation; [thread_step] is [None] when the operation would block or the thread
    has ended.  A schedule is the sequence of threads that step.  [PipelineProps]
    shows that the schedule does not matter. *)

From S2P Require Import Prelude Values Bytes Types Engine Parser.
From S2P Require Import Store Queries Text Fmt Hub DefaultEngine Capture.

(** ** cli.rs: the shared options *)

Inductive DepthArg := Arg_Keys | Arg_Structural | Arg_Full.

Definition to_depth (d : DepthArg) : Depth :=
  match d with Arg_Keys => DKeys | Arg_Structural => DStructural | Arg_Full => DFull end.

(** The options of [SharedArgs] that a run reads; [filter] only reaches the
    capture library. *)
Record SharedArgs := mkShared {
  arg_read : option string;
  arg_iface : option string;
  arg_count : option Z;
  arg_depth : DepthArg;
  arg_idle_timeout : option Z;
  arg_max_streams : option Z;
  arg_series_cap : option Z;
  arg_no_condense : bool;
  arg_condense_threshold : option Z;
  arg_entry : option string;
}.

Definition wants_live_eviction (s : SharedArgs) : bool :=
  bool_decide (is_Some (arg_iface s)) || bool_decide (is_Some (arg_idle_timeout s)) ||
  bool_decide (is_Some (arg_max_streams s)).

(** [Duration::from_secs], in nanoseconds. *)
Definition from_secs (n : Z) : Duration := n * 1000000000.

Definition idle_timeout (s : SharedArgs) : Duration := from_secs (default 300 (arg_idle_timeout s)).
Definition max_streams (s : SharedArgs) : Z := default 1000000 (arg_max_streams s).

Definition series_max_cap (s : SharedArgs) : option Z :=
  match arg_series_cap s with Some 0 => None | other => other end.

Definition shared_condense_threshold (s : SharedArgs) : Z :=
  if arg_no_condense s then 0 else default DEFAULT_CONDENSE_THRESHOLD (arg_condense_threshold s).

Definition SUBCOMMANDS : list string :=
  ["streams"; "stream"; "packets"; "tui"; "serve"; "ifaces"; "unknown"]%string.

(** [is_file] asks the file system. *)
Definition apply_bare_path_shorthand (is_file : string -> bool) (argv : list string) : list string :=
  match argv with
  | program :: first :: rest =>
      if negb (starts_with "-" first) && negb (bool_decide (first ∈ SUBCOMMANDS)) && is_file first
      then program :: "streams"%string :: "-r"%string :: first :: rest
      else argv
  | _ => argv
  end.

(** ** error.rs *)

Inductive CliError :=
  | Usage (message : string)
  | Capture_failed (e : CaptureError)
  | Cli_Io (message : string)
  | Internal (message : string)
  | NotFound (message : string).

Definition exit_code (e : CliError) : Z := match e with Usage _ => 2 | _ => 1 end.

(** ** run.rs: configuration *)

Section Config.
(** [format!("{s:?}")] of a [str], which escapes by the Unicode tables. *)
Context (str_debug : string -> string).

Definition resolve_opts (shared : SharedArgs) (e : Engine) (aggregate diagnose_unknown : bool)
    : result ParseOpts CliError :=
  let opts entry :=
    mkParseOpts (to_depth (arg_depth shared)) aggregate (max_layers ParseOpts_default) entry
      (allow_entry_heuristics ParseOpts_default) diagnose_unknown in
  match arg_entry shared with
  | Some n =>
      match plugin_by_name e n with
      | Some p => Ok (opts (Some (name p)))
      | None => Error (Usage ("--entry " +:+ str_debug n +:+ " is not a registered plugin"))
      end
  | None => Ok (opts None)
  end.
End Config.

Definition aggregator_config (shared : SharedArgs) : AggregatorConfig :=
  let c := AggregatorConfig_default in
  mkConfig
    (if wants_live_eviction shared
     then EvictLive (idle_timeout shared) (from_secs 15) (max_streams shared) else EvictNone)
    (shared_condense_threshold shared) (rollup_series_default_cap c) (series_max_cap shared) (unknown_config c).

(** ** Stop flags

    The flags are kept in a store, since every live source shares its own with
    [extra]; the master flag is [0]. *)

Record StopFlags := mkStop { sf_flags : gmap nat bool; sf_extra : list nat }.

Definition StopFlags_default : StopFlags := mkStop {[0%nat := false]} [].

Definition trigger (s : StopFlags) : StopFlags :=
  mkStop (foldr (fun f m => <[f := true]> m) (<[0%nat := true]> (sf_flags s)) (sf_extra s)) (sf_extra s).

Definition is_stopped (s : StopFlags) : bool := default false (sf_flags s !! 0%nat).

Definition register (f : nat) (s : StopFlags) : StopFlags := mkStop (sf_flags s) (sf_extra s ++ [f]).

(** A live source makes its flag when it opens. *)
Definition new_flag (s : StopFlags) : nat * StopFlags :=
  let f := fresh (dom (sf_flags s)) in (f, mkStop (<[f := false]> (sf_flags s)) (sf_extra s)).

(** A source with the master flag checked before each packet; [sw_clear] more
    reads find it clear. *)
Record StopWrap (S : Type) := mkWrap { sw_inner : S; sw_clear : nat }.
Arguments mkWrap {S}.
Arguments sw_inner {S}.
Arguments sw_clear {S}.

Definition wrap_next {S} `{PacketSource S} (s : StopWrap S)
    : result (option RawPacket) CaptureError * StopWrap S :=
  match sw_clear s with
  | O => (Ok None, s)
  | Datatypes.S clear =>
      let '(r, inner) := next_packet (sw_inner s) in (r, mkWrap inner clear)
  end.

#[export] Instance StopWrap_source {S} `{PacketSource S} : PacketSource (StopWrap S) := {|
  next_packet := wrap_next;
  source_link_type s := source_link_type (sw_inner s);
  source_stats s := source_stats (sw_inner s);
|}.

(** ** The two threads *)

Definition CHANNEL_CAPACITY : Z := 1024.

Inductive thread := Producer | Consumer.

(** In its loop, at the send with a message, or ended. *)
Inductive ProducerState (S M : Type) :=
  | P_turning (p : Pumping S)
  | P_sending (m : M) (p : Pumping S)
  | P_returned (r : result PumpReport CaptureError)
  | P_panicked.
Arguments P_turning {S M}.
Arguments P_sending {S M}.
Arguments P_returned {S M}.
Arguments P_panicked {S M}.

(** [th_rx]: the consumer is still in its loop over the receiver. *)
Record Threads (S M C : Type) := mkThreads {
  th_producer : ProducerState S M;
  th_channel : list M;
  th_rx : bool;
  th_consumer : C;
}.
Arguments mkThreads {S M C}.
Arguments th_producer {S M C}.
Arguments th_channel {S M C}.
Arguments th_rx {S M C}.
Arguments th_consumer {S M C}.

Section Threads.
Context {S M C : Type} `{PacketSource S}.
(** What the producer makes of a packet, its cap, what it returns when the
    receiver is gone, and the body of the consumer's loop. *)
Context (make : RawPacket -> option M) (limit : option Z).
Context (gone : Pumping S -> result PumpReport CaptureError) (consume : C -> M -> C).

Definition after_turn (turn : Turn S M) : ProducerState S M :=
  match turn with
  | Turn_send m p => P_sending m p
  | Turn_end r _ => P_returned r
  | Turn_panic => P_panicked
  end.

Definition sender_alive (p : ProducerState S M) : bool :=
  match p with P_turning _ | P_sending _ _ => true | P_returned _ | P_panicked => false end.

Definition producer_step (t : Threads S M C) : option (Threads S M C) :=
  match th_producer t with
  | P_turning p =>
      Some (mkThreads (after_turn (pump_turn make limit p)) (th_channel t) (th_rx t) (th_consumer t))
  | P_sending m p =>
      if negb (th_rx t) then
        Some (mkThreads (P_returned (gone p)) (th_channel t) (th_rx t) (th_consumer t))
      else if blen (th_channel t) <? CHANNEL_CAPACITY then
        Some (mkThreads (P_turning p) (th_channel t ++ [m]) (th_rx t) (th_consumer t))
      else None
  | P_returned _ | P_panicked => None
  end.

Definition consumer_step (t : Threads S M C) : option (Threads S M C) :=
  if th_rx t then
    match th_channel t with
    | m :: rest => Some (mkThreads (th_producer t) rest true (consume (th_consumer t) m))
    | [] => if sender_alive (th_producer t) then None
            else Some (mkThreads (th_producer t) [] false (th_consumer t))
    end
  else None.

Definition thread_step (th : thread) (t : Threads S M C) : option (Threads S M C) :=
  match th with Producer => producer_step t | Consumer => consumer_step t end.

Fixpoint run_schedule (sched : list thread) (t : Threads S M C) : option (Threads S M C) :=
  match sched with
  | [] => Some t
  | th :: sched' => t' ← thread_step th t; run_schedule sched' t'
  end.

Definition spawn_threads (src : S) (c : C) : Threads S M C := mkThreads (P_turning (pump_start src)) [] true c.

(** [producer.join()] once the consumer's loop has ended; [None] while either
    thread runs. *)
Definition joined (t : Threads S M C) : option (result PumpReport CliError * C) :=
  if th_rx t then None
  else match th_producer t with
       | P_returned (Ok report) => Some (Ok report, th_consumer t)
       | P_returned (Error e) => Some (Error (Capture_failed e), th_consumer t)
       | P_panicked => Some (Error (Internal "pump thread panicked"), th_consumer t)
       | P_turning _ | P_sending _ _ => None
       end.
End Threads.

(** ** The runs *)

Record RunOutcome := mkOutcome {
  out_snapshot : option AggregatorSnapshot;
  out_report : PumpReport;
  out_elapsed : Duration;
  out_mode : HubMode;
  out_source_name : string;
}.

(** The consumer's variables, with the state [O] of the closures it calls. *)
Record Consuming (O : Type) := mkConsuming { co_index : Z; co_agg : option Aggregator; co_obs : O }.
Arguments mkConsuming {O}.
Arguments co_index {O}.
Arguments co_agg {O}.
Arguments co_obs {O}.

(** [open_source] returns the source with its mode and name. *)
Abbreviation opening S := (result (S * HubMode * string) CliError).

Section Run.
Context `{Hasher} (str_debug : string -> string) {S O : Type} `{PacketSource S}.
Context (sched : list thread) (shared : SharedArgs) (elapsed : Duration).

(** [agg.map(|mut agg| { agg.finish(); agg.snapshot() })]. *)
Definition final_snapshot (agg : option Aggregator) : option AggregatorSnapshot :=
  (fun a => snapshot (finish a)) <$> agg.

(** A sum of times in [ingest] or [finish] has panicked, and the thread with it. *)
Definition panicked (agg : option Aggregator) : bool := from_option ag_overflowed false agg.

(** From the spawn of the producer to the outcome; [None] when the schedule does
    not take the threads to their end, or when the consumer's thread has panicked:
    its loop unwinds out of the function, and nothing is returned.  What the
    closures did by then is not kept. *)
Definition pipe {M} (make : RawPacket -> option M) (gone : Pumping S -> result PumpReport CaptureError)
    (consume : Consuming O -> M -> Consuming O) (src : S) (mode : HubMode) (source_name : string)
    (c : Consuming O) : option (result RunOutcome CliError * O) :=
  t ← run_schedule make (arg_count shared) gone consume sched (spawn_threads src c);
  '(joined, c) ← joined t;
  if panicked (co_agg c) then None
  else match joined with
  | Error e => Some (Error e, co_obs c)
  | Ok report =>
      if panicked (finish <$> co_agg c) then None
      else Some (Ok (mkOutcome (final_snapshot (co_agg c)) report elapsed mode source_name), co_obs c)
  end.

Definition new_aggregator (aggregate : bool) (e : Engine) : option Aggregator :=
  if aggregate then Some (Aggregator_new e (aggregator_config shared)) else None.

Definition observe_packet (on_packet : Z -> DissectedPacket -> O -> O) (on_ingested : Aggregator -> O -> O)
    (c : Consuming O) (packet : DissectedPacket) : Consuming O :=
  let o := on_packet (co_index c) packet (co_obs c) in
  match co_agg c with
  | Some agg => let agg := ingest packet agg in mkConsuming (co_index c + 1) (Some agg) (on_ingested agg o)
  | None => mkConsuming (co_index c + 1) None o
  end.

(** [None] as in [pipe]; it also stands for the panic of [default_engine], which
    never happens. *)
Definition run_observed (aggregate diagnose_unknown : bool) (on_packet : Z -> DissectedPacket -> O -> O)
    (on_ingested : Aggregator -> O -> O) (opened : opening S) (o : O) : option (result RunOutcome CliError * O) :=
  e ← default_engine;
  match resolve_opts str_debug shared e aggregate diagnose_unknown, opened with
  | Error err, _ | Ok _, Error err => Some (Error err, o)
  | Ok opts, Ok (src, mode, source_name) =>
      pipe (make_dissected e opts) (fun _ => Error send_failed) (observe_packet on_packet on_ingested)
        src mode source_name (mkConsuming 0 (new_aggregator aggregate e) o)
  end.

Definition run_plain (aggregate : bool) (on_packet : Z -> DissectedPacket -> O -> O) :=
  run_observed aggregate false on_packet (fun _ o => o).

Definition run_unknown := run_observed true true (fun _ _ o => o) (fun _ o => o).
End Run.

(** ** Packets mode *)

Definition TAIL_SAMPLE_CAP : Z := 64.

Record PacketEvent := mkEvent { pe_packet : DissectedPacket; pe_heuristic : list bool; pe_tail_sample : list Z }.

(** [for step in layers.by_ref()]: the flags pushed, and the iterator after. *)
Definition flag_body (st : list bool * LayerIter) : ctl (list bool * LayerIter) :=
  match next st.2 with
  | (Some step, it) => Again (st.1 ++ [via_heuristic step], it)
  | (None, it) => Done (st.1, it)
  end.

Definition step_flags (it : LayerIter) : list bool * LayerIter :=
  run_loop flag_body (S (max_layers (opts it))) ([], it).

Definition packet_event (e : Engine) (o : ParseOpts) (raw : RawPacket) : option PacketEvent :=
  layers ← layers_of e (raw_bytes raw) (raw_meta raw) o;
  let '(flags, layers) := step_flags layers in
  let packet := into_packet layers (raw_meta raw) in
  let tail_start := blen (raw_bytes raw) - opaque_len packet in
  let sample_len := Z.min (opaque_len packet) TAIL_SAMPLE_CAP in
  tail_sample ← slice (raw_bytes raw) tail_start (tail_start + sample_len);
  Some (mkEvent packet flags tail_sample).

(** ** The hub pipeline *)

Definition Instant := Z.
Definition from_millis (n : Z) : Duration := n * 1000000.
Definition PUBLISH_INTERVAL : Duration := from_millis 250.
Definition ADAPTIVE_PUBLISH_FACTOR : Z := 8.
Definition HUB_SERIES_CLAMP : Z := 128.

Definition hub_for (shared : SharedArgs) : SnapshotHub :=
  match arg_read shared, arg_iface shared with
  | Some path, _ => SnapshotHub_new path Mode_Offline
  | None, Some iface => SnapshotHub_new iface Mode_Live
  | None, None => SnapshotHub_new "" Mode_Offline
  end.

(** What the publishing closure captures, and how often it has read the clock. *)
Record Publisher := mkPublisher { pb_hub : SnapshotHub; next_due : option Instant; pb_reads : nat }.

(** [clock n] is what the [n]-th read of the clock returns. *)
Definition publish_due (clock : nat -> Instant) (progress_total : Z) (agg : Aggregator) (p : Publisher) : Publisher :=
  let now := clock (pb_reads p) in
  if match next_due p with Some due => due <=? now | None => true end then
    let hub :=
      if 0 <? progress_total
      then set_progress (24 + tot_bytes (totals agg) + 16 * packets (totals agg)) progress_total (pb_hub p)
      else pb_hub p in
    let cost := sat_sub (clock (S (pb_reads p))) now in
    mkPublisher (publish (snapshot agg) hub)
      (Some (now + Z.max PUBLISH_INTERVAL (cost * ADAPTIVE_PUBLISH_FACTOR))) (S (S (pb_reads p)))
  else mkPublisher (pb_hub p) (next_due p) (S (pb_reads p)).

Definition hub_shared (shared : SharedArgs) : SharedArgs :=
  mkShared (arg_read shared) (arg_iface shared) (arg_count shared) (arg_depth shared) (arg_idle_timeout shared)
    (arg_max_streams shared)
    (match arg_series_cap shared with None => Some HUB_SERIES_CLAMP | cap => cap end)
    (arg_no_condense shared) (arg_condense_threshold shared) (arg_entry shared).

Local Open Scope string_scope.

Definition PERMISSION_REMEDIATION : string :=
  "on Linux: grant the binary capture rights (sudo setcap cap_net_raw,cap_net_admin=eip <path>) or run under sudo; " +:+
  "on Windows: install Npcap (https://npcap.com) and run as Administrator or enable WinPcap-compatible mode for " +:+
  "non-admin capture".

(** The [Display] texts. *)
Definition capture_error_str (str_debug : string -> string) (e : CaptureError) : string :=
  match e with
  | DeviceNotFound d => "capture device not found: " +:+ d
  | PermissionDenied device =>
      "permission denied opening " +:+ str_debug device +:+ " — " +:+ PERMISSION_REMEDIATION
  | FileFormat m => "cannot read capture file: " +:+ m
  | CE_Io m => "capture I/O error: " +:+ m
  | Backend m => "capture backend error: " +:+ m
  end.

Definition cli_error_str (str_debug : string -> string) (e : CliError) : string :=
  match e with
  | Usage m => m
  | Capture_failed ce => capture_error_str str_debug ce
  | Cli_Io m => m
  | Internal m => "internal error: " +:+ m
  | NotFound m => m
  end.

Section Hub_pipeline.
Context `{Hasher} (str_debug : string -> string) {S : Type} `{PacketSource S}.

(** [file_len] is the length in a file's metadata. *)
Definition spawn_hub_pipeline (sched : list thread) (clock : nat -> Instant) (file_len : string -> option Z)
    (elapsed : Duration) (args : SharedArgs) (opened : opening S) (hub : SnapshotHub)
    : option (result unit CliError * SnapshotHub) :=
  let shared := hub_shared args in
  let progress_total := default 0%Z (path ← arg_read shared; file_len path) in
  '(r, p) ← run_observed str_debug sched shared elapsed true true (fun _ _ p => p)
              (publish_due clock progress_total) opened (mkPublisher hub None 0);
  let hub := pb_hub p in
  Some match r with
  | Ok outcome =>
      let hub := match out_snapshot outcome with Some snap => publish snap hub | None => hub end in
      let hub := if (0 <? progress_total)%Z then set_progress progress_total progress_total hub else hub in
      (Ok tt, mark_finished hub)
  | Error err => (Error err, set_error (cli_error_str str_debug err) hub)
  end.
End Hub_pipeline.

Section More_runs.
Context `{Hasher} (str_debug : string -> string) {S O : Type} `{PacketSource S}.
Context (sched : list thread) (shared : SharedArgs) (elapsed : Duration).

Definition observe_event (on_packet : Z -> PacketEvent -> O -> O) (c : Consuming O) (event : PacketEvent)
    : Consuming O :=
  mkConsuming (co_index c + 1) (ingest (pe_packet event) <$> co_agg c) (on_packet (co_index c) event (co_obs c)).

Definition run_packets (aggregate : bool) (on_packet : Z -> PacketEvent -> O -> O) (opened : opening S) (o : O)
    : option (result RunOutcome CliError * O) :=
  e ← default_engine;
  match resolve_opts str_debug shared e aggregate false, opened with
  | Error err, _ | Ok _, Error err => Some (Error err, o)
  | Ok opts, Ok (src, mode, source_name) =>
      pipe sched shared elapsed (packet_event e opts)
        (fun p => Ok (with_stats (pm_report p) (source_stats (pm_src p))))
        (observe_event on_packet) src mode source_name (mkConsuming 0 (new_aggregator shared aggregate e) o)
  end.

(** ** Live runs: the eviction sink *)

(** The records the aggregator handed to its sink between [a] and [a']. *)
Definition newly_emitted (a a' : Aggregator) : list EvictedStream := drop (length (emitted a)) (emitted a').

Definition observe_live (on_packet : Z -> DissectedPacket -> O -> O) (on_ingested : Aggregator -> O -> O)
    (on_evicted : EvictedStream -> O -> O) (c : Consuming O) (packet : DissectedPacket) : Consuming O :=
  let o := on_packet (co_index c) packet (co_obs c) in
  match co_agg c with
  | Some agg =>
      let agg' := ingest packet agg in
      let o := foldl (fun o ev => on_evicted ev o) o (newly_emitted agg agg') in
      mkConsuming (co_index c + 1) (Some agg') (on_ingested agg' o)
  | None => c
  end.

(** [finish] runs the sink too. *)
Definition run_live (on_packet : Z -> DissectedPacket -> O -> O) (on_ingested : Aggregator -> O -> O)
    (on_evicted : EvictedStream -> O -> O) (opened : opening S) (o : O) : option (result RunOutcome CliError * O) :=
  e ← default_engine;
  match resolve_opts str_debug shared e true false, opened with
  | Error err, _ | Ok _, Error err => Some (Error err, o)
  | Ok opts, Ok (src, mode, source_name) =>
      t ← run_schedule (make_dissected e opts) (arg_count shared) (fun _ => Error send_failed)
            (observe_live on_packet on_ingested on_evicted) sched
            (spawn_threads src (mkConsuming 0 (new_aggregator shared true e) o));
      '(joined, c) ← joined t;
      agg ← co_agg c;
      if ag_overflowed agg then None
      else match joined with
      | Error err => Some (Error err, co_obs c)
      | Ok report =>
          let done := finish agg in
          if ag_overflowed done then None
          else Some (Ok (mkOutcome (Some (snapshot done)) report elapsed mode source_name),
                     foldl (fun o ev => on_evicted ev o) (co_obs c) (newly_emitted agg done))
      end
  end.
End More_runs.

(** ** Opening a source *)

(** The boxed [dyn PacketSource] of [open_source]. *)
Inductive AnySource (C : Type) :=
  | From_File (s : StopWrap (FileSource C))
  | From_Live (s : LiveSource C).
Arguments From_File {C}.
Arguments From_Live {C}.

Section Open.
Context `{Env : ViewEnv} {C : Type} `{Pkttap C}.

#[global] Instance AnySource_source : PacketSource (AnySource C) := {|
  next_packet s :=
    match s with
    | From_File f => let '(r, f) := next_packet f in (r, From_File f)
    | From_Live l => let '(r, l) := next_packet l in (r, From_Live l)
    end;
  source_link_type s := match s with From_File f => source_link_type f | From_Live l => source_link_type l end;
  source_stats s := match s with From_File f => source_stats f | From_Live l => source_stats l end;
|}.

(** [clear] is how many reads find the flag of the source clear: the master flag
    for a file, its own for a device.  The latter is registered. *)
Definition open_source (shared : SharedArgs) (filter : option string) (clear : nat)
    (open_file open_live : string -> result C PkError) (stop : StopFlags) : opening (AnySource C) * StopFlags :=
  match arg_read shared, arg_iface shared with
  | Some path, _ =>
      (match FileSource_open path (open_file path) with
       | Ok src => Ok (From_File (mkWrap src clear), Mode_Offline, path)
       | Error e => Error (Capture_failed e)
       end, stop)
  | None, Some iface =>
      match LiveSource_open iface filter clear (open_live iface) with
      | Ok src =>
          let '(flag, stop) := new_flag stop in (Ok (From_Live src, Mode_Live, iface), register flag stop)
      | Error e => (Error (Capture_failed e), stop)
      end
  | None, None => (Error (Usage "one of -r FILE or -i IFACE is required"), stop)
  end.
End Open.
