(* ===== verification/PipelineProps.v ===== *)
(** * What a run computes

    The two threads of a run always reach their end, in a number of steps that
    only depends on the packets, without more than the channel's capacity in
    flight, and whatever the schedule, with the result of reading, dissecting and
    consuming the packets one after the other ([threads_exact]).  The runs of
    [run.rs] are then functions of the source: a run panics only where a
    timeout cannot be added to a packet's time ([overflows]), the report counts
    what was read, and the snapshot is that of the aggregator the model's other
    theorems are about. *)

From S2P Require Import Prelude Values Bytes Types Contract Samples Engine Router Parser.
From S2P Require Import FlowKeys Rollups Unknowns Arena Store StoreInv StoreOps StoreCounts StoreKeys StoreHeaps.
From S2P Require Import Queries StoreIngest StoreProps StoreAccounts StoreFinish Text Fmt Snapshots TreeProps.
From S2P Require Import Hub WebApiProps DefaultEngine Capture Pipeline.

(** ** One after the other *)

Section Sequential.
Context {S M : Type} `{PacketSource S} (make : RawPacket -> option M) (limit : option Z).

(** The messages a producer sends to a receiver that stays, and what it returns;
    [None] is its panic. *)
Inductive pumps : Pumping S -> list M -> option (result PumpReport CaptureError) -> Prop :=
  | pumps_end p r src : pump_turn make limit p = Turn_end r src -> pumps p [] (Some r)
  | pumps_panic p : pump_turn make limit p = Turn_panic -> pumps p [] None
  | pumps_send p m p' ms r :
      pump_turn make limit p = Turn_send m p' -> pumps p' ms r -> pumps p (m :: ms) r.

Context {C : Type} (gone : Pumping S -> result PumpReport CaptureError) (consume : C -> M -> C).

Abbreviation step := (thread_step make limit gone consume).
Abbreviation steps := (run_schedule make limit gone consume).

Definition ended_with (p : ProducerState S M) (r : option (result PumpReport CaptureError)) : Prop :=
  match p with P_returned x => r = Some x | P_panicked => r = None | _ => False end.

(** What the producer still sends. *)
Inductive sends_on : ProducerState S M -> list M -> option (result PumpReport CaptureError) -> Prop :=
  | on_turning p ms r : pumps p ms r -> sends_on (P_turning p) ms r
  | on_sending m p ms r : pumps p ms r -> sends_on (P_sending m p) (m :: ms) r
  | on_ended p r : ended_with p r -> sends_on p [] r.

(** Steps left to the producer: two a message, and one to end. *)
Definition producer_left (p : ProducerState S M) (rest : nat) : nat :=
  match p with P_turning _ => 2 * rest + 1 | P_sending _ _ => 2 * rest | _ => 0 end.

(** The threads after [n] steps of a run over [ms] with consumer [c]: the
    messages are split between what is consumed, in flight and to come, and each
    step left is accounted for. *)
Record running (c : C) (ms : list M) (r : option (result PumpReport CaptureError)) (n : nat)
    (t : Threads S M C) : Prop := {
  rn_split : exists done rest, ms = done ++ th_channel t ++ rest /\ sends_on (th_producer t) rest r /\
    th_consumer t = foldl consume c done /\
    (n + producer_left (th_producer t) (length rest) + length (th_channel t) + length rest + Nat.b2n (th_rx t) =
     3 * length ms + 2)%nat;
  rn_bound : blen (th_channel t) <= CHANNEL_CAPACITY;
  rn_closed : th_rx t = false -> th_channel t = [] /\ sender_alive (th_producer t) = false;
}.

Lemma running_start src c ms r : pumps (pump_start src) ms r -> running c ms r 0 (spawn_threads src c).
Proof.
  intros Hp. split; [|done|discriminate]. exists [], ms. split_and!; [done|by constructor|done|].
  cbn [spawn_threads th_producer th_channel th_rx producer_left length Nat.b2n]. lia.
Qed.

(** The step count of a case, with its lists spelled out. *)
Ltac count_steps :=
  repeat progress (rewrite ?length_app in *; cbn [app producer_left length Nat.b2n] in *); lia.

Lemma running_producer c ms r n t t' : running c ms r n t -> producer_step make limit gone t = Some t' ->
  running c ms r (Datatypes.S n) t'.
Proof.
  intros [(done & rest & -> & Hs & Hc & Hn) Hb Hcl] Ht. unfold producer_step in Ht.
  inversion Hs as [p ms r' Hp Ep|m p ms r' Hp Ep|p r' Hend]; subst; simplify_eq.
  - rewrite <- Ep in Ht, Hn. injection Ht as <-. split; simpl; [|done|].
    + exists done, rest. inversion Hp as [? ? ? Et|? Et|? ? ? ? ? Et Hp']; subst; rewrite Et; simpl;
        (split_and!; [done| |done|count_steps]); [by apply on_ended..|by apply on_sending].
    + intros Hrx. destruct (Hcl Hrx) as [_ Hd]. by rewrite <- Ep in Hd.
  - rewrite <- Ep in Ht, Hn. destruct (th_rx t) eqn:Erx; simpl in Ht.
    + destruct (blen (th_channel t) <? CHANNEL_CAPACITY) eqn:Eb; [|discriminate Ht]. injection Ht as <-.
      apply Z.ltb_lt in Eb. split; simpl; [| |discriminate].
      * exists done, ms. rewrite <- !app_assoc. split_and!; [done|by constructor|done|].
        count_steps.
      * rewrite blen_app, blen_cons, blen_nil. lia.
    + destruct (Hcl eq_refl) as [_ Hd]. by rewrite <- Ep in Hd.
  - destruct (th_producer t); done.
Qed.

Lemma running_consumer c ms r n t t' : running c ms r n t -> consumer_step consume t = Some t' ->
  running c ms r (Datatypes.S n) t'.
Proof.
  intros [(done & rest & -> & Hs & Hc & Hn) Hb Hcl] Ht. unfold consumer_step in Ht.
  destruct (th_rx t) eqn:Erx; [|discriminate Ht]. destruct (th_channel t) as [|m ch] eqn:Ech.
  - destruct (sender_alive (th_producer t)) eqn:Ea; [discriminate Ht|]. injection Ht as <-.
    split; simpl; [|done|done]. exists done, rest. split_and!; [done..|]. count_steps.
  - injection Ht as <-. split; simpl; [| |discriminate].
    + exists (done ++ [m]), rest. rewrite <- app_assoc, foldl_app, Hc. split_and!; [done..|].
      count_steps.
    + rewrite blen_cons in Hb. lia.
Qed.

Lemma running_step c ms r n th t t' : running c ms r n t -> step th t = Some t' -> running c ms r (Datatypes.S n) t'.
Proof. destruct th; [apply running_producer|apply running_consumer]. Qed.

Lemma running_steps c ms r sched n t t' : running c ms r n t -> steps sched t = Some t' ->
  running c ms r (n + length sched) t'.
Proof.
  revert n t. induction sched as [|th sched IH]; intros n t Ht Hr.
  { injection Hr as <-. by rewrite Nat.add_0_r. }
  cbn [run_schedule mbind option_bind] in Hr. destruct (step th t) as [t1|] eqn:E; [|discriminate Hr].
  cbn [length]. rewrite <- Nat.add_succ_comm. eapply IH; [|done]. by eapply running_step.
Qed.

(** Someone can move until the consumer has left its loop. *)
Lemma running_progress c ms r n t : running c ms r n t -> th_rx t = true -> exists th, is_Some (step th t).
Proof.
  intros [_ Hb _] Hrx. destruct (th_channel t) as [|m ch] eqn:Ech.
  - destruct (th_producer t) as [p|m p|x|] eqn:Ep.
    1, 2: exists Producer; simpl; unfold producer_step; rewrite Ep, ?Hrx, ?Ech; by eexists.
    all: exists Consumer; simpl; unfold consumer_step; rewrite Hrx, Ech, Ep; by eexists.
  - exists Consumer. simpl. unfold consumer_step. rewrite Hrx, Ech. by eexists.
Qed.

(** When it has, everything is consumed and the join returns. *)
Lemma running_joined c ms r n t : running c ms r n t -> th_rx t = false ->
  joined t = Some (match r with
                   | Some (Ok report) => Ok report
                   | Some (Error e) => Error (Capture_failed e)
                   | None => Error (Internal "pump thread panicked")
                   end, foldl consume c ms) /\ n = (3 * length ms + 2)%nat.
Proof.
  intros [(done & rest & -> & Hs & Hc & Hn) _ Hcl] Hrx. destruct (Hcl Hrx) as [Hch Hd].
  assert (rest = [] /\ ended_with (th_producer t) r) as [-> He].
  { destruct Hs; [discriminate Hd..|done]. }
  rewrite Hch, Hrx in *. rewrite !app_nil_r in *. rewrite <- Hc. unfold joined. rewrite Hrx. split.
  - destruct (th_producer t) as [| |[]|]; simpl in He; subst; done.
  - destruct (th_producer t); try discriminate Hd; simpl in Hn; lia.
Qed.
End Sequential.

Section Threads_exact.
Context {S M C : Type} `{PacketSource S} (make : RawPacket -> option M) (limit : option Z).
Context (gone : Pumping S -> result PumpReport CaptureError) (consume : C -> M -> C).

Abbreviation steps := (run_schedule make limit gone consume).

Lemma steps_app l k t : steps (l ++ k) t = t' ← steps l t; steps k t'.
Proof.
  revert t. induction l as [|th l IH]; intros t; [done|]. cbn [app run_schedule mbind option_bind].
  destruct (thread_step make limit gone consume th t); [apply IH|done].
Qed.

(** A run that has started can be taken to its end. *)
Lemma running_finishes c ms r n t : running make limit consume c ms r n t ->
  exists more t', steps more t = Some t' /\ th_rx t' = false.
Proof.
  remember (3 * length ms + 2 - n)%nat as left eqn:El. revert n t El.
  induction left as [|left IH]; intros n t El Hr.
  all: destruct (th_rx t) eqn:Erx; [|by exists [], t].
  all: destruct (running_progress make limit gone consume _ _ _ _ _ Hr Erx) as (th & t1 & Ht).
  all: pose proof (running_step _ _ _ _ _ _ _ _ _ _ _ Hr Ht) as Hr1.
  - destruct (rn_split _ _ _ _ _ _ _ _ Hr1) as (d & rest & -> & _ & _ & Hn). exfalso. lia.
  - destruct (IH (Datatypes.S n) t1 ltac:(lia) Hr1) as (more & t' & Hm & Hx).
    exists (th :: more), t'. split; [|done]. cbn [run_schedule]. by rewrite Ht.
Qed.

(** C8: The two threads of a run compute what one would: if reading, dissecting
    and sending packet after packet ends with the messages [ms] and the result
    [r], then however the scheduler interleaves producer and consumer over the
    bounded channel, no more than its capacity is ever in flight, a run never
    gets stuck - it can always be taken to its end, after exactly [3 |ms| + 2]
    steps - and at the end the consumer has consumed the messages of [ms], all of
    them and in their order, and the join returns [r]. *)
Theorem threads_exact src c ms r sched t :
  pumps make limit (pump_start src) ms r -> steps sched (spawn_threads src c) = Some t ->
  blen (th_channel t) <= CHANNEL_CAPACITY /\
  (exists more t', steps (sched ++ more) (spawn_threads src c) = Some t' /\ th_rx t' = false) /\
  (th_rx t = false ->
     length sched = (3 * length ms + 2)%nat /\
     joined t = Some (match r with
                      | Some (Ok report) => Ok report
                      | Some (Error e) => Error (Capture_failed e)
                      | None => Error (Internal "pump thread panicked")
                      end, foldl consume c ms)).
Proof.
  intros Hp Hs. pose proof (running_start make limit consume src c ms r Hp) as H0.
  pose proof (running_steps _ _ _ _ _ _ _ _ _ _ _ H0 Hs) as Ht. split_and!.
  - by eapply rn_bound.
  - destruct (running_finishes _ _ _ _ _ Ht) as (more & t' & Hm & Hx). exists more, t'. split; [|done].
    rewrite steps_app, Hs. done.
  - intros Hx. destruct (running_joined _ _ _ _ _ _ _ _ Ht Hx) as [Hj Hn]. done.
Qed.
End Threads_exact.

(** ** What a source delivers *)

Section Reads.
Context {S : Type} `{PacketSource S} (limit : option Z).

(** The packets read under the limit, and how reading ends: a pump that passes
    packets on as they are. *)
Definition reads : Pumping S -> list RawPacket -> option (result PumpReport CaptureError) -> Prop := pumps Some limit.

Lemma reads_pumps {M} (make : RawPacket -> option M) p raws r ms :
  reads p raws r -> Forall2 (fun raw m => make raw = Some m) raws ms -> pumps make limit p ms r.
Proof.
  intros Hr. revert ms. induction Hr as [p r src Ht|p Ht|p raw p' raws r Ht Hr IH]; intros ms Hms.
  - inversion Hms; subst. eapply pumps_end. unfold pump_turn in *. repeat case_match; by simplify_eq.
  - unfold pump_turn in Ht. by repeat case_match.
  - inversion Hms as [|? m ? ms' Hm Hms']; subst. eapply pumps_send; [|by apply IH].
    unfold pump_turn in *. repeat case_match; simplify_eq. done.
Qed.

Lemma reads_returns p raws r : reads p raws r -> is_Some r.
Proof.
  intros Hr. induction Hr as [p r src Ht|p Ht|p raw p' raws r Ht Hr IH]; [done| |done].
  unfold pump_turn in Ht. by repeat case_match.
Qed.

Definition wire_bytes (raws : list RawPacket) : Z := foldr (fun raw n => origlen (raw_meta raw) + n) 0 raws.

(** Each timestamp earlier than one before it, or than [last]. *)
Fixpoint regressions (last : option SystemTime) (raws : list RawPacket) : Z :=
  match raws with
  | [] => 0
  | raw :: raws' =>
      (if match last with Some t => timestamp (raw_meta raw) <? t | None => false end then 1 else 0) +
      regressions (Some (latest_ts (raw_meta raw) last)) raws'
  end.

(** The report counts exactly what was read. *)
Lemma reads_report p raws r report : reads p raws r -> r = Some (Ok report) ->
  report_packets report = report_packets (pm_report p) + blen raws /\
  report_bytes report = report_bytes (pm_report p) + wire_bytes raws /\
  timestamps_regressed report = timestamps_regressed (pm_report p) + regressions (last_ts p) raws.
Proof.
  intros Hr. induction Hr as [p r src Ht|p Ht|p raw p' raws r Ht Hr IH]; intros E; simplify_eq.
  - unfold pump_turn in Ht. rewrite blen_nil. repeat case_match; simplify_eq; simpl; split_and!; lia.
  - unfold pump_turn in Ht. repeat case_match; simplify_eq. destruct (IH eq_refl) as (R1 & R2 & R3).
    simpl in *. rewrite blen_cons, R1, R2, R3. split_and!; [lia|lia|].
    destruct (last_ts p) as [t|]; [|lia]. destruct (timestamp (raw_meta raw) <? t); lia.
Qed.

Lemma reads_limit l p raws r : limit = Some l -> reads p raws r -> report_packets (pm_report p) <= l ->
  report_packets (pm_report p) + blen raws <= l.
Proof.
  intros Hl Hr. induction Hr as [p r src Ht|p Ht|p raw p' raws r Ht Hr IH]; intros Hle.
  1, 2: rewrite blen_nil; lia.
  rewrite blen_cons. unfold pump_turn in Ht. rewrite Hl in Ht. simpl in Ht.
  destruct (report_packets (pm_report p) <? l) eqn:Eu; [|discriminate Ht]. apply Z.ltb_lt in Eu.
  repeat case_match; simplify_eq. simpl in IH. lia.
Qed.
End Reads.

(** A source whose reading always ends: what the pipeline waits for. *)
Class Ending (S : Type) `{PacketSource S} : Prop :=
  ending : forall limit (p : Pumping S), exists raws r, reads limit p raws r.

(** One read decides; [k] bounds the packets left. *)
Lemma reads_from {S} `{PacketSource S} limit (p : Pumping S) :
  (forall raw p', pump_turn Some limit p = Turn_send raw p' -> exists raws r, reads limit p' raws r) ->
  exists raws r, reads limit p raws r.
Proof.
  intros Hnext. destruct (pump_turn Some limit p) as [raw p'|r src|] eqn:E.
  - destruct (Hnext raw p' eq_refl) as (raws & r & Hr). exists (raw :: raws), r. by eapply pumps_send.
  - exists [], (Some r). by eapply pumps_end.
  - exists [], None. by apply pumps_panic.
Qed.

Lemma turn_send_reads {S} `{PacketSource S} limit (p : Pumping S) raw p' :
  pump_turn Some limit p = Turn_send raw p' -> next_packet (pm_src p) = (Ok (Some raw), pm_src p').
Proof. unfold pump_turn. intros Ht. repeat case_match; simplify_eq. done. Qed.

(** A measure of what is left of a source proves that it ends. *)
Lemma ending_measure {S} `{PacketSource S} (left : S -> nat) :
  (forall s raw s', next_packet s = (Ok (Some raw), s') -> (left s' < left s)%nat) -> Ending S.
Proof.
  intros Hdec limit p. remember (left (pm_src p)) as n eqn:En. revert p En.
  induction n as [n IH] using lt_wf_ind. intros p ->. apply reads_from. intros raw p' Ht.
  eapply IH; [|done]. eapply Hdec. by eapply turn_send_reads.
Qed.

#[export] Instance StopWrap_ending {S} `{PacketSource S} : Ending (StopWrap S).
Proof.
  apply (ending_measure sw_clear). intros [inner [|clear]] raw s'; simpl; unfold wrap_next; simpl; [done|].
  destruct (next_packet inner) as [r inner']. intros [= -> <-]. simpl. lia.
Qed.

Lemma live_next_clear `{ViewEnv} {C} `{Pkttap C} clear (s : LiveSource C) raw s' :
  live_next clear s = (Ok (Some raw), s') -> (lv_clear s' < clear)%nat.
Proof.
  revert s. induction clear as [|clear IH]; intros s; simpl; [done|].
  destruct (pk_next (lv_capture s)) as [[[p|]|[]] c]; intros Hn; try discriminate Hn.
  1: injection Hn as _ <-; simpl; lia.
  all: specialize (IH _ Hn); lia.
Qed.

#[export] Instance LiveSource_ending `{ViewEnv} {C} `{Pkttap C} : Ending (LiveSource C).
Proof. apply (ending_measure (lv_clear)). intros s raw s'. apply live_next_clear. Qed.

#[export] Instance AnySource_ending `{ViewEnv} {C} `{Pkttap C} : Ending (AnySource C).
Proof.
  apply (ending_measure (fun s => match s with From_File f => sw_clear f | From_Live l => lv_clear l end)).
  intros [[inner [|clear]]|l] raw s'; simpl; unfold wrap_next; simpl; [done| |].
  - destruct (file_next inner) as [r inner']. intros [= -> <-]. simpl. lia.
  - destruct (live_next (lv_clear l) l) as [r l'] eqn:El. intros [= -> <-]. by eapply live_next_clear.
Qed.

#[export] Instance MockSource_ending : Ending MockSource.
Proof.
  apply (ending_measure (fun s => Z.to_nat (blen (mk_packets s) - mk_cursor s))).
  intros [ps link cur] raw s'. simpl. unfold mock_next. simpl.
  destruct (ps !! Z.to_nat cur) as [[ts b]|] eqn:E; [|done]. intros [= _ <-]. simpl.
  apply lookup_lt_Some in E. unfold blen. lia.
Qed.

(** ** What the runs compute *)

(** [e] is the engine every run builds. *)
Record ships (e : Engine) : Prop := mkShips { ships_engine : default_engine = Some e }.

Section Runs.
Context `{Hasher} (str_debug : string -> string) (e : Engine) (He : ships e).
Context {S : Type} `{PacketSource S}.

(** The packets a run makes of what it read. *)
Definition dissected_as (opts : ParseOpts) (raws : list RawPacket) (pkts : list DissectedPacket) : Prop :=
  Forall2 (fun raw pkt => make_dissected e opts raw = Some pkt) raws pkts.

(** A forced entry is checked before the engine sees it. *)
Lemma resolved_entry shared aggregate diagnose opts n :
  resolve_opts str_debug shared e aggregate diagnose = Ok opts -> entry opts = Some n ->
  is_Some (plugin_by_name e n).
Proof.
  unfold resolve_opts. destruct (arg_entry shared) as [m|]; [|by intros [= <-]].
  destruct (plugin_by_name e m) as [p|] eqn:Ep; [|done]. intros [= <-]. simpl. intros [= <-].
  apply plugin_by_name_elem in Ep. assert (build default_builder = Ok e) as Hb by apply default_engine_build, He.
  rewrite (built_by_name default_builder e p Hb Ep). eexists; reflexivity.
Qed.

Lemma resolved_dissects shared aggregate diagnose opts raws :
  resolve_opts str_debug shared e aggregate diagnose = Ok opts -> exists pkts, dissected_as opts raws pkts.
Proof.
  intros Ho. induction raws as [|raw raws (pkts & Hp)]; [exists []; constructor|].
  assert (is_Some (make_dissected e opts raw)) as [pkt Hpkt].
  { unfold make_dissected, dissect, layers_of. destruct (entry opts) as [n|] eqn:En; [|eexists; reflexivity].
    destruct (resolved_entry _ _ _ _ _ Ho En) as [p ->]. eexists; reflexivity. }
  exists (pkt :: pkts). by constructor.
Qed.

(** ** The consumer *)

Section Observed.
Context {O : Type} (shared : SharedArgs) (on_packet : Z -> DissectedPacket -> O -> O) (on_ingested : Aggregator -> O -> O).

Definition consumer_start (aggregate : bool) (o : O) : Consuming O := mkConsuming 0 (new_aggregator shared aggregate e) o.

(** The consumer's variables after [pkts]. *)
Definition consumed (aggregate : bool) (o : O) (pkts : list DissectedPacket) : Consuming O :=
  foldl (observe_packet on_packet on_ingested) (consumer_start aggregate o) pkts.

Lemma observe_agg c p : co_agg (observe_packet on_packet on_ingested c p) = ingest p <$> co_agg c.
Proof. unfold observe_packet. by destruct (co_agg c). Qed.

Lemma consumed_app aggregate o pkts p :
  consumed aggregate o (pkts ++ [p]) = observe_packet on_packet on_ingested (consumed aggregate o pkts) p.
Proof. unfold consumed. by rewrite foldl_app. Qed.

Lemma consumed_agg aggregate o pkts :
  co_agg (consumed aggregate o pkts) = if aggregate then Some (run e (aggregator_config shared) pkts) else None.
Proof.
  induction pkts as [|p pkts IH] using rev_ind; [by destruct aggregate|].
  rewrite consumed_app, observe_agg, IH. destruct aggregate; [|done]. simpl. by rewrite run_snoc.
Qed.

Lemma consumed_snoc o pkts p :
  co_obs (consumed true o (pkts ++ [p])) =
  on_ingested (run e (aggregator_config shared) (pkts ++ [p]))
    (on_packet (co_index (consumed true o pkts)) p (co_obs (consumed true o pkts))).
Proof.
  rewrite consumed_app. unfold observe_packet at 1. rewrite (consumed_agg true o pkts), run_snoc. done.
Qed.

(** A time sum of the run panics: while the packets come in or, when the source
    ends well, at the end of the capture. *)
Definition overflows (aggregate : bool) (r : result PumpReport CaptureError) (pkts : list DissectedPacket) : bool :=
  let agg := if aggregate then Some (run e (aggregator_config shared) pkts) else None in
  panicked agg || match r with Ok _ => panicked (finish <$> agg) | Error _ => false end.

(** The timeouts can be added to the times the source delivers. *)
Definition times_fit (raws : list RawPacket) : Prop :=
  Forall (fun raw => sums_fit (aggregator_config shared) (timestamp (raw_meta raw))) raws.

Lemma times_fit_running aggregate opts r raws pkts :
  times_fit raws -> dissected_as opts raws pkts -> overflows aggregate r pkts = false.
Proof.
  intros Hfit Hp. assert (packets_fit (aggregator_config shared) pkts) as Hpk.
  { unfold times_fit in Hfit. revert Hfit. induction Hp as [|raw pkt raws pkts Hd _ IH]; intros Hfit; [constructor|].
    apply Forall_cons in Hfit as [Hraw Hfit]. constructor; [|by apply IH].
    apply dissect_inv in Hd as (it & _ & _ & -> & _). exact Hraw. }
  destruct (run_running e (aggregator_config shared) pkts Hpk) as [Hr Hf]. unfold overflows.
  destruct aggregate; simpl; [rewrite Hr|]; destruct r; simpl; done.
Qed.

Lemma run_observed_result aggregate diagnose opts src mode source_name o raws r elapsed :
  resolve_opts str_debug shared e aggregate diagnose = Ok opts ->
  reads (arg_count shared) (pump_start src) raws (Some r) ->
  let runs sched := run_observed str_debug sched shared elapsed aggregate diagnose on_packet on_ingested
                      (Ok (src, mode, source_name)) o in
  exists pkts, dissected_as opts raws pkts /\
    ((exists sched, is_Some (runs sched)) <-> overflows aggregate r pkts = false) /\
    forall sched res, runs sched = Some res ->
      res = (match r with
             | Error err => Error (Capture_failed err)
             | Ok report =>
                 Ok (mkOutcome
                       (if aggregate then Some (snapshot (finish (run e (aggregator_config shared) pkts))) else None)
                       report elapsed mode source_name)
             end, co_obs (consumed aggregate o pkts)).
Proof.
  intros Ho Hr runs. destruct (resolved_dissects _ _ _ _ raws Ho) as [pkts Hp]. exists pkts. split; [done|].
  pose proof (reads_pumps _ _ _ _ _ _ Hr Hp) as Hpump. set (c := consumer_start aggregate o).
  set (gone := fun _ : Pumping S => Error send_failed : result PumpReport CaptureError).
  pose proof (running_start (make_dissected e opts) (arg_count shared) (observe_packet on_packet on_ingested)
    src c pkts _ Hpump) as Hstart.
  assert (forall sched t, run_schedule (make_dissected e opts) (arg_count shared) gone
            (observe_packet on_packet on_ingested) sched (spawn_threads src c) = Some t -> th_rx t = false ->
          runs sched = if overflows aggregate r pkts then None else
            Some (match r with
                  | Error err => Error (Capture_failed err)
                  | Ok report =>
                      Ok (mkOutcome
                            (if aggregate then Some (snapshot (finish (run e (aggregator_config shared) pkts))) else None)
                            report elapsed mode source_name)
                  end, co_obs (consumed aggregate o pkts))) as Hend.
  { intros sched t Hs Hx. pose proof (running_steps _ _ _ _ _ _ _ _ _ _ _ Hstart Hs) as Ht.
    destruct (running_joined _ _ _ _ _ _ _ _ Ht Hx) as [Hj _].
    change (foldl (observe_packet on_packet on_ingested) c pkts) with (consumed aggregate o pkts) in Hj.
    unfold runs, run_observed. rewrite (ships_engine e He). cbn [mbind option_bind]. rewrite Ho.
    unfold pipe. fold gone. fold (consumer_start aggregate o). fold c. rewrite Hs. cbn [mbind option_bind].
    rewrite Hj. cbn [mbind option_bind]. rewrite consumed_agg. unfold overflows.
    destruct aggregate, r; cbn [panicked from_option orb fmap option_fmap option_map]; repeat case_match; simplify_eq; done. }
  assert (forall sched res, runs sched = Some res -> exists t, run_schedule (make_dissected e opts) (arg_count shared)
            gone (observe_packet on_packet on_ingested) sched (spawn_threads src c) = Some t /\ th_rx t = false) as Hinv.
  { intros sched res Hres. unfold runs, run_observed in Hres. rewrite (ships_engine e He) in Hres.
    cbn [mbind option_bind] in Hres. rewrite Ho in Hres. unfold pipe in Hres. fold gone in Hres.
    fold (consumer_start aggregate o) in Hres. fold c in Hres. apply bind_Some in Hres as (t & Hs & Hres).
    exists t. split; [done|]. destruct (th_rx t) eqn:Hx; [|done]. unfold joined in Hres. by rewrite Hx in Hres. }
  split; [split|].
  - intros [sched [res Hres]]. destruct (Hinv _ _ Hres) as (t & Hs & Hx).
    rewrite (Hend sched t Hs Hx) in Hres. by destruct (overflows _ _ _).
  - intros Hno. destruct (running_finishes _ _ gone _ _ _ _ _ _ Hstart) as (sched & t & Hs & Hx). exists sched.
    rewrite (Hend sched t Hs Hx), Hno. by eexists.
  - intros sched res Hres. destruct (Hinv _ _ Hres) as (t & Hs & Hx). rewrite (Hend sched t Hs Hx) in Hres.
    destruct (overflows _ _ _); [discriminate Hres|]. by injection Hres as <-.
Qed.

(** C9: What a run computes, whatever the schedule: it dissects every packet the
    source delivers under the cap - no packet, and no forced entry, makes that
    panic - and ends with the source's error or with the report of what was
    read and the snapshot of the finished aggregator; the closures saw the
    packets once each, in order.  Some schedule gets there exactly when no sum of
    a packet's time and a timeout overflows [SystemTime] and panics, which none
    does as long as the timeouts of the command line can be added to the times of
    the packets delivered. *)
Theorem run_observed_exact aggregate diagnose opts src mode source_name o raws r elapsed :
  resolve_opts str_debug shared e aggregate diagnose = Ok opts ->
  reads (arg_count shared) (pump_start src) raws (Some r) ->
  let runs sched := run_observed str_debug sched shared elapsed aggregate diagnose on_packet on_ingested
                      (Ok (src, mode, source_name)) o in
  exists pkts, dissected_as opts raws pkts /\
    ((exists sched, is_Some (runs sched)) <-> overflows aggregate r pkts = false) /\
    (times_fit raws -> exists sched, is_Some (runs sched)) /\
    forall sched res, runs sched = Some res ->
      res = (match r with
             | Error err => Error (Capture_failed err)
             | Ok report =>
                 Ok (mkOutcome
                       (if aggregate then Some (snapshot (finish (run e (aggregator_config shared) pkts))) else None)
                       report elapsed mode source_name)
             end, co_obs (consumed aggregate o pkts)).
Proof.
  intros Ho Hr runs.
  destruct (run_observed_result aggregate diagnose opts src mode source_name o raws r elapsed Ho Hr)
    as (pkts & Hp & Hends & Hall).
  exists pkts. split_and!; [done|done| |done]. intros Hfit. apply Hends. by eapply times_fit_running.
Qed.
End Observed.

(** ** The snapshot of a finished run *)

Lemma unlink_keeps id par a : totals (unlink id par a) = totals a /\ stop_classes (unlink id par a) = stop_classes a.
Proof. unfold unlink, call_deadline_of. cbv beta iota zeta. repeat case_match; done. Qed.

Lemma unindex_keeps ik id a : totals (unindex ik id a) = totals a /\ stop_classes (unindex ik id a) = stop_classes a.
Proof. unfold unindex. repeat case_match; done. Qed.

Lemma condense_evict_keeps s a :
  totals (condense_evict s a) = totals a /\ stop_classes (condense_evict s a) = stop_classes a.
Proof. unfold condense_evict. cbv zeta. repeat case_match; done. Qed.

Lemma evict_keeps id reason a :
  totals (evict id reason a) = totals a /\ stop_classes (evict id reason a) = stop_classes a.
Proof.
  unfold evict. destruct (Arena.remove (arena a) id) as [[s ar]|]; [|done]. cbv zeta.
  cbn [totals stop_classes set_emitted].
  by rewrite (proj1 (unlink_keeps _ _ _)), (proj2 (unlink_keeps _ _ _)), (proj1 (unindex_keeps _ _ _)),
    (proj2 (unindex_keeps _ _ _)), (proj1 (condense_evict_keeps _ _)), (proj2 (condense_evict_keeps _ _)).
Qed.

Lemma finish_keeps a : totals (finish a) = totals a /\ stop_classes (finish a) = stop_classes a.
Proof.
  unfold finish. generalize (finish_order a). intros es. revert a.
  induction es as [|x es IH]; intros a; [done|]. simpl. destruct (IH (finish_one a x)) as [-> ->].
  unfold finish_one. case_match; [apply evict_keeps|]. by case_match.
Qed.

(** The widths a run counts on: lengths are unsigned, and fewer packets than
    make 2^32 layers. *)
Record raws_ok (raws : list RawPacket) : Prop := {
  ro_origlen : Forall (fun raw => 0 <= origlen (raw_meta raw)) raws;
  ro_count : blen raws <= 2 ^ 27;
}.

Definition args_ok (shared : SharedArgs) : Prop :=
  match arg_max_streams shared with Some n => 0 <= n | None => True end.

Lemma args_config_ok shared : args_ok shared -> config_ok (aggregator_config shared).
Proof.
  unfold args_ok, config_ok, aggregator_config, max_streams. simpl.
  destruct (wants_live_eviction shared); [|done]. destruct (arg_max_streams shared); simpl; lia.
Qed.

Lemma resolved_layers shared aggregate diagnose opts :
  resolve_opts str_debug shared e aggregate diagnose = Ok opts -> max_layers opts = 32%nat.
Proof. unfold resolve_opts. repeat case_match; by intros [= <-]. Qed.

Lemma dissected_as_trace opts raws pkts :
  max_layers opts = 32%nat -> raws_ok raws -> dissected_as opts raws pkts -> trace_ok pkts /\ blen pkts = blen raws.
Proof.
  intros Hm [Ho Hc] Hp.
  assert (Forall (fun p => 0 <= origlen (meta p)) pkts /\ layer_count pkts <= 32 * blen raws /\ blen pkts = blen raws)
    as (H1 & H2 & H3).
  { clear Hc. induction Hp as [|raw pkt raws pkts Hd Hp IH]; [done|]. apply Forall_cons in Ho as [Ho Hos].
    destruct (IH Hos) as (I1 & I2 & I3). apply dissect_inv in Hd as (it & _ & Hok & -> & _ & _ & _ & Eo).
    rewrite !blen_cons. split_and!; [by constructor| |lia]. cbn [layer_count foldr packet_of layers].
    fold (layer_count pkts). pose proof (io_cap _ Hok) as Hcap. rewrite Eo, Hm in Hcap. unfold blen at 1. lia. }
  split; [|done]. split; [done|]. lia.
Qed.

Definition bytes_of (pkts : list DissectedPacket) : Z := foldr (fun p n => origlen (meta p) + n) 0 pkts.

Lemma bytes_of_snoc pkts p : bytes_of (pkts ++ [p]) = bytes_of pkts + origlen (meta p).
Proof. induction pkts as [|q pkts IH]; simpl; [lia|]. unfold bytes_of in *. lia. Qed.

Lemma ships_wf : engine_wf e.
Proof. eapply build_engine_wf, default_engine_build, He. Qed.

(** The aggregator counts every packet and its bytes. *)
Lemma run_totals c pkts : config_ok c -> trace_ok pkts ->
  packets (totals (run e c pkts)) = blen pkts /\ tot_bytes (totals (run e c pkts)) = bytes_of pkts.
Proof.
  pose proof ships_wf as Hwf. intros Hc. induction pkts as [|p pkts IH] using rev_ind; intros [Ho Hl]; [done|].
  apply Forall_app in Ho as [Ho Hop]. rewrite Forall_singleton in Hop.
  rewrite layer_count_app in Hl. simpl in Hl. pose proof (blen_nonneg (layers p)).
  assert (trace_ok pkts) as Ht by (split; [done|lia]).
  destruct (run_ok False e c pkts Hwf Hc Ht) as (now & [R1 R2 [R3 R4] _ R5]); [done|].
  destruct (IH Ht) as [I1 I2]. rewrite run_snoc, blen_app, blen_cons, blen_nil, bytes_of_snoc.
  assert (ingested False p (run e c pkts) (ingest p (run e c pkts))) as [_ _ _ _ (T1 & T2 & _) _ _ _].
  { apply ingest_ok; try done; [by rewrite R3|lia]. }
  lia.
Qed.

Lemma dissected_as_bytes opts raws pkts : dissected_as opts raws pkts -> bytes_of pkts = wire_bytes raws.
Proof.
  induction 1 as [|raw pkt raws pkts Hd _ IH]; [done|]. cbn [bytes_of wire_bytes foldr].
  fold (bytes_of pkts). fold (wire_bytes raws). rewrite IH. f_equal. f_equal.
  by apply dissect_inv in Hd as (it & _ & _ & -> & _).
Qed.

Lemma finished_forest c pkts : config_ok c -> trace_ok pkts -> snapshot_forest (snapshot (finish (run e c pkts))).
Proof. intros Hc Ht. apply readable_snapshot_forest. apply finish_readable; [apply ships_wf|done|done]. Qed.

Lemma prefix_forest c pkts : config_ok c -> trace_ok pkts -> snapshot_forest (snapshot (run e c pkts)).
Proof.
  intros Hc Ht. destruct (reached_run False e c pkts ships_wf Hc Ht) as (Hs & _); [done|].
  by apply store_snapshot_forest.
Qed.

(** C6: End to end: whatever bytes the source delivers, a run of the shipped
    engine that ends without a capture error ends with a snapshot that is a forest
    of streams - what the views are proved against - and its summary, the run's
    report and the source agree on the number of packets and on their bytes; the
    cap on the packets is kept. *)
Theorem run_snapshot_sound {O} shared diagnose on_packet on_ingested opts src mode source_name (o : O) raws report
    elapsed sched res :
  args_ok shared -> raws_ok raws ->
  resolve_opts str_debug shared e true diagnose = Ok opts ->
  reads (arg_count shared) (pump_start src) raws (Some (Ok report)) ->
  run_observed str_debug sched shared elapsed true diagnose on_packet on_ingested (Ok (src, mode, source_name)) o
    = Some res ->
  exists outcome snap, res.1 = Ok outcome /\ out_snapshot outcome = Some snap /\ out_report outcome = report /\
    snapshot_forest snap /\
    sm_packets (sn_summary snap) = report_packets report /\ sm_bytes (sn_summary snap) = report_bytes report /\
    report_packets report = blen raws /\ report_bytes report = wire_bytes raws /\
    (forall l, arg_count shared = Some l -> 0 <= l -> report_packets report <= l).
Proof.
  intros Ha Hraws Ho Hr Hres.
  destruct (run_observed_result shared on_packet on_ingested true diagnose opts src mode source_name o raws
    (Ok report) elapsed Ho Hr) as (pkts & Hp & _ & Hall).
  rewrite (Hall _ _ Hres). eexists _, _. split; [reflexivity|]. split; [reflexivity|]. split; [reflexivity|].
  destruct (dissected_as_trace opts raws pkts (resolved_layers _ _ _ _ Ho) Hraws Hp) as [Ht Hlen].
  pose proof (args_config_ok _ Ha) as Hc. split; [by apply finished_forest|].
  destruct (finish_keeps (run e (aggregator_config shared) pkts)) as [Hk _].
  destruct (run_totals _ _ Hc Ht) as [T1 T2].
  destruct (reads_report _ _ _ _ _ Hr eq_refl) as (R1 & R2 & _). simpl in R1, R2.
  simpl. rewrite Hk, T1, T2, (dissected_as_bytes _ _ _ Hp), Hlen, R1, R2. split_and!; [lia..|].
  intros l Hl H0l. pose proof (reads_limit _ _ _ _ _ Hl Hr H0l) as Hle. simpl in Hle. lia.
Qed.

(** ** The hub pipeline *)

(** The generation counts the publishes, wrapping. *)
Definition counted (h : SnapshotHub) : Prop :=
  h_generation h = (blen (h_history h) - 1) mod 2 ^ 64 /\ last (h_history h) = Some (h_snapshot h).

Lemma counted_publish snap h : counted h -> counted (publish snap h).
Proof.
  intros [Hg _]. split; [|apply last_snoc].
  cbn [publish bump_generation store_snapshot h_generation h_history]. rewrite Hg.
  rewrite Zplus_mod_idemp_l, blen_app, blen_cons, blen_nil. f_equal. lia.
Qed.

(** The publisher after a run has read [pkts]: its hub started empty, each publish
    since was of what was read by then, and the first packet was published at once. *)
Record feeding (c : AggregatorConfig) (pkts : list DissectedPacket) (p : Publisher) : Prop := {
  fd_published : exists news, h_history (pb_hub p) = empty_snapshot :: news /\
    Forall (fun snap => exists pre, pre `prefix_of` pkts /\ snap = snapshot (run e c pre)) news /\
    head news = (fun q => snapshot (run e c [q])) <$> head pkts;
  fd_due : next_due p = None <-> pkts = [];
  fd_counted : counted (pb_hub p);
  fd_running : h_finished (pb_hub p) = false /\ h_error (pb_hub p) = None;
}.

Lemma feeding_start c name md : feeding c [] (mkPublisher (SnapshotHub_new name md) None 0).
Proof. split; try done. by exists []. Qed.

Lemma feeding_step c pkts q clock total p :
  feeding c pkts p -> feeding c (pkts ++ [q]) (publish_due clock total (run e c (pkts ++ [q])) p).
Proof.
  intros [(news & H1 & H2 & H3) Hdue Hcount [Hf He']].
  assert (Forall (fun snap => exists pre, pre `prefix_of` pkts ++ [q] /\ snap = snapshot (run e c pre)) news) as Hmore.
  { eapply Forall_impl; [exact H2|]. intros s (pre & Hpre & ->). exists pre. split; [by apply prefix_app_r|done]. }
  unfold publish_due. set (now := clock (pb_reads p)).
  destruct (match next_due p with Some due => due <=? now | None => true end) eqn:Edue.
  - split.
    + exists (news ++ [snapshot (run e c (pkts ++ [q]))]). split_and!.
      * simpl. destruct (0 <? total); simpl; by rewrite H1.
      * apply Forall_app. split; [done|]. apply Forall_singleton. by exists (pkts ++ [q]).
      * destruct pkts as [|x pkts]; [by destruct news|]. by destruct news.
    + simpl. split; [done|]. by destruct pkts.
    + apply counted_publish. by destruct (0 <? total).
    + simpl. by destruct (0 <? total).
  - assert (pkts <> []) as Hne.
    { intros Hn. apply Hdue in Hn. by rewrite Hn in Edue. }
    split; simpl.
    + exists news. split_and!; [done|done|]. by destruct pkts.
    + rewrite Hdue. by destruct pkts.
    + done.
    + done.
Qed.

Lemma consumed_feeding shared clock total c0 pkts :
  feeding (aggregator_config shared) [] c0 ->
  feeding (aggregator_config shared) pkts
    (co_obs (consumed shared (fun _ _ p => p) (publish_due clock total) true c0 pkts)).
Proof.
  intros H0'. induction pkts as [|q pkts IH] using rev_ind; [done|].
  rewrite consumed_snoc. by apply feeding_step.
Qed.

(** What readers see of a run that is over. *)
Definition hub_forests (h : SnapshotHub) : Prop := Forall snapshot_forest (h_history h).

Lemma feeding_forests c pkts p : config_ok c -> trace_ok pkts -> feeding c pkts p -> hub_forests (pb_hub p).
Proof.
  intros Hc [Ho Hl] [(news & Eh & Hn & _) _ _ _]. unfold hub_forests. rewrite Eh. constructor; [apply empty_forest|].
  eapply Forall_impl; [exact Hn|]. intros s (pre & [rest ->] & ->). apply prefix_forest; [done|].
  apply Forall_app in Ho as [Ho _]. split; [done|]. rewrite layer_count_app in Hl.
  assert (0 <= layer_count rest) as Hpos; [|lia].
  clear. induction rest as [|q l IH]; simpl; [done|]. pose proof (blen_nonneg (layers q)). lia.
Qed.

(** C17: The interactive pipeline, whatever its schedule and its clock.  When the
    timeouts can be added to the times of the packets, so that no sum panics, some
    schedule takes it to its end; and whenever it ends: the hub it feeds is
    finished; every snapshot it ever held - the empty one it started
    with, the throttled ones, of which the first comes with the first packet, and
    the last - is a forest, and each throttled one is of the packets read by then;
    a run without a capture error ends with the snapshot of the finished aggregator
    published, a failed one with its error for the readers to show; and the
    generation is the number of publishes. *)
Theorem hub_pipeline_exact args opts src mode source_name name md raws r clock file_len elapsed :
  args_ok args -> raws_ok raws ->
  resolve_opts str_debug (hub_shared args) e true true = Ok opts ->
  reads (arg_count args) (pump_start src) raws (Some r) ->
  let pipeline sched := spawn_hub_pipeline str_debug sched clock file_len elapsed args (Ok (src, mode, source_name))
                          (SnapshotHub_new name md) in
  exists pkts, dissected_as opts raws pkts /\
    (times_fit (hub_shared args) raws -> exists sched, is_Some (pipeline sched)) /\
    forall sched res hub, pipeline sched = Some (res, hub) -> exists news,
    let run := run e (aggregator_config (hub_shared args)) in
    h_finished hub = true /\ hub_forests hub /\ counted hub /\
    Forall (fun snap => exists read, read `prefix_of` pkts /\ snap = snapshot (run read)) news /\
    head news = (fun q => snapshot (run [q])) <$> head pkts /\
    match r with
    | Ok _ => res = Ok tt /\ h_error hub = None /\
        h_history hub = empty_snapshot :: news ++ [snapshot (finish (run pkts))]
    | Error err => res = Error (Capture_failed err) /\ h_error hub = Some (capture_error_str str_debug err) /\
        h_history hub = empty_snapshot :: news
    end.
Proof.
  intros Ha Hraws Ho Hr.
  set (shared := hub_shared args) in *. set (total := default 0 (path ← arg_read shared; file_len path)) in *.
  destruct (run_observed_result shared (fun _ _ p => p) (publish_due clock total) true true opts src mode source_name
    (mkPublisher (SnapshotHub_new name md) None 0) raws r elapsed Ho Hr) as (pkts & Hp & Hends & Hall).
  exists pkts. split; [done|]. split.
  { intros Hfit. destruct (proj2 Hends (times_fit_running shared true opts r raws pkts Hfit Hp)) as [sched [ran Hran]].
    exists sched. unfold spawn_hub_pipeline. cbv zeta. fold shared total. rewrite Hran. cbn [mbind option_bind].
    by destruct ran. }
  intros sched res hub Hres. unfold spawn_hub_pipeline in Hres. cbv zeta in Hres. fold shared total in Hres.
  destruct (run_observed _ _ _ _ _ _ _ _ _ _) as [ran|] eqn:Eran; [|discriminate Hres].
  apply Hall in Eran. subst ran. cbn [mbind option_bind] in Hres.
  destruct (dissected_as_trace opts raws pkts (resolved_layers _ _ _ _ Ho) Hraws Hp) as [Ht _].
  assert (config_ok (aggregator_config shared)) as Hc by (apply args_config_ok; exact Ha).
  pose proof (consumed_feeding shared clock total _ pkts (feeding_start (aggregator_config shared) name md)) as Hf.
  set (p := co_obs (consumed shared _ _ true _ pkts)) in *.
  pose proof (feeding_forests _ _ _ Hc Ht Hf) as Hforests.
  destruct Hf as [(news & H1 & H2 & H3) _ Hcount [Hfin Herr]].
  exists news. cbv zeta. destruct r as [report|err]; cbn [out_snapshot] in Hres.
  - injection Hres as <- <-.
    pose proof (counted_publish (snapshot (finish (run e (aggregator_config shared) pkts))) _ Hcount) as Hcount'.
    assert (hub_forests (publish (snapshot (finish (run e (aggregator_config shared) pkts))) (pb_hub p))) as Hall'.
    { apply Forall_app. split; [done|]. apply Forall_singleton. by apply finished_forest. }
    destruct (0 <? total); cbn [mark_finished h_finished h_error h_history set_progress publish bump_generation store_snapshot] in *;
      (split_and!; [done|exact Hall'|exact Hcount'|done|done|done|exact Herr|by rewrite H1]).
  - injection Hres as <- <-. cbn [set_error mark_finished h_finished h_error h_history cli_error_str].
    split_and!; [done|exact Hforests|exact Hcount|done|done|done|done|done].
Qed.
End Runs.

(** ** Packets mode *)

Lemma drain_idem it : drain (drain it) = drain it.
Proof.
  destruct (drain_ended it) as [s Hs]. rewrite (drain_next (drain it)). unfold next. by rewrite Hs.
Qed.

Lemma flag_loop n fl it : (iter_measure it < n)%nat ->
  exists more, loop flag_body n (fl, it) = Some (fl ++ more, drain it) /\
    length (records (drain it)) = (length (records it) + length more)%nat.
Proof.
  revert fl it. induction n as [|n IH]; intros fl it Hn; [lia|].
  cbn [loop]. unfold flag_body at 1. cbn [fst snd]. rewrite (drain_next it).
  pose proof (next_records it) as Hrec. pose proof (drain_body_decreases it) as Hdec. unfold drain_body in Hdec.
  destruct (next it) as [[st|] it'] eqn:E; simpl in Hrec.
  - destruct (IH (fl ++ [via_heuristic st]) it') as (more & -> & Hlen); [specialize (Hdec it' eq_refl); lia|].
    exists (via_heuristic st :: more). rewrite <- app_assoc. split; [done|].
    rewrite Hlen, Hrec, length_app. simpl. lia.
  - exists []. rewrite app_nil_r, Hrec, app_nil_r. split; [done|simpl; lia].
Qed.

Lemma step_flags_drain it : records it = [] ->
  exists flags, step_flags it = (flags, drain it) /\ length flags = length (records (drain it)).
Proof.
  intros Hr. destruct (flag_loop (S (max_layers (opts it))) [] it) as (flags & Hl & Hlen).
  { unfold iter_measure. lia. }
  exists flags. unfold step_flags, run_loop. rewrite Hl. split; [done|]. rewrite Hlen, Hr. done.
Qed.

Lemma layers_of_fresh e b m o it : layers_of e b m o = Some it -> records it = [] /\ bytes it = b.
Proof. unfold layers_of. intros Hl. repeat case_match; simplify_eq; done. Qed.

(** The packets mode drives the iterator itself and still shows the packet that
    [dissect] makes, one heuristic flag per layer, and as its sample the first
    bytes behind the last header, as many as there are up to the cap; taking the
    sample never goes out of bounds. *)
Theorem packet_event_exact e o raw :
  typed_engine e ->
  match dissect e (raw_bytes raw) (raw_meta raw) o with
  | None => packet_event e o raw = None
  | Some pkt =>
      exists ev, packet_event e o raw = Some ev /\ pe_packet ev = pkt /\
        length (pe_heuristic ev) = length (layers pkt) /\
        exists rest, raw_bytes raw = rest ++ drop (length rest) (raw_bytes raw) /\
          blen (raw_bytes raw) = blen rest + opaque_len pkt /\
          pe_tail_sample ev = take (Z.to_nat TAIL_SAMPLE_CAP) (drop (length rest) (raw_bytes raw))
  end.
Proof.
  intros Ht. unfold packet_event. destruct (dissect e (raw_bytes raw) (raw_meta raw) o) as [pkt|] eqn:Ed.
  2:{ unfold dissect in Ed. by destruct (layers_of _ _ _ _). }
  apply dissect_inv in Ed as (it & Hl & Hok & Hpkt & Ee & Eb & _). rewrite Hl. cbn [mbind option_bind].
  destruct (layers_of_fresh _ _ _ _ _ Hl) as [Hr Hb]. destruct (step_flags_drain it Hr) as (flags & -> & Hlen).
  unfold into_packet. rewrite drain_idem, <- Hpkt.
  pose proof (walk_bounds _ _ _ _ _ _ (eq_ind_r (fun e => typed_engine e) Ht Ee) (io_walk _ Hok)) as Hcur.
  rewrite Eb in Hcur. set (b := raw_bytes raw) in *.
  assert (opaque_len pkt = blen b - cursor (drain it)) as Hop.
  { rewrite Hpkt. cbn [packet_of opaque_len]. rewrite Eb. unfold sat_sub. lia. }
  set (c := cursor (drain it)) in *. rewrite Hop.
  replace (blen b - (blen b - c)) with c by lia. unfold slice.
  assert ((0 <=? c) && (c <=? c + Z.min (blen b - c) TAIL_SAMPLE_CAP) &&
          (c + Z.min (blen b - c) TAIL_SAMPLE_CAP <=? blen b) = true) as ->.
  { unfold TAIL_SAMPLE_CAP. rewrite !andb_true_iff, !Z.leb_le. lia. }
  cbn [mbind option_bind]. eexists. split; [reflexivity|]. cbn [pe_packet pe_heuristic pe_tail_sample].
  split; [done|]. split; [by rewrite Hlen, Hpkt|].
  exists (take (Z.to_nat c) b).
  assert (length (take (Z.to_nat c) b) = Z.to_nat c) as Htake by (rewrite length_take; unfold blen in Hcur; lia).
  rewrite Htake, take_drop. split_and!; [done|unfold blen at 2; rewrite Htake; lia|].
  replace (c + Z.min (blen b - c) TAIL_SAMPLE_CAP - c) with (Z.min (blen b - c) TAIL_SAMPLE_CAP) by lia.
  rewrite Z2Nat.inj_min, <- take_take. apply take_ge. rewrite length_take, length_drop. unfold blen. lia.
Qed.

(** ** Stopping *)

Lemma trigger_flags f s : f = 0%nat \/ f ∈ sf_extra s -> sf_flags (trigger s) !! f = Some true.
Proof.
  unfold trigger. simpl. induction (sf_extra s) as [|g l IH]; simpl; intros Hf.
  - destruct Hf as [->|Hf]; [by rewrite lookup_insert_eq|by apply elem_of_nil in Hf].
  - destruct (decide (g = f)) as [->|Hne]; [by rewrite lookup_insert_eq|].
    rewrite lookup_insert_ne by done. apply IH. destruct Hf as [|Hf]; [by left|right].
    apply elem_of_cons in Hf as [->|]; done.
Qed.

(** A trigger reaches every live source registered before it; one that opens and
    registers later keeps its flag clear although the run is stopped, so its pump
    goes on. *)
Example late_registration_runs_on :
  let s0 := StopFlags_default in
  let '(f, s1) := new_flag (trigger s0) in
  let s2 := register f s1 in
  is_stopped s2 = true /\ sf_flags s2 !! f = Some false.
Proof. split; vm_compute; reflexivity. Qed.

(** ** Witnesses *)

#[local] Instance pipeline_hasher : Hasher := {| key_hash := foldr Z.add 0; encoding_digest := foldr Z.add 0 |}.

Lemma shipped_ships : ships shipped.
Proof. split. exact default_engine_shipped. Qed.

Definition mock_run : MockSource := MockSource_new [(0, short_header_frame); (5, short_header_frame)] 1.

Definition mock_raws : list RawPacket :=
  [mkRaw short_header_frame (mkMeta 0 (blen short_header_frame) (blen short_header_frame) 1);
   mkRaw short_header_frame (mkMeta 5 (blen short_header_frame) (blen short_header_frame) 1)].

Definition mock_report : PumpReport := mkReport 2 (2 * blen short_header_frame) 0 (mkCaptureStats 2 0 0).

Definition mock_args : SharedArgs :=
  mkShared (Some "capture.pcap"%string) None (Some 2) Arg_Structural None None None false None None.

Definition mock_opts (diagnose : bool) : ParseOpts := mkParseOpts DStructural true 32 None false diagnose.

Lemma mock_pumps : pumps Some (Some 2) (pump_start mock_run) mock_raws (Some (Ok mock_report)).
Proof.
  eapply pumps_send; [vm_compute; reflexivity|]. eapply pumps_send; [vm_compute; reflexivity|].
  eapply pumps_end. vm_compute. reflexivity.
Qed.

Lemma mock_raws_ok : raws_ok mock_raws.
Proof. split; [repeat constructor; by vm_compute|by vm_compute]. Qed.

Lemma mock_times_fit shared : wants_live_eviction shared = false -> times_fit shared mock_raws.
Proof. intros Hw. unfold times_fit, sums_fit, aggregator_config. simpl. rewrite Hw. by repeat constructor. Qed.

(** Both threads alternate over two packets. *)
Definition mock_schedule : list thread :=
  [Producer; Producer; Consumer; Producer; Producer; Producer; Consumer; Consumer].

Lemma threads_exact_witness :
  exists t, run_schedule Some (Some 2) (fun _ => Error send_failed) (fun n _ => n + 1) mock_schedule
              (spawn_threads mock_run 0) = Some t /\
    joined t = Some (Ok mock_report, 2).
Proof.
  eexists. split; [vm_compute; reflexivity|].
  refine (proj2 (proj2 (proj2 (threads_exact Some (Some 2) (fun _ => Error send_failed) (fun n _ => n + 1)
    mock_run 0 mock_raws (Some (Ok mock_report)) mock_schedule _ mock_pumps _)) _));
    [vm_compute; reflexivity|reflexivity].
Defined.

Lemma run_observed_exact_witness :
  exists pkts sched, dissected_as shipped (mock_opts false) mock_raws pkts /\
    is_Some (run_observed (fun s => s) sched mock_args 7 true false (fun _ _ n => n + 1) (fun _ n => n)
               (Ok (mock_run, Mode_Offline, "capture.pcap"%string)) 0).
Proof.
  destruct (run_observed_exact (fun s => s) shipped shipped_ships mock_args (fun _ _ n => n + 1) (fun _ n => n)
    true false (mock_opts false) mock_run Mode_Offline "capture.pcap"%string 0 mock_raws (Ok mock_report) 7
    eq_refl mock_pumps) as (pkts & Hp & _ & Hfit & _).
  destruct (Hfit (mock_times_fit mock_args eq_refl)) as (sched & Hs).
  exists pkts, sched. split; [exact Hp|exact Hs].
Defined.

Definition mock_outcome : option (result RunOutcome CliError * Z) :=
  run_observed (fun s => s) mock_schedule mock_args 7 true false (fun _ _ n => n + 1) (fun _ n => n)
    (Ok (mock_run, Mode_Offline, "capture.pcap"%string)) 0.

Lemma mock_outcome_some : is_Some mock_outcome.
Proof. apply (bool_decide_unpack _). vm_compute. exact I. Qed.

Lemma run_snapshot_sound_witness :
  exists res outcome snap, mock_outcome = Some res /\ res.1 = Ok outcome /\ out_snapshot outcome = Some snap /\
    snapshot_forest snap /\ sm_packets (sn_summary snap) = 2.
Proof.
  pose proof mock_outcome_some as Hsome. unfold mock_outcome in *. destruct Hsome as [res Hres]. exists res.
  destruct (run_snapshot_sound (fun s => s) shipped shipped_ships mock_args false (fun _ _ n => n + 1) (fun _ n => n)
    (mock_opts false) mock_run Mode_Offline "capture.pcap"%string 0 mock_raws mock_report 7 mock_schedule res
    I mock_raws_ok eq_refl mock_pumps Hres) as (outcome & snap & H1 & H2 & _ & H4 & H5 & _).
  exists outcome, snap. split_and!; [exact Hres|exact H1|exact H2|exact H4|exact H5].
Defined.

Definition mock_hub : option (result unit CliError * SnapshotHub) :=
  spawn_hub_pipeline (fun s => s) mock_schedule (fun n => Z.of_nat n) (fun _ => Some 200) 7 mock_args
    (Ok (mock_run, Mode_Offline, "capture.pcap"%string)) (SnapshotHub_new "capture.pcap" Mode_Offline).

Lemma mock_hub_some : is_Some mock_hub.
Proof. apply (bool_decide_unpack _). vm_compute. exact I. Qed.

Lemma hub_pipeline_exact_witness :
  exists hub, mock_hub = Some (Ok tt, hub) /\ h_finished hub = true /\ hub_forests hub /\ h_error hub = None.
Proof.
  pose proof mock_hub_some as Hsome. unfold mock_hub in *. destruct Hsome as [[res hub] Hres]. exists hub.
  destruct (hub_pipeline_exact (fun s => s) shipped shipped_ships mock_args (mock_opts true) mock_run Mode_Offline
    "capture.pcap"%string "capture.pcap"%string Mode_Offline mock_raws (Ok mock_report) (fun n => Z.of_nat n)
    (fun _ => Some 200) 7 I mock_raws_ok eq_refl mock_pumps)
    as (pkts & _ & _ & Hall). destruct (Hall _ _ _ Hres) as (news & H1 & H2 & _ & _ & _ & H3 & H4 & _).
  split_and!; [rewrite Hres, H3; reflexivity|exact H1|exact H2|exact H4].
Defined.

(** [--idle-timeout 18446744073709551615] parses, and no run under it that creates a
    stream returns: the first deadline panics. *)
Definition huge_args : SharedArgs :=
  mkShared (Some "capture.pcap"%string) None (Some 2) Arg_Structural (Some u64_max) None None false None None.

Example huge_idle_timeout_panics sched :
  run_observed (fun s => s) sched huge_args 7 true false (fun _ _ n => n + 1) (fun _ n => n)
    (Ok (mock_run, Mode_Offline, "capture.pcap"%string)) 0 = None.
Proof.
  destruct (run_observed_result (fun s => s) shipped shipped_ships huge_args (fun _ _ n => n + 1) (fun _ n => n)
    true false (mock_opts false) mock_run Mode_Offline "capture.pcap"%string 0 mock_raws (Ok mock_report) 7
    eq_refl mock_pumps) as (pkts & Hp & [Hends _] & _).
  destruct (run_observed _ _ _ _ _ _ _ _ _ _) as [res|] eqn:E; [exfalso|done].
  assert (Some pkts = mapM (make_dissected shipped (mock_opts false)) mock_raws) as Hpkts.
  { symmetry. by apply mapM_Some. }
  specialize (Hends (ex_intro _ sched (ex_intro _ res E))).
  assert (overflows shipped huge_args true (Ok mock_report)
    (default [] (mapM (make_dissected shipped (mock_opts false)) mock_raws)) = false) as Hno by by rewrite <- Hpkts.
  revert Hno. vm_compute. discriminate.
Qed.

Lemma packet_event_exact_witness :
  exists ev, packet_event sample_engine sample_opts (mkRaw sample_bytes sample_meta) = Some ev /\
    pe_packet ev = sample_packet /\ length (pe_heuristic ev) = 2%nat.
Proof.
  pose proof (packet_event_exact sample_engine sample_opts (mkRaw sample_bytes sample_meta) sample_typed) as He.
  cbn [raw_bytes raw_meta] in He. rewrite sample_packet_dissect in He. destruct He as (ev & H1 & H2 & H3 & _).
  exists ev. split_and!; [exact H1|exact H2|rewrite H3; reflexivity].
Defined.
