(* ===== verification/Views.v ===== *)
(** * The command line's views

    Models [crates/pktflow-cli/src/views.rs] and [summary.rs]: the tables and the
    tree of the text output, stream selectors, the drill-down, the packet lines,
    the JSON envelope and the event stream of the live JSON output.  Text is a
    [string] of UTF-8 bytes; widths count characters, which is what [chars().count()]
    and the padding of [format!] do. *)

From S2P Require Import Prelude Values Bytes Types Rollups Arena Store Queries.
From S2P Require Import Text Fmt StreamView Query ViewIndex Tree Hub Json WebApi.
From S2P Require Import Capture Pipeline.
Local Open Scope string_scope.

(** ** Text *)

(** [s.chars().count()]: the bytes that are not continuation bytes. *)
Definition char_count (s : string) : nat :=
  length (filter (fun b => in_range 0x80 0xBF b = false) (str_bytes s)).

Fixpoint spaces (n : nat) : string := match n with O => "" | S n' => " " +:+ spaces n' end.

(** [{:>w$}] and [{:<w$}]. *)
Definition pad_right_of (w : nat) (s : string) : string := spaces (w - char_count s) +:+ s.
Definition pad_left_of (w : nat) (s : string) : string := s +:+ spaces (w - char_count s).

(** The bytes of the white space character at the head, 0 if it is another. *)
Definition space_len (bytes : list Z) : nat :=
  match bytes with
  | b :: c :: d :: _ =>
      if ascii_space b then 1
      else if all_whitespace [b; c] then 2
      else if all_whitespace [b; c; d] then 3 else 0
  | [b; c] => if ascii_space b then 1 else if all_whitespace [b; c] then 2 else 0
  | [b] => if ascii_space b then 1 else 0
  | [] => 0
  end.

Definition flush (cur : list Z) : list string := match cur with [] => [] | _ => [text_of cur] end.

(** [str::split_whitespace]; [skip] bytes of a separator are still to come. *)
Fixpoint split_whitespace_from (skip : nat) (cur : list Z) (bytes : list Z) : list string :=
  match bytes with
  | [] => flush cur
  | b :: rest =>
      match skip with
      | S k => split_whitespace_from k cur rest
      | O =>
          match space_len bytes with
          | O => split_whitespace_from 0 (cur ++ [b]) rest
          | S k => (flush cur ++ split_whitespace_from k [] rest)%list
          end
      end
  end.
Definition split_whitespace (s : string) : list string := split_whitespace_from 0 [] (str_bytes s).

(** [str::lines]. *)
Fixpoint lines_of (cur : list Z) (bytes : list Z) : list string :=
  match bytes with
  | [] => flush cur
  | 10%Z :: rest =>
      text_of (match reverse cur with 13%Z :: cur' => reverse cur' | _ => cur end) :: lines_of [] rest
  | b :: rest => lines_of (cur ++ [b]) rest
  end.
Definition str_lines (s : string) : list string := lines_of [] (str_bytes s).

(** [s.rsplit_once(':')]. *)
Definition rsplit_colon (s : string) : option (string * string) :=
  let '(port, rest) := span (fun b => negb (b =? 58)%Z) (reverse (str_bytes s)) in
  match rest with
  | _ :: addr => Some (text_of (reverse addr), text_of (reverse port))
  | [] => None
  end.

Example split_whitespace_example :
  split_whitespace " tcp  10.0.0.1:80 :443 " = ["tcp"; "10.0.0.1:80"; ":443"].
Proof. vm_compute. reflexivity. Qed.

Example rsplit_colon_example : rsplit_colon "10.0.0.1:80" = Some ("10.0.0.1", "80") /\ rsplit_colon "80" = None.
Proof. split; vm_compute; reflexivity. Qed.

(** ** Rows *)

Inductive SortOrder := By_Bytes | By_Packets | By_FirstSeen | By_Duration.

(** [last_seen.duration_since(first_seen).unwrap_or_default()]. *)
Definition stream_duration (s : Stream) : Duration := sat_sub (last_seen s) (first_seen s).

Definition order_leb (o : SortOrder) : Stream -> Stream -> bool :=
  match o with
  | By_Bytes => key_leb total_bytes (reverse_leb Z.leb)
  | By_Packets => key_leb total_packets (reverse_leb Z.leb)
  | By_FirstSeen => key_leb created_seq Z.leb
  | By_Duration => key_leb stream_duration (reverse_leb Z.leb)
  end.

Definition order_siblings (o : SortOrder) (streams : list Stream) : list Stream := sort_by (order_leb o) streams.

Record Row := mkRow { label : string; pkts : string; bytes_col : string; tail_col : string }.

Section Views.
Context `{Env : ViewEnv}.

(** [s.state.map(|st| format!("   [{st}]")).unwrap_or_default()]. *)
Definition state_tag (s : Stream) : string :=
  match state s with Some st => "   [" +:+ st +:+ "]" | None => "" end.

Definition stream_row (prefix : string) (s : Stream) (first_seen_col : bool) : Row :=
  let endpoints := endpoints_str s in
  let label := prefix +:+ st_protocol s +:+ " #" +:+ show_Z (created_seq s) in
  let label := if String.eqb endpoints "" then label else label +:+ "  " +:+ endpoints in
  let label := match condensed_marker s with Some marker => label +:+ "  " +:+ marker | None => label end in
  let label := label +:+ state_tag s in
  let tail := human_duration (stream_duration s) in
  let tail :=
    if str_contains "↔" endpoints
    then tail +:+ "   ▲" +:+ thousands (st_packets (stats s).1) +:+ "/▼" +:+ thousands (st_packets (stats s).2)
    else tail in
  let tail := if first_seen_col then tail +:+ "   first " +:+ time_of_day (first_seen s) else tail in
  mkRow label (thousands (total_packets s) +:+ " pkts") (human_bytes (total_bytes s)) tail.

(** [iter().map(|r| f(r).chars().count()).max().unwrap_or(0)]. *)
Definition column_width {A} (f : A -> string) (rows : list A) : nat :=
  foldr Nat.max 0%nat ((fun r => char_count (f r)) <$> rows).

Definition render_rows (rows : list Row) : string :=
  let label_w := column_width label rows in
  let pkts_w := column_width pkts rows in
  let bytes_w := column_width bytes_col rows in
  foldl (fun out r =>
    let pad := (label_w - char_count (label r))%nat in
    out +:+ label r +:+ spaces pad +:+ "   " +:+ pad_right_of pkts_w (pkts r) +:+ "   " +:+
    pad_right_of bytes_w (bytes_col r) +:+ "   " +:+ tail_col r +:+ String (char_of 10) "") "" rows.

(** ** The tree *)

(** [filter_map(|id| ids.get(id))], the streams kept, in sibling order. *)
Definition kept_siblings (ids : gmap StreamId Stream) (sort : SortOrder) (keep : option (gset Z))
    (l : list StreamId) : list Stream :=
  order_siblings sort (filter (fun s => shown keep s = true) (omap (fun id => ids !! id) l)).

(** The loop over the children; [collect] is the recursive call. *)
Fixpoint collect_children (collect : Stream -> string -> list Row -> list Row) (bare : string) (kids : list Stream)
    (rows : list Row) : list Row :=
  match kids with
  | [] => rows
  | child :: rest =>
      let branch := match rest with [] => ELBOW | _ => TEE end in
      collect_children collect bare rest (collect child (bare +:+ branch) rows)
  end.

(** Fuel bounds the depth; one more than the streams is enough. *)
Fixpoint collect_subtree (fuel : nat) (ids : gmap StreamId Stream) (sort : SortOrder) (keep : option (gset Z))
    (s : Stream) (prefix : string) (rows : list Row) : list Row :=
  match fuel with
  | O => rows
  | S fuel' =>
      collect_children (collect_subtree fuel' ids sort keep) (bare_prefix prefix)
        (kept_siblings ids sort keep (children s)) (rows ++ [stream_row prefix s false])
  end.

Definition tree_rows (snap : AggregatorSnapshot) (sort : SortOrder) (query : option Expr) : list Row :=
  let ids := by_id snap in
  let keep := matching_with_ancestors (sn_streams snap) ids <$> query in
  foldl (fun rows root => collect_subtree (S (length (sn_streams snap))) ids sort keep root "" rows) []
    (kept_siblings ids sort keep (sn_roots snap)).

Definition streams_tree (snap : AggregatorSnapshot) (sort : SortOrder) (query : option Expr) : string :=
  render_rows (tree_rows snap sort query).

(** [query.is_none_or(|q| q.matches(s, &ids))]. *)
Definition selected (query : option Expr) (ids : gmap StreamId Stream) (s : Stream) : bool :=
  match query with Some q => matches q s ids | None => true end.

Definition layer_streams (snap : AggregatorSnapshot) (protocol : string) (query : option Expr) : list Stream :=
  filter (fun s => selected query (by_id snap) s = true)
    (filter (fun s => String.eqb (st_protocol s) protocol = true) (sn_streams snap)).

Definition streams_flat (snap : AggregatorSnapshot) (protocol : string) (query : option Expr) : string :=
  render_rows ((fun s => stream_row "" s true) <$> layer_streams snap protocol query).

(** *** Folding the nodes of one key *)

(** [order] and [groups]: the keys in the order they were met, and their streams. *)
Definition KeyGroups : Type := list (list Z) * gmap (list Z) (list Stream).

Definition group_stream (acc : KeyGroups) (s : Stream) : KeyGroups :=
  let slot := default [] (acc.2 !! st_key s) in
  (match slot with [] => (acc.1 ++ [st_key s])%list | _ => acc.1 end, <[st_key s := (slot ++ [s])%list]> acc.2).

Definition group_by_key (l : list Stream) : KeyGroups := foldl group_stream ([], ∅) l.

Definition sum_over (f : Stream -> Z) (nodes : list Stream) : Z := foldr (fun s n => (f s + n)%Z) 0%Z nodes.

Definition merged_row (nodes : list Stream) : option Row :=
  first ← head nodes;
  let ids := (fun s => "#" +:+ show_Z (created_seq s)) <$> nodes in
  let endpoints := endpoints_str first in
  let label := st_protocol first in
  let label := if String.eqb endpoints "" then label else label +:+ "  " +:+ endpoints in
  Some (mkRow label (thousands (sum_over total_packets nodes) +:+ " pkts") (human_bytes (sum_over total_bytes nodes))
         ("nodes " +:+ join "," ids)).

(** [None] is the panic of [nodes\[0\]] on an empty group, and of [groups\[key\]]. *)
Definition merged_rows (snap : AggregatorSnapshot) (protocol : string) (query : option Expr) : option (list Row) :=
  let '(order, groups) := group_by_key (layer_streams snap protocol query) in
  mapM (fun key => nodes ← groups !! key; merged_row nodes) order.

Definition streams_merged (snap : AggregatorSnapshot) (protocol : string) (query : option Expr) : option string :=
  render_rows <$> merged_rows snap protocol query.
End Views.

(** ** The live frame *)

Definition WATCH_CLEAR : string := String (char_of 27) ("[2J" +:+ String (char_of 27) "[H").
Definition WATCH_MAX_ROWS : nat := 40.

Definition newline : string := String (char_of 10) "".

(** The loop over the lines, at line [i] of [total]. *)
Fixpoint frame_body (total i : nat) (lines : list string) : string :=
  match lines with
  | [] => ""
  | line :: rest =>
      if (i =? WATCH_MAX_ROWS)%nat
      then "… and " +:+ show_Z (Z.of_nat (total - i)) +:+ " more" +:+ newline
      else line +:+ newline +:+ frame_body total (S i) rest
  end.

Section Frame.
Context `{Env : ViewEnv} (str_debug : string -> string).

Definition watch_frame (snap : AggregatorSnapshot) (sort : SortOrder) (source : string) (query : option Expr) : string :=
  let lines := str_lines (streams_tree snap sort query) in
  WATCH_CLEAR +:+ frame_body (length lines) 0 lines +:+ newline +:+ "watching " +:+ source +:+ " — packets " +:+
  thousands (sm_packets (sn_summary snap)) +:+ " · streams live " +:+ show_Z (sm_streams_live (sn_summary snap)) +:+
  newline.

(** ** Selectors *)

(** The loop of [ancestor_values] is the walk of [ancestors]. *)
Definition ancestor_values (s : Stream) (ids : gmap StreamId Stream) : list string :=
  ancestors s ids ≫= (fun p => let '(a, b, _) := endpoint_sides p in [a; b]).

Definition without_colon (s : string) : string := default s (strip_prefix ":" s).

Definition token_matches (token side : string) (ancestors : list string) : bool :=
  let side_bare := without_colon side in
  let token_bare := without_colon token in
  if String.eqb token_bare side_bare then true
  else match rsplit_colon token_bare with
       | Some (addr, port) => String.eqb port side_bare && existsb (fun v => String.eqb v addr) ancestors
       | None => false
       end.

(** The filter of the candidates: the two endpoints in either order. *)
Definition pair_matches (ep1 ep2 : string) (ids : gmap StreamId Stream) (s : Stream) : bool :=
  let '(a, b, _) := endpoint_sides s in
  let ancestors := ancestor_values s ids in
  (token_matches ep1 a ancestors && token_matches ep2 b ancestors) ||
  (token_matches ep1 b ancestors && token_matches ep2 a ancestors).

Definition candidate_line (ids : gmap StreamId Stream) (s : Stream) : string :=
  newline +:+ "  #" +:+ show_Z (created_seq s) +:+ "  " +:+ st_protocol s +:+ " " +:+ endpoints_str s +:+
  "  (under " +:+ lineage_str s ids +:+ ")".

Definition resolve_selector (snap : AggregatorSnapshot) (selector : string) : result Stream CliError :=
  match strip_prefix "#" selector with
  | Some rest =>
      match parse_u64 rest with
      | None => Error (Usage ("bad selector " +:+ str_debug selector +:+ ": #id takes a number from a streams view"))
      | Some seq =>
          match find_first (fun s => created_seq s =? seq)%Z (sn_streams snap) with
          | Some s => Ok s
          | None => Error (NotFound ("no stream #" +:+ show_Z seq +:+ " in this capture"))
          end
      end
  | None =>
      match split_whitespace selector with
      | [proto; ep1; ep2] =>
          let ids := by_id snap in
          let candidates :=
            filter (fun s => pair_matches ep1 ep2 ids s = true)
              (filter (fun s => String.eqb (st_protocol s) proto = true) (sn_streams snap)) in
          match candidates with
          | [] => Error (NotFound ("no " +:+ proto +:+ " stream matching " +:+ ep1 +:+ " ↔ " +:+ ep2 +:+
                                   " in this capture"))
          | [one] => Ok one
          | many =>
              Error (NotFound ("selector " +:+ str_debug selector +:+ " is ambiguous across parents; candidates:" +:+
                               String.concat "" (candidate_line ids <$> many)))
          end
      | _ => Error (Usage ("bad selector " +:+ str_debug selector +:+ ": use '#id' or 'PROTO ENDPOINT-A ENDPOINT-B'"))
      end
  end.

(** ** The drill-down *)

Definition SERIES_ELISION : nat := 20.

Definition series_point (base : SystemTime) (protocol field : string) (p : SeriesPoint) : string :=
  time_of_day (point_ts p base) +:+ " " +:+ (match point_dir p with AtoB => "▲" | BtoA => "▼" end) +:+ " " +:+
  field_value_str protocol field (point_value p).

Definition series_points (full_series : bool) (point : SeriesPoint -> string) (ring : list SeriesPoint) : list string :=
  if full_series || (length ring <=? SERIES_ELISION)%nat then point <$> ring
  else ((point <$> take (SERIES_ELISION / 2) ring) ++
        ["… " +:+ show_Z (Z.of_nat (length ring - SERIES_ELISION)) +:+ " elided …"] ++
        (point <$> drop (length ring - SERIES_ELISION / 2) ring))%list.

Definition rollup_line (base : SystemTime) (protocol field : string) (rollup : Rollup) (full_series : bool) : string :=
  match rollup with
  | Accumulate values count overflow =>
      let rendered := field_value_str protocol field <$> values in
      let marker := if overflow then ", ≥" +:+ show_Z (blen values) +:+ " values" else "" in
      "  " +:+ field +:+ "   {" +:+ join ", " rendered +:+ "}   (accumulate, " +:+ show_Z (blen values) +:+
      " distinct / " +:+ thousands count +:+ " obs" +:+ marker +:+ ")" +:+ newline
  | Sample first last =>
      let render v := from_option (field_value_str protocol field) "—" v in
      "  " +:+ field +:+ "   " +:+ render first +:+ " → " +:+ render last +:+ "   (sample, first → last)" +:+ newline
  | Series ring _ truncated =>
      let points := series_points full_series (series_point base protocol field) ring in
      let marker := if truncated then "   (truncated)" else "" in
      "  " +:+ field +:+ "   series: " +:+ join " · " points +:+ marker +:+ newline
  end.

Definition stream_detail (snap : AggregatorSnapshot) (selector : string) (full_series : bool) : result string CliError :=
  match resolve_selector snap selector with
  | Error e => Error e
  | Ok s =>
      let ids := by_id snap in
      let endpoints := endpoints_str s in
      let header :=
        st_protocol s +:+ " #" +:+ show_Z (created_seq s) +:+
        (if String.eqb endpoints "" then "" else "   " +:+ endpoints) +:+ state_tag s +:+ newline in
      let lineage := lineage_str s ids in
      let lineage := if String.eqb lineage "" then "" else "lineage   " +:+ lineage +:+ " ▸ this" +:+ newline in
      let timing :=
        "timing    first " +:+ time_of_day (first_seen s) +:+ "  last " +:+ time_of_day (last_seen s) +:+
        "  duration " +:+ human_duration (stream_duration s) +:+ newline in
      let way d := thousands (st_packets d) +:+ " pkts / " +:+ human_bytes (st_bytes d) in
      let totals :=
        "totals    " +:+ thousands (total_packets s) +:+ " pkts / " +:+ human_bytes (total_bytes s) +:+
        "    A→B " +:+ way (stats s).1 +:+ "    B→A " +:+ way (stats s).2 +:+ newline in
      let '(a_side, b_side, _) := endpoint_sides s in
      let initiator_line :=
        if String.eqb a_side "" then ""
        else let '(side, endpoint) := match initiator s with AtoB => ("A", a_side) | BtoA => ("B", b_side) end in
             "initiator " +:+ side +:+ " (" +:+ endpoint +:+ ")" +:+ newline in
      let state_line :=
        match state s with
        | Some st => "state     " +:+ st +:+ "   (closed: " +:+ from_option close_reason_str "—" (closed s) +:+ ")" +:+ newline
        | None => ""
        end in
      let opaque :=
        if (0 <? opaque_bytes s)%Z
        then "opaque    " +:+ thousands (opaque_bytes s) +:+ " payload bytes beyond last parsed layer" +:+ newline
        else "" in
      let rollups :=
        match st_rollups s with
        | [] => ""
        | entries =>
            "rollups" +:+ newline +:+
            String.concat "" ((fun e => rollup_line (first_seen s) (st_protocol s) e.1 e.2 full_series) <$> entries)
        end in
      let chains := (fun c => child_chain_str c ids) <$> omap (fun id => ids !! id) (children s) in
      let children := match chains with [] => "" | _ => "children  " +:+ join ", " chains +:+ newline end in
      Ok (header +:+ lineage +:+ timing +:+ totals +:+ initiator_line +:+ state_line +:+ opaque +:+ rollups +:+ children)
  end.
End Frame.

(** ** Packet lines, documents and the end-of-run summary

    Writing a document as text is [serde_json]'s. *)

(** *** Packets *)

Definition HEADLINE_FIELDS : list (string * string) :=
  [("dns", "qname"); ("arp", "opcode"); ("tcp", "flags"); ("icmpv4", "type"); ("dhcp", "msg_type");
   ("igmp", "type"); ("ntp", "mode")].

Definition stop_str (s : StopReason) : string :=
  match s with
  | Stop_Complete => "complete"
  | Stop_Terminal => "terminal"
  | Stop_UnclaimedRoute id => "unclaimed: " +:+ RouteId_to_string id
  | Stop_UnknownHint => "unknown"
  | Stop_Truncated needed have => "truncated: needed " +:+ show_Z needed +:+ ", have " +:+ show_Z have
  | Stop_PluginError => "plugin-error"
  | Stop_DepthCap => "depth-cap"
  end.

(** The first result of [f], in order: the early return of a loop. *)
Fixpoint first_some {A B} (f : A -> option B) (l : list A) : option B :=
  match l with
  | [] => None
  | x :: l' => match f x with Some y => Some y | None => first_some f l' end
  end.

Section Packets.
Context `{Env : ViewEnv}.

Definition headline_str (pkt : DissectedPacket) : option string :=
  first_some (fun layer =>
    first_some (fun e : string * string =>
      if String.eqb (protocol layer) e.1
      then v ← FieldMap.get e.2 (fields layer);
           Some (e.2 +:+ "=" +:+ field_value_str (protocol layer) e.2 v)
      else None) HEADLINE_FIELDS)
    (rev (layers pkt)).

Record Innermost := mkInnermost {
  in_addrs : option (string * string);
  in_ports : option (string * string);
  in_macs : option (string * string);
}.

(** [if let (Some(s), Some(d)) = (get(src), get(dst))], rendered. *)
Definition field_pair (layer : LayerRecord) (src dst : string) : option (string * string) :=
  s ← FieldMap.get src (fields layer);
  d ← FieldMap.get dst (fields layer);
  Some (value_str src s, value_str dst d).

(** A layer's own pair, or what was found outside it. *)
Definition inner_pair (own outer : option (string * string)) : option (string * string) :=
  match own with Some p => Some p | None => outer end.

Definition innermost_round (acc : Innermost) (layer : LayerRecord) : Innermost :=
  let addrs := field_pair layer "src_addr" "dst_addr" in
  let outer_ports := match addrs with Some _ => None | None => in_ports acc end in
  mkInnermost (inner_pair addrs (in_addrs acc))
    (inner_pair (field_pair layer "src_port" "dst_port") outer_ports)
    (inner_pair (field_pair layer "src_mac" "dst_mac") (in_macs acc)).

Definition packet_endpoints_str (pkt : DissectedPacket) : option string :=
  let found := foldl innermost_round (mkInnermost None None None) (layers pkt) in
  match in_addrs found, in_ports found, in_macs found with
  | Some (sa, da), Some (sp, dp), _ => Some (sa +:+ ":" +:+ sp +:+ " → " +:+ da +:+ ":" +:+ dp)
  | Some (sa, da), None, _ => Some (sa +:+ " → " +:+ da)
  | None, Some (sp, dp), _ => Some (":" +:+ sp +:+ " → :" +:+ dp)
  | None, None, Some (sm, dm) => Some (sm +:+ " → " +:+ dm)
  | None, None, None => None
  end.

Definition packet_line (index : Z) (pkt : DissectedPacket) : string :=
  show_Z index +:+ "  " +:+ time_of_day (timestamp (meta pkt)) +:+ "  " +:+
  join " ▸ " (protocol <$> layers pkt) +:+
  from_option (fun e => "  " +:+ e) "" (packet_endpoints_str pkt) +:+
  from_option (fun h => "  " +:+ h) "" (headline_str pkt) +:+
  "  " +:+ human_bytes (caplen (meta pkt)) +:+ "  [" +:+ stop_str (stop pkt) +:+ "]".

(** The block of one layer, the [i]-th. *)
Definition layer_block (verbosity : Z) (heuristic : list bool) (i : nat) (layer : LayerRecord) : string :=
  let marker := if (2 <=? verbosity)%Z && default false (heuristic !! i) then "  (via heuristic)" else "" in
  "    " +:+ protocol layer +:+ " @" +:+ show_Z (offset layer) +:+ " hdr " +:+ show_Z (header_len layer) +:+ marker +:+
  (match FieldMap.iter (fields layer) with
   | [] => ""
   | entries =>
       ": " +:+ join " " ((fun e => e.1 +:+ "=" +:+ field_value_str (protocol layer) e.1 e.2) <$> entries)
   end) +:+ newline.

Definition packet_block (index : Z) (pkt : DissectedPacket) (verbosity : Z) (tail_sample : list Z)
    (heuristic : list bool) : string :=
  let out := packet_line index pkt +:+ newline in
  if (verbosity =? 0)%Z then out
  else
    out +:+ String.concat "" (imap (layer_block verbosity heuristic) (layers pkt)) +:+
    (if (2 <=? verbosity)%Z && (0 <? opaque_len pkt)%Z
     then "    payload (" +:+ show_Z (blen tail_sample) +:+ " of " +:+ show_Z (opaque_len pkt) +:+
          " unparsed bytes): " +:+ join " " (hex_padded 2 <$> tail_sample) +:+ newline
     else "").

(** ** summary.rs *)

Definition stop_class_label (class : StopClass) : string :=
  match class with
  | Clean => "clean"
  | UnknownPayload => "unknown-payload"
  | Malformed => "malformed"
  | Suspicious => "suspicious"
  end.

Definition stop_class_key (class : StopClass) : string :=
  match class with
  | Clean => "clean"
  | UnknownPayload => "unknown_payload"
  | Malformed => "malformed"
  | Suspicious => "suspicious"
  end.

Definition stops_line (summary : AggregateSummary) : string :=
  let parts :=
    (fun e => stop_class_label e.1 +:+ " " +:+ thousands e.2) <$>
      filter (fun e => (0 <? e.2)%Z = true) (sm_stop_classes summary) in
  match parts with [] => "" | _ => "stops     " +:+ join " · " parts +:+ newline end.

Definition streams_line (summary : AggregateSummary) : string :=
  match sm_per_protocol summary with
  | [] => ""
  | counts =>
      let parts := (fun p => pc_protocol p +:+ " " +:+ show_Z (pc_ever p) +:+ "/" +:+ show_Z (pc_live p)) <$> counts in
      let condensed :=
        if (0 <? sm_flows_condensed summary)%Z
        then "   · " +:+ thousands (sm_flows_condensed summary) +:+ " flows condensed (D16)" else "" in
      "streams   " +:+ join " · " parts +:+ "   (ever/live)" +:+ condensed +:+ newline
  end.

(** [Duration::as_secs_f64]. *)
Definition as_secs_f64 (d : Duration) : SpecFloat.spec_float :=
  f64_add (f64_of_Z (d / 1000000000)) (f64_div (f64_of_Z (d mod 1000000000)) (f64_of_Z 1000000000)).

Definition render_summary (outcome : RunOutcome) : string :=
  let report := out_report outcome in
  let secs := as_secs_f64 (out_elapsed outcome) in
  let rate := if f64_ltb f64_zero secs then f64_div (f64_of_Z (report_packets report)) secs else f64_zero in
  let stats := report_stats report in
  let drops := (dropped_kernel stats + dropped_iface stats)%Z in
  "processed " +:+ thousands (report_packets report) +:+ " packets · " +:+ human_bytes (report_bytes report) +:+
  " in " +:+ show_decimals 2 secs +:+ " s (" +:+ show_decimals 0 rate +:+ " pkts/s)" +:+ newline +:+
  (if (0 <? timestamps_regressed report)%Z
   then "timestamps out of order: " +:+ thousands (timestamps_regressed report) +:+ newline else "") +:+
  (match out_snapshot outcome with
   | Some snap => stops_line (sn_summary snap) +:+ streams_line (sn_summary snap)
   | None => ""
   end) +:+
  (if (0 <? drops)%Z
   then "!! capture drops: " +:+ thousands (dropped_kernel stats) +:+ " kernel, " +:+ thousands (dropped_iface stats) +:+
        " interface — stream stats may be incomplete" +:+ newline
   else "").

(** ** Documents *)

Context (format_rfc3339 : SystemTime -> option string).

Definition packet_json (index : Z) (pkt : DissectedPacket) : Json :=
  json_obj
    [("index", J_Num index);
     ("layers", J_Arr (J_Str <$> (protocol <$> layers pkt)));
     ("stop", J_Str (stop_str (stop pkt)));
     ("stop_class", J_Str (stop_class_key (stop_class (stop pkt))));
     ("caplen", J_Num (caplen (meta pkt)));
     ("opaque_len", J_Num (opaque_len pkt))].

Definition run_summary_json (outcome : RunOutcome) (snap : AggregatorSnapshot) : JsonMap :=
  let summary := sn_summary snap in
  let stop_classes :=
    map_of ((fun e => (stop_class_key e.1, J_Num e.2)) <$> filter (fun e => (0 <? e.2)%Z = true) (sm_stop_classes summary)) in
  let per_protocol := map_of ((fun p => (pc_protocol p, J_Num (pc_ever p))) <$> sm_per_protocol summary) in
  let stats := report_stats (out_report outcome) in
  let m := map_of
    [("packets", J_Num (sm_packets summary)); ("bytes", J_Num (sm_bytes summary));
     ("stop_classes", J_Obj stop_classes); ("streams", J_Obj per_protocol)] in
  let m := if (0 <? sm_flows_condensed summary)%Z
           then map_insert "flows_condensed" (J_Num (sm_flows_condensed summary)) m else m in
  map_insert "capture_drops" (J_Num (dropped_kernel stats + dropped_iface stats)) m.

Definition json_envelope (outcome : RunOutcome) (query : option Expr) : Json :=
  let doc := map_of [("pktflow", J_Num 1); ("mode", J_Str (mode_str (out_mode outcome)));
                     ("source", J_Str (out_source_name outcome))] in
  match out_snapshot outcome with
  | None => J_Obj doc
  | Some snap =>
      let ids := by_id snap in
      let seq_of id := created_seq <$> ids !! id in
      let doc := map_insert "summary" (J_Obj (run_summary_json outcome snap)) doc in
      J_Obj (map_insert "streams"
        (J_Arr ((fun s => J_Obj (stream_record format_rfc3339 s seq_of)) <$>
                  filter (fun s => selected query ids s = true) (sn_streams snap))) doc)
  end.

(** ** The event stream *)

(** [tk_reads] counts the reads of the clock. *)
Record NdjsonTracker := mkTracker {
  last_poll : Instant;
  last_emitted : gmap StreamId Instant;
  seq_by_id : gmap StreamId Z;
  tk_reads : nat;
}.

Definition NdjsonTracker_new (clock : nat -> Instant) : NdjsonTracker :=
  mkTracker (clock 0%nat - from_secs 2) ∅ ∅ 1.

(** [now.duration_since(earlier)], which saturates. *)
Definition since (now earlier : Instant) : Duration := sat_sub now earlier.

(** What a poll at [now] emits for a stream. *)
Definition event_kind (now : Instant) (last : option Instant) : option string :=
  match last with
  | None => Some "stream_new"
  | Some t => if (from_secs 1 <=? since now t)%Z then Some "stream_update" else None
  end.

Definition event_of (kind : string) (record : JsonMap) : Json := J_Obj (map_insert "event" (J_Str kind) record).

Definition poll_stream (now : Instant) (seq_of : StreamId -> option Z)
    (acc : gmap StreamId Instant * list Json) (s : Stream) : gmap StreamId Instant * list Json :=
  match event_kind now (acc.1 !! st_id s) with
  | Some kind => (<[st_id s := now]> acc.1, (acc.2 ++ [event_of kind (stream_record format_rfc3339 s seq_of)])%list)
  | None => acc
  end.

Definition poll (clock : nat -> Instant) (agg : Aggregator) (t : NdjsonTracker) : NdjsonTracker * list Json :=
  let n := tk_reads t in
  if (since (clock n) (last_poll t) <? from_millis 100)%Z
  then (mkTracker (last_poll t) (last_emitted t) (seq_by_id t) (S n), [])
  else
    let seqs := foldl (fun m s => <[st_id s := created_seq s]> m) (seq_by_id t) (streams agg) in
    let now := clock (S (S n)) in
    let '(emitted, events) := foldl (poll_stream now (fun id => seqs !! id)) (last_emitted t, []) (streams agg) in
    (mkTracker (clock (S n)) emitted seqs (S (S (S n))), events).

Definition on_evicted (ev : EvictedStream) (t : NdjsonTracker) : NdjsonTracker * Json :=
  let s := ev_stream ev in
  (mkTracker (last_poll t) (delete (st_id s) (last_emitted t)) (seq_by_id t) (tk_reads t),
   J_Obj (map_insert "close_reason" (J_Str (close_reason_json (ev_reason ev)))
     (map_insert "event" (J_Str "stream_closed") (stream_record format_rfc3339 s (fun id => seq_by_id t !! id))))).

Definition summary_event (outcome : RunOutcome) (snap : AggregatorSnapshot) : Json :=
  J_Obj (map_insert "event" (J_Str "summary") (run_summary_json outcome snap)).

(** The closures of [watch_json]: the tracker they share and the lines printed. *)
Definition Printed : Type := NdjsonTracker * list Json.

Definition print_poll (clock : nat -> Instant) (agg : Aggregator) (p : Printed) : Printed :=
  let '(t, events) := poll clock agg p.1 in (t, (p.2 ++ events)%list).

Definition print_evicted (ev : EvictedStream) (p : Printed) : Printed :=
  let '(t, event) := on_evicted ev p.1 in (t, (p.2 ++ [event])%list).
End Packets.

(** ** Interfaces *)

Definition ifaces_text (interfaces : list InterfaceInfo) : string :=
  foldl (fun out i =>
    let flags := ((if up i then ["up"] else []) ++ (if loopback i then ["loopback"] else []))%list in
    out +:+ if_name i +:+ "  [" +:+ join "," flags +:+ "]  " +:+ join " " (addrs i) +:+ "  " +:+
    default "" (description i) +:+ newline) "" interfaces.

Definition ifaces_json (interfaces : list InterfaceInfo) : Json :=
  J_Arr ((fun i =>
    json_obj [("name", J_Str (if_name i)); ("description", json_opt J_Str (description i));
              ("addrs", J_Arr (J_Str <$> addrs i)); ("up", J_Bool (up i)); ("loopback", J_Bool (loopback i))])
    <$> interfaces).
