(* ===== verification/UnknownView.v ===== *)
(** * The unknown lens

    Models [crates/pktflow-cli/src/unknown_view.rs] and [scaffold.rs]: the triage
    table, its selectors, the drill-down, the export of retained samples and the
    scaffold of a plugin file.

    The file system is the map of file contents; what each operation on it does is
    read from a list of outcomes, success once it is exhausted. *)

From S2P Require Import Prelude Values Bytes Utf8 Types Unknowns Store Queries.
From S2P Require Import Text Fmt Tree Hub Json WebApi Capture Pipeline Views.
Local Open Scope string_scope.

Definition TABLE_NEAR_MISS_CAP : nat := 3.

Definition context_str (key : UnknownKey) : string :=
  match uk_route key with
  | Some route => predecessor key +:+ " → " +:+ RouteId_to_string route
  | None => predecessor key
  end.

Definition kind_str (key : UnknownKey) : string :=
  match uk_route key with Some _ => "unclaimed route" | None => "no heuristic winner" end.

Definition kind_json_key (key : UnknownKey) : string :=
  match uk_route key with Some _ => "unclaimed_route" | None => "no_heuristic_winner" end.

Definition near_misses_str (near_misses : list (ProtocolName * Z)) (cap : nat) : string :=
  join " · " ((fun e : ProtocolName * Z => e.1 +:+ "(" +:+ show_Z e.2 +:+ ")") <$> take cap near_misses).

(** [top] may be any [usize]. *)
Definition visible_groups (snap : AggregatorSnapshot) (top min_count : Z) : list UnknownGroup :=
  take (Z.to_nat top) (filter (fun g => (min_count <=? ug_count g)%Z = true) (sn_unknowns snap)).

Section Selector.
Context (str_debug : string -> string).

Definition resolve_group (snap : AggregatorSnapshot) (selector : string) (top min_count : Z)
    : result UnknownGroup CliError :=
  match strip_prefix "#" selector with
  | None =>
      Error (Usage ("bad selector " +:+ str_debug selector +:+
                    ": unknown groups are selected with '#n' from a table view"))
  | Some rest =>
      match parse_u64 rest with
      | None => Error (Usage ("bad selector " +:+ str_debug selector +:+ ": #n takes a number from a table view"))
      | Some n =>
          let groups := visible_groups snap top min_count in
          let missing :=
            NotFound ("no unknown group #" +:+ show_Z n +:+ " in this capture (" +:+ show_Z (blen groups) +:+ " shown)") in
          if (n =? 0)%Z || (blen groups <? n)%Z then Error missing
          else match groups !! Z.to_nat (n - 1) with Some g => Ok g | None => Error missing end
      end
  end.
End Selector.

(** ** The table *)

Record TableRow := mkTableRow {
  t_n : string; t_context : string; t_kind : string; t_count : string; t_bytes : string; t_span : string; t_near : string;
}.

Definition table_row (i : nat) (g : UnknownGroup) : TableRow :=
  mkTableRow (show_Z (Z.of_nat i + 1)) (context_str (ug_key g)) (kind_str (ug_key g)) (thousands (ug_count g))
    (human_bytes (bytes_total g)) (time_of_day (ug_first_seen g) +:+ " → " +:+ time_of_day (ug_last_seen g))
    (near_misses_str (ug_near_misses g) TABLE_NEAR_MISS_CAP).

(** The widest of a column and its title; titles are measured in bytes. *)
Definition titled_width (f : TableRow -> string) (title : string) (rows : list TableRow) : nat :=
  Nat.max (column_width f rows) (String.length title).

Definition table_line (n_w ctx_w kind_w count_w bytes_w span_w : nat) (r : TableRow) : string :=
  pad_right_of n_w (t_n r) +:+ "  " +:+ pad_left_of ctx_w (t_context r) +:+ "  " +:+ pad_left_of kind_w (t_kind r) +:+
  "  " +:+ pad_right_of count_w (t_count r) +:+ "  " +:+ pad_right_of bytes_w (t_bytes r) +:+ "  " +:+
  pad_left_of span_w (t_span r) +:+ "  " +:+ t_near r +:+ newline.

Definition sum_groups (f : UnknownGroup -> Z) (l : list UnknownGroup) : Z := foldr (fun g n => (f g + n)%Z) 0%Z l.

Definition table_text (snap : AggregatorSnapshot) (top min_count : Z) : string :=
  match visible_groups snap top min_count with
  | [] => "no unknown protocols observed" +:+ newline
  | groups =>
      let rows := imap table_row groups in
      let n_w := Nat.max (column_width t_n rows) 1 in
      let line := table_line n_w (titled_width t_context "CONTEXT" rows) (titled_width t_kind "KIND" rows)
                    (titled_width t_count "COUNT" rows) (titled_width t_bytes "BYTES" rows)
                    (titled_width t_span "FIRST → LAST" rows) in
      "UNKNOWN PROTOCOLS / STREAMS   (" +:+ show_Z (blen groups) +:+ " groups, " +:+
      thousands (sum_groups ug_count groups) +:+ " packets, " +:+ human_bytes (sum_groups bytes_total groups) +:+
      " unclassified)" +:+ newline +:+ newline +:+
      line (mkTableRow "#" "CONTEXT" "KIND" "COUNT" "BYTES" "FIRST → LAST" "NEAR MISSES") +:+
      String.concat "" (line <$> rows)
  end.

(** ** Documents and the drill-down *)

Section Group.
Context (format_rfc3339 : SystemTime -> option string).

Definition group_json (selector : Z) (g : UnknownGroup) (near_miss_cap : option nat) : Json :=
  let near_misses := take (default (length (ug_near_misses g)) near_miss_cap) (ug_near_misses g) in
  json_obj
    [("selector", J_Num selector);
     ("predecessor", J_Str (predecessor (ug_key g)));
     ("route", json_opt (fun r => J_Str (RouteId_to_string r)) (uk_route (ug_key g)));
     ("kind", J_Str (kind_json_key (ug_key g)));
     ("count", J_Num (ug_count g));
     ("bytes_total", J_Num (bytes_total g));
     ("bytes_min", J_Num (bytes_min g));
     ("bytes_max", J_Num (bytes_max g));
     ("first_seen", J_Str (rfc3339 format_rfc3339 (ug_first_seen g)));
     ("last_seen", J_Str (rfc3339 format_rfc3339 (ug_last_seen g)));
     ("near_misses", J_Arr ((fun e : ProtocolName * Z => json_obj [("protocol", J_Str e.1); ("score", J_Num e.2)]) <$>
                              near_misses));
     ("endpoints_overflow", J_Bool (endpoints_overflow g))].

Definition table_json (snap : AggregatorSnapshot) (top min_count : Z) : Json :=
  json_obj [("pktflow", J_Num 1);
            ("groups", J_Arr (imap (fun i g => group_json (Z.of_nat i + 1) g (Some TABLE_NEAR_MISS_CAP))
                                (visible_groups snap top min_count)))].

Definition drilldown_json (selector : Z) (group : UnknownGroup) : Json :=
  json_obj [("pktflow", J_Num 1); ("groups", J_Arr [group_json selector group None])].

(** [{:x?}] of a byte slice. *)
Definition hex_debug (bytes : list Z) : string := "[" +:+ join ", " (hex_min <$> bytes) +:+ "]".

Definition sample_block (i : nat) (sample : list Z) : string :=
  "  sample " +:+ show_Z (Z.of_nat i + 1) +:+ ": " +:+ show_Z (blen sample) +:+ " bytes" +:+ newline +:+
  String.concat "" ((fun line => "    " +:+ line +:+ newline) <$> hex_dump_lines sample).

Definition drilldown_text (selector : Z) (g : UnknownGroup) (samples_arg : Z) (full_samples : bool) : string :=
  let show_n := if full_samples then blen (samples g) else Z.min samples_arg (blen (samples g)) in
  "#" +:+ show_Z selector +:+ "  " +:+ context_str (ug_key g) +:+ "   " +:+ kind_str (ug_key g) +:+ newline +:+
  "count     " +:+ thousands (ug_count g) +:+ newline +:+
  "bytes     total " +:+ human_bytes (bytes_total g) +:+ "  min " +:+ human_bytes (bytes_min g) +:+ "  max " +:+
  human_bytes (bytes_max g) +:+ newline +:+
  "seen      first " +:+ rfc3339 format_rfc3339 (ug_first_seen g) +:+ "  last " +:+
  rfc3339 format_rfc3339 (ug_last_seen g) +:+ newline +:+
  (match endpoints g with
   | [] => "endpoints (none retained)" +:+ newline
   | es =>
       "endpoints" +:+ (if endpoints_overflow g then " (≥64 distinct)" else "") +:+ newline +:+
       String.concat "" ((fun e => "  " +:+ ep_protocol e +:+ " " +:+ hex_debug (ep_key e) +:+ newline) <$> es)
   end) +:+
  (match ug_near_misses g with
   | [] => "near misses (none)" +:+ newline
   | ms =>
       "near misses" +:+ newline +:+
       String.concat "" ((fun e : ProtocolName * Z => "  " +:+ e.1 +:+ "(" +:+ show_Z e.2 +:+ ")" +:+ newline) <$> ms)
   end) +:+
  (match samples g with
   | [] => "samples   (none retained)" +:+ newline
   | ss =>
       "samples   (" +:+ show_Z show_n +:+ " of " +:+ show_Z (blen ss) +:+ " retained)" +:+ newline +:+
       String.concat "" (imap sample_block (take (Z.to_nat show_n) ss)) +:+
       (if (show_n <? blen ss)%Z
        then "  … " +:+ show_Z (blen ss - show_n) +:+ " more retained sample(s) not shown (--full-samples to show all)" +:+
             newline
        else "")
   end).
End Group.

(** ** Export *)

(** [s.chars()], each character with its bytes; a lead byte tells the length. *)
Definition char_len (lead : Z) : nat :=
  (if (lead <? 0x80)%Z then 1 else if (lead <? 0xE0)%Z then 2 else if (lead <? 0xF0)%Z then 3 else 4)%nat.

Definition is_ascii_alphanumeric (b : Z) : bool := is_digit b || in_range 65 90 b || in_range 97 122 b.

(** One character each, so one underscore for all the bytes of a character. *)
Definition slug_bytes (bytes : list Z) : list Z :=
  (fun b => if is_ascii_alphanumeric b then b else 95) <$> filter (fun b => in_range 0x80 0xBF b = false) bytes.

Definition slug_for (key : UnknownKey) : string :=
  let route := match uk_route key with Some r => RouteId_to_string r | None => "no_heuristic_winner" end in
  text_of (slug_bytes (str_bytes (predecessor key +:+ "-" +:+ route))).

Definition Files : Type := gmap string (list Z).

(** What a call into the file system does: succeed, or fail with an error and, for
    a write, with something left in the file. *)
Inductive FsOutcome := Fs_Ok | Fs_Fail (leftover : option (list Z)) (message : string).

Definition next_fs (io : list FsOutcome) : FsOutcome * list FsOutcome :=
  match io with [] => (Fs_Ok, []) | o :: io' => (o, io') end.

(** [Path::join]: an absolute path replaces the base, and no separator is doubled. *)
Definition path_join (dir file : string) : string :=
  match strip_prefix "/" file, reverse (str_bytes dir) with
  | Some _, _ | None, [] => file
  | None, 47%Z :: _ => dir +:+ file
  | None, _ => dir +:+ "/" +:+ file
  end.

(** [std::fs::write]. *)
Definition fs_write (path : string) (data : list Z) (o : FsOutcome) (files : Files) : result unit CliError * Files :=
  match o with
  | Fs_Ok => (Ok tt, <[path := data]> files)
  | Fs_Fail None message => (Error (Cli_Io message), files)
  | Fs_Fail (Some leftover) message => (Error (Cli_Io message), <[path := leftover]> files)
  end.

Definition sample_file (slug : string) (i : nat) : string := slug +:+ "-" +:+ show_Z (Z.of_nat i + 1) +:+ ".bin".

(** The loop over the samples, at the [i]-th. *)
Fixpoint write_samples (dir slug : string) (i : nat) (l : list (list Z)) (io : list FsOutcome) (files : Files)
    : result unit CliError * list FsOutcome * Files :=
  match l with
  | [] => (Ok tt, io, files)
  | sample :: rest =>
      let '(o, io) := next_fs io in
      match fs_write (path_join dir (sample_file slug i)) sample o files with
      | (Error e, files) => (Error e, io, files)
      | (Ok _, files) => write_samples dir slug (S i) rest io files
      end
  end.

Section Exporting.
(** [serde_json::to_string_pretty], which fails with a message. *)
Context (to_string_pretty : Json -> result (list Z) string).

Definition manifest (group : UnknownGroup) (source : string) : Json :=
  let slug := slug_for (ug_key group) in
  json_obj
    [("pktflow", J_Num 1);
     ("key", json_obj [("predecessor", J_Str (predecessor (ug_key group)));
                       ("route", json_opt (fun r => J_Str (RouteId_to_string r)) (uk_route (ug_key group)))]);
     ("source", J_Str source);
     ("count", J_Num (ug_count group));
     ("bytes_min", J_Num (bytes_min group));
     ("bytes_max", J_Num (bytes_max group));
     ("samples", J_Arr (imap (fun i sample => json_obj [("file", J_Str (sample_file slug i)); ("bytes", J_Num (blen sample))])
                          (samples group)))].

Definition export_group (group : UnknownGroup) (dir source : string) (io : list FsOutcome) (files : Files)
    : result string CliError * Files :=
  let '(created, io) := next_fs io in
  match created with
  | Fs_Fail _ message => (Error (Cli_Io message), files)
  | Fs_Ok =>
      match write_samples dir (slug_for (ug_key group)) 0 (samples group) io files with
      | (Error e, _, files) => (Error e, files)
      | (Ok _, io, files) =>
          let manifest_path := path_join dir "manifest.json" in
          match to_string_pretty (manifest group source) with
          | Error e => (Error (Internal ("manifest serialization: " +:+ e)), files)
          | Ok text =>
              match fs_write manifest_path text (fst (next_fs io)) files with
              | (Error e, files) => (Error e, files)
              | (Ok _, files) => (Ok manifest_path, files)
              end
          end
      end
  end.
End Exporting.

(** ** scaffold.rs *)

Section Scaffold.
Context `{Env : ViewEnv} (str_debug : string -> string).

(** [name.split(['_', '-'])], without the empty parts. *)
Fixpoint name_parts (cur : list Z) (bytes : list Z) : list (list Z) :=
  let done := match cur with [] => [] | _ => [cur] end in
  match bytes with
  | [] => done
  | b :: rest => if (b =? 95)%Z || (b =? 45)%Z then (done ++ name_parts [] rest)%list else name_parts (cur ++ [b]) rest
  end.

Definition capitalize (part : list Z) : string :=
  match part with
  | [] => ""
  | lead :: _ =>
      let n := char_len lead in to_uppercase (text_of (take n part)) +:+ text_of (drop n part)
  end.

Definition pascal_case (name : string) : string := String.concat "" (capitalize <$> name_parts [] (str_bytes name)).

Definition quote : string := String (char_of 34) "".

Definition route_literal (route : RouteId) : string :=
  match route with
  | LinkType id => "RouteId::LinkType(" +:+ show_Z id +:+ ")"
  | EtherType id => "RouteId::EtherType(0x" +:+ hex_padded 4 id +:+ ")"
  | IpProtocol id => "RouteId::IpProtocol(" +:+ show_Z id +:+ ")"
  | UdpPort id => "RouteId::UdpPort(" +:+ show_Z id +:+ ")"
  | TcpPort id => "RouteId::TcpPort(" +:+ show_Z id +:+ ")"
  | Custom space id => "RouteId::Custom { space: " +:+ str_debug space +:+ ", id: " +:+ show_Z id +:+ " }"
  end.

(** The [claims] of the template. *)
Definition template_claims : string :=
  "&[RouteId::Custom {" +:+ newline +:+ "            space: " +:+ quote +:+ "pktt" +:+ quote +:+ "," +:+ newline +:+
  "            id: 0," +:+ newline +:+ "        }]".

Definition render_plugin_source (template_src name : string) (group : option UnknownGroup) : string :=
  let out := replace "Template" (pascal_case name) template_src in
  let out := replace (quote +:+ "template" +:+ quote) (str_debug name) out in
  match group with
  | None => out
  | Some g =>
      let out := match uk_route (ug_key g) with
                 | Some route => replace template_claims ("&[" +:+ route_literal route +:+ "]") out
                 | None => out
                 end in
      match samples g with
      | [] => out
      | sample :: _ =>
          let hex := join newline ((fun l => "//! `" +:+ l +:+ "`") <$> hex_dump_lines sample) in
          "//! Scaffolded from an observed unknown occurrence (`pktflow unknown --scaffold`, 10.3). " +:+
          "First retained sample:" +:+ newline +:+ hex +:+ newline +:+ "//!" +:+ newline +:+ out
      end
  end.

(** The first outcome is that of reading the template; whether a file exists is
    whether the map has it. *)
Definition scaffold_plugin (dir name : string) (group : option UnknownGroup) (io : list FsOutcome) (files : Files)
    : result string CliError * Files :=
  let template_path := path_join dir "template.rs" in
  let '(read, io) := next_fs io in
  let missing message := Error (Internal ("read " +:+ template_path +:+ ": " +:+ message)) in
  match read, files !! template_path with
  | Fs_Fail _ message, _ => (missing message, files)
  | Fs_Ok, None => (missing "No such file or directory (os error 2)", files)
  | Fs_Ok, Some template =>
      match str_from_utf8 template with
      | None => (missing "stream did not contain valid UTF-8", files)
      | Some template_src =>
        let target := path_join dir (name +:+ ".rs") in
        if bool_decide (is_Some (files !! target)) then
          (Error (Usage (target +:+ " already exists — --scaffold never overwrites")), files)
        else
          let source := render_plugin_source template_src name group in
          match fs_write target (str_bytes source) (fst (next_fs io)) files with
          | (Error e, files) => (Error e, files)
          | (Ok _, files) => (Ok target, files)
          end
      end
  end.
End Scaffold.
