(* ===== verification/Ui.v ===== *)
(** * Drawing the terminal's frames

    Models [crates/pktflow-tui/src/ui.rs]: what one frame of the full-screen
    session hands to [ratatui], the text and style of every widget and the
    rectangle it goes to, and what drawing assigns to the application's state;
    with the turn of [lib.rs]'s event loop that draws it.

    A widget is the data the program builds; [ratatui]'s layout solver ([split])
    is a parameter, and turning widgets into terminal cells is its own.  Drawing
    reads the snapshot through the view index, so it is a request on it; [None] is
    a panic. *)

From Stdlib Require Import SpecFloat.
From S2P Require Import Prelude Values Bytes Types Contract Samples Rollups Unknowns Engine Arena Store StoreInv Queries.
From S2P Require Import StoreKeys StoreHeaps StoreIngest StoreProps Text Fmt StreamView Query QueryLex ViewIndex Tree App AppProps.
From S2P Require Import Hub Json WebApi Views UnknownView.
Local Open Scope string_scope.

(** ** What [ratatui] is handed *)

Inductive Color :=
  | C_Black | C_Red | C_Green | C_Yellow | C_Blue | C_Magenta | C_Cyan | C_White
  | C_DarkGray | C_LightRed | C_LightGreen | C_LightMagenta
  | C_Rgb (r g b : Z).

Inductive Modifier := M_Bold | M_Dim.

Record Style := mkStyle { sy_fg : option Color; sy_bg : option Color; sy_modifiers : list Modifier }.

Definition Style_new : Style := mkStyle None None [].
Definition fg (c : Color) (s : Style) : Style := mkStyle (Some c) (sy_bg s) (sy_modifiers s).
Definition bg (c : Color) (s : Style) : Style := mkStyle (sy_fg s) (Some c) (sy_modifiers s).
Definition add_modifier (m : Modifier) (s : Style) : Style := mkStyle (sy_fg s) (sy_bg s) (sy_modifiers s ++ [m])%list.

Definition colored (c : Color) : Style := fg c Style_new.
Definition bold (s : Style) : Style := add_modifier M_Bold s.

Record Span := mkSpan { sp_content : string; sp_style : Style }.

(** [Span::raw]. *)
Definition raw (s : string) : Span := mkSpan s Style_new.

Inductive Line := Line_raw (s : string) | Line_from (spans : list Span) | Line_right (s : string).

(** The text of a paragraph or a cell: of a string, or of lines. *)
Inductive RichText := Text_raw (s : string) | Text_lines (lines : list Line).

Definition cell_span (s : Span) : RichText := Text_lines [Line_from [s]].

(** All borders, in a style, with a title. *)
Record Block := mkBlock { bk_border : Style; bk_title : option Span }.

Inductive Constraint := Length (n : Z) | Min (n : Z) | Fill (n : Z) | Percentage (n : Z).
Inductive Direction := Vertical | Horizontal.
Record Rect := mkRect { rc_x : Z; rc_y : Z; rc_width : Z; rc_height : Z }.

Record Paragraph := mkParagraph {
  pg_text : RichText;
  pg_style : Style;
  pg_right : bool;
  pg_wrap : bool;
  pg_scroll : Z;
  pg_block : option Block;
}.

Record Table := mkTable {
  tb_rows : list (list RichText);
  tb_widths : list Constraint;
  tb_header : option (list string * Style);
  tb_highlight : Style;
  tb_block : Block;
  tb_selected : option Z;
}.

Record Tabs := mkTabs {
  tabs_titles : list string; tabs_select : Z; tabs_highlight : Style; tabs_style : Style; tabs_divider : string }.

Inductive Widget := W_Clear | W_Paragraph (p : Paragraph) | W_Table (t : Table) | W_Tabs (t : Tabs).

(** What was rendered, in order. *)
Abbreviation Frame := (list (Rect * Widget)) (only parsing).

Definition Paragraph_new (t : RichText) : Paragraph := mkParagraph t Style_new false false 0 None.

(** ** Numbers *)

(** [iter().max()] and [iter().min()]. *)
Definition iter_max (l : list Z) : option Z :=
  match l with [] => None | x :: rest => Some (foldl Z.max x rest) end.
Definition iter_min (l : list Z) : option Z :=
  match l with [] => None | x :: rest => Some (foldl Z.min x rest) end.

(** [f64::max]. *)
Definition f64_max (x y : spec_float) : spec_float :=
  match x, y with
  | S754_nan, _ => y
  | _, S754_nan => x
  | _, _ => if f64_ltb x y then y else x
  end.

(** [x.floor() as usize] and the like, [round] taking a fraction to an integer;
    the cast saturates. *)
Definition to_usize (round : Z -> Z -> Z) (x : spec_float) : Z :=
  match x with
  | S754_finite neg m e =>
      let '(n, d) := ratio_of m e in
      clamp 0 usize_max (round (if neg then (- n)%Z else n) (Zpos d))
  | S754_infinity false => usize_max
  | _ => 0
  end.
Definition floor (n d : Z) : Z := (n / d)%Z.
Definition ceil (n d : Z) : Z := (- (- n / d))%Z.
(** Halves go away from zero; what is negative is cast to zero either way. *)
Definition round_half_up (n d : Z) : Z := ((2 * n + d) / (2 * d))%Z.

(** [Duration::from_secs_f64] in nanoseconds, the nearest, ties to even: negative,
    not finite or [2^64] seconds is a panic. *)
Definition from_secs_f64 (x : spec_float) : option Z :=
  match x with
  | S754_zero _ => Some 0%Z
  | S754_finite false m e =>
      let '(n, d) := ratio_of m e in
      let nanos := round_half_even (n * 1000000000) (Zpos d) in
      if (nanos / 1000000000 <=? u64_max)%Z then Some nanos else None
  | _ => None
  end.

(** [SystemTime + Duration]: seconds beyond [i64] are a panic. *)
Definition system_time_add (t d : Z) : option Z :=
  if ((t + d) / 1000000000 <=? i64_max)%Z then Some (t + d)%Z else None.

(** [s.repeat(n)]. *)
Fixpoint repeat (s : string) (n : nat) : string := match n with O => "" | S n' => s +:+ repeat s n' end.

(** ** Colors and bars *)

Definition ACCENT : Color := C_Cyan.
Definition DIM : Color := C_DarkGray.

Definition PALETTE : list Color :=
  [C_Cyan; C_Green; C_Yellow; C_Magenta; C_Blue; C_LightRed; C_LightGreen; C_LightMagenta].

Definition proto_hash (name : string) : Z := foldl (fun h b => (h * 31 + b) mod 2 ^ 64)%Z 0%Z (str_bytes name).

Definition proto_color (name : string) : Color :=
  default C_Cyan (PALETTE !! Z.to_nat (proto_hash name mod 8)).

Definition BARS : list string := ["▁"; "▂"; "▃"; "▄"; "▅"; "▆"; "▇"; "█"].

(** [v * 7] is computed in [u64]; [BARS[i]] panics out of range. *)
Definition spark_bar (max v : Z) : option string :=
  if (v * 7 <=? u64_max)%Z then BARS !! Z.to_nat (v * 7 / max) else None.

Definition spark_str (values : list Z) : option string :=
  let max := Z.max 1 (default 0%Z (iter_max values)) in
  String.concat "" <$> mapM (spark_bar max) values.

(** The quotient is cast from [u128]. *)
Definition bar_filled (numer denom width : Z) : Z :=
  Z.min width ((numer * width / Z.max 1 denom) mod 2 ^ 64).

Definition bar_str (numer denom width : Z) : string :=
  let filled := bar_filled numer denom width in
  repeat "█" (Z.to_nat filled) +:+ repeat "░" (Z.to_nat (width - filled)).

(** ** Lines of detail *)

Definition kv (key value : string) : Line :=
  Line_from [mkSpan (pad_left_of 10 key) (colored DIM); raw value].

Definition heading (s : string) : Line := Line_from [mkSpan s (bold (colored ACCENT))].

Definition bordered (c : Color) (title : option Span) : Block := mkBlock (colored c) title.

Definition highlight_row : Style := bg (C_Rgb 40 48 60) Style_new.

Definition arrow_of (dir : PacketDirection) : string := match dir with AtoB => "▲" | BtoA => "▼" end.

(** A field of the rollup section: its name dimmed, then the rest. *)
Definition field_line (field : string) (rest : list Span) : Line :=
  Line_from (mkSpan ("  " +:+ field +:+ "  ") (colored DIM) :: rest).

(** [numeric]: every value of the ring is a number that fits [u64]. *)
Definition numeric (ring : list SeriesPoint) : option (list Z) := mapM (fun p => get_u64 (point_value p)) ring.

Section Detail.
Context `{Env : ViewEnv}.

Definition tail_point (base : SystemTime) (protocol field : string) (p : SeriesPoint) : string :=
  time_of_day (point_ts p base) +:+ " " +:+ arrow_of (point_dir p) +:+ " " +:+
  field_value_str protocol field (point_value p).

(** The line a rollup adds. *)
Definition rollup_lines (base : SystemTime) (protocol field : string) (rollup : Rollup) : option Line :=
  match rollup with
  | Accumulate values count overflow =>
      let rendered := field_value_str protocol field <$> values in
      let marker := if overflow then " ≥cap" else "" in
      Some (field_line field
        [raw ("{" +:+ join ", " rendered +:+ "}  (" +:+ show_Z (blen values) +:+ " distinct / " +:+ thousands count +:+
              " obs" +:+ marker +:+ ")")])
  | Sample first last =>
      let render v := from_option (field_value_str protocol field) "—" v in
      Some (field_line field [raw (render first +:+ " → " +:+ render last +:+ "  (first → last)")])
  | Series ring _ truncated =>
      let marker := if truncated then " (truncated)" else "" in
      match numeric ring with
      | Some (v :: vs) =>
          let vals := v :: vs in
          spark ← spark_str (last_n 40 vals);
          Some (field_line field
            [mkSpan spark (colored ACCENT);
             raw ("  " +:+ show_Z (blen ring) +:+ " pts  min " +:+ show_Z (default 0%Z (iter_min vals)) +:+ "  max " +:+
                  show_Z (default 0%Z (iter_max vals)) +:+ marker)])
      | _ =>
          let tail := tail_point base protocol field <$> last_n 5 ring in
          Some (field_line field [raw (show_Z (blen ring) +:+ " pts" +:+ marker +:+ " · " +:+ join " · " tail)])
      end
  end.

Definition state_span (state : StateName) : Span := mkSpan ("  [" +:+ state +:+ "]") (colored C_Yellow).

(** The head of the detail pane. *)
Definition detail_head (s : Stream) : Line :=
  let endpoints := endpoints_str s in
  Line_from
    (mkSpan (st_protocol s +:+ " #" +:+ show_Z (created_seq s)) (bold (colored (proto_color (st_protocol s)))) ::
     (if String.eqb endpoints "" then [] else [raw ("  " +:+ endpoints)]) ++
     match state s with Some st => [state_span st] | None => [] end)%list.

(** One direction's share of the bytes. *)
Definition direction_line (total : Z) (st : DirStats) (arrow side : string) : Line :=
  let label := if String.eqb side "" then arrow else arrow +:+ " " +:+ side in
  Line_from
    [mkSpan "          " Style_new;
     mkSpan (bar_str (st_bytes st) total 12) (colored ACCENT);
     raw (" " +:+ label +:+ "  " +:+ thousands (st_packets st) +:+ " pkts / " +:+ human_bytes (st_bytes st))].

Definition state_lines (s : Stream) : list Line :=
  match state s, closed s with
  | Some st, reason => [kv "state" (st +:+ "   (closed: " +:+ from_option close_reason_str "—" reason +:+ ")")]
  | None, Some reason => [kv "closed" (close_reason_str reason)]
  | None, None => []
  end.

Definition detail_lines (s : Stream) (ids : gmap StreamId Stream) : option (list Line) :=
  let lineage := lineage_str s ids in
  let '(a, b, _) := endpoint_sides s in
  let total := total_bytes s in
  let duration := sat_sub (last_seen s) (first_seen s) in
  let chains := (fun c => child_chain_str c ids) <$> omap (fun id => ids !! id) (children s) in
  rollups ← mapM (fun e => rollup_lines (first_seen s) (st_protocol s) e.1 e.2) (st_rollups s);
  Some
    ([detail_head s; Line_raw ""] ++
     (if String.eqb lineage "" then [] else [kv "lineage" (lineage +:+ " ▸ this")]) ++
     [kv "timing" ("first " +:+ time_of_day (first_seen s) +:+ "  last " +:+ time_of_day (last_seen s) +:+ "  (" +:+
                   human_duration duration +:+ ")");
      kv "totals" (thousands (total_packets s) +:+ " pkts / " +:+ human_bytes (total_bytes s));
      direction_line total (stats s).1 "▲" a;
      direction_line total (stats s).2 "▼" b] ++
     (if String.eqb a "" then []
      else [kv "initiator" (match initiator s with
                            | AtoB => "A (" +:+ a +:+ ")"
                            | BtoA => "B (" +:+ b +:+ ")"
                            end)]) ++
     state_lines s ++
     (if (0 <? opaque_bytes s)%Z
      then [kv "opaque" (thousands (opaque_bytes s) +:+ " unparsed payload bytes")] else []) ++
     (match st_rollups s with [] => [] | _ => Line_raw "" :: heading "rollups" :: rollups end) ++
     (match chains with
      | [] => []
      | _ => Line_raw "" :: heading ("children (" +:+ show_Z (blen chains) +:+ ")") ::
             ((fun chain => Line_raw ("  " +:+ chain)) <$> chains)
      end))%list.

(** ** Rows of the Streams tab *)

Definition stream_table_row (r : TreeRow) : list RichText :=
  let s := tr_stream r in
  let fold := if tr_has_children r then if tr_expanded r then "▾ " else "▸ " else "  " in
  let endpoints := endpoints_str s in
  let duration := sat_sub (last_seen s) (first_seen s) in
  [Text_lines [Line_from
     ([mkSpan (tr_prefix r) (colored DIM);
       mkSpan fold (colored DIM);
       mkSpan (st_protocol s) (bold (colored (proto_color (st_protocol s))));
       mkSpan (" #" +:+ show_Z (created_seq s)) (colored DIM)] ++
      (if String.eqb endpoints "" then [] else [raw ("  " +:+ endpoints)]) ++
      (match condensed_marker s with Some marker => [mkSpan ("  " +:+ marker) (colored ACCENT)] | None => [] end) ++
      (match state s with Some st => [state_span st] | None => [] end) ++
      (match closed s with Some _ => [mkSpan "  ✕" (colored DIM)] | None => [] end))%list];
   Text_lines [Line_right (thousands (total_packets s))];
   Text_lines [Line_right (human_bytes (total_bytes s))];
   Text_lines [Line_right (human_duration duration)]].

(** ** Lanes of the Timeline tab *)

Definition TRACK : Style := colored (C_Rgb 45 45 43).
Definition PLAYHEAD : Style := bold (colored C_White).

(** [push_run]: the columns [from..to] of one character. *)
Definition push_run (from to : Z) (ch : string) (style : Style) : list Span :=
  if (from <? to)%Z then [mkSpan (repeat ch (Z.to_nat (to - from))) style] else [].

(** A segment with the playhead laid over it. *)
Definition lane_segment (bar_w t_col from to : Z) (ch : string) (style : Style) : list Span :=
  let from := Z.min from bar_w in
  let to := Z.min to bar_w in
  if (from <=? t_col)%Z && (t_col <? to)%Z then
    (push_run from t_col ch style ++
     [mkSpan (if String.eqb ch "█" then "┃" else "│") PLAYHEAD] ++
     push_run (t_col + 1) to ch style)%list
  else push_run from to ch style.

(** The time track: bar from column [x0] to [x1], the rest empty. *)
Definition lane_spans (bar_w t_col x0 x1 : Z) (bar_style : Style) : list Span :=
  (lane_segment bar_w t_col 0 x0 "·" TRACK ++
   lane_segment bar_w t_col x0 (x1 + 1) "█" bar_style ++
   lane_segment bar_w t_col (x1 + 1) bar_w "·" TRACK)%list.

(** Where a time lies in the span, of 1. *)
Definition lane_frac (span_start : SystemTime) (span_secs : spec_float) (ts : SystemTime) : spec_float :=
  f64_clamp f64_zero f64_one (f64_div (Query.as_secs_f64 (sat_sub ts span_start)) span_secs).

Definition lane_x0 (span_start : SystemTime) (span_secs : spec_float) (bar_w : Z) (s : Stream) : Z :=
  to_usize floor (f64_mul (lane_frac span_start span_secs (first_seen s)) (f64_of_Z (bar_w - 1))).

Definition lane_x1 (span_start : SystemTime) (span_secs : spec_float) (bar_w : Z) (s : Stream) : Z :=
  Z.max (to_usize ceil (f64_mul (lane_frac span_start span_secs (last_seen s)) (f64_of_Z (bar_w - 1))))
    (lane_x0 span_start span_secs bar_w s).

(** Unborn, finished or active at the playhead. *)
Definition lane_style (playhead : SystemTime) (s : Stream) : Style :=
  if (playhead <? first_seen s)%Z then colored (C_Rgb 70 70 70)
  else if (last_seen s <? playhead)%Z then add_modifier M_Dim (colored (proto_color (st_protocol s)))
  else bold (colored (proto_color (st_protocol s))).

Definition lane_label (r : TreeRow) : string :=
  let s := tr_stream r in
  let endpoints := endpoints_str s in
  repeat " " (char_count (tr_prefix r) / 3) +:+ st_protocol s +:+ " #" +:+ show_Z (created_seq s) +:+
  (if String.eqb endpoints "" then "" else "  " +:+ endpoints).

Definition timeline_lane (span_start : SystemTime) (span_secs : spec_float) (bar_w t_col : Z)
    (playhead : SystemTime) (r : TreeRow) : list RichText :=
  let s := tr_stream r in
  [cell_span (mkSpan (lane_label r) (colored (proto_color (st_protocol s))));
   Text_lines [Line_from
     (lane_spans bar_w t_col (lane_x0 span_start span_secs bar_w s) (lane_x1 span_start span_secs bar_w s)
        (lane_style playhead s))]].

(** The length of the span in seconds, and the time the playhead is at. *)
Definition span_seconds (span : SystemTime * SystemTime) : spec_float :=
  f64_max (Query.as_secs_f64 (sat_sub span.2 span.1)) (f64_of_ratio false 1 1000).

Definition playhead_at (span : SystemTime * SystemTime) (t : spec_float) : option SystemTime :=
  d ← from_secs_f64 (f64_mul (span_seconds span) t); system_time_add span.1 d.
End Detail.

(** ** Unknown traffic *)

Definition unknown_context (g : UnknownGroup) : string :=
  match uk_route (ug_key g) with
  | Some route => predecessor (ug_key g) +:+ " → " +:+ RouteId_to_string route
  | None => predecessor (ug_key g)
  end.

Definition unknown_kind (g : UnknownGroup) : string :=
  match uk_route (ug_key g) with Some _ => "unclaimed route" | None => "no heuristic winner" end.

Definition unknown_row (i : nat) (g : UnknownGroup) : list RichText :=
  let near := (fun e : ProtocolName * Z => e.1 +:+ "(" +:+ show_Z e.2 +:+ ")") <$> take 3 (ug_near_misses g) in
  [Text_raw ("#" +:+ show_Z (Z.of_nat i + 1));
   cell_span (mkSpan (unknown_context g) (colored C_Yellow));
   Text_raw (unknown_kind g);
   Text_lines [Line_right (thousands (ug_count g))];
   Text_lines [Line_right (human_bytes (bytes_total g))];
   Text_raw (join " · " near)].

(** ** Drawing *)

Record HubStatus := mkStatus {
  hs_source : string;
  hs_mode : string;
  hs_finished : bool;
  hs_error : option string;
  hs_paused : bool;
}.

Section Draw.
Context `{Env : ViewEnv}.
(** [Layout::areas]: the [i]-th of the areas the constraints split [area] into. *)
Context (split : Direction -> list Constraint -> Rect -> nat -> Rect).

Definition centered (area : Rect) (percent_x percent_y : Z) : Rect :=
  let around p := [Percentage ((100 - p) / 2); Percentage p; Percentage ((100 - p) / 2)] in
  split Horizontal (around percent_x) (split Vertical (around percent_y) area 1%nat) 1%nat.

Definition draw_header (area : Rect) (snap : AggregatorSnapshot) (status : HubStatus) : Frame :=
  let badge :=
    match String.eqb (hs_mode status) "live", hs_finished status with
    | true, false => mkSpan " LIVE " (bg C_Red (colored C_Black))
    | true, true => mkSpan " ENDED " (bg DIM (colored C_Black))
    | false, false => mkSpan " READING " (bg C_Yellow (colored C_Black))
    | false, true => mkSpan " FILE " (bg ACCENT (colored C_Black))
    end in
  let s := sn_summary snap in
  let line := Line_from
    [mkSpan " pktflow " (bold (colored ACCENT));
     badge;
     raw " ";
     mkSpan (hs_source status) (bold Style_new);
     mkSpan ("   " +:+ thousands (sm_packets s) +:+ " pkts · " +:+ human_bytes (sm_bytes s) +:+ " · " +:+
             thousands (sm_streams_created s) +:+ " streams (" +:+ thousands (sm_streams_live s) +:+ " live)")
       (colored DIM);
     if hs_paused status then mkSpan "  ⏸ paused" (colored C_Yellow) else raw ""] in
  [(area, W_Paragraph (Paragraph_new (Text_lines [line])))].

Definition tab_number (t : Tab) : Z :=
  match t with Tab_Streams => 0 | Tab_Timeline => 1 | Tab_Unknown => 2 | Tab_Summary => 3 end.

Definition draw_tabs (area : Rect) (a : App) : Frame :=
  let at_ := split Horizontal [Min 30; Length 40] area in
  let info :=
    "sort: " +:+ Sort_label (app_sort a) +:+ " " +:+
    (if app_filter_editing a || negb (bool_decide (app_filter_text a = []))
     then " /" +:+ as_str (app_filter_text a) +:+ (if app_filter_editing a then "▌" else "") else "") in
  [(at_ 0%nat, W_Tabs (mkTabs ["[1] Streams"; "[2] Timeline"; "[3] Unknown"; "[4] Summary"] (tab_number (app_tab a))
                         (bold (colored ACCENT)) (colored DIM) " "));
   (at_ 1%nat, W_Paragraph (mkParagraph (Text_raw info) (colored DIM) true false 0 None))].

Definition tab_hints (t : Tab) : string :=
  match t with
  | Tab_Streams =>
      " ↑↓ move · ←→ fold · Enter toggle · / filter · s sort · e/c un/fold all · J/K detail · Tab tab · ? help · q quit"
  | Tab_Timeline =>
      " ←→ scrub · [ ] jump · Space play · ↑↓ lane · Enter open in Streams · / filter · Tab tab · q quit"
  | Tab_Unknown => " ↑↓ move · Enter drill-down · Tab tab · ? help · q quit"
  | Tab_Summary => " Tab tab · ? help · q quit"
  end.

Definition draw_footer (area : Rect) (a : App) (status : HubStatus) : Frame :=
  let text :=
    match hs_error status, app_query_error a with
    | Some err, _ => Line_from [mkSpan (" error: " +:+ err) (bold (colored C_Red))]
    | None, Some err =>
        Line_from [mkSpan (" query error: " +:+ err +:+ " — plain terms, /regex/, or field OP value") (colored C_Yellow)]
    | None, None =>
        if app_filter_editing a
        then Line_raw " query: text · /regex/ · proto==dns AND bytes>10k · Enter keep · Esc clear "
        else Line_from [mkSpan (tab_hints (app_tab a)) (colored DIM)]
    end in
  [(area, W_Paragraph (Paragraph_new (Text_lines [text])))].

(** A bordered note in place of a tab's body. *)
Definition note (area : Rect) (message : string) : Frame :=
  [(area, W_Paragraph (mkParagraph (Text_raw message) (colored DIM) false false 0 (Some (bordered DIM None))))].

Definition streams_table (rows : list TreeRow) (index : Z) : Table :=
  mkTable (stream_table_row <$> rows) [Fill 1; Length 11; Length 9; Length 9]
    (Some (["STREAM"; "PKTS"; "BYTES"; "DURATION"], bold (colored DIM))) (bold highlight_row)
    (bordered DIM (Some (mkSpan (" streams (" +:+ show_Z (blen rows) +:+ ") ") (colored ACCENT)))) (Some index).

(** The detail pane of the row selected. *)
Definition detail_pane (snap : AggregatorSnapshot) (scroll : Z) (row : option TreeRow) : option Paragraph :=
  let ids := by_id snap in
  detail ← match row with
           | Some r => Text_lines <$> detail_lines (tr_stream r) ids
           | None => Some (Text_raw "select a stream")
           end;
  let title :=
    match row with
    | Some r => " " +:+ st_protocol (tr_stream r) +:+ " #" +:+ show_Z (created_seq (tr_stream r)) +:+ " "
    | None => " detail "
    end in
  Some (mkParagraph detail Style_new false true scroll (Some (bordered DIM (Some (mkSpan title (colored ACCENT)))))).

(** [if let Some(row) = rows.get(index) { app.selected = Some(..) }]. *)
Definition reanchor (a : App) (row : option TreeRow) : App :=
  match row with Some r => set_selected (Some (created_seq (tr_stream r))) a | None => a end.

Definition draw_streams (area : Rect) (a : App) : request (App * Frame) :=
  let! rows := app_rows a in
  fun ix =>
    let snap := ix_snap ix in
    match rows with
    | [] =>
        let msg := if (sm_packets (sn_summary snap) =? 0)%Z then "waiting for packets…"
                   else "no streams match the filter" in
        Some ((a, note area msg), ix)
    | _ =>
        let index := selected_index a rows in
        let row := row_at rows index in
        let a := reanchor a row in
        let at_ := split Horizontal [Fill 3; Fill 2] area in
        detail ← detail_pane snap (app_detail_scroll a) row;
        Some ((a, [(at_ 0%nat, W_Table (streams_table rows index)); (at_ 1%nat, W_Paragraph detail)]), ix)
    end.

Definition timeline_axis (span : SystemTime * SystemTime) (playhead : SystemTime) (rows : list TreeRow) (playing : bool)
    : Line :=
  let active :=
    filter (fun r => (first_seen (tr_stream r) <=? playhead)%Z && (playhead <=? last_seen (tr_stream r))%Z = true) rows in
  Line_from
    [mkSpan (" " +:+ time_of_day span.1 +:+ " ") (colored DIM);
     mkSpan ("◀────  ▶ " +:+ time_of_day playhead +:+ "  ────▶") (bold (colored ACCENT));
     mkSpan ("  " +:+ time_of_day span.2 +:+ " ") (colored DIM);
     mkSpan ("   " +:+ show_Z (blen active) +:+ " active at playhead" +:+ (if playing then "   ▶ playing" else ""))
       (colored C_Yellow)].

Definition timeline_table (lanes : list (list RichText)) (label_w index : Z) : Table :=
  mkTable lanes [Length label_w; Fill 1] None highlight_row
    (bordered DIM (Some (mkSpan (" timeline (" +:+ show_Z (blen lanes) +:+ " lanes) ") (colored ACCENT)))) (Some index).

(** The columns of the track, and the one the playhead is in. *)
Definition track_width (lanes_area : Rect) (label_w : Z) : Z := Z.max 10 (sat_sub (rc_width lanes_area) (2 + label_w + 1)).
Definition playhead_col (bar_w : Z) (t : spec_float) : Z := to_usize round_half_up (f64_mul (f64_of_Z (bar_w - 1)) t).

Definition draw_timeline (area : Rect) (a : App) : request (App * Frame) :=
  let! rows := app_rows a in
  fun ix =>
    match capture_span (ix_snap ix), rows with
    | Some span, _ :: _ =>
        playhead ← playhead_at span (app_timeline_t a);
        let index := selected_index a rows in
        let a := reanchor a (row_at rows index) in
        let at_ := split Vertical [Length 1; Min 3] area in
        let label_w := Z.min 44 (rc_width area / 2) in
        let bar_w := track_width (at_ 1%nat) label_w in
        let t_col := playhead_col bar_w (app_timeline_t a) in
        let lanes := timeline_lane span.1 (span_seconds span) bar_w t_col playhead <$> rows in
        Some ((a, [(at_ 0%nat, W_Paragraph (Paragraph_new
                                (Text_lines [timeline_axis span playhead rows (app_timeline_playing a)])));
                   (at_ 1%nat, W_Table (timeline_table lanes label_w index))]), ix)
    | _, _ => Some ((a, note area "waiting for packets…"), ix)
    end.

Definition unknown_table (groups : list UnknownGroup) (index : Z) : Table :=
  mkTable (imap unknown_row groups) [Length 4; Fill 2; Length 20; Length 9; Length 9; Fill 2]
    (Some (["#"; "CONTEXT"; "KIND"; "COUNT"; "BYTES"; "NEAR MISSES"], bold (colored DIM))) (bold highlight_row)
    (bordered DIM (Some (mkSpan (" unknown traffic (" +:+ show_Z (blen groups) +:+ " groups) — Enter to drill in ")
                           (colored ACCENT)))) (Some index).

Definition draw_unknown (area : Rect) (a : App) (snap : AggregatorSnapshot) : App * Frame :=
  match sn_unknowns snap with
  | [] => (a, note area "no unknown protocols observed — every byte claimed 🎉")
  | groups =>
      let index := Z.min (app_unknown_index a) (blen groups - 1) in
      (set_unknown_index index a, [(area, W_Table (unknown_table groups index))])
  end.

(** The samples of a group, hex dumped. *)
Definition sample_lines (i : nat) (sample : list Z) : list Line :=
  Line_from [mkSpan ("  sample " +:+ show_Z (Z.of_nat i + 1) +:+ ": " +:+ show_Z (blen sample) +:+ " bytes")
               (colored C_Yellow)] ::
  ((fun hex => Line_raw ("    " +:+ hex)) <$> hex_dump_lines sample).

Definition near_miss_line (e : ProtocolName * Z) : Line :=
  Line_from [raw ("  " +:+ pad_left_of 12 e.1 +:+ " "); mkSpan (bar_str e.2 100 20) (colored C_Yellow);
             raw (" " +:+ show_Z e.2)].

Definition popup_lines (index : Z) (g : UnknownGroup) : list Line :=
  ([kv "context" (unknown_context g);
    kv "kind" (unknown_kind g);
    kv "count" (thousands (ug_count g));
    kv "bytes" ("total " +:+ human_bytes (bytes_total g) +:+ "  min " +:+ human_bytes (bytes_min g) +:+ "  max " +:+
                human_bytes (bytes_max g));
    kv "seen" ("first " +:+ time_of_day (ug_first_seen g) +:+ "  last " +:+ time_of_day (ug_last_seen g))] ++
   (match ug_near_misses g with
    | [] => [kv "near" "(none)"]
    | misses => Line_raw "" :: heading "near misses" :: (near_miss_line <$> misses)
    end) ++
   [Line_raw ""] ++
   (match samples g with
    | [] => [Line_from [mkSpan "samples (none retained)" (colored DIM)]]
    | ss => heading ("samples (" +:+ show_Z (blen ss) +:+ " retained)") :: concat (imap sample_lines ss)
    end) ++
   [Line_raw "";
    Line_from [mkSpan ("scaffold a plugin: pktflow unknown -r <capture> '#" +:+ show_Z (index + 1) +:+
                       "' --scaffold <name>") (colored DIM)]])%list.

Definition draw_unknown_popup (area : Rect) (a : App) (snap : AggregatorSnapshot) : Frame :=
  match sn_unknowns snap !! Z.to_nat (app_unknown_index a) with
  | None => []
  | Some g =>
      let index := app_unknown_index a in
      let area := centered area 84 80 in
      let title := mkSpan (" unknown #" +:+ show_Z (index + 1) +:+ " — Esc to close ") (bold (colored C_Yellow)) in
      [(area, W_Clear);
       (area, W_Paragraph (mkParagraph (Text_lines (popup_lines index g)) Style_new false false (app_popup_scroll a)
                             (Some (bordered C_Yellow (Some title)))))]
  end.

(** *** The Summary tab *)

(** [{class:?}]. *)
Definition stop_class_debug (class : StopClass) : string :=
  match class with
  | Clean => "Clean"
  | UnknownPayload => "UnknownPayload"
  | Malformed => "Malformed"
  | Suspicious => "Suspicious"
  end.

Definition capture_totals (s : AggregateSummary) : list Line :=
  let classes :=
    (fun e : StopClass * Z => stop_class_debug e.1 +:+ " " +:+ thousands e.2) <$>
      filter (fun e : StopClass * Z => (0 <? e.2)%Z = true) (sm_stop_classes s) in
  ([kv "packets" (thousands (sm_packets s));
    kv "bytes" (human_bytes (sm_bytes s));
    kv "streams" (thousands (sm_streams_created s) +:+ " created · " +:+ thousands (sm_streams_live s) +:+ " live")] ++
   (match classes with [] => [] | _ => [kv "dissect" (join " · " classes)] end) ++
   (if (0 <? sm_key_errors s)%Z then [kv "key errs" (thousands (sm_key_errors s))] else []))%list.

(** [*entry(stream.protocol).or_insert(0) += total_bytes(stream)]. *)
Definition bytes_by_proto (streams : list Stream) : gmap string Z :=
  foldl (fun m s => <[st_protocol s := (default 0 (m !! st_protocol s) + total_bytes s)%Z]> m) ∅ streams.

Definition protocol_row (bytes_of : gmap string Z) (max_bytes : Z) (p : ProtocolCounts) : list RichText :=
  let bytes := default 0%Z (bytes_of !! pc_protocol p) in
  let color := proto_color (pc_protocol p) in
  [cell_span (mkSpan (pc_protocol p) (bold (colored color)));
   Text_lines [Line_right (thousands (pc_ever p))];
   Text_lines [Line_right (thousands (pc_live p))];
   Text_lines [Line_right (human_bytes bytes)];
   cell_span (mkSpan (bar_str bytes max_bytes 30) (colored color))].

Definition draw_summary (area : Rect) (snap : AggregatorSnapshot) : Frame :=
  let at_ := split Vertical [Length 6; Min 4] area in
  let s := sn_summary snap in
  let bytes_of := bytes_by_proto (sn_streams snap) in
  let max_bytes := default 1%Z (iter_max (snd <$> map_to_list bytes_of)) in
  let titled t := bordered DIM (Some (mkSpan t (colored ACCENT))) in
  [(at_ 0%nat, W_Paragraph (mkParagraph (Text_lines (capture_totals s)) Style_new false false 0
                              (Some (titled " capture totals "))));
   (at_ 1%nat, W_Table (mkTable (protocol_row bytes_of max_bytes <$> sm_per_protocol s)
                          [Length 12; Length 8; Length 8; Length 10; Fill 1]
                          (Some (["PROTOCOL"; "STREAMS"; "LIVE"; "BYTES"; ""], bold (colored DIM))) Style_new
                          (titled " per protocol ") None))].

(** *** Help, and the frame *)

Definition HELP_KEYS : list (string * string) :=
  [("q / Ctrl-C", "quit");
   ("1 / 2 / 3, Tab", "switch tab");
   ("↑↓ / j k", "move selection");
   ("← → / h l", "collapse / expand (h on leaf: jump to parent)");
   ("Enter / Space", "toggle fold");
   ("e / c", "expand all / collapse all");
   ("s", "cycle sort (bytes → packets → first-seen → duration)");
   ("/", "query filter — text, /regex/, AND/OR/NOT, field ops");
   ("", "  e.g. proto==dns AND bytes>10k · under==vxlan · port==443");
   ("J / K", "scroll the detail pane");
   ("p", "pause/resume live snapshot updates");
   ("←→ [ ] Space", "timeline: scrub · coarse jump · play/replay");
   ("g / G", "jump to top / bottom");
   ("?", "this help")].

Definition help_line (e : string * string) : Line :=
  Line_from [mkSpan ("  " +:+ pad_left_of 16 e.1) (bold (colored ACCENT)); raw e.2].

Definition draw_help (frame_area : Rect) : Frame :=
  let area := centered frame_area 60 70 in
  [(area, W_Clear);
   (area, W_Paragraph (mkParagraph (Text_lines (Line_raw "" :: (help_line <$> HELP_KEYS))) Style_new false false 0
            (Some (bordered ACCENT (Some (mkSpan " keys — any key to close " (bold (colored ACCENT))))))))].

(** The body of the tab open. *)
Definition draw_body (area : Rect) (a : App) : request (App * Frame) :=
  match app_tab a with
  | Tab_Streams => draw_streams area a
  | Tab_Timeline => draw_timeline area a
  | Tab_Unknown => fun ix => Some (draw_unknown area a (ix_snap ix), ix)
  | Tab_Summary => fun ix => Some ((a, draw_summary area (ix_snap ix)), ix)
  end.

(** The app after the frame, and the frame. *)
Definition draw (frame_area : Rect) (status : HubStatus) (a : App) : request (App * Frame) :=
  let at_ := split Vertical [Length 1; Length 1; Min 3; Length 1] frame_area in
  fun ix =>
    let snap := ix_snap ix in
    let top := (draw_header (at_ 0%nat) snap status ++ draw_tabs (at_ 1%nat) a)%list in
    (let! drawn := draw_body (at_ 2%nat) a in
     let '(a, body) := drawn in
     let footer := draw_footer (at_ 3%nat) a status in
     let popup := if app_unknown_open a then draw_unknown_popup frame_area a snap else [] in
     let help := if app_help a then draw_help frame_area else [] in
     reply (a, top ++ body ++ footer ++ popup ++ help)%list) ix.

(** ** The event loop, drawing *)

(** The terminal's size, and what the hub says of its source, at one turn. *)
Record Scene := mkScene { sc_area : Rect; sc_source : string; sc_mode : string; sc_finished : bool; sc_error : option string }.

Definition status_of (sc : Scene) (a : App) : HubStatus :=
  mkStatus (sc_source sc) (sc_mode sc) (sc_finished sc) (sc_error sc) (app_paused a).

Definition screen_turn (t : Turn) (sc : Scene) (s : Session) : option (Session * Frame) :=
  let s := refresh_view t s in
  '(drawn, view) ← draw (sc_area sc) (status_of sc (ss_app s)) (ss_app s) (ss_view s);
  '(a, view) ← deliver_key (tn_key t) (tick (fst drawn)) view;
  Some (mkSession a view (ss_seen s), snd drawn).

(** The frames in order, and the session they leave. *)
Fixpoint screen_loop (turns : list (Turn * Scene)) (s : Session) : option (Session * list Frame) :=
  match turns with
  | [] => Some (s, [])
  | (t, sc) :: rest =>
      if app_quit (ss_app s) then Some (s, [])
      else
        '(s', frame) ← screen_turn t sc s;
        '(last, frames) ← screen_loop rest s';
        Some (last, frame :: frames)
  end.
End Draw.

(** ** Where drawing panics *)

(** The sparkline of a series shows its last forty points, all of whose values
    times seven must fit [u64]. *)
Definition sparkable_rollup (r : Rollup) : Prop :=
  match r with
  | Series ring _ _ => from_option (fun vals => Forall (fun v => (v * 7 <= u64_max)%Z) (last_n 40 vals)) True (numeric ring)
  | _ => True
  end.

Definition sparkable (s : Stream) : Prop := Forall (fun e => sparkable_rollup e.2) (st_rollups s).

(** The stream selected in the Streams tab has a series no sparkline shows, or the
    playhead of the Timeline tab is no time of the clock. *)
Definition undrawable `{Env : ViewEnv} (s : Session) : Prop :=
  exists rows ix, app_rows (ss_app s) (ss_view s) = Some (rows, ix) /\
    match app_tab (ss_app s) with
    | Tab_Streams => exists r, row_at rows (selected_index (ss_app s) rows) = Some r /\ ~ sparkable (tr_stream r)
    | Tab_Timeline => exists span, capture_span (ix_snap ix) = Some span /\
        playhead_at span (app_timeline_t (ss_app s)) = None
    | _ => False
    end.

Lemma foldl_max_ge l x : (x <= foldl Z.max x l)%Z /\ forall v, v ∈ l -> (v <= foldl Z.max x l)%Z.
Proof.
  revert x. induction l as [|y l IH]; intros x; simpl; [split; [lia|by intros v ?%elem_of_nil]|].
  destruct (IH (Z.max x y)) as [H1 H2]. split; [lia|]. intros v [->|Hv]%elem_of_cons; [lia|by apply H2].
Qed.

Lemma iter_max_ge l v : v ∈ l -> (v <= default 0%Z (iter_max l))%Z.
Proof.
  destruct l as [|x l]; [by intros ?%elem_of_nil|]. simpl. destruct (foldl_max_ge l x) as [H1 H2].
  intros [->|Hv]%elem_of_cons; [done|by apply H2].
Qed.

(** A value at most the largest has its bar unless the product overflows. *)
Lemma spark_bar_some max v : (1 <= max)%Z -> (v <= max)%Z -> is_Some (spark_bar max v) <-> (v * 7 <= u64_max)%Z.
Proof.
  intros Hmax Hv. unfold spark_bar. destruct (Z.leb_spec (v * 7) u64_max) as [Hle|Hgt].
  - split; [done|]. intros _. apply lookup_lt_is_Some_2.
    assert (v * 7 / max <= 7)%Z by (apply Z.div_le_upper_bound; lia). simpl. lia.
  - split; [by intros [? ?]|lia].
Qed.

Lemma spark_str_some l : is_Some (spark_str l) <-> Forall (fun v => (v * 7 <= u64_max)%Z) l.
Proof.
  unfold spark_str. rewrite fmap_is_Some, mapM_is_Some, !Forall_forall. set (max := Z.max 1 _).
  assert (forall v, v ∈ l -> (v <= max)%Z) as Hmax.
  { intros v Hv. pose proof (iter_max_ge l v Hv). lia. }
  split; intros Hall v Hv; specialize (Hall v Hv); apply (spark_bar_some max v); auto; lia.
Qed.

Section Panics.
Context `{Env : ViewEnv}.

Lemma rollup_lines_some base protocol field r :
  is_Some (rollup_lines base protocol field r) <-> sparkable_rollup r.
Proof.
  destruct r as [values count overflow|first last|ring cap truncated]; simpl; [by split; eauto..|].
  destruct (numeric ring) as [[|v vs]|]; simpl.
  - split; [|by eauto]. intros _. constructor.
  - rewrite <- spark_str_some. destruct (spark_str _); simpl; split; eauto; by intros [].
  - by split; eauto.
Qed.

Lemma detail_lines_some s ids : is_Some (detail_lines s ids) <-> sparkable s.
Proof.
  unfold detail_lines, sparkable. destruct (endpoint_sides s) as [[a b] extras].
  assert (Forall (is_Some ∘ (fun e => rollup_lines (first_seen s) (st_protocol s) e.1 e.2)) (st_rollups s)
    <-> Forall (fun e => sparkable_rollup e.2) (st_rollups s)) as Hall.
  { apply Forall_iff. intros e. apply rollup_lines_some. }
  rewrite <- Hall, <- mapM_is_Some.
  destruct (mapM _ (st_rollups s)); simpl; split; intros [? ?]; by eauto.
Qed.
End Panics.

(** ** What drawing does to the application *)

Section Redraw.
Context `{Env : ViewEnv} (split : Direction -> list Constraint -> Rect -> nat -> Rect).

Lemma draw_body_redraw area s a' view :
  redraw (ss_app s) (ss_view s) = Some (a', view) ->
  (exists body, draw_body split area (ss_app s) (ss_view s) = Some ((a', body), view)) \/
  (draw_body split area (ss_app s) (ss_view s) = None /\ undrawable s).
Proof.
  unfold redraw, draw_body, undrawable, draw_streams, draw_timeline, draw_unknown, and_request, reply.
  destruct (app_tab (ss_app s)) eqn:Htab.
  - destruct (app_rows _ _) as [[rows ix]|] eqn:Hrows; [|done]. intros [= <- <-].
    destruct rows as [|r rows]; [left; by eexists|]. unfold anchor, reanchor, detail_pane.
    destruct (row_at _ _) as [row|] eqn:Hrow; [|left; by eexists].
    destruct (detail_lines (tr_stream row) (by_id (ix_snap ix))) eqn:Hd; simpl; [left; by eexists|right].
    split; [done|]. exists (r :: rows), ix. split; [done|]. exists row. split; [done|].
    rewrite <- (detail_lines_some _ (by_id (ix_snap ix))), Hd. by intros [].
  - destruct (app_rows _ _) as [[rows ix]|] eqn:Hrows; [|done]. intros [= <- <-].
    destruct (capture_span (ix_snap ix)) as [span|] eqn:Hspan; [|left; by eexists].
    destruct rows as [|r rows]; [left; by eexists|].
    destruct (playhead_at span _) as [p|] eqn:Hp; simpl; [left; by eexists|right].
    split; [done|]. exists (r :: rows), ix. split; [done|]. by exists span.
  - intros [= <- <-]. left. destruct (sn_unknowns _) as [|g gs]; [by eexists|].
    rewrite blen_cons. destruct (Z.eqb_spec (blen gs + 1) 0); [pose proof (blen_nonneg gs); lia|]. by eexists.
  - intros [= <- <-]. left. by eexists.
Qed.

(** A drawn turn is the turn of the loop, or stops at a frame it cannot draw. *)
Lemma screen_turn_event t sc s s' :
  event_turn t s = Some s' ->
  (exists frame, screen_turn split t sc s = Some (s', frame)) \/
  (screen_turn split t sc s = None /\ undrawable (refresh_view t s)).
Proof.
  unfold event_turn, screen_turn, draw. cbv zeta. unfold and_request at 1.
  set (s1 := refresh_view t s). destruct (redraw (ss_app s1) (ss_view s1)) as [[a1 v1]|] eqn:Hr; [|done].
  intros Hk. destruct (draw_body_redraw (split Vertical [Length 1; Length 1; Min 3; Length 1] (sc_area sc) 2%nat)
    s1 a1 v1 Hr) as [[body Hb]|[Hb Hu]].
  - left. unfold and_request at 1. rewrite Hb. simpl. destruct (deliver_key _ _ _) as [[a2 v2]|]; [|done].
    simpl in Hk. injection Hk as <-. by eexists.
  - right. unfold and_request at 1. by rewrite Hb.
Qed.

Lemma screen_loop_event turns s s' :
  event_loop turns.*1 s = Some s' ->
  (exists frames, screen_loop split turns s = Some (s', frames)) \/
  (screen_loop split turns s = None /\ exists i t sc si,
    turns !! i = Some (t, sc) /\ event_loop (take i turns.*1) s = Some si /\
    app_quit (ss_app si) = false /\ undrawable (refresh_view t si)).
Proof.
  revert s. induction turns as [|[t sc] turns IH]; intros s; simpl; [intros [= <-]; left; by eexists|].
  destruct (app_quit (ss_app s)) eqn:Hq; [intros [= <-]; left; by eexists|].
  destruct (event_turn t s) as [s1|] eqn:Hturn; [|done]. intros Hrest.
  destruct (screen_turn_event t sc s s1 Hturn) as [[frame Hf]|[Hf Hu]]; rewrite Hf; simpl.
  - destruct (IH s1 Hrest) as [[frames Hfs]|(Hfs & i & t' & sc' & si & Hi & Hsi & Hqi & Hui)]; rewrite Hfs; simpl.
    + left. by eexists.
    + right. split; [done|]. exists (S i), t', sc', si. simpl. by rewrite Hq, Hturn.
  - right. split; [done|]. exists 0%nat, t, sc, s. by rewrite Hq.
Qed.
End Redraw.

(** ** The columns of a lane *)

(** The characters of a text, each with its bytes. *)
Definition continues_char (s : string) : bool :=
  match s with String c _ => in_range 0x80 0xBF (ascii_code c) | EmptyString => false end.

Fixpoint characters (s : string) : list string :=
  match s with
  | EmptyString => []
  | String c s' =>
      match characters s', continues_char s' with
      | whole :: rest, true => String c whole :: rest
      | l, _ => String c "" :: l
      end
  end.

(** The cells of a line, each a character in its style. *)
Definition cells_of (spans : list Span) : list (string * Style) :=
  spans ≫= fun sp => (fun ch => (ch, sp_style sp)) <$> characters (sp_content sp).

(** What column [col] of a lane shows. *)
Definition lane_cell (t_col x0 x1 : Z) (bar_style : Style) (col : Z) : string * Style :=
  if (x0 <=? col)%Z && (col <=? x1)%Z
  then if (col =? t_col)%Z then ("┃", PLAYHEAD) else ("█", bar_style)
  else if (col =? t_col)%Z then ("│", PLAYHEAD) else ("·", TRACK).

(** One character, wherever it stands. *)
Definition one_char (ch : string) : Prop :=
  continues_char ch = false /\ ch <> "" /\
  forall s, continues_char s = false -> characters (ch +:+ s) = ch :: characters s.

Lemma one_char_lane : one_char "·" /\ one_char "█" /\ one_char "┃" /\ one_char "│".
Proof.
  split_and!; split; try done; split; try done; intros s Hs; simpl;
    change ("" +:+ s) with s; rewrite Hs; by destruct (characters s).
Qed.

Lemma characters_repeat ch n : one_char ch -> characters (repeat ch n) = replicate n ch.
Proof.
  intros (Hc & Hne & Happ). induction n as [|n IH]; [done|]. simpl. rewrite Happ, IH; [done|].
  destruct n; [done|]. simpl. by destruct ch.
Qed.

Lemma cells_app a b : cells_of (a ++ b) = (cells_of a ++ cells_of b)%list.
Proof. apply bind_app. Qed.

(** The cells [f] gives the columns [from..to]. *)
Definition columns {A} (f : Z -> A) (from to : Z) : list A := f <$> seqZ from (to - from).

Lemma columns_split {A} (f : Z -> A) from mid to :
  (from <= mid <= to)%Z -> columns f from to = (columns f from mid ++ columns f mid to)%list.
Proof.
  intros H. unfold columns. rewrite <- fmap_app. replace (to - from)%Z with (mid - from + (to - mid))%Z by lia.
  rewrite seqZ_app by lia. by replace (from + (mid - from))%Z with mid by lia.
Qed.

Lemma columns_ext {A} (f g : Z -> A) from to :
  (forall col, (from <= col < to)%Z -> f col = g col) -> columns f from to = columns g from to.
Proof.
  intros H. unfold columns. apply list_fmap_ext. intros i col [Hcol Hi]%lookup_seqZ. apply H. lia.
Qed.

Lemma cells_run from to ch style : one_char ch ->
  cells_of (push_run from to ch style) = columns (fun _ => (ch, style)) from to.
Proof.
  intros Hch. unfold push_run, columns. destruct (Z.ltb_spec from to) as [Hlt|Hge].
  - unfold cells_of. simpl. rewrite app_nil_r, characters_repeat, fmap_replicate by done.
    rewrite (const_fmap _ _ (ch, style)) by done. by rewrite length_seqZ.
  - by rewrite seqZ_nil by lia.
Qed.

(** A segment's columns, the playhead's apart. *)
Definition segment_cell (t_col : Z) (ch : string) (style : Style) (col : Z) : string * Style :=
  if (col =? t_col)%Z then (if String.eqb ch "█" then "┃" else "│", PLAYHEAD) else (ch, style).

Lemma cells_segment bar_w t_col from to ch style :
  one_char ch -> (Z.min from bar_w <= Z.min to bar_w)%Z ->
  cells_of (lane_segment bar_w t_col from to ch style) =
  columns (segment_cell t_col ch style) (Z.min from bar_w) (Z.min to bar_w).
Proof.
  intros Hch Hle. unfold lane_segment. destruct one_char_lane as (_ & _ & Hin & Hout).
  set (l := Z.min from bar_w). set (h := Z.min to bar_w).
  destruct (Z.leb_spec l t_col), (Z.ltb_spec t_col h); simpl; try rewrite cells_run by done;
    try (apply columns_ext; intros col Hcol; unfold segment_cell; by rewrite (proj2 (Z.eqb_neq col t_col)) by lia).
  rewrite (columns_split _ l t_col h), (columns_split _ t_col (t_col + 1) h) by lia.
  rewrite cells_app, (cells_run l t_col) by done. f_equal; [|etransitivity; [apply (cells_app [_])|f_equal]].
  - apply columns_ext. intros col Hcol. unfold segment_cell. by rewrite (proj2 (Z.eqb_neq col t_col)) by lia.
  - unfold columns, segment_cell. replace (t_col + 1 - t_col)%Z with 1%Z by lia. simpl. rewrite Z.add_0_l, Z.eqb_refl.
    by destruct (String.eqb ch "█").
  - rewrite cells_run by done. apply columns_ext. intros col Hcol. unfold segment_cell.
    by rewrite (proj2 (Z.eqb_neq col t_col)) by lia.
Qed.

Lemma cells_lane bar_w t_col x0 x1 style :
  (0 <= bar_w)%Z -> (0 <= x0 <= x1)%Z ->
  cells_of (lane_spans bar_w t_col x0 x1 style) = columns (lane_cell t_col x0 x1 style) 0 bar_w.
Proof.
  intros Hw Hx. destruct one_char_lane as (Htrack & Hbar & _). unfold lane_spans.
  rewrite !cells_app, !cells_segment by (done || lia).
  rewrite (columns_split (lane_cell _ _ _ _) 0 (Z.min x0 bar_w) bar_w) by lia.
  rewrite (columns_split (lane_cell _ _ _ _) (Z.min x0 bar_w) (Z.min (x1 + 1) bar_w) bar_w) by lia.
  replace (Z.min 0 bar_w) with 0%Z by lia. rewrite Z.min_id.
  f_equal; [|f_equal]; apply columns_ext; intros col Hcol; unfold segment_cell, lane_cell;
    destruct (Z.leb_spec x0 col), (Z.leb_spec col x1), (Z.eqb_spec col t_col); done || lia.
Qed.

Lemma to_usize_nonneg round x : (0 <= to_usize round x)%Z.
Proof.
  unfold to_usize, clamp. destruct x as [|[]| |]; try (unfold usize_max; lia). destruct (ratio_of m e).
  unfold usize_max. lia.
Qed.

Section Lanes.
Context `{Env : ViewEnv}.

(** A lane of the timeline is as wide as the track whatever the times, and shows in
    each column what it should: the bar from the first to the last column of the
    stream's life, never empty, and over it the playhead if it is on the track. *)
Theorem timeline_lane_exact span_start span_secs bar_w t_col playhead r :
  (0 <= bar_w)%Z ->
  let s := tr_stream r in
  let x0 := lane_x0 span_start span_secs bar_w s in
  let x1 := lane_x1 span_start span_secs bar_w s in
  exists label track,
    timeline_lane span_start span_secs bar_w t_col playhead r = [label; Text_lines [Line_from track]] /\
    cells_of track = lane_cell t_col x0 x1 (lane_style playhead s) <$> seqZ 0 bar_w /\
    (0 <= x0 <= x1)%Z.
Proof.
  intros Hw s x0 x1. unfold timeline_lane. do 2 eexists. split; [reflexivity|].
  assert (0 <= x0 <= x1)%Z as Hx.
  { split; [apply to_usize_nonneg|]. unfold x1, lane_x1. fold x0. lia. }
  split; [|done]. rewrite cells_lane by done. unfold columns. by rewrite Z.sub_0_r.
Qed.
End Lanes.

(** ** The sessions drawn *)

Section Drawn.
Context `{Env : ViewEnv} `{Hasher} (split : Direction -> list Constraint -> Rect -> nat -> Rect).

(** C15: Drawing is part of the session and does to it only what [redraw] says:
    whatever keys arrive, snapshots are published, sizes the terminal has and areas
    the layout gives, the loop that draws a frame every turn passes through the very
    sessions of [event_loop], whose invariant holds at its end, and returns the
    frames; or it panics at a frame, and then the session reached
    there has selected a stream whose sparkline overflows, or a playhead beyond the
    clock. *)
Theorem session_drawn e c latest turns :
  engine_wf e -> config_ok c -> published e c latest -> Forall (turn_ok e c) turns.*1 ->
  exists s, event_loop turns.*1 (session_start latest) = Some s /\ app_ok (ss_app s) /\
    ((exists frames, screen_loop split turns (session_start latest) = Some (s, frames)) \/
     (screen_loop split turns (session_start latest) = None /\
      exists i t sc si, turns !! i = Some (t, sc) /\
        event_loop (take i turns.*1) (session_start latest) = Some si /\
        app_quit (ss_app si) = false /\ undrawable (refresh_view t si))).
Proof.
  intros He Hc Hp Ht.
  destruct (event_loop_ok e c He Hc turns.*1 (session_start latest) Ht (session_start_ok e c He Hc latest Hp))
    as (s & Hs & [Ha _]).
  exists s. split; [done|]. split; [done|]. by apply screen_loop_event.
Qed.
End Drawn.

(** ** Witnesses *)

(** A terminal whose areas are all of it, over a finished file. *)
Definition whole_scene : Scene := mkScene (mkRect 0 0 120 40) "capture.pcap" "file" true None.

(** The overflow: a series value of [2^62] selected. *)
Example spark_overflows : spark_str [1; 2 ^ 62] = None /\ spark_str [0; 1; 4; 7] = Some "▁▂▅█".
Proof. vm_compute. split; reflexivity. Qed.

Example bar_str_examples :
  (bar_str 1 2 12, bar_str 0 0 4, bar_str 9 3 4) = ("██████░░░░░░", "░░░░", "████").
Proof. vm_compute. reflexivity. Qed.

Lemma session_drawn_witness :
  let _ := plain_env in
  let latest := snapshot (run store_engine (store_config EvictNone) store_trace) in
  let turns := (fun t => (t, whole_scene)) <$> sample_session in
  exists s frames, screen_loop (fun _ _ area _ => area) turns (session_start latest) = Some (s, frames) /\
    app_ok (ss_app s) /\ length frames = 12%nat.
Proof.
  intros env latest turns.
  assert (published store_engine (store_config EvictNone) latest) as Hp.
  { split; [|by vm_compute]. exists store_trace. split; [exact store_trace_ok|done]. }
  assert (turns.*1 = sample_session) as Hturns by reflexivity.
  assert (length ∘ snd <$> screen_loop (Env := env) (fun _ _ area _ => area) turns (session_start latest) = Some 12%nat)
    as Hlen by (vm_compute; reflexivity).
  destruct (session_drawn (Env := env) (fun _ _ area _ => area) store_engine (store_config EvictNone) latest turns
    store_engine_wf (I : config_ok (store_config EvictNone)) Hp) as (s & _ & Hok & [[frames Hf]|[Hf _]]).
  { rewrite Hturns. apply Forall_fmap, Forall_forall. intros code Hcode. split; [exact Hp|]. intros k [= <-].
    repeat (apply elem_of_cons in Hcode as [->|Hcode]; [vm_compute; repeat constructor; discriminate|]).
    destruct (not_elem_of_nil _ Hcode). }
  - exists s, frames. split; [exact Hf|]. split; [exact Hok|]. rewrite Hf in Hlen. by injection Hlen.
  - rewrite Hf in Hlen. discriminate Hlen.
Defined.
