(* ===== verification/ViewsProps.v ===== *)
(** * What the command line shows

    The tree of the text output is the walk of the terminal's tree pane with
    nothing collapsed; a selector finds the stream it names or says why not; the
    merged table accounts for every stream of its layer once; an exported group is
    on disk byte for byte. *)

From S2P Require Import Prelude Values Bytes Types Samples Engine Rollups Unknowns Arena Store.
From S2P Require Import StoreInv StoreKeys StoreHeaps StoreIngest Queries StoreProps.
From S2P Require Import Text Fmt FmtRead JsonProps StreamView Query QueryLex Snapshots ViewIndex ViewIndexProps Tree TreeProps.
From S2P Require Import Hub Json WebApi Capture Pipeline Views UnknownView.

(** ** The tree *)

(** The pane's name of an order. *)
Definition pane_sort (o : SortOrder) : Sort :=
  match o with
  | By_Bytes => Sort_Bytes
  | By_Packets => Sort_Packets
  | By_FirstSeen => Sort_FirstSeen
  | By_Duration => Sort_Duration
  end.

Section Tree_command.
Context `{Env : ViewEnv} (snap : AggregatorSnapshot) (order : SortOrder) (keep : option (gset Z)).

Definition pane_row (r : TreeRow) : Row := stream_row (tr_prefix r) (tr_stream r) false.

Lemma kept_siblings_pane l : kept_siblings (by_id snap) order keep l = siblings snap (pane_sort order) keep l.
Proof. unfold kept_siblings, siblings, order_siblings, sort_siblings. by destruct order. Qed.

Lemma nothing_collapsed s : is_expanded ∅ keep s = true.
Proof. unfold is_expanded. rewrite (bool_decide_eq_false_2 (_ ∈ ∅)) by set_solver. apply orb_true_r. Qed.

Lemma collect_children_branches collect sub gs kids rows :
  (forall gs' c rows, collect c (render gs') rows = (rows ++ (pane_row <$> sub gs' c))%list) ->
  collect_children collect (render gs) kids rows = (rows ++ (pane_row <$> branches sub gs kids))%list.
Proof.
  intros Hc. revert rows. induction kids as [|c kids IH]; intros rows; cbn [collect_children branches].
  - by rewrite fmap_nil, app_nil_r.
  - replace (match kids with [] => ELBOW | _ => TEE end)
      with (glyph_text (match kids with [] => G_Elbow | _ => G_Tee end)) by by destruct kids.
    rewrite <- render_snoc, Hc, IH, fmap_app, app_assoc. done.
Qed.

Lemma collect_subtree_walk fuel s gs rows :
  collect_subtree fuel (by_id snap) order keep s (render gs) rows =
  (rows ++ (pane_row <$> subtree snap (pane_sort order) ∅ keep fuel gs s))%list.
Proof.
  revert s gs rows. induction fuel as [|fuel IH]; intros s gs rows; cbn [collect_subtree subtree].
  - by rewrite fmap_nil, app_nil_r.
  - rewrite bare_render, nothing_collapsed, kept_siblings_pane.
    rewrite (collect_children_branches _ (subtree snap (pane_sort order) ∅ keep fuel)).
    + rewrite fmap_cons, <- app_assoc. done.
    + intros. apply IH.
Qed.

Lemma collect_roots fuel roots rows :
  foldl (fun rows root => collect_subtree fuel (by_id snap) order keep root "" rows) rows roots =
  (rows ++ (pane_row <$> (roots ≫= subtree snap (pane_sort order) ∅ keep fuel [])))%list.
Proof.
  revert rows. induction roots as [|r roots IH]; intros rows; cbn [foldl].
  - by rewrite app_nil_r.
  - change ""%string with (render []). rewrite collect_subtree_walk. change (render []) with ""%string.
    rewrite IH, bind_cons, fmap_app, app_assoc. done.
Qed.
End Tree_command.

Lemma tree_rows_browse `{Env : ViewEnv} snap order query :
  tree_rows snap order query =
  pane_row <$> browse snap (pane_sort order) ∅ (matching_with_ancestors (sn_streams snap) (by_id snap) <$> query).
Proof. unfold tree_rows, browse. rewrite collect_roots, kept_siblings_pane. done. Qed.

(** A query as the text it is read from; no text, no query. *)
Definition reads_as `{Env : ViewEnv} (raw : option string) (query : option Expr) : Prop :=
  match raw with
  | None => query = None
  | Some text => exists q, query = Some q /\ blank text = false /\ StreamQuery_parse text = Parsed (Ok q)
  end.

Lemma reads_as_sets `{Env : ViewEnv} snap raw query :
  reads_as raw query ->
  exists sets, spec_sets_of snap raw = Some sets /\
    snd <$> sets = matching_with_ancestors (sn_streams snap) (by_id snap) <$> query.
Proof.
  destruct raw as [text|]; simpl.
  - intros (q & -> & -> & Hq). unfold fresh_sets. rewrite Hq. eexists. split; [done|]. done.
  - intros ->. by exists None.
Qed.

Section Commands.
Context `{Env : ViewEnv} `{Hasher}.

(** C30: [pktflow streams] and the terminal's tree pane show the same tree: over
    the snapshot of any reachable aggregator the rows printed are one for each
    row of the pane's walk with nothing collapsed - the pane itself shows the first
    [MAX_ROWS] of them - with the same prefix; and they list every stream the
    query keeps, all of them without one, exactly once. *)
Theorem tree_command_pane e c pkts order raw query :
  engine_wf e -> config_ok c -> trace_ok pkts -> reads_as raw query ->
  let snap := snapshot (run e c pkts) in
  exists all pane,
    tree_rows snap order query = pane_row <$> all /\
    fst <$> flatten (pane_sort order) ∅ raw (SnapshotIndex_new snap) = Some pane /\
    pane = take (Z.to_nat MAX_ROWS) all /\
    NoDup (tr_stream <$> all) /\
    (forall s, s ∈ tr_stream <$> all <-> s ∈ sn_streams snap /\
       match query with
       | Some q => created_seq s ∈ matching_with_ancestors (sn_streams snap) (by_id snap) q
       | None => True
       end).
Proof.
  intros He Hc Ht Hq snap. destruct (reached_run False e c pkts He Hc Ht) as (Hs & _); [done|].
  apply store_snapshot_forest in Hs. fold snap in Hs.
  destruct (reads_as_sets snap raw query Hq) as (sets & Hsets & Hvis).
  pose proof (answers_fresh snap _ _ (answers_flatten snap Hs (pane_sort order) ∅ raw)) as Hf.
  rewrite Hsets in Hf. cbn [mbind option_bind] in Hf.
  exists (browse snap (pane_sort order) ∅ (snd <$> sets)). eexists.
  split; [by rewrite tree_rows_browse, Hvis|]. split; [exact Hf|]. split; [done|]. split; [by apply NoDup_browse|].
  intros s. rewrite (elem_of_browse snap Hs). destruct raw as [text|]; simpl in Hq.
  - destruct Hq as (q & -> & Hb & Hp). assert (exists ms, sets = Some ms) as [ms ->].
    { simpl in Hsets. rewrite Hb in Hsets. unfold fresh_sets in Hsets. rewrite Hp in Hsets. injection Hsets as <-. by eexists. }
    assert (ms.2 = matching_with_ancestors (sn_streams snap) (by_id snap) q) as <- by exact (inj Some _ _ Hvis).
    rewrite (visible_browsable snap Hs (pane_sort order) ∅ (Some text) ms (created_seq s) Hsets). split.
    + intros [Hin Hbr]. split; [done|]. exists s. split; [|done]. by apply (elem_of_browse snap Hs).
    + intros [Hin (t & Hin2%(elem_of_browse snap Hs) & Hseq)].
      by rewrite <- (seq_inj snap (sf_ok _ Hs) t s (proj1 Hin2) Hin Hseq).
  - subst query. destruct sets as [ms|]; [discriminate Hvis|]. split; [by intros [Hin _]|].
    intros [Hin _]. split; [done|]. split; [done|]. apply Forall_true. intros a. split; [done|].
    apply nothing_collapsed.
Qed.
End Commands.

(** ** Selectors *)

Section Selectors.
Context `{Env : ViewEnv} (str_debug : string -> string).

(** What a selector names: the stream of a display id, or any stream of a
    protocol whose two endpoints are given. *)
Definition named_by (snap : AggregatorSnapshot) (selector : string) (s : Stream) : Prop :=
  s ∈ sn_streams snap /\
  match strip_prefix "#" selector with
  | Some rest => parse_u64 rest = Some (created_seq s)
  | None => exists ep1 ep2, split_whitespace selector = [st_protocol s; ep1; ep2] /\
      pair_matches ep1 ep2 (by_id snap) s = true
  end.

Definition selector_ok (selector : string) : Prop :=
  match strip_prefix "#" selector with
  | Some rest => is_Some (parse_u64 rest)
  | None => length (split_whitespace selector) = 3%nat
  end.

(** A list without repetition has one element or it does not. *)
Lemma the_only {A} (l : list A) x : NoDup l ->
  (forall y, y ∈ l <-> y = x) <-> l = [x].
Proof.
  intros Hl. split; [|intros ->; intros y; apply list_elem_of_singleton].
  intros Hx. apply Permutation_singleton_r. apply NoDup_Permutation; [done|apply NoDup_singleton|].
  intros y. by rewrite Hx, list_elem_of_singleton.
Qed.

Lemma elem_of_candidates snap selector proto ep1 ep2 s :
  strip_prefix "#" selector = None -> split_whitespace selector = [proto; ep1; ep2] ->
  s ∈ filter (fun s => pair_matches ep1 ep2 (by_id snap) s = true)
        (filter (fun s => String.eqb (st_protocol s) proto = true) (sn_streams snap)) <-> named_by snap selector s.
Proof.
  intros Hp Hw. unfold named_by. rewrite Hp, Hw, !list_elem_of_filter, String.eqb_eq. split.
  - intros (Hm & <- & Hin). split; [done|]. by exists ep1, ep2.
  - intros (Hin & e1 & e2 & [= -> <- <-] & Hm). done.
Qed.

(** What [resolve_selector] returns, by the shape of the selector. *)
Lemma resolve_id snap selector rest :
  snapshot_ok snap -> strip_prefix "#" selector = Some rest ->
  match resolve_selector str_debug snap selector with
  | Ok s => named_by snap selector s /\ forall t, named_by snap selector t -> t = s
  | Error (Usage _) => ~ selector_ok selector
  | Error (NotFound _) => selector_ok selector /\ forall t, ~ named_by snap selector t
  | Error _ => False
  end.
Proof.
  intros Hok Hp. unfold resolve_selector, named_by, selector_ok. rewrite Hp.
  destruct (parse_u64 rest) as [seq|]; [|by intros []].
  destruct (find_first _ (sn_streams snap)) as [s|] eqn:Ef.
  - apply find_first_Some in Ef as [Hs Hseq%Z.eqb_eq]. subst seq. split; [done|].
    intros t [Ht [= Hseq]]. by apply (seq_inj snap Hok).
  - split; [by eexists|]. intros t [Ht [= ->]]. pose proof (proj1 (find_first_None _ _) Ef t Ht) as Hne.
    cbv beta in Hne. by rewrite Z.eqb_refl in Hne.
Qed.

Lemma resolve_pair snap selector :
  snapshot_ok snap -> strip_prefix "#" selector = None ->
  match resolve_selector str_debug snap selector with
  | Ok s => named_by snap selector s /\ forall t, named_by snap selector t -> t = s
  | Error (Usage _) => ~ selector_ok selector
  | Error (NotFound _) => selector_ok selector /\ forall s, named_by snap selector s ->
      exists t, named_by snap selector t /\ t <> s
  | Error _ => False
  end.
Proof.
  intros Hok Hp. unfold resolve_selector, selector_ok. rewrite Hp.
  destruct (split_whitespace selector) as [|proto [|ep1 [|ep2 [|]]]] eqn:Hw; try done.
  pose proof (fun s => elem_of_candidates snap selector proto ep1 ep2 s Hp Hw) as Hin.
  assert (NoDup (sn_streams snap)) as Hnd by (eapply NoDup_fmap_1, so_ids; exact Hok).
  set (cs := filter _ (filter _ (sn_streams snap))) in *.
  assert (NoDup cs) as Hcs by by repeat apply NoDup_filter.
  destruct cs as [|s [|t cs]].
  - split; [done|]. intros s Hs%Hin. by apply elem_of_nil in Hs.
  - split; [apply Hin; by left|]. intros t Ht%Hin. by apply list_elem_of_singleton in Ht.
  - split; [done|]. intros x Hx. apply NoDup_cons in Hcs as [Hne _].
    destruct (decide (created_seq x = created_seq s)) as [Heq|Hneq].
    + exists t. split; [apply Hin; right; by left|]. intros ->. apply Hne.
      assert (named_by snap selector s) as [Hs _] by (apply Hin; by left).
      rewrite <- (seq_inj snap Hok _ _ (proj1 Hx) Hs Heq). by left.
    + exists s. split; [apply Hin; by left|]. by intros ->.
Qed.

Lemma resolve_Ok snap selector s : snapshot_ok snap ->
  resolve_selector str_debug snap selector = Ok s <->
  named_by snap selector s /\ forall t, named_by snap selector t -> t = s.
Proof.
  intros Hok. destruct (strip_prefix "#" selector) as [rest|] eqn:Hp.
  - pose proof (resolve_id snap selector rest Hok Hp) as Hr.
    destruct (resolve_selector str_debug snap selector) as [t|[m|e|m|m|m]]; split; try done.
    + by intros [= <-].
    + intros [Hs _]. destruct Hr as [_ Ht]. by rewrite (Ht _ Hs).
    + unfold named_by, selector_ok in *. rewrite Hp in *. intros [[_ Hs] _]. destruct Hr. by eexists.
    + intros [Hs _]. by destruct (proj2 Hr s).
  - pose proof (resolve_pair snap selector Hok Hp) as Hr.
    destruct (resolve_selector str_debug snap selector) as [t|[m|e|m|m|m]]; split; try done.
    + by intros [= <-].
    + intros [Hs _]. destruct Hr as [_ Ht]. by rewrite (Ht _ Hs).
    + unfold named_by, selector_ok in *. rewrite Hp in *. intros [(_ & e1 & e2 & Hw & _) _]. destruct Hr. by rewrite Hw.
    + intros [Hs Honly]. destruct (proj2 Hr s Hs) as (t & Ht & Hne). by destruct (Hne (Honly t Ht)).
Qed.

Lemma exit_split err (P Q : Prop) :
  match err with Usage _ => ~ P | NotFound _ => P /\ Q | _ => False end ->
  (exit_code err = 2 <-> ~ P) /\ (exit_code err = 1 <-> P).
Proof.
  destruct err as [m|e|m|m|m]; simpl; try (intros []; fail); [intros Hn|intros [Hp _]]; repeat split; intros; done.
Qed.

Lemma resolve_Error snap selector err : snapshot_ok snap ->
  resolve_selector str_debug snap selector = Error err ->
  (exit_code err = 2 <-> ~ selector_ok selector) /\ (exit_code err = 1 <-> selector_ok selector).
Proof.
  intros Hok He. destruct (strip_prefix "#" selector) as [rest|] eqn:Hp.
  - pose proof (resolve_id snap selector rest Hok Hp) as Hr. rewrite He in Hr.
    exact (exit_split _ _ _ Hr).
  - pose proof (resolve_pair snap selector Hok Hp) as Hr. rewrite He in Hr.
    exact (exit_split _ _ _ Hr).
Qed.

Lemma pair_matches_comm ep1 ep2 ids s : pair_matches ep1 ep2 ids s = pair_matches ep2 ep1 ids s.
Proof.
  unfold pair_matches. destruct (endpoint_sides s) as [[a b] extras]. rewrite orb_comm. f_equal; apply andb_comm.
Qed.

(** C31: A stream selector on the command line: it resolves to a stream exactly when
    that stream is the one it names - the display id's, or the only one of the
    protocol with the two endpoints; otherwise it fails, as a usage error (exit 2)
    exactly when it is malformed and as a runtime error (exit 1) when what it
    names is missing or ambiguous; and the two endpoints may be given in either
    order. *)
Theorem resolve_selector_exact snap selector :
  snapshot_ok snap ->
  (forall s, resolve_selector str_debug snap selector = Ok s <->
     named_by snap selector s /\ forall t, named_by snap selector t -> t = s) /\
  (forall err, resolve_selector str_debug snap selector = Error err ->
     (exit_code err = 2 <-> ~ selector_ok selector) /\ (exit_code err = 1 <-> selector_ok selector)) /\
  (forall swapped proto ep1 ep2, strip_prefix "#" selector = None -> strip_prefix "#" swapped = None ->
     split_whitespace selector = [proto; ep1; ep2] -> split_whitespace swapped = [proto; ep2; ep1] ->
     forall s, resolve_selector str_debug snap selector = Ok s <-> resolve_selector str_debug snap swapped = Ok s).
Proof.
  intros Hok. split; [intros s; by apply resolve_Ok|]. split; [intros err; by apply resolve_Error|].
  intros swapped proto ep1 ep2 Hp Hp' Hw Hw' s. rewrite !resolve_Ok by done.
  assert (forall t, named_by snap selector t <-> named_by snap swapped t) as Hsame.
  { intros t. unfold named_by. rewrite Hp, Hp', Hw, Hw'. apply and_iff_compat_l.
    split; intros (e1 & e2 & [= -> <- <-] & Hm); do 2 eexists; (split; [reflexivity|]); by rewrite pair_matches_comm. }
  setoid_rewrite Hsame. done.
Qed.
End Selectors.

(** ** The merged table *)

Section Merged.
Context `{Env : ViewEnv}.

Definition of_key (k : list Z) (l : list Stream) : list Stream := filter (fun s => st_key s = k) l.

Lemma group_by_key_snoc l s : group_by_key (l ++ [s]) = group_stream (group_by_key l) s.
Proof. unfold group_by_key. by rewrite foldl_app. Qed.

(** The order is that of the rows of the aggregator's own fold, and a key's group
    are its streams. *)
Lemma group_by_key_spec l :
  (group_by_key l).1 = mv_key <$> foldl merge_node [] l /\
  (forall k, default [] ((group_by_key l).2 !! k) = of_key k l).
Proof.
  induction l as [|s l [IH1 IH2]] using rev_ind; [by split|].
  rewrite group_by_key_snoc, foldl_app. cbn [foldl]. rewrite merge_node_keys. unfold group_stream. cbn [fst snd]. split.
  - rewrite IH2, <- IH1. destruct (merge_nodes_merged l) as [_ Hrows Hall]. rewrite <- IH1 in Hall.
    unfold of_key. destruct (filter _ l) as [|t f] eqn:Ef; case_decide as Hd.
    + exfalso. rewrite IH1 in Hd. apply list_elem_of_fmap in Hd as (r & Hk & Hr).
      rewrite Forall_forall in Hrows. destruct (Hrows r Hr) as (_ & Hne & _). by rewrite <- Hk, Ef in Hne.
    + done.
    + by rewrite app_nil_r.
    + destruct Hd. assert (t ∈ filter (fun x => st_key x = st_key s) l) as Ht by (rewrite Ef; by left).
      apply list_elem_of_filter in Ht as [<- Ht]. by apply Hall.
  - intros k. unfold of_key. rewrite filter_app. destruct (decide (st_key s = k)) as [<-|Hne].
    + rewrite lookup_insert_eq, filter_cons_True, filter_nil by done. cbn [default from_option]. unfold id. f_equal. apply IH2.
    + rewrite lookup_insert_ne, filter_cons_False, filter_nil, app_nil_r by done. apply IH2.
Qed.

Lemma sum_packets_stats l : sum_over total_packets l = st_packets (sum_stats l).1 + st_packets (sum_stats l).2.
Proof. induction l as [|s l IH]; simpl; [done|]. rewrite IH. unfold total_packets. lia. Qed.

Lemma sum_bytes_stats l : sum_over total_bytes l = st_bytes (sum_stats l).1 + st_bytes (sum_stats l).2.
Proof. induction l as [|s l IH]; simpl; [done|]. rewrite IH. unfold total_bytes. lia. Qed.

(** The line [r] stands for the row [v] of the aggregator's merged view of [l]. *)
Definition stands_for (l : list Stream) (v : MergedStreamView) (r : Row) : Prop :=
  let nodes := of_key (mv_key v) l in
  st_id <$> nodes = mv_nodes v /\ merged_row nodes = Some r /\
  pkts r = (thousands (st_packets (mv_stats v).1 + st_packets (mv_stats v).2) +:+ " pkts")%string /\
  bytes_col r = human_bytes (st_bytes (mv_stats v).1 + st_bytes (mv_stats v).2).

Lemma row_of_stands l v : row_of l v -> exists r, stands_for l v r.
Proof.
  intros (Hids & Hne & Hst & _). unfold stands_for. fold (of_key (mv_key v) l) in *.
  destruct (of_key (mv_key v) l) as [|s nodes] eqn:E; [done|]. eexists. split; [done|]. split; [reflexivity|].
  cbn [pkts bytes_col]. rewrite Hst, sum_packets_stats, sum_bytes_stats. done.
Qed.

Lemma merged_rows_of (l : list Stream) (views : list MergedStreamView) (groups : gmap (list Z) (list Stream)) :
  (forall k, default [] (groups !! k) = of_key k l) -> Forall (row_of l) views ->
  exists rows, mapM (fun key => nodes ← groups !! key; merged_row nodes) (mv_key <$> views) = Some rows /\
    Forall2 (stands_for l) views rows.
Proof.
  intros Hg Hv. induction Hv as [|v views Hv _ (rows & Hrows & IH)]; [by exists []|].
  destruct (row_of_stands l v Hv) as [r Hr]. exists (r :: rows). split; [|by constructor].
  destruct Hv as (_ & Hne & _). fold (of_key (mv_key v) l) in Hne. destruct Hr as (_ & Hr & _).
  rewrite fmap_cons. apply mapM_Some. constructor; [|by apply mapM_Some].
  pose proof (Hg (mv_key v)) as Hk. destruct (groups !! mv_key v) as [nodes|]; simpl in Hk.
  - by rewrite <- Hk in Hr.
  - by rewrite <- Hk in Hne.
Qed.

Lemma merged_table (l : list Stream) :
  exists rows, (let '(order, groups) := group_by_key l in
    mapM (fun key => nodes ← groups !! key; merged_row nodes) order) = Some rows /\
    Forall2 (stands_for l) (foldl merge_node [] l) rows.
Proof.
  destruct (group_by_key_spec l) as [Ho Hg]. destruct (group_by_key l) as [order groups]. cbn [fst snd] in *.
  subst order. apply merged_rows_of; [done|]. by destruct (merge_nodes_merged l).
Qed.

Lemma layer_streams_at_layer a proto : layer_streams (snapshot a) proto None = at_layer a proto.
Proof.
  unfold layer_streams, at_layer, snapshot. cbn [sn_streams].
  rewrite <- filter_sort_by by apply _.
  rewrite list_filter_filter. apply list_filter_iff. intros s. rewrite String.eqb_eq. simpl. intuition.
Qed.

(** C34: [pktflow streams --layer P --merged] and the aggregator's own merged view
    agree: over the snapshot of an aggregator the table has one line per row of
    [at_layer_merged], in the same order, each listing the row's nodes and showing
    the sums of its statistics; and whatever the query, no lookup of the fold panics. *)
Theorem merged_command_fold a proto :
  (exists rows, merged_rows (snapshot a) proto None = Some rows /\
     Forall2 (stands_for (at_layer a proto)) (at_layer_merged a proto) rows) /\
  (forall query, exists rows, merged_rows (snapshot a) proto query = Some rows /\
     Forall2 (stands_for (layer_streams (snapshot a) proto query))
       (foldl merge_node [] (layer_streams (snapshot a) proto query)) rows).
Proof.
  split; [|intros query; apply merged_table].
  unfold at_layer_merged. rewrite <- layer_streams_at_layer. apply merged_table.
Qed.
End Merged.

(** ** The export of a group *)

Section Exporting.
Context (to_string_pretty : Json -> result (list Z) string).

Definition relative (file : string) : Prop := strip_prefix "/" file = None.

Lemma path_join_inj dir f g : relative f -> relative g -> path_join dir f = path_join dir g -> f = g.
Proof.
  unfold relative, path_join. intros -> ->.
  destruct (reverse (str_bytes dir)) as [|b l]; [done|]. intros Hj.
  repeat case_match; repeat apply (inj (String.append _)) in Hj; done.
Qed.

Lemma slug_byte bytes b : b ∈ slug_bytes bytes -> b <> 47.
Proof.
  intros (x & -> & _)%list_elem_of_fmap. destruct (is_ascii_alphanumeric x) eqn:Ex; [|done].
  intros ->. by vm_compute in Ex.
Qed.

Lemma slug_bytes_ok bytes : bytes_ok bytes -> bytes_ok (slug_bytes bytes).
Proof.
  intros Hok. apply Forall_fmap, Forall_forall. intros x [_ Hx]%list_elem_of_filter.
  rewrite Forall_forall in Hok. apply Hok in Hx. simpl. by case_match.
Qed.

Lemma sample_relative key i : relative (sample_file (slug_for key) i).
Proof.
  unfold relative. destruct (strip_prefix "/" _) as [r|] eqn:E; [|done]. exfalso.
  apply strip_prefix_Some, (f_equal str_bytes) in E. unfold sample_file, slug_for in E.
  rewrite (str_bytes_append (text_of _)), str_bytes_text_of in E by apply slug_bytes_ok, str_bytes_ok.
  rewrite (str_bytes_append "/") in E.
  change (str_bytes "/") with [47] in E.
  destruct (slug_bytes _) as [|b l] eqn:Es; [by vm_compute in E|]. injection E as Hb _.
  assert (b ∈ b :: l) as Hin by by left. rewrite <- Es in Hin. by apply (slug_byte _ _ Hin).
Qed.

Lemma sample_file_inj slug i j : sample_file slug i = sample_file slug j -> i = j.
Proof.
  unfold sample_file. intros Hs. apply (inj (String.append _)), (inj (String.append _)) in Hs.
  apply (f_equal str_bytes) in Hs. rewrite !str_bytes_append in Hs. apply app_inv_tail, str_bytes_inj in Hs.
  apply (inj pretty) in Hs. lia.
Qed.

Lemma sample_not_manifest slug i : sample_file slug i <> "manifest.json"%string.
Proof.
  intros Hs. apply (f_equal (fun s => reverse (str_bytes s))) in Hs. unfold sample_file in Hs.
  rewrite !str_bytes_append, !reverse_app in Hs. by vm_compute in Hs.
Qed.
(** Where the [i]-th sample of a slug goes. *)
Definition sample_path (dir slug : string) (i : nat) : string := path_join dir (sample_file slug i).

Lemma sample_path_inj dir key i j :
  sample_path dir (slug_for key) i = sample_path dir (slug_for key) j -> i = j.
Proof. intros Hp%path_join_inj; [by apply sample_file_inj in Hp|apply sample_relative..]. Qed.

(** A write either stores its bytes and succeeds, or is an [Io] error; it touches no
    other file. *)
Lemma fs_write_frame path data o files p : p <> path -> (fs_write path data o files).2 !! p = files !! p.
Proof. intros Hp. destruct o as [|[data'|] message]; [by apply lookup_insert_ne|by apply lookup_insert_ne|done]. Qed.

Lemma fs_write_stored path data o files :
  match fs_write path data o files with
  | (Ok _, files') => files' !! path = Some data
  | (Error e, _) => exit_code e = 1
  end.
Proof. destruct o as [|[data'|] message]; [apply lookup_insert_eq|done|done]. Qed.

Lemma next_fs_ok io : Forall (eq Fs_Ok) io -> (next_fs io).1 = Fs_Ok /\ Forall (eq Fs_Ok) (next_fs io).2.
Proof. by intros [|o io' <- Hf]. Qed.

Lemma write_samples_spec dir key l : forall i io files,
  let '(r, io', files') := write_samples dir (slug_for key) i l io files in
  match r with
  | Ok _ => forall j sample, l !! j = Some sample -> files' !! sample_path dir (slug_for key) (i + j) = Some sample
  | Error e => exit_code e = 1
  end /\
  (forall p, (forall j, (j < length l)%nat -> p <> sample_path dir (slug_for key) (i + j)) -> files' !! p = files !! p) /\
  (Forall (eq Fs_Ok) io -> r = Ok tt /\ Forall (eq Fs_Ok) io').
Proof.
  induction l as [|s l IH]; intros i io files; [done|]. cbn [write_samples].
  destruct (next_fs io) as [o io1] eqn:En. fold (sample_path dir (slug_for key) i).
  pose proof (fs_write_frame (sample_path dir (slug_for key) i) s o files) as Hframe.
  assert (Forall (eq Fs_Ok) io -> o = Fs_Ok /\ Forall (eq Fs_Ok) io1) as Hio.
  { intros Hf%next_fs_ok. by rewrite En in Hf. }
  assert (forall p, (forall j, (j < length (s :: l))%nat -> p <> sample_path dir (slug_for key) (i + j)) ->
    p <> sample_path dir (slug_for key) i) as Hhere.
  { intros p Hp. rewrite <- (Nat.add_0_r i). apply Hp. simpl. lia. }
  destruct o as [|left message].
  - cbn [fs_write] in *. specialize (IH (S i) io1 (<[sample_path dir (slug_for key) i:=s]> files)).
    destruct (write_samples _ _ (S i) l io1 _) as [[r io'] files']. destruct IH as (Hr & Hf & Hok). split_and!.
    + destruct r; [|done]. intros [|j] sample; cbn; [intros [= <-]|].
      * rewrite Nat.add_0_r, Hf; [apply lookup_insert_eq|]. intros j _ Hj%sample_path_inj. lia.
      * intros Hj. rewrite Nat.add_succ_r. by apply Hr.
    + intros p Hp. rewrite Hf; [by apply Hframe, Hhere|]. intros j Hj.
      replace (S i + j)%nat with (i + S j)%nat by lia. apply Hp. simpl. lia.
    + intros Hf'. by apply Hok, Hio.
  - destruct (fs_write _ _ _ _) as [[u|e] files'] eqn:Ew; [by destruct left|]. cbn [snd] in Hframe. split_and!.
    + pose proof (fs_write_stored (sample_path dir (slug_for key) i) s (Fs_Fail left message) files) as Hst. by rewrite Ew in Hst.
    + intros p Hp. by apply Hframe, Hhere.
    + intros [Hd _]%Hio. done.
Qed.

(** C32: [pktflow unknown --export]: when it succeeds, every retained sample of the
    group is in its own file byte for byte and the manifest is the document that
    lists them; it touches no other file; its only failures are runtime errors
    (exit 1), and it does succeed when every call into the file system does. *)
Theorem export_group_exact group dir source io files :
  let path := sample_path dir (slug_for (ug_key group)) in
  let index := path_join dir "manifest.json" in
  let '(r, files') := export_group to_string_pretty group dir source io files in
  match r with
  | Ok p => p = index /\
      (exists text, to_string_pretty (manifest group source) = Ok text /\ files' !! index = Some text) /\
      (forall i sample, samples group !! i = Some sample -> files' !! path i = Some sample)
  | Error e => exit_code e = 1
  end /\
  (forall p, p <> index -> (forall i, (i < length (samples group))%nat -> p <> path i) -> files' !! p = files !! p) /\
  (Forall (eq Fs_Ok) io -> (exists text, to_string_pretty (manifest group source) = Ok text) -> r = Ok index).
Proof.
  intros path index. unfold export_group. destruct (next_fs io) as [o io1] eqn:En.
  assert (Forall (eq Fs_Ok) io -> o = Fs_Ok /\ Forall (eq Fs_Ok) io1) as Hio.
  { intros Hf%next_fs_ok. by rewrite En in Hf. }
  destruct o as [|left message]; [|split_and!; [done|done|by intros [? _]%Hio]].
  pose proof (write_samples_spec dir (ug_key group) (samples group) 0 io1 files) as Hw.
  destruct (write_samples _ _ 0 _ io1 files) as [[[u|e] io2] files1]; destruct Hw as (Hr & Hf & Hok).
  2:{ split_and!; [done|intros p _; apply Hf|]. intros [_ Hi]%Hio. by destruct (Hok Hi). }
  fold index. destruct (to_string_pretty (manifest group source)) as [text|e] eqn:Et.
  2:{ split_and!; [done|intros p _; apply Hf|]. by intros _ []. }
  pose proof (fs_write_frame index text (next_fs io2).1 files1) as Hframe.
  pose proof (fs_write_stored index text (next_fs io2).1 files1) as Hstored.
  assert (forall i, path i <> index) as Hne.
  { intros i Hi%path_join_inj; [by apply sample_not_manifest in Hi|apply sample_relative|done]. }
  destruct (fs_write index text (next_fs io2).1 files1) as [w files2] eqn:Ew. cbn [fst snd] in Hframe, Hstored.
  assert (forall p, p <> index -> (forall i, (i < length (samples group))%nat -> p <> path i) ->
    files2 !! p = files !! p) as Hrest.
  { intros p Hp Hs. rewrite Hframe by done. by apply Hf. }
  destruct w as [w|e]; split_and!; try done.
  - by exists text.
  - intros i sample Hi. rewrite Hframe by done. by apply (Hr i).
  - intros Hi. apply Hio in Hi as [_ Hi]. destruct (Hok Hi) as [_ Hi2]. exfalso.
    apply next_fs_ok in Hi2 as [Ho _]. by rewrite Ho in Ew.
Qed.
End Exporting.

(** ** Witnesses *)

Lemma sample_snapshot_ok : snapshot_ok (snapshot (run store_engine (store_config EvictNone) store_trace)).
Proof.
  assert (config_ok (store_config EvictNone)) as Hc by done.
  destruct (reached_run False store_engine (store_config EvictNone) store_trace store_engine_wf Hc store_trace_ok)
    as (Hs & _); [done|].
  by apply sf_ok, store_snapshot_forest.
Qed.

Lemma tree_command_pane_witness :
  let _ := plain_env in
  let snap := snapshot (run store_engine (store_config EvictNone) store_trace) in
  exists all, tree_rows snap By_Bytes (Some (FlagTerm Flag_Leaf)) = pane_row <$> all /\
    tr_prefix <$> all = [""; TEE; TEE; TEE; ELBOW]%string.
Proof.
  intros env snap. assert (config_ok (store_config EvictNone)) as Hc by done.
  assert (reads_as (Some "leaf"%string) (Some (FlagTerm Flag_Leaf))) as Hq.
  { exists (FlagTerm Flag_Leaf). split; [done|]. split; vm_compute; reflexivity. }
  destruct (tree_command_pane (Env := env) store_engine (store_config EvictNone) store_trace By_Bytes
    (Some "leaf"%string) (Some (FlagTerm Flag_Leaf)) store_engine_wf Hc store_trace_ok Hq)
    as (all & pane & Hrows & Hpane & Htake & _).
  exists all. split; [exact Hrows|].
  assert (length all = 5%nat) as Hlen.
  { rewrite <- (length_fmap pane_row), <- Hrows. vm_compute. reflexivity. }
  assert (all = pane) as -> by (rewrite Htake; symmetry; apply take_ge; rewrite Hlen; vm_compute; lia).
  vm_compute in Hpane. injection Hpane as <-. reflexivity.
Defined.

Lemma resolve_selector_exact_witness :
  let _ := plain_env in
  let snap := snapshot (run store_engine (store_config EvictNone) store_trace) in
  let resolve := resolve_selector (fun s => s) snap in
  (exists s, resolve "#1"%string = Ok s /\ named_by snap "#1" s) /\
  (exists err, resolve "tcp"%string = Error err /\ exit_code err = 2) /\
  (exists err, resolve "#99"%string = Error err /\ exit_code err = 1).
Proof.
  intros env snap resolve. split_and!.
  - destruct (resolve "#1"%string) as [s|] eqn:Hs; [|by vm_compute in Hs]. exists s. split; [done|].
    destruct (resolve_selector_exact (fun s => s) snap "#1" sample_snapshot_ok) as [Hok _].
    exact (proj1 (proj1 (Hok s) Hs)).
  - destruct (resolve "tcp"%string) as [|err] eqn:Hs; [by vm_compute in Hs|]. exists err. split; [done|].
    destruct (resolve_selector_exact (fun s => s) snap "tcp" sample_snapshot_ok) as (_ & Herr & _).
    apply (proj1 (Herr err Hs)). vm_compute. discriminate.
  - destruct (resolve "#99"%string) as [|err] eqn:Hs; [by vm_compute in Hs|]. exists err. split; [done|].
    destruct (resolve_selector_exact (fun s => s) snap "#99" sample_snapshot_ok) as (_ & Herr & _).
    apply (proj2 (Herr err Hs)). exists 99. vm_compute. reflexivity.
Defined.

Definition sample_group : UnknownGroup :=
  mkGroup (mkUnknownKey "udp" (Some (UdpPort 51820))) 2 7 3 4 0 1000 [] false [] [[1; 2; 3]; [4; 5; 6; 7]].

Lemma export_group_exact_witness :
  exists files, export_group (fun _ => Ok [123; 125]) sample_group "out" "f.pcap" [] ∅ = (Ok "out/manifest.json"%string, files) /\
    files !! "out/udp_udp_port_51820-2.bin"%string = Some [4; 5; 6; 7].
Proof.
  pose proof (export_group_exact (fun _ => Ok [123; 125]) sample_group "out" "f.pcap" [] ∅) as Hx.
  destruct (export_group (fun _ => Ok [123; 125]) sample_group "out" "f.pcap" [] ∅) as [r files].
  destruct Hx as (Hr & _ & Hok). specialize (Hok (List.Forall_nil _) (ex_intro _ [123; 125] eq_refl)). subst r.
  exists files. split; [vm_compute; reflexivity|]. destruct Hr as (_ & _ & Hs). exact (Hs 1%nat [4; 5; 6; 7] eq_refl).
Defined.
