(* ===== verification/Commands.v ===== *)
(** * The commands

    Models [crates/pktflow-cli/src/lib.rs] and [main.rs]: what each subcommand
    runs, prints and returns.  Printing appends to what is on the two standard
    streams, which accept everything; only the buffered writer of [packets] and
    the JSON writer of [serde_json] can fail, as their parameters say.  [None] is a
    schedule that does not take the run to its end, or a panic: of the query lexer,
    or of the thread that aggregates ([Pipeline.pipe]). *)

From S2P Require Import Prelude Values Bytes Types Engine Parser Unknowns Store Queries.
From S2P Require Import Text Fmt Query QueryLex App Hub Json DefaultEngine Capture Pipeline PipelineProps Views UnknownView.
Local Open Scope string_scope.

(** ** cli.rs: the subcommands *)

Inductive Format := F_Text | F_Json.

Record StreamsArgs := mkStreamsArgs {
  sa_shared : SharedArgs;
  sa_format : Format;
  sa_layer : option string;
  sa_merged : bool;
  sa_batch : bool;
  sa_sort : SortOrder;
  sa_where : option string;
}.

Record StreamArgs := mkStreamArgs {
  st_shared : SharedArgs;
  st_format : Format;
  st_selector : string;
  st_full_series : bool;
}.

Record PacketsArgs := mkPacketsArgs {
  pa_shared : SharedArgs;
  pa_format : Format;
  pa_verbose : Z;
  pa_no_streams : bool;
}.

Record UnknownArgs := mkUnknownArgs {
  ua_shared : SharedArgs;
  ua_format : Format;
  ua_selector : option string;
  ua_top : Z;
  ua_min_count : Z;
  ua_samples : Z;
  ua_full_samples : bool;
  ua_export : option string;
  ua_scaffold : option string;
  ua_plugins_dir : option string;
}.

Inductive Command :=
  | C_Streams (args : StreamsArgs)
  | C_Stream (args : StreamArgs)
  | C_Packets (args : PacketsArgs)
  | C_Tui (shared : SharedArgs)
  | C_Serve (shared : SharedArgs)
  | C_Ifaces
  | C_Unknown (args : UnknownArgs).

(** ** Output *)

Record Screen := mkScreen { stdout : string; stderr : string }.

Definition print (text : string) (t : Screen) : Screen := mkScreen (stdout t +:+ text) (stderr t).
Definition eprint (text : string) (t : Screen) : Screen := mkScreen (stdout t) (stderr t +:+ text).

(** What a failed write of the packet writer was. *)
Inductive WriteError := BrokenPipe | Other_error (message : string).

Section Commands.
Context `{Env : ViewEnv} `{Hasher} (str_debug : string -> string) (format_rfc3339 : SystemTime -> option string).
(** [Display] of a document; what [to_writer] writes of one, and its error;
    [to_string_pretty]. *)
Context (json_str : Json -> string) (write_json : Json -> string * option string).
Context (to_string_pretty : Json -> result (list Z) string).
(** The run: its source as opened, the schedule of its threads, and the clock. *)
Context {S : Type} `{PacketSource S} (opened : opening S) (sched : list thread) (elapsed : Duration).
Context (clock : nat -> Instant).

Definition print_json (doc : Json) (t : Screen) : result unit CliError * Screen :=
  match write_json doc with
  | (text, Some e) => (Error (Internal ("JSON serialization: " +:+ e)), print text t)
  | (text, None) => (Ok tt, print newline (print text t))
  end.

(** [print_json(..)?], then the summary on the standard error. *)
Definition and_summary (outcome : RunOutcome) (printed : result unit CliError * Screen) : result unit CliError * Screen :=
  match printed with
  | (Ok _, t) => (Ok tt, eprint (render_summary outcome) t)
  | (Error e, t) => (Error e, t)
  end.

(** ** streams *)

(** The query of [--where]. *)
Definition parse_where (where_ : option string) : option (result (option Expr) CliError) :=
  match where_ with
  | None => Some (Ok None)
  | Some text =>
      match StreamQuery_parse text with
      | Parsed (Ok q) => Some (Ok (Some q))
      | Parsed (Error e) => Some (Error (Usage ("--where: " +:+ QueryError_to_string e)))
      | _ => None
      end
  end.

(** [--batch]; pacing only sleeps. *)
Definition batch (args : StreamsArgs) (query : option Expr) (t : Screen) : option (result unit CliError * Screen) :=
  '(r, _) ← run_plain str_debug sched (sa_shared args) elapsed true (fun _ _ o => o) opened tt;
  match r with
  | Error e => Some (Error e, t)
  | Ok outcome =>
      printed ←
        match sa_format args with
        | F_Text =>
            match out_snapshot outcome with
            | None => Some (Error (Internal "streams run without snapshot"), t)
            | Some snap =>
                body ← match sa_layer args, sa_merged args with
                       | Some layer, false => Some (streams_flat snap layer query)
                       | Some layer, true => streams_merged snap layer query
                       | None, _ => Some (streams_tree snap (sa_sort args) query)
                       end;
                Some (Ok tt, print body t)
            end
        | F_Json => Some (print_json (json_envelope format_rfc3339 outcome query) t)
        end;
      Some (and_summary outcome printed)
  end.

(** What the redrawing closure captures, with the number of reads of the clock. *)
Record Watching := mkWatching { last_draw : Instant; wa_screen : Screen; wa_reads : nat }.

Definition redraw_due (sort : SortOrder) (source : string) (query : option Expr) (agg : Aggregator) (w : Watching)
    : Watching :=
  if (from_secs 1 <=? since (clock (wa_reads w)) (last_draw w))%Z
  then mkWatching (clock (Datatypes.S (wa_reads w)))
         (print (watch_frame (snapshot agg) sort source query) (wa_screen w)) (Datatypes.S (Datatypes.S (wa_reads w)))
  else mkWatching (last_draw w) (wa_screen w) (Datatypes.S (wa_reads w)).

Definition watch_source (shared : SharedArgs) : string :=
  default "" (match arg_read shared with Some path => Some path | None => arg_iface shared end).

Definition watch (args : StreamsArgs) (query : option Expr) (t : Screen) : option (result unit CliError * Screen) :=
  '(r, w) ← run_observed str_debug sched (sa_shared args) elapsed true false (fun _ _ w => w)
              (redraw_due (sa_sort args) (watch_source (sa_shared args)) query) opened (mkWatching (clock 0) t 1);
  match r with
  | Error e => Some (Error e, wa_screen w)
  | Ok outcome =>
      match out_snapshot outcome with
      | None => Some (Error (Internal "watch run without snapshot"), wa_screen w)
      | Some snap =>
          Some (Ok tt, eprint (render_summary outcome)
                         (print (watch_frame snap (sa_sort args) (out_source_name outcome) query) (wa_screen w)))
      end
  end.

Definition print_line (doc : Json) (t : Screen) : Screen := print (json_str doc +:+ newline) t.

(** The tracker the two closures share, and what they print. *)
Definition watch_json (args : StreamsArgs) (t : Screen) : option (result unit CliError * Screen) :=
  '(r, p) ← run_live str_debug sched (sa_shared args) elapsed (fun _ _ p => p)
              (fun agg p => print_poll format_rfc3339 clock agg p)
              (fun ev p => print_evicted format_rfc3339 ev p) opened (NdjsonTracker_new clock, []);
  let t := foldl (fun t doc => print_line doc t) t p.2 in
  match r with
  | Error e => Some (Error e, t)
  | Ok outcome =>
      match out_snapshot outcome with
      | None => Some (Error (Internal "watch json run without snapshot"), t)
      | Some snap => Some (Ok tt, eprint (render_summary outcome) (print_line (summary_event outcome snap) t))
      end
  end.

Definition streams_command (args : StreamsArgs) (t : Screen) : option (result unit CliError * Screen) :=
  parsed ← parse_where (sa_where args);
  match parsed with
  | Error e => Some (Error e, t)
  | Ok query =>
      if negb (sa_batch args) && negb (bool_decide (is_Some (sa_layer args))) then
        match sa_format args, query with
        | F_Text, _ => watch args query t
        | F_Json, Some _ => Some (Error (Usage "--where with --format json requires --batch"), t)
        | F_Json, None => watch_json args t
        end
      else batch args query t
  end.

(** ** stream *)

Definition stream_command (args : StreamArgs) (t : Screen) : option (result unit CliError * Screen) :=
  '(r, _) ← run_plain str_debug sched (st_shared args) elapsed true (fun _ _ o => o) opened tt;
  match r with
  | Error e => Some (Error e, t)
  | Ok outcome =>
      match out_snapshot outcome with
      | None => Some (Error (Internal "stream run without snapshot"), t)
      | Some snap =>
          match stream_detail str_debug snap (st_selector args) (st_full_series args) with
          | Error e => Some (Error e, t)
          | Ok detail =>
              Some (and_summary outcome
                      (match st_format args with
                       | F_Text => (Ok tt, print detail t)
                       | F_Json => print_json (json_envelope format_rfc3339 outcome None) t
                       end))
          end
      end
  end.

(** ** packets *)

(** The writer's [n]-th write fails or not, and the flush at the end. *)
Context (write_fails : nat -> option WriteError) (flush_fails : option WriteError).

Record Writing := mkWriting { wr_screen : Screen; write_err : option WriteError; wr_count : nat }.

Definition write_packet (args : PacketsArgs) (index : Z) (event : PacketEvent) (w : Writing) : Writing :=
  match write_err w with
  | Some _ => w
  | None =>
      let text :=
        match pa_format args with
        | F_Text => packet_block index (pe_packet event) (pa_verbose args) (pe_tail_sample event) (pe_heuristic event)
        | F_Json => json_str (packet_json index (pe_packet event)) +:+ newline
        end in
      match write_fails (wr_count w) with
      | Some e => mkWriting (wr_screen w) (Some e) (Datatypes.S (wr_count w))
      | None => mkWriting (print text (wr_screen w)) None (Datatypes.S (wr_count w))
      end
  end.

Definition packets_command (args : PacketsArgs) (t : Screen) : option (result unit CliError * Screen) :=
  '(r, w) ← run_packets str_debug sched (pa_shared args) elapsed (negb (pa_no_streams args)) (write_packet args) opened
              (mkWriting t None 0);
  Some match r with
  | Error e => (Error e, wr_screen w)
  | Ok outcome =>
      match (match write_err w with None => flush_fails | err => err end) with
      | Some BrokenPipe => (Ok tt, wr_screen w)
      | Some (Other_error m) => (Error (Cli_Io m), wr_screen w)
      | None => (Ok tt, eprint (render_summary outcome) (wr_screen w))
      end
  end.

(** ** tui and serve *)

(** The interface of either front end has ended with [ui]; the pipeline is joined
    whatever it is.  A pipeline that panicked, which the code reports as an internal
    error, is [None] here like one that has not ended. *)
Definition front_end (shared : SharedArgs) (file_len : string -> option Z) (ui : result unit string)
    : option (result unit CliError * SnapshotHub) :=
  '(pipeline_result, hub) ← spawn_hub_pipeline str_debug sched clock file_len elapsed shared opened (hub_for shared);
  Some (match ui with Error m => Error (Cli_Io m) | Ok _ => pipeline_result end, hub).

(** An upload swaps the input, stops the pipeline that feeds the page and makes the
    fresh flags the active ones: the arguments and the hub of the pipeline spawned,
    the flags it replaces and its own. *)
Definition spawn_upload (shared : SharedArgs) (active : StopFlags) (upload_name path : string)
    : SharedArgs * SnapshotHub * StopFlags * StopFlags :=
  (mkShared (Some path) None (arg_count shared) (arg_depth shared) (arg_idle_timeout shared) (arg_max_streams shared)
     (arg_series_cap shared) (arg_no_condense shared) (arg_condense_threshold shared) (arg_entry shared),
   SnapshotHub_new upload_name Mode_Offline, trigger active, StopFlags_default).

(** ** ifaces *)

Definition ifaces_command (names : result (list string) PkError) (t : Screen) : result unit CliError * Screen :=
  match list_interfaces names with
  | Error e => (Error (Capture_failed e), t)
  | Ok interfaces => (Ok tt, print (ifaces_text interfaces) t)
  end.

(** ** unknown *)

(** [selector.strip_prefix('#').and_then(|s| s.parse().ok()).unwrap_or(0)]. *)
Definition selector_number (selector : string) : Z :=
  default 0%Z (rest ← strip_prefix "#" selector; WebApi.parse_u64 rest).

Definition unknown_action (args : UnknownArgs) (outcome : RunOutcome) (n : Z) (group : UnknownGroup)
    (io : list FsOutcome) (files : Files) (t : Screen) : result unit CliError * Screen * Files :=
  match ua_export args, ua_scaffold args with
  | Some dir, _ =>
      match export_group to_string_pretty group dir (out_source_name outcome) io files with
      | (Error e, files) => (Error e, t, files)
      | (Ok path, files) => (Ok tt, print ("exported " +:+ show_Z n +:+ " to " +:+ path +:+ newline) t, files)
      end
  | None, Some plugin =>
      let dir := default "crates/pktflow-plugins/src" (ua_plugins_dir args) in
      match scaffold_plugin str_debug dir plugin (Some group) io files with
      | (Error e, files) => (Error e, t, files)
      | (Ok path, files) =>
          (Ok tt,
           print ("next: add `.plugin(" +:+ plugin +:+ "::" +:+ pascal_case plugin +:+
                  ")` to default_engine() in crates/pktflow-plugins/src/lib.rs" +:+ newline)
             (print ("scaffolded " +:+ path +:+ newline) t), files)
      end
  | None, None =>
      match ua_format args with
      | F_Text => (Ok tt, print (drilldown_text format_rfc3339 n group (ua_samples args) (ua_full_samples args)) t, files)
      | F_Json => (print_json (drilldown_json format_rfc3339 n group) t, files)
      end
  end.

Definition unknown_command (args : UnknownArgs) (io : list FsOutcome) (files : Files) (t : Screen)
    : option (result unit CliError * Screen * Files) :=
  '(r, _) ← run_unknown str_debug sched (ua_shared args) elapsed opened tt;
  Some match r with
  | Error e => (Error e, t, files)
  | Ok outcome =>
      match out_snapshot outcome with
      | None => (Error (Internal "unknown run without snapshot"), t, files)
      | Some snap =>
          let '(printed, files) :=
            match ua_selector args with
            | None =>
                (match ua_format args with
                 | F_Text => (Ok tt, print (table_text snap (ua_top args) (ua_min_count args)) t)
                 | F_Json => print_json (table_json format_rfc3339 snap (ua_top args) (ua_min_count args)) t
                 end, files)
            | Some selector =>
                match resolve_group str_debug snap selector (ua_top args) (ua_min_count args) with
                | Error e => (Error e, t, files)
                | Ok group => unknown_action args outcome (selector_number selector) group io files t
                end
            end in
          (and_summary outcome printed, files)
      end
  end.
(** ** dispatch

    What the other commands take besides: the names of the interfaces, the lengths
    of files, how the interface of a front end ended, and the address served on. *)

Definition dispatch (command : Command) (names : result (list string) PkError) (file_len : string -> option Z)
    (ui : result unit string) (bound : option string) (io : list FsOutcome) (files : Files) (t : Screen)
    : option (result unit CliError * Screen * Files) :=
  match command with
  | C_Streams args => (fun p => (p, files)) <$> streams_command args t
  | C_Stream args => (fun p => (p, files)) <$> stream_command args t
  | C_Packets args => (fun p => (p, files)) <$> packets_command args t
  | C_Tui shared => (fun p => (p.1, t, files)) <$> front_end shared file_len ui
  | C_Serve shared =>
      let t := match bound with
               | Some addr => eprint ("pktflow web UI on http://" +:+ addr +:+ "/ — Ctrl-C to stop" +:+ newline) t
               | None => t
               end in
      (fun p => (p.1, t, files)) <$> front_end shared file_len ui
  | C_Ifaces => Some (ifaces_command names t, files)
  | C_Unknown args => unknown_command args io files t
  end.
End Commands.

(** ** main.rs *)

(** The end of [main]: the error on the standard error, and the status. *)
Definition exit_with (str_debug : string -> string) (r : result unit CliError) (t : Screen) : Screen * Z :=
  match r with
  | Ok _ => (t, 0%Z)
  | Error e => (eprint ("pktflow: " +:+ cli_error_str str_debug e +:+ newline) t, exit_code e)
  end.

(** The Ctrl-C handler: the first press triggers the flags, another one exits with
    the status given. *)
Definition on_interrupt (presses : nat) (stop : StopFlags) (t : Screen) : nat * StopFlags * Screen * option Z :=
  match presses with
  | O => (1%nat, trigger stop,
          eprint (newline +:+ "stopping — finishing streams (Ctrl-C again to exit now)" +:+ newline) t, None)
  | Datatypes.S _ => (Datatypes.S presses, stop, t, Some 130%Z)
  end.

(** ** What a command leaves on the streams *)

(** The commands that print one result at their end. *)
Definition single_result (command : Command) : bool :=
  match command with
  | C_Streams args => sa_batch args || bool_decide (is_Some (sa_layer args))
  | C_Stream _ | C_Unknown _ => true
  | C_Packets _ | C_Tui _ | C_Serve _ | C_Ifaces => false
  end.

Lemma append_app (a b c : string) : (a +:+ b) +:+ c = a +:+ (b +:+ c).
Proof. induction a as [|x a IH]; [done|]. exact (f_equal (String x) IH). Qed.


Lemma print_twice a b t : print b (print a t) = print (a +:+ b) t.
Proof. unfold print. simpl. by rewrite append_app. Qed.

(** A result, before it is printed. *)
Inductive Printed := P_text (body : string) | P_json (doc : Json).

Section Left.
Context `{Env : ViewEnv} `{Hasher} (str_debug : string -> string) (format_rfc3339 : SystemTime -> option string).
Context (json_str : Json -> string) (write_json : Json -> string * option string).
Context (to_string_pretty : Json -> result (list Z) string).
Context {S : Type} `{PacketSource S} (opened : opening S) (sched : list thread) (elapsed : Duration).
Context (clock : nat -> Instant) (write_fails : nat -> option WriteError) (flush_fails : option WriteError).

(** The query a command is given, and the run it makes. *)
Definition command_query (command : Command) : option (result (option Expr) CliError) :=
  match command with C_Streams args => parse_where (sa_where args) | _ => Some (Ok None) end.

Definition command_run (command : Command) : option (result RunOutcome CliError) :=
  match command with
  | C_Streams args =>
      fst <$> run_plain str_debug sched (sa_shared args) elapsed true (fun _ _ o => o) opened tt
  | C_Stream args =>
      fst <$> run_plain str_debug sched (st_shared args) elapsed true (fun _ _ o => o) opened tt
  | C_Unknown args => fst <$> run_unknown str_debug sched (ua_shared args) elapsed opened tt
  | _ => None
  end.

(** The result of an outcome, with the files it leaves; [None] is a panic of the
    merged rows. *)
Definition streams_result (args : StreamsArgs) (query : option Expr) (outcome : RunOutcome)
    : option (result Printed CliError) :=
  match sa_format args, out_snapshot outcome with
  | F_Json, _ => Some (Ok (P_json (json_envelope format_rfc3339 outcome query)))
  | F_Text, None => Some (Error (Internal "streams run without snapshot"))
  | F_Text, Some snap =>
      (fun body => Ok (P_text body)) <$>
        match sa_layer args with
        | None => Some (streams_tree snap (sa_sort args) query)
        | Some layer =>
            if sa_merged args then streams_merged snap layer query else Some (streams_flat snap layer query)
        end
  end.

Definition stream_result (args : StreamArgs) (outcome : RunOutcome) : result Printed CliError :=
  match out_snapshot outcome with
  | None => Error (Internal "stream run without snapshot")
  | Some snap =>
      match stream_detail str_debug snap (st_selector args) (st_full_series args), st_format args with
      | Error e, _ => Error e
      | Ok detail, F_Text => Ok (P_text detail)
      | Ok _, F_Json => Ok (P_json (json_envelope format_rfc3339 outcome None))
      end
  end.

Definition group_result (args : UnknownArgs) (outcome : RunOutcome) (n : Z) (group : UnknownGroup)
    (io : list FsOutcome) (files : Files) : result Printed CliError * Files :=
  match ua_export args, ua_scaffold args with
  | Some dir, _ =>
      let '(r, files) := export_group to_string_pretty group dir (out_source_name outcome) io files in
      (match r with
       | Ok path => Ok (P_text ("exported " +:+ show_Z n +:+ " to " +:+ path +:+ newline))
       | Error e => Error e
       end, files)
  | None, Some plugin =>
      let dir := default "crates/pktflow-plugins/src" (ua_plugins_dir args) in
      let '(r, files) := scaffold_plugin str_debug dir plugin (Some group) io files in
      (match r with
       | Ok path => Ok (P_text ("scaffolded " +:+ path +:+ newline +:+ "next: add `.plugin(" +:+ plugin +:+ "::" +:+
           pascal_case plugin +:+ ")` to default_engine() in crates/pktflow-plugins/src/lib.rs" +:+ newline))
       | Error e => Error e
       end, files)
  | None, None =>
      (Ok match ua_format args with
          | F_Text => P_text (drilldown_text format_rfc3339 n group (ua_samples args) (ua_full_samples args))
          | F_Json => P_json (drilldown_json format_rfc3339 n group)
          end, files)
  end.

Definition unknown_result (args : UnknownArgs) (outcome : RunOutcome) (io : list FsOutcome) (files : Files)
    : result Printed CliError * Files :=
  match out_snapshot outcome, ua_selector args with
  | None, _ => (Error (Internal "unknown run without snapshot"), files)
  | Some snap, None =>
      (Ok match ua_format args with
          | F_Text => P_text (table_text snap (ua_top args) (ua_min_count args))
          | F_Json => P_json (table_json format_rfc3339 snap (ua_top args) (ua_min_count args))
          end, files)
  | Some snap, Some selector =>
      match resolve_group str_debug snap selector (ua_top args) (ua_min_count args) with
      | Error e => (Error e, files)
      | Ok group => group_result args outcome (selector_number selector) group io files
      end
  end.

Definition command_result (command : Command) (query : option Expr) (outcome : RunOutcome) (io : list FsOutcome)
    (files : Files) : option (result Printed CliError * Files) :=
  match command with
  | C_Streams args => (fun r => (r, files)) <$> streams_result args query outcome
  | C_Stream args => Some (stream_result args outcome, files)
  | C_Unknown args => Some (unknown_result args outcome io files)
  | _ => None
  end.

(** The streams after a result: the whole of it on the standard output and the
    summary of its run on the standard error; or, when the JSON writer fails, what
    that has written. *)
Definition delivered (t : Screen) (outcome : RunOutcome) (printed : Printed) : result unit CliError * Screen :=
  let summary := render_summary outcome in
  match printed with
  | P_text body => (Ok tt, mkScreen (stdout t +:+ body) (stderr t +:+ summary))
  | P_json doc =>
      match write_json doc with
      | (text, None) => (Ok tt, mkScreen (stdout t +:+ text +:+ newline) (stderr t +:+ summary))
      | (text, Some m) =>
          (Error (Internal ("JSON serialization: " +:+ m)), mkScreen (stdout t +:+ text) (stderr t))
      end
  end.

Definition left_by (t : Screen) (outcome : RunOutcome) (res : result Printed CliError) : result unit CliError * Screen :=
  match res with Ok printed => delivered t outcome printed | Error e => (Error e, t) end.

Lemma print_json_left t outcome doc : and_summary outcome (print_json write_json doc t) = delivered t outcome (P_json doc).
Proof. unfold print_json, delivered. destruct (write_json doc) as [text [m|]]; [done|]. simpl. by rewrite print_twice. Qed.

Lemma batch_left args query t printed :
  batch str_debug format_rfc3339 write_json opened sched elapsed args query t = Some printed ->
  exists ran, command_run (C_Streams args) = Some ran /\
    match ran with
    | Error e => printed = (Error e, t)
    | Ok outcome => exists res, streams_result args query outcome = Some res /\ printed = left_by t outcome res
    end.
Proof.
  unfold batch. intros ([r o] & Hrun & Hr)%bind_Some. exists r. cbn [command_run]. rewrite Hrun. split; [done|].
  destruct r as [outcome|e]; [|by injection Hr as <-]. apply bind_Some in Hr as (p & Hp & [= <-]).
  unfold streams_result. destruct (sa_format args); [|injection Hp as <-; eexists; split; [done|apply print_json_left]].
  destruct (out_snapshot outcome); [|injection Hp as <-; eexists; split; reflexivity].
  apply bind_Some in Hp as (body & Hb & [= <-]). exists (Ok (P_text body)). split; [|done].
  destruct (sa_layer args) as [layer|]; [destruct (sa_merged args)|].
  - rewrite Hb. reflexivity.
  - injection Hb as <-. reflexivity.
  - injection Hb as <-. reflexivity.
Qed.

Lemma stream_command_left args t printed :
  stream_command str_debug format_rfc3339 write_json opened sched elapsed args t = Some printed ->
  exists ran, command_run (C_Stream args) = Some ran /\
    match ran with
    | Error e => printed = (Error e, t)
    | Ok outcome => printed = left_by t outcome (stream_result args outcome)
    end.
Proof.
  unfold stream_command. intros ([r o] & Hrun & Hr)%bind_Some. exists r. cbn [command_run]. rewrite Hrun.
  split; [done|]. destruct r as [outcome|e]; [|by injection Hr as <-]. unfold stream_result.
  destruct (out_snapshot outcome) as [snap|]; [|by injection Hr as <-].
  destruct (stream_detail _ _ _ _) as [detail|e]; injection Hr as <-; [|reflexivity].
  destruct (st_format args); [reflexivity|apply print_json_left].
Qed.

Lemma unknown_action_left args outcome n group io files t :
  let '(printed, files') :=
    unknown_action str_debug format_rfc3339 write_json to_string_pretty args outcome n group io files t in
  let '(res, files'') := group_result args outcome n group io files in
  and_summary outcome printed = left_by t outcome res /\ files' = files''.
Proof.
  unfold unknown_action, group_result. destruct (ua_export args) as [dir|].
  { by destruct (export_group _ _ _ _ _ _) as [[path|e] fs]. }
  destruct (ua_scaffold args) as [plugin|].
  { destruct (scaffold_plugin _ _ _ _ _ _) as [[path|e] fs]; [|done]. split; [|done].
    rewrite print_twice, !append_app. reflexivity. }
  destruct (ua_format args); [done|]. split; [|done]. apply print_json_left.
Qed.

Lemma unknown_command_left args io files t printed files' :
  unknown_command str_debug format_rfc3339 write_json to_string_pretty opened sched elapsed args io files t
    = Some (printed, files') ->
  exists ran, command_run (C_Unknown args) = Some ran /\
    match ran with
    | Error e => printed = (Error e, t) /\ files' = files
    | Ok outcome => exists res, unknown_result args outcome io files = (res, files') /\
        printed = left_by t outcome res
    end.
Proof.
  unfold unknown_command. intros ([r o] & Hrun & [= Hr])%bind_Some. exists r. cbn [command_run]. rewrite Hrun.
  split; [done|]. destruct r as [outcome|e]; [|injection Hr as <- <-; split; reflexivity]. unfold unknown_result.
  destruct (out_snapshot outcome) as [snap|]; [|injection Hr as <- <-; eexists; split; reflexivity].
  destruct (ua_selector args) as [selector|].
  - destruct (resolve_group _ _ _ _ _) as [group|e]; [|injection Hr as <- <-; eexists; split; reflexivity].
    pose proof (unknown_action_left args outcome (selector_number selector) group io files t) as Ha.
    destruct (unknown_action _ _ _ _ _ _ _ _ _ _ _) as [p fs]. injection Hr as <- <-.
    destruct (group_result _ _ _ _ _ _) as [res fs']. destruct Ha as [-> ->].
    exists res. split; reflexivity.
  - injection Hr as <- <-. eexists. split; [reflexivity|].
    destruct (ua_format args); [reflexivity|apply print_json_left].
Qed.

(** C33: A command that prints one result at its end - the batch and flat tables, a
    stream's drill-down, the unknown lens - prints it as a whole or not at all.  It
    is the command's own: of the query it was given and the outcome of the run it
    made.  When the query is bad, the run fails or the result cannot be made - a
    selector that resolves to nothing, a failed export - the command fails with that
    error and nothing has reached either stream; otherwise the standard output has
    grown by the whole result and the standard error by the summary of the same
    outcome, unless the JSON writer itself fails: then by what that had written, and
    there is no summary.  The files are the ones the result leaves. *)
Theorem single_result_streams command names file_len ui bound io files t r t' files' :
  single_result command = true ->
  dispatch str_debug format_rfc3339 json_str write_json to_string_pretty opened sched elapsed clock write_fails
    flush_fails command names file_len ui bound io files t = Some (r, t', files') ->
  exists parsed, command_query command = Some parsed /\
    match parsed with
    | Error e => r = Error e /\ t' = t /\ files' = files
    | Ok query => exists ran, command_run command = Some ran /\
        match ran with
        | Error e => r = Error e /\ t' = t /\ files' = files
        | Ok outcome => exists res, command_result command query outcome io files = Some (res, files') /\
            match res with
            | Error e => r = Error e /\ t' = t
            | Ok printed => (r, t') = delivered t outcome printed
            end
        end
    end.
Proof.
  assert (forall outcome res, (r, t') = left_by t outcome res ->
    match res with Error e => r = Error e /\ t' = t | Ok printed => (r, t') = delivered t outcome printed end) as Hleft.
  { intros outcome [printed|e] Hl; [exact Hl|]. injection Hl as -> ->. split; reflexivity. }
  intros Hc Hd. destruct command as [args|args|args|shared|shared| |args]; try discriminate Hc; simpl in Hd.
  - apply fmap_Some in Hd as (p & Hd & [= <- ->]). unfold streams_command in Hd.
    apply bind_Some in Hd as (parsed & Hq & Hd). exists parsed. split; [exact Hq|].
    destruct parsed as [query|e]; [|injection Hd as <- <-; split_and!; reflexivity].
    simpl in Hc. rewrite <- negb_orb, Hc in Hd. destruct (batch_left _ _ _ _ Hd) as (ran & Hrun & Hp).
    exists ran. split; [exact Hrun|]. destruct ran as [outcome|e]; [|injection Hp as -> ->; split_and!; reflexivity].
    destruct Hp as (res & Hres & Hp). exists res. cbn [command_result]. rewrite Hres.
    split; [reflexivity|exact (Hleft _ _ Hp)].
  - apply fmap_Some in Hd as (p & Hd & [= <- ->]). exists (Ok None). split; [reflexivity|].
    destruct (stream_command_left _ _ _ Hd) as (ran & Hrun & Hp). exists ran. split; [exact Hrun|].
    destruct ran as [outcome|e]; [|injection Hp as -> ->; split_and!; reflexivity].
    exists (stream_result args outcome). split; [reflexivity|exact (Hleft _ _ Hp)].
  - exists (Ok None). split; [reflexivity|]. destruct (unknown_command_left _ _ _ _ _ _ Hd) as (ran & Hrun & Hp).
    exists ran. split; [exact Hrun|].
    destruct ran as [outcome|e]; [|destruct Hp as [Hp ->]; injection Hp as -> ->; split_and!; reflexivity].
    destruct Hp as (res & Hres & Hp). exists res. cbn [command_result]. rewrite Hres.
    split; [reflexivity|exact (Hleft _ _ Hp)].
Qed.
End Left.

(** ** The live view ends on the batch tree *)





Section Watch_batch.
Context `{Env : ViewEnv} `{Hasher} (str_debug : string -> string) (format_rfc3339 : SystemTime -> option string).
Context (write_json : Json -> string * option string).
Context (e : Engine) (He : ships e) {S : Type} `{PacketSource S} (src : S) (mode : HubMode) (source_name : string).
Context (elapsed : Duration) (clock : nat -> Instant).

#[local] Abbreviation opened := (Ok (src, mode, source_name)).




Definition with_batch (b : bool) (args : StreamsArgs) : StreamsArgs :=
  mkStreamsArgs (sa_shared args) (sa_format args) (sa_layer args) (sa_merged args) b (sa_sort args) (sa_where args).




End Watch_batch.

(** ** Witnesses *)

#[local] Instance commands_hasher : Hasher := {| key_hash := foldr Z.add 0%Z; encoding_digest := foldr Z.add 0%Z |}.

Definition blank_screen : Screen := mkScreen "" "".

Definition mock_opened : opening MockSource := Ok (mock_run, Mode_Offline, "capture.pcap").

Definition bad_selector : option (result unit CliError * Screen * Files) :=
  dispatch (Env := plain_env) (fun s => s) (fun _ => None) (fun _ => "") (fun _ => ("", None)) (fun _ => Ok []) mock_opened mock_schedule 7
    (fun n => Z.of_nat n) (fun _ => None) None (C_Stream (mkStreamArgs mock_args F_Text "bogus" false))
    (Ok []) (fun _ => None) (Ok tt) None [] ∅ blank_screen.

Definition fails_with (code : Z) (r : option (result unit CliError * Screen * Files)) : bool :=
  match r with Some (Error e, _, _) => (exit_code e =? code)%Z | _ => false end.

Lemma bad_selector_fails : fails_with 2 bad_selector = true.
Proof. vm_compute. reflexivity. Qed.

Definition mock_streams : StreamsArgs := mkStreamsArgs mock_args F_Text None false false By_Bytes None.

(** [streams --batch] over the mock run. *)
Definition batch_run : option (result unit CliError * Screen * Files) :=
  dispatch (Env := plain_env) (fun s => s) (fun _ => None) (fun _ => "") (fun _ => ("", None)) (fun _ => Ok []) mock_opened mock_schedule 7
    (fun n => Z.of_nat n) (fun _ => None) None (C_Streams (with_batch true mock_streams))
    (Ok []) (fun _ => None) (Ok tt) None [] ∅ blank_screen.

Definition succeeds (r : option (result unit CliError * Screen * Files)) : bool :=
  match r with Some (Ok _, _, _) => true | _ => false end.

Lemma batch_run_succeeds : succeeds batch_run = true.
Proof. vm_compute. reflexivity. Qed.

(** A batch run prints the tree of its own snapshot, and a bad selector nothing. *)
Lemma single_result_streams_witness :
  let _ := plain_env in
  (exists outcome snap t' files, batch_run = Some (Ok tt, t', files) /\ out_snapshot outcome = Some snap /\
     stdout t' = streams_tree snap By_Bytes None /\
     stderr t' = render_summary outcome) /\
  exists e t' files, bad_selector = Some (Error e, t', files) /\ exit_code e = 2%Z /\ t' = blank_screen.
Proof.
  intros env. split.
  - pose proof batch_run_succeeds as Hb. destruct batch_run as [[[[[]|e] t'] files]|] eqn:E; try discriminate Hb.
    clear Hb. unfold batch_run in E.
    destruct (single_result_streams (Env := plain_env) (fun s => s) (fun _ => None) (fun _ => "") (fun _ => ("", None))
      (fun _ => Ok []) mock_opened mock_schedule 7 (fun n => Z.of_nat n) (fun _ => None) None
      (C_Streams (with_batch true mock_streams)) (Ok []) (fun _ => None) (Ok tt) None [] ∅ blank_screen (Ok tt) t' files
      eq_refl E) as (parsed & Hq & Hp). injection Hq as <-. destruct Hp as ([outcome|e] & _ & Hp); [|by destruct Hp].
    destruct Hp as (res & Hres & Hp). cbn in Hres. destruct (out_snapshot outcome) as [snap|] eqn:Es.
    + injection Hres as <- _. injection Hp as ->. exists outcome, snap. eexists _, files. by split_and!.
    + injection Hres as <- _. by destruct Hp.
  - pose proof bad_selector_fails as Hb. destruct bad_selector as [[[[u|e] t'] files]|] eqn:E; try discriminate Hb.
    exists e, t', files. split; [reflexivity|]. apply Z.eqb_eq in Hb. split; [exact Hb|]. unfold bad_selector in E.
    destruct (single_result_streams (Env := plain_env) (fun s => s) (fun _ => None) (fun _ => "") (fun _ => ("", None))
      (fun _ => Ok []) mock_opened mock_schedule 7 (fun n => Z.of_nat n) (fun _ => None) None
      (C_Stream (mkStreamArgs mock_args F_Text "bogus" false)) (Ok []) (fun _ => None) (Ok tt) None [] ∅ blank_screen (Error e) t' files
      eq_refl E) as (parsed & Hq & Hp). injection Hq as <-. destruct Hp as ([outcome|e1] & _ & Hp); [|by destruct Hp as (_ & ? & _)].
    destruct Hp as ([[body|doc]|e1] & _ & Hp); [discriminate Hp|discriminate Hp|by destruct Hp as [_ ?]].
Defined.

